(* ===== verification/_CoqProject ===== *)
-Q . S2P
Prelude.v
Spinlock.v
Pmmap.v
MAT.v
Container.v
Mem.v
Vmm.v
Isolation.v
Mmu.v
DList.v
Thread.v
Sched.v
RoundRobin.v
LayerTests.v
LayerSpec.v
UserCopy.v
Bufcache.v
BufSpec.v
Log.v
LogSpec.v
Crash.v
Inode.v
Dir.v
PathSpec.v
File.v
InodeSpec.v
BlockSpec.v
FileSpec.v
FileRW.v
FileOps.v
DirSpec.v
TruncSpec.v
Console.v
ConsoleSpec.v
Seg.v
Sysfile.v
WalkSpec.v
Printf.v
PrintfSpec.v
Trap.v
TrapSpec.v
ChdirSpec.v
PutsSpec.v
Lapic.v
LapicSpec.v
Intr.v
IntrSpec.v
Mp.v
MpSpec.v
Devinit.v
Ulib.v
Shell.v
ShellSpec.v
Fstest.v
FstestSpec.v
Boot.v
BootSpec.v
