(* ===== verification/Prelude.v ===== *)
(** * mCertiKOS: a verification development

    mCertiKOS is a small 32-bit x86 kernel in C: physical and virtual memory with quotas,
    threads and a round-robin scheduler, a disk with a buffer cache and a logging file
    system, a console, several processors, traps and system calls; user programs run on a
    small library and a shell.  This library models the kernel under src/kern, the library,
    the shell and the tests under src/user and the boot loader under src/boot as functions on
    their state, and proves what the parts promise to each other and to user processes.

    ** How code is modelled

    A C function is a computation [M St A] on the state [St] of its component: it returns
    a value and the new state ([Ret]), panics ([Panic], a KERN_PANIC or KERN_ASSERT of a
    build with DEBUG_MSG), leaves the defined behaviour of C ([Fault]: an index out of its
    array, a null pointer, a signed overflow), or does not return ([Hang]: a lock that is never released, a
    wait that nothing ends, a loop beyond its fuel).  [runs m s P] says that [m] returns
    from [s] with [P]; it excludes the other outcomes, so that every theorem with [runs]
    also shows termination.  Integers are of type Z with the wrap-around of their C type
    written out ([u32], [s32], [u8], ...); arrays are maps with checked indices; the
    memory is a map from addresses to bytes, in which page tables and buffers live.  The
    state of a component contains that of the components it calls, and [Lens] and [zoom]
    run the code of the inner one.  Whether the build has DEBUG_MSG, the number of the
    processor and the addresses that the linker chooses are parameters (the classes
    [KEnv], [KernelLayout], [SysLayout], [TrapLayout], [Stack]); so is what hardware that
    the kernel only asks answers (timers, cpuid).

    ** Files

    - Prelude: the monad, integers, arrays, loops, lenses, the rules of [runs], and [keeps]
      for what a computation leaves unchanged whenever it returns.
    - Spinlock (kern/lib/spinlock.c, reentrant_lock.c): the locks as sequential code, and
      as transition systems whose steps are the single memory accesses of acquire, try and
      release by all processors, which the sequential code makes in this order; mutual
      exclusion is an invariant by induction on the steps.
    - Pmmap (kern/dev/mboot.c): the memory map of the boot loader.
    - MAT (kern/pmm/MATIntro, MATInit, MATOp): the table of physical pages and palloc.
    - Container (kern/pmm/MContainer): quotas; no process is refused a page below its
      quota, through all sequences of operations from the start.
    - Mem (kern/lib/string.c): bytes, words, memset and memmove.
    - Vmm (kern/vmm): page directories and page tables; Isolation: their invariant
      [vmm_ok] and what each operation does; Mmu: the walk of the processor, and that the
      address spaces stay apart.
    - DList: doubly linked lists in tables.  Thread (kern/pcpu/PCPUIntro, kern/thread):
      contexts, control blocks, queues, scheduler; Sched: the queues are lists, the
      scheduler works on an abstract ready list; RoundRobin: the theorems.
    - LayerTests (the files test.c of kern/pmm, kern/vmm, kern/thread): the unit tests of
      these layers; LayerSpec: they pass, but for one that overflows an int.
    - UserCopy (kern/lib/pmap.c): copies to and from user memory.
    - Bufcache (kern/dev/disk/ide.c, kern/fs/bufcache.c): driver and cache; BufSpec: the
      order of the buffers and what the cache promises.
    - Log (kern/fs/log.c); LogSpec: the disk writes of a commit; Crash: a transaction is
      atomic for a crash at every disk write, of the recovery too.
    - Inode (kern/fs/block.c, inode.c), Dir (dir.c, skipelem), PathSpec, File (file.c);
      InodeSpec: the inode cache.
    - BlockSpec: the contents of the disk that the code of a transaction sees ([tx]: a view
      of all blocks, the blocks logged so far, the buffers held), with a rule for each
      operation of the cache and of the log, and the bitmap of free blocks.  FileSpec: the
      blocks of a file ([fblk]) and its bytes ([fbyte]) in such a view, and bmap; FileRW:
      inode_read, inode_update, inode_write; FileOps: inode_lock and the descriptors of
      file.c; DirSpec: the names of a directory; TruncSpec: inode_trunc, inode_put and the
      last file_close of a file without links.
    - Console (kern/dev/serial.c, video.c, keyboard.c, console.c); ConsoleSpec.
    - Seg (kern/lib/seg.c): descriptor tables and task state segments.
    - Sysfile (kern/trap/TSyscallArg, kern/fs/path.c, sysfile.c): the whole kernel as the
      record [ksys], and the system calls on files.
    - WalkSpec: namex, from the root or the current directory to the inode of a path.
    - Printf (kern/lib/printfmt.c, user/lib/atoi.c); PrintfSpec.
    - Trap (kern/lib/dprintf.c, elf.c, kern/proc/PProc, kern/trap, kern_main): processes,
      system calls, traps; TrapSpec; ChdirSpec: the system call chdir from the trap of a
      process through user memory, paths and inodes and back; PutsSpec: the system call puts
      from the trap through user memory and formatted output to the serial line.
    - Lapic (kern/dev/lapic.c, timer.c, tsc.c, kvm.c): the interrupt controller of a
      processor and the clocks that it is calibrated with.  Every access to a device takes
      a unit of time, and what the devices answer is a function of the time and of what was
      written to them and when; LapicSpec.
    - Intr (kern/dev/intr.c, pic.c, ioapic.c, idt.S): the interrupt descriptor table and
      the controllers; IntrSpec.
    - Mp (kern/dev/acpi.c, pcpu_mp.c): the processors that the tables of the firmware list,
      and the start of one; MpSpec.  Devinit (kern/dev/devinit.c, pcpu_mp.c, kern/dev/disk,
      kern/pcpu/PCPUInit, kern_init_ap): what cpuid says, and the order of initialisation.
    - Ulib (user/lib, user/include/syscall.h): the library of user programs over [SysEntry],
      the interface of a system call; Shell (user/shell/shell.c): the shell; ShellSpec.
    - Fstest (user/fstest/fstest.c): the tests of the file system; FstestSpec: an evaluated
      example in which eight of them run as a process on the whole kernel, which is an
      instance of [SysEntry] there.
    - Boot (boot/boot1/boot1lib.c, boot1main.c): the part of the boot loader that is in C,
      its variables in the memory at addresses that are parameters, like what the drive
      answers; BootSpec.

    ** What the theorems show

    - Memory: a physical page is given to one owner only and is RAM; quotas are kept; the
      page tables of a process map pages of its own; user code reaches neither the memory
      of another process nor the kernel; copies write the given range and nothing else.
    - Threads: the queues are FIFO; yield and the timer are round robin, so that every
      ready thread runs; a sleeper is woken by its channel; spawning.
    - The unit tests of these layers pass on every machine with enough memory, but for one
      that overflows an int.
    - Locks: mutual exclusion in every interleaving of acquire, try and release.
    - File system: writes through the cache reach the disk; transactions are atomic; the
      first free block is allocated and nothing else changes; what is written to a file is
      read from it, and a crash at any disk write leaves a prefix of it with all other
      files as they were; the last close of a file without links frees its blocks and its
      inode, or after a crash nothing; a name that is linked is found and no other name is disturbed; an
      inode has one entry in the inode cache; paths are split into their elements, and lead to
      the inodes that the directories give, without a reference being lost; chdir moves a
      process there, from its trap on.
    - Boot: the loader puts every segment of the kernel at its address and passes on the
      memory map, for kernels that are loaded above the loader.
    - Processors: the ACPI tables are found and enumerated as the kernel's records of
      processors and I/O APICs; the calibration of the local timer, against an interval
      timer that counts what was programmed, ends and gives a tick of a millisecond.
    - Devices and traps: the screen, the input queue of the console with serial line and
      keyboard, numbers in formatted output, the table of gates, page faults and puts end to
      end.
    - User programs: snprintf keeps to its buffer; the shell runs the command that the first
      word of a line names, with the words as its arguments.
    - Errors: the cases in which the code goes wrong are theorems as well (a lock that is
      kept, a copy without quota, a full disk).

    ** Loops and bounds

    Loops with a bound in the code are [for_] loops of that bound.  The others take a fuel
    that the definition computes from its arguments (the length of a copy, the size of a
    directory, the number of buffers or threads), with the reason beside it; where a
    theorem is about such a loop, that the fuel is enough is part of its [runs].  A loop
    that counts in 32 bits or waits for a device ([loopw]) has 2^32 rounds: more than its
    counter can take, and a device that has not answered by then is [Hang].  The recursion
    of the shell over directories goes [shell_fuel] deep.  A wait for an event (a busy buffer or inode, a
    disk request, input) is [Hang] when nothing in the state will end it; a disk request is
    finished by the interrupts that follow it.  The theorems about files are for disks whose
    bitmap is one block ([geom_ok] gives the layout), and ask for room on the disk ([pot]:
    the free blocks, less one for the indirect block of a file that has none).

    ** Not modelled

    Interrupts arrive between operations, not within them (the kernel runs with them
    disabled); only the locks are modelled with several processors.  A context switch ends
    a step: what the thread does when it runs again is a definition of its own
    ([thread_sleep_resume], [trap_exit]).  Left out are the kernel monitor, the
    boot loader in real mode (boot0.S, boot1.S), debug messages, the smallest user programs
    (idle, pingpong) and the code that the other processors run before they call the kernel (boot_ap.S); the
    manifest lists every part.  Counts of references (inodes, open files) are not given the
    width of an int, since they stay below some hundreds; the serial line takes a byte
    whenever it is asked.  User programs see the kernel as [SysEntry] only, which
    FstestSpec alone instantiates with the kernel.  The operations of inodes, directories and
    files and the system calls on files are modelled in full and executable; of the system
    calls on files, chdir has a theorem from end to end; there are no theorems about the
    counts of the file table, nor about printf of the user library, whose output is what
    puts makes of it. *)

From Stdlib Require Export ZArith Lia.
From stdpp Require Export strings.
From stdpp Require Export prelude gmap list.

#[global] Open Scope Z_scope.

Declare Scope kern_scope.
Delimit Scope kern_scope with kern.
#[global] Open Scope kern_scope.

(** ** Outcomes and the kernel monad *)

(** What running a piece of kernel code can do.  [Panic] is a taken
    [KERN_PANIC] or a failed [KERN_ASSERT] of a build with [DEBUG_MSG];
    [Fault] is behaviour the C standard leaves undefined (an index out of the
    bounds of its array, a null pointer, a signed overflow); [Hang] is code
    that does not return: a spinlock that is never released, a sleep nobody
    ends, a loop that exceeds the fuel its definition gives it. *)
Inductive outcome (A : Type) : Type :=
| Ret (a : A)
| Panic
| Fault
| Hang.
Arguments Ret {A} a.
Arguments Panic {A}.
Arguments Fault {A}.
Arguments Hang {A}.

(** A computation over the state [St]. *)
Definition M (St A : Type) : Type := St → outcome (A * St).

Definition ret {St A} (a : A) : M St A := λ s, Ret (a, s).

Definition bind {St A B} (m : M St A) (k : A → M St B) : M St B := λ s,
  match m s with
  | Ret (a, s') => k a s'
  | Panic => Panic
  | Fault => Fault
  | Hang => Hang
  end.

Notation "'let!' x := m 'in' k" := (bind m (λ x, k))
  (at level 10, x name, m at level 200, k at level 200,
   format "'[v' 'let!'  x  :=  m  'in' '/' k ']'") : kern_scope.
Notation "m ;;; k" := (bind m (λ _, k))
  (at level 100, k at level 200, right associativity,
   format "'[v' m  ;;; '/' k ']'") : kern_scope.

Definition gets {St A} (f : St → A) : M St A := λ s, Ret (f s, s).
Definition modify {St} (f : St → St) : M St unit := λ s, Ret (tt, f s).
Definition fault {St A} : M St A := λ _, Fault.
Definition hang {St A} : M St A := λ _, Hang.

Definition when {St} (b : bool) (m : M St unit) : M St unit :=
  if b then m else ret tt.

(** ** The build and the processor the code runs on *)

(** [DEBUG_MSG] is the build switch of kern/config.mk: without it
    [KERN_PANIC] and [KERN_ASSERT] expand to nothing (kern/lib/debug.h).
    [ks_cpu_idx] and [ks_magic] are the two fields that the code reads from
    the kernel stack it runs on (kern/lib/kstack.h). *)
Class KEnv : Type := {
  DEBUG_MSG : bool;
  ks_cpu_idx : Z;
  ks_magic : Z;
}.

Definition KERN_PANIC `{KEnv} {St} : M St unit := λ s,
  if DEBUG_MSG then Panic else Ret (tt, s).

Definition KERN_ASSERT `{KEnv} {St} (b : bool) : M St unit :=
  if b then ret tt else KERN_PANIC.

(** ** Machine integers *)

Definition W32 : Z := 4294967296.
(** The value of an [unsigned int] expression. *)
Definition u32 (z : Z) : Z := z mod W32.
(** Conversion to [int]. *)
Definition s32 (z : Z) : Z := (z + 2147483648) mod W32 - 2147483648.
Definition u8 (z : Z) : Z := z mod 256.
Definition u16 (z : Z) : Z := z mod 65536.
Definition s8 (z : Z) : Z := (z + 128) mod 256 - 128.
Definition s16 (z : Z) : Z := (z + 32768) mod 65536 - 32768.

Definition is_u32 (z : Z) : Prop := 0 ≤ z < W32.
Definition is_s32 (z : Z) : Prop := -2147483648 ≤ z < 2147483648.

(** [int] addition and multiplication: overflow is undefined. *)
Definition iadd {St} (a b : Z) : M St Z :=
  if (-2147483648 <=? a + b) && (a + b <? 2147483648) then ret (a + b) else fault.
Definition imul {St} (a b : Z) : M St Z :=
  if (-2147483648 <=? a * b) && (a * b <? 2147483648) then ret (a * b) else fault.

(** A C condition: non-zero is true. *)
Definition nz (z : Z) : bool := negb (z =? 0).
Definition b2z (b : bool) : Z := if b then 1 else 0.

(** kern/lib/types.c *)
Definition rounddown (a n : Z) : Z := u32 (a - a mod n).
Definition roundup (a n : Z) : Z := rounddown (u32 (a + n - 1)) n.
Definition max (a b : Z) : Z := if a >? b then a else b.
Definition min (a b : Z) : Z := if a <? b then a else b.

(** ** Static arrays *)

(** A static array is a finite map from indices; an entry that was never
    written has the default value, which is the all-zero value of the
    element type (the arrays live in BSS).  Every access is checked against
    the declared length. *)
Definition inb (len i : Z) : bool := (0 <=? i) && (i <? len).

Definition aread {St A} `{Inhabited A} (len : Z) (arr : St → gmap Z A) (i : Z)
  : M St A := λ s,
  if inb len i then Ret (arr s !!! i, s) else Fault.

Definition awrite {St A} (len : Z) (arr : St → gmap Z A)
    (put : gmap Z A → St → St) (i : Z) (v : A) : M St unit := λ s,
  if inb len i then Ret (tt, put (<[i := v]> (arr s)) s) else Fault.

Definition amod {St A} `{Inhabited A} (len : Z) (arr : St → gmap Z A)
    (put : gmap Z A → St → St) (i : Z) (f : A → A) : M St unit := λ s,
  if inb len i then Ret (tt, put (<[i := f (arr s !!! i)]> (arr s)) s) else Fault.

#[global] Instance Z_inhabited : Inhabited Z := populate 0.

(** ** Loops *)

(** [for (i = lo; i < hi; i++) body], where the body neither changes [i] nor
    the bound. *)
Fixpoint for_loop {St} (n : nat) (i : Z) (body : Z → M St unit) : M St unit :=
  match n with
  | O => ret tt
  | S n' => body i ;;; for_loop n' (i + 1) body
  end.

Definition for_ {St} (lo hi : Z) (body : Z → M St unit) : M St unit :=
  for_loop (Z.to_nat (hi - lo)) lo body.

(** The same loop with an early exit: [Some r] leaves the loop (a [return] or
    a [break] that carries [r]). *)
Fixpoint for_exit_loop {St R} (n : nat) (i : Z) (body : Z → M St (option R))
  : M St (option R) :=
  match n with
  | O => ret None
  | S n' => let! r := body i in
            match r with
            | Some v => ret (Some v)
            | None => for_exit_loop n' (i + 1) body
            end
  end.

Definition for_exit {St R} (lo hi : Z) (body : Z → M St (option R))
  : M St (option R) :=
  for_exit_loop (Z.to_nat (hi - lo)) lo body.

(** A general loop on local variables [l]: the body goes on with new locals
    ([inl]) or leaves with a result ([inr]). *)
Fixpoint loop {St L R} (fuel : nat) (body : L → M St (L + R)) (l : L) : M St R :=
  match fuel with
  | O => hang
  | S f => let! r := body l in
           match r with
           | inl l' => loop f body l'
           | inr v => ret v
           end
  end.

(** At most [2 ^ k] rounds of a loop; executable also where the bound is large, since only
    the rounds that are made are evaluated. *)
Fixpoint loop_pow {St L R} (k : nat) (body : L → M St (L + R)) (l : L) : M St (L + R) :=
  match k with
  | O => body l
  | S k' => let! r := loop_pow k' body l in
            match r with
            | inl l' => loop_pow k' body l'
            | inr v => ret (inr v)
            end
  end.

(** A loop over addresses or counters of 32 bits: one that makes more than [2 ^ 32] rounds
    does not end. *)
Definition loopw {St L R} (body : L → M St (L + R)) (l : L) : M St R :=
  let! r := loop_pow 32 body l in
  match r with
  | inl _ => hang
  | inr v => ret v
  end.

(** ** Components as parts of a larger state *)

Class Lens (St Sub : Type) : Type := {
  lget : St → Sub;
  lset : Sub → St → St;
  lget_lset : ∀ t s, lget (lset t s) = t;
  lset_lget : ∀ s, lset (lget s) s = s;
  lset_lset : ∀ t t' s, lset t (lset t' s) = lset t s;
}.

(** Run code on a part of the state, given by its getter and setter. *)
Definition fzoom {St Sub A} (get : St → Sub) (put : Sub → St → St) (m : M Sub A)
  : M St A := λ s,
  match m (get s) with
  | Ret (a, t) => Ret (a, put t s)
  | Panic => Panic
  | Fault => Fault
  | Hang => Hang
  end.

(** Run code on the element [i] of a static array: [f(&arr[i])]. *)
Definition azoom {St Sub A} `{Inhabited Sub} (len : Z) (arr : St → gmap Z Sub)
    (put : gmap Z Sub → St → St) (i : Z) (m : M Sub A) : M St A := λ s,
  if inb len i then
    fzoom (λ s, arr s !!! i) (λ t s, put (<[i := t]> (arr s)) s) m s
  else Fault.

(** Run a component's code inside a state that contains the component. *)
Definition zoom {St Sub A} `{Lens St Sub} (m : M Sub A) : M St A :=
  fzoom lget lset m.

(** ** Running computations *)

Create HintDb kern discriminated.

#[global] Arguments bind : simpl never.
#[global] Arguments fzoom : simpl never.
#[global] Arguments azoom : simpl never.
#[global] Arguments zoom : simpl never.

Lemma bind_Ret {St A B} (m : M St A) (k : A → M St B) s a s' :
  m s = Ret (a, s') → bind m k s = k a s'.
Proof. unfold bind. by intros ->. Qed.

Lemma bind_Panic {St A B} (m : M St A) (k : A → M St B) s :
  m s = Panic → bind m k s = Panic.
Proof. unfold bind. by intros ->. Qed.

Lemma bind_Hang {St A B} (m : M St A) (k : A → M St B) s :
  m s = Hang → bind m k s = Hang.
Proof. unfold bind. by intros ->. Qed.

Lemma bind_Fault {St A B} (m : M St A) (k : A → M St B) s :
  m s = Fault → bind m k s = Fault.
Proof. unfold bind. by intros ->. Qed.

Lemma bind_inv {St A B} (m : M St A) (k : A → M St B) s b s'' :
  bind m k s = Ret (b, s'') →
  ∃ a s', m s = Ret (a, s') ∧ k a s' = Ret (b, s'').
Proof. unfold bind. destruct (m s) as [[a s']| | |]; naive_solver. Qed.

Lemma bind_assoc {St A B C} (m : M St A) (k : A → M St B) (h : B → M St C) s :
  bind (bind m k) h s = bind m (λ a, bind (k a) h) s.
Proof. unfold bind. by destruct (m s) as [[a s']| | |]. Qed.

Lemma bind_ext {St A B} (m : M St A) (k k' : A → M St B) s :
  (∀ a t, k a t = k' a t) → bind m k s = bind m k' s.
Proof. intros E. unfold bind. by destruct (m s) as [[a s']| | |]. Qed.

Lemma bind_ext_at {St A B} (m : M St A) (k k' : A → M St B) s :
  (∀ a t, m s = Ret (a, t) → k a t = k' a t) → bind m k s = bind m k' s.
Proof. intros E. unfold bind. destruct (m s) as [[a s']| | |]; naive_solver. Qed.

(** [runs m s P]: [m] returns from [s], and [P] holds of the result and the
    final state.  This is total: it excludes [Panic], [Fault] and [Hang]. *)
Definition runs {St A} (m : M St A) (s : St) (P : A → St → Prop) : Prop :=
  match m s with
  | Ret (a, s') => P a s'
  | _ => False
  end.

Lemma runs_eq {St A} (m : M St A) s P :
  runs m s P ↔ ∃ a s', m s = Ret (a, s') ∧ P a s'.
Proof.
  unfold runs. split.
  - destruct (m s) as [[a s']| | |]; [|done..]. intros HP. by exists a, s'.
  - by intros (a & s' & -> & HP).
Qed.

Lemma runs_ret {St A} (a : A) (s : St) (P : A → St → Prop) :
  P a s → runs (ret a) s P.
Proof. done. Qed.

Lemma runs_bind {St A B} (m : M St A) (k : A → M St B) s P :
  runs m s (λ a s', runs (k a) s' P) → runs (bind m k) s P.
Proof. unfold runs, bind. destruct (m s) as [[a s']| | |]; naive_solver. Qed.

Lemma runs_mono {St A} (m : M St A) s (P Q : A → St → Prop) :
  runs m s P → (∀ a s', P a s' → Q a s') → runs m s Q.
Proof. unfold runs. destruct (m s) as [[a s']| | |]; naive_solver. Qed.

Lemma runs_and {St A} (m : M St A) s (P Q : A → St → Prop) :
  runs m s P → runs m s Q → runs m s (λ a s', P a s' ∧ Q a s').
Proof. unfold runs. destruct (m s) as [[a s']| | |]; naive_solver. Qed.

Lemma fzoom_Ret {St Sub A} (get : St → Sub) put (m : M Sub A) s a t :
  m (get s) = Ret (a, t) → fzoom get put m s = Ret (a, put t s).
Proof. unfold fzoom. by intros ->. Qed.

Lemma azoom_Ret {St Sub A} `{Inhabited Sub} len (arr : St → gmap Z Sub) put i
    (m : M Sub A) s a t :
  0 ≤ i < len → m (arr s !!! i) = Ret (a, t) →
  azoom len arr put i m s = Ret (a, put (<[i := t]> (arr s)) s).
Proof.
  intros Hi Hm. unfold azoom. unfold inb.
  replace (0 <=? i) with true by lia. replace (i <? len) with true by lia.
  simpl. exact (fzoom_Ret (λ s, arr s !!! i) (λ t s, put (<[i := t]> (arr s)) s) m s a t Hm).
Qed.

Lemma zoom_Ret {St Sub A} `{Lens St Sub} (m : M Sub A) (s : St) a t :
  m (lget s) = Ret (a, t) → zoom m s = Ret (a, lset t s).
Proof. apply fzoom_Ret. Qed.

(** A component's code that only reads. *)
Lemma zoom_read {St Sub A} `{Lens St Sub} (m : M Sub A) (s : St) a :
  m (lget s) = Ret (a, lget s) → zoom m s = Ret (a, s).
Proof. intros E. by rewrite (zoom_Ret _ _ _ _ E), lset_lget. Qed.

Lemma runs_zoom {St Sub A} `{Lens St Sub} (m : M Sub A) (s : St) P :
  runs m (lget s) (λ a t, P a (lset t s)) → runs (zoom m) s P.
Proof.
  unfold runs, zoom, fzoom. by destruct (m (lget s)) as [[a t]| | |].
Qed.

(** A component's statements in sequence. *)
Lemma zoom_seq {St Sub A} `{Lens St Sub} (m : M Sub unit) (k : M Sub A) (s : St) :
  zoom (m ;;; k) s = (zoom m ;;; zoom k) s.
Proof.
  unfold zoom, fzoom, bind. destruct (m (lget s)) as [[[] t]| | |]; [|done..].
  rewrite lget_lset. destruct (k t) as [[a t']| | |]; [|done..]. by rewrite lset_lset.
Qed.

Lemma zoom_bind {St Sub A B} `{Lens St Sub} (m : M Sub B) (k : B → M Sub A) (s : St) :
  zoom (let! x := m in k x) s = (let! x := zoom m in zoom (k x)) s.
Proof.
  unfold zoom, fzoom, bind. destruct (m (lget s)) as [[x t]| | |]; [|done..].
  rewrite lget_lset. destruct (k x t) as [[a t']| | |]; [|done..]. by rewrite lset_lset.
Qed.

(** *** Loops *)

(** The rule of [for_loop]: an invariant indexed by the loop variable. *)
Lemma for_loop_runs {St} (Inv : Z → St → Prop) (body : Z → M St unit) n i s :
  Inv i s →
  (∀ j t, i ≤ j < i + Z.of_nat n → Inv j t → runs (body j) t (λ _, Inv (j + 1))) →
  runs (for_loop n i body) s (λ _, Inv (i + Z.of_nat n)).
Proof.
  revert i s. induction n as [|n IH]; intros i s Hi Hb.
  - apply runs_ret. by rewrite Z.add_0_r.
  - simpl. apply runs_bind. eapply runs_mono; [apply Hb; [lia|done]|].
    intros [] t Ht. replace (i + Z.of_nat (S n)) with (i + 1 + Z.of_nat n) by lia.
    apply IH; [done|]. intros j t' ? ?. apply Hb; [lia|done].
Qed.

Lemma for_runs {St} (Inv : Z → St → Prop) (body : Z → M St unit) lo hi s :
  lo ≤ hi → Inv lo s →
  (∀ j t, lo ≤ j < hi → Inv j t → runs (body j) t (λ _, Inv (j + 1))) →
  runs (for_ lo hi body) s (λ _, Inv hi).
Proof.
  intros Hle Hi Hb. unfold for_.
  eapply runs_mono; [apply (for_loop_runs Inv); [done|]|].
  - intros j t ? ?. apply Hb; [lia|done].
  - intros [] s'. by replace (lo + Z.of_nat (Z.to_nat (hi - lo))) with hi by lia.
Qed.

(** *** Arrays and integers *)

Lemma inb_spec len i : inb len i = true ↔ 0 ≤ i < len.
Proof. unfold inb. rewrite andb_true_iff, Z.leb_le, Z.ltb_lt. lia. Qed.

Lemma inb_false len i : inb len i = false ↔ ¬ (0 ≤ i < len).
Proof. rewrite <- not_true_iff_false, inb_spec. done. Qed.

Lemma inb_true_2 len i : 0 ≤ i < len → inb len i = true.
Proof. apply inb_spec. Qed.

Lemma inb_false_2 len i : ¬ (0 ≤ i < len) → inb len i = false.
Proof. apply inb_false. Qed.

Lemma aread_in {St A} `{Inhabited A} len (arr : St → gmap Z A) i s :
  0 ≤ i < len → aread len arr i s = Ret (arr s !!! i, s).
Proof. intros. unfold aread. by rewrite inb_true_2. Qed.

Lemma aread_out {St A} `{Inhabited A} len (arr : St → gmap Z A) i s :
  ¬ (0 ≤ i < len) → aread len arr i s = Fault.
Proof. intros. unfold aread. by rewrite inb_false_2. Qed.

Lemma awrite_in {St A} len (arr : St → gmap Z A) put i v s :
  0 ≤ i < len → awrite len arr put i v s = Ret (tt, put (<[i := v]> (arr s)) s).
Proof. intros. unfold awrite. by rewrite inb_true_2. Qed.

Lemma amod_in {St A} `{Inhabited A} len (arr : St → gmap Z A) put i f s :
  0 ≤ i < len →
  amod len arr put i f s = Ret (tt, put (<[i := f (arr s !!! i)]> (arr s)) s).
Proof. intros. unfold amod. by rewrite inb_true_2. Qed.

Lemma amod_out {St A} `{Inhabited A} len (arr : St → gmap Z A) put i f s :
  ¬ (0 ≤ i < len) → amod len arr put i f s = Fault.
Proof. intros. unfold amod. by rewrite inb_false_2. Qed.

Lemma lookup_total_insert_dec {A} `{Inhabited A} (m : gmap Z A) i j x :
  <[i := x]> m !!! j = if bool_decide (i = j) then x else m !!! j.
Proof.
  case_bool_decide as Hij.
  - subst. by rewrite lookup_total_insert_eq.
  - by rewrite lookup_total_insert_ne.
Qed.

Lemma u32_small z : 0 ≤ z < W32 → u32 z = z.
Proof. apply Z.mod_small. Qed.

Lemma u32_range z : 0 ≤ u32 z < W32.
Proof. unfold u32, W32. apply Z.mod_pos_bound. lia. Qed.

Lemma s32_small z : is_s32 z → s32 z = z.
Proof. unfold is_s32, s32, W32. intros. rewrite Z.mod_small by lia. lia. Qed.

Lemma s32_range z : is_s32 (s32 z).
Proof.
  unfold is_s32, s32, W32.
  pose proof (Z.mod_pos_bound (z + 2147483648) 4294967296). lia.
Qed.

#[export] Hint Resolve u32_range s32_range : kern.

Lemma iadd_ok {St} a b (s : St) : is_s32 (a + b) → iadd a b s = Ret (a + b, s).
Proof.
  unfold is_s32, iadd. intros. destruct (_ && _) eqn:E; [done|].
  apply andb_false_iff in E. rewrite Z.leb_gt, Z.ltb_ge in E. lia.
Qed.

Lemma nz_spec z : nz z = true ↔ z ≠ 0.
Proof. unfold nz. rewrite negb_true_iff, Z.eqb_neq. done. Qed.

Lemma nz_false z : nz z = false ↔ z = 0.
Proof. unfold nz. rewrite negb_false_iff, Z.eqb_eq. done. Qed.

Lemma nz_b2z b : nz (b2z b) = b.
Proof. by destruct b. Qed.

(** ** Proof steps *)

(** Run the first statement of a sequence with an equation for it. *)
Tactic Notation "kstep" uconstr(E) := rewrite (bind_Ret _ _ _ _ _ E).

Tactic Notation "kstep" uconstr(E) "by" tactic3(t) :=
  erewrite bind_Ret; [|eapply E; t].

(** Take the branch of a decided condition. *)
Ltac kif := try change (negb false) with true; try change (negb true) with false; cbv iota.

(** Linear arithmetic with division and remainder. *)
Ltac divlia := Z.div_mod_to_equations; lia.

(** The same inside [runs]. *)
Lemma runs_bind_eq {St A B} (m : M St A) (k : A → M St B) s a s' P :
  m s = Ret (a, s') → runs (k a) s' P → runs (bind m k) s P.
Proof. intros E Hk. apply runs_bind. unfold runs at 1. by rewrite E. Qed.

Lemma runs_bind_mono {St A B} (m : M St A) (k : A → M St B) s (Q : A → St → Prop) P :
  runs m s Q → (∀ a s', Q a s' → runs (k a) s' P) → runs (bind m k) s P.
Proof. intros Hm Hk. apply runs_bind. eapply runs_mono; [exact Hm|exact Hk]. Qed.

Lemma runs_of_eq {St A} (m : M St A) s a s' (P : A → St → Prop) :
  m s = Ret (a, s') → P a s' → runs m s P.
Proof. unfold runs. by intros ->. Qed.

Lemma runs_elim {St A} (m : M St A) s P a s' : runs m s P → m s = Ret (a, s') → P a s'.
Proof. unfold runs. intros HP E. by rewrite E in HP. Qed.

(** One iteration of [loop]. *)
Lemma loop_S {St L R} fuel (body : L → M St (L + R)) l (s : St) P :
  runs (body l) s (λ r s', match r with inl l' => runs (loop fuel body l') s' P | inr v => P v s' end) →
  runs (loop (S fuel) body l) s P.
Proof.
  intros Hb. apply runs_bind. eapply runs_mono; [exact Hb|]. intros [l'|v] s' Hs; [done|].
  by apply runs_ret.
Qed.

Lemma loop_inl {St L R} fuel (body : L → M St (L + R)) l l' (s s' : St) :
  body l s = Ret (inl l', s') → loop (S fuel) body l s = loop fuel body l' s'.
Proof. intros E. simpl. by rewrite (bind_Ret _ _ _ _ _ E). Qed.

Lemma loop_inr {St L R} fuel (body : L → M St (L + R)) l v (s s' : St) :
  body l s = Ret (inr v, s') → loop (S fuel) body l s = Ret (v, s').
Proof. intros E. simpl. by rewrite (bind_Ret _ _ _ _ _ E). Qed.

(** [loop_pow] makes the rounds of [loop]. *)
Lemma loop_pow_loop {St L R} k m (body : L → M St (L + R)) l (s : St) :
  loop (2 ^ k + m) body l s =
  bind (loop_pow k body l) (λ r, match r with inl l' => loop m body l' | inr v => ret v end) s.
Proof.
  revert m l s. induction k as [|k IH]; intros m l s; [done|]. cbn [loop_pow].
  replace (2 ^ S k + m)%nat with (2 ^ k + (2 ^ k + m))%nat by (simpl; lia).
  rewrite IH, bind_assoc. apply bind_ext. intros [l'|v] t; [apply IH|done].
Qed.

Lemma loop_more {St L R} n m (body : L → M St (L + R)) l (s : St) v s' :
  loop n body l s = Ret (v, s') → loop (n + m) body l s = Ret (v, s').
Proof.
  revert l s. induction n as [|n IH]; intros l s; [done|]. cbn [loop Nat.add].
  intros (r & t & E & E')%bind_inv. rewrite (bind_Ret _ _ _ _ _ E). destruct r; auto.
Qed.

(** A loop that ends within [2 ^ 32] rounds. *)
Lemma loopw_Ret {St L R} n (body : L → M St (L + R)) l (s : St) v s' :
  Z.of_nat n ≤ W32 → loop n body l s = Ret (v, s') → loopw body l s = Ret (v, s').
Proof.
  intros Hn E. assert (n ≤ 2 ^ 32)%nat as Hn'.
  { apply Nat2Z.inj_le. rewrite Nat2Z.inj_pow. exact Hn. }
  apply (loop_more n (2 ^ 32 - n + 0)) in E. replace (n + (2 ^ 32 - n + 0))%nat with (2 ^ 32 + 0)%nat in E by lia.
  rewrite loop_pow_loop in E. apply bind_inv in E as (r & t & E & E'). unfold loopw.
  rewrite (bind_Ret _ _ _ _ _ E). destruct r; [discriminate E'|exact E'].
Qed.

Lemma loopw_runs {St L R} n (body : L → M St (L + R)) l (s : St) P :
  Z.of_nat n ≤ W32 → runs (loop n body l) s P → runs (loopw body l) s P.
Proof.
  intros Hn (v & s' & E & HP)%runs_eq. eapply runs_of_eq; [by eapply loopw_Ret|done].
Qed.

(** A loop whose body comes back to where it was. *)
Lemma loopw_stuck {St L R} (body : L → M St (L + R)) l (s : St) :
  body l s = Ret (inl l, s) → loopw body l s = Hang.
Proof.
  intros E. unfold loopw. assert (∀ k, loop_pow k body l s = Ret (inl l, s)) as Hk.
  { induction k as [|k IH]; [done|]. cbn [loop_pow]. by rewrite (bind_Ret _ _ _ _ _ IH). }
  by rewrite (bind_Ret _ _ _ _ _ (Hk 32%nat)).
Qed.

Lemma nz_pos z : 0 < z → nz z = true.
Proof. intros. apply nz_spec. lia. Qed.

(** Rewriting the computation of [runs]. *)
Lemma runs_rw {St A} (m m' : M St A) s s' (P : A → St → Prop) :
  m s = m' s' → runs m' s' P → runs m s P.
Proof. unfold runs. by intros ->. Qed.

Lemma bind_ret_l {St A B} (a : A) (k : A → M St B) s : bind (ret a) k s = k a s.
Proof. done. Qed.

(** ** What a computation keeps *)

(** [keeps P m]: [m] does not leave [P], whenever it returns. *)
Definition keeps {St A} (P : St → Prop) (m : M St A) : Prop :=
  ∀ s a s', P s → m s = Ret (a, s') → P s'.

Section keeps.
Context {St : Type} (P : St → Prop).

Lemma keeps_ret {A} (a : A) : keeps P (ret a).
Proof. intros s b s' HP [= _ <-]. done. Qed.

Lemma keeps_gets {A} (f : St → A) : keeps P (gets f).
Proof. intros s b s' HP [= _ <-]. done. Qed.

Lemma keeps_fault {A} : keeps P (fault : M St A).
Proof. done. Qed.

Lemma keeps_hang {A} : keeps P (hang : M St A).
Proof. done. Qed.

Lemma keeps_panic `{KEnv} : keeps P (KERN_PANIC : M St unit).
Proof. intros s a s' HP. unfold KERN_PANIC. destruct DEBUG_MSG; [done|]. by intros [= _ <-]. Qed.

Lemma keeps_modify f : (∀ s, P s → P (f s)) → keeps P (modify f).
Proof. intros Hf s a s' HP [= _ <-]. auto. Qed.

Lemma keeps_bind {A B} (m : M St A) (k : A → M St B) : keeps P m → (∀ a, keeps P (k a)) → keeps P (bind m k).
Proof. intros Hm Hk s b s'' HP (a & s' & E & E')%bind_inv. eapply Hk; [eapply Hm|]; done. Qed.

Lemma keeps_when b (m : M St unit) : keeps P m → keeps P (when b m).
Proof. destruct b; [done|]. intros _. apply keeps_ret. Qed.

Lemma keeps_for lo hi (body : Z → M St unit) : (∀ i, keeps P (body i)) → keeps P (for_ lo hi body).
Proof.
  intros Hb. unfold for_. generalize (Z.to_nat (hi - lo)). intros n. revert lo.
  induction n as [|n IH]; intros lo; cbn [for_loop]; [apply keeps_ret|]. apply keeps_bind; auto.
Qed.

Lemma keeps_for_exit {R} lo hi (body : Z → M St (option R)) : (∀ i, keeps P (body i)) → keeps P (for_exit lo hi body).
Proof.
  intros Hb. unfold for_exit. generalize (Z.to_nat (hi - lo)). intros n. revert lo.
  induction n as [|n IH]; intros lo; cbn [for_exit_loop]; [apply keeps_ret|].
  apply keeps_bind; [auto|]. intros [r|]; [apply keeps_ret|auto].
Qed.

Lemma keeps_loop {L R} n (body : L → M St (L + R)) l : (∀ l, keeps P (body l)) → keeps P (loop n body l).
Proof.
  intros Hb. revert l. induction n as [|n IH]; intros l; cbn [loop]; [apply keeps_hang|].
  apply keeps_bind; [auto|]. intros [l'|r]; [auto|apply keeps_ret].
Qed.

Lemma keeps_loopw {L R} (body : L → M St (L + R)) l : (∀ l, keeps P (body l)) → keeps P (loopw body l).
Proof.
  intros Hb. unfold loopw. apply keeps_bind; [|intros [?|?]; [apply keeps_hang|apply keeps_ret]].
  generalize 32%nat. intros k. revert l. induction k as [|k IH]; intros l; cbn [loop_pow]; [apply Hb|].
  apply keeps_bind; [auto|]. intros [l'|r]; [auto|apply keeps_ret].
Qed.

Lemma keeps_aread {A} `{Inhabited A} len (arr : St → gmap Z A) i : keeps P (aread len arr i).
Proof. unfold aread. destruct (inb len i); [apply keeps_gets|apply keeps_fault]. Qed.

Lemma keeps_zoom {Sub A} `{Lens St Sub} (m : M Sub A) :
  (∀ t s, P s → P (lset t s)) → keeps P (zoom m).
Proof.
  intros Hl s a s' HP. unfold zoom, fzoom. destruct (m (lget s)) as [[b t]| | |]; [|done..]. intros [= _ <-]. auto.
Qed.

Lemma keeps_fzoom {Sub A} (get : St → Sub) put (m : M Sub A) :
  (∀ t s, P s → P (put t s)) → keeps P (fzoom get put m).
Proof.
  intros Hl s a s' HP. unfold fzoom. destruct (m (get s)) as [[b t]| | |]; [|done..]. intros [= _ <-]. auto.
Qed.

End keeps.

#[export] Hint Resolve keeps_ret keeps_gets keeps_fault keeps_hang keeps_panic keeps_aread : kern.

(** Goes through the statements of a computation; what is left are those that the hints
    do not know. *)
Ltac keep :=
  repeat (intros; cbv beta zeta; first
    [ solve [auto 2 with kern nocore]
    | apply keeps_bind | apply keeps_when | apply keeps_for | apply keeps_for_exit | apply keeps_loop | apply keeps_loopw
    | match goal with |- keeps _ (match ?x with _ => _ end) => destruct x end ]).

(** A [for] loop that may leave with a value. *)
Lemma for_exit_runs {St R} (Inv : Z → St → Prop) (Q : option R → St → Prop) (body : Z → M St (option R)) lo hi s :
  lo ≤ hi → Inv lo s →
  (∀ i t, lo ≤ i < hi → Inv i t →
    runs (body i) t (λ r t', match r with Some v => Q (Some v) t' | None => Inv (i + 1) t' end)) →
  (∀ t, Inv hi t → Q None t) → runs (for_exit lo hi body) s Q.
Proof.
  intros Hle Hi Hb Hq. unfold for_exit.
  assert (∀ n i t, lo ≤ i → i + Z.of_nat n = hi → Inv i t → runs (for_exit_loop n i body) t Q) as Hl.
  { induction n as [|n IH]; intros i t Hlo Hhi HI; cbn [for_exit_loop].
    - apply runs_ret, Hq. by replace hi with i by lia.
    - eapply runs_bind_mono; [apply Hb; [lia|done]|]. intros [v|] t' HP; [by apply runs_ret|].
      apply IH; [lia|lia|done]. }
  apply Hl; [lia|lia|done].
Qed.

(** ** Bits *)

Lemma land_pow2 v k : 0 ≤ k → (Z.land v (Z.shiftl 1 k) =? 0) = negb (Z.testbit v k).
Proof.
  intros Hk. apply eq_true_iff_eq. rewrite Z.eqb_eq, negb_true_iff, Z.shiftl_1_l. split.
  - intros E. rewrite <- (andb_true_r (Z.testbit v k)), <- (Z.pow2_bits_true k Hk), <- Z.land_spec, E. apply Z.bits_0.
  - intros E. apply Z.bits_inj'. intros n Hn. rewrite Z.land_spec, Z.bits_0.
    destruct (decide (n = k)) as [->|Hne]; [by rewrite E|]. rewrite Z.pow2_bits_false by done. apply andb_false_r.
Qed.

(** ** Sums *)

(** [f 0 + ... + f (n - 1)] *)
Fixpoint zsum (f : Z → Z) (n : nat) : Z :=
  match n with
  | O => 0
  | S k => zsum f k + f (Z.of_nat k)
  end.

Lemma zsum_ext f g n :
  (∀ i, 0 ≤ i < Z.of_nat n → f i = g i) → zsum f n = zsum g n.
Proof.
  induction n as [|n IH]; intros Hfg; simpl; [done|].
  rewrite IH by (intros; apply Hfg; lia). by rewrite Hfg by lia.
Qed.

(** A sum in which one term changes. *)
Lemma zsum_change f g n i :
  0 ≤ i < Z.of_nat n → (∀ j, 0 ≤ j < Z.of_nat n → j ≠ i → g j = f j) →
  zsum g n = zsum f n + (g i - f i).
Proof.
  induction n as [|n IH]; intros Hi Hfg; simpl; [lia|].
  destruct (decide (i = Z.of_nat n)) as [->|Hn].
  - rewrite (zsum_ext g f) by (intros; apply Hfg; lia). lia.
  - rewrite IH; [|lia|intros; apply Hfg; lia]. rewrite (Hfg (Z.of_nat n)) by lia. lia.
Qed.

Lemma zsum_change2 f g n i k :
  0 ≤ i < Z.of_nat n → 0 ≤ k < Z.of_nat n → i ≠ k →
  (∀ j, 0 ≤ j < Z.of_nat n → j ≠ i → j ≠ k → g j = f j) →
  zsum g n = zsum f n + (g i - f i) + (g k - f k).
Proof.
  intros Hi Hk Hne Hfg. set (h j := if decide (j = i) then f i else g j).
  rewrite (zsum_change h g n i), (zsum_change f h n k); unfold h; try done.
  - rewrite (decide_True (P := i = i)), (decide_False (P := k = i)) by done. lia.
  - intros j Hj Hn. case_decide; [by subst|]. by apply Hfg.
  - intros j _ Hn. by rewrite decide_False.
Qed.

Lemma zsum_nonneg f n : (∀ i, 0 ≤ i < Z.of_nat n → 0 ≤ f i) → 0 ≤ zsum f n.
Proof.
  induction n as [|n IH]; intros Hf; simpl; [lia|].
  pose proof (Hf (Z.of_nat n) ltac:(lia)).
  pose proof (IH ltac:(intros; apply Hf; lia)). lia.
Qed.

Lemma zsum_term f n i :
  (∀ j, 0 ≤ j < Z.of_nat n → 0 ≤ f j) → 0 ≤ i < Z.of_nat n → f i ≤ zsum f n.
Proof.
  intros Hf Hi. rewrite (zsum_change (λ j, if decide (j = i) then 0 else f j) f n i).
  - rewrite decide_True by done.
    pose proof (zsum_nonneg (λ j, if decide (j = i) then 0 else f j) n). 
    assert (0 ≤ zsum (λ j, if decide (j = i) then 0 else f j) n); [|lia].
    apply H. intros j Hj. case_decide; [lia|]. by apply Hf.
  - done.
  - intros j _ Hj. by rewrite decide_False.
Qed.

(** A positive sum of indicator values has a true one. *)
Lemma zsum_b2z_pos (b : Z → bool) n :
  0 < zsum (λ i, b2z (b i)) n → ∃ i, 0 ≤ i < Z.of_nat n ∧ b i = true.
Proof.
  induction n as [|n IH]; simpl; [lia|]. intros Hs.
  destruct (b (Z.of_nat n)) eqn:E; [exists (Z.of_nat n); split; [lia|done]|].
  simpl in Hs. destruct IH as (i & Hi & Hb); [lia|]. exists i. split; [lia|done].
Qed.

Lemma zsum_b2z_le (b : Z → bool) n : 0 ≤ zsum (λ i, b2z (b i)) n ≤ Z.of_nat n.
Proof.
  induction n as [|n IH]; simpl zsum; [lia|]. destruct (b (Z.of_nat n)); simpl b2z; lia.
Qed.

#[global] Arguments zsum : simpl never.
