(* ===== verification/Spinlock.v ===== *)
(** * Locks

    kern/lib/spinlock.c, kern/lib/spinlock.h and kern/lib/reentrant_lock.c.

    [Spinlock] and [Reentrant] hold the operations as sequential code.  What
    several processors do to one lock is a transition system whose steps are
    the single memory accesses of that code ([SpinlockSMP], [ReentrantSMP]);
    mutual exclusion is an invariant of each. *)

From S2P Require Import Prelude.

Definition NUM_CPUS : Z := 8.
Definition KSTACK_MAGIC : Z := 2557891634.

(** A release build, running on processor 0. *)
Definition demo_env : KEnv :=
  {| DEBUG_MSG := false; ks_cpu_idx := 0; ks_magic := KSTACK_MAGIC |}.

Record spinlock_t := { lock_holder : Z; lock : Z }.
#[global] Instance spinlock_inhabited : Inhabited spinlock_t :=
  populate {| lock_holder := 0; lock := 0 |}.
#[global] Instance spinlock_eq_dec : EqDecision spinlock_t.
Proof. solve_decision. Defined.

Module Spinlock.
Section ops.
Context `{KEnv}.

(** [xchg(&lk->lock, v)]: the old value, atomically replaced. *)
Definition xchg_lock (v : Z) (lk : spinlock_t) : Z * spinlock_t :=
  (lock lk, {| lock_holder := lock_holder lk; lock := v |}).

Definition set_holder (h : Z) (lk : spinlock_t) : spinlock_t :=
  {| lock_holder := h; lock := lock lk |}.

Definition xchg (v : Z) : M spinlock_t Z := λ lk,
  let '(old, lk') := xchg_lock v lk in Ret (old, lk').

Definition spinlock_init : M spinlock_t unit :=
  modify (λ _, {| lock_holder := NUM_CPUS + 1; lock := 0 |}).

Definition spinlock_holding : M spinlock_t bool :=
  let! l := gets lock in
  if negb (nz l) then ret false else
  KERN_ASSERT (ks_magic =? KSTACK_MAGIC) ;;;
  let! h := gets lock_holder in
  ret (h =? ks_cpu_idx).

(** The loop [while (xchg(&lk->lock, 1) != 0) pause();]: in a sequential run
    nothing changes the lock between two exchanges, so an exchange that reads
    a non-zero value is followed by such exchanges for ever. *)
Definition spinlock_acquire_A : M spinlock_t unit :=
  let! old := xchg 1 in
  if nz old then hang else
  KERN_ASSERT (ks_magic =? KSTACK_MAGIC) ;;;
  modify (set_holder ks_cpu_idx).

Definition spinlock_try_acquire_A : M spinlock_t Z :=
  let! old_val := xchg 1 in
  when (old_val =? 0)
    (KERN_ASSERT (ks_magic =? KSTACK_MAGIC) ;;;
     modify (set_holder ks_cpu_idx)) ;;;
  ret old_val.

Definition spinlock_release_A : M spinlock_t unit :=
  modify (set_holder (NUM_CPUS + 1)) ;;;
  xchg 0 ;;;
  ret tt.

Definition spinlock_acquire : M spinlock_t unit := spinlock_acquire_A.
Definition spinlock_release : M spinlock_t unit := spinlock_release_A.
Definition spinlock_try_acquire : M spinlock_t Z := spinlock_try_acquire_A.

(** The checking variants of a build with [DEBUG_LOCKHOLDING]. *)
Definition spinlock_acquire_ : M spinlock_t unit :=
  let! h := spinlock_holding in
  if h then hang else spinlock_acquire_A.

Definition spinlock_release_ : M spinlock_t unit :=
  let! h := spinlock_holding in
  when (negb h) KERN_PANIC ;;;
  spinlock_release_A.

Definition spinlock_try_acquire_ : M spinlock_t Z :=
  let! h := spinlock_holding in
  when h KERN_PANIC ;;;
  spinlock_try_acquire_A.

(** ** The operations on a free and on a held lock *)

(** The free lock, and the lock held by processor [c]. *)
Definition free_lk : spinlock_t := {| lock_holder := NUM_CPUS + 1; lock := 0 |}.
Definition held_by (c : Z) : spinlock_t := {| lock_holder := c; lock := 1 |}.

Lemma acquire_free lk :
  ks_magic = KSTACK_MAGIC → lock lk = 0 →
  spinlock_acquire lk = Ret (tt, held_by ks_cpu_idx).
Proof.
  intros Hm Hl. unfold spinlock_acquire, spinlock_acquire_A, bind, xchg.
  simpl. rewrite Hl. simpl. by rewrite Hm.
Qed.

Lemma acquire_held lk : lock lk ≠ 0 → spinlock_acquire lk = Hang.
Proof.
  intros Hl. unfold spinlock_acquire, spinlock_acquire_A, bind, xchg. simpl.
  by rewrite (proj2 (nz_spec _) Hl).
Qed.

Lemma release_run lk : spinlock_release lk = Ret (tt, free_lk).
Proof. done. Qed.

End ops.
End Spinlock.

(** ** One spinlock, several processors *)

Module SpinlockSMP.
Import Spinlock.

(** Where a processor is in [spinlock_acquire_A], [spinlock_try_acquire_A] and
    [spinlock_release_A]: outside, at the exchange of the spin loop, at the exchange of the
    try, past a winning exchange and before the store to [lock_holder], in the critical
    section, between the two statements of the release.  [Spin] and [Try] say whether the
    call was made from within the critical section: nothing in the code forbids that. *)
Inductive pc := Idle | Spin (held : bool) | Try (held : bool) | Won | Crit | Rel.
#[global] Instance pc_inhabited : Inhabited pc := populate Idle.
#[global] Instance pc_eq_dec : EqDecision pc.
Proof. solve_decision. Defined.

Record smp := { lk : spinlock_t; pcs : gmap Z pc }.

Definition goto (c : Z) (p : pc) (l : spinlock_t) (st : smp) : smp :=
  {| lk := l; pcs := <[c := p]> (pcs st) |}.

(** Where a call comes from and a failed try returns to. *)
Definition caller (held : bool) : pc := if held then Crit else Idle.

(** A step is one memory access of one processor, or a call.  A processor releases the
    lock only when it has it. *)
Inductive step : smp → smp → Prop :=
| step_acquire st c h : 0 ≤ c < NUM_CPUS → pcs st !!! c = caller h →
    step st (goto c (Spin h) (lk st) st)
| step_xchg_lose st c h : pcs st !!! c = Spin h →
    (xchg_lock 1 (lk st)).1 ≠ 0 →
    step st (goto c (Spin h) (xchg_lock 1 (lk st)).2 st)
| step_xchg_win st c h : pcs st !!! c = Spin h →
    (xchg_lock 1 (lk st)).1 = 0 →
    step st (goto c Won (xchg_lock 1 (lk st)).2 st)
| step_try st c h : 0 ≤ c < NUM_CPUS → pcs st !!! c = caller h →
    step st (goto c (Try h) (lk st) st)
| step_try_lose st c h : pcs st !!! c = Try h →
    (xchg_lock 1 (lk st)).1 ≠ 0 →
    step st (goto c (caller h) (xchg_lock 1 (lk st)).2 st)
| step_try_win st c h : pcs st !!! c = Try h →
    (xchg_lock 1 (lk st)).1 = 0 →
    step st (goto c Won (xchg_lock 1 (lk st)).2 st)
| step_holder st c : pcs st !!! c = Won →
    step st (goto c Crit (set_holder c (lk st)) st)
| step_unhold st c : pcs st !!! c = Crit →
    step st (goto c Rel (set_holder (NUM_CPUS + 1) (lk st)) st)
| step_xchg_free st c : pcs st !!! c = Rel →
    step st (goto c Idle (xchg_lock 0 (lk st)).2 st).

Definition init : smp := {| lk := free_lk; pcs := ∅ |}.

(** A processor whose number is stored in [lock_holder]. *)
Definition holds (p : pc) : Prop := p = Crit ∨ p = Spin true ∨ p = Try true.
#[global] Instance holds_dec p : Decision (holds p).
Proof. unfold holds. apply _. Defined.

(** A processor past the winning exchange and before the freeing one. *)
Definition inside (p : pc) : Prop := p = Won ∨ p = Rel ∨ holds p.
#[global] Instance inside_dec p : Decision (inside p).
Proof. unfold inside. apply _. Defined.

Definition inv (st : smp) : Prop :=
  (lock (lk st) = 0 ∧ lock_holder (lk st) = NUM_CPUS + 1 ∧
   ∀ c, ¬ inside (pcs st !!! c)) ∨
  (∃ o, lock (lk st) = 1 ∧ 0 ≤ o < NUM_CPUS ∧ inside (pcs st !!! o) ∧
   (∀ c, inside (pcs st !!! c) → c = o) ∧
   (lock_holder (lk st) = if decide (holds (pcs st !!! o)) then o else NUM_CPUS + 1)).

(** Only the processors of the machine ever leave [Idle]. *)
Definition in_range (st : smp) : Prop :=
  ∀ c, pcs st !!! c ≠ Idle → 0 ≤ c < NUM_CPUS.

Lemma goto_pc c p l st d :
  pcs (goto c p l st) !!! d = if bool_decide (c = d) then p else pcs st !!! d.
Proof. apply lookup_total_insert_dec. Qed.

Lemma in_range_step st st' : step st st' → in_range st → in_range st'.
Proof.
  intros Hs Hr c. destruct Hs; rewrite goto_pc; case_bool_decide; subst; try (by apply Hr);
    intros _; try done; apply Hr; congruence.
Qed.

Lemma outside_Idle : ¬ inside Idle.
Proof. unfold inside, holds. naive_solver. Qed.

(** Moves between the places outside and moves of the holder that leave it one. *)
Definition same_side (p q : pc) : Prop := (inside p ↔ inside q) ∧ (holds p ↔ holds q).

Lemma same_side_call h p : p = Spin h ∨ p = Try h → same_side (caller h) p ∧ same_side p (caller h).
Proof. intros [-> | ->]; destruct h; split; split; unfold inside, holds, caller; naive_solver. Qed.

(** A processor that stays on its side and stores nothing new. *)
Lemma inv_same c p st :
  0 ≤ c < NUM_CPUS → same_side (pcs st !!! c) p → inv st → inv (goto c p (lk st) st).
Proof.
  intros Hc [Hin Hho] [(Hl & Hh & Hn)|(o & Hl & Ho & Hi & Hu & Hh)]; [left|right; exists o].
  - split; [done|]. split; [done|]. intros d. rewrite goto_pc. case_bool_decide; [subst|done]. rewrite <- Hin. apply Hn.
  - simpl. rewrite !lookup_total_insert_dec. do 2 (split; [done|]). split; [case_bool_decide; [subst; by apply Hin|done]|].
    split.
    + intros d. rewrite lookup_total_insert_dec. case_bool_decide; [subst; rewrite <- Hin|]; apply Hu.
    + rewrite Hh. case_bool_decide; [subst|done]. by rewrite (decide_ext _ _ _ _ Hho).
Qed.

(** An exchange that reads a non-zero value stores 1 over 1. *)
Lemma xchg_lose st : inv st → (xchg_lock 1 (lk st)).1 ≠ 0 → (xchg_lock 1 (lk st)).2 = lk st.
Proof.
  intros Hi Hx. destruct (lk st) as [h l] eqn:E. unfold xchg_lock in *. simpl in *.
  destruct Hi as [(Hl & _)|(o & Hl & _)]; rewrite E in Hl; simpl in Hl; congruence.
Qed.

(** Whoever is inside is the owner of the invariant's second case. *)
Lemma inv_owner c st :
  inside (pcs st !!! c) → inv st →
  lock (lk st) = 1 ∧ (∀ d, inside (pcs st !!! d) → d = c) ∧ 0 ≤ c < NUM_CPUS ∧
  lock_holder (lk st) = if decide (holds (pcs st !!! c)) then c else NUM_CPUS + 1.
Proof.
  intros Hc [(Hl & Hh & Hn)|(o & Hl & Ho & Hin & Hu & Hh)]; [by destruct (Hn c)|].
  by assert (c = o) as -> by auto.
Qed.

(** The owner moves inside and stores the matching [lock_holder]. *)
Lemma inv_owner_moves c p h st :
  inside (pcs st !!! c) → inside p → inv st →
  h = (if decide (holds p) then c else NUM_CPUS + 1) →
  inv (goto c p (set_holder h (lk st)) st).
Proof.
  intros Hc Hp Hi Hh. destruct (inv_owner c st Hc Hi) as (Hl & Hu & Hr & _).
  right. exists c. simpl. rewrite lookup_total_insert_eq.
  do 3 (split; [done|]). split; [|done].
  intros d. rewrite lookup_total_insert_dec. case_bool_decide; [done|apply Hu].
Qed.

(** The winning exchange. *)
Lemma inv_win c st : 0 ≤ c < NUM_CPUS → (xchg_lock 1 (lk st)).1 = 0 → inv st →
  inv (goto c Won (xchg_lock 1 (lk st)).2 st).
Proof.
  intros Hc Hx [(Hl & Hh & Hn)|(o & Hl & _)]; [|simpl in Hx; lia].
  right; exists c. simpl. rewrite lookup_total_insert_eq.
  split; [done|]. split; [done|]. split; [by left|]. split.
  - intros d. rewrite lookup_total_insert_dec. case_bool_decide; [done|]. intros Hd. by destruct (Hn d).
  - by rewrite decide_False by (unfold holds; naive_solver).
Qed.

Lemma inv_step st st' : step st st' → in_range st → inv st → inv st'.
Proof.
  intros Hs Hr Hi.
  destruct Hs as [st c h Hc Hp|st c h Hp Hx|st c h Hp Hx|st c h Hc Hp|st c h Hp Hx|st c h Hp Hx|st c Hp|st c Hp|st c Hp];
    try (assert (0 ≤ c < NUM_CPUS) as Hc by (apply Hr; congruence)).
  - apply inv_same; [done| |done]. rewrite Hp. apply same_side_call. by left.
  - rewrite xchg_lose by done. apply inv_same; [done| |done]. by rewrite Hp.
  - by apply inv_win.
  - apply inv_same; [done| |done]. rewrite Hp. apply same_side_call. by right.
  - rewrite xchg_lose by done. apply inv_same; [done| |done]. rewrite Hp. apply same_side_call. by right.
  - by apply inv_win.
  - apply inv_owner_moves; try done; [rewrite Hp; by left|right; right; by left].
  - apply inv_owner_moves; try done; [rewrite Hp; right; right; by left|right; by left].
  - (* the freeing exchange *)
    assert (inside (pcs st !!! c)) as Hin by (rewrite Hp; right; by left).
    destruct (inv_owner c st Hin Hi) as (Hl & Hu & _ & Hh). rewrite Hp in Hh.
    left. split; [done|]. split; [done|].
    intros d. rewrite goto_pc. case_bool_decide as E; [apply outside_Idle|].
    intros Hd. by apply E, eq_sym, Hu.
Qed.

Lemma reachable_inv st : rtc step init st → in_range st ∧ inv st.
Proof.
  intros Hr. remember init as st0 eqn:E.
  assert (in_range st0 ∧ inv st0) as H0.
  { subst. split; [intros c; simpl; by rewrite lookup_total_empty|].
    left. repeat split. intros c. simpl. rewrite lookup_total_empty.
    apply outside_Idle. }
  clear E. induction Hr as [|x y z Hxy _ IH]; [done|].
  destruct H0. apply IH. split; [by eapply in_range_step|by eapply inv_step].
Qed.

(** *** The steps of a processor are its code

    A call that nothing interrupts takes the lock through the states that the sequential
    definitions give, and leaves every other processor where it was. *)

Definition moved (c : Z) (p : pc) (l : spinlock_t) (st st' : smp) : Prop :=
  lk st' = l ∧ pcs st' !!! c = p ∧ ∀ d, d ≠ c → pcs st' !!! d = pcs st !!! d.

Lemma moved_goto c p l st st' q l' : moved c q l' st st' → moved c p l st (goto c p l st').
Proof.
  intros (_ & _ & Ho). split; [done|]. split; [apply lookup_total_insert_eq|].
  intros d Hd. rewrite goto_pc, bool_decide_false by done. by apply Ho.
Qed.

Lemma moved_first c p l st : moved c p l st (goto c p l st).
Proof. apply (moved_goto _ _ _ _ _ (pcs st !!! c) (lk st)). done. Qed.

Lemma assert_same (E : KEnv) {St} b (s s' : St) : KERN_ASSERT b s = Ret (tt, s') → s' = s.
Proof. unfold KERN_ASSERT, KERN_PANIC. destruct b; [by intros [= ->]|]. destruct DEBUG_MSG; [done|by intros [= ->]]. Qed.

Lemma acquire_steps (E : KEnv) st l :
  0 ≤ ks_cpu_idx < NUM_CPUS → pcs st !!! ks_cpu_idx = Idle →
  spinlock_acquire (lk st) = Ret (tt, l) →
  ∃ st', rtc step st st' ∧ moved ks_cpu_idx Crit l st st'.
Proof.
  intros Hc Hp. unfold spinlock_acquire, spinlock_acquire_A, bind, xchg. simpl.
  destruct (nz (lock (lk st))) eqn:En; [done|]. apply nz_false in En. destruct (KERN_ASSERT (ks_magic =? KSTACK_MAGIC) _) as [[[] l1]| | |] eqn:Ea; [|done..].
  assert (l1 = (xchg_lock 1 (lk st)).2) as -> by (by apply assert_same in Ea). intros [= <-].
  eexists. split; [|eapply moved_goto, moved_goto, moved_first].
  eapply rtc_l; [by apply (step_acquire st ks_cpu_idx false)|].
  eapply rtc_l; [apply (step_xchg_win _ ks_cpu_idx false); [apply lookup_total_insert_eq|done]|].
  eapply rtc_l; [apply (step_holder _ ks_cpu_idx); apply lookup_total_insert_eq|]. apply rtc_refl.
Qed.

Lemma try_acquire_steps (E : KEnv) st h v l :
  0 ≤ ks_cpu_idx < NUM_CPUS → pcs st !!! ks_cpu_idx = caller h →
  spinlock_try_acquire (lk st) = Ret (v, l) →
  ∃ st', rtc step st st' ∧ moved ks_cpu_idx (if v =? 0 then Crit else caller h) l st st'.
Proof.
  intros Hc Hp. unfold spinlock_try_acquire, spinlock_try_acquire_A, bind, xchg. simpl.
  destruct (Z.eqb_spec (lock (lk st)) 0) as [Hz|Hz]; simpl.
  - destruct (KERN_ASSERT (ks_magic =? KSTACK_MAGIC) _) as [[[] l1]| | |] eqn:Ea; [|done..].
    assert (l1 = (xchg_lock 1 (lk st)).2) as -> by (by apply assert_same in Ea). intros [= <- <-]. rewrite Hz.
    eexists. split; [|eapply moved_goto, moved_goto, moved_first].
    eapply rtc_l; [by apply (step_try st ks_cpu_idx h)|].
    eapply rtc_l; [apply (step_try_win _ ks_cpu_idx h); [apply lookup_total_insert_eq|done]|].
    eapply rtc_l; [apply (step_holder _ ks_cpu_idx); apply lookup_total_insert_eq|]. apply rtc_refl.
  - intros [= <- <-]. rewrite (proj2 (Z.eqb_neq _ _) Hz).
    eexists. split; [|eapply moved_goto, moved_first].
    eapply rtc_l; [by apply (step_try st ks_cpu_idx h)|].
    eapply rtc_l; [apply (step_try_lose _ ks_cpu_idx h); [apply lookup_total_insert_eq|done]|]. apply rtc_refl.
Qed.

Lemma release_steps (E : KEnv) st l :
  pcs st !!! ks_cpu_idx = Crit → spinlock_release (lk st) = Ret (tt, l) →
  ∃ st', rtc step st st' ∧ moved ks_cpu_idx Idle l st st'.
Proof.
  intros Hp [= <-]. eexists. split; [|eapply moved_goto, moved_first].
  eapply rtc_l; [by apply (step_unhold _ ks_cpu_idx)|].
  eapply rtc_l; [apply (step_xchg_free _ ks_cpu_idx); apply lookup_total_insert_eq|]. apply rtc_refl.
Qed.

(** C24: Mutual exclusion: in every interleaving of the memory accesses of
    [spinlock_acquire_A], [spinlock_try_acquire_A] and [spinlock_release_A] by processors
    that release the lock only when they have it, at most one processor is between the
    exchange that took the lock and the one that frees it. *)
Theorem spinlock_mutual_exclusion st a b :
  rtc step init st →
  inside (pcs st !!! a) → inside (pcs st !!! b) → a = b.
Proof.
  intros Hr Ha Hb. destruct (reachable_inv st Hr) as [_ Hi].
  destruct (inv_owner b st Hb Hi) as (_ & Hu & _). by apply Hu.
Qed.

(** Processor 0 in the critical section; then processor 1 has begun to wait and processor 2
    has tried in vain. *)
Definition demo_crit : smp := goto 0 Crit (held_by 0)
  (goto 0 Won {| lock_holder := NUM_CPUS + 1; lock := 1 |} (goto 0 (Spin false) free_lk init)).

Definition demo_wait : smp :=
  goto 2 Idle (held_by 0) (goto 2 (Try false) (held_by 0)
    (goto 1 (Spin false) (held_by 0) (goto 1 (Spin false) (held_by 0) demo_crit))).

Lemma demo_crit_reachable : rtc step init demo_crit.
Proof.
  eapply rtc_l; [by apply (step_acquire init 0 false)|].
  eapply rtc_l; [by apply (step_xchg_win _ 0 false)|].
  eapply rtc_l; [by apply (step_holder _ 0)|]. apply rtc_refl.
Qed.

Lemma demo_wait_reachable : rtc step init demo_wait.
Proof.
  etrans; [apply demo_crit_reachable|].
  eapply rtc_l; [by apply (step_acquire demo_crit 1 false)|].
  eapply rtc_l; [by apply (step_xchg_lose _ 1 false)|].
  eapply rtc_l; [by apply (step_try _ 2 false)|].
  eapply rtc_l; [by apply (step_try_lose _ 2 false)|]. apply rtc_refl.
Qed.

(** Processor 0 is inside in a reachable state in which the others contend: nobody else is. *)
Lemma spinlock_mutual_exclusion_witness :
  rtc step init demo_wait ∧ pcs demo_wait !!! 0 = Crit ∧ pcs demo_wait !!! 1 = Spin false ∧
  ∀ b, inside (pcs demo_wait !!! b) → 0 = b.
Proof.
  split; [exact demo_wait_reachable|]. split; [reflexivity|]. split; [reflexivity|].
  intros b Hb. assert (inside (pcs demo_wait !!! 0)) as Hin by (right; right; left; reflexivity).
  exact (spinlock_mutual_exclusion demo_wait 0 b demo_wait_reachable Hin Hb).
Defined.

(** In every reachable state, [spinlock_holding] answers true exactly on the
    processor that holds the lock, once [lock_holder] is stored. *)
Theorem spinlock_holding_reachable (E : KEnv) st :
  rtc step init st → ks_magic = KSTACK_MAGIC → 0 ≤ ks_cpu_idx < NUM_CPUS →
  ∃ b, spinlock_holding (lk st) = Ret (b, lk st) ∧
       (b = true ↔ holds (pcs st !!! ks_cpu_idx)).
Proof.
  intros Hr Hm Hc. destruct (reachable_inv st Hr) as [_ Hi].
  unfold spinlock_holding, bind, gets. rewrite Hm.
  destruct Hi as [(Hl & Hh & Hn)|(o & Hl & Ho & Hin & Hu & Hh)]; rewrite Hl; simpl.
  - exists false. split; [done|]. split; [done|]. intros E1.
    exfalso. apply (Hn ks_cpu_idx). right. by right.
  - exists (lock_holder (lk st) =? ks_cpu_idx). split; [done|].
    rewrite Z.eqb_eq, Hh. case_decide as Hd; split; try lia.
    + by intros <-.
    + intros E1. symmetry. apply Hu. right. by right.
    + intros E1. exfalso. apply Hd.
      assert (ks_cpu_idx = o) as <- by (apply Hu; right; by right). done.
Qed.

Lemma spinlock_holding_reachable_witness :
  ∃ b, @spinlock_holding demo_env (lk demo_crit) = Ret (b, lk demo_crit) ∧
       (b = true ↔ holds (pcs demo_crit !!! 0)).
Proof.
  exact (spinlock_holding_reachable demo_env demo_crit demo_crit_reachable eq_refl
           (conj (Z.le_refl 0) eq_refl)).
Defined.

End SpinlockSMP.

(** ** The reentrant lock *)

Record reentrantlock := { rl_lock : Z; rl_count : Z }.

Module Reentrant.
Section ops.
Context `{KEnv}.

Definition UNLOCKED : Z := 4294967295.

(** [cmpxchg(&lk->lock, old, new)]: the value read; stored [new] if it was [old]. *)
Definition cmpxchg_lock (old new : Z) (l : reentrantlock) : Z * reentrantlock :=
  (rl_lock l, if rl_lock l =? old
              then {| rl_lock := new; rl_count := rl_count l |} else l).
Definition set_rl_lock (v : Z) (l : reentrantlock) : reentrantlock :=
  {| rl_lock := v; rl_count := rl_count l |}.
Definition set_count (f : Z → Z) (l : reentrantlock) : reentrantlock :=
  {| rl_lock := rl_lock l; rl_count := u32 (f (rl_count l)) |}.

Definition cmpxchg (old new : Z) : M reentrantlock Z := λ l,
  let '(v, l') := cmpxchg_lock old new l in Ret (v, l').

Definition reentrantlock_init : M reentrantlock unit :=
  modify (λ _, {| rl_lock := UNLOCKED; rl_count := 0 |}).

Definition reentrantlock_holding : M reentrantlock bool :=
  let! c := gets rl_count in ret (c >? 0).

(** The [do ... while] loop: as for the spinlock, an exchange that fails in a
    sequential run fails for ever. *)
Definition reentrantlock_acquire : M reentrantlock unit :=
  let! lv := cmpxchg UNLOCKED ks_cpu_idx in
  if negb (lv =? ks_cpu_idx) && negb (lv =? UNLOCKED) then hang else
  modify (set_count (λ c, c + 1)).

Definition reentrantlock_try_acquire : M reentrantlock Z :=
  let! lv := cmpxchg UNLOCKED ks_cpu_idx in
  if (lv =? ks_cpu_idx) || (lv =? UNLOCKED) then
    modify (set_count (λ c, c + 1)) ;;; ret 1
  else ret 0.

Definition reentrantlock_release : M reentrantlock unit :=
  modify (set_count (λ c, c - 1)) ;;;
  let! c := gets rl_count in
  when (c =? 0) (modify (set_rl_lock UNLOCKED)).

(** [n] nested acquisitions, then [n] releases. *)
Fixpoint repeatM (n : nat) (m : M reentrantlock unit) : M reentrantlock unit :=
  match n with O => ret tt | S n' => m ;;; repeatM n' m end.

Lemma acquire_again n l :
  (rl_lock l = UNLOCKED ∨ rl_lock l = ks_cpu_idx) →
  0 ≤ rl_count l → rl_count l + Z.of_nat n < W32 →
  (n = O → rl_lock l = ks_cpu_idx) →
  repeatM n reentrantlock_acquire l =
    Ret (tt, {| rl_lock := ks_cpu_idx; rl_count := rl_count l + Z.of_nat n |}).
Proof.
  revert l. induction n as [|n IH]; intros l Hl H0 Hn Hz.
  - destruct l; simpl in *. by rewrite Z.add_0_r, Hz.
  - assert (reentrantlock_acquire l =
      Ret (tt, {| rl_lock := ks_cpu_idx; rl_count := rl_count l + 1 |})) as E.
    { destruct l as [v c]. simpl in *.
      unfold reentrantlock_acquire, bind, cmpxchg, cmpxchg_lock, modify, set_count.
      simpl. destruct Hl as [-> | ->]; rewrite ?Z.eqb_refl, ?andb_false_r; simpl.
      - by rewrite u32_small by lia.
      - destruct (_ =? UNLOCKED); simpl; by rewrite u32_small by lia. }
    simpl. rewrite (bind_Ret _ _ _ _ _ E), IH; simpl; [|by right|lia..|done].
    do 3 f_equal. lia.
Qed.

Lemma release_again n l :
  rl_count l = Z.of_nat n → rl_count l < W32 → (0 < n)%nat →
  repeatM n reentrantlock_release l =
    Ret (tt, {| rl_lock := UNLOCKED; rl_count := 0 |}).
Proof.
  revert l. induction n as [|n IH]; intros [v c] Hc Hb Hn; [lia|]. simpl in *.
  assert (u32 (c - 1) = Z.of_nat n) as E by (rewrite u32_small; lia).
  unfold bind at 1, reentrantlock_release at 1, bind, modify, set_count, gets, when.
  simpl. rewrite E. destruct n as [|n]; [done|].
  rewrite (proj2 (Z.eqb_neq (Z.of_nat (S n)) 0)) by lia.
  rewrite <- (IH {| rl_lock := v; rl_count := Z.of_nat (S n) |}) by (simpl; lia). done.
Qed.

(** [n] nested acquisitions of the reentrant lock by one processor followed by
    [m] releases return; the lock is free again exactly when [m] is [n], and until
    then the processor holds it with the remaining count. *)
Theorem reentrant_nesting n m :
  (0 < m)%nat → (m ≤ n)%nat → Z.of_nat n < W32 →
  (repeatM n reentrantlock_acquire ;;; repeatM m reentrantlock_release)
    {| rl_lock := UNLOCKED; rl_count := 0 |} =
  Ret (tt, if decide (m = n) then {| rl_lock := UNLOCKED; rl_count := 0 |}
           else {| rl_lock := ks_cpu_idx; rl_count := Z.of_nat n - Z.of_nat m |}).
Proof.
  intros Hm Hmn Hn.
  erewrite bind_Ret by (apply acquire_again; simpl; [by left|lia|lia|lia]). simpl.
  case_decide as E; [subst; apply release_again; simpl; lia|].
  assert (∀ k c, (k ≤ m)%nat → Z.of_nat k < c < W32 →
    repeatM k reentrantlock_release {| rl_lock := ks_cpu_idx; rl_count := c |} =
    Ret (tt, {| rl_lock := ks_cpu_idx; rl_count := c - Z.of_nat k |})) as Hk.
  { induction k as [|k IH]; intros c Hk Hc; simpl.
    - by rewrite Z.sub_0_r.
    - unfold bind at 1, reentrantlock_release at 1, bind, modify, set_count, gets, when.
      simpl. rewrite (u32_small (c - 1)) by lia.
      rewrite (proj2 (Z.eqb_neq (c - 1) 0)) by lia. simpl.
      rewrite IH by lia. do 3 f_equal. lia. }
  rewrite Hk by lia. done.
Qed.

End ops.

Lemma reentrant_nesting_witness :
  let H := demo_env in
  (repeatM 3 reentrantlock_acquire ;;; repeatM 3 reentrantlock_release)
    {| rl_lock := UNLOCKED; rl_count := 0 |} =
  Ret (tt, {| rl_lock := UNLOCKED; rl_count := 0 |}).
Proof. exact (@reentrant_nesting demo_env 3 3 ltac:(lia) ltac:(lia) ltac:(done)). Defined.

End Reentrant.

(** ** One reentrant lock, several processors *)

Module ReentrantSMP.
Import Reentrant.

(** Positions in the code: outside, at the compare-exchange of the loop of
    [reentrantlock_acquire], at that of [reentrantlock_try_acquire], before the
    increment, before the decrement, at the test of the count, before the
    freeing exchange. *)
Inductive rpc := RIdle | RLoop | RTry | RInc | RDec | RTest | RFree.
#[global] Instance rpc_inhabited : Inhabited rpc := populate RIdle.

(** [depth] counts, per processor, the acquisitions it has not released. *)
Record rsmp := { rl : reentrantlock; rpcs : gmap Z rpc; depth : gmap Z Z }.

Definition rgoto (c : Z) (p : rpc) (d : Z) (l : reentrantlock) (st : rsmp) : rsmp :=
  {| rl := l; rpcs := <[c := p]> (rpcs st); depth := <[c := d]> (depth st) |}.

(** A step is one memory access of one processor, or a call.  A processor releases only
    what it has acquired; the count has 32 bits, and the acquisitions are nested less deep. *)
Inductive rstep : rsmp → rsmp → Prop :=
| rstep_acquire st c : 0 ≤ c < NUM_CPUS → rpcs st !!! c = RIdle →
    depth st !!! c + 1 < W32 →
    rstep st (rgoto c RLoop (depth st !!! c) (rl st) st)
| rstep_lose st c : rpcs st !!! c = RLoop →
    (cmpxchg_lock UNLOCKED c (rl st)).1 ≠ c →
    (cmpxchg_lock UNLOCKED c (rl st)).1 ≠ UNLOCKED →
    rstep st (rgoto c RLoop (depth st !!! c) (cmpxchg_lock UNLOCKED c (rl st)).2 st)
| rstep_try st c : 0 ≤ c < NUM_CPUS → rpcs st !!! c = RIdle →
    depth st !!! c + 1 < W32 →
    rstep st (rgoto c RTry (depth st !!! c) (rl st) st)
| rstep_fail st c : rpcs st !!! c = RTry →
    (cmpxchg_lock UNLOCKED c (rl st)).1 ≠ c →
    (cmpxchg_lock UNLOCKED c (rl st)).1 ≠ UNLOCKED →
    rstep st (rgoto c RIdle (depth st !!! c) (cmpxchg_lock UNLOCKED c (rl st)).2 st)
| rstep_win st c : rpcs st !!! c = RLoop ∨ rpcs st !!! c = RTry →
    (cmpxchg_lock UNLOCKED c (rl st)).1 = c ∨
    (cmpxchg_lock UNLOCKED c (rl st)).1 = UNLOCKED →
    rstep st (rgoto c RInc (depth st !!! c) (cmpxchg_lock UNLOCKED c (rl st)).2 st)
| rstep_inc st c : rpcs st !!! c = RInc →
    rstep st (rgoto c RIdle (depth st !!! c + 1) (set_count (λ n, n + 1) (rl st)) st)
| rstep_release st c : rpcs st !!! c = RIdle → 0 < depth st !!! c →
    rstep st (rgoto c RDec (depth st !!! c) (rl st) st)
| rstep_dec st c : rpcs st !!! c = RDec →
    rstep st (rgoto c RTest (depth st !!! c - 1) (set_count (λ n, n - 1) (rl st)) st)
| rstep_nested st c : rpcs st !!! c = RTest → rl_count (rl st) ≠ 0 →
    rstep st (rgoto c RIdle (depth st !!! c) (rl st) st)
| rstep_last st c : rpcs st !!! c = RTest → rl_count (rl st) = 0 →
    rstep st (rgoto c RFree (depth st !!! c) (rl st) st)
| rstep_free st c : rpcs st !!! c = RFree →
    rstep st (rgoto c RIdle (depth st !!! c) (set_rl_lock UNLOCKED (rl st)) st).

Definition rinit : rsmp :=
  {| rl := {| rl_lock := UNLOCKED; rl_count := 0 |}; rpcs := ∅; depth := ∅ |}.

(** What the owner's nesting depth can be at each position. *)
Definition phase_ok (p : rpc) (d : Z) : Prop :=
  match p with
  | RIdle | RDec => 0 < d < W32
  | RLoop | RTry => 0 < d ∧ d + 1 < W32
  | RInc => 0 ≤ d ∧ d + 1 < W32
  | RTest => 0 ≤ d < W32
  | RFree => d = 0
  end.

(** Before a successful compare-exchange. *)
Definition before (p : rpc) : Prop := p = RIdle ∨ p = RLoop ∨ p = RTry.

(** The lock word names the owner [o], the count is the owner's depth, and
    everybody else is outside or at the compare-exchange. *)
Definition rinv_at (o : option Z) (st : rsmp) : Prop :=
  match o with
  | None => rl_lock (rl st) = UNLOCKED ∧ rl_count (rl st) = 0
  | Some c => rl_lock (rl st) = c ∧ 0 ≤ c < NUM_CPUS ∧
              rl_count (rl st) = depth st !!! c ∧ phase_ok (rpcs st !!! c) (depth st !!! c)
  end ∧
  ∀ c, Some c ≠ o → depth st !!! c = 0 ∧ before (rpcs st !!! c).

Definition rinv (st : rsmp) : Prop :=
  (∀ c, rpcs st !!! c ≠ RIdle → 0 ≤ c < NUM_CPUS) ∧ ∃ o, rinv_at o st.

(** A processor that is not the owner moves between the positions outside. *)
Lemma rinv_other o c p st :
  rinv_at o st → Some c ≠ o → before p →
  rinv_at o (rgoto c p (depth st !!! c) (rl st) st).
Proof.
  intros [Ho Hn] Hc Hp. split.
  - destruct o as [d|]; [|done]. simpl.
    assert (c ≠ d) by congruence. by rewrite !lookup_total_insert_ne.
  - intros e He. simpl. rewrite !lookup_total_insert_dec.
    case_bool_decide; [|by apply Hn]. subst. split; [by apply Hn|done].
Qed.

(** The owner moves (or a processor becomes the owner of a free lock). *)
Lemma rinv_own o c p d l st :
  rinv_at o st → o = None ∨ o = Some c → 0 ≤ c < NUM_CPUS →
  rl_lock l = c → rl_count l = d → phase_ok p d →
  rinv_at (Some c) (rgoto c p d l st).
Proof.
  intros [_ Hn] Ho Hc Hl Hd Hp. split.
  - simpl. by rewrite !lookup_total_insert_eq.
  - intros e He. simpl. rewrite !lookup_total_insert_ne by congruence.
    apply Hn. destruct Ho; congruence.
Qed.

(** A processor past the compare-exchange is the owner. *)
Lemma rinv_owner o c st :
  rinv_at o st → ¬ before (rpcs st !!! c) → o = Some c.
Proof.
  intros [_ Hn] Hb. destruct (decide (Some c = o)) as [|Hc]; [done|]. by destruct (Hn c Hc).
Qed.

Lemma cpu_not_UNLOCKED c : 0 ≤ c < NUM_CPUS → c ≠ UNLOCKED.
Proof. unfold NUM_CPUS, UNLOCKED. lia. Qed.

Lemma rrange_step st st' :
  rstep st st' → rinv st → ∀ c, rpcs st' !!! c ≠ RIdle → 0 ≤ c < NUM_CPUS.
Proof.
  intros Hs [Hr [o Ho]] c. destruct Hs; simpl; rewrite lookup_total_insert_dec;
    case_bool_decide; subst; try (by apply Hr); intros _; try done;
    try (apply Hr; naive_solver congruence).
  (* a release by a processor with a positive depth: it is the owner *)
  destruct (decide (Some c = o)) as [<-|Hc]; [by destruct Ho as [(_ & ? & _) _]|].
  destruct (proj2 Ho c Hc). lia.
Qed.

(** A call, by the owner or by another processor. *)
Lemma rinv_call o c p st :
  rinv_at o st → rpcs st !!! c = RIdle → depth st !!! c + 1 < W32 → p = RLoop ∨ p = RTry →
  0 ≤ c < NUM_CPUS → rinv_at o (rgoto c p (depth st !!! c) (rl st) st).
Proof.
  intros Ho Hp Hd Hq Hc. destruct (decide (Some c = o)) as [<-|Hne]; [|by apply rinv_other; [..|right]].
  pose proof Ho as [(Hl & _ & Hn & Hk) _]. rewrite Hp in Hk. simpl in Hk.
  eapply rinv_own; eauto. destruct Hq as [-> | ->]; simpl; lia.
Qed.

(** A compare-exchange that fails is not the owner's, and stores nothing. *)
Lemma rinv_fail o c p st :
  rinv_at o st → (cmpxchg_lock UNLOCKED c (rl st)).1 ≠ c → (cmpxchg_lock UNLOCKED c (rl st)).1 ≠ UNLOCKED →
  before p → rinv_at o (rgoto c p (depth st !!! c) (cmpxchg_lock UNLOCKED c (rl st)).2 st).
Proof.
  intros Ho Hx Hy Hp. simpl in Hx, Hy |- *. rewrite (proj2 (Z.eqb_neq _ _)) by done.
  apply rinv_other; auto. intros <-. destruct Ho as [(Hl & _) _]. congruence.
Qed.

Lemma rinv_step st st' : rstep st st' → rinv st → rinv st'.
Proof.
  intros Hs Hi. split; [by eapply rrange_step|]. destruct Hi as [Hr [o Ho]].
  assert (∀ c, rpcs st !!! c ≠ RIdle → 0 ≤ c < NUM_CPUS) as Hr' by done.
  destruct Hs as [st c Hc Hp Hd|st c Hp Hx Hy|st c Hc Hp Hd|st c Hp Hx Hy|st c Hp Hx|st c Hp|st c Hp Hd
                 |st c Hp|st c Hp Hx|st c Hp Hx|st c Hp].
  - exists o. apply rinv_call; auto.
  - exists o. apply rinv_fail; [done..|right; by left].
  - exists o. apply rinv_call; auto.
  - exists o. apply rinv_fail; [done..|by left].
  - (* a successful one *)
    assert (0 ≤ c < NUM_CPUS) as Hc by (apply Hr'; naive_solver congruence).
    exists (Some c). simpl in Hx. destruct o as [d|].
    + pose proof Ho as [(Hl & Hd & Hn & Hk) _].
      assert (d = c) as ->.
      { destruct Hx as [|Hx]; [congruence|]. pose proof (cpu_not_UNLOCKED d Hd). congruence. }
      assert (0 < depth st !!! c ∧ depth st !!! c + 1 < W32) as Hk' by (destruct Hp as [Hp|Hp]; by rewrite Hp in Hk).
      simpl. rewrite (proj2 (Z.eqb_neq _ _)) by (rewrite Hl; by apply cpu_not_UNLOCKED).
      eapply rinv_own; eauto. simpl. lia.
    + pose proof Ho as [[Hl Hn] Hz]. destruct (Hz c) as [Hd _]; [done|].
      simpl. rewrite Hl, Z.eqb_refl. eapply rinv_own; eauto; simpl; [congruence|].
      unfold W32. lia.
  - (* the increment *)
    assert (o = Some c) as -> by (eapply rinv_owner; [exact Ho|]; rewrite Hp; unfold before; naive_solver).
    pose proof Ho as [(Hl & Hd & Hn & Hk) _]. rewrite Hp in Hk. simpl in Hk.
    exists (Some c). eapply rinv_own; eauto; simpl; [rewrite Hn; apply u32_small; lia|lia].
  - (* release *)
    assert (o = Some c) as ->.
    { destruct (decide (Some c = o)) as [|Hne]; [done|].
      destruct (proj2 Ho c Hne). lia. }
    pose proof Ho as [(Hl & Hc & Hn & Hk) _]. rewrite Hp in Hk. simpl in Hk.
    exists (Some c). eapply rinv_own; eauto.
  - (* the decrement *)
    assert (o = Some c) as -> by (eapply rinv_owner; [exact Ho|]; rewrite Hp; unfold before; naive_solver).
    pose proof Ho as [(Hl & Hd & Hn & Hk) _]. rewrite Hp in Hk. simpl in Hk.
    exists (Some c). eapply rinv_own; eauto; simpl; [rewrite Hn; apply u32_small; lia|lia].
  - (* still nested *)
    assert (o = Some c) as -> by (eapply rinv_owner; [exact Ho|]; rewrite Hp; unfold before; naive_solver).
    pose proof Ho as [(Hl & Hd & Hn & Hk) _]. rewrite Hp in Hk. simpl in Hk.
    exists (Some c). eapply rinv_own; eauto. simpl. lia.
  - (* the last release *)
    assert (o = Some c) as -> by (eapply rinv_owner; [exact Ho|]; rewrite Hp; unfold before; naive_solver).
    pose proof Ho as [(Hl & Hd & Hn & Hk) _]. rewrite Hp in Hk. simpl in Hk.
    exists (Some c). eapply rinv_own; eauto. simpl. lia.
  - (* the freeing exchange *)
    assert (o = Some c) as -> by (eapply rinv_owner; [exact Ho|]; rewrite Hp; unfold before; naive_solver).
    pose proof Ho as [(Hl & Hd & Hn & Hk) Hz]. rewrite Hp in Hk. simpl in Hk.
    exists None. split; [simpl; split; [done|congruence]|].
    intros e _. simpl. rewrite !lookup_total_insert_dec.
    case_bool_decide; [by split; [|left]|]. apply Hz. congruence.
Qed.

(** *** The steps of a processor are its code *)

Definition rmoved (c : Z) (p : rpc) (d : Z) (l : reentrantlock) (st st' : rsmp) : Prop :=
  rl st' = l ∧ rpcs st' !!! c = p ∧ depth st' !!! c = d ∧
  ∀ e, e ≠ c → rpcs st' !!! e = rpcs st !!! e ∧ depth st' !!! e = depth st !!! e.

Lemma rmoved_goto c p d l st st' q d' l' : rmoved c q d' l' st st' → rmoved c p d l st (rgoto c p d l st').
Proof.
  intros (_ & _ & _ & Ho). split; [done|]. split; [apply lookup_total_insert_eq|]. split; [apply lookup_total_insert_eq|].
  intros e He. simpl. rewrite !lookup_total_insert_ne by done. by apply Ho.
Qed.

Lemma rmoved_first c p d l st : rmoved c p d l st (rgoto c p d l st).
Proof. apply (rmoved_goto _ _ _ _ _ _ (rpcs st !!! c) (depth st !!! c) (rl st)). done. Qed.

(** The three accesses of a call that gets the lock. *)
Lemma win_steps c p st :
  0 ≤ c < NUM_CPUS → rpcs st !!! c = RIdle → depth st !!! c + 1 < W32 → p = RLoop ∨ p = RTry →
  rl_lock (rl st) = c ∨ rl_lock (rl st) = UNLOCKED →
  ∃ st', rtc rstep st st' ∧
    rmoved c RIdle (depth st !!! c + 1) (set_count (λ n, n + 1) (cmpxchg_lock UNLOCKED c (rl st)).2) st st'.
Proof.
  intros Hc Hp Hd Hq Hl.
  eexists (rgoto c RIdle _ _ (rgoto c RInc _ _ (rgoto c p (depth st !!! c) (rl st) st))).
  split; [|eapply rmoved_goto, rmoved_goto, rmoved_first].
  eapply rtc_l; [destruct Hq as [-> | ->]; [by apply rstep_acquire|by apply rstep_try]|].
  eapply rtc_l; [apply (rstep_win _ c); [simpl; rewrite lookup_total_insert_eq; naive_solver|done]|].
  eapply rtc_l; [apply (rstep_inc _ c), lookup_total_insert_eq|]. simpl. rewrite !lookup_total_insert_eq. apply rtc_refl.
Qed.

Lemma racquire_steps (E : KEnv) st l :
  0 ≤ ks_cpu_idx < NUM_CPUS → rpcs st !!! ks_cpu_idx = RIdle → depth st !!! ks_cpu_idx + 1 < W32 →
  reentrantlock_acquire (rl st) = Ret (tt, l) →
  ∃ st', rtc rstep st st' ∧ rmoved ks_cpu_idx RIdle (depth st !!! ks_cpu_idx + 1) l st st'.
Proof.
  intros Hc Hp Hd. unfold reentrantlock_acquire, bind, cmpxchg. simpl.
  destruct (_ && _) eqn:Eb; [done|]. intros [= <-]. apply (win_steps _ RLoop); [done..|by left|].
  destruct (Z.eqb_spec (rl_lock (rl st)) ks_cpu_idx), (Z.eqb_spec (rl_lock (rl st)) UNLOCKED); naive_solver.
Qed.

Lemma rtry_steps (E : KEnv) st v l :
  0 ≤ ks_cpu_idx < NUM_CPUS → rpcs st !!! ks_cpu_idx = RIdle → depth st !!! ks_cpu_idx + 1 < W32 →
  reentrantlock_try_acquire (rl st) = Ret (v, l) →
  ∃ st', rtc rstep st st' ∧ rmoved ks_cpu_idx RIdle (depth st !!! ks_cpu_idx + v) l st st'.
Proof.
  intros Hc Hp Hd. unfold reentrantlock_try_acquire, bind, cmpxchg. simpl.
  destruct (_ || _) eqn:Eb; intros [= <- <-].
  - apply (win_steps _ RTry); [done..|by right|]. apply orb_true_iff in Eb as [?%Z.eqb_eq|?%Z.eqb_eq]; auto.
  - apply orb_false_iff in Eb as [E1%Z.eqb_neq E2%Z.eqb_neq]. rewrite Z.add_0_r.
    eexists. split; [|eapply rmoved_goto, rmoved_first].
    eapply rtc_l; [by apply (rstep_try st ks_cpu_idx)|].
    eapply rtc_l; [apply (rstep_fail _ ks_cpu_idx); [apply lookup_total_insert_eq|done|done]|].
    simpl. rewrite !lookup_total_insert_eq. apply rtc_refl.
Qed.

Lemma rrelease_steps (E : KEnv) st l :
  rpcs st !!! ks_cpu_idx = RIdle → 0 < depth st !!! ks_cpu_idx →
  reentrantlock_release (rl st) = Ret (tt, l) →
  ∃ st', rtc rstep st st' ∧ rmoved ks_cpu_idx RIdle (depth st !!! ks_cpu_idx - 1) l st st'.
Proof.
  intros Hp Hd. unfold reentrantlock_release, bind, modify, gets, when. set (l1 := set_count _ (rl st)).
  set (d := depth st !!! ks_cpu_idx - 1). set (c := ks_cpu_idx) in *.
  set (s2 := rgoto c RTest d l1 (rgoto c RDec (depth st !!! c) (rl st) st)).
  assert (rtc rstep st s2) as R2.
  { eapply rtc_l; [by apply (rstep_release st c)|].
    eapply rtc_l; [apply (rstep_dec _ c), lookup_total_insert_eq|]. simpl. rewrite lookup_total_insert_eq. apply rtc_refl. }
  assert (rmoved c RTest d l1 st s2) as M2 by (eapply rmoved_goto, rmoved_first).
  assert (rpcs s2 !!! c = RTest ∧ depth s2 !!! c = d) as [P2 D2] by (split; apply lookup_total_insert_eq).
  destruct (Z.eqb_spec (rl_count l1) 0) as [Hz|Hz]; intros [= <-].
  - eexists. split; [|eapply rmoved_goto, rmoved_goto, M2]. etrans; [exact R2|].
    eapply rtc_l; [by apply (rstep_last s2 c)|]. eapply rtc_l; [apply (rstep_free _ c), lookup_total_insert_eq|].
    simpl. rewrite !lookup_total_insert_eq. apply rtc_refl.
  - eexists. split; [|eapply rmoved_goto, M2]. etrans; [exact R2|].
    eapply rtc_l; [by apply (rstep_nested s2 c)|]. rewrite D2. apply rtc_refl.
Qed.

(** C32: In every interleaving of the memory accesses of [reentrantlock_acquire],
    [reentrantlock_try_acquire] and [reentrantlock_release] by processors that release only
    what they have acquired and nest less than 2^32 deep, at most one processor holds the
    reentrant lock, and the lock word and the count describe that holding. *)
Theorem reentrant_mutual_exclusion st a b :
  rtc rstep rinit st → 0 < depth st !!! a → 0 < depth st !!! b →
  a = b ∧ rl_lock (rl st) = a ∧
  (rpcs st !!! a = RIdle → rl_count (rl st) = depth st !!! a).
Proof.
  intros Hr Ha Hb.
  assert (rinv st) as [_ [o Ho]].
  { assert (rinv rinit) as H0.
    { split; [intros c; simpl; by rewrite lookup_total_empty|].
      exists None. split; [done|]. intros c _. simpl. rewrite !lookup_total_empty.
      split; [done|by left]. }
    clear Ha Hb. revert H0. induction Hr as [|x y z Hxy _ IH]; [done|].
    intros Hx. apply IH. by eapply rinv_step. }
  assert (∀ c, 0 < depth st !!! c → o = Some c) as Hown.
  { intros c Hc. destruct (decide (Some c = o)) as [|Hne]; [done|].
    destruct (proj2 Ho c Hne). lia. }
  pose proof (Hown a Ha). pose proof (Hown b Hb). subst o.
  destruct Ho as [(Hl & _ & Hn & _) _]. repeat split; congruence.
Qed.

(** Processor 0 holds the lock; processor 1 has tried in vain. *)
Definition demo_reentrant : rsmp :=
  let s1 := rgoto 0 RLoop 0 (rl rinit) rinit in
  let s2 := rgoto 0 RInc 0 {| rl_lock := 0; rl_count := 0 |} s1 in
  let s3 := rgoto 0 RIdle 1 {| rl_lock := 0; rl_count := 1 |} s2 in
  rgoto 1 RIdle 0 (rl s3) (rgoto 1 RTry 0 (rl s3) s3).

Lemma demo_reentrant_reachable : rtc rstep rinit demo_reentrant.
Proof.
  eapply rtc_l; [by apply (rstep_acquire rinit 0)|].
  eapply rtc_l; [apply (rstep_win _ 0); [by left|by right]|].
  eapply rtc_l; [by apply (rstep_inc _ 0)|].
  eapply rtc_l; [by apply (rstep_try _ 1)|].
  eapply rtc_l; [by apply (rstep_fail _ 1)|]. apply rtc_refl.
Qed.

Lemma reentrant_mutual_exclusion_witness :
  rtc rstep rinit demo_reentrant ∧ depth demo_reentrant !!! 0 = 1 ∧
  rl_lock (rl demo_reentrant) = 0 ∧ rl_count (rl demo_reentrant) = 1 ∧
  ∀ b, 0 < depth demo_reentrant !!! b → 0 = b.
Proof.
  assert (0 < depth demo_reentrant !!! 0) as Hd by reflexivity.
  split; [exact demo_reentrant_reachable|]. split; [reflexivity|]. split; [reflexivity|]. split; [reflexivity|].
  intros b Hb. exact (proj1 (reentrant_mutual_exclusion demo_reentrant 0 b demo_reentrant_reachable Hd Hb)).
Defined.

End ReentrantSMP.
