(* ===== verification/Pmmap.v ===== *)
(** * The physical memory map

    kern/dev/mboot.c: the table of memory ranges that the boot loader reports,
    sorted, merged and queried by index.  The two kinds of singly linked lists
    of the source ([pmmap_list] through [next], [pmmap_sublist] through
    [type_next]) only ever link slots of the static array [pmmap_slots], each
    at most once, and are modelled as lists of slots. *)

From stdpp Require Import sorting.
From S2P Require Import Prelude Spinlock.

Record mboot_mmap := {
  mm_size : Z;
  base_addr_low : Z;
  base_addr_high : Z;
  length_low : Z;
  length_high : Z;
  mm_type : Z;
}.

Definition MEM_RAM : Z := 1.
Definition MEM_RESERVED : Z := 2.
Definition MEM_ACPI : Z := 3.
Definition MEM_NVS : Z := 4.

Record pmmap := { pm_start : Z; pm_end : Z; pm_type : Z }.

Record pmmap_st := {
  pmmap_slots_next_free : Z;
  pmmap_list : list pmmap;
  pmmap_sublist : Z → list pmmap;
  max_usable_memory : Z;
  mem_npages : Z;
  pmmap_nentries : Z;
}.

Definition pmmap_st0 : pmmap_st := {|
  pmmap_slots_next_free := 0; pmmap_list := []; pmmap_sublist := λ _, [];
  max_usable_memory := 0; mem_npages := 0; pmmap_nentries := 0 |}.

Definition set_next_free (v : Z) (s : pmmap_st) : pmmap_st := {|
  pmmap_slots_next_free := v; pmmap_list := pmmap_list s;
  pmmap_sublist := pmmap_sublist s; max_usable_memory := max_usable_memory s;
  mem_npages := mem_npages s; pmmap_nentries := pmmap_nentries s |}.
Definition set_list (v : list pmmap) (s : pmmap_st) : pmmap_st := {|
  pmmap_slots_next_free := pmmap_slots_next_free s; pmmap_list := v;
  pmmap_sublist := pmmap_sublist s; max_usable_memory := max_usable_memory s;
  mem_npages := mem_npages s; pmmap_nentries := pmmap_nentries s |}.
Definition set_sublist (v : Z → list pmmap) (s : pmmap_st) : pmmap_st := {|
  pmmap_slots_next_free := pmmap_slots_next_free s; pmmap_list := pmmap_list s;
  pmmap_sublist := v; max_usable_memory := max_usable_memory s;
  mem_npages := mem_npages s; pmmap_nentries := pmmap_nentries s |}.
Definition set_max_usable (v : Z) (s : pmmap_st) : pmmap_st := {|
  pmmap_slots_next_free := pmmap_slots_next_free s; pmmap_list := pmmap_list s;
  pmmap_sublist := pmmap_sublist s; max_usable_memory := v;
  mem_npages := mem_npages s; pmmap_nentries := pmmap_nentries s |}.
Definition set_npages (v : Z) (s : pmmap_st) : pmmap_st := {|
  pmmap_slots_next_free := pmmap_slots_next_free s; pmmap_list := pmmap_list s;
  pmmap_sublist := pmmap_sublist s; max_usable_memory := max_usable_memory s;
  mem_npages := v; pmmap_nentries := pmmap_nentries s |}.
Definition set_nentries (v : Z) (s : pmmap_st) : pmmap_st := {|
  pmmap_slots_next_free := pmmap_slots_next_free s; pmmap_list := pmmap_list s;
  pmmap_sublist := pmmap_sublist s; max_usable_memory := max_usable_memory s;
  mem_npages := mem_npages s; pmmap_nentries := v |}.

Section ops.
Context `{KEnv}.

(** The index of a free slot; [None] is [NULL]. *)
Definition pmmap_alloc_slot : M pmmap_st (option Z) :=
  let! n := gets pmmap_slots_next_free in
  if n =? 128 then ret None else
  modify (set_next_free (n + 1)) ;;; ret (Some n).

(** The traversal and the insertion of [pmmap_insert]: the new slot goes before
    the first slot with a larger start. *)
Fixpoint insert_slot (n : pmmap) (l : list pmmap) : list pmmap :=
  match l with
  | [] => [n]
  | s :: l' => if pm_start n <? pm_start s then n :: s :: l'
               else s :: insert_slot n l'
  end.

Definition pmmap_insert (start end_ type : Z) : M pmmap_st unit :=
  let! free_slot := pmmap_alloc_slot in
  match free_slot with
  | None => KERN_PANIC ;;; fault (* the store through the null slot *)
  | Some _ =>
      let! l := gets pmmap_list in
      modify (set_list (insert_slot
        {| pm_start := start; pm_end := end_; pm_type := type |} l))
  end.

(** The condition under which step 1 of [pmmap_merge] joins two neighbours. *)
Definition mergeable (s n : pmmap) : bool :=
  (pm_start s <=? pm_start n) && (pm_end s >=? pm_start n) && (pm_type s =? pm_type n).

(** Step 1 of [pmmap_merge]: a slot absorbs its successor at most once, and the
    traversal goes on with what now follows it. *)
Fixpoint merge_slots (l : list pmmap) : list pmmap :=
  match l with
  | s :: ((n :: rest) as tl) =>
      if mergeable s n then
        {| pm_start := pm_start s; pm_end := max (pm_end s) (pm_end n);
           pm_type := pm_type s |} :: merge_slots rest
      else s :: merge_slots tl
  | _ => l
  end.

Definition PMMAP_SUBLIST_NR (type : Z) : Z :=
  if type =? MEM_RAM then 0 else if type =? MEM_RESERVED then 1 else
  if type =? MEM_ACPI then 2 else if type =? MEM_NVS then 3 else -1.

(** Step 2 of [pmmap_merge]: each slot is appended to the list of its type. *)
Fixpoint build_sublists (l : list pmmap) : M pmmap_st unit :=
  match l with
  | [] => ret tt
  | slot :: l' =>
      let nr := PMMAP_SUBLIST_NR (pm_type slot) in
      KERN_ASSERT (negb (nr =? -1)) ;;;
      (if nr =? -1 then fault else
       let! sub := gets pmmap_sublist in
       modify (set_sublist (λ k, if k =? nr then sub k ++ [slot] else sub k))) ;;;
      build_sublists l'
  end.

Definition pmmap_merge : M pmmap_st unit :=
  let! l := gets pmmap_list in
  modify (set_list (merge_slots l)) ;;;
  build_sublists (merge_slots l) ;;;
  match last (filter (λ s, PMMAP_SUBLIST_NR (pm_type s) = 0) (merge_slots l)) with
  | Some s => modify (set_max_usable (pm_end s))
  | None => ret tt
  end.

(** The end of the range of a boot loader entry, cut off at 4 GB. *)
Definition mmap_end (p : mboot_mmap) : Z :=
  if negb (length_high p =? 0) || (length_low p >=? 4294967295 - base_addr_low p)
  then 4294967295 else base_addr_low p + length_low p.

(** The [while] loop of [pmmap_init] over the entries of the multiboot buffer. *)
Fixpoint copy_mmap (mbi : list mboot_mmap) : M pmmap_st unit :=
  match mbi with
  | [] => ret tt
  | p :: mbi' =>
      (if negb (base_addr_high p =? 0) then ret tt
       else pmmap_insert (base_addr_low p) (mmap_end p) (mm_type p)) ;;;
      copy_mmap mbi'
  end.

Definition pmmap_init (mbi : list mboot_mmap) : M pmmap_st unit :=
  modify (set_list []) ;;;
  modify (set_sublist (λ _, [])) ;;;
  copy_mmap mbi ;;;
  pmmap_merge ;;;
  let! l := gets pmmap_list in
  let! n := gets pmmap_nentries in
  modify (set_nentries (n + Z.of_nat (length l))) ;;;
  let! m := gets max_usable_memory in
  modify (set_npages (rounddown m 4096 / 4096)).

Definition get_size : M pmmap_st Z := gets pmmap_nentries.

(** The slot the [SLIST_FOREACH] of the getters stops at. *)
Definition nth_slot (idx : Z) : M pmmap_st (option pmmap) :=
  let! l := gets pmmap_list in
  let! n := gets pmmap_nentries in
  ret (if (idx <? 0) || (idx =? n) then None else l !! Z.to_nat idx).

Definition get_mms (idx : Z) : M pmmap_st Z :=
  let! slot := nth_slot idx in
  ret (match slot with Some s => pm_start s | None => 0 end).

Definition get_mml (idx : Z) : M pmmap_st Z :=
  let! slot := nth_slot idx in
  ret (match slot with Some s => u32 (pm_end s - pm_start s) | None => 0 end).

Definition is_usable (idx : Z) : M pmmap_st Z :=
  let! slot := nth_slot idx in
  ret (match slot with Some s => b2z (pm_type s =? MEM_RAM) | None => 0 end).

End ops.

(** ** The table after [pmmap_init] *)

Definition slot_wf (s : pmmap) : Prop :=
  0 ≤ pm_start s ∧ pm_start s ≤ pm_end s ∧ pm_end s ≤ 4294967295.

(** Address [a] lies in a range of type [t] of the table. *)
Definition covers (l : list pmmap) (t a : Z) : Prop :=
  ∃ s, s ∈ l ∧ pm_type s = t ∧ pm_start s ≤ a < pm_end s.

Definition start_le (x y : pmmap) : Prop := pm_start x ≤ pm_start y.
#[local] Instance start_le_trans : Transitive start_le.
Proof. intros x y z. unfold start_le. lia. Qed.

(** The entries of the boot loader that the code considers. *)
Definition mmap_wf (p : mboot_mmap) : Prop :=
  is_u32 (base_addr_low p) ∧ is_u32 (length_low p) ∧
  (mm_type p = MEM_RAM ∨ mm_type p = MEM_RESERVED ∨ mm_type p = MEM_ACPI ∨
   mm_type p = MEM_NVS).
Definition low_entries (mbi : list mboot_mmap) : list mboot_mmap :=
  filter (λ p, base_addr_high p = 0) mbi.
Definition slot_of (p : mboot_mmap) : pmmap :=
  {| pm_start := base_addr_low p; pm_end := mmap_end p; pm_type := mm_type p |}.

Lemma slot_of_wf p : mmap_wf p → slot_wf (slot_of p).
Proof.
  unfold mmap_wf, is_u32, W32, slot_wf, slot_of, mmap_end. simpl. intros (? & ? & _).
  destruct (negb _ || _) eqn:E; [lia|].
  apply orb_false_iff in E as [_ E]. lia.
Qed.

Lemma insert_slot_perm n l : insert_slot n l ≡ₚ n :: l.
Proof.
  induction l as [|s l IH]; simpl; [done|]. destruct (_ <? _); [done|].
  rewrite IH. apply Permutation_swap.
Qed.

Lemma insert_slot_HdRel x n l :
  HdRel start_le x l → start_le x n → HdRel start_le x (insert_slot n l).
Proof. intros Hl Hn. destruct l as [|y l]; simpl; [by constructor|].
  inversion Hl; subst. by destruct (_ <? _); constructor. Qed.

Lemma insert_slot_sorted n l :
  Sorted start_le l → Sorted start_le (insert_slot n l).
Proof.
  induction 1 as [|s l Hl IH Hs]; simpl; [by repeat constructor|].
  destruct (Z.ltb_spec (pm_start n) (pm_start s)) as [E|E].
  - constructor; [by constructor|]. constructor. unfold start_le. lia.
  - constructor; [done|]. by apply insert_slot_HdRel.
Qed.

Lemma max_ge_l a b : a ≤ max a b.
Proof. unfold max. destruct (Z.gtb_spec a b); lia. Qed.
Lemma max_ge_r a b : b ≤ max a b.
Proof. unfold max. destruct (Z.gtb_spec a b); lia. Qed.
Lemma max_cases a b : max a b = a ∨ max a b = b.
Proof. unfold max. destruct (_ >? _); auto. Qed.

Lemma mergeable_spec s n :
  mergeable s n = true ↔
  pm_start s ≤ pm_start n ∧ pm_start n ≤ pm_end s ∧ pm_type s = pm_type n.
Proof.
  unfold mergeable. rewrite !andb_true_iff, Z.leb_le, Z.geb_le, Z.eqb_eq. naive_solver.
Qed.

(** The induction scheme of [merge_slots]: two slots at a time, or one. *)
Lemma merge_slots_ind (P : list pmmap → Prop) :
  P [] → (∀ s, P [s]) →
  (∀ s n l, mergeable s n = true → P l → P (s :: n :: l)) →
  (∀ s n l, mergeable s n = false → P (n :: l) → P (s :: n :: l)) →
  ∀ l, P l.
Proof.
  intros H0 H1 H2 H3 l. remember (length l) as k eqn:Hk.
  revert l Hk. induction k as [k IH] using lt_wf_ind. intros [|s [|n l]] Hk; auto.
  destruct (mergeable s n) eqn:E; [apply H2|apply H3]; try done;
    eapply IH; [|reflexivity| |reflexivity]; simpl in *; lia.
Qed.

Definition in_slot (s : pmmap) (t a : Z) : Prop :=
  pm_type s = t ∧ pm_start s ≤ a < pm_end s.

Lemma covers_cons s l t a : covers (s :: l) t a ↔ in_slot s t a ∨ covers l t a.
Proof.
  unfold covers, in_slot. setoid_rewrite elem_of_cons. split.
  - intros (x & [->|Hx] & H'); [by left|]. right. by exists x.
  - intros [H'|(x & Hx & H')]; [exists s; auto|exists x; auto].
Qed.

Lemma merge_slots_covers l t a : covers (merge_slots l) t a ↔ covers l t a.
Proof.
  induction l as [|s|s n l E IH|s n l E IH] using merge_slots_ind; [done|done|..];
    simpl; rewrite E, !covers_cons, IH; [|by rewrite covers_cons].
  apply mergeable_spec in E as (E1 & E2 & E3). unfold in_slot. simpl.
  pose proof (max_ge_l (pm_end s) (pm_end n)).
  pose proof (max_ge_r (pm_end s) (pm_end n)).
  pose proof (max_cases (pm_end s) (pm_end n)).
  rewrite <- E3. intuition lia.
Qed.

Lemma merge_slots_wf l : Forall slot_wf l → Forall slot_wf (merge_slots l).
Proof.
  induction l as [|s|s n l E IH|s n l E IH] using merge_slots_ind; [done|done|..];
    simpl; rewrite E; rewrite !Forall_cons; intros Hl; split; [|naive_solver| |naive_solver].
  - destruct Hl as (Hs & Hn & _). unfold slot_wf in *. simpl.
    destruct (max_cases (pm_end s) (pm_end n)) as [->| ->]; [lia|].
    apply mergeable_spec in E. lia.
  - by destruct Hl.
Qed.

Lemma merge_slots_HdRel x l : HdRel start_le x l → HdRel start_le x (merge_slots l).
Proof.
  destruct l as [|s [|n l]]; simpl; try done. inversion_clear 1.
  destruct (mergeable s n); by constructor.
Qed.

Lemma merge_slots_sorted l : Sorted start_le l → Sorted start_le (merge_slots l).
Proof.
  induction l as [|s|s n l E IH|s n l E IH] using merge_slots_ind; [done|done|..];
    simpl; rewrite E; intros Hs; inversion Hs as [|? ? Hn Hsn]; subst.
  - inversion Hn as [|? ? Hl Hnl]; subst. constructor; [by apply IH|].
    apply merge_slots_HdRel. inversion Hsn; subst.
    destruct l as [|y l]; constructor. inversion Hnl; subst.
    unfold start_le in *. simpl. lia.
  - constructor; [by apply IH|]. by apply (merge_slots_HdRel s (n :: l)).
Qed.

Lemma merge_slots_type l : Forall (λ s, PMMAP_SUBLIST_NR (pm_type s) ≠ -1) l →
  Forall (λ s, PMMAP_SUBLIST_NR (pm_type s) ≠ -1) (merge_slots l).
Proof.
  induction l as [|s|s n l E IH|s n l E IH] using merge_slots_ind; [done|done|..];
    simpl; rewrite E; rewrite !Forall_cons; naive_solver.
Qed.

(** *** The code reaches that table *)

Section run.
Context `{KEnv}.

Lemma pmmap_insert_run st start e t :
  pmmap_slots_next_free st < 128 →
  pmmap_insert start e t st = Ret (tt,
    set_list (insert_slot {| pm_start := start; pm_end := e; pm_type := t |} (pmmap_list st))
      (set_next_free (pmmap_slots_next_free st + 1) st)).
Proof.
  intros Hn. unfold pmmap_insert, pmmap_alloc_slot, bind, gets.
  by rewrite (proj2 (Z.eqb_neq _ _)) by lia.
Qed.

(** The loop over the boot loader's entries inserts each one below 4 GB. *)
Lemma copy_mmap_runs mbi st :
  pmmap_slots_next_free st + Z.of_nat (length (low_entries mbi)) ≤ 128 →
  Sorted start_le (pmmap_list st) →
  runs (copy_mmap mbi) st (λ _ st',
    Sorted start_le (pmmap_list st') ∧
    pmmap_list st' ≡ₚ (slot_of <$> low_entries mbi) ++ pmmap_list st ∧
    pmmap_nentries st' = pmmap_nentries st).
Proof.
  revert st. induction mbi as [|p mbi IH]; intros st Hn Hs; simpl.
  { by apply runs_ret. }
  apply runs_bind. unfold low_entries in *. rewrite filter_cons in *.
  destruct (Z.eqb_spec (base_addr_high p) 0) as [E|E];
    [rewrite decide_True in * by done|rewrite decide_False in * by done]; simpl in *.
  - apply runs_eq. eexists _, _. split; [apply pmmap_insert_run; lia|].
    eapply runs_mono; [apply IH; simpl; [lia|by apply insert_slot_sorted]|].
    intros [] st' (H1 & H2 & H3). split; [done|]. split; [|done].
    rewrite H2. simpl. rewrite insert_slot_perm. apply Permutation_sym, Permutation_middle.
  - by apply IH.
Qed.

Lemma build_sublists_runs l st :
  Forall (λ s, PMMAP_SUBLIST_NR (pm_type s) ≠ -1) l →
  runs (build_sublists l) st (λ _ st',
    pmmap_list st' = pmmap_list st ∧ pmmap_nentries st' = pmmap_nentries st).
Proof.
  intros Hl. revert st. induction Hl as [|s l Hs Hl IH]; intros st; simpl.
  { by apply runs_ret. }
  rewrite (proj2 (Z.eqb_neq _ _)) by done. simpl.
  apply runs_bind, runs_ret, runs_bind. apply runs_bind. unfold runs at 1, gets.
  unfold runs at 1, modify. eapply runs_mono; [apply IH|]. by intros [] st'.
Qed.

(** The table of a freshly booted kernel: sorted, within 4 GB, and describing
    exactly the ranges the boot loader reported below 4 GB. *)
Definition table_of (mbi : list mboot_mmap) (st : pmmap_st) : Prop :=
  Sorted start_le (pmmap_list st) ∧
  Forall slot_wf (pmmap_list st) ∧
  pmmap_nentries st = Z.of_nat (length (pmmap_list st)) ∧
  ∀ t a, covers (pmmap_list st) t a ↔
         ∃ p, p ∈ mbi ∧ base_addr_high p = 0 ∧ mm_type p = t ∧
              base_addr_low p ≤ a < mmap_end p.

Lemma covers_low mbi l t a :
  l ≡ₚ slot_of <$> low_entries mbi →
  covers l t a ↔ ∃ p, p ∈ mbi ∧ base_addr_high p = 0 ∧ mm_type p = t ∧
                      base_addr_low p ≤ a < mmap_end p.
Proof.
  intros Hl. unfold covers, low_entries in *. setoid_rewrite Hl. split.
  - intros (s & Hs & Ht & Ha). apply list_elem_of_fmap in Hs as (p & -> & Hp).
    apply list_elem_of_filter in Hp as [Hz Hp]. by exists p.
  - intros (p & Hp & Hz & Ht & Ha). exists (slot_of p). split; [|done].
    apply list_elem_of_fmap. exists p. split; [done|]. by apply list_elem_of_filter.
Qed.

(** [pmmap_init] returns and builds the table. *)
Lemma pmmap_init_runs mbi st :
  pmmap_slots_next_free st = 0 → pmmap_nentries st = 0 →
  Z.of_nat (length (low_entries mbi)) ≤ 128 → Forall mmap_wf mbi →
  runs (pmmap_init mbi) st (λ _, table_of mbi).
Proof.
  intros Hf Hne Hlen Hwf. unfold pmmap_init.
  apply runs_bind. unfold runs at 1, modify. apply runs_bind. unfold runs at 1, modify.
  apply runs_bind. eapply runs_mono.
  { apply copy_mmap_runs; simpl; [lia|constructor]. }
  intros [] st1 (Hs & Hp & Hn). simpl in Hp. rewrite app_nil_r in Hp. simpl in Hn.
  assert (Forall mmap_wf (low_entries mbi)) as Hlow.
  { apply Forall_forall. intros p Hin. apply list_elem_of_filter in Hin as [_ Hin].
    by eapply Forall_forall in Hwf. }
  assert (Forall slot_wf (pmmap_list st1)) as Hw.
  { rewrite Hp. apply Forall_fmap. eapply Forall_impl; [done|]. apply slot_of_wf. }
  assert (Forall (λ s, PMMAP_SUBLIST_NR (pm_type s) ≠ -1) (pmmap_list st1)) as Ht.
  { rewrite Hp. apply Forall_fmap. eapply Forall_impl; [done|].
    intros p (_ & _ & [E|[E|[E|E]]]); simpl; by rewrite E. }
  apply runs_bind. unfold pmmap_merge. apply runs_bind. unfold runs at 1, gets.
  apply runs_bind. unfold runs at 1, modify. apply runs_bind.
  eapply runs_mono; [apply build_sublists_runs, merge_slots_type, Ht|].
  intros [] st2 (Hl2 & Hn2). simpl in Hl2, Hn2.
  set (fin := λ (_ : ()) st3, pmmap_list st3 = pmmap_list st2 ∧
                             pmmap_nentries st3 = pmmap_nentries st2).
  apply (runs_mono _ _ fin); [destruct (last _); by unfold fin, runs|].
  intros [] st3 [Hl3 Hn3]. unfold runs, bind, gets, modify. simpl.
  unfold table_of. simpl. rewrite Hl3, Hl2, Hn3, Hn2, Hn, Hne.
  split; [by apply merge_slots_sorted|]. split; [by apply merge_slots_wf|].
  split; [lia|]. intros t a. rewrite merge_slots_covers. by apply covers_low.
Qed.

(** The getters on a table: no entry is lost and no sum wraps around. *)
Lemma getters_run st i s :
  pmmap_nentries st = Z.of_nat (length (pmmap_list st)) →
  Forall slot_wf (pmmap_list st) →
  pmmap_list st !! Z.to_nat i = Some s → 0 ≤ i →
  get_mms i st = Ret (pm_start s, st) ∧
  get_mml i st = Ret (pm_end s - pm_start s, st) ∧
  is_usable i st = Ret (b2z (pm_type s =? MEM_RAM), st).
Proof.
  intros Hn Hw Hs Hi. assert (slot_wf s) as Hss by (by eapply Forall_lookup_1).
  assert (nth_slot i st = Ret (Some s, st)) as E.
  { unfold nth_slot, bind, gets, ret. rewrite Hs.
    apply lookup_lt_Some in Hs.
    rewrite (proj2 (Z.ltb_ge i 0)), (proj2 (Z.eqb_neq i _)) by lia. done. }
  unfold get_mms, get_mml, is_usable. rewrite !(bind_Ret _ _ _ _ _ E).
  unfold ret. rewrite u32_small; [done|]. unfold slot_wf, W32 in *. lia.
Qed.

End run.

(** ** The contract of the memory map *)

(** C31: [pmmap_init] returns and builds a table sorted by start address, of
    well-formed ranges, that covers an address with a type exactly when an
    entry of the boot loader below 4 GB does: sorting and merging lose and
    invent nothing. *)
Theorem pmmap_init_table `{KEnv} mbi st :
  pmmap_slots_next_free st = 0 → pmmap_nentries st = 0 →
  Z.of_nat (length (low_entries mbi)) ≤ 128 → Forall mmap_wf mbi →
  runs (pmmap_init mbi) st (λ _, table_of mbi).
Proof. apply pmmap_init_runs. Qed.

Lemma pmmap_init_table_witness :
  let mbi := [{| mm_size := 20; base_addr_low := 4096; base_addr_high := 0;
                 length_low := 8192; length_high := 0; mm_type := MEM_RAM |};
              {| mm_size := 20; base_addr_low := 0; base_addr_high := 0;
                 length_low := 4096; length_high := 0; mm_type := MEM_RESERVED |}] in
  runs (@pmmap_init demo_env mbi) pmmap_st0 (λ _, table_of mbi).
Proof.
  intros mbi.
  apply (pmmap_init_table mbi pmmap_st0); [reflexivity..|vm_compute; discriminate|].
  constructor; [|constructor; [|constructor]]; unfold mmap_wf, is_u32, W32; simpl;
    split_and!; auto; lia.
Defined.
