(* ===== verification/MAT.v ===== *)
(** * The physical page allocator

    kern/pmm/MATIntro, kern/pmm/MATInit and kern/pmm/MATOp: the allocation table
    [AT], its initialisation from the memory map, and the allocator [palloc] /
    [pfree] with its next-fit scan. *)

From S2P Require Import Prelude Spinlock Pmmap.

Definition PAGESIZE : Z := 4096.
Definition VM_USERLO : Z := 1073741824.   (* 0x40000000 *)
Definition VM_USERHI : Z := 4026531840.   (* 0xF0000000 *)
Definition VM_USERLO_PI : Z := 262144.    (* VM_USERLO / PAGESIZE *)
Definition VM_USERHI_PI : Z := 983040.    (* VM_USERHI / PAGESIZE *)
Definition AT_LEN : Z := 1048576.         (* 1 << 20 *)

Record ATStruct := { perm : Z; allocated : Z }.
#[global] Instance ATStruct_inhabited : Inhabited ATStruct :=
  populate {| perm := 0; allocated := 0 |}.

Record mat := {
  mat_map : pmmap_st;
  mem_lk : spinlock_t;
  NUM_PAGES : Z;
  AT : gmap Z ATStruct;
  last_palloc_index : Z;
}.

Definition set_map (v : pmmap_st) (s : mat) : mat := {|
  mat_map := v; mem_lk := mem_lk s; NUM_PAGES := NUM_PAGES s; AT := AT s;
  last_palloc_index := last_palloc_index s |}.
Definition set_mem_lk (v : spinlock_t) (s : mat) : mat := {|
  mat_map := mat_map s; mem_lk := v; NUM_PAGES := NUM_PAGES s; AT := AT s;
  last_palloc_index := last_palloc_index s |}.
Definition set_NUM_PAGES (v : Z) (s : mat) : mat := {|
  mat_map := mat_map s; mem_lk := mem_lk s; NUM_PAGES := v; AT := AT s;
  last_palloc_index := last_palloc_index s |}.
Definition set_AT (v : gmap Z ATStruct) (s : mat) : mat := {|
  mat_map := mat_map s; mem_lk := mem_lk s; NUM_PAGES := NUM_PAGES s; AT := v;
  last_palloc_index := last_palloc_index s |}.
Definition set_last_palloc (v : Z) (s : mat) : mat := {|
  mat_map := mat_map s; mem_lk := mem_lk s; NUM_PAGES := NUM_PAGES s; AT := AT s;
  last_palloc_index := v |}.

#[global] Program Instance mat_map_lens : Lens mat pmmap_st :=
  {| lget := mat_map; lset := set_map |}.
Next Obligation. done. Qed.
Next Obligation. by intros []. Qed.
Next Obligation. done. Qed.

Section ops.
Context `{KEnv}.

(** ** MATIntro *)

Definition mem_spinlock_init : M mat unit := fzoom mem_lk set_mem_lk Spinlock.spinlock_init.
Definition mem_lock : M mat unit := fzoom mem_lk set_mem_lk Spinlock.spinlock_acquire.
Definition mem_unlock : M mat unit := fzoom mem_lk set_mem_lk Spinlock.spinlock_release.

Definition get_nps : M mat Z := gets NUM_PAGES.
Definition set_nps (nps : Z) : M mat unit := modify (set_NUM_PAGES nps).

Definition at_is_norm (page_index : Z) : M mat Z :=
  let! e := aread AT_LEN AT page_index in
  ret (if perm e >? 1 then 1 else 0).

Definition at_set_perm (page_index p : Z) : M mat unit :=
  amod AT_LEN AT set_AT page_index (λ e, {| perm := p; allocated := allocated e |}) ;;;
  amod AT_LEN AT set_AT page_index (λ e, {| perm := perm e; allocated := 0 |}).

Definition at_is_allocated (page_index : Z) : M mat Z :=
  let! e := aread AT_LEN AT page_index in
  ret (if allocated e >? 0 then 1 else allocated e).

Definition at_set_allocated (page_index a : Z) : M mat unit :=
  amod AT_LEN AT set_AT page_index (λ e, {| perm := perm e; allocated := a |}).

(** ** MATInit *)

(** The first loop of [pmem_init]: the highest end address of the table. *)
Definition highest_addr (n : Z) : M mat Z :=
  loop (S (Z.to_nat n)) (λ '(entry_idx, nps),
    if entry_idx <? n then
      let! start := zoom (get_mms entry_idx) in
      let! len := zoom (get_mml entry_idx) in
      let cur_addr := u32 (start + len) in
      ret (inl (entry_idx + 1, if nps <? cur_addr then cur_addr else nps))
    else ret (inr nps)) (0, 0).

(** The inner loop: the first entry that contains the whole page, and whether
    the last entry looked at is usable. *)
Definition find_range (n pg_idx : Z) : M mat (Z * Z) :=
  loop (S (Z.to_nat n)) (λ '(entry_idx, flag, isnorm),
    if (entry_idx <? n) && negb (nz flag) then
      let! isnorm' := zoom (is_usable entry_idx) in
      let! start := zoom (get_mms entry_idx) in
      let! len := zoom (get_mml entry_idx) in
      let flag' := if (start <=? u32 (pg_idx * PAGESIZE)) &&
                      (u32 ((pg_idx + 1) * PAGESIZE) <=? u32 (start + len))
                   then 1 else flag in
      ret (inl (entry_idx + 1, flag', isnorm'))
    else ret (inr (flag, isnorm))) (0, 0, 0).

(** [pmem_init] with the memory map of [devinit(mbi_addr)] given as the list of
    its entries; what else [devinit] initialises is not part of this state. *)
Definition pmem_init (mbi : list mboot_mmap) : M mat unit :=
  zoom (pmmap_init mbi) ;;;
  mem_spinlock_init ;;;
  let! pmmap_size := zoom get_size in
  let! hi := highest_addr pmmap_size in
  let nps := rounddown hi PAGESIZE / PAGESIZE in
  set_nps nps ;;;
  for_ 0 nps (λ pg_idx,
    if (pg_idx <? VM_USERLO_PI) || (VM_USERHI_PI <=? pg_idx) then at_set_perm pg_idx 1
    else
      let! r := find_range pmmap_size pg_idx in
      if nz r.1 && nz r.2 then at_set_perm pg_idx 2 else at_set_perm pg_idx 0).

(** ** MATOp *)

(** Enough iterations for one round over the user pages. *)
Definition palloc_fuel : nat := Z.to_nat (VM_USERHI_PI - VM_USERLO_PI + 2).

(** The [while] loop of [palloc]; its locals are [palloc_index],
    [palloc_free_index] and [first], its result the final [palloc_free_index]. *)
Definition palloc_scan (nps last : Z) (fuel : nat) (l : Z * Z * bool) : M mat Z :=
  loop fuel (λ '(palloc_index, palloc_free_index, first),
    if (negb (palloc_index =? last) || first) && (palloc_free_index =? nps) then
      let! n := at_is_norm palloc_index in
      let! free := (if nz n then
                      let! a := at_is_allocated palloc_index in ret (negb (nz a))
                    else ret false) in
      let palloc_free_index' := if free : bool then palloc_index else palloc_free_index in
      let next := u32 (palloc_index + 1) in
      ret (inl (if VM_USERHI_PI <=? next then VM_USERLO_PI else next,
                palloc_free_index', false))
    else ret (inr palloc_free_index)) l.

Definition palloc : M mat Z :=
  mem_lock ;;;
  let! nps := get_nps in
  let! last := gets last_palloc_index in
  let! found := palloc_scan nps last palloc_fuel (last, nps, true) in
  let! res :=
    (if found =? nps then
       modify (set_last_palloc VM_USERLO_PI) ;;; ret 0
     else
       at_set_allocated found 1 ;;;
       modify (set_last_palloc found) ;;; ret found) in
  mem_unlock ;;;
  ret res.

Definition pfree (pfree_index : Z) : M mat unit :=
  mem_lock ;;;
  at_set_allocated pfree_index 0 ;;;
  mem_unlock.

End ops.

#[global] Arguments palloc_fuel : simpl never.

(** ** The allocator's contract *)

(** A page that [palloc] may hand out. *)
Definition page_free (s : mat) (i : Z) : bool :=
  (perm (AT s !!! i) >? 1) && (allocated (AT s !!! i) =? 0).

(** The table invariant: the lock is free, the scan starts at a user page, and
    the pages outside the user range or outside the machine are not normal. *)
Record mat_ok (s : mat) : Prop := {
  ok_lock : lock (mem_lk s) = 0;
  ok_last : VM_USERLO_PI ≤ last_palloc_index s < VM_USERHI_PI;
  ok_nps : 0 ≤ NUM_PAGES s ≤ AT_LEN;
  ok_user : ∀ i, ¬ (VM_USERLO_PI ≤ i < VM_USERHI_PI) → perm (AT s !!! i) ≤ 1;
  ok_machine : ∀ i, NUM_PAGES s ≤ i → perm (AT s !!! i) ≤ 1;
}.

(** The [k]-th page after [last] in the cyclic order of the user pages. *)
Definition cyclic (last k : Z) : Z :=
  if last + k <? VM_USERHI_PI then last + k
  else last + k - (VM_USERHI_PI - VM_USERLO_PI).

Definition mark_allocated (p a : Z) (s : mat) : mat :=
  set_AT (<[p := {| perm := perm (AT s !!! p); allocated := a |}]> (AT s)) s.

(** The state after [palloc] returned [p]. *)
Definition after_palloc (p : Z) (s : mat) : mat :=
  set_mem_lk Spinlock.free_lk (set_last_palloc p (mark_allocated p 1 s)).

Ltac unfold_consts :=
  unfold VM_USERLO_PI, VM_USERHI_PI, VM_USERLO, VM_USERHI, AT_LEN, PAGESIZE, W32 in *.

Section palloc.
Context `{KEnv}.

Lemma at_is_norm_run i s :
  0 ≤ i < AT_LEN → at_is_norm i s = Ret (b2z (perm (AT s !!! i) >? 1), s).
Proof.
  intros Hi. unfold at_is_norm. rewrite (bind_Ret _ _ _ _ _ (aread_in _ _ _ _ Hi)).
  unfold ret. by destruct (_ >? _).
Qed.

Lemma at_is_allocated_run i s :
  0 ≤ i < AT_LEN → ∃ a, at_is_allocated i s = Ret (a, s) ∧
                        nz a = negb (allocated (AT s !!! i) =? 0).
Proof.
  intros Hi. unfold at_is_allocated. rewrite (bind_Ret _ _ _ _ _ (aread_in _ _ _ _ Hi)).
  eexists. split; [done|]. unfold nz. destruct (Z.gtb_spec (allocated (AT s !!! i)) 0); [|done].
  by rewrite (proj2 (Z.eqb_neq (allocated (AT s !!! i)) 0)) by lia.
Qed.

Lemma at_set_allocated_run i a s :
  0 ≤ i < AT_LEN → at_set_allocated i a s = Ret (tt, mark_allocated i a s).
Proof. intros Hi. unfold at_set_allocated. by rewrite amod_in. Qed.

Lemma at_set_perm_run i p s :
  0 ≤ i < AT_LEN →
  at_set_perm i p s = Ret (tt, set_AT (<[i := {| perm := p; allocated := 0 |}]> (AT s)) s).
Proof.
  intros Hi. unfold at_set_perm. rewrite (bind_Ret _ _ _ _ _ (amod_in _ _ _ _ _ _ Hi)).
  rewrite amod_in by done. simpl. by rewrite lookup_total_insert_eq, insert_insert_eq.
Qed.

Lemma mem_lock_run s :
  ks_magic = KSTACK_MAGIC → lock (mem_lk s) = 0 →
  mem_lock s = Ret (tt, set_mem_lk (Spinlock.held_by ks_cpu_idx) s).
Proof. intros Hm Hl. by apply fzoom_Ret, Spinlock.acquire_free. Qed.

Lemma mem_unlock_run s : mem_unlock s = Ret (tt, set_mem_lk Spinlock.free_lk s).
Proof. by apply fzoom_Ret. Qed.

(** *** The scan *)

Lemma cyclic_range last k :
  VM_USERLO_PI ≤ last < VM_USERHI_PI → 0 ≤ k ≤ VM_USERHI_PI - VM_USERLO_PI →
  VM_USERLO_PI ≤ cyclic last k < VM_USERHI_PI.
Proof. unfold cyclic. intros. destruct (Z.ltb_spec (last + k) VM_USERHI_PI); unfold_consts; lia. Qed.

Lemma cyclic_eq_last last k :
  VM_USERLO_PI ≤ last < VM_USERHI_PI → 0 ≤ k ≤ VM_USERHI_PI - VM_USERLO_PI →
  cyclic last k = last ↔ k = 0 ∨ k = VM_USERHI_PI - VM_USERLO_PI.
Proof. unfold cyclic. intros. destruct (Z.ltb_spec (last + k) VM_USERHI_PI); unfold_consts; lia. Qed.

Lemma cyclic_onto last p :
  VM_USERLO_PI ≤ last < VM_USERHI_PI → VM_USERLO_PI ≤ p < VM_USERHI_PI →
  ∃ k, 0 ≤ k < VM_USERHI_PI - VM_USERLO_PI ∧ cyclic last k = p.
Proof.
  intros. unfold cyclic. destruct (decide (last ≤ p)).
  - exists (p - last). destruct (Z.ltb_spec (last + (p - last)) VM_USERHI_PI); unfold_consts; lia.
  - exists (p - last + (VM_USERHI_PI - VM_USERLO_PI)).
    destruct (Z.ltb_spec (last + (p - last + (VM_USERHI_PI - VM_USERLO_PI))) VM_USERHI_PI);
      unfold_consts; lia.
Qed.

(** One iteration that looks at a page. *)
Lemma scan_step s nps last f k :
  VM_USERLO_PI ≤ last < VM_USERHI_PI → 0 ≤ k < VM_USERHI_PI - VM_USERLO_PI →
  palloc_scan nps last (S f) (cyclic last k, nps, k =? 0) s =
  palloc_scan nps last f
    (cyclic last (k + 1), if page_free s (cyclic last k) then cyclic last k else nps,
     k + 1 =? 0) s.
Proof.
  intros Hl Hk. pose proof (cyclic_range last k Hl ltac:(lia)) as Hr.
  assert (0 ≤ cyclic last k < AT_LEN) as Ha by (unfold_consts; lia).
  assert ((negb (cyclic last k =? last) || (k =? 0)) = true) as Hc.
  { destruct (Z.eqb_spec k 0); [by rewrite orb_true_r|].
    rewrite (proj2 (Z.eqb_neq _ _)); [done|]. rewrite cyclic_eq_last by lia. lia. }
  assert ((if VM_USERHI_PI <=? u32 (cyclic last k + 1) then VM_USERLO_PI
           else u32 (cyclic last k + 1)) = cyclic last (k + 1)) as Hn.
  { rewrite u32_small by (unfold_consts; lia). revert Hr. unfold cyclic.
    destruct (Z.ltb_spec (last + k) VM_USERHI_PI), (Z.ltb_spec (last + (k + 1)) VM_USERHI_PI);
      destruct (Z.leb_spec VM_USERHI_PI (last + k + 1)); intros;
      destruct (Z.leb_spec VM_USERHI_PI (last + k - (VM_USERHI_PI - VM_USERLO_PI) + 1));
      unfold_consts; lia. }
  unfold palloc_scan at 1. simpl. unfold bind at 1. rewrite Hc, Z.eqb_refl. simpl.
  rewrite (bind_Ret _ _ _ _ _ (at_is_norm_run _ _ Ha)), nz_b2z. unfold page_free.
  assert ((k + 1 =? 0) = false) as -> by (apply Z.eqb_neq; lia).
  destruct (at_is_allocated_run _ s Ha) as (a & Ea & Hz).
  destruct (perm _ >? 1); simpl.
  - unfold bind at 1. rewrite (bind_Ret _ _ _ _ _ Ea). unfold ret.
    rewrite Hz, negb_involutive, Hn. done.
  - unfold bind at 1, ret. by rewrite Hn.
Qed.

(** The iteration that leaves the loop. *)
Lemma scan_exit s nps last f idx found first :
  idx = last ∧ first = false ∨ found ≠ nps →
  palloc_scan nps last (S f) (idx, found, first) s = Ret (found, s).
Proof.
  intros Hx. unfold palloc_scan, bind. simpl. unfold bind.
  assert ((negb (idx =? last) || first) && (found =? nps) = false) as ->; [|done].
  destruct Hx as [[-> ->]|Hx]; [by rewrite Z.eqb_refl|].
  by rewrite (proj2 (Z.eqb_neq found nps) Hx), andb_false_r.
Qed.

(** The scan stops at the first free page in cyclic order, or finds none. *)
Lemma scan_runs s last n k f :
  VM_USERLO_PI ≤ last < VM_USERHI_PI → page_free s (NUM_PAGES s) = false →
  0 ≤ k → k + Z.of_nat n = VM_USERHI_PI - VM_USERLO_PI → (n < f)%nat →
  (∃ j, k ≤ j < VM_USERHI_PI - VM_USERLO_PI ∧ page_free s (cyclic last j) = true ∧
        (∀ i, k ≤ i < j → page_free s (cyclic last i) = false) ∧
        palloc_scan (NUM_PAGES s) last f (cyclic last k, NUM_PAGES s, k =? 0) s =
          Ret (cyclic last j, s)) ∨
  ((∀ i, k ≤ i < VM_USERHI_PI - VM_USERLO_PI → page_free s (cyclic last i) = false) ∧
   palloc_scan (NUM_PAGES s) last f (cyclic last k, NUM_PAGES s, k =? 0) s =
     Ret (NUM_PAGES s, s)).
Proof.
  intros Hl Hnps. revert k f. induction n as [|n IH]; intros k f Hk0 Hk Hf;
    (destruct f as [|f]; [lia|]).
  - right. split; [lia|]. apply scan_exit. left. split; [apply cyclic_eq_last; lia|].
    apply Z.eqb_neq. unfold_consts. lia.
  - rewrite scan_step by lia. destruct (page_free s (cyclic last k)) eqn:E.
    + left. exists k. split; [lia|]. split; [done|]. split; [lia|].
      destruct f as [|f]; [lia|]. apply scan_exit. right. congruence.
    + destruct (IH (k + 1) f) as [(j & Hj & Hfj & Hb & Hs)|[Hb Hs]]; [lia|lia|lia|left|right].
      * exists j. split; [lia|]. split; [done|]. split; [|done].
        intros i Hi. destruct (decide (i = k)) as [->|]; [done|]. apply Hb. lia.
      * split; [|done]. intros i Hi. destruct (decide (i = k)) as [->|]; [done|]. apply Hb. lia.
Qed.

(** What [palloc] does: the two cases of its contract. *)
Definition palloc_post (s : mat) (p : Z) (s' : mat) : Prop :=
  (∃ k, 0 ≤ k < VM_USERHI_PI - VM_USERLO_PI ∧ p = cyclic (last_palloc_index s) k ∧
        page_free s p = true ∧
        (∀ i, 0 ≤ i < k → page_free s (cyclic (last_palloc_index s) i) = false) ∧
        s' = after_palloc p s) ∨
  ((∀ i, page_free s i = false) ∧ p = 0 ∧
   s' = set_mem_lk Spinlock.free_lk (set_last_palloc VM_USERLO_PI s)).

Lemma page_free_user s i : mat_ok s → page_free s i = true →
  VM_USERLO_PI ≤ i < VM_USERHI_PI ∧ i < NUM_PAGES s.
Proof.
  intros Hok Hf. unfold page_free in Hf. apply andb_true_iff in Hf as [Hp _].
  assert (1 < perm (AT s !!! i)) by (by apply Z.gtb_lt in Hp). split.
  - destruct (decide (VM_USERLO_PI ≤ i < VM_USERHI_PI)) as [|Hn]; [done|].
    pose proof (ok_user s Hok i Hn). lia.
  - destruct (decide (i < NUM_PAGES s)) as [|Hn]; [done|].
    pose proof (ok_machine s Hok i ltac:(lia)). lia.
Qed.

Lemma palloc_fuel_enough :
  (Z.to_nat (VM_USERHI_PI - VM_USERLO_PI) < palloc_fuel)%nat.
Proof. unfold palloc_fuel. unfold_consts. lia. Qed.

Lemma palloc_runs s :
  ks_magic = KSTACK_MAGIC → mat_ok s → runs palloc s (palloc_post s).
Proof.
  intros Hm Hok. unfold palloc. apply runs_bind.
  apply runs_eq. eexists _, _. split; [by apply mem_lock_run, ok_lock|].
  apply runs_bind. unfold runs at 1, get_nps, gets. simpl.
  apply runs_bind. unfold runs at 1, gets. simpl.
  set (s1 := set_mem_lk (Spinlock.held_by ks_cpu_idx) s).
  assert (page_free s (NUM_PAGES s) = false) as Hnps.
  { destruct (page_free s (NUM_PAGES s)) eqn:E; [|done].
    apply page_free_user in E; [lia|done]. }
  pose proof (ok_last s Hok) as Hl.
  destruct (scan_runs s1 (last_palloc_index s)
              (Z.to_nat (VM_USERHI_PI - VM_USERLO_PI)) 0 palloc_fuel)
    as [(j & Hj & Hf & Hb & Hs)|[Hb Hs]]; try done; try (unfold_consts; lia);
    try apply palloc_fuel_enough;
    assert (cyclic (last_palloc_index s) 0 = last_palloc_index s) as Hc0
      by (apply cyclic_eq_last; unfold_consts; lia);
    rewrite Hc0 in Hs; change (0 =? 0) with true in Hs;
    change (NUM_PAGES s1) with (NUM_PAGES s) in Hs;
    apply runs_bind; unfold runs at 1; rewrite Hs.
  - assert (page_free s (cyclic (last_palloc_index s) j) = true) as Hf' by done.
    pose proof (page_free_user _ _ Hok Hf') as [Hu Hn].
    rewrite (proj2 (Z.eqb_neq _ _)) by congruence.
    unfold runs, bind. rewrite at_set_allocated_run by (unfold_consts; lia). simpl.
    left. exists j. done.
  - rewrite Z.eqb_refl. unfold runs, bind. simpl. right. split; [|done].
    intros i. destruct (page_free s i) eqn:E; [|done].
    pose proof (page_free_user _ _ Hok E) as [Hu Hn].
    destruct (cyclic_onto (last_palloc_index s) i) as (k & Hk & <-); [done|done|].
    exact (eq_trans (eq_sym E) (Hb k Hk)).
Qed.

End palloc.

(** *** Invariants of the allocator *)

Lemma mat_ok_last p s :
  mat_ok s → VM_USERLO_PI ≤ p < VM_USERHI_PI → mat_ok (set_last_palloc p s).
Proof. intros [] ?. by constructor. Qed.

Lemma mat_ok_lock s : mat_ok s → mat_ok (set_mem_lk Spinlock.free_lk s).
Proof. intros []. by constructor. Qed.

Lemma perm_mark_allocated p a s i :
  perm (AT (mark_allocated p a s) !!! i) = perm (AT s !!! i).
Proof. simpl. rewrite lookup_total_insert_dec. by case_bool_decide; subst. Qed.

Lemma mat_ok_mark p a s : mat_ok s → mat_ok (mark_allocated p a s).
Proof.
  intros []. constructor; try done; intros i Hi; rewrite perm_mark_allocated; auto.
Qed.

Lemma page_free_mark p a s i :
  page_free (mark_allocated p a s) i =
  if bool_decide (p = i) then (perm (AT s !!! i) >? 1) && (a =? 0) else page_free s i.
Proof.
  unfold page_free. simpl. rewrite lookup_total_insert_dec. by case_bool_decide; subst.
Qed.

Lemma palloc_post_ok s p s' : mat_ok s → palloc_post s p s' → mat_ok s'.
Proof.
  intros Hok [(k & Hk & -> & Hf & _ & ->)|(_ & _ & ->)].
  - apply mat_ok_lock, mat_ok_last; [by apply mat_ok_mark|].
    by destruct (page_free_user _ _ Hok Hf).
  - apply mat_ok_lock, mat_ok_last; [done|unfold_consts; lia].
Qed.

Section pfree.
Context `{KEnv}.

(** [pfree] clears the allocation flag and nothing else. *)
Lemma pfree_run i s :
  ks_magic = KSTACK_MAGIC → lock (mem_lk s) = 0 → 0 ≤ i < AT_LEN →
  pfree i s = Ret (tt, set_mem_lk Spinlock.free_lk (mark_allocated i 0 s)).
Proof.
  intros Hm Hl Hi. unfold pfree.
  rewrite (bind_Ret _ _ _ _ _ (mem_lock_run _ Hm Hl)).
  by rewrite (bind_Ret _ _ _ _ _ (at_set_allocated_run _ _ _ Hi)), mem_unlock_run.
Qed.

End pfree.

(** ** Initialisation *)

(** The slot contains every address of the page. *)
Definition contains_page (i : Z) (s : pmmap) : bool :=
  (pm_start s <=? i * PAGESIZE) && ((i + 1) * PAGESIZE <=? pm_end s).

(** The first slot that contains the page is RAM. *)
Fixpoint page_usable (i : Z) (l : list pmmap) : bool :=
  match l with
  | [] => false
  | s :: l' => if contains_page i s then pm_type s =? MEM_RAM else page_usable i l'
  end.

Fixpoint max_end (acc : Z) (l : list pmmap) : Z :=
  match l with
  | [] => acc
  | s :: l' => max_end (if acc <? pm_end s then pm_end s else acc) l'
  end.

(** The permission [pmem_init] gives to page [i]. *)
Definition init_perm (l : list pmmap) (i : Z) : Z :=
  if (i <? VM_USERLO_PI) || (VM_USERHI_PI <=? i) then 1
  else if page_usable i l then 2 else 0.

Lemma max_end_bound l acc :
  Forall slot_wf l → 0 ≤ acc ≤ 4294967295 → 0 ≤ max_end acc l ≤ 4294967295.
Proof.
  intros Hl. revert acc. induction Hl as [|s l Hs Hl IH]; intros acc Ha; simpl; [done|].
  apply IH. unfold slot_wf in Hs. destruct (_ <? _); lia.
Qed.

Section init.
Context `{KEnv}.
Variables (s : mat) (l : list pmmap).
Hypothesis Hlist : pmmap_list (mat_map s) = l.
Hypothesis Hwf : Forall slot_wf l.
Hypothesis Hcnt : pmmap_nentries (mat_map s) = Z.of_nat (length l).

(** The three getters on an entry of the table. *)
Lemma map_getters i x :
  l !! Z.to_nat i = Some x → 0 ≤ i →
  zoom (get_mms i) s = Ret (pm_start x, s) ∧
  zoom (get_mml i) s = Ret (pm_end x - pm_start x, s) ∧
  zoom (is_usable i) s = Ret (b2z (pm_type x =? MEM_RAM), s) ∧
  u32 (pm_start x + (pm_end x - pm_start x)) = pm_end x.
Proof.
  intros Hx Hi. destruct (getters_run (mat_map s) i x) as (E1 & E2 & E3);
    rewrite ?Hlist; try done.
  split; [by apply zoom_read|]. split; [by apply zoom_read|]. split; [by apply zoom_read|].
  assert (slot_wf x) as Hs by (by eapply Forall_lookup_1).
  unfold slot_wf in Hs. rewrite u32_small; [lia|]. unfold_consts. lia.
Qed.

Lemma highest_addr_run : highest_addr (Z.of_nat (length l)) s = Ret (max_end 0 l, s).
Proof.
  unfold highest_addr. set (body := λ _ : Z * Z, _).
  assert (∀ n k acc f, (k + n = length l)%nat → (n < f)%nat →
    loop f body (Z.of_nat k, acc) s = Ret (max_end acc (drop k l), s)) as Hloop.
  { induction n as [|n IH]; intros k acc [|f] Hk Hf; try lia; simpl.
    - rewrite drop_ge by lia. unfold bind, body.
      by rewrite (proj2 (Z.ltb_ge _ _)) by lia.
    - destruct (lookup_lt_is_Some_2 l k) as [x Hx]; [lia|].
      destruct (map_getters (Z.of_nat k) x) as (E1 & E2 & _ & E4); [by rewrite Nat2Z.id|lia|].
      unfold bind at 1, body at 1. rewrite (proj2 (Z.ltb_lt _ _)) by lia.
      rewrite (bind_Ret _ _ _ _ _ E1), (bind_Ret _ _ _ _ _ E2), E4. unfold ret.
      replace (Z.of_nat k + 1) with (Z.of_nat (S k)) by lia.
      rewrite IH by lia. by rewrite (drop_S _ _ _ Hx). }
  rewrite Nat2Z.id. apply (Hloop (length l) 0%nat 0); lia.
Qed.

(** The search loop over the entries, for a user page. *)
Lemma find_range_run i :
  VM_USERLO_PI ≤ i < VM_USERHI_PI →
  ∃ r, find_range (Z.of_nat (length l)) i s = Ret (r, s) ∧
       nz r.1 && nz r.2 = page_usable i l.
Proof.
  intros Hi. unfold find_range. set (body := λ _ : Z * Z * Z, _).
  assert (∀ f k isn, (0 < f)%nat →
    loop f body (Z.of_nat k, 1, isn) s = Ret ((1, isn), s)) as Hstop.
  { intros [|f] k isn Hf; [lia|]. simpl. unfold bind, body. by rewrite andb_false_r. }
  assert (∀ n k isn f, (k + n = length l)%nat → (n < f)%nat →
    ∃ r, loop f body (Z.of_nat k, 0, isn) s = Ret (r, s) ∧
         nz r.1 && nz r.2 = page_usable i (drop k l)) as Hloop.
  { induction n as [|n IH]; intros k isn [|f] Hk Hf; try lia; simpl.
    - rewrite drop_ge by lia. unfold bind, body.
      rewrite (proj2 (Z.ltb_ge _ _)) by lia. by eexists.
    - destruct (lookup_lt_is_Some_2 l k) as [x Hx]; [lia|].
      destruct (map_getters (Z.of_nat k) x) as (E1 & E2 & E3 & E4); [by rewrite Nat2Z.id|lia|].
      assert (body (Z.of_nat k, 0, isn) s =
        Ret (inl (Z.of_nat (S k), if contains_page i x then 1 else 0,
                  b2z (pm_type x =? MEM_RAM)), s)) as Estep.
      { unfold body. rewrite (proj2 (Z.ltb_lt _ _)) by lia.
        change (true && negb (nz 0)) with true. cbv iota.
        rewrite (bind_Ret _ _ _ _ _ E3), (bind_Ret _ _ _ _ _ E1), (bind_Ret _ _ _ _ _ E2), E4.
        rewrite !u32_small by (unfold_consts; lia). unfold ret, contains_page.
        by replace (Z.of_nat k + 1) with (Z.of_nat (S k)) by lia. }
      rewrite (bind_Ret _ _ _ _ _ Estep), (drop_S _ _ _ Hx). simpl page_usable.
      destruct (contains_page i x); [|by apply IH; lia].
      rewrite Hstop by lia. eexists. split; [done|]. simpl. by rewrite nz_b2z. }
  rewrite Nat2Z.id. apply (Hloop (length l) 0%nat 0); lia.
Qed.

End init.

(** What [pmem_init] establishes, for the memory map [mbi]. *)
Record pmem_post `{KEnv} (mbi : list mboot_mmap) (s : mat) : Prop := {
  pp_map : pmmap_init mbi pmmap_st0 = Ret (tt, mat_map s);
  pp_table : table_of mbi (mat_map s);
  pp_nps : NUM_PAGES s = max_end 0 (pmmap_list (mat_map s)) / PAGESIZE;
  pp_ok : mat_ok s;
  pp_perm : ∀ i, perm (AT s !!! i) =
    if bool_decide (0 ≤ i < NUM_PAGES s) then init_perm (pmmap_list (mat_map s)) i else 0;
  pp_alloc : ∀ i, allocated (AT s !!! i) = 0;
}.

Lemma div_rounddown a n : 0 ≤ a < W32 → 0 < n → rounddown a n / n = a / n.
Proof.
  intros Ha Hn. unfold rounddown. pose proof (Z.mod_pos_bound a n Hn).
  pose proof (Z.mod_le a n ltac:(lia) Hn). rewrite u32_small by lia.
  rewrite Z.mod_eq by lia. replace (a - (a - n * (a / n))) with (a / n * n) by lia.
  apply Z.div_mul. lia.
Qed.

(** At boot the table is all zero. *)
Definition mat_boot (s : mat) : Prop :=
  mat_map s = pmmap_st0 ∧ AT s = ∅ ∧ last_palloc_index s = VM_USERLO_PI.

Section pmem_init.
Context `{KEnv}.

(** The table while the second loop of [pmem_init] is at page [j]. *)
Definition init_upto (l : list pmmap) (nps : Z) (j : Z) (s0 s : mat) : Prop :=
  mat_map s = mat_map s0 ∧ mem_lk s = mem_lk s0 ∧ NUM_PAGES s = nps ∧
  last_palloc_index s = last_palloc_index s0 ∧
  ∀ i, AT s !!! i = if bool_decide (0 ≤ i < j)
                    then {| perm := init_perm l i; allocated := 0 |} else inhabitant.

Lemma init_page_runs l nps j s0 s :
  pmmap_list (mat_map s0) = l → Forall slot_wf l →
  pmmap_nentries (mat_map s0) = Z.of_nat (length l) →
  0 ≤ j < nps → nps ≤ AT_LEN → init_upto l nps j s0 s →
  runs (if (j <? VM_USERLO_PI) || (VM_USERHI_PI <=? j) then at_set_perm j 1
        else let! r := find_range (Z.of_nat (length l)) j in
             if nz r.1 && nz r.2 then at_set_perm j 2 else at_set_perm j 0) s
       (λ _, init_upto l nps (j + 1) s0).
Proof.
  intros Hl Hw Hc Hj Hn (Hm & Hlk & Hnps & Hlast & Hat).
  assert (∀ p, p = init_perm l j →
    init_upto l nps (j + 1) s0 (set_AT (<[j := {| perm := p; allocated := 0 |}]> (AT s)) s))
    as Hstep.
  { intros p ->. repeat (split; [done|]). intros i. simpl. rewrite lookup_total_insert_dec.
    case_bool_decide; [subst; by rewrite bool_decide_true by lia|].
    rewrite Hat. by repeat case_bool_decide; try lia. }
  assert (∀ p, p = init_perm l j → runs (at_set_perm j p) s (λ _, init_upto l nps (j + 1) s0))
    as Hset.
  { intros p Hp. unfold runs. rewrite at_set_perm_run by lia. by apply Hstep. }
  unfold init_perm in Hset. destruct (_ || _) eqn:E; [by apply Hset|].
  apply orb_false_iff in E as [E1%Z.ltb_ge E2%Z.leb_gt].
  destruct (find_range_run s l) with (i := j) as (r & Er & Hr);
    try done; try lia; try congruence.
  apply runs_bind. unfold runs at 1. rewrite Er, Hr.
  destruct (page_usable j l); by apply Hset.
Qed.

Lemma pmem_init_runs mbi s :
  mat_boot s → Z.of_nat (length (low_entries mbi)) ≤ 128 → Forall mmap_wf mbi →
  runs (pmem_init mbi) s (λ _, pmem_post mbi).
Proof.
  intros (Hmap & Hat & Hlast) Hlen Hwf. unfold pmem_init. apply runs_bind, runs_zoom.
  simpl lget. rewrite Hmap.
  destruct (proj1 (runs_eq _ _ _) (pmmap_init_runs mbi pmmap_st0 eq_refl eq_refl Hlen Hwf))
    as ([] & m & Em & Hm). eapply runs_of_eq; [exact Em|]. apply runs_bind. unfold runs at 1, mem_spinlock_init, fzoom. simpl.
  set (s1 := set_mem_lk _ _).
  destruct Hm as (Hsort & Hw & Hcnt & Hcov).
  apply runs_bind. unfold runs at 1. erewrite zoom_read by done. simpl. rewrite Hcnt.
  apply runs_bind. unfold runs at 1. rewrite (highest_addr_run s1) by done. simpl.
  pose proof (max_end_bound (pmmap_list m) 0 Hw ltac:(lia)) as Hmax.
  rewrite div_rounddown by (unfold_consts; lia).
  set (nps := max_end 0 (pmmap_list m) / PAGESIZE).
  assert (0 ≤ nps ≤ AT_LEN) as Hnps.
  { unfold nps. split; [apply Z.div_pos; unfold_consts; lia|].
    apply Z.div_le_upper_bound; unfold_consts; lia. }
  apply runs_bind. unfold runs at 1, set_nps, modify. simpl.
  eapply runs_mono.
  { apply (for_runs (λ j, init_upto (pmmap_list m) nps j s1)); [lia| |].
    - repeat (split; [done|]). intros i. rewrite bool_decide_false by lia.
      simpl. by rewrite Hat, lookup_total_empty.
    - intros j t Hj Ht. apply init_page_runs; try done; lia. }
  intros [] s2 (E1 & E2 & E3 & E4 & E5).
  assert (∀ i, perm (AT s2 !!! i) =
    if bool_decide (0 ≤ i < nps) then init_perm (pmmap_list m) i else 0) as Hperm.
  { intros i. rewrite E5. by case_bool_decide. }
  split; rewrite ?E1, ?E3; simpl; try done.
  - split; rewrite ?E2, ?E3, ?E4; simpl; try done.
    + rewrite Hlast. unfold_consts. lia.
    + intros i Hi. rewrite Hperm. case_bool_decide; [|lia]. unfold init_perm.
      destruct (Z.ltb_spec i VM_USERLO_PI); [done|].
      destruct (Z.leb_spec VM_USERHI_PI i); [done|lia].
    + intros i Hi. rewrite Hperm. case_bool_decide; lia.
  - intros i. rewrite E5. by case_bool_decide.
Qed.

End pmem_init.

(** A usable page lies in one range of RAM. *)
Lemma page_usable_covers i l :
  page_usable i l = true →
  ∀ a, i * PAGESIZE ≤ a < (i + 1) * PAGESIZE → covers l MEM_RAM a.
Proof.
  induction l as [|s l IH]; simpl; [done|]. intros Hu a Ha. apply covers_cons.
  destruct (contains_page i s) eqn:E; [left|right; by apply IH].
  apply Z.eqb_eq in Hu. unfold contains_page in E.
  apply andb_true_iff in E as [E1%Z.leb_le E2%Z.leb_le]. split; [done|lia].
Qed.

(** After initialisation the pages [palloc] can hand out are pages of RAM. *)
Lemma pmem_post_ram `{KEnv} mbi s i a :
  pmem_post mbi s → page_free s i = true →
  i * PAGESIZE ≤ a < (i + 1) * PAGESIZE →
  ∃ p, p ∈ mbi ∧ base_addr_high p = 0 ∧ mm_type p = MEM_RAM ∧
       base_addr_low p ≤ a < mmap_end p.
Proof.
  intros Hp Hf Ha. destruct (pp_table _ _ Hp) as (_ & _ & _ & Hcov).
  apply Hcov. apply page_usable_covers with i; [|done].
  unfold page_free in Hf. apply andb_true_iff in Hf as [Hf _].
  rewrite (pp_perm _ _ Hp) in Hf. case_bool_decide; [|done].
  unfold init_perm in Hf. destruct (_ || _); [done|]. by destruct (page_usable _ _).
Qed.

(** ** A small machine *)

#[local] Existing Instance demo_env.

(** [k] free pages at the start of the user range, every other page reserved. *)
Definition demo_AT (k : Z) : gmap Z ATStruct :=
  list_to_map ((λ i, (VM_USERLO_PI + i, {| perm := 2; allocated := 0 |})) <$> seqZ 0 k).

Definition demo_mat (k : Z) : mat := {|
  mat_map := pmmap_st0; mem_lk := Spinlock.free_lk; NUM_PAGES := VM_USERLO_PI + 16;
  AT := demo_AT k; last_palloc_index := VM_USERLO_PI |}.

Lemma demo_AT_lookup k i :
  demo_AT k !!! i = if bool_decide (VM_USERLO_PI ≤ i < VM_USERLO_PI + k)
                    then {| perm := 2; allocated := 0 |} else inhabitant.
Proof.
  unfold demo_AT. rewrite lookup_total_alt. case_bool_decide as Hi.
  - assert ((list_to_map ((λ i, (VM_USERLO_PI + i, {| perm := 2; allocated := 0 |})) <$> seqZ 0 k)
      : gmap Z ATStruct) !! i = Some {| perm := 2; allocated := 0 |}) as ->; [|done].
    apply elem_of_list_to_map_1'.
    + intros y (j & [= -> ->] & _)%list_elem_of_fmap. done.
    + apply list_elem_of_fmap. exists (i - VM_USERLO_PI). split; [f_equal; lia|].
      apply elem_of_seqZ. lia.
  - assert ((list_to_map ((λ i, (VM_USERLO_PI + i, {| perm := 2; allocated := 0 |})) <$> seqZ 0 k)
      : gmap Z ATStruct) !! i = None) as ->; [|done].
    apply not_elem_of_list_to_map_1. rewrite <- list_fmap_compose.
    intros (j & -> & Hj%elem_of_seqZ)%list_elem_of_fmap. simpl in Hi. lia.
Qed.

Lemma demo_mat_ok k : 0 ≤ k ≤ 16 → mat_ok (demo_mat k).
Proof.
  intros Hk. constructor; simpl; try done; try (unfold_consts; lia).
  - intros i Hi. rewrite demo_AT_lookup. case_bool_decide; [unfold_consts; lia|done].
  - intros i Hi. rewrite demo_AT_lookup. case_bool_decide; [lia|done].
Qed.

Lemma demo_page_free k i :
  page_free (demo_mat k) i = bool_decide (VM_USERLO_PI ≤ i < VM_USERLO_PI + k).
Proof. unfold page_free. simpl. rewrite demo_AT_lookup. by case_bool_decide. Qed.

(** ** The contract of the allocator *)

(** C16: [palloc] is next-fit: it returns, and its result is the first free page
    in the cyclic order of the user pages that starts at the last page handed
    out, now marked allocated; it returns 0, and marks nothing, exactly when no
    page at all is free.  The invariant of the table is kept. *)
Theorem palloc_next_fit `{KEnv} s :
  ks_magic = KSTACK_MAGIC → mat_ok s →
  runs palloc s (λ p s', palloc_post s p s' ∧ mat_ok s').
Proof.
  intros Hm Hok. eapply runs_mono; [by apply palloc_runs|].
  intros p s' Hp. split; [done|]. by eapply palloc_post_ok.
Qed.

Lemma palloc_next_fit_witness :
  runs palloc (demo_mat 4) (λ p s', palloc_post (demo_mat 4) p s' ∧ mat_ok s').
Proof. apply (palloc_next_fit (demo_mat 4)); [reflexivity|apply demo_mat_ok; lia]. Defined.

(** A page that [palloc] hands out is not handed out again before it is freed,
    and after [pfree] it is free again: [pfree] undoes [palloc] on the table. *)
Theorem palloc_pfree `{KEnv} s :
  ks_magic = KSTACK_MAGIC → mat_ok s → (∃ i, page_free s i = true) →
  runs palloc s (λ p s',
    page_free s p = true ∧ page_free s' p = false ∧
    (∀ i, i ≠ p → page_free s' i = page_free s i) ∧
    runs palloc s' (λ p' _, p' ≠ p) ∧
    runs (pfree p) s' (λ _ s'', ∀ i, page_free s'' i = page_free s i)).
Proof.
  intros Hm Hok [i0 Hi0]. eapply runs_mono; [by apply palloc_runs|].
  intros p s' Hp. pose proof (palloc_post_ok _ _ _ Hok Hp) as Hok'.
  destruct Hp as [(k & _ & _ & Hf & _ & ->)|(Hnone & _)]; [|by rewrite Hnone in Hi0].
  destruct (page_free_user _ _ Hok Hf) as [Hu _].
  assert (∀ i, page_free (after_palloc p s) i = if bool_decide (p = i) then false else page_free s i)
    as Hpf.
  { intros i. etrans; [apply page_free_mark|]. case_bool_decide; [by rewrite andb_false_r|done]. }
  assert (page_free (after_palloc p s) p = false) as Hnp by (by rewrite Hpf, bool_decide_true).
  split_and!; [done..| | |].
  - intros i Hi. rewrite Hpf, bool_decide_false; congruence.
  - eapply runs_mono; [by apply palloc_runs|]. intros p' s'' Hp' ->.
    destruct Hp' as [(k' & _ & _ & Hf' & _)|(_ & -> & _)]; [congruence|].
    unfold_consts. lia.
  - eapply runs_of_eq; [apply pfree_run; [done|done|unfold_consts; lia]|].
    intros i. change (page_free (mark_allocated p 0 (after_palloc p s)) i = page_free s i).
    rewrite page_free_mark, Hpf. case_bool_decide; [|done].
    subst i. unfold after_palloc. simpl AT. rewrite lookup_total_insert_eq. simpl perm.
    rewrite Hf. apply andb_true_iff in Hf as [-> _]. done.
Qed.

Lemma palloc_pfree_witness :
  runs palloc (demo_mat 4) (λ p s',
    page_free (demo_mat 4) p = true ∧ page_free s' p = false ∧
    (∀ i, i ≠ p → page_free s' i = page_free (demo_mat 4) i) ∧
    runs palloc s' (λ p' _, p' ≠ p) ∧
    runs (pfree p) s' (λ _ s'', ∀ i, page_free s'' i = page_free (demo_mat 4) i)).
Proof.
  apply (palloc_pfree (demo_mat 4)); [reflexivity|apply demo_mat_ok; lia|].
  exists VM_USERLO_PI. reflexivity.
Defined.

(** [pmem_init] returns and sets up the table from the boot loader's memory
    map: exactly the user pages that lie in one usable range are normal, none is
    allocated, and every byte of a page that [palloc] may hand out is RAM. *)
Theorem pmem_init_spec `{KEnv} mbi s :
  mat_boot s → Z.of_nat (length (low_entries mbi)) ≤ 128 → Forall mmap_wf mbi →
  runs (pmem_init mbi) s (λ _ s', pmem_post mbi s' ∧
    ∀ i a, page_free s' i = true → i * PAGESIZE ≤ a < (i + 1) * PAGESIZE →
      ∃ p, p ∈ mbi ∧ base_addr_high p = 0 ∧ mm_type p = MEM_RAM ∧
           base_addr_low p ≤ a < mmap_end p).
Proof.
  intros Hb Hl Hwf. eapply runs_mono; [by apply pmem_init_runs|]. intros [] s' Hp.
  split; [done|]. intros i a Hf Ha. by eapply pmem_post_ram.
Qed.

Lemma pmem_init_spec_witness :
  let mbi := [{| mm_size := 20; base_addr_low := 1073741824; base_addr_high := 0;
                 length_low := 65536; length_high := 0; mm_type := MEM_RAM |}] in
  let s := {| mat_map := pmmap_st0; mem_lk := inhabitant; NUM_PAGES := 0; AT := ∅;
              last_palloc_index := VM_USERLO_PI |} in
  runs (pmem_init mbi) s (λ _ s', pmem_post mbi s' ∧
    ∀ i a, page_free s' i = true → i * PAGESIZE ≤ a < (i + 1) * PAGESIZE →
      ∃ p, p ∈ mbi ∧ base_addr_high p = 0 ∧ mm_type p = MEM_RAM ∧
           base_addr_low p ≤ a < mmap_end p).
Proof.
  intros mbi s. apply (pmem_init_spec mbi s); [done|vm_compute; discriminate|].
  constructor; [|constructor]. unfold mmap_wf, is_u32; simpl; unfold_consts.
  split_and!; [lia..|by left].
Defined.
