(* ===== verification/Container.v ===== *)
(** * Memory quotas

    kern/pmm/MContainer: every process has a container with a quota of pages;
    a parent gives part of its quota to a child ([container_split]), and pages
    are allocated and freed against the quota. *)

From S2P Require Import Prelude Spinlock Pmmap MAT.

Definition NUM_IDS : Z := 64.
Definition MAX_CHILDREN : Z := 3.

Record SContainer := {
  quota : Z;
  usage : Z;
  parent : Z;
  nchildren : Z;
  used : Z;
}.
#[global] Instance SContainer_inhabited : Inhabited SContainer := populate
  {| quota := 0; usage := 0; parent := 0; nchildren := 0; used := 0 |}.

Definition set_quota (v : Z) (c : SContainer) : SContainer := {|
  quota := v; usage := usage c; parent := parent c; nchildren := nchildren c; used := used c |}.
Definition set_usage (v : Z) (c : SContainer) : SContainer := {|
  quota := quota c; usage := v; parent := parent c; nchildren := nchildren c; used := used c |}.
Definition set_parent (v : Z) (c : SContainer) : SContainer := {|
  quota := quota c; usage := usage c; parent := v; nchildren := nchildren c; used := used c |}.
Definition set_nchildren (v : Z) (c : SContainer) : SContainer := {|
  quota := quota c; usage := usage c; parent := parent c; nchildren := v; used := used c |}.
Definition set_used (v : Z) (c : SContainer) : SContainer := {|
  quota := quota c; usage := usage c; parent := parent c; nchildren := nchildren c; used := v |}.

Record cont := {
  c_mat : mat;
  CONTAINER : gmap Z SContainer;
  container_lks : gmap Z spinlock_t;
}.

Definition set_c_mat (v : mat) (s : cont) : cont := {|
  c_mat := v; CONTAINER := CONTAINER s; container_lks := container_lks s |}.
Definition set_CONTAINER (v : gmap Z SContainer) (s : cont) : cont := {|
  c_mat := c_mat s; CONTAINER := v; container_lks := container_lks s |}.
Definition set_container_lks (v : gmap Z spinlock_t) (s : cont) : cont := {|
  c_mat := c_mat s; CONTAINER := CONTAINER s; container_lks := v |}.

#[global] Program Instance cont_mat_lens : Lens cont mat :=
  {| lget := c_mat; lset := set_c_mat |}.
Next Obligation. done. Qed.
Next Obligation. by intros []. Qed.
Next Obligation. done. Qed.

Section ops.
Context `{KEnv}.

Definition cget (id : Z) : M cont SContainer := aread NUM_IDS CONTAINER id.
Definition cmod (id : Z) (f : SContainer → SContainer) : M cont unit :=
  amod NUM_IDS CONTAINER set_CONTAINER id f.

(** [spinlock_acquire(&container_lks[id])] and its release. *)
Definition container_lock (id : Z) : M cont unit :=
  azoom NUM_IDS container_lks set_container_lks id Spinlock.spinlock_acquire.
Definition container_unlock (id : Z) : M cont unit :=
  azoom NUM_IDS container_lks set_container_lks id Spinlock.spinlock_release.

(** [at_is_norm(idx) && !at_is_allocated(idx)] *)
Definition at_is_free (idx : Z) : M mat bool :=
  let! n := at_is_norm idx in
  if nz n then let! a := at_is_allocated idx in ret (negb (nz a)) else ret false.

(** The counting loop of [container_init]. *)
Definition count_quota (nps : Z) : M mat Z :=
  loop (S (Z.to_nat nps)) (λ '(idx, real_quota),
    if idx <? nps then
      let! free := at_is_free idx in
      ret (inl (idx + 1, if free : bool then u32 (real_quota + 1) else real_quota))
    else ret (inr real_quota)) (1, 0).

Definition container_init (mbi : list mboot_mmap) : M cont unit :=
  zoom (pmem_init mbi) ;;;
  let! nps := zoom get_nps in
  let! real_quota := zoom (count_quota nps) in
  cmod 0 (set_quota (s32 real_quota)) ;;;
  cmod 0 (set_usage 0) ;;;
  cmod 0 (set_parent 0) ;;;
  cmod 0 (set_nchildren 0) ;;;
  cmod 0 (set_used 1) ;;;
  for_ 0 NUM_IDS (λ idx,
    azoom NUM_IDS container_lks set_container_lks idx Spinlock.spinlock_init).

Definition container_get_parent (id : Z) : M cont Z :=
  let! c := cget id in ret (u32 (parent c)).
Definition container_get_nchildren (id : Z) : M cont Z :=
  let! c := cget id in ret (u32 (nchildren c)).
Definition container_get_quota (id : Z) : M cont Z :=
  let! c := cget id in ret (u32 (quota c)).
Definition container_get_usage (id : Z) : M cont Z :=
  let! c := cget id in ret (u32 (usage c)).

(** [usage + n] is an [unsigned] sum: it wraps around at 2^32. *)
Definition container_can_consume (id n : Z) : M cont Z :=
  let! c := cget id in
  ret (b2z (u32 (usage c + n) <=? u32 (quota c))).

(** Note the early return: it leaves with the lock taken. *)
Definition container_split (id q : Z) : M cont Z :=
  container_lock id ;;;
  let! c := cget id in
  let nc := u32 (nchildren c) in
  let child := u32 (id * MAX_CHILDREN + 1 + nc) in
  if NUM_IDS <=? child then ret NUM_IDS else
  cmod child (set_used 1) ;;;
  cmod child (set_quota (s32 q)) ;;;
  cmod child (set_usage 0) ;;;
  cmod child (set_parent (s32 id)) ;;;
  cmod child (set_nchildren 0) ;;;
  let! c := cget id in
  cmod id (set_usage (s32 (usage c + q))) ;;;
  let! c := cget id in
  let! n := iadd (nchildren c) 1 in
  cmod id (set_nchildren n) ;;;
  container_unlock id ;;;
  ret child.

Definition container_alloc (id : Z) : M cont Z :=
  container_lock id ;;;
  let! c := cget id in
  let! u := iadd (usage c) 1 in
  let! page_index :=
    (if u <=? quota c then
       cmod id (set_usage u) ;;;
       zoom palloc
     else ret 0) in
  container_unlock id ;;;
  ret page_index.

Definition container_free (id page_index : Z) : M cont unit :=
  container_lock id ;;;
  let! a := zoom (at_is_allocated page_index) in
  when (nz a)
    (zoom (pfree page_index) ;;;
     let! c := cget id in
     when (usage c >? 0)
       (let! u := iadd (usage c) (-1) in cmod id (set_usage u))) ;;;
  container_unlock id.

End ops.

(** ** The quota invariant *)

Definition ctr (s : cont) (id : Z) : SContainer := CONTAINER s !!! id.

(** What a container may still consume. *)
Definition avail (c : SContainer) : Z := quota c - usage c.

Definition free_pages (m : mat) : Z :=
  zsum (λ i, b2z (page_free m i)) (Z.to_nat (NUM_PAGES m)).

Definition total_avail (s : cont) : Z := zsum (λ id, avail (ctr s id)) 64.

(** The containers form a tree in the numbering of [container_split] (the
    children of [id] are 3 * id + 1, 3 * id + 2 and 3 * id + 3, filled in this
    order), no container exceeds its quota, and the pages that all containers
    together may still consume are free. *)
Record cont_ok (s : cont) : Prop := {
  co_mat : mat_ok (c_mat s);
  co_alloc : ∀ i, allocated (AT (c_mat s) !!! i) ≠ 0 → 1 < perm (AT (c_mat s) !!! i);
  co_locks : ∀ id, 0 ≤ id < NUM_IDS → lock (container_lks s !!! id) = 0;
  co_bound : ∀ id, 0 ≤ id < NUM_IDS → 0 ≤ usage (ctr s id) ≤ quota (ctr s id) ∧ quota (ctr s id) ≤ AT_LEN;
  co_nch : ∀ id, 0 ≤ id < NUM_IDS → 0 ≤ nchildren (ctr s id) ≤ MAX_CHILDREN;
  co_unused : ∀ id, 0 ≤ id < NUM_IDS → used (ctr s id) = 0 →
    quota (ctr s id) = 0 ∧ usage (ctr s id) = 0 ∧ nchildren (ctr s id) = 0;
  co_tree : ∀ id, 1 ≤ id < NUM_IDS →
    used (ctr s id) ≠ 0 ↔ (id - 1) mod MAX_CHILDREN < nchildren (ctr s ((id - 1) / MAX_CHILDREN));
  co_parent : ∀ id, 1 ≤ id < NUM_IDS → used (ctr s id) ≠ 0 →
    parent (ctr s id) = (id - 1) / MAX_CHILDREN;
  co_sum : total_avail s ≤ free_pages (c_mat s);
}.

(** An operation on container [id] alone: its new contents [c], the new
    allocation table [m], every lock free again. *)
Definition op_post (id : Z) (c : SContainer) (m : mat) (s s' : cont) : Prop :=
  c_mat s' = m ∧
  (∀ j, ctr s' j = if bool_decide (j = id) then c else ctr s j) ∧
  (∀ j, 0 ≤ j < NUM_IDS → lock (container_lks s' !!! j) = 0).

Ltac unfold_cont := unfold NUM_IDS, MAX_CHILDREN in *; unfold_consts.

Lemma total_avail_op id c m s s' :
  0 ≤ id < NUM_IDS → op_post id c m s s' →
  total_avail s' = total_avail s + (avail c - avail (ctr s id)).
Proof.
  intros Hid (_ & Hc & _). unfold total_avail. unfold_cont.
  rewrite (zsum_change (λ j, avail (ctr s j)) (λ j, avail (ctr s' j)) 64 id); [|lia|].
  - by rewrite Hc, bool_decide_true.
  - intros j _ Hj. by rewrite Hc, bool_decide_false.
Qed.

(** The invariant after an operation that only changes the usage. *)
Lemma cont_ok_op id c m s s' :
  cont_ok s → 0 ≤ id < NUM_IDS → op_post id c m s s' →
  mat_ok m → (∀ i, allocated (AT m !!! i) ≠ 0 → 1 < perm (AT m !!! i)) →
  (∃ u, c = set_usage u (ctr s id) ∧ 0 ≤ u ≤ quota (ctr s id) ∧
        (used (ctr s id) = 0 → u = 0)) →
  avail c - avail (ctr s id) ≤ free_pages m - free_pages (c_mat s) →
  cont_ok s'.
Proof.
  intros Hok Hid Hop Hm Ha (u & -> & Hu & Huu) Hav.
  pose proof (total_avail_op _ _ _ _ _ Hid Hop) as Ht.
  destruct Hop as (Hmat & Hc & Hlk), Hok.
  assert (∀ j, nchildren (ctr s' j) = nchildren (ctr s j)) as Hn
    by (intros j; rewrite Hc; by case_bool_decide; subst).
  assert (∀ j, used (ctr s' j) = used (ctr s j)) as Hus
    by (intros j; rewrite Hc; by case_bool_decide; subst).
  constructor; rewrite ?Hmat; try done; [intros j Hj; rewrite ?Hn, ?Hus; auto..|].
  - rewrite Hc. case_bool_decide; subst; [|by auto]. simpl. destruct (co_bound0 id Hid). auto.
  - intros Hz. destruct (co_unused0 j Hj Hz) as (?&?&?). rewrite Hc.
    case_bool_decide; subst; simpl; auto.
  - intros Hz. rewrite Hc. case_bool_decide; subst; simpl; auto.
  - lia.
Qed.

(** Marking a page changes the number of free pages by that page. *)
Lemma free_pages_mark p a m :
  mat_ok m → 0 ≤ p → 1 < perm (AT m !!! p) →
  free_pages (mark_allocated p a m) = free_pages m + (b2z (a =? 0) - b2z (page_free m p)).
Proof.
  intros Hok Hp Hperm. unfold free_pages. change (NUM_PAGES (mark_allocated p a m)) with (NUM_PAGES m).
  assert (p < NUM_PAGES m).
  { destruct (decide (p < NUM_PAGES m)); [done|]. pose proof (ok_machine m Hok p ltac:(lia)). lia. }
  rewrite (zsum_change (λ i, b2z (page_free m i)) _ _ p); [|lia|].
  - rewrite page_free_mark, bool_decide_true by done.
    destruct (Z.gtb_spec (perm (AT m !!! p)) 1); [done|lia].
  - intros j _ Hj. by rewrite page_free_mark, bool_decide_false.
Qed.

Lemma total_avail_pos s id :
  cont_ok s → 0 ≤ id < NUM_IDS → avail (ctr s id) ≤ total_avail s.
Proof.
  intros Hok Hid. unfold total_avail. unfold_cont.
  apply (zsum_term (λ id, avail (ctr s id)) 64); [|lia]. intros j Hj.
  pose proof (co_bound s Hok j ltac:(unfold_cont; lia)). unfold avail. lia.
Qed.

Section specs.
Context `{KEnv}.
Hypothesis Hmagic : ks_magic = KSTACK_MAGIC.

Lemma cget_run id s : 0 ≤ id < NUM_IDS → cget id s = Ret (ctr s id, s).
Proof. apply aread_in. Qed.

Lemma cmod_run id f s : 0 ≤ id < NUM_IDS →
  cmod id f s = Ret (tt, set_CONTAINER (<[id := f (ctr s id)]> (CONTAINER s)) s).
Proof. apply amod_in. Qed.

Lemma container_lock_run id s :
  0 ≤ id < NUM_IDS → lock (container_lks s !!! id) = 0 →
  container_lock id s =
    Ret (tt, set_container_lks (<[id := Spinlock.held_by ks_cpu_idx]> (container_lks s)) s).
Proof. intros Hid Hl. by apply azoom_Ret; [|apply Spinlock.acquire_free]. Qed.

Lemma container_unlock_run id s :
  0 ≤ id < NUM_IDS →
  container_unlock id s =
    Ret (tt, set_container_lks (<[id := Spinlock.free_lk]> (container_lks s)) s).
Proof. intros Hid. by apply azoom_Ret. Qed.

(** Taking a lock and releasing it leaves all locks free. *)
Lemma locks_released id l l0 (lks : gmap Z spinlock_t) :
  (∀ j, 0 ≤ j < NUM_IDS → lock (lks !!! j) = 0) → lock l = 0 →
  ∀ j, 0 ≤ j < NUM_IDS → lock (<[id := l]> (<[id := l0]> lks) !!! j) = 0.
Proof.
  intros Hlk Hl j Hj. rewrite insert_insert_eq, lookup_total_insert_dec.
  case_bool_decide; auto.
Qed.

Lemma ctr_insert id c s (j : Z) :
  (<[id := c]> (CONTAINER s) : gmap Z SContainer) !!! j =
  if bool_decide (j = id) then c else ctr s j.
Proof. rewrite lookup_total_insert_dec. by repeat case_bool_decide; subst. Qed.

Lemma after_palloc_alloc p m :
  (∀ i, allocated (AT m !!! i) ≠ 0 → 1 < perm (AT m !!! i)) → page_free m p = true →
  ∀ i, allocated (AT (after_palloc p m) !!! i) ≠ 0 → 1 < perm (AT (after_palloc p m) !!! i).
Proof.
  intros Ha Hp i. simpl. rewrite lookup_total_insert_dec. case_bool_decide; subst; simpl; auto.
  intros _. apply andb_true_iff in Hp as [?%Z.gtb_lt _]. lia.
Qed.

(** What [container_alloc] does to a process within its quota: the page was free,
    it is charged to the container, nothing else changes. *)
Definition alloc_post (id : Z) (s : cont) (p : Z) (s' : cont) : Prop :=
  page_free (c_mat s) p = true ∧ VM_USERLO_PI ≤ p < VM_USERHI_PI ∧
  op_post id (set_usage (usage (ctr s id) + 1) (ctr s id)) (after_palloc p (c_mat s)) s s'.

Lemma iadd_run (a b : Z) (s : cont) : is_s32 (a + b) → iadd a b s = Ret (a + b, s).
Proof. apply iadd_ok. Qed.

Lemma container_alloc_runs id s :
  cont_ok s → 0 ≤ id < NUM_IDS → usage (ctr s id) < quota (ctr s id) →
  runs (container_alloc id) s (λ p s', alloc_post id s p s' ∧ cont_ok s').
Proof.
  intros Hok Hid Hq. pose proof (co_bound s Hok id Hid) as Hb. unfold container_alloc.
  eapply runs_bind_eq; [apply container_lock_run; [done|by apply (co_locks s Hok)]|].
  eapply runs_bind_eq; [by apply cget_run|]. set (s1 := set_container_lks _ _).
  change (ctr s1 id) with (ctr s id).
  eapply runs_bind_eq; [apply iadd_run; unfold is_s32; unfold_cont; lia|].
  rewrite (proj2 (Z.leb_le _ _)) by lia.
  apply runs_bind. eapply runs_bind_eq; [by apply cmod_run|]. set (s2 := set_CONTAINER _ _).
  apply runs_zoom. eapply runs_mono; [apply palloc_runs; [done|]; apply (co_mat s Hok)|].
  intros p m Hp. change (lget s2) with (c_mat s) in Hp.
  pose proof (palloc_post_ok _ _ _ (co_mat s Hok) Hp) as Hm.
  destruct Hp as [(k & _ & _ & Hf & _ & ->)|(Hnone & _)]; last first.
  { pose proof (total_avail_pos s id Hok Hid). pose proof (co_sum s Hok).
    destruct (zsum_b2z_pos (page_free (c_mat s)) (Z.to_nat (NUM_PAGES (c_mat s))))
      as (i & _ & Hi); [|by rewrite Hnone in Hi].
    unfold free_pages, avail in *. lia. }
  pose proof (page_free_user _ _ (co_mat s Hok) Hf) as [Hu _].
  eapply runs_bind_eq; [by apply container_unlock_run|]. apply runs_ret.
  assert (op_post id (set_usage (usage (ctr s id) + 1) (ctr s id)) (after_palloc p (c_mat s)) s
    (set_container_lks (<[id:=Spinlock.free_lk]> (container_lks s1))
       (lset (after_palloc p (c_mat s)) s2))) as Hop.
  { split; [done|]. split; [intros j; apply (ctr_insert _ _ s)|].
    apply locks_released; [apply (co_locks s Hok)|done]. }
  split; [done|].
  eapply cont_ok_op; [done|done|exact Hop|done|by apply after_palloc_alloc, Hf; apply co_alloc|..].
  - exists (usage (ctr s id) + 1). split; [done|]. split; [lia|].
    intros Hz. destruct (co_unused s Hok id Hid Hz). lia.
  - change (free_pages (after_palloc p (c_mat s))) with (free_pages (mark_allocated p 1 (c_mat s))).
    rewrite free_pages_mark; [|by apply co_mat|unfold_cont; lia|].
    + rewrite Hf. unfold avail. simpl. lia.
    + apply andb_true_iff in Hf as [?%Z.gtb_lt _]. lia.
Qed.

(** At the quota, nothing is allocated. *)
Lemma container_alloc_over id s :
  cont_ok s → 0 ≤ id < NUM_IDS → usage (ctr s id) = quota (ctr s id) →
  runs (container_alloc id) s (λ p s', p = 0 ∧ op_post id (ctr s id) (c_mat s) s s').
Proof.
  intros Hok Hid Hq. pose proof (co_bound s Hok id Hid) as Hb. unfold container_alloc.
  eapply runs_bind_eq; [apply container_lock_run; [done|by apply (co_locks s Hok)]|].
  eapply runs_bind_eq; [by apply cget_run|]. set (s1 := set_container_lks _ _).
  change (ctr s1 id) with (ctr s id).
  eapply runs_bind_eq; [apply iadd_run; unfold is_s32; unfold_cont; lia|].
  rewrite (proj2 (Z.leb_gt _ _)) by lia. apply runs_bind, runs_ret.
  eapply runs_bind_eq; [by apply container_unlock_run|]. apply runs_ret. split; [done|].
  split; [done|]. split.
  - intros j. by case_bool_decide; subst.
  - apply locks_released; [apply (co_locks s Hok)|done].
Qed.

(** *** container_free *)

Definition free_post (id p : Z) (s s' : cont) : Prop :=
  if allocated (AT (c_mat s) !!! p) =? 0 then op_post id (ctr s id) (c_mat s) s s'
  else op_post id (set_usage (Z.max 0 (usage (ctr s id) - 1)) (ctr s id))
         (set_mem_lk Spinlock.free_lk (mark_allocated p 0 (c_mat s))) s s'.

Lemma container_free_runs id p s :
  cont_ok s → 0 ≤ id < NUM_IDS → 0 ≤ p < AT_LEN →
  runs (container_free id p) s (λ _ s', free_post id p s s').
Proof.
  intros Hok Hid Hp. pose proof (co_bound s Hok id Hid) as Hb. unfold container_free.
  eapply runs_bind_eq; [apply container_lock_run; [done|by apply (co_locks s Hok)]|].
  set (s1 := set_container_lks _ _).
  destruct (at_is_allocated_run p (c_mat s) Hp) as (a & Ea & Ha).
  eapply runs_bind_eq; [by apply (zoom_read _ s1 a)|]. rewrite Ha. unfold free_post.
  destruct (Z.eqb_spec (allocated (AT (c_mat s) !!! p)) 0); simpl when.
  { apply runs_bind, runs_ret. eapply runs_of_eq; [by apply container_unlock_run|].
    split; [done|]. split; [intros j; by case_bool_decide; subst|].
    apply locks_released; [apply (co_locks s Hok)|done]. }
  apply runs_bind. eapply runs_bind_eq.
  { apply zoom_Ret, pfree_run; [done|apply (ok_lock _ (co_mat s Hok))|done]. }
  set (s2 := lset _ s1). eapply runs_bind_eq; [by apply cget_run|].
  change (ctr s2 id) with (ctr s id).
  destruct (Z.gtb_spec (usage (ctr s id)) 0); simpl when.
  - eapply runs_bind_eq; [apply iadd_run; unfold is_s32; unfold_cont; lia|].
    eapply runs_of_eq; [by apply cmod_run|]. eapply runs_of_eq; [by apply container_unlock_run|].
    split; [done|]. split; [|apply locks_released; [apply (co_locks s Hok)|done]].
    intros j. unfold ctr at 1. simpl. rewrite (ctr_insert _ _ s).
    change (ctr s2 id) with (ctr s id). by rewrite Z.max_r by lia.
  - apply runs_ret. eapply runs_of_eq; [by apply container_unlock_run|].
    split; [done|]. split; [|apply locks_released; [apply (co_locks s Hok)|done]].
    intros j. case_bool_decide; [subst|done]. rewrite Z.max_l by lia.
    replace 0 with (usage (ctr s id)) by lia. unfold ctr. simpl. by destruct (CONTAINER s !!! id).
Qed.

Lemma free_post_ok id p s s' :
  cont_ok s → 0 ≤ id < NUM_IDS → 0 ≤ p < AT_LEN → free_post id p s s' → cont_ok s'.
Proof.
  intros Hok Hid Hp Hpost. pose proof (co_bound s Hok id Hid) as Hb. unfold free_post in Hpost.
  destruct (Z.eqb_spec (allocated (AT (c_mat s) !!! p)) 0) as [Ha|Ha].
  - eapply cont_ok_op; [done|done|exact Hpost|apply co_mat|apply co_alloc| |lia]; [done..|].
    exists (usage (ctr s id)). split; [by destruct (ctr s id)|]. split; [lia|].
    intros Hz. by destruct (co_unused s Hok id Hid Hz) as (?&?&?).
  - pose proof (co_alloc s Hok p Ha) as Hperm.
    eapply cont_ok_op; [done|done|exact Hpost|by apply mat_ok_lock, mat_ok_mark, co_mat|..].
    + intros i. simpl. rewrite lookup_total_insert_dec. case_bool_decide; [done|].
      by apply co_alloc.
    + eexists. split; [done|]. split; [lia|].
      intros Hz. destruct (co_unused s Hok id Hid Hz) as (?&?&?). lia.
    + change (free_pages (set_mem_lk ?l ?m)) with (free_pages m).
      rewrite free_pages_mark; [|by apply co_mat|lia|done].
      assert (page_free (c_mat s) p = false) as ->.
      { unfold page_free. rewrite (proj2 (Z.eqb_neq _ _) Ha). apply andb_false_r. }
      unfold avail. simpl. lia.
Qed.

(** *** container_split *)

(** Successive assignments to fields of one container. *)
Lemma cmod_cmod {A} id f g (k : M cont A) s :
  (cmod id f ;;; cmod id g ;;; k) s = (cmod id (λ c, g (f c)) ;;; k) s.
Proof.
  unfold cmod, amod, bind. destruct (inb NUM_IDS id); [|done]. simpl.
  by rewrite lookup_total_insert_eq, insert_insert_eq.
Qed.

Definition child_of (s : cont) (id : Z) : Z := id * MAX_CHILDREN + 1 + nchildren (ctr s id).

(** The child gets [q] pages of quota, charged to the parent. *)
Definition split_post (id q : Z) (s : cont) (child : Z) (s' : cont) : Prop :=
  child = child_of s id ∧ c_mat s' = c_mat s ∧
  (∀ j, ctr s' j =
     if bool_decide (j = id) then
       set_nchildren (nchildren (ctr s id) + 1) (set_usage (usage (ctr s id) + q) (ctr s id))
     else if bool_decide (j = child) then
       {| quota := q; usage := 0; parent := id; nchildren := 0; used := 1 |}
     else ctr s j) ∧
  (∀ j, 0 ≤ j < NUM_IDS → lock (container_lks s' !!! j) = 0).

Lemma container_split_runs id q s :
  cont_ok s → 0 ≤ id < NUM_IDS → nchildren (ctr s id) < MAX_CHILDREN →
  child_of s id < NUM_IDS → 0 ≤ q ≤ avail (ctr s id) →
  runs (container_split id q) s (λ child s', split_post id q s child s').
Proof.
  intros Hok Hid Hn Hc Hq. pose proof (co_bound s Hok id Hid) as Hb.
  pose proof (co_nch s Hok id Hid) as Hn0. unfold avail in Hq. unfold container_split.
  eapply runs_bind_eq; [apply container_lock_run; [done|by apply (co_locks s Hok)]|].
  eapply runs_bind_eq; [by apply cget_run|]. set (s1 := set_container_lks _ _).
  change (ctr s1 id) with (ctr s id).
  rewrite (u32_small (nchildren _)) by (unfold_cont; lia).
  change (id * MAX_CHILDREN + 1 + nchildren (ctr s id)) with (child_of s id).
  assert (0 ≤ child_of s id < NUM_IDS ∧ child_of s id ≠ id) as [Hch Hne]
    by (unfold child_of in *; unfold_cont; lia).
  rewrite u32_small by (unfold_cont; lia). set (ch := child_of s id) in *.
  rewrite (proj2 (Z.leb_gt _ _)) by lia. cbv zeta. unfold runs. rewrite !cmod_cmod.
  kstep (cmod_run _ _ _ Hch). kstep (cget_run _ _ Hid). kstep (cmod_run _ _ _ Hid).
  kstep (cget_run _ _ Hid). set (s2 := set_CONTAINER _ s1).
  assert (ctr s2 id = ctr s id) as Hs2 by (apply lookup_total_insert_ne; done).
  set (s3 := set_CONTAINER _ s2).
  assert (ctr s3 id = set_usage (usage (ctr s id) + q) (ctr s id)) as Hs3.
  { unfold s3, ctr at 1. simpl. rewrite lookup_total_insert_eq, Hs2.
    by rewrite s32_small by (unfold is_s32; unfold_cont; lia). }
  rewrite Hs3. simpl nchildren. kstep (iadd_run (nchildren (ctr s id)) 1 s3
    ltac:(unfold is_s32; unfold_cont; lia)).
  kstep (cmod_run _ _ _ Hid). kstep (container_unlock_run _ _ Hid). simpl.
  split; [done|]. split; [done|].
  split; [|apply locks_released; [apply (co_locks s Hok)|done]].
  intros j. unfold ctr at 1. simpl. rewrite insert_insert_eq, Hs3, !lookup_total_insert_dec.
  rewrite !s32_small by (unfold is_s32; unfold_cont; lia).
  clearbody ch. by repeat case_bool_decide; subst.
Qed.

(** The next child has no container yet. *)
Lemma child_unused id s :
  cont_ok s → 0 ≤ id < NUM_IDS → nchildren (ctr s id) < MAX_CHILDREN → child_of s id < NUM_IDS →
  1 ≤ child_of s id ∧ used (ctr s (child_of s id)) = 0.
Proof.
  intros Hok Hid Hn Hc. pose proof (co_nch s Hok id Hid) as Hn0.
  assert (1 ≤ child_of s id ∧ (child_of s id - 1) / MAX_CHILDREN = id ∧
    (child_of s id - 1) mod MAX_CHILDREN = nchildren (ctr s id)) as (H1 & Hdiv & Hmod)
    by (unfold child_of in *; unfold_cont; divlia).
  split; [done|]. destruct (decide (used (ctr s (child_of s id)) = 0)) as [|Hx]; [done|].
  apply (co_tree s Hok (child_of s id)) in Hx; [|lia]. rewrite Hdiv in Hx. lia.
Qed.

Lemma split_post_ok id q s child s' :
  cont_ok s → 0 ≤ id < NUM_IDS → used (ctr s id) ≠ 0 → nchildren (ctr s id) < MAX_CHILDREN →
  child_of s id < NUM_IDS → 0 ≤ q ≤ avail (ctr s id) →
  split_post id q s child s' → cont_ok s'.
Proof.
  intros Hok Hid Hu Hn Hc Hq (-> & Hmat & Hctr & Hlk).
  pose proof (co_bound s Hok id Hid) as Hb. pose proof (co_nch s Hok id Hid) as Hn0.
  assert (0 ≤ child_of s id < NUM_IDS ∧ child_of s id ≠ id) as [Hch Hne]
    by (unfold child_of in *; unfold_cont; lia).
  set (ch := child_of s id) in *.
  assert (1 ≤ ch ∧ (ch - 1) / MAX_CHILDREN = id ∧ (ch - 1) mod MAX_CHILDREN = nchildren (ctr s id))
    as (Hch1 & Hdiv & Hmod) by (unfold ch, child_of in *; unfold_cont; divlia).
  assert (used (ctr s ch) = 0) as Hfree by (by apply child_unused).
  pose proof (co_unused s Hok ch Hch Hfree) as (Hf1 & Hf2 & Hf3).
  assert (∀ j, 1 ≤ j < NUM_IDS → (j - 1) / MAX_CHILDREN = id →
    (j - 1) mod MAX_CHILDREN = nchildren (ctr s id) → j = ch) as Huniq
    by (intros j ? ? ?; unfold ch, child_of in *; unfold_cont; divlia).
  clearbody ch. destruct Hok. constructor; rewrite ?Hmat; try done.
  - intros j Hj. rewrite Hctr. unfold avail in Hq.
    repeat case_bool_decide; subst; simpl; try (by auto); lia.
  - intros j Hj. rewrite Hctr.
    repeat case_bool_decide; subst; simpl; try (by auto); unfold_cont; lia.
  - intros j Hj. rewrite Hctr. by repeat case_bool_decide; subst; simpl; auto.
  - intros j Hj. specialize (co_tree0 j Hj).
    assert (0 ≤ (j - 1) / MAX_CHILDREN < NUM_IDS) by (unfold_cont; divlia).
    rewrite !Hctr. destruct (decide (j = ch)) as [->|Hjc].
    + rewrite (bool_decide_false (ch = id)), Hdiv, !bool_decide_true by done. simpl. lia.
    + rewrite (bool_decide_false (j = ch)) by done.
      assert (used (if bool_decide (j = id) then
         set_nchildren (nchildren (ctr s id) + 1) (set_usage (usage (ctr s id) + q) (ctr s id))
         else ctr s j) = used (ctr s j)) as -> by (by case_bool_decide; subst).
      rewrite co_tree0. case_bool_decide as Hji.
      * simpl. rewrite Hji. specialize (Huniq j Hj Hji). lia.
      * case_bool_decide as Hjc'; [|done]. simpl. rewrite Hjc', Hf3. unfold_cont. lia.
  - intros j Hj. rewrite Hctr. case_bool_decide; [subst; simpl; auto|].
    case_bool_decide; [by subst; simpl|auto].
  - assert (total_avail s' = total_avail s + (avail (ctr s' id) - avail (ctr s id)) +
      (avail (ctr s' ch) - avail (ctr s ch))) as ->.
    { apply (zsum_change2 (λ j, avail (ctr s j)) (λ j, avail (ctr s' j)) 64 id ch);
        [unfold_cont; lia..|done|].
      intros j _ Hi Hk. by rewrite Hctr, !bool_decide_false. }
    rewrite (Hctr id), (Hctr ch), (bool_decide_true (id = id)), (bool_decide_true (ch = ch)),
      (bool_decide_false (ch = id)) by done.
    unfold avail in *. simpl. lia.
Qed.

(** *** container_init *)

Lemma at_is_free_run i m : 0 ≤ i < AT_LEN → at_is_free i m = Ret (page_free m i, m).
Proof.
  intros Hi. unfold at_is_free. kstep (at_is_norm_run _ _ Hi). rewrite nz_b2z.
  unfold page_free. destruct (perm _ >? 1); [|done].
  destruct (at_is_allocated_run i m Hi) as (a & Ea & Ha). kstep Ea.
  by rewrite Ha, negb_involutive.
Qed.

Lemma free_pages_bound m : mat_ok m → 0 ≤ free_pages m ≤ AT_LEN.
Proof.
  intros Hok. unfold free_pages.
  pose proof (zsum_b2z_le (page_free m) (Z.to_nat (NUM_PAGES m))). pose proof (ok_nps m Hok). lia.
Qed.

(** The loop counts the free pages: page 0 is none. *)
Lemma count_quota_run m :
  mat_ok m → count_quota (NUM_PAGES m) m = Ret (free_pages m, m).
Proof.
  intros Hok. pose proof (ok_nps m Hok) as Hn. unfold count_quota. set (body := λ _ : Z * Z, _).
  set (upto k := zsum (λ i, b2z (page_free m i)) k).
  assert (∀ n k f, (k + n = Z.to_nat (NUM_PAGES m))%nat → (n < f)%nat →
    loop f body (Z.of_nat k, upto k) m = Ret (free_pages m, m)) as Hloop.
  { induction n as [|n IH]; intros k [|f] Hk Hf; try lia; simpl.
    - unfold bind, body. rewrite (proj2 (Z.ltb_ge _ _)) by lia.
      unfold free_pages. by replace (Z.to_nat (NUM_PAGES m)) with k by lia.
    - assert (body (Z.of_nat k, upto k) m = Ret (inl (Z.of_nat (S k), upto (S k)), m)) as Eb.
      { unfold body. rewrite (proj2 (Z.ltb_lt _ _)) by lia. kstep at_is_free_run by lia.
        unfold ret. replace (Z.of_nat k + 1) with (Z.of_nat (S k)) by lia.
        unfold upto at 3. change (zsum ?g (S k)) with (zsum g k + g (Z.of_nat k)). cbv beta.
        fold (upto k). pose proof (zsum_b2z_le (page_free m) k) as Hb. fold (upto k) in Hb.
        destruct (page_free m (Z.of_nat k)); simpl b2z; [|by rewrite Z.add_0_r].
        rewrite u32_small; [done|]. unfold_cont. lia. }
      kstep Eb. by apply IH; lia. }
  destruct (decide (NUM_PAGES m = 0)) as [E|E].
  { unfold body, free_pages. by rewrite E. }
  assert (upto 1%nat = 0) as H1.
  { unfold upto. change (zsum ?g 1) with (0 + g 0). cbv beta.
    destruct (page_free m 0) eqn:Ef; [|done]. apply page_free_user in Ef; [|done]. unfold_cont. lia. }
  rewrite <- H1 at 1. apply (Hloop (Z.to_nat (NUM_PAGES m) - 1)%nat 1%nat); lia.
Qed.

Definition cont_boot (s : cont) : Prop := mat_boot (c_mat s) ∧ CONTAINER s = ∅.

(** The state after [container_init]: all free pages are the root's quota. *)
Definition cinit_post (mbi : list mboot_mmap) (s' : cont) : Prop :=
  pmem_post mbi (c_mat s') ∧ cont_ok s' ∧
  ctr s' 0 = {| quota := free_pages (c_mat s'); usage := 0; parent := 0; nchildren := 0; used := 1 |} ∧
  ∀ j, j ≠ 0 → ctr s' j = inhabitant.

Lemma root_only_ok s q :
  mat_ok (c_mat s) → (∀ i, allocated (AT (c_mat s) !!! i) = 0) → q = free_pages (c_mat s) →
  (∀ j, 0 ≤ j < NUM_IDS → lock (container_lks s !!! j) = 0) →
  ctr s 0 = {| quota := q; usage := 0; parent := 0; nchildren := 0; used := 1 |} →
  (∀ j, j ≠ 0 → ctr s j = inhabitant) → cont_ok s.
Proof.
  intros Hm Ha -> Hlk H0 Hj. pose proof (free_pages_bound _ Hm) as Hb.
  assert (∀ j, ctr s j = {| quota := free_pages (c_mat s); usage := 0; parent := 0;
    nchildren := 0; used := 1 |} ∨ ctr s j = inhabitant) as Hall.
  { intros j. destruct (decide (j = 0)) as [->|]; [by left|]. right. auto. }
  constructor; try done.
  - intros i Hi. by rewrite Ha in Hi.
  - intros j _. destruct (Hall j) as [->| ->]; simpl; unfold_cont; lia.
  - intros j _. destruct (Hall j) as [->| ->]; simpl; unfold_cont; lia.
  - intros j _. by destruct (Hall j) as [->| ->].
  - intros j Hj1. rewrite (Hj j) by lia. simpl. split; [done|].
    assert (∀ i, nchildren (ctr s i) = 0) as ->; [|unfold_cont; divlia].
    intros i. by destruct (Hall i) as [->| ->].
  - intros j Hj1. rewrite (Hj j) by lia. done.
  - unfold total_avail. rewrite (zsum_change (λ _, 0) _ 64 0); [|lia|].
    + rewrite H0. unfold avail. simpl. change (zsum (λ _, 0) 64) with 0. lia.
    + intros j _ Hn. by rewrite Hj.
Qed.

Lemma container_init_runs mbi s :
  cont_boot s → Z.of_nat (length (low_entries mbi)) ≤ 128 → Forall mmap_wf mbi →
  runs (container_init mbi) s (λ _ s', cinit_post mbi s').
Proof.
  intros [Hboot Hc] Hlen Hwf. unfold container_init. apply runs_bind, runs_zoom.
  eapply runs_mono; [by apply pmem_init_runs|]. intros [] m Hm.
  pose proof (pp_ok _ _ Hm) as Hok. pose proof (free_pages_bound m Hok) as Hfp.
  eapply runs_bind_eq; [by apply zoom_read|].
  eapply runs_bind_eq; [apply zoom_read, count_quota_run, Hok|].
  set (s1 := lset m s).
  assert (0 ≤ 0 < NUM_IDS) as Hz by (unfold_cont; lia).
  eapply runs_rw; [do 4 rewrite cmod_cmod; kstep (cmod_run _ _ _ Hz); reflexivity|].
  set (s2 := set_CONTAINER _ s1).
  eapply runs_mono.
  { apply (for_runs (λ j t, c_mat t = m ∧ CONTAINER t = CONTAINER s2 ∧
      ∀ i, 0 ≤ i < j → lock (container_lks t !!! i) = 0)); [done|by split_and!; [..|lia]|].
    intros j t Hj (E1 & E2 & E3). eapply runs_of_eq; [by apply azoom_Ret|]. simpl.
    split_and!; [done..|]. intros i Hi. rewrite lookup_total_insert_dec.
    case_bool_decide; [done|]. apply E3. lia. }
  intros [] s' (E1 & E2 & E3). cbv beta.
  assert (ctr s' 0 = {| quota := free_pages (c_mat s'); usage := 0; parent := 0;
    nchildren := 0; used := 1 |}) as H0.
  { unfold ctr. rewrite E1, E2. simpl. rewrite lookup_total_insert_eq.
    rewrite s32_small; [done|]. unfold is_s32. unfold_cont. lia. }
  assert (∀ j, j ≠ 0 → ctr s' j = inhabitant) as Hj.
  { intros j Hj. unfold ctr. rewrite E2. simpl. rewrite lookup_total_insert_ne by done.
    by rewrite Hc, lookup_total_empty. }
  split; [by rewrite E1|]. split; [|done].
  eapply root_only_ok; rewrite ?E1; try done. apply (pp_alloc _ _ Hm).
  by rewrite H0, E1.
Qed.

(** *** Sequences of operations *)

(** What the comment of [container_split] lets it assume (it is safe to allocate [q] pages),
    and room for the child in the table. *)
Definition split_safe (id q : Z) (s : cont) : Prop :=
  used (ctr s id) ≠ 0 ∧ 0 ≤ q ≤ avail (ctr s id) ∧ nchildren (ctr s id) < MAX_CHILDREN ∧
  id * MAX_CHILDREN + 1 + MAX_CHILDREN ≤ NUM_IDS.

(** The operations the kernel performs on the containers, with splits that are safe.  The
    checks of [sys_spawn] make them so, except for requests near 2^32 that wrap around in
    [container_can_consume] ([split_safe_checks], [can_consume_wraps] below). *)
Inductive cont_step (s : cont) : cont → Prop :=
| cs_alloc id p s' :
    0 ≤ id < NUM_IDS → container_alloc id s = Ret (p, s') → cont_step s s'
| cs_free id p s' :
    0 ≤ id < NUM_IDS → 0 ≤ p < AT_LEN → container_free id p s = Ret (tt, s') → cont_step s s'
| cs_split id q child s' :
    0 ≤ id < NUM_IDS → split_safe id q s →
    container_split id q s = Ret (child, s') → cont_step s s'.

Lemma can_consume_run id n s :
  0 ≤ id < NUM_IDS → container_can_consume id n s =
    Ret (b2z (u32 (usage (ctr s id) + n) <=? u32 (quota (ctr s id))), s).
Proof. intros Hid. unfold container_can_consume. by kstep (cget_run _ _ Hid). Qed.

Lemma cont_alloc_ok id s :
  cont_ok s → 0 ≤ id < NUM_IDS → runs (container_alloc id) s (λ _ s', cont_ok s').
Proof.
  intros Hok Hid. pose proof (co_bound s Hok id Hid).
  destruct (decide (usage (ctr s id) < quota (ctr s id))).
  - eapply runs_mono; [by apply container_alloc_runs|]. by intros p s' [_ ?].
  - eapply runs_mono; [apply container_alloc_over; [done..|lia]|]. intros p s' [_ Hop].
    eapply cont_ok_op; [done|done|exact Hop|apply co_mat|apply co_alloc| |lia]; [done..|].
    exists (usage (ctr s id)). split; [by destruct (ctr s id)|]. split; [lia|].
    intros Hz. by destruct (co_unused s Hok id Hid Hz) as (?&?&?).
Qed.

(** The checks of [sys_spawn] imply what [container_split] needs. *)
Lemma spawn_guards id q s :
  cont_ok s → 0 ≤ id < NUM_IDS → 0 ≤ q → usage (ctr s id) + q < W32 →
  container_can_consume id q s = Ret (1, s) → nchildren (ctr s id) ≠ MAX_CHILDREN →
  id * MAX_CHILDREN + 1 + MAX_CHILDREN ≤ NUM_IDS →
  nchildren (ctr s id) < MAX_CHILDREN ∧ child_of s id < NUM_IDS ∧ 0 ≤ q ≤ avail (ctr s id).
Proof.
  intros Hok Hid Hq Hw Hcan Hnc Hid3.
  pose proof (co_nch s Hok id Hid). pose proof (co_bound s Hok id Hid).
  rewrite can_consume_run, !u32_small in Hcan by (try done; unfold_cont; lia).
  destruct (Z.leb_spec (usage (ctr s id) + q) (quota (ctr s id))); [|done].
  unfold child_of, avail. unfold_cont. lia.
Qed.

(** For requests that do not wrap around, the checks of [sys_spawn] are exactly the
    precondition of the split. *)
Lemma split_safe_checks id q s :
  cont_ok s → 0 ≤ id < NUM_IDS →
  split_safe id q s ↔
  used (ctr s id) ≠ 0 ∧ 0 ≤ q ∧ usage (ctr s id) + q < W32 ∧ container_can_consume id q s = Ret (1, s) ∧
  nchildren (ctr s id) ≠ MAX_CHILDREN ∧ id * MAX_CHILDREN + 1 + MAX_CHILDREN ≤ NUM_IDS.
Proof.
  intros Hok Hid. pose proof (co_bound s Hok id Hid) as Hb. split.
  - intros (Hu & Hq & Hn & Hi). unfold avail in Hq. assert (usage (ctr s id) + q < W32) as Hw by (unfold_cont; lia).
    split; [done|]. split; [lia|]. split; [done|]. split; [|split; [lia|done]].
    rewrite can_consume_run, !u32_small by (done || (unfold_cont; lia)). by rewrite (proj2 (Z.leb_le _ _)) by lia.
  - intros (Hu & Hq & Hw & Hcan & Hn & Hi). destruct (spawn_guards id q s) as (? & ? & ?); [done..|]. by split.
Qed.

(** The child of a safe split is in the table. *)
Lemma split_safe_child id q s :
  cont_ok s → 0 ≤ id < NUM_IDS → split_safe id q s → child_of s id < NUM_IDS.
Proof. intros Hok Hid (_ & _ & Hn & Hi). pose proof (co_nch s Hok id Hid). unfold child_of. unfold_cont. lia. Qed.

Lemma split_safe_runs id q s :
  cont_ok s → 0 ≤ id < NUM_IDS → split_safe id q s →
  runs (container_split id q) s (λ child s', split_post id q s child s' ∧ cont_ok s').
Proof.
  intros Hok Hid Hs. pose proof (split_safe_child id q s Hok Hid Hs). destruct Hs as (Hu & Hq & Hn & _).
  eapply runs_mono; [by apply container_split_runs|]. intros child s' Hp. split; [done|].
  eapply split_post_ok; [..|exact Hp]; done.
Qed.

Lemma cont_step_ok s s' : cont_step s s' → cont_ok s → cont_ok s'.
Proof.
  intros [id p s1 Hid E|id p s1 Hid Hp E|id q ch s1 Hid Hs E] Hok.
  - exact (runs_elim _ _ _ _ _ (cont_alloc_ok id s Hok Hid) E).
  - eapply free_post_ok; [done..|].
    exact (runs_elim _ _ _ _ _ (container_free_runs id p s Hok Hid Hp) E).
  - exact (proj2 (runs_elim _ _ _ _ _ (split_safe_runs id q s Hok Hid Hs) E)).
Qed.

Lemma cont_reachable_ok s s' : cont_ok s → rtc cont_step s s' → cont_ok s'.
Proof. intros Hok Hr. induction Hr; [done|]. eauto using cont_step_ok. Qed.

(** *** The early return of container_split *)

(** When the child would have an index beyond the table, [container_split] returns
    with the lock of the container taken, and the next operation that needs it
    spins for ever. *)
Lemma split_overflow_holds id q s :
  cont_ok s → 0 ≤ id < NUM_IDS → NUM_IDS ≤ child_of s id →
  ∃ s', container_split id q s = Ret (NUM_IDS, s') ∧
        container_alloc id s' = Hang ∧ (∀ p, container_free id p s' = Hang) ∧
        ∀ q', container_split id q' s' = Hang.
Proof.
  intros Hok Hid Hc. pose proof (co_nch s Hok id Hid).
  eexists. split.
  - unfold container_split. kstep container_lock_run by (try done; by apply co_locks).
    kstep (cget_run _ _ Hid). unfold ctr at 1 2. simpl. fold (ctr s id).
    rewrite (u32_small (nchildren _)) by (unfold_cont; lia).
    fold (child_of s id).
    rewrite (u32_small (child_of _ _)) by (unfold child_of in *; unfold_cont; lia).
    by rewrite (proj2 (Z.leb_le _ _)) by lia.
  - set (s1 := set_container_lks _ _).
    assert (container_lock id s1 = Hang) as Hh.
    { unfold container_lock, azoom, fzoom. rewrite (inb_true_2 _ _ Hid).
      rewrite Spinlock.acquire_held; [done|]. simpl. by rewrite lookup_total_insert_eq. }
    repeat split; intros; by apply bind_Hang.
Qed.

(** *** Permissions *)

(** No operation changes which pages are usable, nor the memory map. *)
Definition same_pages (m m' : mat) : Prop :=
  mat_map m' = mat_map m ∧ NUM_PAGES m' = NUM_PAGES m ∧
  ∀ i, perm (AT m' !!! i) = perm (AT m !!! i).

#[global] Instance same_pages_preorder : PreOrder same_pages.
Proof.
  split; [done|]. intros m1 m2 m3 (?&?&Ha) (?&?&Hb).
  split_and!; [congruence..|]. intros i. by rewrite Hb, Ha.
Qed.

Lemma cont_step_pages s s' :
  cont_step s s' → cont_ok s → same_pages (c_mat s) (c_mat s').
Proof.
  intros [id p s1 Hid E|id p s1 Hid Hp E|id q ch s1 Hid Hs E] Hok.
  - pose proof (co_bound s Hok id Hid).
    destruct (decide (usage (ctr s id) < quota (ctr s id))).
    + destruct (runs_elim _ _ _ _ _ (container_alloc_runs id s Hok Hid ltac:(done)) E)
        as [(_ & _ & -> & _) _]. split_and!; [done..|apply perm_mark_allocated].
    + destruct (runs_elim _ _ _ _ _ (container_alloc_over id s Hok Hid ltac:(lia)) E)
        as [_ (-> & _)]. done.
  - pose proof (runs_elim _ _ _ _ _ (container_free_runs id p s Hok Hid Hp) E) as Hf.
    unfold free_post in Hf. destruct (_ =? _); destruct Hf as (-> & _); [done|].
    split_and!; [done..|apply perm_mark_allocated].
  - by destruct (runs_elim _ _ _ _ _ (split_safe_runs id q s Hok Hid Hs) E) as [(_ & -> & _) _].
Qed.

Lemma cont_reachable_pages s s' :
  cont_ok s → rtc cont_step s s' → same_pages (c_mat s) (c_mat s').
Proof.
  intros Hok Hr. induction Hr; [done|].
  etrans; [by apply cont_step_pages|]. eauto using cont_step_ok.
Qed.

End specs.

(** ** A small machine *)

#[local] Existing Instance demo_env.

(** The root process owns the [k] free pages of [demo_mat k]. *)
Definition demo_cont (k : Z) : cont := {|
  c_mat := demo_mat k;
  CONTAINER := {[0 := {| quota := k; usage := 0; parent := 0; nchildren := 0; used := 1 |}]};
  container_lks := ∅ |}.

Lemma zsum_interval lo hi n :
  0 ≤ lo ≤ hi → hi ≤ Z.of_nat n → zsum (λ i, b2z (bool_decide (lo ≤ i < hi))) n = hi - lo.
Proof.
  intros Hlo. remember (Z.to_nat (hi - lo)) as d eqn:Ed. revert hi Hlo Ed.
  induction d as [|d IH]; intros hi Hlo Ed Hn.
  - rewrite (zsum_ext _ (λ _, 0)).
    + assert (∀ n, zsum (λ _, 0) n = 0) as ->; [|lia].
      induction n0 as [|m IHm]; [done|]. change (zsum (λ _, 0) m + 0 = 0). lia.
    + intros i _. by rewrite bool_decide_false by lia.
  - rewrite (zsum_change (λ i, b2z (bool_decide (lo ≤ i < hi - 1))) _ n (hi - 1)).
    + rewrite IH by lia. rewrite bool_decide_true, bool_decide_false by lia. simpl. lia.
    + lia.
    + intros j _ Hj. f_equal. apply bool_decide_ext. lia.
Qed.

Lemma demo_cont_ok k : 0 ≤ k ≤ 16 → cont_ok (demo_cont k).
Proof.
  intros Hk. apply root_only_ok with k.
  - by apply demo_mat_ok.
  - intros i. simpl. rewrite demo_AT_lookup. by case_bool_decide.
  - unfold free_pages. rewrite (zsum_ext _ (λ i, b2z (bool_decide
      (VM_USERLO_PI ≤ i < VM_USERLO_PI + k)))).
    + rewrite zsum_interval; simpl; unfold_consts; lia.
    + intros i _. by rewrite <- demo_page_free.
  - intros j _. done.
  - apply lookup_total_insert_eq.
  - intros j Hj. by apply lookup_total_singleton_ne.
Qed.

(** ** The contract of the containers *)

(** [container_alloc] on a process below its quota returns a page that was
    free, marks it allocated, charges it to the process and changes nothing
    else; on a process at its quota it returns 0 and changes nothing.  The quota
    invariant holds after it: no process below its quota is ever refused. *)
Theorem container_alloc_spec `{KEnv} id s :
  ks_magic = KSTACK_MAGIC → cont_ok s → 0 ≤ id < NUM_IDS →
  runs (container_alloc id) s (λ p s',
    cont_ok s' ∧
    if usage (ctr s id) <? quota (ctr s id) then alloc_post id s p s'
    else p = 0 ∧ op_post id (ctr s id) (c_mat s) s s').
Proof.
  intros Hm Hok Hid. pose proof (co_bound s Hok id Hid).
  apply runs_and; [by apply cont_alloc_ok|].
  destruct (Z.ltb_spec (usage (ctr s id)) (quota (ctr s id))).
  - eapply runs_mono; [by apply container_alloc_runs|]. by intros p s' [? _].
  - apply container_alloc_over; [done..|lia].
Qed.

Lemma container_alloc_spec_witness :
  runs (container_alloc 0) (demo_cont 4) (λ p s',
    cont_ok s' ∧
    if usage (ctr (demo_cont 4) 0) <? quota (ctr (demo_cont 4) 0)
    then alloc_post 0 (demo_cont 4) p s'
    else p = 0 ∧ op_post 0 (ctr (demo_cont 4) 0) (c_mat (demo_cont 4)) (demo_cont 4) s').
Proof.
  apply (container_alloc_spec 0 (demo_cont 4)); [reflexivity|apply demo_cont_ok; lia|].
  unfold NUM_IDS. lia.
Defined.

(** C4: From boot on, through every sequence of allocations, releases and
    splits of requests that fit into the unused quota of the parent ([split_safe], the
    documented precondition of [container_split]), every process below its quota gets a
    page, and the page is one that the boot loader's memory map lists as RAM. *)
Theorem container_quota_safety `{KEnv} mbi s0 s1 s id :
  ks_magic = KSTACK_MAGIC → cont_boot s0 →
  Z.of_nat (length (low_entries mbi)) ≤ 128 → Forall mmap_wf mbi →
  container_init mbi s0 = Ret (tt, s1) → rtc cont_step s1 s →
  0 ≤ id < NUM_IDS → usage (ctr s id) < quota (ctr s id) →
  runs (container_alloc id) s (λ p s',
    alloc_post id s p s' ∧
    ∀ a, p * PAGESIZE ≤ a < (p + 1) * PAGESIZE →
      ∃ e, e ∈ mbi ∧ base_addr_high e = 0 ∧ mm_type e = MEM_RAM ∧
           base_addr_low e ≤ a < mmap_end e).
Proof.
  intros Hm Hboot Hlen Hwf Hinit Hr Hid Hq.
  pose proof (runs_elim _ _ _ _ _ (container_init_runs mbi s0 Hboot Hlen Hwf) Hinit)
    as (Hpost & Hok1 & _).
  pose proof (cont_reachable_ok Hm _ _ Hok1 Hr) as Hok.
  destruct (cont_reachable_pages Hm _ _ Hok1 Hr) as (_ & _ & Hperm).
  eapply runs_mono; [by apply container_alloc_runs|].
  intros p s' [Hp _]. split; [done|]. intros a Ha.
  destruct Hp as (Hf & _). apply (pmem_post_ram mbi (c_mat s1) p); [done| |done].
  unfold page_free in *. rewrite <- Hperm, (pp_alloc _ _ Hpost).
  apply andb_true_iff in Hf as [-> _]. done.
Qed.

(** 64 KB of RAM at the start of the user range. *)
Definition demo_mbi : list mboot_mmap :=
  [{| mm_size := 20; base_addr_low := 1073741824; base_addr_high := 0;
      length_low := 65536; length_high := 0; mm_type := MEM_RAM |}].
Definition demo_boot : cont := {|
  c_mat := {| mat_map := pmmap_st0; mem_lk := inhabitant; NUM_PAGES := 0; AT := ∅;
              last_palloc_index := VM_USERLO_PI |};
  CONTAINER := ∅; container_lks := ∅ |}.

Lemma demo_boot_free m : pmem_post demo_mbi m → free_pages m = 16.
Proof.
  intros Hp. pose proof (pp_map _ _ Hp) as E.
  assert (pmmap_list (mat_map m) =
    [{| pm_start := 1073741824; pm_end := 1073807360; pm_type := MEM_RAM |}]) as El
    by (generalize dependent (mat_map m); intros mm E; vm_compute in E; by injection E as <-).
  pose proof (pp_nps _ _ Hp) as En. rewrite El in En. change (max_end _ _) with 1073807360 in En.
  change (1073807360 / PAGESIZE) with (VM_USERLO_PI + 16) in En.
  unfold free_pages. rewrite (zsum_ext _ (λ i, b2z (bool_decide
      (VM_USERLO_PI ≤ i < VM_USERLO_PI + 16)))).
  - rewrite zsum_interval; rewrite ?En; unfold_consts; lia.
  - intros i Hi. f_equal. unfold page_free.
    rewrite (pp_perm _ _ Hp), (pp_alloc _ _ Hp), El, En, andb_true_r.
    rewrite bool_decide_true by lia. unfold init_perm.
    destruct (Z.ltb_spec i VM_USERLO_PI); simpl; [by rewrite bool_decide_false by lia|].
    rewrite (proj2 (Z.leb_gt _ _)) by (unfold_consts; lia).
    unfold contains_page. simpl. rewrite !(proj2 (Z.leb_le _ _)) by (unfold_consts; lia).
    by rewrite bool_decide_true by lia.
Qed.

Lemma container_quota_safety_witness :
  ∃ s1, container_init demo_mbi demo_boot = Ret (tt, s1) ∧ usage (ctr s1 0) < quota (ctr s1 0) ∧
  runs (container_alloc 0) s1 (λ p s',
    alloc_post 0 s1 p s' ∧
    ∀ a, p * PAGESIZE ≤ a < (p + 1) * PAGESIZE →
      ∃ e, e ∈ demo_mbi ∧ base_addr_high e = 0 ∧ mm_type e = MEM_RAM ∧
           base_addr_low e ≤ a < mmap_end e).
Proof.
  assert (Forall mmap_wf demo_mbi) as Hwf.
  { constructor; [|constructor]. unfold mmap_wf, is_u32; simpl; unfold_consts. split_and!; [lia..|by left]. }
  assert (cont_boot demo_boot) as Hb by done.
  assert (Z.of_nat (length (low_entries demo_mbi)) ≤ 128) as Hl by (vm_compute; discriminate).
  destruct (proj1 (runs_eq _ _ _) (container_init_runs demo_mbi demo_boot Hb Hl Hwf))
    as ([] & s1 & E & Hp & Hok & H0 & _).
  exists s1. split; [exact E|].
  assert (usage (ctr s1 0) < quota (ctr s1 0)) as Hq.
  { rewrite H0. simpl. by rewrite demo_boot_free. }
  split; [exact Hq|].
  assert (0 ≤ 0 < NUM_IDS) as Hz by (unfold NUM_IDS; lia).
  exact (container_quota_safety demo_mbi demo_boot s1 s1 0 eq_refl Hb Hl Hwf E (rtc_refl _ _) Hz Hq).
Defined.

(** C23: [container_split] of a request that is safe in the sense of its comment ([q] is at
    most the unused quota of the process, which has room for a child) gives the next child
    of the process a container with the requested quota, charges it to the parent, changes
    no other container and keeps the quota invariant. *)
Theorem container_split_spec `{KEnv} id q s :
  ks_magic = KSTACK_MAGIC → cont_ok s → 0 ≤ id < NUM_IDS → split_safe id q s →
  runs (container_split id q) s (λ child s', split_post id q s child s' ∧ cont_ok s').
Proof. intros Hm. by apply split_safe_runs. Qed.

Lemma container_split_spec_witness :
  runs (container_split 0 3) (demo_cont 4) (λ child s',
    split_post 0 3 (demo_cont 4) child s' ∧ cont_ok s').
Proof.
  apply (container_split_spec 0 3 (demo_cont 4)); [reflexivity|apply demo_cont_ok; lia|..];
    [unfold NUM_IDS; lia|]. repeat split; done.
Defined.

(** [container_free] of an allocated page makes it free again and takes it off
    the usage of the process; of a page that is not allocated it changes nothing.
    The quota invariant is kept. *)
Theorem container_free_spec `{KEnv} id p s :
  ks_magic = KSTACK_MAGIC → cont_ok s → 0 ≤ id < NUM_IDS → 0 ≤ p < AT_LEN →
  runs (container_free id p) s (λ _ s', free_post id p s s' ∧ cont_ok s').
Proof.
  intros Hm Hok Hid Hp. eapply runs_mono; [by apply container_free_runs|].
  intros [] s' Hf. split; [done|]. by eapply free_post_ok.
Qed.

Lemma container_free_spec_witness :
  runs (container_free 0 VM_USERLO_PI) (demo_cont 4) (λ _ s',
    free_post 0 VM_USERLO_PI (demo_cont 4) s' ∧ cont_ok s').
Proof.
  apply (container_free_spec 0 VM_USERLO_PI (demo_cont 4)); [reflexivity|apply demo_cont_ok; lia|..];
    unfold NUM_IDS; unfold_consts; lia.
Defined.

(** C33: When the index of the next child would leave the table, [container_split]
    returns [NUM_IDS] with the lock of the container still taken: every later
    operation on that container spins for ever. *)
Theorem container_split_leaks_lock `{KEnv} id q s :
  ks_magic = KSTACK_MAGIC → cont_ok s → 0 ≤ id < NUM_IDS → NUM_IDS ≤ child_of s id →
  ∃ s', container_split id q s = Ret (NUM_IDS, s') ∧
        container_alloc id s' = Hang ∧ (∀ p, container_free id p s' = Hang) ∧
        ∀ q', container_split id q' s' = Hang.
Proof. intros. by apply split_overflow_holds. Qed.

Lemma container_split_leaks_lock_witness :
  ∃ s', container_split 21 0 (demo_cont 4) = Ret (NUM_IDS, s') ∧
        container_alloc 21 s' = Hang ∧ (∀ p, container_free 21 p s' = Hang) ∧
        ∀ q', container_split 21 q' s' = Hang.
Proof.
  apply (container_split_leaks_lock 21 0 (demo_cont 4)); [reflexivity|apply demo_cont_ok; lia|..];
    vm_compute; intuition discriminate.
Defined.

(** The sum in [container_can_consume] wraps around: a process that uses at
    least one page passes the check for 2^32 - 1 pages, whatever its quota, and
    the split that follows lowers the usage of the parent by one. *)
Theorem can_consume_wraps `{KEnv} id s :
  cont_ok s → 0 ≤ id < NUM_IDS → 0 < usage (ctr s id) →
  container_can_consume id 4294967295 s = Ret (1, s) ∧
  s32 (usage (ctr s id) + 4294967295) = usage (ctr s id) - 1.
Proof.
  intros Hok Hid Hu. pose proof (co_bound s Hok id Hid) as Hb. split.
  - rewrite can_consume_run by done.
    assert (u32 (usage (ctr s id) + 4294967295) = usage (ctr s id) - 1) as ->.
    { unfold u32, W32. unfold_consts. divlia. }
    rewrite u32_small by (unfold_consts; lia). by rewrite (proj2 (Z.leb_le _ _)) by lia.
  - unfold s32, W32. unfold_consts. divlia.
Qed.

Lemma can_consume_wraps_witness :
  ∃ s, 0 < usage (ctr s 0) ∧ container_can_consume 0 4294967295 s = Ret (1, s) ∧
       s32 (usage (ctr s 0) + 4294967295) = usage (ctr s 0) - 1.
Proof.
  assert (0 ≤ 0 < NUM_IDS) as Hz by (unfold NUM_IDS; lia).
  destruct (proj1 (runs_eq _ _ _) (@container_alloc_runs demo_env eq_refl 0 (demo_cont 4)
    (demo_cont_ok 4 ltac:(lia)) Hz eq_refl)) as (p & s & _ & (_ & _ & _ & Hc & _) & Hok).
  exists s. assert (0 < usage (ctr s 0)) as Hu by (rewrite Hc; reflexivity).
  split; [exact Hu|]. exact (can_consume_wraps 0 s Hok Hz Hu).
Defined.
