(* ===== verification/Mem.v ===== *)
(** * Memory and the string functions

    The physical memory as a map from addresses to bytes, with the 32-bit
    little-endian accesses that the page tables use, and kern/lib/string.c over
    it.  The [rep] instructions of the inline assembly are loops on the memory. *)

From S2P Require Import Prelude.

(** A byte that was never written is zero; addresses and bytes are taken
    modulo 2^32 and 2^8. *)
Abbreviation memory := (gmap Z Z).

Definition load8 (m : memory) (a : Z) : Z := u8 (m !!! u32 a).
Definition store8 (a v : Z) (m : memory) : memory := <[u32 a := u8 v]> m.

Definition load32 (m : memory) (a : Z) : Z :=
  load8 m a + 256 * load8 m (a + 1) + 65536 * load8 m (a + 2) + 16777216 * load8 m (a + 3).
Definition store32 (a v : Z) (m : memory) : memory :=
  store8 (a + 3) (v / 16777216) (store8 (a + 2) (v / 65536)
    (store8 (a + 1) (v / 256) (store8 a v m))).

Definition load16 (m : memory) (a : Z) : Z := load8 m a + 256 * load8 m (a + 1).

(** ** String instructions *)

(** [rep stosb] and [rep stosl] with the direction flag clear. *)
Fixpoint rep_stosb (n : nat) (di al : Z) (m : memory) : memory :=
  match n with
  | O => m
  | S n' => rep_stosb n' (di + 1) al (store8 di al m)
  end.

Fixpoint rep_stosl (n : nat) (di eax : Z) (m : memory) : memory :=
  match n with
  | O => m
  | S n' => rep_stosl n' (di + 4) eax (store32 di eax m)
  end.

(** [rep movsb] and [rep movsl]; [dir] is 1 after [cld] and -1 after [std]. *)
Fixpoint rep_movsb (n : nat) (dir di si : Z) (m : memory) : memory :=
  match n with
  | O => m
  | S n' => rep_movsb n' dir (di + dir) (si + dir) (store8 di (load8 m si) m)
  end.

Fixpoint rep_movsl (n : nat) (dir di si : Z) (m : memory) : memory :=
  match n with
  | O => m
  | S n' => rep_movsl n' dir (di + 4 * dir) (si + 4 * dir) (store32 di (load32 m si) m)
  end.

(** ** kern/lib/string.c *)

(** [(int) v % 4 == 0] *)
Definition aligned4 (v : Z) : bool := Z.rem (s32 v) 4 =? 0.

Definition memset (v c n : Z) : M memory Z := λ m,
  if n =? 0 then Ret (v, m)
  else if aligned4 v && (n mod 4 =? 0) then
    let c := Z.land c 255 in
    let c := Z.lor (Z.lor (Z.lor (Z.shiftl c 24) (Z.shiftl c 16)) (Z.shiftl c 8)) c in
    Ret (v, rep_stosl (Z.to_nat (n / 4)) v c m)
  else Ret (v, rep_stosb (Z.to_nat n) v c m).

Definition memmove (dst src n : Z) : M memory Z := λ m,
  let s := src in
  let d := dst in
  if (s <? d) && (u32 (s + n) >? d) then
    let s := u32 (s + n) in
    let d := u32 (d + n) in
    if aligned4 s && aligned4 d && (n mod 4 =? 0)
    then Ret (dst, rep_movsl (Z.to_nat (n / 4)) (-1) (d - 4) (s - 4) m)
    else Ret (dst, rep_movsb (Z.to_nat n) (-1) (d - 1) (s - 1) m)
  else
    if aligned4 s && aligned4 d && (n mod 4 =? 0)
    then Ret (dst, rep_movsl (Z.to_nat (n / 4)) 1 d s m)
    else Ret (dst, rep_movsb (Z.to_nat n) 1 d s m).

Definition memcpy (dst src n : Z) : M memory Z := memmove dst src n.
Definition memzero (v n : Z) : M memory Z := memset v 0 n.

(** A [char] read through a [const char *]. *)
Definition loadc (m : memory) (a : Z) : Z := s8 (load8 m a).

Fixpoint strncmp_loop (n : nat) (p q : Z) (m : memory) : Z :=
  match n with
  | O => 0
  | S n' =>
      if nz (loadc m p) && (loadc m p =? loadc m q) then strncmp_loop n' (p + 1) (q + 1) m
      else load8 m p - load8 m q
  end.
Definition strncmp (p q n : Z) : M memory Z := gets (strncmp_loop (Z.to_nat n) p q).

Fixpoint strnlen_loop (size : nat) (s n : Z) (m : memory) : Z :=
  match size with
  | O => n
  | S size' => if nz (loadc m s) then strnlen_loop size' (s + 1) (n + 1) m else n
  end.
Definition strnlen (s size : Z) : M memory Z := gets (strnlen_loop (Z.to_nat size) s 0).

Definition strcmp (p q : Z) : M memory Z :=
  loopw (λ '(p, q), λ m,
    if nz (loadc m p) && (loadc m p =? loadc m q) then Ret (inl (p + 1, q + 1), m)
    else Ret (inr (load8 m p - load8 m q), m)) (p, q).

Definition strchr (s c : Z) : M memory Z :=
  loopw (λ s, λ m,
    if nz (loadc m s) then
      if loadc m s =? c then Ret (inr s, m) else Ret (inl (s + 1), m)
    else Ret (inr 0, m)) s.

Fixpoint memcmp_loop (n : nat) (s1 s2 : Z) (m : memory) : Z :=
  match n with
  | O => 0
  | S n' => if negb (load8 m s1 =? load8 m s2) then load8 m s1 - load8 m s2
            else memcmp_loop n' (s1 + 1) (s2 + 1) m
  end.
Definition memcmp (v1 v2 n : Z) : M memory Z := gets (memcmp_loop (Z.to_nat n) v1 v2).

(** The two loops of [strncpy]: copy up to the terminator, then pad with zeros. *)
Fixpoint strncpy_loop (n : nat) (s t : Z) (m : memory) : memory :=
  match n with
  | O => m
  | S n' =>
      let m' := store8 s (load8 m t) m in
      if nz (loadc m t) then strncpy_loop n' (s + 1) (t + 1) m'
      else rep_stosb n' (s + 1) 0 m'
  end.
Definition strncpy (s t n : Z) : M memory Z := λ m,
  Ret (s, strncpy_loop (Z.to_nat n) s t m).

#[global] Arguments load32 : simpl never.
#[global] Arguments store32 : simpl never.
#[global] Arguments load8 : simpl never.
#[global] Arguments store8 : simpl never.

(** ** Loads and stores *)

Lemma load8_range m a : 0 ≤ load8 m a < 256.
Proof. unfold load8, u8. apply Z.mod_pos_bound. lia. Qed.

Lemma load32_range m a : 0 ≤ load32 m a < W32.
Proof.
  unfold load32, W32. pose proof (load8_range m a). pose proof (load8_range m (a + 1)).
  pose proof (load8_range m (a + 2)). pose proof (load8_range m (a + 3)). lia.
Qed.
#[export] Hint Resolve load8_range load32_range : kern.

Lemma load8_store8 m a b v :
  0 ≤ a < W32 → 0 ≤ b < W32 →
  load8 (store8 a v m) b = if bool_decide (a = b) then u8 v else load8 m b.
Proof.
  intros Ha Hb. unfold load8, store8. rewrite !u32_small by done.
  rewrite lookup_total_insert_dec. case_bool_decide; [|done].
  unfold u8. by rewrite Z.mod_mod by lia.
Qed.

(** Byte [i] of a word. *)
Definition byte_of (v i : Z) : Z := u8 (v / 256 ^ i).

Lemma load8_store32 m a b v :
  0 ≤ a → a + 4 ≤ W32 → 0 ≤ b < W32 →
  load8 (store32 a v m) b = if bool_decide (a ≤ b < a + 4) then byte_of v (b - a) else load8 m b.
Proof.
  intros Ha Ha' Hb. unfold store32. rewrite !load8_store8 by lia.
  repeat (case_bool_decide; try lia); try done; subst; unfold byte_of;
    match goal with |- context [256 ^ ?e] =>
      first [ replace e with 3 by lia | replace e with 2 by lia
            | replace e with 1 by lia | replace e with 0 by lia ] end; try done.
  change (256 ^ 0) with 1. by rewrite Z.div_1_r.
Qed.

Lemma load8_store32_ne m a b v :
  0 ≤ a → a + 4 ≤ W32 → 0 ≤ b < W32 → ¬ (a ≤ b < a + 4) → load8 (store32 a v m) b = load8 m b.
Proof. intros. rewrite load8_store32 by done. by rewrite bool_decide_false. Qed.

(** A word is its four bytes. *)
Lemma word_bytes v :
  0 ≤ v < W32 →
  byte_of v 0 + 256 * byte_of v 1 + 65536 * byte_of v 2 + 16777216 * byte_of v 3 = v.
Proof.
  unfold byte_of, u8, W32. change (256 ^ 0) with 1. change (256 ^ 1) with 256.
  change (256 ^ 2) with 65536. change (256 ^ 3) with 16777216. intros. divlia.
Qed.

Lemma load32_store32_eq m a v :
  0 ≤ a → a + 4 ≤ W32 → 0 ≤ v < W32 → load32 (store32 a v m) a = v.
Proof.
  intros Ha Ha' Hv. unfold load32. rewrite !load8_store32 by lia.
  rewrite !bool_decide_true by lia. rewrite <- (word_bytes v Hv) at 5.
  repeat f_equal; lia.
Qed.

Lemma load32_store32_ne m a b v :
  0 ≤ a → a + 4 ≤ W32 → 0 ≤ b → b + 4 ≤ W32 → a + 4 ≤ b ∨ b + 4 ≤ a →
  load32 (store32 a v m) b = load32 m b.
Proof. intros. unfold load32. by rewrite !load8_store32_ne by lia. Qed.

(** A word depends on its bytes only. *)
Lemma load32_ext m m' a :
  (∀ i, 0 ≤ i < 4 → load8 m' (a + i) = load8 m (a + i)) → load32 m' a = load32 m a.
Proof.
  intros E. unfold load32. rewrite <- (Z.add_0_r a) at 1 5. by rewrite !E by lia.
Qed.

Lemma byte_of_load32 m a i : 0 ≤ i < 4 → byte_of (load32 m a) i = load8 m (a + i).
Proof.
  intros Hi. pose proof (load8_range m a). pose proof (load8_range m (a + 1)).
  pose proof (load8_range m (a + 2)). pose proof (load8_range m (a + 3)).
  assert (i = 0 ∨ i = 1 ∨ i = 2 ∨ i = 3) as [-> |[-> |[-> | ->]]] by lia;
    unfold byte_of, u8, load32;
    [change (256 ^ 0) with 1; rewrite Z.add_0_r | change (256 ^ 1) with 256
    | change (256 ^ 2) with 65536 | change (256 ^ 3) with 16777216]; divlia.
Qed.

(** ** Filling and copying *)

(** [m'] is [m] with the [n] bytes at [d] replaced by [f]. *)
Definition filled (m m' : memory) (d n : Z) (f : Z → Z) : Prop :=
  ∀ a, 0 ≤ a < W32 → load8 m' a = if bool_decide (d ≤ a < d + n) then f (a - d) else load8 m a.

Lemma rep_stosb_filled n d c m :
  0 ≤ d → d + Z.of_nat n ≤ W32 → filled m (rep_stosb n d c m) d (Z.of_nat n) (λ _, u8 c).
Proof.
  revert d m. induction n as [|n IH]; intros d m Hd Hn a Ha; simpl rep_stosb.
  - by rewrite bool_decide_false by lia.
  - rewrite (IH (d + 1)) by lia. rewrite load8_store8 by lia.
    repeat (case_bool_decide; try lia; try done).
Qed.

Lemma rep_stosl_filled n d v m :
  0 ≤ d → d + 4 * Z.of_nat n ≤ W32 →
  filled m (rep_stosl n d v m) d (4 * Z.of_nat n) (λ i, byte_of v (i mod 4)).
Proof.
  revert d m. induction n as [|n IH]; intros d m Hd Hn a Ha; simpl rep_stosl.
  - by rewrite bool_decide_false by lia.
  - rewrite (IH (d + 4)) by lia. rewrite load8_store32 by lia.
    repeat (case_bool_decide; try lia; try done); f_equal; divlia.
Qed.

(** Forward copies, where the destination is not inside the source. *)
Lemma rep_movsb_fwd n d s m :
  0 ≤ d → d + Z.of_nat n ≤ W32 → 0 ≤ s → s + Z.of_nat n ≤ W32 →
  d ≤ s ∨ s + Z.of_nat n ≤ d →
  filled m (rep_movsb n 1 d s m) d (Z.of_nat n) (λ i, load8 m (s + i)).
Proof.
  revert d s m. induction n as [|n IH]; intros d s m Hd Hdn Hs Hsn Ho a Ha; simpl rep_movsb.
  - by rewrite bool_decide_false by lia.
  - rewrite (IH (d + 1) (s + 1)) by lia.
    pose proof (load8_range m s). repeat (case_bool_decide; try lia).
    + rewrite load8_store8, bool_decide_false by lia. f_equal. lia.
    + rewrite load8_store8 by lia. replace d with a by lia. rewrite bool_decide_true by done.
      unfold u8. rewrite Z.mod_small by lia. f_equal. lia.
    + rewrite load8_store8, bool_decide_false by lia. done.
Qed.

(** A word copied. *)
Lemma load8_copy32 m d s a :
  0 ≤ d → d + 4 ≤ W32 → 0 ≤ a < W32 →
  load8 (store32 d (load32 m s) m) a =
  if bool_decide (d ≤ a < d + 4) then load8 m (s + (a - d)) else load8 m a.
Proof.
  intros. rewrite load8_store32 by lia. case_bool_decide; [|done]. apply byte_of_load32. lia.
Qed.

Lemma rep_movsl_fwd n d s m :
  0 ≤ d → d + 4 * Z.of_nat n ≤ W32 → 0 ≤ s → s + 4 * Z.of_nat n ≤ W32 →
  s mod 4 = d mod 4 → d ≤ s ∨ s + 4 * Z.of_nat n ≤ d →
  filled m (rep_movsl n 1 d s m) d (4 * Z.of_nat n) (λ i, load8 m (s + i)).
Proof.
  revert d s m. induction n as [|n IH]; intros d s m Hd Hdn Hs Hsn Hm Ho a Ha; simpl rep_movsl.
  - by rewrite bool_decide_false by lia.
  - rewrite (IH (d + 4) (s + 4)) by (try lia; divlia).
    case_bool_decide; rewrite load8_copy32 by lia; repeat (case_bool_decide; try lia);
      f_equal; lia.
Qed.

(** Backward copies, where the destination starts inside the source or after it. *)
Lemma rep_movsb_bwd n d s m :
  0 ≤ d - Z.of_nat n → d ≤ W32 → 0 ≤ s - Z.of_nat n → s ≤ W32 → s ≤ d →
  filled m (rep_movsb n (-1) (d - 1) (s - 1) m) (d - Z.of_nat n) (Z.of_nat n)
    (λ i, load8 m (s - Z.of_nat n + i)).
Proof.
  revert d s m. induction n as [|n IH]; intros d s m Hd Hdn Hs Hsn Ho a Ha; simpl rep_movsb.
  - by rewrite bool_decide_false by lia.
  - replace (d - 1 + -1) with (d - 1 - 1) by lia. replace (s - 1 + -1) with (s - 1 - 1) by lia.
    rewrite (IH (d - 1) (s - 1)) by lia. pose proof (load8_range m (s - 1)).
    repeat (case_bool_decide; try lia); rewrite load8_store8 by lia;
      repeat (case_bool_decide; try lia); unfold u8; rewrite ?Z.mod_small by lia;
      f_equal; lia.
Qed.

Lemma rep_movsl_bwd n d s m :
  0 ≤ d - 4 * Z.of_nat n → d ≤ W32 → 0 ≤ s - 4 * Z.of_nat n → s ≤ W32 → s ≤ d →
  s mod 4 = d mod 4 →
  filled m (rep_movsl n (-1) (d - 4) (s - 4) m) (d - 4 * Z.of_nat n) (4 * Z.of_nat n)
    (λ i, load8 m (s - 4 * Z.of_nat n + i)).
Proof.
  revert d s m. induction n as [|n IH]; intros d s m Hd Hdn Hs Hsn Ho Hm a Ha; simpl rep_movsl.
  - by rewrite bool_decide_false by lia.
  - replace (d - 4 + 4 * -1) with (d - 4 - 4) by lia.
    replace (s - 4 + 4 * -1) with (s - 4 - 4) by lia.
    rewrite (IH (d - 4) (s - 4)) by (try lia; divlia).
    case_bool_decide; rewrite load8_copy32 by lia; repeat (case_bool_decide; try lia);
      f_equal; lia.
Qed.

Lemma aligned4_spec v : aligned4 v = true ↔ v mod 4 = 0.
Proof.
  unfold aligned4. rewrite Z.eqb_eq. unfold s32, W32.
  assert (Z.rem ((v + 2147483648) mod 4294967296 - 2147483648) 4 = 0 ↔
    ((v + 2147483648) mod 4294967296 - 2147483648) mod 4 = 0) as ->.
  { rewrite Z.rem_divide, Z.mod_divide by lia. done. }
  divlia.
Qed.

Lemma aligned4_cond s d n :
  aligned4 s && aligned4 d && (n mod 4 =? 0) = true → s mod 4 = 0 ∧ d mod 4 = 0 ∧ n mod 4 = 0.
Proof. rewrite !andb_true_iff, !aligned4_spec, Z.eqb_eq. tauto. Qed.

Lemma memmove_filled dst src n m :
  0 ≤ dst → dst + n < W32 → 0 ≤ src → src + n < W32 → 0 ≤ n →
  runs (memmove dst src n) m (λ r m', r = dst ∧ filled m m' dst n (λ i, load8 m (src + i))).
Proof.
  intros Hd Hdn Hs Hsn Hn. unfold runs, memmove. cbv zeta.
  rewrite (u32_small (src + n)) by lia.
  destruct ((src <? dst) && (src + n >? dst)) eqn:Eo.
  - apply andb_true_iff in Eo as [?%Z.ltb_lt ?%Z.gtb_lt].
    rewrite (u32_small (dst + n)) by lia. destruct (_ && _) eqn:Ea; (split; [done|]).
    + apply aligned4_cond in Ea as (? & ? & ?).
      intros a Ha. rewrite (rep_movsl_bwd (Z.to_nat (n / 4)) (dst + n) (src + n)) by
        (try lia; try divlia).
      assert (4 * Z.of_nat (Z.to_nat (n / 4)) = n) as -> by divlia.
      replace (dst + n - n) with dst by lia. by replace (src + n - n) with src by lia.
    + intros a Ha. rewrite (rep_movsb_bwd (Z.to_nat n) (dst + n) (src + n)) by lia.
      rewrite Z2Nat.id by lia.
      replace (dst + n - n) with dst by lia. by replace (src + n - n) with src by lia.
  - assert (dst ≤ src ∨ src + n ≤ dst) as Hno.
    { apply andb_false_iff in Eo. rewrite Z.ltb_ge, Z.gtb_ltb, Z.ltb_ge in Eo. lia. }
    destruct (aligned4 src && aligned4 dst && (n mod 4 =? 0)) eqn:Ea; (split; [done|]).
    + apply aligned4_cond in Ea as (? & ? & ?).
      intros a Ha. rewrite (rep_movsl_fwd (Z.to_nat (n / 4)) dst src) by (try lia; try divlia).
      by assert (4 * Z.of_nat (Z.to_nat (n / 4)) = n) as -> by divlia.
    + intros a Ha. rewrite (rep_movsb_fwd (Z.to_nat n) dst src) by lia. by rewrite Z2Nat.id by lia.
Qed.

(** The word that [memset] stores repeats its byte. *)
Lemma splat_byte c i :
  0 ≤ i < 4 →
  let b := Z.land c 255 in
  byte_of (Z.lor (Z.lor (Z.lor (Z.shiftl b 24) (Z.shiftl b 16)) (Z.shiftl b 8)) b) i = u8 c.
Proof.
  intros Hi b. unfold byte_of, u8.
  replace (256 ^ i) with (2 ^ (8 * i)) by (rewrite Z.pow_mul_r by lia; done).
  rewrite <- Z.shiftr_div_pow2 by lia. change 256 with (2 ^ 8).
  rewrite <- !Z.land_ones by lia. apply Z.bits_inj'. intros n Hn.
  rewrite !Z.land_spec, Z.shiftr_spec by lia. rewrite !Z.lor_spec.
  destruct (decide (n < 8)) as [Hn8|Hn8]; last first.
  { rewrite !(Z.ones_spec_high 8) by lia. by rewrite !andb_false_r. }
  rewrite !Z.ones_spec_low by lia. rewrite !andb_true_r.
  assert (∀ k, 0 ≤ k → Z.testbit b k = Z.testbit c k && (k <? 8)) as Hb.
  { intros k Hk. unfold b. change 255 with (Z.ones 8). rewrite Z.land_spec. f_equal.
    destruct (Z.ltb_spec k 8); [by apply Z.ones_spec_low|by apply Z.ones_spec_high]. }
  assert (∀ k sh, 0 ≤ k → 0 ≤ sh → Z.testbit (Z.shiftl b sh) k =
    (sh <=? k) && (Z.testbit c (k - sh) && (k - sh <? 8))) as Hs.
  { intros k sh Hk Hsh. rewrite Z.shiftl_spec by lia. destruct (Z.leb_spec sh k); simpl.
    - apply Hb. lia.
    - by apply Z.testbit_neg_r; lia. }
  rewrite !Hs, Hb by lia.
  assert (i = 0 ∨ i = 1 ∨ i = 2 ∨ i = 3) as [-> |[-> |[-> | ->]]] by lia;
    repeat match goal with
    | |- context [?x <=? ?y] => first
        [ rewrite (proj2 (Z.leb_le x y)) by lia | rewrite (proj2 (Z.leb_gt x y)) by lia ]
    | |- context [?x <? ?y] => first
        [ rewrite (proj2 (Z.ltb_lt x y)) by lia | rewrite (proj2 (Z.ltb_ge x y)) by lia ]
    end; simpl; rewrite ?andb_true_r, ?andb_false_r, ?orb_false_r; simpl; f_equal; lia.
Qed.

Lemma memset_filled v c n m :
  0 ≤ v → v + n ≤ W32 → 0 ≤ n →
  runs (memset v c n) m (λ r m', r = v ∧ filled m m' v n (λ _, u8 c)).
Proof.
  intros Hv Hvn Hn. unfold runs, memset. destruct (Z.eqb_spec n 0) as [->|Hn0].
  { split; [done|]. intros a Ha. by rewrite bool_decide_false by lia. }
  destruct (aligned4 v && (n mod 4 =? 0)) eqn:Ea; (split; [done|]).
  - apply andb_true_iff in Ea as [_ Hm%Z.eqb_eq]. intros a Ha.
    rewrite (rep_stosl_filled (Z.to_nat (n / 4)) v) by (try lia; divlia).
    assert (4 * Z.of_nat (Z.to_nat (n / 4)) = n) as -> by divlia.
    case_bool_decide; [|done]. apply splat_byte. apply Z.mod_pos_bound. lia.
  - intros a Ha. rewrite (rep_stosb_filled (Z.to_nat n)) by lia. by rewrite Z2Nat.id by lia.
Qed.

(** ** The contract of the memory functions *)

(** [memmove] leaves in the destination the bytes the source had before the
    call, also when the two regions overlap, in whichever direction and with
    whichever of its word and byte copies it chooses; no other byte changes. *)
Theorem memmove_spec dst src n m :
  0 ≤ dst → dst + n < W32 → 0 ≤ src → src + n < W32 → 0 ≤ n →
  runs (memmove dst src n) m (λ r m', r = dst ∧ filled m m' dst n (λ i, load8 m (src + i))).
Proof. apply memmove_filled. Qed.

Lemma memmove_spec_witness :
  let m := store8 101 7 (store8 100 5 ∅) in
  runs (memmove 101 100 2) m (λ r m', r = 101 ∧ filled m m' 101 2 (λ i, load8 m (100 + i))).
Proof. intros m. apply (memmove_spec 101 100 2 m); unfold W32; lia. Defined.
