(* ===== verification/Vmm.v ===== *)
(** * Virtual memory

    kern/vmm: the two-level page tables of the processes (MPTIntro, MPTOp), their
    initialisation (MPTComm, MPTKern, MPTInit) and the operations that map pages
    (MPTKern, MPTNew).  The page directories, the identity page table and the
    page tables are all in the memory of [Mem]; the processor walks them there. *)

From S2P Require Import Prelude Spinlock Pmmap MAT Container Mem.

(** The addresses the linker gives to static arrays of the kernel.  The two arrays
    of MPTIntro.c are page-aligned ([gcc_aligned(PAGESIZE)]), in the kernel's part
    of the memory (the kernel is linked below [VM_USERLO]), and disjoint.
    [proc_kstack] (kern/lib/kstack.c) holds the kernel stacks of the processes,
    [sys_buf] (kern/trap/TSyscall) the buffers of the system calls, which lie
    between neither of the other two. *)
Class KernelLayout : Type := {
  PDirPool_addr : Z;
  IDPTbl_addr : Z;
  proc_kstack_addr : Z;
  sys_buf_addr : Z;
  PDirPool_aligned : PDirPool_addr mod PAGESIZE = 0;
  IDPTbl_aligned : IDPTbl_addr mod PAGESIZE = 0;
  PDirPool_low : 0 < PDirPool_addr ∧ PDirPool_addr + NUM_IDS * PAGESIZE ≤ VM_USERLO;
  IDPTbl_low : 0 < IDPTbl_addr ∧ IDPTbl_addr + 1024 * PAGESIZE ≤ VM_USERLO;
  layout_disjoint :
    PDirPool_addr + NUM_IDS * PAGESIZE ≤ IDPTbl_addr ∨
    IDPTbl_addr + 1024 * PAGESIZE ≤ PDirPool_addr;
  sys_buf_low : 0 < sys_buf_addr ∧ sys_buf_addr + NUM_IDS * PAGESIZE ≤ VM_USERLO;
  sys_buf_disjoint :
    (sys_buf_addr + NUM_IDS * PAGESIZE ≤ IDPTbl_addr ∨
     IDPTbl_addr + 1024 * PAGESIZE ≤ sys_buf_addr) ∧
    (sys_buf_addr + NUM_IDS * PAGESIZE ≤ PDirPool_addr ∨
     PDirPool_addr + NUM_IDS * PAGESIZE ≤ sys_buf_addr);
}.

Definition PTE_P : Z := 1.
Definition PTE_W : Z := 2.
Definition PTE_U : Z := 4.
Definition PTE_G : Z := 256.
Definition PT_PERM_PTU : Z := 7.           (* PTE_P | PTE_W | PTE_U *)
Definition MagicNumber : Z := 1048577.
Definition VM_USERLO_PDE : Z := 256.       (* VM_USERLO / PDIRSIZE *)
Definition VM_USERHI_PDE : Z := 960.       (* VM_USERHI / PDIRSIZE *)

(** [CR0_PE | CR0_PG | CR0_AM | CR0_WP | CR0_NE | CR0_MP] and [CR0_EM | CR0_TS]. *)
Definition CR0_PG : Z := 2147483648.
Definition CR0_ON : Z := 1 + CR0_PG + 262144 + 65536 + 32 + 2.
Definition CR0_OFF : Z := 4 + 8.
Definition CR4_PGE : Z := 128.

Definition ADDR_MASK (x : Z) : Z := Z.land x 4294963200.       (* 0xfffff000 *)
Definition PDE_ADDR (x : Z) : Z := Z.shiftr x 22.
Definition PTE_ADDR (x : Z) : Z := Z.land (Z.shiftr x 12) 1023.

(** The control registers are per processor; this is the state of one. *)
Record vmm := {
  v_cont : cont;
  mem : memory;
  CR0 : Z;
  CR3 : Z;
  CR4 : Z;
}.

Definition set_v_cont (v : cont) (s : vmm) : vmm :=
  {| v_cont := v; mem := mem s; CR0 := CR0 s; CR3 := CR3 s; CR4 := CR4 s |}.
Definition set_mem (v : memory) (s : vmm) : vmm :=
  {| v_cont := v_cont s; mem := v; CR0 := CR0 s; CR3 := CR3 s; CR4 := CR4 s |}.
Definition set_CR0 (v : Z) (s : vmm) : vmm :=
  {| v_cont := v_cont s; mem := mem s; CR0 := v; CR3 := CR3 s; CR4 := CR4 s |}.
Definition set_CR3 (v : Z) (s : vmm) : vmm :=
  {| v_cont := v_cont s; mem := mem s; CR0 := CR0 s; CR3 := v; CR4 := CR4 s |}.
Definition set_CR4 (v : Z) (s : vmm) : vmm :=
  {| v_cont := v_cont s; mem := mem s; CR0 := CR0 s; CR3 := CR3 s; CR4 := v |}.

#[global] Program Instance vmm_cont_lens : Lens vmm cont :=
  {| lget := v_cont; lset := set_v_cont |}.
Next Obligation. done. Qed.
Next Obligation. by intros []. Qed.
Next Obligation. done. Qed.

#[global] Program Instance vmm_mem_lens : Lens vmm memory :=
  {| lget := mem; lset := set_mem |}.
Next Obligation. done. Qed.
Next Obligation. by intros []. Qed.
Next Obligation. done. Qed.

Section ops.
Context `{KEnv, KernelLayout}.

(** ** MPTIntro *)

(** The address of [PDirPool[proc_index][pde_index]]; an index outside the array
    is undefined. *)
Definition PDirPool (proc_index pde_index : Z) : Z :=
  PDirPool_addr + (proc_index * 1024 + pde_index) * 4.
Definition IDPTbl (pde_index pte_index : Z) : Z :=
  IDPTbl_addr + (pde_index * 1024 + pte_index) * 4.

Definition pdir_load (proc_index pde_index : Z) : M vmm Z := λ s,
  if inb NUM_IDS proc_index && inb 1024 pde_index
  then Ret (load32 (mem s) (PDirPool proc_index pde_index), s) else Fault.
Definition pdir_store (proc_index pde_index v : Z) : M vmm unit := λ s,
  if inb NUM_IDS proc_index && inb 1024 pde_index
  then Ret (tt, set_mem (store32 (PDirPool proc_index pde_index) v (mem s)) s) else Fault.

(** [p[i]] for an [unsigned int *p]. *)
Definition ptr_load (p i : Z) : M vmm Z := gets (λ s, load32 (mem s) (u32 (p + 4 * i))).
Definition ptr_store (p i v : Z) : M vmm unit :=
  modify (λ s, set_mem (store32 (u32 (p + 4 * i)) v (mem s)) s).

Definition set_pdir_base (index : Z) : M vmm unit :=
  if inb NUM_IDS index then modify (set_CR3 (PDirPool index 0)) else fault.

Definition get_pdir_entry (proc_index pde_index : Z) : M vmm Z :=
  pdir_load proc_index pde_index.

Definition set_pdir_entry (proc_index pde_index page_index : Z) : M vmm unit :=
  let addr := u32 (Z.shiftl page_index 12) in
  pdir_store proc_index pde_index (Z.lor addr PT_PERM_PTU).

Definition set_pdir_entry_identity (proc_index pde_index : Z) : M vmm unit :=
  if inb 1024 pde_index then
    let addr := IDPTbl pde_index 0 in
    pdir_store proc_index pde_index (Z.lor addr PT_PERM_PTU)
  else fault.

Definition rmv_pdir_entry (proc_index pde_index : Z) : M vmm unit :=
  pdir_store proc_index pde_index 0.

Definition get_ptbl_entry (proc_index pde_index pte_index : Z) : M vmm Z :=
  let! e := pdir_load proc_index pde_index in
  let pt := ADDR_MASK e in
  ptr_load pt pte_index.

Definition set_ptbl_entry (proc_index pde_index pte_index page_index perm : Z) : M vmm unit :=
  let! e := pdir_load proc_index pde_index in
  let pt := ADDR_MASK e in
  ptr_store pt pte_index (Z.lor (u32 (Z.shiftl page_index 12)) perm).

Definition set_ptbl_entry_identity (pde_index pte_index perm : Z) : M vmm unit :=
  let addr := Z.lor (u32 (Z.shiftl pde_index 22)) (u32 (Z.shiftl pte_index 12)) in
  if inb 1024 pde_index && inb 1024 pte_index
  then modify (λ s, set_mem (store32 (IDPTbl pde_index pte_index) (Z.lor addr perm) (mem s)) s)
  else fault.

Definition rmv_ptbl_entry (proc_index pde_index pte_index : Z) : M vmm unit :=
  let! e := pdir_load proc_index pde_index in
  let pt := ADDR_MASK e in
  ptr_store pt pte_index 0.

(** ** MPTOp *)

Definition get_ptbl_entry_by_va (proc_index vaddr : Z) : M vmm Z :=
  let pde_index := PDE_ADDR vaddr in
  let! e := get_pdir_entry proc_index pde_index in
  if negb (e =? 0) then get_ptbl_entry proc_index pde_index (PTE_ADDR vaddr) else ret 0.

Definition get_pdir_entry_by_va (proc_index vaddr : Z) : M vmm Z :=
  get_pdir_entry proc_index (PDE_ADDR vaddr).

Definition rmv_ptbl_entry_by_va (proc_index vaddr : Z) : M vmm unit :=
  let pde_index := PDE_ADDR vaddr in
  let! e := get_pdir_entry proc_index pde_index in
  when (negb (e =? 0)) (rmv_ptbl_entry proc_index pde_index (PTE_ADDR vaddr)).

Definition rmv_pdir_entry_by_va (proc_index vaddr : Z) : M vmm unit :=
  rmv_pdir_entry proc_index (PDE_ADDR vaddr).

Definition set_ptbl_entry_by_va (proc_index vaddr page_index perm : Z) : M vmm unit :=
  set_ptbl_entry proc_index (PDE_ADDR vaddr) (PTE_ADDR vaddr) page_index perm.

Definition set_pdir_entry_by_va (proc_index vaddr page_index : Z) : M vmm unit :=
  set_pdir_entry proc_index (PDE_ADDR vaddr) page_index.

Definition idptbl_init (mbi : list mboot_mmap) : M vmm unit :=
  zoom (container_init mbi) ;;;
  for_ 0 1024 (λ pde_index,
    let perm := if (pde_index <? VM_USERLO_PDE) || (VM_USERHI_PDE <=? pde_index)
                then Z.lor (Z.lor PTE_P PTE_W) PTE_G else Z.lor PTE_P PTE_W in
    for_ 0 1024 (λ pte_index, set_ptbl_entry_identity pde_index pte_index perm)).

(** ** MPTComm *)

Definition pdir_init (mbi : list mboot_mmap) : M vmm unit :=
  idptbl_init mbi ;;;
  for_ 0 NUM_IDS (λ proc_index,
    for_ 0 1024 (λ pde_index,
      if (pde_index <? VM_USERLO_PDE) || (VM_USERHI_PDE <=? pde_index)
      then set_pdir_entry_identity proc_index pde_index
      else rmv_pdir_entry proc_index pde_index)).

Definition alloc_ptbl (proc_index vaddr : Z) : M vmm Z :=
  let! page_index := zoom (container_alloc proc_index) in
  let pde_index := PDE_ADDR vaddr in
  if page_index =? 0 then ret 0
  else
    set_pdir_entry_by_va proc_index vaddr page_index ;;;
    for_ 0 1024 (λ pte_index, rmv_ptbl_entry proc_index pde_index pte_index) ;;;
    ret page_index.

Definition free_ptbl (proc_index vaddr : Z) : M vmm unit :=
  let! e := get_pdir_entry_by_va proc_index vaddr in
  let page_index := Z.shiftr e 12 in
  rmv_pdir_entry proc_index (PDE_ADDR vaddr) ;;;
  zoom (container_free proc_index page_index).

(** ** MPTKern *)

Definition pdir_init_kern (mbi : list mboot_mmap) : M vmm unit :=
  pdir_init mbi ;;;
  for_ VM_USERLO_PDE VM_USERHI_PDE (λ pde_index, set_pdir_entry_identity 0 pde_index).

Definition map_page (proc_index vaddr page_index perm : Z) : M vmm Z :=
  let! pde_entry := get_pdir_entry_by_va proc_index vaddr in
  let! pde_page_index :=
    (if pde_entry =? 0 then alloc_ptbl proc_index vaddr else ret (Z.shiftr pde_entry 12)) in
  if (pde_entry =? 0) && (pde_page_index =? 0) then ret MagicNumber
  else
    set_ptbl_entry_by_va proc_index vaddr page_index perm ;;;
    ret pde_page_index.

Definition unmap_page (proc_index vaddr : Z) : M vmm Z :=
  let! pte_entry := get_ptbl_entry_by_va proc_index vaddr in
  when (negb (pte_entry =? 0)) (rmv_ptbl_entry_by_va proc_index vaddr) ;;;
  ret pte_entry.

(** ** MPTNew *)

Definition alloc_page (proc_index vaddr perm : Z) : M vmm Z :=
  let! page_index := zoom (container_alloc proc_index) in
  if negb (page_index =? 0) then map_page proc_index vaddr page_index perm
  else ret MagicNumber.

Definition alloc_mem_quota (id quota : Z) : M vmm Z := zoom (container_split id quota).

(** ** MPTInit *)

(** kern/dev/mboot.c *)
Definition enable_paging : M vmm unit :=
  let! cr4 := gets CR4 in
  modify (set_CR4 (Z.lor cr4 CR4_PGE)) ;;;
  let! cr0 := gets CR0 in
  let cr0 := Z.lor cr0 CR0_ON in
  let cr0 := Z.land cr0 (Z.lnot CR0_OFF) in
  modify (set_CR0 cr0).

Definition paging_init (mbi : list mboot_mmap) : M vmm unit :=
  pdir_init_kern mbi ;;;
  set_pdir_base 0 ;;;
  enable_paging.

Definition paging_init_ap : M vmm unit :=
  set_pdir_base 0 ;;;
  enable_paging.

End ops.
