(* ===== verification/Isolation.v ===== *)
(** * Isolation of the address spaces

    The invariant of the page tables ([vmm_ok]): every page table and every page
    of user memory is a page of its own, allocated, in the user range; the
    kernel's part of every address space is the identity map without user access.
    The operations of [Vmm] keep it, and so do stores by user code through the
    processor's page walk. *)

From S2P Require Import Prelude Spinlock Pmmap MAT Container Mem Vmm.

Ltac unfold_vm :=
  unfold VM_USERLO_PDE, VM_USERHI_PDE, PT_PERM_PTU, PTE_P, PTE_W, PTE_U, PTE_G in *; unfold_cont.

(** ** Entries *)

Lemma lor_pow2 n a b : 0 ≤ n → 0 ≤ b < 2 ^ n → Z.lor (a * 2 ^ n) b = a * 2 ^ n + b.
Proof.
  intros Hn Hb. symmetry. apply Z.bits_inj'.
  assert (Z.land (a * 2 ^ n) b = 0) as Hl.
  { destruct (decide (b = 0)) as [->|]; [apply Z.land_0_r|].
    apply Z.bits_inj'. intros i Hi. rewrite Z.land_spec, Z.bits_0.
    destruct (decide (i < n)).
    - by rewrite Z.mul_pow2_bits_low.
    - rewrite (Z.bits_above_log2 b i); [apply andb_false_r|lia|].
      apply Z.log2_lt_pow2; [lia|]. apply Z.lt_le_trans with (2 ^ n); [lia|].
      apply Z.pow_le_mono_r; lia. }
  intros i Hi. by rewrite Z.add_nocarry_lxor, <- Z.lxor_lor.
Qed.

Lemma lor_low a b : 0 ≤ b < 4096 → Z.lor (a * 4096) b = a * 4096 + b.
Proof. apply (lor_pow2 12). lia. Qed.

Lemma entry_eq pg perm :
  0 ≤ pg < AT_LEN → 0 ≤ perm < 4096 → Z.lor (u32 (Z.shiftl pg 12)) perm = pg * 4096 + perm.
Proof.
  intros Hpg Hperm. rewrite Z.shiftl_mul_pow2 by lia. change (2 ^ 12) with 4096.
  rewrite u32_small by (unfold_consts; lia). by apply lor_low.
Qed.

Lemma ADDR_MASK_entry pg perm :
  0 ≤ pg < AT_LEN → 0 ≤ perm < 4096 → ADDR_MASK (pg * 4096 + perm) = pg * 4096.
Proof.
  intros Hpg Hperm. unfold ADDR_MASK. change 4294963200 with (Z.shiftl (Z.ones 20) 12).
  assert (pg * 4096 = Z.shiftl pg 12) as E by (rewrite Z.shiftl_mul_pow2 by lia; done).
  rewrite <- lor_low, E, Z.land_lor_distr_l by done.
  rewrite <- Z.shiftl_land, Z.land_ones by lia. rewrite Z.mod_small by (unfold_consts; lia).
  assert (Z.land perm (Z.shiftl (Z.ones 20) 12) = 0) as ->; [|by rewrite Z.lor_0_r].
  apply Z.bits_inj'. intros n Hn. rewrite Z.land_spec, Z.bits_0.
  destruct (decide (n < 12)).
  - by rewrite Z.shiftl_spec_low, andb_false_r by lia.
  - rewrite (Z.bits_above_log2 perm n); [done|lia|].
    destruct (decide (perm = 0)) as [->|]; [simpl; lia|].
    apply Z.log2_lt_pow2; [lia|]. apply Z.lt_le_trans with (2 ^ 12); [lia|].
    apply Z.pow_le_mono_r; lia.
Qed.

Lemma entry_page pg perm : 0 ≤ perm < 4096 → Z.shiftr (pg * 4096 + perm) 12 = pg.
Proof. intros. rewrite Z.shiftr_div_pow2 by lia. change (2 ^ 12) with 4096. divlia. Qed.

Lemma PDE_ADDR_div va : PDE_ADDR va = va / 4194304.
Proof. unfold PDE_ADDR. by rewrite Z.shiftr_div_pow2 by lia. Qed.

Lemma PTE_ADDR_mod va : PTE_ADDR va = (va / 4096) mod 1024.
Proof.
  unfold PTE_ADDR. change 1023 with (Z.ones 10).
  rewrite Z.land_ones, Z.shiftr_div_pow2 by lia. done.
Qed.

(** ** The page tables as the code sees them *)

Section view.
Context `{KernelLayout}.

Definition pde (s : vmm) (p k : Z) : Z := load32 (mem s) (PDirPool p k).

(** The page table entry, 0 when there is no table. *)
Definition pte (s : vmm) (p k j : Z) : Z :=
  if pde s p k =? 0 then 0 else load32 (mem s) (ADDR_MASK (pde s p k) + 4 * j).

(** The uses of a page: the table for directory entry [k] of process [p], or the
    memory behind entry [j] of that table. *)
Inductive page_use :=
| Tbl (p k : Z)
| Data (p k j : Z).

Definition user_pde (p k : Z) : Prop :=
  1 ≤ p < NUM_IDS ∧ VM_USERLO_PDE ≤ k < VM_USERHI_PDE.

Definition use_wf (u : page_use) : Prop :=
  match u with
  | Tbl p k => user_pde p k
  | Data p k j => user_pde p k ∧ 0 ≤ j < 1024
  end.

(** The physical page behind a use. *)
Definition frame (s : vmm) (u : page_use) : option Z :=
  match u with
  | Tbl p k => if pde s p k =? 0 then None else Some (pde s p k / 4096)
  | Data p k j => if pte s p k j =? 0 then None else Some (pte s p k j / 4096)
  end.

(** The permissions in the identity page table: no user access. *)
Definition id_perm (k : Z) : Z :=
  if (k <? VM_USERLO_PDE) || (VM_USERHI_PDE <=? k)
  then Z.lor (Z.lor PTE_P PTE_W) PTE_G else Z.lor PTE_P PTE_W.

Definition id_pte (k j : Z) : Z := (k * 1024 + j) * 4096 + id_perm k.

Definition in_use (s : vmm) (f : Z) : Prop :=
  VM_USERLO_PI ≤ f < VM_USERHI_PI ∧ allocated (AT (c_mat (v_cont s)) !!! f) ≠ 0.

Record vmm_ok (s : vmm) : Prop := {
  vo_cont : cont_ok (v_cont s);
  vo_kern : ∀ p k, 0 ≤ p < NUM_IDS → 0 ≤ k < 1024 → ¬ user_pde p k →
    pde s p k = IDPTbl k 0 + PT_PERM_PTU;
  vo_idpt : ∀ k j, 0 ≤ k < 1024 → 0 ≤ j < 1024 → load32 (mem s) (IDPTbl k j) = id_pte k j;
  vo_pde : ∀ p k, user_pde p k → pde s p k ≠ 0 → (pde s p k) mod 4096 = PT_PERM_PTU;
  vo_owned : ∀ u f, use_wf u → frame s u = Some f → in_use s f;
  vo_inj : ∀ u u' f, use_wf u → use_wf u' → frame s u = Some f → frame s u' = Some f → u = u';
}.

(** A page that is allocated but not used yet. *)
Definition fresh (s : vmm) (f : Z) : Prop :=
  in_use s f ∧ ∀ u, use_wf u → frame s u ≠ Some f.

(** *** Where the entries are *)

Lemma PDirPool_range p k :
  0 ≤ p < NUM_IDS → 0 ≤ k < 1024 →
  PDirPool_addr ≤ PDirPool p k ∧ PDirPool p k + 4 ≤ PDirPool_addr + NUM_IDS * PAGESIZE.
Proof. intros. unfold PDirPool. unfold_vm. lia. Qed.

Lemma IDPTbl_range k j :
  0 ≤ k < 1024 → 0 ≤ j < 1024 →
  IDPTbl_addr ≤ IDPTbl k j ∧ IDPTbl k j + 4 ≤ IDPTbl_addr + 1024 * PAGESIZE.
Proof. intros. unfold IDPTbl. unfold_vm. lia. Qed.

(** The identity page tables as page numbers. *)
Lemma IDPTbl_page k :
  0 ≤ k < 1024 →
  ∃ pg, 0 ≤ pg < VM_USERLO_PI ∧ IDPTbl k 0 = pg * 4096 ∧ pg * 4096 = IDPTbl_addr + k * 4096.
Proof.
  intros Hk. pose proof IDPTbl_aligned as Ha. pose proof IDPTbl_low as Hl.
  exists (IDPTbl_addr / 4096 + k). unfold IDPTbl. unfold_vm. divlia.
Qed.

(** Two memories that differ in page [f] at most. *)
Definition agree_off (f : Z) (m m' : memory) : Prop :=
  ∀ a, 0 ≤ a < W32 → a / 4096 ≠ f → load8 m' a = load8 m a.

Lemma agree_off_store f j v m :
  0 ≤ f < AT_LEN → 0 ≤ j < 1024 → agree_off f m (store32 (f * 4096 + 4 * j) v m).
Proof.
  intros Hf Hj a Ha Hn. apply load8_store32_ne; try (unfold_vm; lia).
  intros Hc. apply Hn. divlia.
Qed.

Lemma agree_off_trans f m1 m2 m3 :
  agree_off f m1 m2 → agree_off f m2 m3 → agree_off f m1 m3.
Proof. intros E1 E2 a Ha Hn. by rewrite E2, E1. Qed.

Lemma agree_load32 f m m' a :
  agree_off f m m' → 0 ≤ a → a + 4 ≤ W32 → a mod 4 = 0 → a / 4096 ≠ f →
  load32 m' a = load32 m a.
Proof.
  intros E Ha Ha' Hm Hn. apply load32_ext. intros i Hi. apply E; [lia|].
  assert ((a + i) / 4096 = a / 4096) as -> by divlia. done.
Qed.

(** The static arrays are not in a user page. *)
Lemma agree_pde s s' f p k :
  VM_USERLO_PI ≤ f → agree_off f (mem s) (mem s') → 0 ≤ p < NUM_IDS → 0 ≤ k < 1024 →
  pde s' p k = pde s p k.
Proof.
  intros Hf E Hp Hk. pose proof (PDirPool_range p k Hp Hk). pose proof PDirPool_low.
  pose proof PDirPool_aligned. unfold pde.
  apply (agree_load32 f); [done|..]; unfold PDirPool in *; unfold_vm; try lia; divlia.
Qed.

Lemma agree_idpt s s' f k j :
  VM_USERLO_PI ≤ f → agree_off f (mem s) (mem s') → 0 ≤ k < 1024 → 0 ≤ j < 1024 →
  load32 (mem s') (IDPTbl k j) = load32 (mem s) (IDPTbl k j).
Proof.
  intros Hf E Hk Hj. pose proof (IDPTbl_range k j Hk Hj). pose proof IDPTbl_low.
  pose proof IDPTbl_aligned.
  apply (agree_load32 f); [done|..]; unfold IDPTbl in *; unfold_vm; try lia; divlia.
Qed.

End view.

(** ** Reading the tables *)

Section tables.
Context `{KernelLayout}.
Implicit Types (s : vmm).

Lemma user_pde_range p k : user_pde p k → 0 ≤ p < NUM_IDS ∧ 0 ≤ k < 1024.
Proof. unfold user_pde. unfold_vm. lia. Qed.

#[global] Instance user_pde_dec p k : Decision (user_pde p k).
Proof. unfold user_pde. apply _. Defined.

(** The table behind a directory entry of the user range. *)
Lemma user_table s p k :
  vmm_ok s → user_pde p k → pde s p k ≠ 0 →
  ∃ pg, frame s (Tbl p k) = Some pg ∧ in_use s pg ∧ pde s p k = pg * 4096 + PT_PERM_PTU ∧
        ADDR_MASK (pde s p k) = pg * 4096 ∧ 0 ≤ pg < AT_LEN ∧
        ∀ j, pte s p k j = load32 (mem s) (pg * 4096 + 4 * j).
Proof.
  intros Hok Hu Hne. set (pg := pde s p k / 4096).
  assert (frame s (Tbl p k) = Some pg) as Hf by (simpl; by rewrite (proj2 (Z.eqb_neq _ _) Hne)).
  pose proof (vo_owned s Hok (Tbl p k) _ Hu Hf) as Hin.
  pose proof (vo_pde s Hok p k Hu Hne) as Hm.
  assert (pde s p k = pg * 4096 + PT_PERM_PTU) as E by (unfold pg; divlia).
  assert (0 ≤ pg < AT_LEN) as Hpg by (destruct Hin; unfold_vm; lia).
  assert (ADDR_MASK (pde s p k) = pg * 4096) as Ha
    by (rewrite E; apply ADDR_MASK_entry; [done|unfold_vm; lia]).
  exists pg. split_and!; try done; try lia. intros j. unfold pte. rewrite Ha.
  by rewrite (proj2 (Z.eqb_neq _ _) Hne).
Qed.

(** The kernel's part of every address space, and all of process 0's. *)
Lemma kern_pte s p k j :
  vmm_ok s → 0 ≤ p < NUM_IDS → 0 ≤ k < 1024 → ¬ user_pde p k → 0 ≤ j < 1024 →
  pte s p k j = id_pte k j.
Proof.
  intros Hok Hp Hk Hu Hj. pose proof (vo_kern s Hok p k Hp Hk Hu) as E.
  destruct (IDPTbl_page k Hk) as (pg & Hpg & Epg & _). unfold pte. rewrite E, Epg.
  rewrite (proj2 (Z.eqb_neq _ _)) by (unfold_vm; lia).
  rewrite ADDR_MASK_entry by (unfold_vm; lia). rewrite <- Epg.
  assert (IDPTbl k 0 + 4 * j = IDPTbl k j) as -> by (unfold IDPTbl; lia).
  by apply vo_idpt.
Qed.

(** ** Keeping the invariant *)

Lemma fresh_not_table s f p k pg :
  fresh s f → user_pde p k → frame s (Tbl p k) = Some pg → pg ≠ f.
Proof. intros [_ Hf] Hu E ->. by apply (Hf (Tbl p k)). Qed.

(** A change after which every use has the page it had, except that [u0] may
    have got the fresh page [f0]. *)
Lemma vmm_ok_change s s' u0 f0 :
  vmm_ok s → cont_ok (v_cont s') →
  (∀ f, in_use s f → in_use s' f) →
  (∀ p k, 0 ≤ p < NUM_IDS → 0 ≤ k < 1024 → ¬ user_pde p k → pde s' p k = pde s p k) →
  (∀ k j, 0 ≤ k < 1024 → 0 ≤ j < 1024 →
     load32 (mem s') (IDPTbl k j) = load32 (mem s) (IDPTbl k j)) →
  (∀ p k, user_pde p k → pde s' p k ≠ 0 → (pde s' p k) mod 4096 = PT_PERM_PTU) →
  (∀ u f, use_wf u → frame s' u = Some f →
     frame s u = Some f ∨ u = u0 ∧ f = f0 ∧ fresh s f0) →
  vmm_ok s'.
Proof.
  intros Hok Hc Hin Hk Hid Hp Hfr. constructor; try done.
  - intros p k ? ? ?. rewrite Hk by done. by apply vo_kern.
  - intros k j ? ?. rewrite Hid by done. by apply vo_idpt.
  - intros u f Hu Hf. apply Hin. destruct (Hfr u f Hu Hf) as [Hf'|(_ & -> & [? _])]; [|done].
    by eapply vo_owned.
  - intros u u' f Hu Hu' Hf Hf'.
    destruct (Hfr u f Hu Hf) as [E|(E1 & E2 & [_ Hn])],
      (Hfr u' f Hu' Hf') as [E'|(E1' & E2' & [_ Hn'])]; [by eapply vo_inj|..|congruence].
    + subst. by destruct (Hn' u Hu).
    + subst. by destruct (Hn u' Hu').
Qed.

(** Entries after a store to entry [j0] of the table of [p0], [k0]. *)
Lemma pte_store s p0 k0 j0 pg v s' :
  vmm_ok s → user_pde p0 k0 → 0 ≤ j0 < 1024 → frame s (Tbl p0 k0) = Some pg →
  is_u32 v → mem s' = store32 (pg * 4096 + 4 * j0) v (mem s) →
  (∀ p k, 0 ≤ p < NUM_IDS → 0 ≤ k < 1024 → pde s' p k = pde s p k) ∧
  (∀ k j, 0 ≤ k < 1024 → 0 ≤ j < 1024 →
     load32 (mem s') (IDPTbl k j) = load32 (mem s) (IDPTbl k j)) ∧
  (∀ p k j, user_pde p k → 0 ≤ j < 1024 →
     pte s' p k j = if bool_decide ((p, k, j) = (p0, k0, j0)) then v else pte s p k j).
Proof.
  intros Hok Hu0 Hj0 Hpg Hv Hm. pose proof (vo_owned s Hok (Tbl p0 k0) _ Hu0 Hpg) as [Hr _].
  assert (agree_off pg (mem s) (mem s')) as Ha
    by (rewrite Hm; apply agree_off_store; [unfold_vm; lia|done]).
  assert (∀ p k, 0 ≤ p < NUM_IDS → 0 ≤ k < 1024 → pde s' p k = pde s p k) as Hpde
    by (intros; apply (agree_pde s s' pg); [lia|done..]).
  split_and!; [done|intros; apply (agree_idpt s s' pg); [lia|done..]|].
  intros p k j Hu Hj. destruct (user_pde_range p k Hu) as [Hp Hk].
  destruct (decide (pde s p k = 0)) as [Hz|Hz].
  - unfold pte. rewrite Hpde, Hz by done. simpl. case_bool_decide as E; [|done].
    injection E as -> -> ->. simpl in Hpg. by rewrite Hz in Hpg.
  - destruct (user_table s p k Hok Hu Hz) as (pg' & Hf' & [Hr' _] & _ & Hmask & _ & ->).
    unfold pte. rewrite Hpde, (proj2 (Z.eqb_neq _ _) Hz), Hmask, Hm by done.
    case_bool_decide as E.
    + injection E as -> -> ->. assert (pg' = pg) as -> by congruence.
      apply load32_store32_eq; [unfold_vm; lia..|done].
    + apply load32_store32_ne; try (unfold_vm; lia).
      destruct (decide (pg' = pg)) as [->|]; [|unfold_vm; lia].
      pose proof (vo_inj s Hok (Tbl p k) (Tbl p0 k0) _ Hu Hu0 Hf' Hpg) as Eu. injection Eu as -> ->.
      assert (j ≠ j0) by congruence. unfold_vm; lia.
Qed.

End tables.

(** ** The operations *)

Section operations.
Context `{KEnv, KernelLayout}.
Hypothesis Hmagic : ks_magic = KSTACK_MAGIC.
Implicit Types (s : vmm).

(** The entries of all address spaces are as before, but for one. *)
Definition pte_set (p k j v : Z) (s s' : vmm) : Prop :=
  ∀ p' k' j', 0 ≤ p' < NUM_IDS → 0 ≤ k' < 1024 → 0 ≤ j' < 1024 →
    pte s' p' k' j' = if bool_decide ((p', k', j') = (p, k, j)) then v else pte s p' k' j'.

Definition pte_same (s s' : vmm) : Prop :=
  ∀ p k j, 0 ≤ p < NUM_IDS → 0 ≤ k < 1024 → 0 ≤ j < 1024 → pte s' p k j = pte s p k j.

Lemma pdir_load_run p k s :
  0 ≤ p < NUM_IDS → 0 ≤ k < 1024 → pdir_load p k s = Ret (pde s p k, s).
Proof. intros Hp Hk. unfold pdir_load. by rewrite !inb_true_2. Qed.

Lemma pdir_store_run p k v s :
  0 ≤ p < NUM_IDS → 0 ≤ k < 1024 →
  pdir_store p k v s = Ret (tt, set_mem (store32 (PDirPool p k) v (mem s)) s).
Proof. intros Hp Hk. unfold pdir_store. by rewrite !inb_true_2. Qed.

Lemma ptr_store_run pg j v s :
  0 ≤ pg < AT_LEN → 0 ≤ j < 1024 →
  ptr_store (pg * 4096) j v s = Ret (tt, set_mem (store32 (pg * 4096 + 4 * j) v (mem s)) s).
Proof. intros. unfold ptr_store, modify. rewrite u32_small; [done|]. unfold_vm. lia. Qed.

Lemma get_ptbl_entry_by_va_run p va s :
  vmm_ok s → 0 ≤ p < NUM_IDS → 0 ≤ va < W32 →
  get_ptbl_entry_by_va p va s = Ret (pte s p (PDE_ADDR va) (PTE_ADDR va), s).
Proof.
  intros Hok Hp Hva. unfold get_ptbl_entry_by_va, get_pdir_entry, get_ptbl_entry, pte.
  assert (0 ≤ PDE_ADDR va < 1024) as Hk by (rewrite PDE_ADDR_div; unfold_vm; divlia).
  assert (0 ≤ PTE_ADDR va < 1024) as Hj by (rewrite PTE_ADDR_mod; divlia).
  kstep (pdir_load_run _ _ _ Hp Hk).
  destruct (Z.eqb_spec (pde s p (PDE_ADDR va)) 0); [done|]. simpl.
  kstep (pdir_load_run _ _ _ Hp Hk). unfold ptr_load, gets. rewrite u32_small; [done|].
  destruct (decide (user_pde p (PDE_ADDR va))) as [Hu|Hu].
  - destruct (user_table s _ _ Hok Hu) as (pg & _ & _ & _ & -> & Hpg & _); [done|].
    unfold_vm. lia.
  - rewrite (vo_kern s Hok _ _ Hp Hk Hu). destruct (IDPTbl_page _ Hk) as (pg & Hpg & -> & _).
    rewrite ADDR_MASK_entry by (unfold_vm; lia). unfold_vm. lia.
Qed.

(** Memory changes in the page directories and in the tables of process [p] only. *)
Definition tables_only (p : Z) (s s' : vmm) : Prop := ∀ a, 0 ≤ a < W32 →
  load8 (mem s') a = load8 (mem s) a ∨
  PDirPool_addr ≤ a < PDirPool_addr + NUM_IDS * PAGESIZE ∨
  ∃ k, user_pde p k ∧ frame s' (Tbl p k) = Some (a / 4096).

Lemma tables_only_same p s s' : mem s' = mem s → tables_only p s s'.
Proof. intros E a _. left. by rewrite E. Qed.

Lemma tables_only_trans p s s1 s' :
  tables_only p s s1 → tables_only p s1 s' →
  (∀ k, user_pde p k → pde s1 p k ≠ 0 → pde s' p k = pde s1 p k) → tables_only p s s'.
Proof.
  intros H1 H2 Hk a Ha. destruct (H2 a Ha) as [->|?]; [|by right].
  destruct (H1 a Ha) as [->|[?|(k & Hu & Hf)]]; [by left|by right; left|].
  right. right. exists k. split; [done|]. simpl in *.
  destruct (Z.eqb_spec (pde s1 p k) 0); [done|]. rewrite Hk by done.
  by rewrite (proj2 (Z.eqb_neq _ _)).
Qed.

Lemma tables_only_store p k j pg v s :
  user_pde p k → 0 ≤ j < 1024 → 0 ≤ pg < AT_LEN →
  let s' := set_mem (store32 (pg * 4096 + 4 * j) v (mem s)) s in
  frame s' (Tbl p k) = Some pg → tables_only p s s'.
Proof.
  intros Hu Hj Hpg s' Hf a Ha. destruct (decide (a / 4096 = pg)) as [E|E].
  - right. right. exists k. by rewrite E.
  - left. by apply (agree_off_store pg).
Qed.

(** A store of 0 or of a fresh page to an entry of an existing table. *)
Lemma table_store_ok s p k j pg v s' f perm :
  vmm_ok s → user_pde p k → 0 ≤ j < 1024 → frame s (Tbl p k) = Some pg →
  (v = 0 ∨ v = f * 4096 + perm ∧ fresh s f ∧ 0 ≤ perm < 4096) →
  s' = set_mem (store32 (pg * 4096 + 4 * j) v (mem s)) s →
  vmm_ok s' ∧ pte_set p k j v s s' ∧
  (∀ p' k', 0 ≤ p' < NUM_IDS → 0 ≤ k' < 1024 → pde s' p' k' = pde s p' k').
Proof.
  intros Hok Hu Hj Hpg Hv ->. set (s' := set_mem _ s).
  assert (is_u32 v) as Hv32.
  { unfold is_u32. destruct Hv as [->|(-> & [[Hf _] _] & ?)]; unfold_vm; lia. }
  destruct (pte_store s p k j pg v s') as (Hpde & Hid & Hpte); [done..|].
  assert (vmm_ok s') as Hok'.
  { apply (vmm_ok_change s s' (Data p k j) f); try done; try apply Hok.
    - intros. by apply Hpde.
    - intros p' k' Hu'. destruct (user_pde_range _ _ Hu'). rewrite Hpde by done.
      by apply vo_pde.
    - intros [p' k'|p' k' j'] f' Hw; simpl.
      + destruct (user_pde_range _ _ Hw). rewrite Hpde by done. by left.
      + destruct Hw as [Hu' Hj']. rewrite Hpte by done. case_bool_decide as E; [|by left].
        injection E as -> -> ->. destruct Hv as [->|(-> & Hf & Hp)]; [done|].
        destruct Hf as [[Hr Ha] Hn].
        rewrite (proj2 (Z.eqb_neq _ _)) by (unfold_vm; lia). intros [= <-].
        right. split; [done|]. split; [divlia|done]. }
  split; [done|]. split; [|done]. intros p' k' j' Hp' Hk' Hj'.
  destruct (decide (user_pde p' k')) as [Hu'|Hu']; [by apply Hpte|].
  rewrite !kern_pte by done. case_bool_decide as E; [|done]. by injection E as -> -> ->.
Qed.

Lemma set_ptbl_entry_runs p k j f perm s :
  vmm_ok s → user_pde p k → 0 ≤ j < 1024 → pde s p k ≠ 0 → fresh s f → 0 ≤ perm < 4096 →
  runs (set_ptbl_entry p k j f perm) s (λ _ s',
    vmm_ok s' ∧ v_cont s' = v_cont s ∧ pte_set p k j (f * 4096 + perm) s s' ∧
    tables_only p s s' ∧
    (∀ p' k', 0 ≤ p' < NUM_IDS → 0 ≤ k' < 1024 → pde s' p' k' = pde s p' k')).
Proof.
  intros Hok Hu Hj Hne Hf Hperm. destruct (user_pde_range _ _ Hu) as [Hp Hk].
  destruct (user_table s p k Hok Hu Hne) as (pg & Hpg & _ & _ & Hmask & Hr & _).
  unfold set_ptbl_entry. eapply runs_bind_eq; [by apply pdir_load_run|]. cbv zeta. rewrite Hmask.
  eapply runs_of_eq; [by apply ptr_store_run|].
  rewrite entry_eq by (try done; destruct Hf as [[? _] _]; unfold_vm; lia).
  destruct (table_store_ok s p k j pg (f * 4096 + perm)
    (set_mem (store32 (pg * 4096 + 4 * j) (f * 4096 + perm) (mem s)) s) f perm) as (?&?&Hpd);
    try done; [by right|]. split_and!; try done.
  apply (tables_only_store p k); try done. simpl in Hpg |- *. by rewrite Hpd.
Qed.

(** [rmv_ptbl_entry] clears an entry. *)
Lemma rmv_ptbl_entry_runs p k j s :
  vmm_ok s → user_pde p k → 0 ≤ j < 1024 → pde s p k ≠ 0 →
  runs (rmv_ptbl_entry p k j) s (λ _ s',
    vmm_ok s' ∧ v_cont s' = v_cont s ∧ pte_set p k j 0 s s').
Proof.
  intros Hok Hu Hj Hne. destruct (user_pde_range _ _ Hu) as [Hp Hk].
  destruct (user_table s p k Hok Hu Hne) as (pg & Hpg & _ & _ & Hmask & Hr & _).
  unfold rmv_ptbl_entry. eapply runs_bind_eq; [by apply pdir_load_run|]. cbv zeta. rewrite Hmask.
  eapply runs_of_eq; [by apply ptr_store_run|].
  destruct (table_store_ok s p k j pg 0
    (set_mem (store32 (pg * 4096 + 4 * j) 0 (mem s)) s) 0 0) as (?&?&?); try done; by left.
Qed.

(** *** Allocation *)

Lemma in_use_mono s s' p c f :
  op_post p c (after_palloc f (c_mat (v_cont s))) (v_cont s) (v_cont s') →
  ∀ g, in_use s g → in_use s' g.
Proof.
  intros (Em & _) g [Hr Ha]. split; [done|]. rewrite Em. simpl.
  rewrite lookup_total_insert_dec. by case_bool_decide.
Qed.

(** Nothing but the containers changes. *)
Lemma vmm_ok_cont s s' :
  vmm_ok s → mem s' = mem s → cont_ok (v_cont s') → (∀ g, in_use s g → in_use s' g) → vmm_ok s'.
Proof.
  intros Hok Hm Hc Hin.
  assert (∀ u, frame s' u = frame s u) as Hf by (intros []; simpl; unfold pte, pde; by rewrite Hm).
  apply (vmm_ok_change s s' (Tbl 0 0) 0); try done; unfold pde; rewrite ?Hm; try done.
  - intros p k Hu. by apply vo_pde.
  - intros u f _. rewrite Hf. by left.
Qed.

(** [container_alloc] as the page tables see it. *)
Definition vm_alloc_post (p : Z) (s : vmm) (f : Z) (s' : vmm) : Prop :=
  vmm_ok s' ∧ mem s' = mem s ∧ (∀ g, fresh s g → fresh s' g ∧ g ≠ f) ∧
  if usage (ctr (v_cont s) p) <? quota (ctr (v_cont s) p)
  then fresh s' f ∧ alloc_post p (v_cont s) f (v_cont s')
  else f = 0 ∧ op_post p (ctr (v_cont s) p) (c_mat (v_cont s)) (v_cont s) (v_cont s').

Lemma vm_alloc_runs p s :
  vmm_ok s → 0 ≤ p < NUM_IDS → runs (zoom (container_alloc p)) s (vm_alloc_post p s).
Proof.
  intros Hok Hp. apply runs_zoom. pose proof (vo_cont s Hok) as Hc.
  pose proof (co_bound _ Hc p Hp) as Hb. unfold vm_alloc_post.
  destruct (Z.ltb_spec (usage (ctr (v_cont s) p)) (quota (ctr (v_cont s) p))) as [Hlt|Hge].
  - eapply runs_mono; [by apply container_alloc_runs|]. intros f c [Hpost Hc'].
    set (s' := lset c s). pose proof Hpost as (Hfree & Hr & Hop).
    pose proof (in_use_mono s s' _ _ _ Hop) as Hin.
    assert (allocated (AT (c_mat (v_cont s)) !!! f) = 0) as Ha.
    { apply andb_true_iff in Hfree as [_ ?%Z.eqb_eq]. done. }
    split; [by apply (vmm_ok_cont s)|]. split; [done|]. split.
    + intros g [Hg Hn]. split; [split; [by apply Hin|done]|]. intros ->. by destruct Hg.
    + split; [|done]. split.
      * split; [done|]. destruct Hop as (Em & _). simpl. rewrite Em. simpl.
        by rewrite lookup_total_insert_eq.
      * intros u Hu Hf. by destruct (vo_owned s Hok u f Hu Hf).
  - change (lget s) with (v_cont s). eapply runs_mono.
    { apply runs_and; [apply container_alloc_over|apply cont_alloc_ok]; try done; lia. }
    intros f c [[-> Hop] Hc']. set (s' := lset c s).
    assert (∀ g, in_use s g → in_use s' g) as Hin.
    { intros g [? ?]. split; [done|]. destruct Hop as (Em & _). simpl. by rewrite Em. }
    split; [by apply (vmm_ok_cont s)|]. split; [done|]. split; [|done].
    intros g [Hg Hn]. split; [split; [by apply Hin|done]|]. destruct Hg. unfold_vm. lia.
Qed.

(** A cleared fresh page registered as a table. *)
Lemma new_table_ok s s' p k f :
  vmm_ok s → user_pde p k → pde s p k = 0 → fresh s f → v_cont s' = v_cont s →
  pde s' p k = f * 4096 + PT_PERM_PTU →
  (∀ a, 0 ≤ a < W32 → a / 4096 ≠ f → ¬ (PDirPool p k ≤ a < PDirPool p k + 4) →
     load8 (mem s') a = load8 (mem s) a) →
  (∀ j, 0 ≤ j < 1024 → load32 (mem s') (f * 4096 + 4 * j) = 0) →
  vmm_ok s' ∧ pte_same s s' ∧ (∀ g, fresh s g → g ≠ f → fresh s' g) ∧
  (∀ p' k', 0 ≤ p' < NUM_IDS → 0 ≤ k' < 1024 → (p', k') ≠ (p, k) → pde s' p' k' = pde s p' k').
Proof.
  intros Hok Hu Hz [[Hr Ha] Hn] Hc Hpde Hmem Hzero.
  destruct (user_pde_range _ _ Hu) as [Hp Hk].
  pose proof (PDirPool_range p k Hp Hk) as Hpr. pose proof PDirPool_low as Hpl.
  pose proof PDirPool_aligned as Hpa. pose proof IDPTbl_aligned as Hia.
  assert (∀ a, 0 ≤ a → a + 4 ≤ W32 → a mod 4 = 0 → a / 4096 ≠ f →
    (a + 4 ≤ PDirPool p k ∨ PDirPool p k + 4 ≤ a) → load32 (mem s') a = load32 (mem s) a) as Hw.
  { intros a ? ? ? ? ?. apply load32_ext. intros i Hi. apply Hmem; [lia| |lia].
    assert ((a + i) / 4096 = a / 4096) as -> by divlia. done. }
  assert (∀ p' k', 0 ≤ p' < NUM_IDS → 0 ≤ k' < 1024 → (p', k') ≠ (p, k) →
    pde s' p' k' = pde s p' k') as Hpde'.
  { intros p' k' Hp' Hk' Hne. pose proof (PDirPool_range p' k' Hp' Hk').
    apply Hw; unfold PDirPool in *; unfold_vm; try lia; try divlia.
    assert (p' * 1024 + k' ≠ p * 1024 + k); [|lia]. intros E. apply Hne. f_equal; lia. }
  assert (∀ k' j', 0 ≤ k' < 1024 → 0 ≤ j' < 1024 →
    load32 (mem s') (IDPTbl k' j') = load32 (mem s) (IDPTbl k' j')) as Hid.
  { intros k' j' Hk' Hj'. pose proof (IDPTbl_range k' j' Hk' Hj'). pose proof IDPTbl_low.
    pose proof layout_disjoint.
    apply Hw; unfold IDPTbl in *; unfold_vm; try lia; divlia. }
  assert (∀ j, 0 ≤ j < 1024 → pte s' p k j = 0) as Hnew.
  { intros j Hj. unfold pte. destruct (_ =? _); [done|]. rewrite Hpde.
    rewrite ADDR_MASK_entry by (unfold_vm; lia). by apply Hzero. }
  assert (∀ p' k' j', user_pde p' k' → 0 ≤ j' < 1024 → pte s' p' k' j' = pte s p' k' j') as Hpte.
  { intros p' k' j' Hu' Hj'. destruct (user_pde_range _ _ Hu').
    destruct (decide ((p', k') = (p, k))) as [E|E].
    - injection E as -> ->. rewrite Hnew by done. unfold pte. by rewrite Hz.
    - destruct (decide (pde s p' k' = 0)) as [E0|E0].
      + unfold pte. by rewrite Hpde', E0 by done.
      + destruct (user_table s p' k' Hok Hu' E0) as (pg & Hf & [Hr' _] & Epde & Hmask & Hb & ->).
        unfold pte. rewrite Hpde', (proj2 (Z.eqb_neq _ _) E0), Hmask by done.
        assert (pg ≠ f) by (intros ->; by apply (Hn (Tbl p' k'))).
        apply Hw; unfold_vm; try lia; divlia. }
  assert (∀ u g, use_wf u → frame s' u = Some g →
    frame s u = Some g ∨ u = Tbl p k ∧ g = f ∧ fresh s f) as Hfr.
  { intros [p' k'|p' k' j'] g Hw'; simpl.
    - destruct (user_pde_range p' k' Hw'). destruct (decide ((p', k') = (p, k))) as [E|E].
      + injection E as -> ->. rewrite Hpde, (proj2 (Z.eqb_neq _ _)) by (unfold_vm; lia).
        intros [= <-]. right. split; [done|]. split; [unfold_vm; divlia|done].
      + rewrite Hpde' by done. by left.
    - destruct Hw'. rewrite Hpte by done. by left. }
  assert (vmm_ok s') as Hok'.
  { apply (vmm_ok_change s s' (Tbl p k) f); try done.
    - rewrite Hc. apply Hok.
    - intros g [? ?]. split; [done|by rewrite Hc].
    - intros p' k' ? ? ?. apply Hpde'; [done..|]. by intros [= -> ->].
    - intros p' k' Hu'. destruct (user_pde_range p' k' Hu').
      destruct (decide ((p', k') = (p, k))) as [E|E].
      + injection E as -> ->. intros _. rewrite Hpde. unfold_vm. divlia.
      + rewrite Hpde' by done. by apply vo_pde. }
  split_and!; try done.
  - intros p' k' j' Hp' Hk' Hj'. destruct (decide (user_pde p' k')); [by apply Hpte|].
    by rewrite !kern_pte.
  - intros g [[? ?] Hgn] Hgf. split; [split; [done|by rewrite Hc]|].
    intros u Hw' E. destruct (Hfr u g Hw' E) as [E'|(_ & ? & _)]; [|done]. by apply (Hgn u).
Qed.

(** *** alloc_ptbl *)

(** The table under construction: registered, cleared below [i]. *)
Definition clearing (p k f : Z) (s : vmm) (i : Z) (t : vmm) : Prop :=
  v_cont t = v_cont s ∧ pde t p k = f * 4096 + PT_PERM_PTU ∧
  (∀ a, 0 ≤ a < W32 → a / 4096 ≠ f → ¬ (PDirPool p k ≤ a < PDirPool p k + 4) →
     load8 (mem t) a = load8 (mem s) a) ∧
  (∀ j, 0 ≤ j < i → load32 (mem t) (f * 4096 + 4 * j) = 0).

Lemma clearing_step p k f s i t :
  user_pde p k → VM_USERLO_PI ≤ f < VM_USERHI_PI → 0 ≤ i < 1024 → clearing p k f s i t →
  runs (rmv_ptbl_entry p k i) t (λ _, clearing p k f s (i + 1)).
Proof.
  intros Hu Hf Hi (Hc & Hpde & Hm & Hz). destruct (user_pde_range _ _ Hu) as [Hp Hk].
  unfold rmv_ptbl_entry. eapply runs_bind_eq; [by apply pdir_load_run|]. cbv zeta.
  rewrite Hpde, ADDR_MASK_entry by (unfold_vm; lia).
  eapply runs_of_eq; [apply ptr_store_run; unfold_vm; lia|]. set (t' := set_mem _ t).
  assert (agree_off f (mem t) (mem t')) as Ha by (apply agree_off_store; unfold_vm; lia).
  split; [done|]. split; [|split].
  - rewrite <- Hpde. by apply (agree_pde t t' f); [unfold_vm; lia|..].
  - intros a Hr Hn Hno. rewrite Ha by done. by apply Hm.
  - intros j Hj. simpl. destruct (decide (j = i)) as [->|Hne].
    + apply load32_store32_eq; unfold_vm; lia.
    + rewrite load32_store32_ne by (unfold_vm; lia). apply Hz. lia.
Qed.

Lemma clearing_start p k f s :
  user_pde p k → VM_USERLO_PI ≤ f < VM_USERHI_PI →
  clearing p k f s 0 (set_mem (store32 (PDirPool p k) (f * 4096 + PT_PERM_PTU) (mem s)) s).
Proof.
  intros Hu Hf. destruct (user_pde_range _ _ Hu) as [Hp Hk].
  pose proof (PDirPool_range p k Hp Hk). pose proof PDirPool_low.
  split; [done|]. split; [|split].
  - unfold pde. simpl. apply load32_store32_eq; unfold_vm; lia.
  - intros a Hr Hn Hno. simpl. apply load8_store32_ne; unfold_vm; try lia.
  - lia.
Qed.

Definition alloc_ptbl_post (p k : Z) (s : vmm) (r : Z) (s' : vmm) : Prop :=
  vmm_ok s' ∧ pte_same s s' ∧ (∀ g, fresh s g → fresh s' g) ∧
  tables_only p s s' ∧
  if usage (ctr (v_cont s) p) <? quota (ctr (v_cont s) p)
  then r ≠ 0 ∧ pde s' p k = r * 4096 + PT_PERM_PTU ∧ alloc_post p (v_cont s) r (v_cont s')
  else r = 0 ∧ op_post p (ctr (v_cont s) p) (c_mat (v_cont s)) (v_cont s) (v_cont s').

Lemma alloc_ptbl_runs p va s :
  vmm_ok s → user_pde p (PDE_ADDR va) → pde s p (PDE_ADDR va) = 0 →
  runs (alloc_ptbl p va) s (alloc_ptbl_post p (PDE_ADDR va) s).
Proof.
  intros Hok Hu Hz. destruct (user_pde_range _ _ Hu) as [Hp Hk]. unfold alloc_ptbl.
  eapply runs_bind_mono; [by apply vm_alloc_runs|].
  intros f s1 (Hok1 & Hm1 & Hfr & Hcase). cbv zeta. unfold alloc_ptbl_post.
  destruct (_ <? _) eqn:E.
  - destruct Hcase as [Hf Halloc]. pose proof Hf as [[Hr _] _].
    rewrite (proj2 (Z.eqb_neq _ _)) by (unfold_vm; lia).
    unfold set_pdir_entry_by_va, set_pdir_entry. eapply runs_bind_eq; [by apply pdir_store_run|].
    rewrite entry_eq by (unfold_vm; lia). set (s2 := set_mem _ s1).
    eapply runs_bind_mono.
    { apply (for_runs (clearing p (PDE_ADDR va) f s1)); [lia|by apply clearing_start|].
      intros j t Hj Ht. by apply clearing_step. }
    intros [] s' (Hc & Hpde & Hm & Hzero). apply runs_ret.
    assert (pde s1 p (PDE_ADDR va) = 0) as Hz1 by (unfold pde; by rewrite Hm1).
    destruct (new_table_ok s1 s' p (PDE_ADDR va) f) as (Hok' & Hsame & Hfresh & _); try done.
    split; [done|]. split.
    { intros p' k' j' ? ? ?. rewrite Hsame by done. unfold pte, pde. by rewrite Hm1. }
    split; [intros g Hg; destruct (Hfr g Hg); by apply Hfresh|].
    split; [|split; [unfold_vm; lia|]; by rewrite Hc].
    intros a Ha. destruct (decide (a / 4096 = f)) as [Ef|Ef].
    { right. right. exists (PDE_ADDR va). split; [done|]. simpl. rewrite Hpde, Ef.
      rewrite (proj2 (Z.eqb_neq _ _)) by (unfold_vm; lia). f_equal. unfold_vm. divlia. }
    pose proof (PDirPool_range p (PDE_ADDR va) Hp Hk).
    destruct (decide (PDirPool p (PDE_ADDR va) ≤ a < PDirPool p (PDE_ADDR va) + 4)) as [Ei|Ei].
    { right. left. lia. }
    left. rewrite Hm by done. by rewrite Hm1.
  - destruct Hcase as [-> Hop]. simpl. apply runs_ret. split; [done|].
    split; [intros p' k' j' ? ? ?; unfold pte, pde; by rewrite Hm1|].
    split; [intros g Hg; by destruct (Hfr g Hg)|]. split; [by apply tables_only_same|done].
Qed.

(** *** map_page and alloc_page *)

(** The pages that mapping an address needs: one more when its table is missing. *)
Definition tables_needed (s : vmm) (p k : Z) : Z := if pde s p k =? 0 then 1 else 0.

Definition others_same (p : Z) (s s' : vmm) : Prop :=
  ∀ q, q ≠ p → ctr (v_cont s') q = ctr (v_cont s) q.

(** What a call charges to process [p]. *)
Definition charged (p n : Z) (s s' : vmm) : Prop :=
  ctr (v_cont s') p = set_usage (usage (ctr (v_cont s) p) + n) (ctr (v_cont s) p) ∧
  others_same p s s'.

Lemma op_post_charged p n c m s s' :
  op_post p c m (v_cont s) (v_cont s') →
  c = set_usage (usage (ctr (v_cont s) p) + n) (ctr (v_cont s) p) → charged p n s s'.
Proof.
  intros (_ & Hc & _) ->. split; [by rewrite Hc, bool_decide_true|].
  intros q Hq. by rewrite Hc, bool_decide_false.
Qed.

Lemma charged_trans p n n' s s1 s' :
  charged p n s s1 → charged p n' s1 s' → charged p (n + n') s s'.
Proof.
  intros [E1 O1] [E2 O2]. split; [rewrite E2, E1; simpl; unfold set_usage; f_equal; simpl; lia|].
  intros q Hq. by rewrite O2, O1.
Qed.

Lemma charged_0 p s s' : v_cont s' = v_cont s → charged p 0 s s'.
Proof.
  intros E. split; [|intros q _; by rewrite E]. rewrite E, Z.add_0_r.
  by destruct (ctr (v_cont s) p).
Qed.

Definition map_page_post (p k j f perm : Z) (s : vmm) (r : Z) (s' : vmm) : Prop :=
  vmm_ok s' ∧ tables_only p s s' ∧
  if tables_needed s p k <=? avail (ctr (v_cont s) p)
  then pte_set p k j (f * 4096 + perm) s s' ∧ 0 ≤ r < AT_LEN ∧
       pde s' p k = r * 4096 + PT_PERM_PTU ∧ charged p (tables_needed s p k) s s'
  else r = MagicNumber ∧ pte_same s s' ∧ charged p 0 s s'.

Lemma map_page_runs p va f perm s :
  vmm_ok s → user_pde p (PDE_ADDR va) → fresh s f → 0 ≤ perm < 4096 →
  runs (map_page p va f perm) s (map_page_post p (PDE_ADDR va) (PTE_ADDR va) f perm s).
Proof.
  intros Hok Hu Hf Hperm. destruct (user_pde_range _ _ Hu) as [Hp Hk].
  assert (0 ≤ PTE_ADDR va < 1024) as Hj by (rewrite PTE_ADDR_mod; divlia).
  pose proof (co_bound _ (vo_cont s Hok) p Hp) as Hb.
  unfold map_page, get_pdir_entry_by_va, get_pdir_entry.
  eapply runs_bind_eq; [by apply pdir_load_run|]. unfold map_page_post, tables_needed, avail.
  destruct (Z.eqb_spec (pde s p (PDE_ADDR va)) 0) as [Hz|Hz].
  - eapply runs_bind_mono; [by apply alloc_ptbl_runs|].
    intros r s1 (Hok1 & Hsame & Hfr & Htab & Hcase).
    destruct (Z.ltb_spec (usage (ctr (v_cont s) p)) (quota (ctr (v_cont s) p))).
    + destruct Hcase as (Hr & Hpde & Hal). rewrite (proj2 (Z.eqb_neq _ _) Hr). simpl.
      rewrite (proj2 (Z.leb_le _ _)) by lia. destruct Hal as (_ & Hrr & Hop).
      eapply runs_bind_mono; [apply (set_ptbl_entry_runs _ _ _ _ _ s1); auto|].
      { rewrite Hpde. unfold_vm. lia. }
      intros [] s' (Hok' & Hc & Hset & Htab' & Hpde'). apply runs_ret.
      split; [done|]. split.
      { apply (tables_only_trans p s s1); [done|done|]. intros k' Hu' _.
        destruct (user_pde_range _ _ Hu'). by apply Hpde'. }
      split; [|split; [unfold_vm; lia|split]].
      * intros p' k' j' ? ? ?. rewrite Hset by done. by rewrite Hsame.
      * by rewrite Hpde'.
      * apply (charged_trans p 1 0 s s1); [|by apply charged_0].
        by eapply op_post_charged.
    + destruct Hcase as (-> & Hop). simpl. rewrite (proj2 (Z.leb_gt _ _)) by lia.
      apply runs_ret. split_and!; try done. eapply op_post_charged; [done|].
      rewrite Z.add_0_r. by destruct (ctr (v_cont s) p).
  - apply runs_bind, runs_ret. simpl. rewrite (proj2 (Z.leb_le _ _)) by lia.
    eapply runs_bind_mono; [by apply set_ptbl_entry_runs|].
    intros [] s' (Hok' & Hc & Hset & Htab & Hpde'). apply runs_ret.
    destruct (user_table s p _ Hok Hu Hz) as (pg & _ & _ & Epg & _ & Hpg & _).
    split; [done|]. split; [done|]. split; [done|]. rewrite Hpde' by done. rewrite Epg, entry_page by (unfold_vm; lia).
    split; [done|]. split; [done|]. by apply charged_0.
Qed.

Definition alloc_page_post (p k j perm : Z) (s : vmm) (r : Z) (s' : vmm) : Prop :=
  vmm_ok s' ∧ tables_only p s s' ∧
  if 1 + tables_needed s p k <=? avail (ctr (v_cont s) p)
  then ∃ f, page_free (c_mat (v_cont s)) f = true ∧ pte_set p k j (f * 4096 + perm) s s' ∧
            0 ≤ r < AT_LEN ∧ pde s' p k = r * 4096 + PT_PERM_PTU ∧
            charged p (1 + tables_needed s p k) s s'
  else r = MagicNumber ∧ pte_same s s' ∧ charged p (avail (ctr (v_cont s) p)) s s'.

Lemma alloc_page_runs p va perm s :
  vmm_ok s → user_pde p (PDE_ADDR va) → 0 ≤ perm < 4096 →
  runs (alloc_page p va perm) s (alloc_page_post p (PDE_ADDR va) (PTE_ADDR va) perm s).
Proof.
  intros Hok Hu Hperm. destruct (user_pde_range _ _ Hu) as [Hp Hk].
  pose proof (co_bound _ (vo_cont s Hok) p Hp) as Hb. unfold alloc_page, alloc_page_post.
  eapply runs_bind_mono; [by apply vm_alloc_runs|].
  intros f s1 (Hok1 & Hm1 & Hfr & Hcase).
  assert (pte_same s s1) as Hsame by (intros ? ? ? ? ? ?; unfold pte, pde; by rewrite Hm1).
  assert (tables_needed s1 p (PDE_ADDR va) = tables_needed s p (PDE_ADDR va)) as Htn
    by (unfold tables_needed, pde; by rewrite Hm1).
  assert (0 ≤ tables_needed s p (PDE_ADDR va) ≤ 1) as Ht01
    by (unfold tables_needed; destruct (_ =? _); lia).
  destruct (Z.ltb_spec (usage (ctr (v_cont s) p)) (quota (ctr (v_cont s) p))).
  - destruct Hcase as [Hf (Hfree & Hr & Hop)].
    rewrite (proj2 (Z.eqb_neq f 0)) by (unfold_vm; lia). simpl.
    assert (charged p 1 s s1) as Hch by (by eapply op_post_charged).
    assert (avail (ctr (v_cont s1) p) = avail (ctr (v_cont s) p) - 1) as Hav.
    { destruct Hch as [-> _]. unfold avail. simpl. lia. }
    eapply runs_mono; [by apply map_page_runs|]. intros r s' (Hok' & Htab & Hpost). split; [done|].
    split; [intros a Ha; rewrite <- Hm1; by apply Htab|].
    rewrite Htn, Hav in Hpost.
    destruct (Z.leb_spec (tables_needed s p (PDE_ADDR va)) (avail (ctr (v_cont s) p) - 1)).
    + rewrite (proj2 (Z.leb_le _ _)) by lia. destruct Hpost as (Hset & Hr' & Hpde & Hch').
      exists f. split_and!; try done; try lia.
      * intros ? ? ? ? ? ?. rewrite Hset by done. by rewrite Hsame.
      * by apply (charged_trans p 1 _ s s1).
    + rewrite (proj2 (Z.leb_gt _ _)) by lia. destruct Hpost as (-> & Hs' & Hch').
      split; [done|]. split; [intros ? ? ? ? ? ?; by rewrite Hs', Hsame|].
      assert (avail (ctr (v_cont s) p) = 1 + 0) as -> by (unfold avail in *; lia).
      by apply (charged_trans p 1 0 s s1).
  - destruct Hcase as [-> Hop]. simpl. rewrite (proj2 (Z.leb_gt _ _)) by (unfold avail; lia).
    apply runs_ret. split_and!; try done; [by apply tables_only_same|].
    eapply op_post_charged; [done|].
    assert (avail (ctr (v_cont s) p) = 0) as -> by (unfold avail; lia).
    rewrite Z.add_0_r. by destruct (ctr (v_cont s) p).
Qed.

(** *** unmap_page *)

Definition unmap_page_post (p k j : Z) (s : vmm) (r : Z) (s' : vmm) : Prop :=
  vmm_ok s' ∧ r = pte s p k j ∧ v_cont s' = v_cont s ∧ pte_set p k j 0 s s'.

Lemma unmap_page_runs p va s :
  vmm_ok s → user_pde p (PDE_ADDR va) → 0 ≤ va < W32 →
  runs (unmap_page p va) s (unmap_page_post p (PDE_ADDR va) (PTE_ADDR va) s).
Proof.
  intros Hok Hu Hva. destruct (user_pde_range _ _ Hu) as [Hp Hk].
  assert (0 ≤ PTE_ADDR va < 1024) as Hj by (rewrite PTE_ADDR_mod; divlia).
  unfold unmap_page. eapply runs_bind_eq; [by apply get_ptbl_entry_by_va_run|].
  set (e := pte s p (PDE_ADDR va) (PTE_ADDR va)).
  destruct (Z.eqb_spec e 0) as [He|He]; simpl when.
  - apply runs_bind, runs_ret, runs_ret. split_and!; try done. intros p' k' j' ? ? ?.
    case_bool_decide as E; [|done]. by injection E as -> -> ->.
  - assert (pde s p (PDE_ADDR va) ≠ 0) as Hne.
    { intros Hz. apply He. unfold e, pte. by rewrite Hz. }
    eapply runs_bind_mono.
    { unfold rmv_ptbl_entry_by_va, get_pdir_entry.
      eapply runs_bind_eq; [by apply pdir_load_run|].
      rewrite (proj2 (Z.eqb_neq _ _) Hne). simpl. by apply rmv_ptbl_entry_runs. }
    intros [] s' (Hok' & Hc & Hset). apply runs_ret. done.
Qed.

End operations.
