(* ===== verification/Mmu.v ===== *)
(** * The page walk of the processor, and isolation

    The address translation of user-mode accesses, the initialisation of the page
    tables, and the main theorems on address spaces: through every sequence of
    kernel operations and user stores no two processes reach a common page, and
    no user store reaches a page table or the kernel. *)

From S2P Require Import Prelude Spinlock Pmmap MAT Container Mem Vmm Isolation.

(** ** User-mode accesses *)

(** Present, user, and writable when the access is a store. *)
Definition access (write : bool) (e : Z) : bool :=
  Z.testbit e 0 && Z.testbit e 2 && (negb write || Z.testbit e 1).

(** The two-level walk from a page directory; [None] is a page fault. *)
Definition mmu (m : memory) (cr3 va : Z) (write : bool) : option Z :=
  let e := load32 m (cr3 + 4 * PDE_ADDR va) in
  if access write e then
    let e' := load32 m (ADDR_MASK e + 4 * PTE_ADDR va) in
    if access write e' then Some (ADDR_MASK e' + va mod 4096) else None
  else None.

Definition user_store (cr3 va v : Z) (s : vmm) : option vmm :=
  match mmu (mem s) cr3 va true with
  | Some pa => Some (set_mem (store8 pa v (mem s)) s)
  | None => None
  end.

Definition user_load (m : memory) (cr3 va : Z) : option Z :=
  load8 m <$> mmu m cr3 va false.

Section walk.
Context `{KernelLayout}.
Implicit Types (s : vmm).

(** The page directory base of process [p]. *)
Definition pdir_base (p : Z) : Z := PDirPool p 0.

Lemma ADDR_MASK_div e : 0 ≤ e < W32 → ADDR_MASK e = e / 4096 * 4096.
Proof.
  intros He. assert (e = e / 4096 * 4096 + e mod 4096) as E by divlia.
  rewrite E at 1. apply ADDR_MASK_entry; unfold_vm; divlia.
Qed.

Lemma pte_range s p k j : 0 ≤ pte s p k j < W32.
Proof. unfold pte. destruct (_ =? _); [unfold_vm; lia|auto with kern]. Qed.

(** The permissions are in the low bits of an entry. *)
Lemma access_low w pg perm : 0 ≤ perm < 4096 → access w (pg * 4096 + perm) = access w perm.
Proof.
  intros Hp. unfold access. change 4096 with (2 ^ 12) in *. rewrite <- lor_pow2 by lia.
  by rewrite !Z.lor_spec, !Z.mul_pow2_bits_low by lia.
Qed.

Lemma access_PTU w pg : access w (pg * 4096 + PT_PERM_PTU) = true.
Proof. unfold PT_PERM_PTU. rewrite access_low by lia. by destruct w. Qed.

Lemma access_id w k j : access w (id_pte k j) = false.
Proof.
  unfold access, id_pte. change 4096 with (2 ^ 12).
  assert (0 ≤ id_perm k < 2 ^ 12 ∧ Z.testbit (id_perm k) 2 = false) as [Hr Hb]
    by (unfold id_perm; destruct (_ || _); done).
  rewrite <- lor_pow2 by lia. rewrite (Z.lor_spec _ _ 2), Z.mul_pow2_bits_low, Hb by lia.
  simpl. by rewrite andb_false_r.
Qed.

(** The walk through the tables of a process. *)
Lemma mmu_pte s p va w :
  vmm_ok s → 0 ≤ p < NUM_IDS → 0 ≤ va < W32 →
  mmu (mem s) (pdir_base p) va w =
  if decide (user_pde p (PDE_ADDR va)) then
    let e := pte s p (PDE_ADDR va) (PTE_ADDR va) in
    if access w e then Some (e / 4096 * 4096 + va mod 4096) else None
  else None.
Proof.
  intros Hok Hp Hva. unfold mmu, pdir_base.
  assert (0 ≤ PDE_ADDR va < 1024) as Hk by (rewrite PDE_ADDR_div; unfold_vm; divlia).
  assert (0 ≤ PTE_ADDR va < 1024) as Hj by (rewrite PTE_ADDR_mod; divlia).
  assert (PDirPool p 0 + 4 * PDE_ADDR va = PDirPool p (PDE_ADDR va)) as ->
    by (unfold PDirPool; lia).
  fold (pde s p (PDE_ADDR va)). case_decide as Hu.
  - destruct (decide (pde s p (PDE_ADDR va) = 0)) as [Hz|Hz].
    + unfold pte. rewrite Hz. by destruct w.
    + destruct (user_table s p _ Hok Hu Hz) as (pg & _ & _ & Epg & Hmask & _ & Hpte).
      rewrite Hmask, <- Hpte, Epg, access_PTU. cbv zeta.
      by rewrite (ADDR_MASK_div _ (pte_range s p _ _)).
  - pose proof (kern_pte s p _ _ Hok Hp Hk Hu Hj) as E. unfold pte in E.
    rewrite (vo_kern s Hok p _ Hp Hk Hu) in *. destruct (IDPTbl_page _ Hk) as (pg & Hpg & Eid & _).
    rewrite Eid in *. rewrite (proj2 (Z.eqb_neq _ _)) in E by (unfold_vm; lia).
    by rewrite access_PTU, E, access_id.
Qed.

(** What a user access reaches. *)
Lemma mmu_frame s p va w pa :
  vmm_ok s → 0 ≤ p < NUM_IDS → 0 ≤ va < W32 → mmu (mem s) (pdir_base p) va w = Some pa →
  use_wf (Data p (PDE_ADDR va) (PTE_ADDR va)) ∧
  frame s (Data p (PDE_ADDR va) (PTE_ADDR va)) = Some (pa / 4096) ∧
  in_use s (pa / 4096) ∧ pa mod 4096 = va mod 4096.
Proof.
  intros Hok Hp Hva E. rewrite mmu_pte in E by done.
  assert (0 ≤ PTE_ADDR va < 1024) as Hj by (rewrite PTE_ADDR_mod; divlia).
  case_decide as Hu; [|done]. cbv zeta in E.
  set (e := pte s p (PDE_ADDR va) (PTE_ADDR va)) in *.
  destruct (access w e) eqn:Ha; [|done]. injection E as <-.
  assert (e ≠ 0) as He by (intros Hz; rewrite Hz in Ha; by destruct w).
  assert ((e / 4096 * 4096 + va mod 4096) / 4096 = e / 4096) as -> by divlia.
  assert (frame s (Data p (PDE_ADDR va) (PTE_ADDR va)) = Some (e / 4096)) as Hf.
  { simpl. fold e. by rewrite (proj2 (Z.eqb_neq _ _) He). }
  assert (use_wf (Data p (PDE_ADDR va) (PTE_ADDR va))) as Hw by done.
  split_and!; try done; [by eapply vo_owned|divlia].
Qed.

Lemma mmu_same s s' p va w :
  vmm_ok s → vmm_ok s' → pte_same s s' → 0 ≤ p < NUM_IDS → 0 ≤ va < W32 →
  mmu (mem s') (pdir_base p) va w = mmu (mem s) (pdir_base p) va w.
Proof.
  intros Hok Hok' Hs Hp Hva. rewrite !mmu_pte by done.
  rewrite Hs; [done|done|rewrite PDE_ADDR_div; unfold_vm; divlia|rewrite PTE_ADDR_mod; divlia].
Qed.

(** A change inside one page of user memory leaves all entries alone. *)
Lemma data_change_ok s s' u f :
  vmm_ok s → use_wf u → (∃ p k j, u = Data p k j) → frame s u = Some f →
  v_cont s' = v_cont s → agree_off f (mem s) (mem s') → vmm_ok s' ∧ pte_same s s'.
Proof.
  intros Hok Hw (p0 & k0 & j0 & ->) Hf Hc Ha.
  pose proof (vo_owned s Hok _ _ Hw Hf) as [Hr _].
  assert (∀ p k, 0 ≤ p < NUM_IDS → 0 ≤ k < 1024 → pde s' p k = pde s p k) as Hpde
    by (intros; apply (agree_pde s s' f); [lia|done..]).
  assert (∀ p k j, user_pde p k → 0 ≤ j < 1024 → pte s' p k j = pte s p k j) as Hpte.
  { intros p k j Hu Hj. destruct (user_pde_range _ _ Hu).
    destruct (decide (pde s p k = 0)) as [Hz|Hz]; [unfold pte; by rewrite Hpde, Hz|].
    destruct (user_table s p k Hok Hu Hz) as (pg & Hpg & [Hr' _] & _ & Hmask & _ & ->).
    unfold pte. rewrite Hpde, (proj2 (Z.eqb_neq _ _) Hz), Hmask by done.
    assert (pg ≠ f).
    { intros ->. by pose proof (vo_inj s Hok (Tbl p k) _ _ Hu Hw Hpg Hf). }
    apply (agree_load32 f); [done|..]; unfold_vm; try lia; divlia. }
  assert (vmm_ok s') as Hok'.
  { apply (vmm_ok_change s s' (Tbl 0 0) 0); try done.
    - rewrite Hc. apply Hok.
    - intros g [? ?]. split; [done|by rewrite Hc].
    - intros. by apply Hpde.
    - intros. apply (agree_idpt s s' f); [lia|done..].
    - intros p k Hu. destruct (user_pde_range _ _ Hu). rewrite Hpde by done. by apply vo_pde.
    - intros [p k|p k j] g Hg; simpl.
      + destruct (user_pde_range _ _ Hg). rewrite Hpde by done. by left.
      + destruct Hg. rewrite Hpte by done. by left. }
  split; [done|]. intros p k j Hp Hk Hj.
  destruct (decide (user_pde p k)); [by apply Hpte|]. by rewrite !kern_pte.
Qed.

Lemma agree_off_store8 pa v m :
  0 ≤ pa < W32 → agree_off (pa / 4096) m (store8 pa v m).
Proof.
  intros Hpa a Ha Hn. rewrite load8_store8 by done. rewrite bool_decide_false; [done|].
  by intros ->.
Qed.

Lemma user_store_ok s p va v s' :
  vmm_ok s → 0 ≤ p < NUM_IDS → 0 ≤ va < W32 → user_store (pdir_base p) va v s = Some s' →
  ∃ pa, mmu (mem s) (pdir_base p) va true = Some pa ∧ v_cont s' = v_cont s ∧
        agree_off (pa / 4096) (mem s) (mem s') ∧ vmm_ok s' ∧ pte_same s s'.
Proof.
  intros Hok Hp Hva. unfold user_store.
  destruct (mmu (mem s) (pdir_base p) va true) as [pa|] eqn:E; [|done]. intros [= <-].
  destruct (mmu_frame s p va true pa) as (Hw & Hf & [Hr _] & _); [done..|].
  assert (agree_off (pa / 4096) (mem s) (store8 pa v (mem s))) as Ha
    by (apply agree_off_store8; unfold_vm; divlia).
  exists pa. split; [done|]. split; [done|]. split; [done|].
  eapply data_change_ok; [done|exact Hw|by eauto|exact Hf|done|done].
Qed.

End walk.

#[export] Hint Resolve pte_range : kern.

(** ** Initialisation *)

Section init.
Context `{KEnv, KernelLayout}.
Implicit Types (s : vmm).

(** The first [n] words at [base] have the values [g]. *)
Definition words (m : memory) (base n : Z) (g : Z → Z) : Prop :=
  ∀ i, 0 ≤ i < n → load32 m (base + i * 4) = g i.

Lemma words_snoc m base n g v :
  0 ≤ base → 0 ≤ n → base + n * 4 + 4 ≤ W32 → is_u32 v → words m base n g → g n = v →
  words (store32 (base + n * 4) v m) base (n + 1) g.
Proof.
  intros Hb Hn Hr Hv Hw Hg i Hi. destruct (decide (i = n)) as [->|].
  - rewrite Hg. apply load32_store32_eq; [lia..|done].
  - rewrite load32_store32_ne by lia. apply Hw. lia.
Qed.

Lemma words_off m base n g a v :
  0 ≤ base → 0 ≤ a → a + 4 ≤ W32 → base + n * 4 ≤ W32 →
  (a + 4 ≤ base ∨ base + n * 4 ≤ a) → words m base n g → words (store32 a v m) base n g.
Proof. intros ? ? ? ? ? Hw i Hi. rewrite load32_store32_ne by lia. by apply Hw. Qed.

Definition id_word (i : Z) : Z := id_pte (i / 1024) (i mod 1024).

Lemma id_entry k j :
  0 ≤ k < 1024 → 0 ≤ j < 1024 →
  Z.lor (Z.lor (u32 (Z.shiftl k 22)) (u32 (Z.shiftl j 12))) (id_perm k) = id_pte k j.
Proof.
  intros Hk Hj. rewrite !Z.shiftl_mul_pow2 by lia.
  rewrite !u32_small by (change (2 ^ 22) with 4194304; change (2 ^ 12) with 4096; unfold_vm; lia).
  rewrite (lor_pow2 22) by (change (2 ^ 22) with 4194304; change (2 ^ 12) with 4096; lia).
  replace (k * 2 ^ 22 + j * 2 ^ 12) with ((k * 1024 + j) * 4096)
    by (change (2 ^ 22) with 4194304; change (2 ^ 12) with 4096; lia).
  apply lor_low. unfold id_perm. by destruct (_ || _).
Qed.

Lemma id_pte_range k j : 0 ≤ k < 1024 → 0 ≤ j < 1024 → is_u32 (id_pte k j).
Proof.
  intros. unfold is_u32, id_pte.
  assert (0 ≤ id_perm k < 4096) by (unfold id_perm; by destruct (_ || _)). unfold_vm. lia.
Qed.

Lemma idptbl_step n s :
  0 ≤ n < 1024 * 1024 → words (mem s) IDPTbl_addr n id_word →
  runs (set_ptbl_entry_identity (n / 1024) (n mod 1024) (id_perm (n / 1024))) s
    (λ _ s', words (mem s') IDPTbl_addr (n + 1) id_word ∧ v_cont s' = v_cont s).
Proof.
  intros Hn Hw. unfold set_ptbl_entry_identity. cbv zeta.
  assert (0 ≤ n / 1024 < 1024 ∧ 0 ≤ n mod 1024 < 1024) as [Hk Hj] by divlia.
  rewrite !inb_true_2, id_entry by done. simpl. eapply runs_of_eq; [done|]. simpl.
  split; [|done].
  assert (IDPTbl (n / 1024) (n mod 1024) = IDPTbl_addr + n * 4) as ->
    by (unfold IDPTbl; divlia).
  pose proof IDPTbl_low. apply words_snoc; try done; try (unfold_vm; lia).
  by apply id_pte_range.
Qed.

Lemma idptbl_init_runs mbi s :
  cont_boot (v_cont s) → Z.of_nat (length (low_entries mbi)) ≤ 128 → Forall mmap_wf mbi →
  runs (idptbl_init mbi) s (λ _ s',
    cinit_post mbi (v_cont s') ∧ words (mem s') IDPTbl_addr (1024 * 1024) id_word).
Proof.
  intros Hb Hl Hwf. unfold idptbl_init. eapply (runs_bind_mono _ _ _ (λ _ t, cinit_post mbi (v_cont t))).
  { apply runs_zoom. by apply (container_init_runs mbi (v_cont s)). }
  intros [] s1 Hc.
  eapply runs_mono.
  { apply (for_runs (λ k t, cinit_post mbi (v_cont t) ∧
      words (mem t) IDPTbl_addr (k * 1024) id_word)); [lia|split; [done|intros i Hi; lia]|].
    intros k t Hk [Hct Hwt]. cbv zeta. fold (id_perm k).
    eapply runs_mono.
    { apply (for_runs (λ j t, cinit_post mbi (v_cont t) ∧
        words (mem t) IDPTbl_addr (k * 1024 + j) id_word)); [lia|by rewrite Z.add_0_r|].
      intros j t' Hj [Hct' Hwt'].
      pose proof (idptbl_step (k * 1024 + j) t' ltac:(lia) Hwt') as Hs.
      replace ((k * 1024 + j) / 1024) with k in Hs by divlia.
      replace ((k * 1024 + j) mod 1024) with j in Hs by divlia.
      eapply runs_mono; [exact Hs|]. intros [] t'' [Hw' ->]. split; [done|].
      by replace (k * 1024 + (j + 1)) with (k * 1024 + j + 1) by lia. }
    intros [] t' [? Hw']. split; [done|]. by replace ((k + 1) * 1024) with (k * 1024 + 1024) by lia. }
  done.
Qed.

(** The page directories that [pdir_init] builds. *)
Definition init_pde (i : Z) : Z :=
  let k := i mod 1024 in
  if (k <? VM_USERLO_PDE) || (VM_USERHI_PDE <=? k) then IDPTbl k 0 + PT_PERM_PTU else 0.

Lemma IDPTbl_lor k : 0 ≤ k < 1024 → Z.lor (IDPTbl k 0) PT_PERM_PTU = IDPTbl k 0 + PT_PERM_PTU.
Proof.
  intros Hk. destruct (IDPTbl_page k Hk) as (pg & _ & -> & _). apply lor_low. unfold_vm. lia.
Qed.

Lemma IDPTbl_entry_range k : 0 ≤ k < 1024 → is_u32 (IDPTbl k 0 + PT_PERM_PTU).
Proof.
  intros Hk. pose proof (IDPTbl_range k 0 Hk ltac:(lia)). pose proof IDPTbl_low.
  unfold is_u32. unfold_vm. lia.
Qed.

(** A store to a directory entry keeps the identity table. *)
Lemma pdir_store_words p k v s g :
  0 ≤ p < NUM_IDS → 0 ≤ k < 1024 → is_u32 v →
  words (mem s) PDirPool_addr (p * 1024 + k) g → g (p * 1024 + k) = v →
  words (mem s) IDPTbl_addr (1024 * 1024) id_word →
  runs (pdir_store p k v) s (λ _ s', v_cont s' = v_cont s ∧
    words (mem s') PDirPool_addr (p * 1024 + k + 1) g ∧
    words (mem s') IDPTbl_addr (1024 * 1024) id_word).
Proof.
  intros Hp Hk Hv Hw Hg Hi. eapply runs_of_eq; [by apply pdir_store_run|]. simpl.
  pose proof PDirPool_low. pose proof IDPTbl_low. pose proof layout_disjoint.
  split; [done|]. unfold PDirPool. split.
  - apply words_snoc; try done; unfold_vm; lia.
  - apply words_off; try done; unfold_vm; lia.
Qed.

Lemma pdir_init_step p k s :
  0 ≤ p < NUM_IDS → 0 ≤ k < 1024 →
  words (mem s) PDirPool_addr (p * 1024 + k) init_pde →
  words (mem s) IDPTbl_addr (1024 * 1024) id_word →
  runs (if (k <? VM_USERLO_PDE) || (VM_USERHI_PDE <=? k)
        then set_pdir_entry_identity p k else rmv_pdir_entry p k) s (λ _ s',
    v_cont s' = v_cont s ∧ words (mem s') PDirPool_addr (p * 1024 + k + 1) init_pde ∧
    words (mem s') IDPTbl_addr (1024 * 1024) id_word).
Proof.
  intros Hp Hk Hw Hi.
  assert (init_pde (p * 1024 + k) = if (k <? VM_USERLO_PDE) || (VM_USERHI_PDE <=? k)
    then IDPTbl k 0 + PT_PERM_PTU else 0) as Hg.
  { unfold init_pde. by replace ((p * 1024 + k) mod 1024) with k by divlia. }
  destruct ((k <? VM_USERLO_PDE) || (VM_USERHI_PDE <=? k)).
  - unfold set_pdir_entry_identity. rewrite inb_true_2 by done. cbv zeta. rewrite IDPTbl_lor by done.
    apply pdir_store_words; try done. by apply IDPTbl_entry_range.
  - apply pdir_store_words; done.
Qed.

Lemma pdir_init_runs mbi s :
  cont_boot (v_cont s) → Z.of_nat (length (low_entries mbi)) ≤ 128 → Forall mmap_wf mbi →
  runs (pdir_init mbi) s (λ _ s', cinit_post mbi (v_cont s') ∧
    words (mem s') PDirPool_addr (NUM_IDS * 1024) init_pde ∧
    words (mem s') IDPTbl_addr (1024 * 1024) id_word).
Proof.
  intros Hb Hl Hwf. unfold pdir_init.
  eapply runs_bind_mono; [by apply idptbl_init_runs|]. intros [] s1 [Hc Hw].
  set (inv n t := cinit_post mbi (v_cont t) ∧ words (mem t) PDirPool_addr n init_pde ∧
    words (mem t) IDPTbl_addr (1024 * 1024) id_word).
  apply (for_runs (λ p t, inv (p * 1024) t)); [done|by split_and!; [done|intros i Hi; lia|]|].
  intros p t Hp (Hct & Hpt & Hit). eapply runs_mono.
  { apply (for_runs (λ k t, inv (p * 1024 + k) t)); [done|rewrite Z.add_0_r; done|].
    intros k t' Hk (Hct' & Hpt' & Hit').
    eapply runs_mono; [by apply pdir_init_step|]. intros [] t'' (E & ? & ?).
    unfold inv. rewrite E. by replace (p * 1024 + (k + 1)) with (p * 1024 + k + 1) by lia. }
  intros [] t' Ht. by replace ((p + 1) * 1024) with (p * 1024 + 1024) by lia.
Qed.

(** With process 0's user entries below [i] set to the identity map. *)
Definition kern_pde (i n : Z) : Z :=
  if (VM_USERLO_PDE <=? n) && (n <? i) then IDPTbl n 0 + PT_PERM_PTU else init_pde n.

Lemma kern_step i s :
  VM_USERLO_PDE ≤ i < VM_USERHI_PDE →
  words (mem s) PDirPool_addr (NUM_IDS * 1024) (kern_pde i) →
  words (mem s) IDPTbl_addr (1024 * 1024) id_word →
  runs (set_pdir_entry_identity 0 i) s (λ _ s', v_cont s' = v_cont s ∧
    words (mem s') PDirPool_addr (NUM_IDS * 1024) (kern_pde (i + 1)) ∧
    words (mem s') IDPTbl_addr (1024 * 1024) id_word).
Proof.
  intros Hi Hw Hid. assert (0 ≤ i < 1024) as Hr by (unfold_vm; lia).
  unfold set_pdir_entry_identity. rewrite inb_true_2, IDPTbl_lor by done. cbv zeta.
  eapply runs_of_eq; [by apply pdir_store_run|]. split; [done|]. simpl.
  pose proof PDirPool_low. pose proof IDPTbl_low. pose proof layout_disjoint.
  pose proof (IDPTbl_entry_range i Hr). unfold PDirPool. split.
  - intros n Hn. unfold kern_pde. destruct (decide (n = i)) as [->|Hne].
    + rewrite load32_store32_eq by (try done; unfold_vm; lia).
      by rewrite (proj2 (Z.leb_le _ _)), (proj2 (Z.ltb_lt _ _)) by lia.
    + rewrite load32_store32_ne by (unfold_vm; lia). rewrite Hw by done. unfold kern_pde.
      destruct (Z.ltb_spec n i), (Z.ltb_spec n (i + 1)); try lia; done.
  - apply words_off; try done; unfold_vm; lia.
Qed.

(** The state of the page tables at boot. *)
Lemma boot_tables_ok s :
  cont_ok (v_cont s) → words (mem s) PDirPool_addr (NUM_IDS * 1024) (kern_pde VM_USERHI_PDE) →
  words (mem s) IDPTbl_addr (1024 * 1024) id_word →
  vmm_ok s ∧ (∀ p k j, user_pde p k → pte s p k j = 0).
Proof.
  intros Hc Hw Hid.
  assert (∀ p k, 0 ≤ p < NUM_IDS → 0 ≤ k < 1024 →
    pde s p k = kern_pde VM_USERHI_PDE (p * 1024 + k)) as Hpde.
  { intros p k Hp Hk. unfold pde, PDirPool. apply Hw. unfold_vm. lia. }
  assert (∀ p k, user_pde p k → pde s p k = 0) as Hz.
  { intros p k Hu. destruct (user_pde_range _ _ Hu) as [Hp Hk]. rewrite Hpde by done.
    destruct Hu as [Hp1 Hk1]. unfold kern_pde, init_pde. cbv zeta.
    replace ((p * 1024 + k) mod 1024) with k by divlia.
    rewrite (proj2 (Z.ltb_ge (p * 1024 + k) _)) by (unfold_vm; lia). rewrite andb_false_r.
    by rewrite (proj2 (Z.ltb_ge k _)), (proj2 (Z.leb_gt _ k)) by lia. }
  assert (∀ p k j, user_pde p k → pte s p k j = 0) as Hzz
    by (intros; unfold pte; by rewrite Hz).
  split; [|done]. constructor; try done.
  - intros p k Hp Hk Hu. rewrite Hpde by done. unfold kern_pde, init_pde. cbv zeta.
    replace ((p * 1024 + k) mod 1024) with k by divlia. unfold user_pde in Hu.
    destruct (decide (p = 0)) as [->|].
    + rewrite Z.mul_0_l, Z.add_0_l.
      destruct (Z.leb_spec VM_USERLO_PDE k), (Z.ltb_spec k VM_USERHI_PDE); simpl; try done.
      * by rewrite (proj2 (Z.leb_le _ _)), orb_true_r by lia.
      * by rewrite (proj2 (Z.ltb_lt _ _)) by lia.
      * unfold_vm; lia.
    + rewrite (proj2 (Z.ltb_ge (p * 1024 + k) _)) by (unfold_vm; lia). rewrite andb_false_r.
      destruct (Z.ltb_spec k VM_USERLO_PDE); [done|].
      destruct (Z.leb_spec VM_USERHI_PDE k); [done|]. unfold_vm. lia.
  - intros k j Hk Hj. unfold IDPTbl. rewrite Hid by lia. unfold id_word.
    f_equal; divlia.
  - intros p k Hu Hne. by rewrite Hz in Hne.
  - intros [p k|p k j] f Hw'; simpl; [by rewrite Hz|]. destruct Hw'. by rewrite Hzz.
  - intros [p k|p k j] u' f Hw'; simpl; [by rewrite Hz|]. destruct Hw'. by rewrite Hzz.
Qed.

(** What [paging_init] establishes. *)
Definition paging_post (mbi : list mboot_mmap) (s : vmm) : Prop :=
  vmm_ok s ∧ cinit_post mbi (v_cont s) ∧ (∀ p k j, user_pde p k → pte s p k j = 0) ∧
  CR3 s = pdir_base 0 ∧ Z.testbit (CR0 s) 31 = true.

Lemma enable_paging_PG cr0 : Z.testbit (Z.land (Z.lor cr0 CR0_ON) (Z.lnot CR0_OFF)) 31 = true.
Proof.
  rewrite Z.land_spec, Z.lor_spec, Z.lnot_spec by lia.
  change (Z.testbit CR0_ON 31) with true. change (Z.testbit CR0_OFF 31) with false.
  by rewrite orb_true_r.
Qed.

Lemma paging_init_runs mbi s :
  cont_boot (v_cont s) → Z.of_nat (length (low_entries mbi)) ≤ 128 → Forall mmap_wf mbi →
  runs (paging_init mbi) s (λ _, paging_post mbi).
Proof.
  intros Hb Hl Hwf. unfold paging_init, pdir_init_kern. apply runs_bind.
  eapply runs_bind_mono; [by apply pdir_init_runs|]. intros [] s1 (Hc & Hw & Hid).
  set (inv i t := cinit_post mbi (v_cont t) ∧
    words (mem t) PDirPool_addr (NUM_IDS * 1024) (kern_pde i) ∧
    words (mem t) IDPTbl_addr (1024 * 1024) id_word).
  eapply runs_mono.
  { apply (for_runs inv); [unfold_vm; lia| |].
    - split; [done|]. split; [|done]. intros n Hn. rewrite Hw by done. unfold kern_pde.
      destruct (Z.leb_spec VM_USERLO_PDE n), (Z.ltb_spec n VM_USERLO_PDE); try done; lia.
    - intros i t Hi (Ht & Hwt & Hit). eapply runs_mono; [by apply kern_step|].
      intros [] t' (E & ? & ?). unfold inv. by rewrite E. }
  intros [] s2 (Hc2 & Hw2 & Hid2).
  destruct (boot_tables_ok s2) as [Hok Hz]; [apply Hc2|done..|].
  unfold runs, set_pdir_base. rewrite inb_true_2 by done. simpl.
  split; [|split; [done|split; [done|split; [done|]]]].
  - by destruct Hok; constructor.
  - apply enable_paging_PG.
Qed.

End init.

(** ** Executions *)

Section executions.
Context `{KEnv, KernelLayout}.
Implicit Types (s : vmm).

(** The steps of the system on the address spaces: the kernel maps and unmaps
    pages, gives quota to a new process and switches address spaces; user code
    stores through the current page tables. *)
Inductive vm_step s : vmm → Prop :=
| vs_alloc p va perm r s' :
    user_pde p (PDE_ADDR va) → 0 ≤ perm < 4096 →
    alloc_page p va perm s = Ret (r, s') → vm_step s s'
| vs_unmap p va r s' :
    user_pde p (PDE_ADDR va) → 0 ≤ va < W32 →
    unmap_page p va s = Ret (r, s') → vm_step s s'
| vs_quota id q child s' :
    cont_step (v_cont s) (v_cont s') →
    alloc_mem_quota id q s = Ret (child, s') → vm_step s s'
| vs_switch p s' :
    set_pdir_base p s = Ret (tt, s') → vm_step s s'
| vs_store p va v s' :
    0 ≤ p < NUM_IDS → 0 ≤ va < W32 →
    user_store (pdir_base p) va v s = Some s' → vm_step s s'.

Hypothesis Hmagic : ks_magic = KSTACK_MAGIC.

Lemma set_CR3_ok s v : vmm_ok s → vmm_ok (set_CR3 v s).
Proof. by intros []; constructor. Qed.

Lemma set_pdir_base_ok p s s' : vmm_ok s → set_pdir_base p s = Ret (tt, s') → vmm_ok s'.
Proof.
  intros Hok. unfold set_pdir_base. destruct (inb NUM_IDS p); [|done].
  intros [= <-]. by apply set_CR3_ok.
Qed.

(** A split allocates no page. *)
Lemma split_same_mat id q c child c' :
  container_split id q c = Ret (child, c') → c_mat c' = c_mat c.
Proof.
  unfold container_split, container_lock, container_unlock, cmod, cget, aread, amod, azoom, fzoom.
  unfold bind. destruct (inb NUM_IDS id); [|done].
  destruct (Spinlock.spinlock_acquire _) as [[[] lk]| | |]; [|done..]. simpl.
  destruct (_ <=? _); [by intros [= _ <-]|].
  destruct (inb NUM_IDS _); [|done]. simpl. unfold iadd.
  destruct (_ && _); [|done]. simpl.
  intros [= _ <-]. done.
Qed.

Lemma vm_step_ok s s' : vm_step s s' → vmm_ok s → vmm_ok s'.
Proof.
  intros [p va perm r s1 Hu Hp E|p va r s1 Hu Hva E|id q ch s1 Hc E
         |p s1 E|p va v s1 Hp Hva E] Hok.
  - by destruct (runs_elim _ _ _ _ _ (alloc_page_runs Hmagic p va perm s Hok Hu Hp) E).
  - by destruct (runs_elim _ _ _ _ _ (unmap_page_runs p va s Hok Hu Hva) E).
  - assert (mem s1 = mem s ∧ container_split id q (v_cont s) = Ret (ch, v_cont s1)) as [Hm Ec].
    { revert E. unfold alloc_mem_quota, zoom, fzoom. change (lget s) with (v_cont s).
      destruct (container_split id q (v_cont s)) as [[a c]| | |]; [|done..]. by intros [= -> <-]. }
    apply (vmm_ok_cont s); [done..| |].
    + eapply cont_step_ok; [done|exact Hc|apply Hok].
    + intros g [Hr Ha]. split; [done|]. by rewrite (split_same_mat _ _ _ _ _ Ec).
  - by eapply set_pdir_base_ok.
  - by destruct (user_store_ok s p va v s1) as (pa & _ & _ & _ & ? & _).
Qed.

Lemma vm_reachable_ok s s' : vmm_ok s → rtc vm_step s s' → vmm_ok s'.
Proof. intros Hok Hr. induction Hr; [done|]. eauto using vm_step_ok. Qed.

(** Two accesses that reach one page are to the same page of the same process. *)
Lemma no_sharing s p p' va va' w w' pa pa' :
  vmm_ok s → 0 ≤ p < NUM_IDS → 0 ≤ p' < NUM_IDS → 0 ≤ va < W32 → 0 ≤ va' < W32 →
  mmu (mem s) (pdir_base p) va w = Some pa → mmu (mem s) (pdir_base p') va' w' = Some pa' →
  pa / 4096 = pa' / 4096 → p = p' ∧ va / 4096 = va' / 4096.
Proof.
  intros Hok Hp Hp' Hva Hva' E E' Heq.
  destruct (mmu_frame s p va w pa) as (Hw & Hf & _ & _); [done..|].
  destruct (mmu_frame s p' va' w' pa') as (Hw' & Hf' & _ & _); [done..|].
  rewrite <- Heq in Hf'. pose proof (vo_inj s Hok _ _ _ Hw Hw' Hf Hf') as Hu.
  injection Hu as -> Ek Ej. split; [done|].
  rewrite !PDE_ADDR_div in Ek. rewrite !PTE_ADDR_mod in Ej. divlia.
Qed.

End executions.

(** ** A small system *)

(** An identity table at 1 MB and page directories at 8 MB. *)
#[local] Program Instance demo_layout : KernelLayout := {|
  PDirPool_addr := 8388608;
  IDPTbl_addr := 1048576;
  proc_kstack_addr := 16777216;
  sys_buf_addr := 33554432;
|}.
Next Obligation. done. Qed.
Next Obligation. done. Qed.
Next Obligation. done. Qed.
Next Obligation. done. Qed.
Next Obligation. right. done. Qed.
Next Obligation. done. Qed.
Next Obligation. split; right; done. Qed.

#[local] Existing Instance demo_env.

Definition demo_vm0 : vmm :=
  {| v_cont := demo_boot; mem := ∅; CR0 := 17; CR3 := 0; CR4 := 0 |}.

Lemma demo_mbi_wf : Forall mmap_wf demo_mbi.
Proof.
  constructor; [|constructor]. unfold mmap_wf, is_u32; simpl; unfold_consts.
  split_and!; [lia..|by left].
Qed.

Lemma demo_mbi_length : Z.of_nat (length (low_entries demo_mbi)) ≤ 128.
Proof. vm_compute. discriminate. Qed.

(** Quota for process 1 after boot. *)
Lemma demo_quota s0 :
  paging_post demo_mbi s0 →
  ∃ s, vm_step s0 s ∧ vmm_ok s ∧
    ctr (v_cont s) 1 = {| quota := 8; usage := 0; parent := 0; nchildren := 0; used := 1 |} ∧
    (∀ p k j, user_pde p k → pte s p k j = 0) ∧ avail (ctr (v_cont s) 2) = 0.
Proof.
  intros (Hok & (Hm & Hcok & H0 & Hj) & Hz & _).
  rewrite (demo_boot_free _ Hm) in H0.
  assert (0 ≤ 0 < NUM_IDS) as Hr0 by done.
  assert (nchildren (ctr (v_cont s0) 0) < MAX_CHILDREN) as Hn by (by rewrite H0).
  assert (child_of (v_cont s0) 0 < NUM_IDS) as Hch by (unfold child_of; by rewrite H0).
  assert (0 ≤ 8 ≤ avail (ctr (v_cont s0) 0)) as Hq by (rewrite H0; unfold avail; simpl; lia).
  destruct (proj1 (runs_eq _ _ _) (@container_split_runs demo_env eq_refl 0 8 (v_cont s0) Hcok Hr0 Hn Hch Hq))
    as (ch & c & E & Hpost). pose proof Hpost as (Ech & _ & Hctr & _).
  set (s := set_v_cont c s0).
  assert (alloc_mem_quota 0 8 s0 = Ret (ch, s)) as Eq.
  { unfold alloc_mem_quota, zoom, fzoom. change (lget s0) with (v_cont s0). by rewrite E. }
  assert (vm_step s0 s) as Hstep.
  { apply (vs_quota _ 0 8 ch); [|done]. apply (cs_split _ 0 8 ch); [done| |done].
    unfold split_safe. by rewrite H0. }
  exists s. split; [done|].
  split; [by apply (@vm_step_ok demo_env _ eq_refl s0)|].
  assert (ch = 1) as -> by (rewrite Ech; unfold child_of; by rewrite H0).
  change (v_cont s) with c. split; [by rewrite Hctr|]. split; [done|].
  rewrite Hctr, !bool_decide_false by done. by rewrite Hj.
Qed.

(** Boot, then quota for process 1. *)
Lemma demo_vm :
  ∃ s0 s, paging_init demo_mbi demo_vm0 = Ret (tt, s0) ∧ paging_post demo_mbi s0 ∧
    rtc vm_step s0 s ∧ vmm_ok s ∧
    ctr (v_cont s) 1 = {| quota := 8; usage := 0; parent := 0; nchildren := 0; used := 1 |} ∧
    (∀ p k j, user_pde p k → pte s p k j = 0) ∧ avail (ctr (v_cont s) 2) = 0.
Proof.
  destruct (proj1 (runs_eq _ _ _) (paging_init_runs demo_mbi demo_vm0
    (conj (conj eq_refl (conj eq_refl eq_refl)) eq_refl) demo_mbi_length demo_mbi_wf))
    as ([] & s0 & E0 & Hpost).
  destruct (demo_quota s0 Hpost) as (s & Hstep & Hok & Hc & Hz).
  exact (ex_intro _ s0 (ex_intro _ s (conj E0 (conj Hpost (conj (rtc_once _ _ Hstep)
    (conj Hok (conj Hc Hz))))))).
Qed.

(** A page of process 1 mapped at 0x40001000. *)
Lemma demo_mapped :
  ∃ s0 s pa, paging_init demo_mbi demo_vm0 = Ret (tt, s0) ∧ rtc vm_step s0 s ∧ vmm_ok s ∧
    ∀ w, mmu (mem s) (pdir_base 1) 1073745920 w = Some pa.
Proof.
  destruct demo_vm as (s0 & s & E0 & _ & Hr & Hok & Hc & _).
  assert (user_pde 1 (PDE_ADDR 1073745920)) as Hu by (vm_compute; intuition discriminate).
  assert (0 ≤ 7 < 4096) as H7 by (clear; lia).
  destruct (proj1 (runs_eq _ _ _)
    (@alloc_page_runs demo_env demo_layout eq_refl 1 1073745920 7 s Hok Hu H7))
    as (r & s1 & E & Hok1 & _ & Hpost).
  assert (∃ pa, ∀ w, mmu (mem s1) (pdir_base 1) 1073745920 w = Some pa) as [pa Hpa].
  { clear E0 E Hr. rewrite Hc in Hpost. unfold tables_needed in Hpost.
    destruct (pde s 1 (PDE_ADDR 1073745920) =? 0);
      destruct Hpost as (f & _ & Hset & _); (exists (f * 4096)); intros w;
      rewrite mmu_pte, decide_True by done; cbv zeta; rewrite Hset, bool_decide_true by done;
      rewrite (access_PTU w f : access w (f * 4096 + 7) = true); f_equal; divlia. }
  exists s0, s1, pa. split; [exact E0|]. split; [|split; [exact Hok1|exact Hpa]].
  exact (rtc_r _ _ _ Hr (vs_alloc _ 1 1073745920 7 r s1 Hu H7 E)).
Qed.

(** ** The theorems *)

(** C1: Isolation.  After boot, through every sequence of page allocations,
    unmappings, new processes, switches of the address space and user stores: if
    user accesses of two processes reach the same physical page, then the
    processes and the virtual pages are the same.  The page is an allocated page
    of the user range that is no page table of any process. *)
Theorem address_space_isolation `{KEnv, KernelLayout} mbi s0 s1 s p p' va va' w w' pa pa' :
  ks_magic = KSTACK_MAGIC → cont_boot (v_cont s0) →
  Z.of_nat (length (low_entries mbi)) ≤ 128 → Forall mmap_wf mbi →
  paging_init mbi s0 = Ret (tt, s1) → rtc vm_step s1 s →
  0 ≤ p < NUM_IDS → 0 ≤ p' < NUM_IDS → 0 ≤ va < W32 → 0 ≤ va' < W32 →
  mmu (mem s) (pdir_base p) va w = Some pa → mmu (mem s) (pdir_base p') va' w' = Some pa' →
  in_use s (pa / 4096) ∧
  (∀ q k, user_pde q k → frame s (Tbl q k) ≠ Some (pa / 4096)) ∧
  (pa / 4096 = pa' / 4096 → p = p' ∧ va / 4096 = va' / 4096).
Proof.
  intros Hm Hb Hl Hwf E Hr Hp Hp' Hva Hva' E1 E2.
  pose proof (runs_elim _ _ _ _ _ (paging_init_runs mbi s0 Hb Hl Hwf) E) as [Hok1 _].
  pose proof (vm_reachable_ok Hm _ _ Hok1 Hr) as Hok.
  destruct (mmu_frame s p va w pa) as (Hw & Hf & Hin & _); [done..|].
  split; [done|]. split.
  - intros q k Hu Ht. by pose proof (vo_inj s Hok (Tbl q k) _ _ Hu Hw Ht Hf).
  - by eapply no_sharing.
Qed.

Lemma address_space_isolation_witness :
  ∃ s pa, mmu (mem s) (pdir_base 1) 1073745920 true = Some pa ∧
    in_use s (pa / 4096) ∧
    (∀ q k, user_pde q k → frame s (Tbl q k) ≠ Some (pa / 4096)) ∧
    (pa / 4096 = pa / 4096 → 1 = 1 ∧ 1073745920 / 4096 = 1073745920 / 4096).
Proof.
  destruct demo_mapped as (s0 & s & pa & E0 & Hr & Hok & Hpa).
  assert (0 ≤ 1 < NUM_IDS) as Hp by (clear; unfold NUM_IDS; lia).
  assert (0 ≤ 1073745920 < W32) as Hva by (clear; unfold W32; lia).
  exists s, pa. split; [exact (Hpa true)|].
  exact (@address_space_isolation demo_env demo_layout demo_mbi demo_vm0 s0 s 1 1
    1073745920 1073745920 true false pa pa eq_refl
    (conj (conj eq_refl (conj eq_refl eq_refl)) eq_refl) demo_mbi_length demo_mbi_wf E0 Hr
    Hp Hp Hva Hva (Hpa true) (Hpa false)).
Defined.

(** [paging_init] returns, for any contents of the memory, with an invariant
    page structure: process 0 and the kernel's part of every address space are
    the identity map without user access, no user page is mapped, the root owns
    all free pages, the page directory of process 0 is loaded and paging is on. *)
Theorem paging_init_spec `{KEnv, KernelLayout} mbi s :
  cont_boot (v_cont s) → Z.of_nat (length (low_entries mbi)) ≤ 128 → Forall mmap_wf mbi →
  runs (paging_init mbi) s (λ _, paging_post mbi).
Proof. apply paging_init_runs. Qed.

Lemma paging_init_spec_witness : runs (paging_init demo_mbi) demo_vm0 (λ _, paging_post demo_mbi).
Proof.
  exact (paging_init_spec demo_mbi demo_vm0 (conj (conj eq_refl (conj eq_refl eq_refl)) eq_refl)
           demo_mbi_length demo_mbi_wf).
Defined.

(** C8: [alloc_page] maps a page that was free at the given user address when the
    quota of the process covers the page and, if it is missing, its page table;
    it changes no other entry of any address space and charges exactly the pages
    it took.  Otherwise it returns [MagicNumber] and changes no entry; what was
    left of the quota is then used up without being mapped.  In both cases memory
    changes in the page directories and the page tables of the process only. *)
Theorem alloc_page_spec `{KEnv, KernelLayout} p va perm s :
  ks_magic = KSTACK_MAGIC → vmm_ok s → user_pde p (PDE_ADDR va) → 0 ≤ perm < 4096 →
  runs (alloc_page p va perm) s (alloc_page_post p (PDE_ADDR va) (PTE_ADDR va) perm s).
Proof. intros. by apply alloc_page_runs. Qed.

Lemma alloc_page_spec_witness :
  ∃ s, avail (ctr (v_cont s) 1) = 8 ∧
    runs (alloc_page 1 1073745920 7) s (alloc_page_post 1 256 1 7 s).
Proof.
  destruct demo_vm as (s0 & s & _ & _ & _ & Hok & Hc & _). exists s.
  split; [rewrite Hc; reflexivity|].
  apply (@alloc_page_spec demo_env demo_layout 1 1073745920 7 s eq_refl Hok); [|lia].
  vm_compute. intuition discriminate.
Defined.

(** C30: Mapping, reading back and unmapping, for every choice of the permissions: when two
    pages of the quota are left, the code reads the entry of the new page with the given
    permissions after [alloc_page]; user code reaches that page exactly by the accesses
    that the permissions allow; and [unmap_page] returns the entry and clears it, with every
    other entry as it was at the start.  So when the address was not mapped at the start
    (as the comment of [alloc_page] asks), all entries of all address spaces are restored. *)
Theorem alloc_lookup_unmap `{KEnv, KernelLayout} p va perm s :
  ks_magic = KSTACK_MAGIC → vmm_ok s → user_pde p (PDE_ADDR va) → 0 ≤ va < W32 → 0 ≤ perm < 4096 →
  2 ≤ avail (ctr (v_cont s) p) →
  runs (alloc_page p va perm) s (λ r s1, r ≠ MagicNumber ∧ ∃ f,
    page_free (c_mat (v_cont s)) f = true ∧
    get_ptbl_entry_by_va p va s1 = Ret (f * 4096 + perm, s1) ∧
    (∀ w, mmu (mem s1) (pdir_base p) va w = if access w perm then Some (f * 4096 + va mod 4096) else None) ∧
    runs (unmap_page p va) s1 (λ e s2, e = f * 4096 + perm ∧
      (∀ w, mmu (mem s2) (pdir_base p) va w = None) ∧
      pte_set p (PDE_ADDR va) (PTE_ADDR va) 0 s s2 ∧
      (pte s p (PDE_ADDR va) (PTE_ADDR va) = 0 → pte_same s s2))).
Proof.
  intros Hm Hok Hu Hva Hperm Hav. destruct (user_pde_range _ _ Hu) as [Hp Hk].
  assert (0 ≤ PTE_ADDR va < 1024) as Hj by (rewrite PTE_ADDR_mod; divlia).
  eapply runs_mono; [by apply (alloc_page_runs Hm)|]. intros r s1 (Hok1 & _ & Hpost).
  assert (0 ≤ tables_needed s p (PDE_ADDR va) ≤ 1)
    by (unfold tables_needed; destruct (_ =? _); lia).
  rewrite (proj2 (Z.leb_le _ _)) in Hpost by lia.
  destruct Hpost as (f & Hf & Hset & Hr & _). split; [unfold MagicNumber; unfold_vm; lia|].
  assert (pte s1 p (PDE_ADDR va) (PTE_ADDR va) = f * 4096 + perm) as Hpte
    by (by rewrite Hset, bool_decide_true).
  exists f. split; [done|]. split; [by rewrite get_ptbl_entry_by_va_run, Hpte|].
  split.
  - intros w. rewrite mmu_pte, decide_True by done. cbv zeta. rewrite Hpte, access_low by done.
    destruct (access w perm); [|done]. do 2 f_equal. divlia.
  - eapply runs_mono; [by apply unmap_page_runs|]. intros e s2 (Hok2 & -> & _ & Hset2).
    assert (pte_set p (PDE_ADDR va) (PTE_ADDR va) 0 s s2) as Hall.
    { intros p' k j ? ? ?. rewrite Hset2 by done. case_bool_decide as E; [done|].
      by rewrite Hset, bool_decide_false. }
    split; [done|]. split.
    + intros w. rewrite mmu_pte, decide_True by done. cbv zeta. rewrite Hset2, bool_decide_true by done. by destruct w.
    + split; [done|]. intros Hz p' k j ? ? ?. rewrite Hall by done. case_bool_decide as E; [|done].
      by injection E as -> -> ->.
Qed.

(** A read-only page of process 1. *)
Lemma alloc_lookup_unmap_witness :
  ∃ s, pte s 1 256 1 = 0 ∧ runs (alloc_page 1 1073745920 5) s (λ r s1, r ≠ MagicNumber ∧ ∃ f,
    page_free (c_mat (v_cont s)) f = true ∧
    get_ptbl_entry_by_va 1 1073745920 s1 = Ret (f * 4096 + 5, s1) ∧
    (∀ w, mmu (mem s1) (pdir_base 1) 1073745920 w =
      if access w 5 then Some (f * 4096 + 1073745920 mod 4096) else None) ∧
    runs (unmap_page 1 1073745920) s1 (λ e s2, e = f * 4096 + 5 ∧
      (∀ w, mmu (mem s2) (pdir_base 1) 1073745920 w = None) ∧
      pte_set 1 256 1 0 s s2 ∧ (pte s 1 256 1 = 0 → pte_same s s2))).
Proof.
  destruct demo_vm as (s0 & s & _ & _ & _ & Hok & Hc & Hz & _). exists s.
  split; [apply Hz; vm_compute; intuition discriminate|].
  apply (@alloc_lookup_unmap demo_env demo_layout 1 1073745920 5 s eq_refl Hok).
  - vm_compute. intuition discriminate.
  - unfold W32. lia.
  - lia.
  - rewrite Hc. vm_compute. discriminate.
Defined.

(** A user store reaches the memory of the storing process only: it keeps the
    invariant and every page table entry, and no other process can tell it from
    what it reads. *)
Theorem user_store_confined `{KEnv, KernelLayout} s p p' va va' v s' :
  vmm_ok s → 0 ≤ p < NUM_IDS → 0 ≤ p' < NUM_IDS → p' ≠ p → 0 ≤ va < W32 → 0 ≤ va' < W32 →
  user_store (pdir_base p) va v s = Some s' →
  vmm_ok s' ∧ pte_same s s' ∧ user_load (mem s') (pdir_base p') va' = user_load (mem s) (pdir_base p') va'.
Proof.
  intros Hok Hp Hp' Hne Hva Hva' E.
  destruct (user_store_ok s p va v s') as (pa & Epa & _ & Ha & Hok' & Hsame); [done..|].
  split; [done|]. split; [done|]. unfold user_load. rewrite (mmu_same s s') by done.
  destruct (mmu (mem s) (pdir_base p') va' false) as [pa'|] eqn:E'; [|done].
  simpl. f_equal. apply Ha.
  - destruct (mmu_frame s p' va' false pa') as (_ & _ & [Hr _] & _); [done..|].
    unfold_vm. divlia.
  - intros Heq. apply Hne.
    by destruct (no_sharing s p' p va' va false true pa' pa) as [? _].
Qed.

Lemma user_store_confined_witness :
  ∃ s s', user_store (pdir_base 1) 1073745920 42 s = Some s' ∧
    vmm_ok s' ∧ pte_same s s' ∧
    user_load (mem s') (pdir_base 2) 1073745920 = user_load (mem s) (pdir_base 2) 1073745920.
Proof.
  destruct demo_mapped as (s0 & s & pa & _ & _ & Hok & Hpa).
  assert (user_store (pdir_base 1) 1073745920 42 s = Some (set_mem (store8 pa 42 (mem s)) s)) as E
    by (unfold user_store; by rewrite Hpa).
  exists s, (set_mem (store8 pa 42 (mem s)) s). split; [exact E|].
  apply (@user_store_confined demo_env demo_layout s 1 2 1073745920 1073745920 42 _ Hok);
    try (unfold NUM_IDS, W32; lia). exact E.
Defined.
