(* ===== verification/DList.v ===== *)
(** * Doubly linked lists threaded through a table

    The thread queues (kern/thread/PTQueueInit) and the list of buffers
    (kern/fs/bufcache.c) are doubly linked lists whose links are fields of the
    elements.  [dseg] says that the links of the elements of a list are those of
    a segment of such a list; [p] and [n] are what precedes and follows it. *)

From S2P Require Import Prelude.

Definition hd_or (d : Z) (l : list Z) : Z := match l with [] => d | x :: _ => x end.
Fixpoint last_or (d : Z) (l : list Z) : Z := match l with [] => d | x :: l' => last_or x l' end.

Fixpoint dseg (nxt prv : Z → Z) (p : Z) (l : list Z) (n : Z) : Prop :=
  match l with
  | [] => True
  | x :: l' => prv x = p ∧ nxt x = hd_or n l' ∧ dseg nxt prv x l' n
  end.

Lemma hd_or_app d l l' : hd_or d (l ++ l') = hd_or (hd_or d l') l.
Proof. by destruct l. Qed.

Lemma last_or_app d l l' : last_or d (l ++ l') = last_or (last_or d l) l'.
Proof. revert d. induction l as [|x l IH]; intros d; [done|]. apply IH. Qed.

Lemma last_or_snoc d l x : last_or d (l ++ [x]) = x.
Proof. by rewrite last_or_app. Qed.

Lemma last_or_elem d l : last_or d l = d ∨ last_or d l ∈ l.
Proof.
  revert d. induction l as [|x l IH]; intros d; [by left|]. right. simpl.
  destruct (IH x) as [->|?]; [by left|by right].
Qed.

Lemma hd_or_elem d l : hd_or d l = d ∨ hd_or d l ∈ l.
Proof. destruct l; [by left|right; by left]. Qed.

(** A list without the value [d] is empty exactly when its head or last is [d]. *)
Lemma hd_or_nil d l : d ∉ l → hd_or d l = d ↔ l = [].
Proof. destruct l as [|x l]; [done|]. intros Hd. simpl. split; [|done]. intros ->. by destruct Hd; left. Qed.

Lemma last_or_nil d l : d ∉ l → last_or d l = d ↔ l = [].
Proof.
  intros Hd. split; [|by intros ->]. intros E.
  destruct l as [|x l]; [done|]. destruct (last_or_elem x l) as [E'|Hin].
  - simpl in E. rewrite E' in E. subst. by destruct Hd; left.
  - simpl in E. rewrite E in Hin. by destruct Hd; right.
Qed.

Lemma dseg_app nxt prv p l l' n :
  dseg nxt prv p (l ++ l') n ↔
  dseg nxt prv p l (hd_or n l') ∧ dseg nxt prv (last_or p l) l' n.
Proof.
  revert p. induction l as [|x l IH]; intros p; simpl; [tauto|].
  rewrite IH, hd_or_app. tauto.
Qed.

(** The links outside the list do not matter. *)
Lemma dseg_ext nxt prv nxt' prv' p l n :
  (∀ x, x ∈ l → nxt' x = nxt x ∧ prv' x = prv x) →
  dseg nxt prv p l n → dseg nxt' prv' p l n.
Proof.
  revert p. induction l as [|x l IH]; intros p Hx; simpl; [done|].
  intros (Hp & Hn & Hl). destruct (Hx x) as [-> ->]; [by left|].
  split; [done|]. split; [done|]. apply IH; [|done]. intros y Hy. apply Hx. by right.
Qed.

(** The element [x] in the middle. *)
Lemma dseg_middle nxt prv p l x l' n :
  dseg nxt prv p (l ++ x :: l') n →
  prv x = last_or p l ∧ nxt x = hd_or n l'.
Proof. rewrite dseg_app. simpl. tauto. Qed.

(** Redirecting what follows, and what precedes, a segment. *)
Lemma dseg_set_next nxt prv nxt' prv' p l n n' :
  NoDup l → dseg nxt prv p l n →
  (∀ x, x ∈ l → prv' x = prv x) →
  (∀ x, x ∈ l → x ≠ last_or p l → nxt' x = nxt x) →
  (l ≠ [] → nxt' (last_or p l) = n') →
  dseg nxt' prv' p l n'.
Proof.
  revert p. induction l as [|x l IH]; intros p Hnd; simpl; [done|].
  apply NoDup_cons in Hnd as [Hx Hnd]. intros (Hp & Hn & Hl) Hprv Hnxt Hlast.
  assert (prv' x = p) as E by (rewrite Hprv; [done|by left]).
  destruct l as [|y l].
  - simpl in *. split; [done|]. split; [by apply Hlast|done].
  - split; [done|]. split.
    + rewrite Hnxt; [done|by left|]. intros E'.
      destruct (last_or_elem x (y :: l)) as [E2|Hin].
      * assert (last_or x (y :: l) ∈ y :: l); [|rewrite <- E' in *; done].
        simpl in *. destruct (last_or_elem y l) as [->|?]; [by left|by right].
      * by rewrite <- E' in Hin.
    + apply IH; [done|done|..].
      * intros z Hz. apply Hprv. by right.
      * intros z Hz Hne. apply Hnxt; [by right|done].
      * intros _. by apply Hlast.
Qed.

Lemma dseg_set_prev nxt prv nxt' prv' p p' x l n :
  NoDup (x :: l) → dseg nxt prv p (x :: l) n →
  (∀ y, y ∈ x :: l → nxt' y = nxt y) →
  (∀ y, y ∈ l → prv' y = prv y) → prv' x = p' →
  dseg nxt' prv' p' (x :: l) n.
Proof.
  intros [Hx Hnd]%NoDup_cons (Hp & Hn & Hl) Hnxt Hprv E. simpl.
  split; [done|]. split; [rewrite Hnxt; [done|by left]|].
  eapply dseg_ext; [|exact Hl]. intros y Hy. split; [apply Hnxt; by right|by apply Hprv].
Qed.

(** Updates of a link. *)
Definition fupd (f : Z → Z) (i v : Z) : Z → Z := λ x, if bool_decide (x = i) then v else f x.

Lemma fupd_eq f i v : fupd f i v i = v.
Proof. unfold fupd. by rewrite bool_decide_true. Qed.
Lemma fupd_ne f i v x : x ≠ i → fupd f i v x = f x.
Proof. intros. unfold fupd. by rewrite bool_decide_false. Qed.

(** Removing an element whose neighbours are linked to each other; [d] is what both ends
    of the list are linked to. *)
Lemma dseg_remove d n p l1 l2 pid n' p' :
  let l := l1 ++ pid :: l2 in
  NoDup l → d ∉ l → dseg n p d l d →
  (∀ x, x ∈ l1 → x ≠ last_or d l1 → n' x = n x) → (∀ x, x ∈ l1 → p' x = p x) →
  (l1 ≠ [] → n' (last_or d l1) = hd_or d l2) →
  (∀ x, x ∈ l2 → n' x = n x) → (∀ x, x ∈ l2 → x ≠ hd_or d l2 → p' x = p x) →
  (l2 ≠ [] → p' (hd_or d l2) = last_or d l1) →
  dseg n' p' d (l1 ++ l2) d.
Proof.
  intros l Hnd Hno Hd Hn1 Hp1 Hlast Hn2 Hp2 Hhd. unfold l in *.
  apply NoDup_app in Hnd as (Hnd1 & _ & [Hpid Hnd2]%NoDup_cons).
  apply dseg_app in Hd as [Hd1 (_ & _ & Hd2)]. apply dseg_app. split.
  - by eapply dseg_set_next.
  - destruct l2 as [|y l2]; [done|]. eapply dseg_set_prev; [done|exact Hd2|done|..].
    + intros z Hz. apply Hp2; [by right|]. simpl. intros ->.
      by apply NoDup_cons in Hnd2 as [? _].
    + by apply Hhd.
Qed.

(** A list closed by a sentinel [d]: what [d] is linked to, and the segment. *)
Record ring (d : Z) (n p : Z → Z) (l : list Z) : Prop := {
  ri_first : n d = hd_or d l;
  ri_last : p d = last_or d l;
  ri_seg : dseg n p d l d;
}.

(** Taking [x] out of a ring: its neighbours, the sentinel among them, are linked. *)
Lemma ring_remove d n p l1 x l2 :
  let l := l1 ++ x :: l2 in
  NoDup l → d ∉ l → ring d n p l →
  ring d (fupd n (last_or d l1) (hd_or d l2)) (fupd p (hd_or d l2) (last_or d l1)) (l1 ++ l2).
Proof.
  intros l Hnd Hno [Hf Hl Hs]. unfold l in *.
  pose proof Hnd as (Hnd1 & Hdis & [Hx Hnd2]%NoDup_cons)%NoDup_app.
  rewrite not_elem_of_app, not_elem_of_cons in Hno. destruct Hno as (Hno1 & Hdx & Hno2).
  assert (∀ y, y ∈ l1 → y ∉ l2) as Hd12 by (intros y Hy Hy2; apply (Hdis y Hy); by right).
  pose proof (last_or_elem d l1) as Hla. pose proof (hd_or_elem d l2) as Hhd.
  constructor.
  - destruct (last_or_elem d l1) as [E|E].
    + apply last_or_nil in E as ->; [|done]. simpl. by rewrite fupd_eq.
    + rewrite fupd_ne by (intros Ed; rewrite <- Ed in E; done). rewrite Hf. destruct l1; [by apply elem_of_nil in E|done].
  - destruct (hd_or_elem d l2) as [E|E].
    + apply hd_or_nil in E as ->; [|done]. simpl. rewrite app_nil_r. by rewrite fupd_eq.
    + rewrite fupd_ne by (intros Ed; rewrite <- Ed in E; done). rewrite Hl.
      rewrite !last_or_app. simpl. destruct l2; [by apply elem_of_nil in E|done].
  - apply (dseg_remove d n p l1 l2 x); try done.
    + apply not_elem_of_app. split; [done|]. by apply not_elem_of_cons.
    + intros y Hy Hne. by apply fupd_ne.
    + intros y Hy. apply fupd_ne. intros ->. destruct Hhd as [E|E]; [by rewrite E in Hy|by apply (Hd12 _ Hy)].
    + intros _. by rewrite fupd_eq.
    + intros y Hy. apply fupd_ne. intros ->. destruct Hla as [E|E]; [by rewrite E in Hy|by apply (Hd12 _ E)].
    + intros y Hy Hne. by apply fupd_ne.
    + intros _. by rewrite fupd_eq.
Qed.

(** Putting [x] in front. *)
Lemma ring_push d n p l x :
  NoDup l → d ∉ l → x ∉ l → x ≠ d → ring d n p l →
  ring d (fupd (fupd n x (hd_or d l)) d x) (fupd (fupd p x d) (hd_or d l) x) (x :: l).
Proof.
  intros Hnd Hno Hx Hxd [Hf Hl Hs].
  assert (x ≠ hd_or d l) as Hxh by (intros E; destruct (hd_or_elem d l) as [E'|E']; congruence).
  constructor.
  - by rewrite fupd_eq.
  - destruct l as [|y l]; simpl in *; [by rewrite fupd_eq|].
    apply not_elem_of_cons in Hno as [Hy _]. rewrite !fupd_ne by done. done.
  - split; [by rewrite fupd_ne, fupd_eq|]. split; [by rewrite fupd_ne, fupd_eq|].
    destruct l as [|y l]; [done|]. eapply dseg_set_prev; [done|exact Hs|..].
    + intros z Hz. rewrite !fupd_ne; [done|by intros ->|by intros ->].
    + intros z Hz. simpl. rewrite !fupd_ne; [done| |].
      * intros ->. apply Hx. by right.
      * intros ->. by apply NoDup_cons in Hnd as [? _].
    + simpl. by rewrite fupd_eq.
Qed.

Lemma ring_ext d n p n' p' l :
  (∀ x, x = d ∨ x ∈ l → n' x = n x ∧ p' x = p x) → ring d n p l → ring d n' p' l.
Proof.
  intros E [Hf Hl Hs]. destruct (E d) as [E1 E2]; [by left|].
  constructor; [congruence|congruence|]. eapply dseg_ext; [|exact Hs]. auto.
Qed.
