(* ===== verification/Thread.v ===== *)
(** * Threads and scheduling

    kern/pcpu (the per-processor records), kern/thread: the current thread
    (PCurID), kernel contexts (PKCtxIntro, PKCtxNew), thread control blocks
    (PTCBIntro, PTCBInit), thread queues (PTQueueIntro, PTQueueInit) and the
    scheduler (PThread).  The code runs on the processor [ks_cpu_idx]. *)

From S2P Require Import Prelude Spinlock Pmmap MAT Container Mem Vmm.

Definition NOFILE : Z := 16.
Definition TSTATE_READY : Z := 0.
Definition TSTATE_RUN : Z := 1.
Definition TSTATE_SLEEP : Z := 2.
Definition TSTATE_DEAD : Z := 3.
Definition SCHED_SLICE : Z := 5.
Definition LAPIC_TIMER_INTR_FREQ : Z := 1000.
Definition KSTACK_SIZE : Z := 4096.

(** What is known of a processor (kern/dev/pcpu_mp_intro.h); [vendor] is an array of 20
    characters. *)
Record pcpuinfo := {
  lapicid : Z; bsp : Z; cpuid_high : Z; vendor : gmap Z Z; cpu_vendor : Z;
  family : Z; model : Z; cpu_step : Z; ext_family : Z; ext_model : Z; brand_idx : Z; clflush_size : Z; max_cpu_id : Z;
  apic_id : Z; feature1 : Z; feature2 : Z; l1_cache_size : Z; l1_cache_line_size : Z; cpuid_exthigh : Z;
}.
#[global] Instance pcpuinfo_inhabited : Inhabited pcpuinfo := populate
  {| lapicid := 0; bsp := 0; cpuid_high := 0; vendor := ∅; cpu_vendor := 0; family := 0; model := 0; cpu_step := 0;
     ext_family := 0; ext_model := 0; brand_idx := 0; clflush_size := 0; max_cpu_id := 0; apic_id := 0; feature1 := 0;
     feature2 := 0; l1_cache_size := 0; l1_cache_line_size := 0; cpuid_exthigh := 0 |}.

Record pcpu_t := { inited : Z; booted : Z; kstack : Z; arch_info : pcpuinfo; pcpu_cpu_idx : Z }.
#[global] Instance pcpu_inhabited : Inhabited pcpu_t :=
  populate {| inited := 0; booted := 0; kstack := 0; arch_info := inhabitant; pcpu_cpu_idx := 0 |}.

Record kctx := { k_esp : Z; k_edi : Z; k_esi : Z; k_ebx : Z; k_ebp : Z; k_eip : Z }.
#[global] Instance kctx_inhabited : Inhabited kctx :=
  populate {| k_esp := 0; k_edi := 0; k_esi := 0; k_ebx := 0; k_ebp := 0; k_eip := 0 |}.

(** Pointers (the open files, the working directory, the channel) are numbers, 0
    is the null pointer. *)
Record TCB := {
  tstate : Z;
  cpuid : Z;
  prev : Z;
  next : Z;
  channel : Z;
  openfiles : gmap Z Z;
  cwd : Z;
}.
#[global] Instance TCB_inhabited : Inhabited TCB := populate
  {| tstate := 0; cpuid := 0; prev := 0; next := 0; channel := 0; openfiles := ∅; cwd := 0 |}.

Record TQueue := { head : Z; tail : Z }.
#[global] Instance TQueue_inhabited : Inhabited TQueue := populate {| head := 0; tail := 0 |}.

Record thr := {
  t_vmm : vmm;
  pcpu : gmap Z pcpu_t;
  CURID : gmap Z Z;
  kctx_pool : gmap Z kctx;
  regs : kctx;                 (* the callee-saved registers of the processor *)
  TCBPool : gmap Z TCB;
  TQueuePool : gmap Z TQueue;
  sched_lk : spinlock_t;
  sched_ticks : gmap Z Z;
}.

Definition set_t_vmm (v : vmm) (s : thr) : thr := {|
  t_vmm := v; pcpu := pcpu s; CURID := CURID s; kctx_pool := kctx_pool s; regs := regs s;
  TCBPool := TCBPool s; TQueuePool := TQueuePool s; sched_lk := sched_lk s;
  sched_ticks := sched_ticks s |}.
Definition set_pcpu (v : gmap Z pcpu_t) (s : thr) : thr := {|
  t_vmm := t_vmm s; pcpu := v; CURID := CURID s; kctx_pool := kctx_pool s; regs := regs s;
  TCBPool := TCBPool s; TQueuePool := TQueuePool s; sched_lk := sched_lk s;
  sched_ticks := sched_ticks s |}.
Definition set_CURID (v : gmap Z Z) (s : thr) : thr := {|
  t_vmm := t_vmm s; pcpu := pcpu s; CURID := v; kctx_pool := kctx_pool s; regs := regs s;
  TCBPool := TCBPool s; TQueuePool := TQueuePool s; sched_lk := sched_lk s;
  sched_ticks := sched_ticks s |}.
Definition set_kctx_pool (v : gmap Z kctx) (s : thr) : thr := {|
  t_vmm := t_vmm s; pcpu := pcpu s; CURID := CURID s; kctx_pool := v; regs := regs s;
  TCBPool := TCBPool s; TQueuePool := TQueuePool s; sched_lk := sched_lk s;
  sched_ticks := sched_ticks s |}.
Definition set_regs (v : kctx) (s : thr) : thr := {|
  t_vmm := t_vmm s; pcpu := pcpu s; CURID := CURID s; kctx_pool := kctx_pool s; regs := v;
  TCBPool := TCBPool s; TQueuePool := TQueuePool s; sched_lk := sched_lk s;
  sched_ticks := sched_ticks s |}.
Definition set_TCBPool (v : gmap Z TCB) (s : thr) : thr := {|
  t_vmm := t_vmm s; pcpu := pcpu s; CURID := CURID s; kctx_pool := kctx_pool s; regs := regs s;
  TCBPool := v; TQueuePool := TQueuePool s; sched_lk := sched_lk s;
  sched_ticks := sched_ticks s |}.
Definition set_TQueuePool (v : gmap Z TQueue) (s : thr) : thr := {|
  t_vmm := t_vmm s; pcpu := pcpu s; CURID := CURID s; kctx_pool := kctx_pool s; regs := regs s;
  TCBPool := TCBPool s; TQueuePool := v; sched_lk := sched_lk s;
  sched_ticks := sched_ticks s |}.
Definition set_sched_lk (v : spinlock_t) (s : thr) : thr := {|
  t_vmm := t_vmm s; pcpu := pcpu s; CURID := CURID s; kctx_pool := kctx_pool s; regs := regs s;
  TCBPool := TCBPool s; TQueuePool := TQueuePool s; sched_lk := v;
  sched_ticks := sched_ticks s |}.
Definition set_sched_ticks (v : gmap Z Z) (s : thr) : thr := {|
  t_vmm := t_vmm s; pcpu := pcpu s; CURID := CURID s; kctx_pool := kctx_pool s; regs := regs s;
  TCBPool := TCBPool s; TQueuePool := TQueuePool s; sched_lk := sched_lk s;
  sched_ticks := v |}.

#[global] Program Instance thr_vmm_lens : Lens thr vmm :=
  {| lget := t_vmm; lset := set_t_vmm |}.
Next Obligation. done. Qed.
Next Obligation. by intros []. Qed.
Next Obligation. done. Qed.

(** Field updates. *)
Definition set_tstate (v : Z) (t : TCB) : TCB := {| tstate := v; cpuid := cpuid t;
  prev := prev t; next := next t; channel := channel t; openfiles := openfiles t; cwd := cwd t |}.
Definition set_cpuid (v : Z) (t : TCB) : TCB := {| tstate := tstate t; cpuid := v;
  prev := prev t; next := next t; channel := channel t; openfiles := openfiles t; cwd := cwd t |}.
Definition set_prev (v : Z) (t : TCB) : TCB := {| tstate := tstate t; cpuid := cpuid t;
  prev := v; next := next t; channel := channel t; openfiles := openfiles t; cwd := cwd t |}.
Definition set_next (v : Z) (t : TCB) : TCB := {| tstate := tstate t; cpuid := cpuid t;
  prev := prev t; next := v; channel := channel t; openfiles := openfiles t; cwd := cwd t |}.
Definition set_channel (v : Z) (t : TCB) : TCB := {| tstate := tstate t; cpuid := cpuid t;
  prev := prev t; next := next t; channel := v; openfiles := openfiles t; cwd := cwd t |}.
Definition set_openfiles (v : gmap Z Z) (t : TCB) : TCB := {| tstate := tstate t; cpuid := cpuid t;
  prev := prev t; next := next t; channel := channel t; openfiles := v; cwd := cwd t |}.
Definition set_cwd (v : Z) (t : TCB) : TCB := {| tstate := tstate t; cpuid := cpuid t;
  prev := prev t; next := next t; channel := channel t; openfiles := openfiles t; cwd := v |}.

Section ops.
Context `{KEnv, KernelLayout}.

(** ** Per-processor records: PCPUIntro, PCPUInit *)

Definition pcpu_mod (i : Z) (f : pcpu_t → pcpu_t) : M thr unit :=
  amod NUM_CPUS pcpu set_pcpu i f.

Definition pcpu_set_zero : M thr unit := modify (set_pcpu ∅).

Definition pcpu_fields_init (cpu_idx : Z) : M thr unit :=
  pcpu_mod cpu_idx (λ c, {| inited := 1; booted := booted c; kstack := kstack c; arch_info := arch_info c;
                            pcpu_cpu_idx := pcpu_cpu_idx c |}) ;;;
  pcpu_mod cpu_idx (λ c, {| inited := inited c; booted := booted c; kstack := kstack c; arch_info := arch_info c;
                            pcpu_cpu_idx := cpu_idx |}).

Definition get_kstack_cpu_idx : M thr Z := ret ks_cpu_idx.

(** [pcpu_cur()], as an index of [pcpu]. *)
Definition pcpu_cur : M thr Z := get_kstack_cpu_idx.

Definition get_pcpu_idx : M thr Z :=
  let! i := pcpu_cur in
  let! c := aread NUM_CPUS pcpu i in ret (pcpu_cpu_idx c).

Definition set_pcpu_idx (index cpu_idx : Z) : M thr unit :=
  pcpu_mod index (λ c, {| inited := inited c; booted := booted c; kstack := kstack c; arch_info := arch_info c;
                          pcpu_cpu_idx := cpu_idx |}).
Definition get_pcpu_kstack_pointer (cpu_idx : Z) : M thr Z :=
  let! c := aread NUM_CPUS pcpu cpu_idx in ret (kstack c).
Definition set_pcpu_kstack_pointer (cpu_idx ks : Z) : M thr unit :=
  pcpu_mod cpu_idx (λ c, {| inited := inited c; booted := booted c; kstack := ks; arch_info := arch_info c;
                            pcpu_cpu_idx := pcpu_cpu_idx c |}).
Definition get_pcpu_boot_info (cpu_idx : Z) : M thr Z :=
  let! c := aread NUM_CPUS pcpu cpu_idx in ret (booted c).
Definition set_pcpu_boot_info (cpu_idx boot_info : Z) : M thr unit :=
  pcpu_mod cpu_idx (λ c, {| inited := inited c; booted := boot_info; kstack := kstack c; arch_info := arch_info c;
                            pcpu_cpu_idx := pcpu_cpu_idx c |}).
Definition get_pcpu_cpu_vendor (cpu_idx : Z) : M thr Z :=
  let! c := aread NUM_CPUS pcpu cpu_idx in ret (cpu_vendor (arch_info c)).
(** The record that [get_pcpu_arch_info_pointer] points to, read and changed. *)
Definition get_pcpu_arch_info (cpu_idx : Z) : M thr pcpuinfo :=
  let! c := aread NUM_CPUS pcpu cpu_idx in ret (arch_info c).
Definition mod_pcpu_arch_info (cpu_idx : Z) (f : pcpuinfo → pcpuinfo) : M thr unit :=
  pcpu_mod cpu_idx (λ c, {| inited := inited c; booted := booted c; kstack := kstack c;
                            arch_info := f (arch_info c); pcpu_cpu_idx := pcpu_cpu_idx c |}).
Definition get_pcpu_inited_info (cpu_idx : Z) : M thr Z :=
  let! c := aread NUM_CPUS pcpu cpu_idx in ret (inited c).

(** ** PCurID *)

Definition get_curid : M thr Z :=
  let! i := get_pcpu_idx in aread NUM_CPUS CURID i.
Definition set_curid (curid : Z) : M thr unit :=
  let! i := get_pcpu_idx in awrite NUM_CPUS CURID set_CURID i curid.

(** ** PKCtxIntro, PKCtxNew *)

Definition kctx_mod (pid : Z) (f : kctx → kctx) : M thr unit :=
  amod NUM_IDS kctx_pool set_kctx_pool pid f.

Definition kctx_set_esp (pid esp : Z) : M thr unit :=
  kctx_mod pid (λ k, {| k_esp := esp; k_edi := k_edi k; k_esi := k_esi k; k_ebx := k_ebx k;
                        k_ebp := k_ebp k; k_eip := k_eip k |}).
Definition kctx_set_eip (pid eip : Z) : M thr unit :=
  kctx_mod pid (λ k, {| k_esp := k_esp k; k_edi := k_edi k; k_esi := k_esi k; k_ebx := k_ebx k;
                        k_ebp := k_ebp k; k_eip := eip |}).

(** cswitch.S: the registers of the running thread are saved, those of the other
    thread loaded; execution goes on where the other thread had saved. *)
Definition kctx_switch (from_pid to_pid : Z) : M thr unit :=
  let! r := gets regs in
  awrite NUM_IDS kctx_pool set_kctx_pool from_pid r ;;;
  let! r' := aread NUM_IDS kctx_pool to_pid in
  modify (set_regs r').

Definition kstack_hi (pid : Z) : Z := proc_kstack_addr + (pid + 1) * KSTACK_SIZE.

Definition kctx_new (entry id quota : Z) : M thr Z :=
  let! ok := zoom (St := thr) (zoom (Sub := cont) (container_can_consume id quota) : M vmm Z) in
  if nz ok then
    let! pid := zoom (alloc_mem_quota id quota) in
    (if negb (pid =? NUM_IDS) then
       kctx_set_esp pid (kstack_hi pid) ;;;
       kctx_set_eip pid entry
     else ret tt) ;;;
    ret pid
  else ret NUM_IDS.

(** ** PTCBIntro *)

Definition tcb_mod (pid : Z) (f : TCB → TCB) : M thr unit :=
  amod NUM_IDS TCBPool set_TCBPool pid f.
Definition tcb_get {A} (f : TCB → A) (pid : Z) : M thr A :=
  let! t := aread NUM_IDS TCBPool pid in ret (f t).

Definition tcb_get_state (pid : Z) : M thr Z := tcb_get tstate pid.
Definition tcb_set_state (pid st : Z) : M thr unit := tcb_mod pid (set_tstate st).
Definition tcb_get_cpu (pid : Z) : M thr Z := tcb_get cpuid pid.
Definition tcb_set_cpu (pid cpu : Z) : M thr unit := tcb_mod pid (set_cpuid cpu).
Definition tcb_get_prev (pid : Z) : M thr Z := tcb_get prev pid.
Definition tcb_set_prev (pid prev_pid : Z) : M thr unit := tcb_mod pid (set_prev prev_pid).
Definition tcb_get_next (pid : Z) : M thr Z := tcb_get next pid.
Definition tcb_set_next (pid next_pid : Z) : M thr unit := tcb_mod pid (set_next next_pid).
Definition tcb_get_chan (pid : Z) : M thr Z := tcb_get channel pid.
Definition tcb_set_chan (pid chan : Z) : M thr unit := tcb_mod pid (set_channel chan).
Definition tcb_get_openfiles (pid : Z) : M thr (gmap Z Z) := tcb_get openfiles pid.
Definition tcb_set_openfiles (pid fd f : Z) : M thr unit :=
  if inb NOFILE fd then tcb_mod pid (λ t, set_openfiles (<[fd := f]> (openfiles t)) t) else fault.
Definition tcb_get_cwd (pid : Z) : M thr Z := tcb_get cwd pid.
Definition tcb_set_cwd (pid d : Z) : M thr unit := tcb_mod pid (set_cwd d).

(** [namei("/")] of kern/fs/path.c, which [tcb_init_at_id] calls upwards; the file
    system is not part of this state. *)
Variable namei_root : M thr Z.

(** [sizeof *openfiles] is the size of one entry: only the first is cleared. *)
Definition tcb_init_at_id (pid : Z) : M thr unit :=
  tcb_set_state pid TSTATE_DEAD ;;;
  tcb_mod pid (set_cpuid NUM_CPUS) ;;;
  tcb_mod pid (set_prev NUM_IDS) ;;;
  tcb_mod pid (set_next NUM_IDS) ;;;
  tcb_mod pid (set_channel 0) ;;;
  tcb_mod pid (λ t, set_openfiles (<[0 := 0]> (openfiles t)) t) ;;;
  let! d := namei_root in
  tcb_mod pid (set_cwd d).

(** ** PTCBInit *)

Definition tcb_init (mbi : list mboot_mmap) : M thr unit :=
  zoom (paging_init mbi) ;;;
  for_ 0 NUM_IDS (λ pid, tcb_init_at_id pid).

(** ** PTQueueIntro *)

Definition tqueue_mod (chid : Z) (f : TQueue → TQueue) : M thr unit :=
  amod (NUM_IDS + NUM_CPUS) TQueuePool set_TQueuePool chid f.

Definition tqueue_get_head (chid : Z) : M thr Z :=
  let! q := aread (NUM_IDS + NUM_CPUS) TQueuePool chid in ret (head q).
Definition tqueue_set_head (chid h : Z) : M thr unit :=
  tqueue_mod chid (λ q, {| head := h; tail := tail q |}).
Definition tqueue_get_tail (chid : Z) : M thr Z :=
  let! q := aread (NUM_IDS + NUM_CPUS) TQueuePool chid in ret (tail q).
Definition tqueue_set_tail (chid t : Z) : M thr unit :=
  tqueue_mod chid (λ q, {| head := head q; tail := t |}).
Definition tqueue_init_at_id (chid : Z) : M thr unit :=
  tqueue_mod chid (λ q, {| head := NUM_IDS; tail := tail q |}) ;;;
  tqueue_mod chid (λ q, {| head := head q; tail := NUM_IDS |}).

(** ** PTQueueInit *)

Definition tqueue_init (mbi : list mboot_mmap) : M thr unit :=
  tcb_init mbi ;;;
  for_ 0 (NUM_IDS + NUM_CPUS) (λ chid, tqueue_init_at_id chid).

Definition tqueue_enqueue (chid pid : Z) : M thr unit :=
  let! t := tqueue_get_tail chid in
  if t =? NUM_IDS then
    tcb_set_prev pid NUM_IDS ;;;
    tcb_set_next pid NUM_IDS ;;;
    tqueue_set_head chid pid ;;;
    tqueue_set_tail chid pid
  else
    tcb_set_next t pid ;;;
    tcb_set_prev pid t ;;;
    tcb_set_next pid NUM_IDS ;;;
    tqueue_set_tail chid pid.

Definition tqueue_dequeue (chid : Z) : M thr Z :=
  let! h := tqueue_get_head chid in
  if negb (h =? NUM_IDS) then
    let pid := h in
    let! n := tcb_get_next h in
    (if n =? NUM_IDS then
       tqueue_set_head chid NUM_IDS ;;;
       tqueue_set_tail chid NUM_IDS
     else
       tcb_set_prev n NUM_IDS ;;;
       tqueue_set_head chid n) ;;;
    tcb_set_prev pid NUM_IDS ;;;
    tcb_set_next pid NUM_IDS ;;;
    ret pid
  else ret NUM_IDS.

Definition tqueue_remove (chid pid : Z) : M thr unit :=
  let! p := tcb_get_prev pid in
  let! n := tcb_get_next pid in
  (if p =? NUM_IDS then
     if n =? NUM_IDS then
       tqueue_set_head chid NUM_IDS ;;;
       tqueue_set_tail chid NUM_IDS
     else
       tcb_set_prev n NUM_IDS ;;;
       tqueue_set_head chid n
   else
     if n =? NUM_IDS then
       tcb_set_next p NUM_IDS ;;;
       tqueue_set_tail chid p
     else
       when (negb (p =? n)) (tcb_set_next p n) ;;;
       tcb_set_prev n p) ;;;
  tcb_set_prev pid NUM_IDS ;;;
  tcb_set_next pid NUM_IDS.

(** ** PThread *)

Definition sched_lock : M thr unit := fzoom sched_lk set_sched_lk Spinlock.spinlock_acquire.
Definition sched_unlock : M thr unit := fzoom sched_lk set_sched_lk Spinlock.spinlock_release.

Definition thread_init (mbi : list mboot_mmap) : M thr unit :=
  for_ 0 NUM_CPUS (λ i, awrite NUM_CPUS sched_ticks set_sched_ticks i 0) ;;;
  fzoom sched_lk set_sched_lk Spinlock.spinlock_init ;;;
  tqueue_init mbi ;;;
  set_curid 0 ;;;
  tcb_set_state 0 TSTATE_RUN.

Definition thread_spawn (entry id quota : Z) : M thr Z :=
  sched_lock ;;;
  let! pid := kctx_new entry id quota in
  when (negb (pid =? NUM_IDS))
    (tcb_set_state pid TSTATE_READY ;;;
     tqueue_enqueue NUM_IDS pid) ;;;
  sched_unlock ;;;
  ret pid.

Definition thread_yield : M thr unit :=
  sched_lock ;;;
  let! old_cur_pid := get_curid in
  tcb_set_state old_cur_pid TSTATE_READY ;;;
  tqueue_enqueue NUM_IDS old_cur_pid ;;;
  let! new_cur_pid := tqueue_dequeue NUM_IDS in
  tcb_set_state new_cur_pid TSTATE_RUN ;;;
  set_curid new_cur_pid ;;;
  if negb (old_cur_pid =? new_cur_pid) then
    sched_unlock ;;;
    kctx_switch old_cur_pid new_cur_pid
  else
    sched_unlock.

Definition sched_update : M thr unit :=
  sched_lock ;;;
  let! i := get_pcpu_idx in
  amod NUM_CPUS sched_ticks set_sched_ticks i (λ t, u32 (t + 1000 / LAPIC_TIMER_INTR_FREQ)) ;;;
  let! t := aread NUM_CPUS sched_ticks i in
  if t >=? SCHED_SLICE then
    awrite NUM_CPUS sched_ticks set_sched_ticks i 0 ;;;
    sched_unlock ;;;
    thread_yield
  else
    sched_unlock.

(** [thread_sleep] up to its context switch; [lk] releases the caller's lock and
    is [None] for a null pointer.  The result is the sleeping thread. *)
Definition thread_sleep_enter (chan : Z) (lk : option (M thr unit)) : M thr Z :=
  let! curid := get_curid in
  match lk with
  | None => KERN_PANIC ;;; sched_lock ;;; fault (* spinlock_release(0) *)
  | Some release_lk =>
      sched_lock ;;;
      release_lk ;;;
      tcb_set_state curid TSTATE_SLEEP ;;;
      tcb_set_chan curid chan ;;;
      let! new_pid := tqueue_dequeue NUM_IDS in
      tcb_set_state new_pid TSTATE_RUN ;;;
      set_curid new_pid ;;;
      sched_unlock ;;;
      kctx_switch curid new_pid ;;;
      ret curid
  end.

(** The rest of [thread_sleep], when the thread [curid] runs again. *)
Definition thread_sleep_resume (curid : Z) (acquire_lk : M thr unit) : M thr unit :=
  sched_lock ;;;
  tcb_set_chan curid 0 ;;;
  sched_unlock ;;;
  acquire_lk.

Definition thread_wakeup (chan : Z) : M thr unit :=
  sched_lock ;;;
  for_ 1 NUM_IDS (λ pid,
    let! c := tcb_get_chan pid in
    let! awake := (if c =? chan then
                     let! st := tcb_get_state pid in ret (st =? TSTATE_SLEEP)
                   else ret false) in
    when awake
      (tcb_set_state pid TSTATE_READY ;;;
       tcb_set_chan pid 0 ;;;
       tqueue_enqueue NUM_IDS pid)) ;;;
  sched_unlock.

End ops.
