(* ===== verification/Sched.v ===== *)
(** * The thread queues and the scheduler, verified

    The linked queues of kern/thread represent lists of threads: enqueue, dequeue
    and remove are the list operations.  On this the scheduler is specified: round
    robin, wake-ups, and that every ready thread gets its turn. *)

From S2P Require Import Prelude Spinlock Pmmap MAT Container Mem Vmm Isolation Mmu DList Thread.

(** ** Links *)

Definition tcb (s : thr) (pid : Z) : TCB := TCBPool s !!! pid.
Definition tqu (s : thr) (chid : Z) : TQueue := TQueuePool s !!! chid.
Definition nxt (s : thr) (x : Z) : Z := next (tcb s x).
Definition prv (s : thr) (x : Z) : Z := prev (tcb s x).

(** Two states that differ at most in the links of the queues. *)
Record links_only (s s' : thr) : Prop := {
  lo_vmm : t_vmm s' = t_vmm s;
  lo_pcpu : pcpu s' = pcpu s;
  lo_curid : CURID s' = CURID s;
  lo_kctx : kctx_pool s' = kctx_pool s;
  lo_regs : regs s' = regs s;
  lo_lk : sched_lk s' = sched_lk s;
  lo_ticks : sched_ticks s' = sched_ticks s;
  lo_state : ∀ x, tstate (tcb s' x) = tstate (tcb s x);
  lo_chan : ∀ x, channel (tcb s' x) = channel (tcb s x);
  lo_files : ∀ x, openfiles (tcb s' x) = openfiles (tcb s x) ∧ cwd (tcb s' x) = cwd (tcb s x);
}.

#[global] Instance links_only_preorder : PreOrder links_only.
Proof.
  split; [by constructor|]. intros s1 s2 s3 [] [].
  constructor; try congruence. intros x.
  destruct (lo_files0 x), (lo_files1 x). split; congruence.
Qed.

(** The links of [s'] are the given functions. *)
Record linked (s : thr) (n p h t : Z → Z) : Prop := {
  ln_nxt : ∀ x, nxt s x = n x;
  ln_prv : ∀ x, prv s x = p x;
  ln_head : ∀ c, head (tqu s c) = h c;
  ln_tail : ∀ c, tail (tqu s c) = t c;
}.

Lemma linked_self s : linked s (nxt s) (prv s) (λ c, head (tqu s c)) (λ c, tail (tqu s c)).
Proof. done. Qed.

Lemma tcb_after s pid t x :
  tcb (set_TCBPool (<[pid := t]> (TCBPool s)) s) x = if bool_decide (x = pid) then t else tcb s x.
Proof. unfold tcb. simpl. rewrite lookup_total_insert_dec. by repeat case_bool_decide; subst. Qed.

Lemma tqu_after s c q x :
  tqu (set_TQueuePool (<[c := q]> (TQueuePool s)) s) x = if bool_decide (x = c) then q else tqu s x.
Proof. unfold tqu. simpl. rewrite lookup_total_insert_dec. by repeat case_bool_decide; subst. Qed.

Definition chid_ok (c : Z) : Prop := 0 ≤ c < NUM_IDS + NUM_CPUS.

Lemma tcb_get_run {A} (f : TCB → A) pid s :
  0 ≤ pid < NUM_IDS → tcb_get f pid s = Ret (f (tcb s pid), s).
Proof. intros Hp. unfold tcb_get. by kstep (aread_in _ _ _ _ Hp). Qed.

Lemma tcb_mod_run f pid s :
  0 ≤ pid < NUM_IDS →
  tcb_mod pid f s = Ret (tt, set_TCBPool (<[pid := f (tcb s pid)]> (TCBPool s)) s).
Proof. apply amod_in. Qed.

Lemma tqueue_mod_run f c s :
  chid_ok c →
  tqueue_mod c f s = Ret (tt, set_TQueuePool (<[c := f (tqu s c)]> (TQueuePool s)) s).
Proof. apply amod_in. Qed.

(** Solves the goals that say what an update of one record changes. *)
Ltac solve_links :=
  constructor; try done; intros x; unfold nxt, prv, fupd in *;
  rewrite ?tcb_after, ?tqu_after; try case_bool_decide; subst; simpl; auto.

Section steps.
Context {A : Type}.
Implicit Types (P : A → thr → Prop).

Lemma set_next_linked s n p h t pid v (k : M thr A) P :
  linked s n p h t → 0 ≤ pid < NUM_IDS →
  (∀ s', linked s' (fupd n pid v) p h t → links_only s s' → runs k s' P) →
  runs (tcb_set_next pid v ;;; k) s P.
Proof.
  intros [] Hp Hk. eapply runs_bind_eq; [by apply tcb_mod_run|]. apply Hk; solve_links.
Qed.

Lemma set_prev_linked s n p h t pid v (k : M thr A) P :
  linked s n p h t → 0 ≤ pid < NUM_IDS →
  (∀ s', linked s' n (fupd p pid v) h t → links_only s s' → runs k s' P) →
  runs (tcb_set_prev pid v ;;; k) s P.
Proof.
  intros [] Hp Hk. eapply runs_bind_eq; [by apply tcb_mod_run|]. apply Hk; solve_links.
Qed.

Lemma set_head_linked s n p h t c v (k : M thr A) P :
  linked s n p h t → chid_ok c →
  (∀ s', linked s' n p (fupd h c v) t → links_only s s' → runs k s' P) →
  runs (tqueue_set_head c v ;;; k) s P.
Proof.
  intros [] Hp Hk. eapply runs_bind_eq; [by apply tqueue_mod_run|]. apply Hk; solve_links.
Qed.

Lemma set_tail_linked s n p h t c v (k : M thr A) P :
  linked s n p h t → chid_ok c →
  (∀ s', linked s' n p h (fupd t c v) → links_only s s' → runs k s' P) →
  runs (tqueue_set_tail c v ;;; k) s P.
Proof.
  intros [] Hp Hk. eapply runs_bind_eq; [by apply tqueue_mod_run|]. apply Hk; solve_links.
Qed.

End steps.

(** ** Queues as lists *)

(** Queue [c] holds the threads [l], from head to tail. *)
Definition qrep (n p h t : Z → Z) (c : Z) (l : list Z) : Prop :=
  h c = hd_or NUM_IDS l ∧ t c = last_or NUM_IDS l ∧ dseg n p NUM_IDS l NUM_IDS.

(** The lists are duplicate-free, of thread numbers, and no thread is in two. *)
Record queues_wf (Q : Z → list Z) : Prop := {
  qw_nodup : ∀ c, chid_ok c → NoDup (Q c);
  qw_range : ∀ c x, chid_ok c → x ∈ Q c → 0 ≤ x < NUM_IDS;
  qw_disj : ∀ c c' x, chid_ok c → chid_ok c' → x ∈ Q c → x ∈ Q c' → c = c';
}.

Definition queues_rep (n p h t : Z → Z) (Q : Z → list Z) : Prop :=
  queues_wf Q ∧ ∀ c, chid_ok c → qrep n p h t c (Q c).

(** The queues of a state. *)
Definition queues_ok (s : thr) (Q : Z → list Z) : Prop :=
  queues_rep (nxt s) (prv s) (λ c, head (tqu s c)) (λ c, tail (tqu s c)) Q.

Definition qupd (Q : Z → list Z) (c : Z) (l : list Z) : Z → list Z :=
  λ c', if bool_decide (c' = c) then l else Q c'.

Lemma qupd_eq Q c l : qupd Q c l c = l.
Proof. unfold qupd. by rewrite bool_decide_true. Qed.
Lemma qupd_ne Q c l c' : c' ≠ c → qupd Q c l c' = Q c'.
Proof. intros. unfold qupd. by rewrite bool_decide_false. Qed.

Lemma qrep_linked s n p h t c l :
  linked s n p h t → qrep n p h t c l → qrep (nxt s) (prv s) (λ c, head (tqu s c)) (λ c, tail (tqu s c)) c l.
Proof.
  intros [] (Hh & Ht & Hd). split; [by rewrite ln_head0|]. split; [by rewrite ln_tail0|].
  eapply dseg_ext; [|exact Hd]. auto.
Qed.

Lemma queues_linked s n p h t Q : linked s n p h t → queues_rep n p h t Q → queues_ok s Q.
Proof. intros Hl [Hw Hq]. split; [done|]. intros c Hc. eapply qrep_linked; [done|]. auto. Qed.

(** An operation on queue [c] and thread [pid] alone. *)
Lemma queues_change n p h t Q n' p' h' t' c l' pid :
  queues_rep n p h t Q → chid_ok c → 0 ≤ pid < NUM_IDS →
  (∀ c', chid_ok c' → c' ≠ c → pid ∉ Q c') →
  (∀ x, x ∉ Q c → x ≠ pid → n' x = n x ∧ p' x = p x) →
  (∀ c', c' ≠ c → h' c' = h c' ∧ t' c' = t c') →
  qrep n' p' h' t' c l' → NoDup l' → (∀ x, x ∈ l' → x ∈ Q c ∨ x = pid) →
  queues_rep n' p' h' t' (qupd Q c l').
Proof.
  intros [[Hnd Hr Hd] Hq] Hc Hpid Hno Hx Hht Hl' Hnd' Hin. split; [constructor|].
  - intros c' Hc'. destruct (decide (c' = c)) as [->|?]; [by rewrite qupd_eq|].
    rewrite qupd_ne by done. auto.
  - intros c' x Hc'. destruct (decide (c' = c)) as [->|?].
    + rewrite qupd_eq. intros [?| ->]%Hin; [by eapply Hr|done].
    + rewrite qupd_ne by done. by apply Hr.
  - intros c1 c2 x H1 H2. destruct (decide (c1 = c)) as [->|], (decide (c2 = c)) as [->|];
      rewrite ?qupd_eq, ?qupd_ne by done; [done|..]; intros Hx1 Hx2.
    + apply Hin in Hx1 as [?| ->]; [by eapply Hd|]. by destruct (Hno c2).
    + apply Hin in Hx2 as [?| ->]; [by eapply Hd|]. by destruct (Hno c1).
    + by eapply Hd.
  - intros c' Hc'. destruct (decide (c' = c)) as [->|]; [by rewrite qupd_eq|].
    rewrite qupd_ne by done. destruct (Hq c' Hc') as (E1 & E2 & E3).
    unfold qrep. destruct (Hht c') as [-> ->]; [done|]. split; [done|]. split; [done|].
    eapply dseg_ext; [|exact E3]. intros x Hx'. apply Hx.
    + intros Hxc. by assert (c' = c) by (by eapply Hd).
    + intros ->. by destruct (Hno c').
Qed.

Lemma NUM_IDS_not_in Q c : queues_wf Q → chid_ok c → NUM_IDS ∉ Q c.
Proof. intros Hw Hc Hin. apply (qw_range Q Hw c) in Hin; [lia|done]. Qed.

(** *** The list operations on the links *)

Lemma enqueue_empty n p h t Q c pid :
  queues_rep n p h t Q → chid_ok c → 0 ≤ pid < NUM_IDS → (∀ c', chid_ok c' → pid ∉ Q c') →
  Q c = [] →
  queues_rep (fupd n pid NUM_IDS) (fupd p pid NUM_IDS) (fupd h c pid) (fupd t c pid)
    (qupd Q c (Q c ++ [pid])).
Proof.
  intros Hq Hc Hp Hno He. rewrite He. eapply queues_change; try done; auto.
  - intros x _ Hx. by rewrite !fupd_ne.
  - intros c' Hne. by rewrite !fupd_ne.
  - split; [by rewrite fupd_eq|]. split; [by rewrite fupd_eq|]. simpl. by rewrite !fupd_eq.
  - apply NoDup_singleton.
  - intros x Hx%list_elem_of_singleton. by right.
Qed.

Lemma enqueue_tail n p h t Q c pid :
  queues_rep n p h t Q → chid_ok c → 0 ≤ pid < NUM_IDS → (∀ c', chid_ok c' → pid ∉ Q c') →
  Q c ≠ [] → last_or NUM_IDS (Q c) = t c →
  queues_rep (fupd (fupd n (t c) pid) pid NUM_IDS) (fupd p pid (t c)) h (fupd t c pid)
    (qupd Q c (Q c ++ [pid])).
Proof.
  intros Hq Hc Hp Hno He Hlast. pose proof Hq as [Hw Hall]. destruct (Hall c Hc) as (Hh & _ & Hd).
  assert (t c ∈ Q c) as Ht.
  { rewrite <- Hlast. destruct (last_or_elem NUM_IDS (Q c)) as [E|]; [|done].
    apply last_or_nil in E; [done|by apply NUM_IDS_not_in]. }
  assert (t c ≠ pid) as Htp by (intros E; apply (Hno c Hc); by rewrite <- E).
  eapply queues_change; try done; auto.
  - intros x Hx Hne. by rewrite !fupd_ne by (try done; by intros ->).
  - intros c' Hne. by rewrite fupd_ne.
  - split; [rewrite hd_or_app, Hh; by destruct (Q c)|]. split; [by rewrite fupd_eq, last_or_snoc|].
    apply dseg_app. split; [|simpl; rewrite !fupd_eq; by rewrite Hlast].
    eapply dseg_set_next; [by apply qw_nodup|exact Hd|..].
    + intros x Hx. apply fupd_ne. intros ->. by apply (Hno c Hc).
    + intros x Hx Hxl. rewrite !fupd_ne; [done|congruence|]. intros ->. by apply (Hno c Hc).
    + intros _. rewrite Hlast, fupd_ne by done. by rewrite fupd_eq.
  - apply NoDup_app. split; [by apply qw_nodup|]. split; [|apply NoDup_singleton].
    intros x Hx ->%list_elem_of_singleton. by apply (Hno c Hc).
  - intros x [?|?%list_elem_of_singleton]%elem_of_app; auto.
Qed.

(** [pid] leaves its queue when its neighbours are linked to each other. *)
Lemma remove_links n p h t Q c pid l1 l2 n' p' h' t' :
  queues_rep n p h t Q → chid_ok c → Q c = l1 ++ pid :: l2 →
  (∀ x, n' x = if bool_decide (x = pid) then NUM_IDS
               else if bool_decide (x = last_or NUM_IDS l1 ∧ l1 ≠ []) then hd_or NUM_IDS l2 else n x) →
  (∀ x, p' x = if bool_decide (x = pid) then NUM_IDS
               else if bool_decide (x = hd_or NUM_IDS l2 ∧ l2 ≠ []) then last_or NUM_IDS l1 else p x) →
  (∀ c', h' c' = if bool_decide (c' = c) then hd_or NUM_IDS (l1 ++ l2) else h c') →
  (∀ c', t' c' = if bool_decide (c' = c) then last_or NUM_IDS (l1 ++ l2) else t c') →
  queues_rep n' p' h' t' (qupd Q c (l1 ++ l2)).
Proof.
  intros Hq Hc He Hn Hp Hh Ht. pose proof Hq as [Hw Hall]. destruct (Hall c Hc) as (_ & _ & Hd).
  pose proof (qw_nodup Q Hw c Hc) as Hnd. pose proof (NUM_IDS_not_in Q c Hw Hc) as Hno.
  rewrite He in Hd, Hnd, Hno.
  assert (pid ∈ Q c) as Hin by (rewrite He; apply elem_of_app; right; left).
  pose proof Hnd as (Hnd1 & Hdis & [Hpid Hnd2]%NoDup_cons)%NoDup_app.
  assert (∀ x, x ∈ l1 → x ≠ pid ∧ x ∉ l2) as Hx1.
  { intros x Hx. split; [intros ->|intros Hx2]; apply (Hdis _ Hx); [left|by right]. }
  assert (∀ x, x ∈ l2 → x ≠ pid) as Hx2 by (intros x Hx ->; done).
  assert (l1 ≠ [] → last_or NUM_IDS l1 ∈ l1) as Hl1.
  { intros Hne. destruct (last_or_elem NUM_IDS l1) as [E|]; [|done].
    apply last_or_nil in E; [done|]. intros ?. apply Hno, elem_of_app. by left. }
  assert (l2 ≠ [] → hd_or NUM_IDS l2 ∈ l2) as Hl2 by (destruct l2; [done|by left]).
  apply (queues_change n p h t Q _ _ _ _ c (l1 ++ l2) pid); try done.
  - by eapply (qw_range Q Hw c).
  - intros c' Hc' Hne Hin'. apply Hne. by eapply (qw_disj Q Hw).
  - intros x Hx Hne. rewrite Hn, Hp, !(bool_decide_false (x = pid)) by done.
    rewrite He, elem_of_app, elem_of_cons in Hx. split.
    + rewrite bool_decide_false; [done|]. intros [-> ?]. tauto.
    + rewrite bool_decide_false; [done|]. intros [-> ?]. tauto.
  - intros c' Hne. by rewrite Hh, Ht, !bool_decide_false.
  - split; [by rewrite Hh, bool_decide_true|]. split; [by rewrite Ht, bool_decide_true|].
    apply (dseg_remove NUM_IDS n p l1 l2 pid); try done.
    + intros x Hx Hne. rewrite Hn, !bool_decide_false; [done|tauto|]. by apply Hx1.
    + intros x Hx. destruct (Hx1 x Hx). rewrite Hp, !bool_decide_false; [done| |done].
      intros [-> ?]. auto.
    + intros Hne. rewrite Hn, (bool_decide_false (_ = pid)), bool_decide_true; [done|done|].
      apply Hx1. auto.
    + intros x Hx. rewrite Hn, !bool_decide_false; [done| |by apply Hx2].
      intros [-> ?]. by destruct (Hx1 _ (Hl1 ltac:(done))).
    + intros x Hx Hne. rewrite Hp, !bool_decide_false; [done|tauto|by apply Hx2].
    + intros Hne. rewrite Hp, (bool_decide_false (_ = pid)), bool_decide_true; [done|done|]. auto.
  - apply NoDup_app. split; [done|]. split; [|done]. intros x Hx. by apply Hx1.
  - intros x Hx. left. rewrite He. rewrite elem_of_app in Hx |- *. rewrite elem_of_cons. tauto.
Qed.

(** *** The operations *)

Lemma runs_end {St} (m : M St unit) s P : runs (m ;;; ret tt) s P → runs m s P.
Proof. unfold runs, bind. by destruct (m s) as [[[] s']| | |]. Qed.

Lemma get_head_run c s : chid_ok c → tqueue_get_head c s = Ret (head (tqu s c), s).
Proof. intros Hc. unfold tqueue_get_head. by kstep (aread_in _ _ _ _ Hc). Qed.
Lemma get_tail_run c s : chid_ok c → tqueue_get_tail c s = Ret (tail (tqu s c), s).
Proof. intros Hc. unfold tqueue_get_tail. by kstep (aread_in _ _ _ _ Hc). Qed.

Definition enqueued (Q : Z → list Z) (c pid : Z) : Z → list Z := qupd Q c (Q c ++ [pid]).

Lemma enqueue_runs s Q c pid :
  queues_ok s Q → chid_ok c → 0 ≤ pid < NUM_IDS → (∀ c', chid_ok c' → pid ∉ Q c') →
  runs (tqueue_enqueue c pid) s (λ _ s', queues_ok s' (enqueued Q c pid) ∧ links_only s s').
Proof.
  intros Hq Hc Hp Hno. pose proof Hq as [Hw Hall]. destruct (Hall c Hc) as (_ & Ht & _).
  unfold tqueue_enqueue. eapply runs_bind_eq; [by apply get_tail_run|].
  pose proof (linked_self s) as L0.
  pose proof (last_or_nil _ _ (NUM_IDS_not_in Q c Hw Hc)) as Hnil.
  destruct (Z.eqb_spec (tail (tqu s c)) NUM_IDS) as [E|E].
  - eapply set_prev_linked; [done|done|]. intros s1 L1 O1.
    eapply set_next_linked; [done|done|]. intros s2 L2 O2.
    eapply set_head_linked; [done|done|]. intros s3 L3 O3.
    apply runs_end. eapply set_tail_linked; [done|done|]. intros s4 L4 O4. apply runs_ret.
    split; [|by rewrite O1, O2, O3]. eapply queues_linked; [exact L4|].
    apply enqueue_empty; try done. apply Hnil. congruence.
  - assert (Q c ≠ []) as Hne by (intros Hz; apply E; rewrite Ht; by apply Hnil).
    assert (0 ≤ tail (tqu s c) < NUM_IDS) as Htr.
    { apply (qw_range Q Hw c); [done|]. rewrite Ht.
      destruct (last_or_elem NUM_IDS (Q c)) as [E'|]; [|done]. congruence. }
    eapply set_next_linked; [done|done|]. intros s1 L1 O1.
    eapply set_prev_linked; [done|done|]. intros s2 L2 O2.
    eapply set_next_linked; [done|done|]. intros s3 L3 O3.
    apply runs_end. eapply set_tail_linked; [done|done|]. intros s4 L4 O4. apply runs_ret.
    split; [|by rewrite O1, O2, O3]. eapply queues_linked; [exact L4|].
    apply (enqueue_tail (nxt s) (prv s) (λ c, head (tqu s c)) (λ c, tail (tqu s c))); done.
Qed.

(** Solves the goals that compare updated links with [remove_links]. *)
Ltac solve_fupd := intros; unfold fupd; repeat case_bool_decide; subst; simpl in *; intuition congruence.

Lemma remove_runs s Q c pid l1 l2 :
  queues_ok s Q → chid_ok c → Q c = l1 ++ pid :: l2 →
  runs (tqueue_remove c pid) s (λ _ s', queues_ok s' (qupd Q c (l1 ++ l2)) ∧ links_only s s').
Proof.
  intros Hq Hc He. pose proof Hq as [Hw Hall]. destruct (Hall c Hc) as (Hh & Ht & Hd).
  assert (∀ x, x ∈ l1 ++ pid :: l2 → 0 ≤ x < NUM_IDS) as Hr
    by (intros x Hx; apply (qw_range Q Hw c); [done|by rewrite He]).
  assert (0 ≤ pid < NUM_IDS) as Hpid by (apply Hr, elem_of_app; right; left).
  pose proof (NUM_IDS_not_in Q c Hw Hc) as Hno. rewrite He in Hd, Hno, Hh, Ht.
  rewrite not_elem_of_app, not_elem_of_cons in Hno. destruct Hno as (Hno1 & Hnp & Hno2).
  apply dseg_middle in Hd as [Ep En]. change (prv s pid) with (prev (tcb s pid)) in Ep.
  change (nxt s pid) with (next (tcb s pid)) in En.
  assert (last_or NUM_IDS l1 = NUM_IDS ∨ last_or NUM_IDS l1 ∈ l1) as Hl1 by apply last_or_elem.
  assert (hd_or NUM_IDS l2 = NUM_IDS ∨ hd_or NUM_IDS l2 ∈ l2) as Hl2 by apply hd_or_elem.
  pose proof (last_or_nil _ _ Hno1) as N1. pose proof (hd_or_nil _ _ Hno2) as N2.
  pose proof (qw_nodup Q Hw c Hc) as Hnd. rewrite He in Hnd.
  pose proof Hnd as (_ & Hdis & [Hpid2 _]%NoDup_cons)%NoDup_app.
  pose proof (linked_self s) as L0. rewrite hd_or_app in Hh. rewrite last_or_app in Ht. simpl in Hh, Ht.
  unfold tqueue_remove. eapply runs_bind_eq; [by apply tcb_get_run|].
  eapply runs_bind_eq; [by apply tcb_get_run|]. rewrite Ep, En.
  destruct (Z.eqb_spec (last_or NUM_IDS l1) NUM_IDS) as [E1|E1],
    (Z.eqb_spec (hd_or NUM_IDS l2) NUM_IDS) as [E2|E2].
  - apply N1 in E1 as ->. apply N2 in E2 as ->. apply runs_bind.
    eapply set_head_linked; [done|done|]. intros s1 L1 O1. apply runs_end.
    eapply set_tail_linked; [done|done|]. intros s2 L2 O2. apply runs_ret.
    eapply set_prev_linked; [done|done|]. intros s3 L3 O3. apply runs_end.
    eapply set_next_linked; [done|done|]. intros s4 L4 O4. apply runs_ret.
    split; [|by rewrite O1, O2, O3]. eapply queues_linked; [exact L4|].
    eapply (remove_links _ _ _ _ Q c pid [] []); try done; solve_fupd.
  - apply N1 in E1 as ->. destruct Hl2 as [?|Hl2]; [done|]. apply runs_bind.
    assert (hd_or NUM_IDS l2 ≠ pid) as Hnh by congruence.
    eapply set_prev_linked; [done|apply Hr; by right|]. intros s1 L1 O1. apply runs_end.
    eapply set_head_linked; [done|done|]. intros s2 L2 O2. apply runs_ret.
    eapply set_prev_linked; [done|done|]. intros s3 L3 O3. apply runs_end.
    eapply set_next_linked; [done|done|]. intros s4 L4 O4. apply runs_ret.
    split; [|by rewrite O1, O2, O3]. eapply queues_linked; [exact L4|].
    assert (l2 ≠ []) by (by intros ->). assert (last_or NUM_IDS l2 = last_or pid l2) by (by destruct l2).
    eapply (remove_links _ _ _ _ Q c pid [] l2); try done; solve_fupd.
  - apply N2 in E2 as ->. destruct Hl1 as [?|Hl1]; [done|]. apply runs_bind.
    assert (last_or NUM_IDS l1 ≠ pid) as Hnh.
    { intros Ex. rewrite Ex in Hl1. apply (Hdis _ Hl1). left. }
    eapply set_next_linked; [done|apply Hr, elem_of_app; by left|]. intros s1 L1 O1. apply runs_end.
    eapply set_tail_linked; [done|done|]. intros s2 L2 O2. apply runs_ret.
    eapply set_prev_linked; [done|done|]. intros s3 L3 O3. apply runs_end.
    eapply set_next_linked; [done|done|]. intros s4 L4 O4. apply runs_ret.
    split; [|by rewrite O1, O2, O3]. eapply queues_linked; [exact L4|].
    assert (l1 ≠ []) by (by intros ->).
    assert (hd_or NUM_IDS l1 = hd_or pid l1) by (by destruct l1).
    eapply (remove_links _ _ _ _ Q c pid l1 []); try done; rewrite ?app_nil_r; solve_fupd.
  - destruct Hl1 as [?|Hl1]; [done|]. destruct Hl2 as [?|Hl2]; [done|].
    assert (last_or NUM_IDS l1 ≠ pid) as Hn1.
    { intros Ex. rewrite Ex in Hl1. apply (Hdis _ Hl1). left. }
    assert (hd_or NUM_IDS l2 ≠ pid) as Hn2 by congruence.
    assert (last_or NUM_IDS l1 ≠ hd_or NUM_IDS l2) as Hn12.
    { intros Ex. apply (Hdis _ Hl1). right. by rewrite Ex. }
    rewrite (proj2 (Z.eqb_neq _ _) Hn12). simpl when. apply runs_bind.
    eapply set_next_linked; [done|apply Hr, elem_of_app; by left|]. intros s1 L1 O1. apply runs_end.
    eapply set_prev_linked; [done|apply Hr, elem_of_app; right; by right|]. intros s2 L2 O2. apply runs_ret.
    eapply set_prev_linked; [done|done|]. intros s3 L3 O3. apply runs_end.
    eapply set_next_linked; [done|done|]. intros s4 L4 O4. apply runs_ret.
    split; [|by rewrite O1, O2, O3]. eapply queues_linked; [exact L4|].
    assert (l1 ≠ []) by (by intros ->). assert (l2 ≠ []) by (by intros ->).
    assert (hd_or NUM_IDS (l1 ++ l2) = hd_or pid l1) by (by destruct l1).
    assert (last_or NUM_IDS (l1 ++ l2) = last_or pid l2)
      by (rewrite last_or_app; by destruct l2).
    eapply (remove_links _ _ _ _ Q c pid l1 l2); try done; solve_fupd.
Qed.

Lemma queues_Qext s Q Q' : (∀ c, Q' c = Q c) → queues_ok s Q → queues_ok s Q'.
Proof.
  intros E [[H1 H2 H3] Hall]. split; [constructor|].
  - intros c Hc. rewrite E. auto.
  - intros c x Hc. rewrite E. by apply H2.
  - intros c c' x Hc Hc'. rewrite !E. by apply H3.
  - intros c Hc. rewrite E. auto.
Qed.

Lemma queues_qupd_same s Q c l : queues_ok s Q → Q c = l → queues_ok s (qupd Q c l).
Proof.
  intros Hq <-. eapply queues_Qext; [|exact Hq].
  intros c'. unfold qupd. by case_bool_decide; subst.
Qed.

Lemma dequeue_runs s Q c :
  queues_ok s Q → chid_ok c →
  runs (tqueue_dequeue c) s (λ r s', r = hd_or NUM_IDS (Q c) ∧
    queues_ok s' (qupd Q c (tl (Q c))) ∧ links_only s s').
Proof.
  intros Hq Hc. pose proof Hq as [Hw Hall]. destruct (Hall c Hc) as (Hh & Ht & Hd).
  unfold tqueue_dequeue. eapply runs_bind_eq; [by apply get_head_run|]. rewrite Hh.
  pose proof (NUM_IDS_not_in Q c Hw Hc) as Hno.
  destruct (Q c) as [|x l] eqn:El; simpl hd_or; simpl tl.
  { apply runs_ret. split; [done|]. split; [by apply queues_qupd_same|done]. }
  apply not_elem_of_cons in Hno as [Hx Hno]. destruct Hd as (_ & En & _).
  assert (∀ y, y ∈ x :: l → 0 ≤ y < NUM_IDS) as Hr
    by (intros y Hy; apply (qw_range Q Hw c); [done|by rewrite El]).
  assert (0 ≤ x < NUM_IDS) as Hxr by (apply Hr; left).
  pose proof (qw_nodup Q Hw c Hc) as Hnd. rewrite El in Hnd. apply NoDup_cons in Hnd as [Hxl _].
  rewrite (proj2 (Z.eqb_neq x NUM_IDS)) by lia. cbv zeta. simpl negb. cbv iota.
  pose proof (linked_self s) as L0. change (nxt s x) with (next (tcb s x)) in En.
  eapply runs_bind_eq; [by apply tcb_get_run|]. rewrite En. apply runs_bind.
  destruct l as [|y l]; simpl hd_or in *; simpl last_or in Ht.
  - rewrite Z.eqb_refl.
    eapply set_head_linked; [done|done|]. intros s1 L1 O1. apply runs_end.
    eapply set_tail_linked; [done|done|]. intros s2 L2 O2. apply runs_ret.
    eapply set_prev_linked; [done|done|]. intros s3 L3 O3.
    eapply set_next_linked; [done|done|]. intros s4 L4 O4. apply runs_ret.
    split; [done|]. split; [|by rewrite O1, O2, O3]. eapply queues_linked; [exact L4|].
    eapply (remove_links _ _ _ _ Q c x [] []); try done; solve_fupd.
  - assert (y ≠ x) as Hyx by (intros ->; apply Hxl; left).
    assert (0 ≤ y < NUM_IDS) as Hyr by (apply Hr; right; left).
    rewrite (proj2 (Z.eqb_neq y NUM_IDS)) by lia.
    eapply set_prev_linked; [done|done|]. intros s1 L1 O1. apply runs_end.
    eapply set_head_linked; [done|done|]. intros s2 L2 O2. apply runs_ret.
    eapply set_prev_linked; [done|done|]. intros s3 L3 O3.
    eapply set_next_linked; [done|done|]. intros s4 L4 O4. apply runs_ret.
    split; [done|]. split; [|by rewrite O1, O2, O3]. eapply queues_linked; [exact L4|].
    eapply (remove_links _ _ _ _ Q c x [] (y :: l)); try done; solve_fupd.
Qed.

(** ** The abstract scheduler *)

(** What the scheduler is about, as mathematical data: the ready list, the state
    and the channel of every thread, the running thread, and the saved contexts. *)
Record sched := {
  ready : list Z;
  st_of : Z → Z;
  chan_of : Z → Z;
  cur : Z;
  ctxs : gmap Z kctx;
  cpu_regs : kctx;
  vm : vmm;
  ticks : gmap Z Z;
}.

Definition set_st (p v : Z) (a : sched) : sched := {| ready := ready a; st_of := fupd (st_of a) p v;
  chan_of := chan_of a; cur := cur a; ctxs := ctxs a; cpu_regs := cpu_regs a; vm := vm a;
  ticks := ticks a |}.
Definition set_chan (p v : Z) (a : sched) : sched := {| ready := ready a; st_of := st_of a;
  chan_of := fupd (chan_of a) p v; cur := cur a; ctxs := ctxs a; cpu_regs := cpu_regs a; vm := vm a;
  ticks := ticks a |}.
Definition set_ready (l : list Z) (a : sched) : sched := {| ready := l; st_of := st_of a;
  chan_of := chan_of a; cur := cur a; ctxs := ctxs a; cpu_regs := cpu_regs a; vm := vm a;
  ticks := ticks a |}.
Definition set_cur (p : Z) (a : sched) : sched := {| ready := ready a; st_of := st_of a;
  chan_of := chan_of a; cur := p; ctxs := ctxs a; cpu_regs := cpu_regs a; vm := vm a;
  ticks := ticks a |}.
Definition set_ctxs (c : gmap Z kctx) (a : sched) : sched := {| ready := ready a; st_of := st_of a;
  chan_of := chan_of a; cur := cur a; ctxs := c; cpu_regs := cpu_regs a; vm := vm a;
  ticks := ticks a |}.
Definition set_vm (v : vmm) (a : sched) : sched := {| ready := ready a; st_of := st_of a;
  chan_of := chan_of a; cur := cur a; ctxs := ctxs a; cpu_regs := cpu_regs a; vm := v;
  ticks := ticks a |}.
Definition set_ticks (t : gmap Z Z) (a : sched) : sched := {| ready := ready a; st_of := st_of a;
  chan_of := chan_of a; cur := cur a; ctxs := ctxs a; cpu_regs := cpu_regs a; vm := vm a;
  ticks := t |}.

(** The context switch. *)
Definition switch (p q : Z) (a : sched) : sched := {| ready := ready a; st_of := st_of a;
  chan_of := chan_of a; cur := cur a; ctxs := <[p := cpu_regs a]> (ctxs a);
  cpu_regs := (<[p := cpu_regs a]> (ctxs a) : gmap Z kctx) !!! q; vm := vm a;
  ticks := ticks a |}.

(** Round robin: the running thread goes to the end, the first one runs. *)
Definition spec_yield (a : sched) : sched :=
  let l := ready a ++ [cur a] in
  let q := hd_or NUM_IDS l in
  let a' := set_cur q (set_st q TSTATE_RUN
              (set_ready (tl l) (set_st (cur a) TSTATE_READY a))) in
  if cur a =? q then a' else switch (cur a) q a'.

(** A timer interrupt: a tick, or the end of the time slice. *)
Definition spec_tick (cpu : Z) (a : sched) : sched :=
  let t := u32 (ticks a !!! cpu + 1000 / LAPIC_TIMER_INTR_FREQ) in
  if t >=? SCHED_SLICE
  then spec_yield (set_ticks (<[cpu := 0]> (<[cpu := t]> (ticks a))) a)
  else set_ticks (<[cpu := t]> (ticks a)) a.

Definition spec_sleep (chan : Z) (a : sched) : sched :=
  let q := hd_or NUM_IDS (ready a) in
  switch (cur a) q (set_cur q (set_st q TSTATE_RUN
    (set_ready (tl (ready a)) (set_chan (cur a) chan (set_st (cur a) TSTATE_SLEEP a))))).

(** One iteration of the loop of [thread_wakeup]. *)
Definition wake1 (chan p : Z) (a : sched) : sched :=
  if (chan_of a p =? chan) && (st_of a p =? TSTATE_SLEEP)
  then set_ready (ready a ++ [p]) (set_chan p 0 (set_st p TSTATE_READY a)) else a.

Definition spec_wakeup (chan : Z) (a : sched) : sched :=
  foldl (λ a p, wake1 chan p a) a (seqZ 1 63).

Record sched_wf (a : sched) : Prop := {
  sw_nodup : NoDup (ready a);
  sw_ready : ∀ p, p ∈ ready a ↔ 0 ≤ p < NUM_IDS ∧ st_of a p = TSTATE_READY;
  sw_cur : 0 ≤ cur a < NUM_IDS;
  sw_run : ∀ p, 0 ≤ p < NUM_IDS → st_of a p = TSTATE_RUN ↔ p = cur a;
}.

Definition ready_only (l : list Z) : Z → list Z := λ c, if bool_decide (c = NUM_IDS) then l else [].

(** The concrete state represents the abstract one. *)
Record represents `{KEnv} (s : thr) (a : sched) : Prop := {
  re_queues : queues_ok s (ready_only (ready a));
  re_st : ∀ p, tstate (tcb s p) = st_of a p;
  re_chan : ∀ p, channel (tcb s p) = chan_of a p;
  re_cpu : 0 ≤ ks_cpu_idx < NUM_CPUS;
  re_pcpu : pcpu_cpu_idx (pcpu s !!! ks_cpu_idx) = ks_cpu_idx;
  re_cur : CURID s !!! ks_cpu_idx = cur a;
  re_ctxs : kctx_pool s = ctxs a;
  re_regs : regs s = cpu_regs a;
  re_vm : t_vmm s = vm a;
  re_ticks : sched_ticks s = ticks a;
}.

Section refinement.
Context `{KEnv}.
Hypothesis Hmagic : ks_magic = KSTACK_MAGIC.

Lemma queues_ok_ext s s' Q :
  (∀ x, nxt s' x = nxt s x ∧ prv s' x = prv s x) → TQueuePool s' = TQueuePool s →
  queues_ok s Q → queues_ok s' Q.
Proof.
  intros Hx Hq [Hw Hall]. split; [done|]. intros c Hc. destruct (Hall c Hc) as (E1 & E2 & E3).
  unfold qrep, tqu. rewrite Hq. split; [done|]. split; [done|].
  eapply dseg_ext; [|exact E3]. auto.
Qed.

Lemma links_tcb s pid t x :
  next t = next (tcb s pid) → prev t = prev (tcb s pid) →
  let s' := set_TCBPool (<[pid := t]> (TCBPool s)) s in
  nxt s' x = nxt s x ∧ prv s' x = prv s x.
Proof.
  intros E1 E2 s'. unfold nxt, prv, s'. rewrite !tcb_after. by case_bool_decide; subst.
Qed.

Section steps.
Context {A : Type}.
Implicit Types (P : A → thr → Prop).

Lemma set_state_rep s a pid v (k : M thr A) P :
  represents s a → 0 ≤ pid < NUM_IDS →
  (∀ s', represents s' (set_st pid v a) → sched_lk s' = sched_lk s → runs k s' P) →
  runs (tcb_set_state pid v ;;; k) s P.
Proof.
  intros [] Hp Hk. eapply runs_bind_eq; [by apply tcb_mod_run|]. apply Hk; [|done].
  constructor; try done.
  - apply (queues_ok_ext s); [|done|done]. intros x. by apply links_tcb.
  - intros x. rewrite tcb_after. simpl. unfold fupd. repeat case_bool_decide; subst; simpl; auto.
  - intros x. rewrite tcb_after. simpl. case_bool_decide; subst; simpl; auto.
Qed.

Lemma set_chan_rep s a pid v (k : M thr A) P :
  represents s a → 0 ≤ pid < NUM_IDS →
  (∀ s', represents s' (set_chan pid v a) → sched_lk s' = sched_lk s → runs k s' P) →
  runs (tcb_set_chan pid v ;;; k) s P.
Proof.
  intros [] Hp Hk. eapply runs_bind_eq; [by apply tcb_mod_run|]. apply Hk; [|done].
  constructor; try done.
  - apply (queues_ok_ext s); [|done|done]. intros x. by apply links_tcb.
  - intros x. rewrite tcb_after. simpl. case_bool_decide; subst; simpl; auto.
  - intros x. rewrite tcb_after. simpl. unfold fupd. repeat case_bool_decide; subst; simpl; auto.
Qed.

Lemma lock_rep s a (k : M thr A) P :
  represents s a → lock (sched_lk s) = 0 →
  (∀ s', represents s' a → runs k s' P) → runs (sched_lock ;;; k) s P.
Proof.
  intros [] Hl Hk. eapply runs_bind_eq; [by apply fzoom_Ret, Spinlock.acquire_free|].
  apply Hk. by constructor.
Qed.

Lemma unlock_rep s a (k : M thr A) P :
  represents s a → (∀ s', represents s' a → lock (sched_lk s') = 0 → runs k s' P) →
  runs (sched_unlock ;;; k) s P.
Proof.
  intros [] Hk. eapply runs_bind_eq; [by apply fzoom_Ret|]. apply Hk; [by constructor|done].
Qed.

Lemma get_pcpu_idx_run s a : represents s a → get_pcpu_idx s = Ret (ks_cpu_idx, s).
Proof.
  intros []. unfold get_pcpu_idx, pcpu_cur, get_kstack_cpu_idx. rewrite bind_ret_l.
  kstep (aread_in _ pcpu _ s re_cpu0). by rewrite re_pcpu0.
Qed.

Lemma get_curid_run s a : represents s a → get_curid s = Ret (cur a, s).
Proof.
  intros Hr. unfold get_curid. kstep (get_pcpu_idx_run s a Hr). destruct Hr.
  rewrite aread_in by done. by rewrite re_cur0.
Qed.

Lemma set_curid_rep s a p (k : M thr A) P :
  represents s a → (∀ s', represents s' (set_cur p a) → sched_lk s' = sched_lk s → runs k s' P) →
  runs (set_curid p ;;; k) s P.
Proof.
  intros Hr Hk. pose proof (get_pcpu_idx_run s a Hr) as Ei. destruct Hr.
  eapply runs_bind_eq; [unfold set_curid; kstep Ei; by apply awrite_in|]. apply Hk; [|done].
  constructor; try done. simpl. by rewrite lookup_total_insert_eq.
Qed.

Lemma switch_rep s a p q (k : M thr A) P :
  represents s a → 0 ≤ p < NUM_IDS → 0 ≤ q < NUM_IDS →
  (∀ s', represents s' (switch p q a) → sched_lk s' = sched_lk s → runs k s' P) →
  runs (kctx_switch p q ;;; k) s P.
Proof.
  intros [] Hp Hq Hk. eapply runs_bind_eq.
  { unfold kctx_switch, gets. kstep (eq_refl : _ s = Ret (regs s, s)).
    kstep (awrite_in _ kctx_pool _ _ _ _ Hp). by kstep (aread_in _ kctx_pool _ _ Hq). }
  apply Hk; [|done]. constructor; try done; simpl; by rewrite re_ctxs0, re_regs0.
Qed.

Lemma enqueue_rep s a pid (k : M thr A) P :
  represents s a → 0 ≤ pid < NUM_IDS → pid ∉ ready a →
  (∀ s', represents s' (set_ready (ready a ++ [pid]) a) → sched_lk s' = sched_lk s → runs k s' P) →
  runs (tqueue_enqueue NUM_IDS pid ;;; k) s P.
Proof.
  intros [] Hp Hno Hk. eapply runs_bind_mono.
  { apply (enqueue_runs s (ready_only (ready a))); [done|done|done|].
    intros c _. unfold ready_only. case_bool_decide; [done|]. apply not_elem_of_nil. }
  intros [] s' [Hq []]. apply Hk; [|done]. constructor; [|intros p; by rewrite lo_state0|intros p; by rewrite lo_chan0|done|simpl; congruence..].
  eapply queues_Qext; [|exact Hq]. intros c. simpl. unfold enqueued, qupd, ready_only.
  by repeat case_bool_decide.
Qed.

Lemma dequeue_rep s a (k : Z → M thr A) P :
  represents s a →
  (∀ s', represents s' (set_ready (tl (ready a)) a) → sched_lk s' = sched_lk s →
         runs (k (hd_or NUM_IDS (ready a))) s' P) →
  runs (let! p := tqueue_dequeue NUM_IDS in k p) s P.
Proof.
  intros [] Hk. eapply runs_bind_mono; [by apply (dequeue_runs s (ready_only (ready a)))|].
  assert (ready_only (ready a) NUM_IDS = ready a) as -> by done.
  intros r s' (-> & Hq & []). apply Hk; [|done]. constructor; [|intros p; by rewrite lo_state0|intros p; by rewrite lo_chan0|done|simpl; congruence..].
  eapply queues_Qext; [|exact Hq]. intros c. simpl. unfold qupd, ready_only.
  by repeat case_bool_decide.
Qed.

End steps.

(** *** The operations refine the abstract scheduler *)

(** After an operation the state represents [a'] and the scheduler lock is free. *)
Definition sched_post (a' : sched) (s' : thr) : Prop :=
  represents s' a' ∧ lock (sched_lk s') = 0.

Lemma next_range a :
  sched_wf a → 0 ≤ hd_or NUM_IDS (ready a ++ [cur a]) < NUM_IDS.
Proof.
  intros []. destruct (ready a) as [|x l] eqn:E; simpl; [done|].
  apply sw_ready0. left.
Qed.

Lemma yield_runs s a :
  represents s a → sched_wf a → lock (sched_lk s) = 0 →
  runs thread_yield s (λ _ s', sched_post (spec_yield a) s').
Proof.
  intros Hr Hw Hl. pose proof (next_range a Hw) as Hn. unfold thread_yield.
  eapply lock_rep; [done|done|]. intros s1 R1.
  eapply runs_bind_eq; [by eapply get_curid_run|].
  eapply set_state_rep; [done|by apply sw_cur|]. intros s2 R2 _.
  eapply enqueue_rep; [done|by apply sw_cur| |].
  { simpl. intros [_ E]%sw_ready; [|done].
    rewrite (proj2 (sw_run a Hw (cur a) (sw_cur a Hw)) eq_refl) in E. discriminate E. }
  intros s3 R3 _. eapply dequeue_rep; [done|]. intros s4 R4 _.
  change (ready (set_ready ?l ?x)) with l in *. simpl cur in *.
  eapply set_state_rep; [done|done|]. intros s5 R5 _.
  eapply set_curid_rep; [done|]. intros s6 R6 _. unfold spec_yield. cbv zeta.
  change (ready (set_st (cur a) TSTATE_READY a)) with (ready a) in *.
  destruct (Z.eqb_spec (cur a) (hd_or NUM_IDS (ready a ++ [cur a]))) as [E|E]; simpl negb; cbv iota.
  - apply runs_end. eapply unlock_rep; [done|]. intros s7 R7 Hl7. by apply runs_ret.
  - eapply unlock_rep; [done|]. intros s7 R7 Hl7. apply runs_end.
    eapply switch_rep; [done|by apply sw_cur|done|]. intros s8 R8 Hl8. apply runs_ret.
    split; [done|congruence].
Qed.

Lemma sleep_runs s a chan release_lk :
  represents s a → sched_wf a → lock (sched_lk s) = 0 → ready a ≠ [] →
  (∀ t, represents t a → runs release_lk t (λ _ t', represents t' a ∧ sched_lk t' = sched_lk t)) →
  runs (thread_sleep_enter chan (Some release_lk)) s (λ p s',
    p = cur a ∧ sched_post (spec_sleep chan a) s').
Proof.
  intros Hr Hw Hl Hne Hrel. unfold thread_sleep_enter.
  assert (0 ≤ hd_or NUM_IDS (ready a) < NUM_IDS) as Hn.
  { destruct (ready a) as [|x l] eqn:E; [done|]. apply (sw_ready a Hw). rewrite E. left. }
  eapply runs_bind_eq; [by eapply get_curid_run|].
  eapply lock_rep; [done|done|]. intros s1 R1.
  eapply runs_bind_mono; [by apply Hrel|]. intros [] s1' [R1' _].
  eapply set_state_rep; [done|by apply sw_cur|]. intros s2 R2 _.
  eapply set_chan_rep; [done|by apply sw_cur|]. intros s3 R3 _.
  eapply dequeue_rep; [done|]. intros s4 R4 _. simpl ready in *.
  eapply set_state_rep; [done|done|]. intros s5 R5 _.
  eapply set_curid_rep; [done|]. intros s6 R6 _.
  eapply unlock_rep; [done|]. intros s7 R7 Hl7.
  eapply switch_rep; [done|by apply sw_cur|done|]. intros s8 R8 Hl8. apply runs_ret.
  split; [done|]. split; [done|congruence].
Qed.

(** With no ready thread, [thread_sleep] uses the thread number [NUM_IDS], outside
    the table. *)
Lemma sleep_empty s a chan release_lk :
  represents s a → sched_wf a → lock (sched_lk s) = 0 → ready a = [] →
  (∀ t, represents t a → runs release_lk t (λ _ t', represents t' a ∧ sched_lk t' = sched_lk t)) →
  thread_sleep_enter chan (Some release_lk) s = Fault.
Proof.
  intros Hr Hw Hl He Hrel. unfold thread_sleep_enter.
  kstep (get_curid_run s a Hr).
  assert (runs (sched_lock ;;; release_lk ;;; tcb_set_state (cur a) TSTATE_SLEEP ;;;
    tcb_set_chan (cur a) chan ;;; let! p := tqueue_dequeue NUM_IDS in ret p) s
    (λ p _, p = NUM_IDS)) as Hpre.
  { eapply lock_rep; [done|done|]. intros s1 R1.
    eapply runs_bind_mono; [by apply Hrel|]. intros [] s1' [R1' _].
    eapply set_state_rep; [done|by apply sw_cur|]. intros s2 R2 _.
    eapply set_chan_rep; [done|by apply sw_cur|]. intros s3 R3 _.
    eapply dequeue_rep; [done|]. intros s4 R4 _. apply runs_ret. simpl. by rewrite He. }
  apply runs_eq in Hpre as (p & s' & E & ->).
  repeat (apply bind_inv in E as (? & ? & E1 & E); rewrite (bind_Ret _ _ _ _ _ E1); clear E1).
  by injection E as -> ->.
Qed.

(** *** sched_update *)

Lemma set_ticks_rep s a t :
  represents s a → represents (set_sched_ticks t s) (set_ticks t a).
Proof. by intros []; constructor. Qed.

Lemma ticks_wf a t : sched_wf a → sched_wf (set_ticks t a).
Proof. by intros []; constructor. Qed.

Lemma tick_runs s a :
  represents s a → sched_wf a → lock (sched_lk s) = 0 →
  runs sched_update s (λ _ s', sched_post (spec_tick ks_cpu_idx a) s').
Proof.
  intros Hr Hw Hl. unfold sched_update. eapply lock_rep; [done|done|]. intros s1 R1.
  pose proof (re_cpu _ _ R1) as Hc.
  eapply runs_bind_eq; [by eapply get_pcpu_idx_run|].
  eapply runs_bind_eq; [by apply amod_in|].
  eapply runs_bind_eq; [by apply aread_in|]. simpl. rewrite lookup_total_insert_eq, (re_ticks _ _ R1).
  unfold spec_tick. cbv zeta.
  pose proof (set_ticks_rep s1 a (<[ks_cpu_idx := u32 (ticks a !!! ks_cpu_idx +
    1000 / LAPIC_TIMER_INTR_FREQ)]> (ticks a)) R1) as R2.
  destruct (_ >=? _).
  - eapply runs_bind_eq; [by apply awrite_in|]. simpl.
    pose proof (set_ticks_rep _ _ (<[ks_cpu_idx := 0]> (<[ks_cpu_idx := u32 (ticks a !!! ks_cpu_idx +
      1000 / LAPIC_TIMER_INTR_FREQ)]> (ticks a))) R2) as R3.
    eapply unlock_rep; [exact R3|]. intros s4 R4 Hl4.
    apply yield_runs; [done|by apply ticks_wf|done].
  - apply runs_end. eapply unlock_rep; [exact R2|]. intros s3 R3 Hl3. by apply runs_ret.
Qed.

(** *** thread_wakeup *)

Lemma ready_state_distinct : TSTATE_READY ≠ TSTATE_RUN ∧ TSTATE_SLEEP ≠ TSTATE_READY ∧
  TSTATE_SLEEP ≠ TSTATE_RUN ∧ TSTATE_DEAD ≠ TSTATE_READY ∧ TSTATE_DEAD ≠ TSTATE_RUN.
Proof. done. Qed.

(** A thread that is neither ready nor running becomes ready. *)
Lemma make_ready_wf a p :
  sched_wf a → 0 ≤ p < NUM_IDS → st_of a p ≠ TSTATE_READY → st_of a p ≠ TSTATE_RUN →
  sched_wf (set_ready (ready a ++ [p]) (set_st p TSTATE_READY a)).
Proof.
  intros [] Hp H1 H2. constructor; simpl; try done.
  - apply NoDup_app. split; [done|]. split; [|apply NoDup_singleton].
    intros x Hx ->%list_elem_of_singleton. by apply sw_ready0 in Hx as [_ ?].
  - intros x. rewrite elem_of_app, list_elem_of_singleton, sw_ready0. unfold fupd.
    case_bool_decide; [subst; tauto|]. tauto.
  - intros x Hx. unfold fupd. case_bool_decide; [subst|by apply sw_run0]. split; [done|].
    intros ->. by destruct (H2 (proj2 (sw_run0 _ Hp) eq_refl)).
Qed.

Lemma chan_wf a p v : sched_wf a → sched_wf (set_chan p v a).
Proof. by intros []; constructor. Qed.

Lemma wake1_wf chan p a : sched_wf a → 0 ≤ p < NUM_IDS → sched_wf (wake1 chan p a).
Proof.
  intros Hw Hp. unfold wake1. destruct (_ && _) eqn:E; [|done].
  apply andb_true_iff in E as [_ E%Z.eqb_eq].
  change (sched_wf (set_chan p 0 (set_ready (ready a ++ [p]) (set_st p TSTATE_READY a)))).
  apply chan_wf, make_ready_wf; try done; by rewrite E.
Qed.

Lemma wake1_runs s a chan p :
  represents s a → sched_wf a → 0 ≤ p < NUM_IDS →
  runs (let! c := tcb_get_chan p in
        let! awake := (if c =? chan then
                         let! st := tcb_get_state p in ret (st =? TSTATE_SLEEP)
                       else ret false) in
        when awake (tcb_set_state p TSTATE_READY ;;; tcb_set_chan p 0 ;;;
                    tqueue_enqueue NUM_IDS p)) s
    (λ _ s', represents s' (wake1 chan p a)).
Proof.
  intros Hr Hw Hp. unfold wake1. eapply runs_bind_eq; [by apply tcb_get_run|].
  rewrite (re_chan s a Hr).
  destruct (Z.eqb_spec (chan_of a p) chan) as [E|E]; simpl; [|by apply runs_bind, runs_ret, runs_ret].
  apply runs_bind. eapply runs_bind_eq; [by apply tcb_get_run|]. apply runs_ret.
  rewrite (re_st s a Hr).
  destruct (Z.eqb_spec (st_of a p) TSTATE_SLEEP) as [E'|E']; simpl; [|by apply runs_ret].
  eapply set_state_rep; [done|done|]. intros s1 R1 _.
  eapply set_chan_rep; [done|done|]. intros s2 R2 _. apply runs_end.
  eapply enqueue_rep; [done|done| |].
  { simpl. intros [_ Hs]%sw_ready; [|done]. rewrite E' in Hs. discriminate Hs. }
  intros s3 R3 _. by apply runs_ret.
Qed.

Lemma wakeup_runs s a chan :
  represents s a → sched_wf a → lock (sched_lk s) = 0 →
  runs (thread_wakeup chan) s (λ _ s', sched_post (spec_wakeup chan a) s' ∧
    sched_wf (spec_wakeup chan a)).
Proof.
  intros Hr Hw Hl. unfold thread_wakeup. eapply lock_rep; [done|done|]. intros s1 R1.
  set (upto j := foldl (λ a p, wake1 chan p a) a (seqZ 1 (j - 1))).
  eapply runs_bind_mono.
  { apply (for_runs (λ j t, represents t (upto j) ∧ sched_wf (upto j))); [done|by simpl|].
    intros p t Hp [Rt Wt]. eapply runs_mono; [by apply wake1_runs; [..|lia]|].
    assert (upto (p + 1) = wake1 chan p (upto p)) as Eu.
    { unfold upto. replace (p + 1 - 1) with (p - 1 + 1) by lia.
      rewrite seqZ_app by lia. rewrite foldl_app. simpl.
      by replace (1 + (p - 1)) with p by lia. }
    intros [] t' Rt'. rewrite Eu. split; [done|]. apply wake1_wf; [done|lia]. }
  intros [] s2 [R2 W2]. apply runs_end. eapply unlock_rep; [done|]. intros s3 R3 Hl3.
  by apply runs_ret.
Qed.

(** *** Well-formedness of the abstract operations *)

Lemma hd_tl_cons d (l : list Z) : l ≠ [] → l = hd_or d l :: tl l.
Proof. by destruct l. Qed.

(** The first ready thread runs, the running one having left [RUN]. *)
Lemma run_first_wf a l :
  NoDup l → l ≠ [] → (∀ p, p ∈ l ↔ 0 ≤ p < NUM_IDS ∧ st_of a p = TSTATE_READY) →
  (∀ p, 0 ≤ p < NUM_IDS → st_of a p ≠ TSTATE_RUN) →
  sched_wf (set_cur (hd_or NUM_IDS l) (set_st (hd_or NUM_IDS l) TSTATE_RUN (set_ready (tl l) a))).
Proof.
  intros Hnd Hne Hin Hrun. destruct l as [|q l]; [done|]. simpl.
  apply NoDup_cons in Hnd as [Hq Hnd]. assert (0 ≤ q < NUM_IDS) as Hqr by (apply Hin; left).
  constructor; simpl; try done.
  - intros p. unfold fupd. case_bool_decide as E.
    + subst. split; [done|]. intros [_ ?]. done.
    + rewrite <- Hin, elem_of_cons. tauto.
  - intros p Hp. unfold fupd. case_bool_decide; [done|]. split; [|done].
    intros E. by destruct (Hrun p Hp).
Qed.

Lemma yield_wf a : sched_wf a → sched_wf (spec_yield a).
Proof.
  intros Hw. pose proof Hw as []. unfold spec_yield. cbv zeta.
  set (b := set_st (cur a) TSTATE_READY a).
  assert (sched_wf (set_cur (hd_or NUM_IDS (ready a ++ [cur a]))
    (set_st (hd_or NUM_IDS (ready a ++ [cur a])) TSTATE_RUN
       (set_ready (tl (ready a ++ [cur a])) b)))) as Hb.
  { apply run_first_wf.
    - apply NoDup_app. split; [done|]. split; [|apply NoDup_singleton].
      intros x Hx ->%list_elem_of_singleton. apply sw_ready0 in Hx as [_ Hx].
      rewrite (proj2 (sw_run0 _ sw_cur0) eq_refl) in Hx. discriminate Hx.
    - by destruct (ready a).
    - intros p. rewrite elem_of_app, list_elem_of_singleton, sw_ready0. unfold b, fupd. simpl.
      unfold fupd. case_bool_decide; [subst; tauto|tauto].
    - intros p Hp. unfold b. simpl. unfold fupd. case_bool_decide; [done|].
      intros E. by apply sw_run0 in E. }
  destruct (_ =? _); [done|]. by destruct Hb; constructor.
Qed.

Lemma sleep_wf a chan : sched_wf a → ready a ≠ [] → sched_wf (spec_sleep chan a).
Proof.
  intros Hw Hne. pose proof Hw as []. unfold spec_sleep. cbv zeta.
  set (b := set_chan (cur a) chan (set_st (cur a) TSTATE_SLEEP a)).
  assert (cur a ∉ ready a) as Hcur.
  { intros [_ Hx]%sw_ready0. rewrite (proj2 (sw_run0 _ sw_cur0) eq_refl) in Hx. discriminate Hx. }
  assert (sched_wf (set_cur (hd_or NUM_IDS (ready a))
    (set_st (hd_or NUM_IDS (ready a)) TSTATE_RUN (set_ready (tl (ready a)) b)))) as Hb.
  { apply run_first_wf; [done|done|..].
    - intros p. rewrite sw_ready0. unfold b. simpl. unfold fupd. case_bool_decide; [|done].
      subst. split; [|by intros [_ ?]]. intros ?%sw_ready0. done.
    - intros p Hp. unfold b. simpl. unfold fupd. case_bool_decide; [done|].
      intros E. by apply sw_run0 in E. }
  by destruct Hb; constructor.
Qed.

End refinement.

(** ** New threads, and whole executions *)

Section spawn.
Context `{KEnv, KernelLayout}.
Hypothesis Hmagic : ks_magic = KSTACK_MAGIC.

(** The context of a new thread: it starts at [entry] on its own kernel stack. *)
Definition new_ctx (entry pid : Z) (k : kctx) : kctx :=
  {| k_esp := kstack_hi pid; k_edi := k_edi k; k_esi := k_esi k; k_ebx := k_ebx k;
     k_ebp := k_ebp k; k_eip := entry |}.

Definition spec_spawn (entry pid : Z) (v : vmm) (a : sched) : sched :=
  set_ready (ready a ++ [pid]) (set_st pid TSTATE_READY
    (set_ctxs (<[pid := new_ctx entry pid (ctxs a !!! pid)]> (ctxs a)) (set_vm v a))).

(** Processes that do not exist are dead threads. *)
Record proc_wf (a : sched) : Prop := {
  pw_sched : sched_wf a;
  pw_vmm : vmm_ok (vm a);
  pw_dead : ∀ p, 1 ≤ p < NUM_IDS → used (ctr (v_cont (vm a)) p) = 0 → st_of a p = TSTATE_DEAD;
}.

(** The conditions that [sys_spawn] checks, and no wrap-around of the sum. *)
Definition spawn_ok (id q : Z) (c : cont) : Prop :=
  0 ≤ id < NUM_IDS ∧ used (ctr c id) ≠ 0 ∧ 0 ≤ q ∧ usage (ctr c id) + q < W32 ∧
  container_can_consume id q c = Ret (1, c) ∧ nchildren (ctr c id) ≠ MAX_CHILDREN ∧
  id * MAX_CHILDREN + 1 + MAX_CHILDREN ≤ NUM_IDS.

Lemma kctx_new_runs s a entry id q :
  represents s a → cont_ok (v_cont (vm a)) → spawn_ok id q (v_cont (vm a)) →
  runs (kctx_new entry id q) s (λ pid s', ∃ v,
    pid = child_of (v_cont (vm a)) id ∧ 1 ≤ pid < NUM_IDS ∧
    split_post id q (v_cont (vm a)) pid (v_cont v) ∧ mem v = mem (vm a) ∧
    represents s' (set_ctxs (<[pid := new_ctx entry pid (ctxs a !!! pid)]> (ctxs a)) (set_vm v a)) ∧
    sched_lk s' = sched_lk s).
Proof.
  intros Hr Hc (Hid & Hu & Hq & Hw & Hcan & Hnc & Hid3).
  destruct (spawn_guards id q (v_cont (vm a))) as (G1 & G2 & G3); [done..|].
  destruct (child_unused id (v_cont (vm a))) as [Hch1 _]; [done..|].
  pose proof (re_vm s a Hr) as Ev. unfold kctx_new. eapply runs_bind_eq.
  { apply zoom_read, zoom_read. change (lget (lget s)) with (v_cont (t_vmm s)).
    rewrite Ev. exact Hcan. }
  change (nz 1) with true. cbv iota. eapply runs_bind_mono.
  { apply (runs_zoom _ _ (λ pid t, ∃ v, pid = child_of (v_cont (vm a)) id ∧
      split_post id q (v_cont (vm a)) pid (v_cont v) ∧ mem v = mem (vm a) ∧ t = lset v s)).
    unfold alloc_mem_quota. apply runs_zoom. change (lget (lget s)) with (v_cont (t_vmm s)).
    rewrite Ev. eapply runs_mono; [by apply container_split_runs|].
    intros pid c Hp. exists (lset c (lget s)). change (lget s) with (t_vmm s). rewrite Ev.
    pose proof Hp as [? _]. done. }
  intros pid t (v & Hpid & Hp & Hm & ->).
  assert (0 ≤ pid < NUM_IDS) as Hpr by lia.
  rewrite (proj2 (Z.eqb_neq pid NUM_IDS)) by lia. simpl negb. cbv iota.
  unfold kctx_set_esp, kctx_set_eip, kctx_mod. apply runs_bind.
  eapply runs_bind_eq; [by apply amod_in|]. eapply runs_of_eq; [by apply amod_in|].
  apply runs_ret. exists v. split; [done|]. split; [lia|]. split; [done|]. split; [done|].
  split; [|done]. destruct Hr. constructor; try done. simpl.
  rewrite lookup_total_insert_eq, insert_insert_eq, re_ctxs0. done.
Qed.

Lemma spawn_runs s a entry id q :
  represents s a → proc_wf a → lock (sched_lk s) = 0 → spawn_ok id q (v_cont (vm a)) →
  runs (thread_spawn entry id q) s (λ pid s', ∃ v,
    pid = child_of (v_cont (vm a)) id ∧ 1 ≤ pid < NUM_IDS ∧
    split_post id q (v_cont (vm a)) pid (v_cont v) ∧ mem v = mem (vm a) ∧
    sched_post (spec_spawn entry pid v a) s').
Proof.
  intros Hr [Hs Hv Hd] Hl Hok. unfold thread_spawn. pose proof (vo_cont _ Hv) as Hc.
  eapply lock_rep; [done|done|done|]. intros s1 R1.
  eapply runs_bind_mono; [by apply kctx_new_runs|].
  intros pid s2 (v & Hpid & Hpr & Hsp & Hm & R2 & _).
  rewrite (proj2 (Z.eqb_neq pid NUM_IDS)) by lia. simpl when. apply runs_bind.
  assert (0 ≤ pid < NUM_IDS) as Hpr0 by lia.
  assert (st_of a pid = TSTATE_DEAD) as Hdead.
  { apply Hd; [done|]. rewrite Hpid. destruct Hok as (? & ? & ? & ? & ? & ? & ?).
    destruct (spawn_guards id q (v_cont (vm a))) as (G1 & G2 & G3); [done..|].
    by apply child_unused. }
  eapply set_state_rep; [done|done|]. intros s3 R3 _. apply runs_end.
  eapply enqueue_rep; [done|done| |].
  { simpl. intros [_ Hx]%(sw_ready a Hs). rewrite Hdead in Hx. discriminate Hx. }
  intros s4 R4 _. apply runs_ret. eapply unlock_rep; [done|]. intros s5 R5 Hl5.
  apply runs_ret. exists v. split_and!; try done; lia.
Qed.

(** Nothing about memory changes but the containers. *)
Lemma split_vmm_ok id q v v' pid :
  vmm_ok v → spawn_ok id q (v_cont v) → split_post id q (v_cont v) pid (v_cont v') →
  mem v' = mem v → vmm_ok v'.
Proof.
  intros Hv (Hid & Hu & Hq & Hw & Hcan & Hnc & Hid3) Hsp Hm.
  destruct (spawn_guards id q (v_cont v)) as (G1 & G2 & G3); [apply Hv|done..|].
  apply (vmm_ok_cont v); [done|done| |].
  - eapply split_post_ok; [..|exact Hsp]; try done. apply Hv.
  - intros g [Hr Ha]. split; [done|]. destruct Hsp as (_ & -> & _). done.
Qed.

Lemma spawn_wf entry id q pid v a :
  proc_wf a → spawn_ok id q (v_cont (vm a)) → split_post id q (v_cont (vm a)) pid (v_cont v) →
  mem v = mem (vm a) → proc_wf (spec_spawn entry pid v a).
Proof.
  intros [Hs Hv Hd] Hok Hsp Hm. pose proof Hsp as (Hpid & _ & Hctr & _).
  pose proof Hok as (Hid & Hu & Hq & Hw & Hcan & Hnc & Hid3).
  destruct (spawn_guards id q (v_cont (vm a))) as (G1 & G2 & G3); [apply Hv|done..|].
  destruct (child_unused id (v_cont (vm a))) as [C1 C2]; [apply Hv|done..|].
  rewrite <- Hpid in C1, C2, G2. assert (st_of a pid = TSTATE_DEAD) as Hdead by (apply Hd; [lia|done]).
  constructor.
  - change (sched_wf (set_ctxs (<[pid := new_ctx entry pid (ctxs a !!! pid)]> (ctxs a)) (set_vm v
      (set_ready (ready a ++ [pid]) (set_st pid TSTATE_READY a))))).
    assert (sched_wf (set_ready (ready a ++ [pid]) (set_st pid TSTATE_READY a))) as [].
    { apply make_ready_wf; try done; [lia|by rewrite Hdead..]. }
    by constructor.
  - by eapply split_vmm_ok.
  - intros p Hp. simpl. rewrite Hctr. unfold fupd.
    destruct (decide (p = pid)) as [->|Hne].
    + destruct (decide (pid = id)) as [->|]; [done|].
      rewrite (bool_decide_false (pid = id)), !bool_decide_true by done. done.
    + rewrite !(bool_decide_false (p = pid)) by done.
      case_bool_decide; [subst; simpl; intros E; done|]. by apply Hd.
Qed.

End spawn.

(** ** Initialisation *)

Section init.
Context `{KEnv, KernelLayout}.
Variable namei_root : M thr Z.
Hypothesis Hnamei : ∀ t, ∃ d, namei_root t = Ret (d, t).

(** Everything but the control blocks. *)
Definition same_but_tcbs (s s' : thr) : Prop :=
  t_vmm s' = t_vmm s ∧ pcpu s' = pcpu s ∧ CURID s' = CURID s ∧ kctx_pool s' = kctx_pool s ∧
  regs s' = regs s ∧ TQueuePool s' = TQueuePool s ∧ sched_lk s' = sched_lk s ∧
  sched_ticks s' = sched_ticks s.

Definition tcb_blank (t : TCB) : Prop :=
  tstate t = TSTATE_DEAD ∧ prev t = NUM_IDS ∧ next t = NUM_IDS ∧ channel t = 0.

Lemma tcb_mod_fuse {A} pid f g (k : M thr A) s :
  (tcb_mod pid f ;;; tcb_mod pid g ;;; k) s = (tcb_mod pid (λ t, g (f t)) ;;; k) s.
Proof.
  unfold tcb_mod, amod, bind. destruct (inb NUM_IDS pid); [|done]. simpl.
  by rewrite lookup_total_insert_eq, insert_insert_eq.
Qed.

Lemma tcb_init_at_id_runs pid s :
  0 ≤ pid < NUM_IDS →
  runs (tcb_init_at_id namei_root pid) s (λ _ s', same_but_tcbs s s' ∧
    tcb_blank (tcb s' pid) ∧ ∀ x, x ≠ pid → tcb s' x = tcb s x).
Proof.
  intros Hp. unfold tcb_init_at_id, tcb_set_state.
  eapply runs_rw; [do 5 rewrite tcb_mod_fuse; kstep (tcb_mod_run _ _ _ Hp); reflexivity|].
  set (s1 := set_TCBPool _ s). destruct (Hnamei s1) as [d Ed].
  eapply runs_bind_eq; [exact Ed|]. eapply runs_of_eq; [by apply tcb_mod_run|].
  split; [done|]. split.
  - rewrite tcb_after, bool_decide_true by done. unfold s1. rewrite tcb_after.
    by rewrite bool_decide_true.
  - intros x Hx. rewrite tcb_after, bool_decide_false by done. unfold s1.
    by rewrite tcb_after, bool_decide_false.
Qed.

Lemma tcb_init_runs mbi s :
  cont_boot (v_cont (t_vmm s)) → Z.of_nat (length (low_entries mbi)) ≤ 128 → Forall mmap_wf mbi →
  runs (tcb_init namei_root mbi) s (λ _ s', ∃ v, paging_post mbi v ∧
    same_but_tcbs (set_t_vmm v s) s' ∧ ∀ x, 0 ≤ x < NUM_IDS → tcb_blank (tcb s' x)).
Proof.
  intros Hb Hl Hwf. unfold tcb_init.
  eapply (runs_bind_mono _ _ _ (λ _ t, ∃ v, paging_post mbi v ∧ t = set_t_vmm v s)).
  { apply runs_zoom. eapply runs_mono; [by apply (paging_init_runs mbi (t_vmm s))|].
    intros [] v Hv. by exists v. }
  intros [] t (v & Hv & ->).
  eapply runs_mono.
  { apply (for_runs (λ j t, same_but_tcbs (set_t_vmm v s) t ∧
      ∀ x, 0 ≤ x < j → tcb_blank (tcb t x))); [done|split; [done|lia]|].
    intros j t Hj [Hs Hx]. eapply runs_mono; [by apply tcb_init_at_id_runs|].
    intros [] t' (Hs' & Hb' & Ho). split.
    - unfold same_but_tcbs in *. intuition congruence.
    - intros x Hr. destruct (decide (x = j)) as [->|]; [done|]. rewrite Ho by done. apply Hx. lia. }
  intros [] s' [? ?]. by exists v.
Qed.

Lemma tqueue_init_at_id_runs c s :
  chid_ok c →
  runs (tqueue_init_at_id c) s (λ _ s', t_vmm s' = t_vmm s ∧ pcpu s' = pcpu s ∧
    CURID s' = CURID s ∧ kctx_pool s' = kctx_pool s ∧ regs s' = regs s ∧ TCBPool s' = TCBPool s ∧
    sched_lk s' = sched_lk s ∧ sched_ticks s' = sched_ticks s ∧
    tqu s' c = {| head := NUM_IDS; tail := NUM_IDS |} ∧ ∀ x, x ≠ c → tqu s' x = tqu s x).
Proof.
  intros Hc. unfold tqueue_init_at_id. eapply runs_bind_eq; [by apply tqueue_mod_run|].
  eapply runs_of_eq; [by apply tqueue_mod_run|]. split_and!; try done.
  - rewrite !tqu_after, !bool_decide_true by done. done.
  - intros x Hx. rewrite !tqu_after. by rewrite !bool_decide_false.
Qed.

Lemma tqueue_init_runs mbi s :
  cont_boot (v_cont (t_vmm s)) → Z.of_nat (length (low_entries mbi)) ≤ 128 → Forall mmap_wf mbi →
  runs (tqueue_init namei_root mbi) s (λ _ s',
    paging_post mbi (t_vmm s') ∧ pcpu s' = pcpu s ∧ CURID s' = CURID s ∧
    sched_lk s' = sched_lk s ∧ sched_ticks s' = sched_ticks s ∧
    (∀ x, 0 ≤ x < NUM_IDS → tcb_blank (tcb s' x)) ∧
    ∀ c, chid_ok c → tqu s' c = {| head := NUM_IDS; tail := NUM_IDS |}).
Proof.
  intros Hb Hl Hwf. unfold tqueue_init. eapply runs_bind_mono; [by apply tcb_init_runs|].
  intros [] s1 (v & Hv & (E1 & E2 & E3 & _ & _ & _ & E7 & E8) & Hbl).
  eapply runs_mono.
  { apply (for_runs (λ j t, t_vmm t = v ∧ pcpu t = pcpu s ∧ CURID t = CURID s ∧
      sched_lk t = sched_lk s ∧ sched_ticks t = sched_ticks s ∧ TCBPool t = TCBPool s1 ∧
      ∀ c, 0 ≤ c < j → tqu t c = {| head := NUM_IDS; tail := NUM_IDS |})); [done| |].
    - split_and!; try done; lia.
    - intros j t Hj (F1 & F2 & F3 & F7 & F8 & FT & FQ).
      eapply runs_mono; [by apply tqueue_init_at_id_runs|].
      intros [] t' (G1 & G2 & G3 & _ & _ & GT & G7 & G8 & GQ & GO).
      split_and!; try congruence. intros c Hc.
      destruct (decide (c = j)) as [->|]; [done|]. rewrite GO by done. apply FQ. lia. }
  intros [] s' (F1 & F2 & F3 & F7 & F8 & FT & FQ). rewrite F1.
  split_and!; try done. intros x Hx. unfold tcb. rewrite FT. by apply Hbl.
Qed.

(** The abstract state after boot: thread 0 runs, every other thread is dead. *)
Definition boot_sched (a : sched) : Prop :=
  ready a = [] ∧ cur a = 0 ∧ proc_wf a.

Lemma empty_queues s :
  (∀ c, chid_ok c → tqu s c = {| head := NUM_IDS; tail := NUM_IDS |}) → queues_ok s (ready_only []).
Proof.
  intros Hq. assert (∀ c, ready_only [] c = []) as E by (intros c; unfold ready_only; by case_bool_decide).
  split; [constructor|]; intros *; rewrite ?E.
  - intros _. apply NoDup_nil_2.
  - by intros _ ?%elem_of_nil.
  - by intros _ _ ?%elem_of_nil.
  - intros Hc. unfold qrep. rewrite Hq by done. done.
Qed.

Lemma thread_init_runs mbi s :
  0 ≤ ks_cpu_idx < NUM_CPUS → pcpu_cpu_idx (pcpu s !!! ks_cpu_idx) = ks_cpu_idx →
  cont_boot (v_cont (t_vmm s)) → Z.of_nat (length (low_entries mbi)) ≤ 128 → Forall mmap_wf mbi →
  runs (thread_init namei_root mbi) s (λ _ s', ∃ a, represents s' a ∧ boot_sched a ∧
    lock (sched_lk s') = 0 ∧ paging_post mbi (vm a)).
Proof.
  intros Hcpu Hp Hb Hl Hwf. unfold thread_init.
  eapply (runs_bind_mono _ _ _ (λ _ t, t_vmm t = t_vmm s ∧ pcpu t = pcpu s)).
  { apply (for_runs (λ _ t, t_vmm t = t_vmm s ∧ pcpu t = pcpu s)); [done|done|].
    intros j t Hj [? ?]. by eapply runs_of_eq; [apply awrite_in|]. }
  intros [] s1 [V1 P1]. eapply runs_bind_eq; [by apply fzoom_Ret|].
  eapply runs_bind_mono; [apply tqueue_init_runs; simpl; by rewrite ?V1|].
  intros [] s2 (Hv & P2 & _ & L2 & _ & Hbl & Hq).
  set (a := {| ready := []; st_of := λ p, tstate (tcb s2 p); chan_of := λ p, channel (tcb s2 p);
    cur := CURID s2 !!! ks_cpu_idx; ctxs := kctx_pool s2; cpu_regs := regs s2; vm := t_vmm s2;
    ticks := sched_ticks s2 |}).
  assert (represents s2 a) as R2.
  { constructor; try done; [by apply empty_queues|]. rewrite P2. simpl. by rewrite P1. }
  eapply set_curid_rep; [exact R2|]. intros s3 R3 L3. apply runs_end.
  eapply set_state_rep; [exact R3|done|]. intros s4 R4 L4. apply runs_ret.
  exists (set_st 0 TSTATE_RUN (set_cur 0 a)). split; [done|].
  assert (lock (sched_lk s4) = 0) as Hlk by (by rewrite L4, L3, L2).
  split; [|by split]. split; [done|]. split; [done|]. constructor.
  - constructor; simpl; try done; try apply NoDup_nil_2.
    + intros p. split; [by intros ?%elem_of_nil|]. unfold fupd. case_bool_decide; [by intros [_ ?]|].
      intros [Hr E]. destruct (Hbl p Hr) as [E' _]. rewrite E' in E. discriminate E.
    + intros p Hr. unfold fupd. case_bool_decide; [done|]. split; [|done].
      intros E. destruct (Hbl p Hr) as [E' _]. rewrite E' in E. discriminate E.
  - apply Hv.
  - intros p Hr _. simpl. rewrite fupd_ne by lia. apply Hbl. lia.
Qed.

End init.

(** ** Executions *)

Section executions.
Context `{KEnv, KernelLayout}.
Hypothesis Hmagic : ks_magic = KSTACK_MAGIC.

(** Code that works on a lock outside the scheduler. *)
Definition neutral (m : M thr unit) : Prop :=
  ∀ t b, represents t b → runs m t (λ _ t', represents t' b ∧ sched_lk t' = sched_lk t).

(** A step of the scheduler; [true] marks the steps that take the processor away
    from the running thread. *)
Inductive sched_step (s : thr) : bool → thr → Prop :=
| ss_yield s' : thread_yield s = Ret (tt, s') → sched_step s true s'
| ss_sleep chan rel p s' :
    neutral rel → thread_sleep_enter chan (Some rel) s = Ret (p, s') → sched_step s true s'
| ss_wakeup chan s' : thread_wakeup chan s = Ret (tt, s') → sched_step s false s'
| ss_spawn entry id q pid s' :
    spawn_ok id q (v_cont (t_vmm s)) →
    thread_spawn entry id q s = Ret (pid, s') → sched_step s false s'.

(** An execution with [n] switches. *)
Inductive sched_run : nat → thr → thr → Prop :=
| sr_refl s : sched_run 0 s s
| sr_turn n s s1 s' : sched_step s true s1 → sched_run n s1 s' → sched_run (S n) s s'
| sr_other n s s1 s' : sched_step s false s1 → sched_run n s1 s' → sched_run n s s'.

Definition sched_ok (s : thr) (a : sched) : Prop :=
  represents s a ∧ proc_wf a ∧ lock (sched_lk s) = 0.

Lemma wakeup_dead chan a p : st_of a p = TSTATE_DEAD → st_of (spec_wakeup chan a) p = TSTATE_DEAD.
Proof.
  unfold spec_wakeup. generalize (seqZ 1 63). intros l. revert a.
  induction l as [|q l IH]; intros a Hd; [done|]. simpl. apply IH.
  unfold wake1. destruct (_ && _) eqn:E; [|done]. simpl. unfold fupd. case_bool_decide; [|done].
  subst q. apply andb_true_iff in E as [_ E%Z.eqb_eq]. rewrite Hd in E. discriminate E.
Qed.

Lemma wakeup_ready chan a : ∃ r, ready (spec_wakeup chan a) = ready a ++ r.
Proof.
  unfold spec_wakeup. generalize (seqZ 1 63). intros l. revert a.
  induction l as [|q l IH]; intros a; [exists []; by rewrite app_nil_r|]. simpl.
  destruct (IH (wake1 chan q a)) as [r ->]. unfold wake1.
  destruct (_ && _); [|by exists r]. exists (q :: r). simpl. by rewrite <- app_assoc.
Qed.

Lemma wakeup_rest chan a : vm (spec_wakeup chan a) = vm a ∧ cur (spec_wakeup chan a) = cur a.
Proof.
  unfold spec_wakeup. generalize (seqZ 1 63). intros l. revert a.
  induction l as [|q l IH]; intros a; [done|]. simpl.
  destruct (IH (wake1 chan q a)) as [-> ->]. unfold wake1. by destruct (_ && _).
Qed.

Lemma dead_not p a : sched_wf a → 0 ≤ p < NUM_IDS → st_of a p = TSTATE_DEAD →
  p ≠ cur a ∧ p ∉ ready a.
Proof.
  intros [] Hp Hd. split.
  - intros ->. rewrite (proj2 (sw_run0 _ sw_cur0) eq_refl) in Hd. discriminate Hd.
  - intros [_ E]%sw_ready0. rewrite E in Hd. discriminate Hd.
Qed.

(** What a step does to the ready list. *)
Definition turn_of (a a' : sched) : Prop :=
  ∃ r, (ready a ++ r ≠ []) ∧ cur a' = hd_or NUM_IDS (ready a ++ r) ∧ ready a' = tl (ready a ++ r).

Lemma yield_proc_wf a : proc_wf a → proc_wf (spec_yield a).
Proof.
  intros [Hs Hv Hd]. pose proof (yield_wf a Hs) as Hw.
  constructor; [done|..]; unfold spec_yield in *; cbv zeta in *;
    destruct (_ =? _); try done; intros p Hp Hu; simpl;
    destruct (dead_not p a Hs ltac:(lia) (Hd p Hp Hu)) as [N1 N2];
    (rewrite !fupd_ne; [by apply Hd|done|]); intros ->;
    destruct (ready a) as [|x l]; simpl in N1, N2; try done; by destruct N2; left.
Qed.

Lemma sleep_proc_wf chan a : proc_wf a → ready a ≠ [] → proc_wf (spec_sleep chan a).
Proof.
  intros [Hs Hv Hd] He. constructor; [by apply sleep_wf|done|]. intros q Hq Hu. simpl.
  destruct (dead_not q a Hs ltac:(lia) (Hd q Hq Hu)) as [N1 N2].
  rewrite !fupd_ne; [by apply Hd|done|]. intros ->.
  destruct (ready a) as [|x l]; [done|]. by destruct N2; left.
Qed.

Lemma wakeup_proc_wf chan a : proc_wf a → sched_wf (spec_wakeup chan a) → proc_wf (spec_wakeup chan a).
Proof.
  intros [Hs Hv Hd] Hw. destruct (wakeup_rest chan a) as [Ev _].
  constructor; [exact Hw|by rewrite Ev|].
  intros p Hp Hu. rewrite Ev in Hu. apply wakeup_dead. by apply Hd.
Qed.

Lemma yield_ok s a :
  sched_ok s a → runs thread_yield s (λ _ s', sched_ok s' (spec_yield a)).
Proof.
  intros (Hr & Hp & Hl). eapply runs_mono; [apply yield_runs; [done|done|apply Hp|done]|].
  intros [] s' [R L]. split; [done|]. split; [by apply yield_proc_wf|done].
Qed.

Lemma sleep_ok s a chan rel :
  sched_ok s a → ready a ≠ [] → neutral rel →
  runs (thread_sleep_enter chan (Some rel)) s (λ p s', p = cur a ∧ sched_ok s' (spec_sleep chan a)).
Proof.
  intros (Hr & Hp & Hl) He Hn.
  eapply runs_mono; [apply sleep_runs; [done|exact Hr|apply Hp|done|done|intros t Ht; by apply Hn]|].
  intros p s' [? [R L]]. split; [done|]. split; [done|]. split; [by apply sleep_proc_wf|done].
Qed.

Lemma wakeup_ok s a chan :
  sched_ok s a → runs (thread_wakeup chan) s (λ _ s', sched_ok s' (spec_wakeup chan a)).
Proof.
  intros (Hr & Hp & Hl). eapply runs_mono; [apply wakeup_runs; [done|done|apply Hp|done]|].
  intros [] s' [[R L] W]. split; [exact R|]. split; [by apply wakeup_proc_wf|exact L].
Qed.

Lemma tick_ok s a :
  sched_ok s a → runs sched_update s (λ _ s', sched_ok s' (spec_tick ks_cpu_idx a)).
Proof.
  intros (Hr & Hp & Hl). eapply runs_mono; [apply tick_runs; [done|done|apply Hp|done]|].
  intros [] s' [R L]. split; [done|]. split; [|done]. unfold spec_tick. cbv zeta.
  assert (∀ t, proc_wf (set_ticks t a)) as Ht.
  { intros t. destruct Hp. constructor; [by apply ticks_wf|done|done]. }
  destruct (_ >=? _); [by apply yield_proc_wf|done].
Qed.

Lemma spawn_ok_runs s a entry id q :
  sched_ok s a → spawn_ok id q (v_cont (vm a)) →
  runs (thread_spawn entry id q) s (λ pid s', ∃ v,
    pid = child_of (v_cont (vm a)) id ∧ st_of a pid = TSTATE_DEAD ∧
    split_post id q (v_cont (vm a)) pid (v_cont v) ∧ mem v = mem (vm a) ∧
    sched_ok s' (spec_spawn entry pid v a)).
Proof.
  intros (Hr & Hp & Hl) Hok. eapply runs_mono; [by apply spawn_runs|].
  intros pid s' (v & Hc & Hpr & Hsp & Hm & R & L). exists v. split; [done|].
  split; [|split; [done|]; split; [done|]; split; [done|]; split; [by eapply spawn_wf|done]].
  destruct Hp as [Hs Hv Hd]. apply Hd; [done|]. rewrite Hc.
  destruct Hok as (? & ? & ? & ? & ? & ? & ?).
  destruct (spawn_guards id q (v_cont (vm a))) as (G1 & G2 & G3); [apply Hv|done..|].
  apply child_unused; [apply Hv|done..].
Qed.

Lemma step_turn s a s' :
  sched_ok s a → sched_step s true s' → ∃ a', sched_ok s' a' ∧ turn_of a a'.
Proof.
  intros Hok Hst. pose proof Hok as (Hr & Hp & Hl).
  inversion Hst as [s1 E|chan rel p s1 Hn E| |]; subst.
  - exists (spec_yield a). split; [exact (runs_elim _ _ _ _ _ (yield_ok s a Hok) E)|].
    exists [cur a]. unfold spec_yield. cbv zeta.
    split; [by destruct (ready a)|]. by destruct (_ =? _).
  - destruct (decide (ready a = [])) as [He|He].
    { rewrite (sleep_empty Hmagic s a chan rel) in E; try done; [apply Hp|intros; by apply Hn]. }
    exists (spec_sleep chan a).
    split; [apply (runs_elim _ _ _ _ _ (sleep_ok s a chan rel Hok He Hn) E)|].
    exists []. rewrite app_nil_r. done.
Qed.

Lemma step_other s a s' :
  sched_ok s a → sched_step s false s' →
  ∃ a' r, sched_ok s' a' ∧ cur a' = cur a ∧ ready a' = ready a ++ r.
Proof.
  intros Hok Hst. inversion Hst as [| |chan s1 E|entry id q pid s1 Hsp E]; subst.
  - destruct (wakeup_ready chan a) as [r Hrr]. destruct (wakeup_rest chan a) as [_ Ec].
    exists (spec_wakeup chan a), r.
    split; [exact (runs_elim _ _ _ _ _ (wakeup_ok s a chan Hok) E)|]. by split.
  - pose proof Hok as (Hr & _). rewrite (re_vm s a Hr) in Hsp.
    destruct (runs_elim _ _ _ _ _ (spawn_ok_runs s a entry id q Hok Hsp) E)
      as (v & _ & _ & _ & _ & Hok').
    by exists (spec_spawn entry pid v a), [pid].
Qed.

(** A thread in the ready list moves up by one with every switch. *)
Lemma moves_up n s s' a i p :
  sched_run n s s' → sched_ok s a → ready a !! i = Some p → (n ≤ i)%nat →
  ∃ a', sched_ok s' a' ∧ ready a' !! (i - n)%nat = Some p.
Proof.
  intros Hr. revert a i. induction Hr as [s|n s s1 s' Hst _ IH|n s s1 s' Hst _ IH]; intros a i Hok Hi Hn.
  - exists a. by rewrite Nat.sub_0_r.
  - destruct (step_turn s a s1 Hok Hst) as (a1 & Hok1 & r & Hne & _ & Hrd).
    destruct i as [|i]; [lia|]. apply (IH a1 i); [done| |lia].
    rewrite Hrd. assert ((ready a ++ r) !! S i = Some p) as E by (by apply lookup_app_l_Some).
    destruct (ready a ++ r); [done|]. done.
  - destruct (step_other s a s1 Hok Hst) as (a1 & r & Hok1 & _ & Hrd).
    apply (IH a1 i); [done| |done]. rewrite Hrd. by apply lookup_app_l_Some.
Qed.

End executions.
