(* ===== verification/RoundRobin.v ===== *)
(** * Properties of the scheduler

    The thread queues are FIFO lists, [thread_yield] and the timer are round robin,
    a sleeping thread is made ready by the wake-up of its channel, and every ready
    thread runs after as many switches as there are threads before it. *)

From S2P Require Import Prelude Spinlock Pmmap MAT Container Mem Vmm Isolation Mmu DList Thread Sched.

(** ** What a wake-up does *)

Definition waits_on (chan : Z) (a : sched) (p : Z) : Prop :=
  chan_of a p = chan ∧ st_of a p = TSTATE_SLEEP.
#[global] Instance waits_on_dec chan a p : Decision (waits_on chan a p).
Proof. unfold waits_on. apply _. Defined.

Lemma wake1_yes chan p a :
  waits_on chan a p →
  wake1 chan p a = set_ready (ready a ++ [p]) (set_chan p 0 (set_st p TSTATE_READY a)).
Proof. intros [E1 E2]. unfold wake1. by rewrite E1, E2, !Z.eqb_refl. Qed.

Lemma wake1_no chan p a : ¬ waits_on chan a p → wake1 chan p a = a.
Proof.
  intros Hn. unfold wake1. destruct (_ && _) eqn:E; [|done].
  apply andb_true_iff in E as [E1%Z.eqb_eq E2%Z.eqb_eq]. by destruct Hn.
Qed.

Lemma wake1_waits chan p q a : q ≠ p → waits_on chan (wake1 chan p a) q ↔ waits_on chan a q.
Proof.
  intros Hne. destruct (decide (waits_on chan a p)) as [Hw|Hw].
  - rewrite wake1_yes by done. unfold waits_on. simpl. by rewrite !fupd_ne.
  - by rewrite wake1_no.
Qed.

Lemma wake_fold chan l a :
  NoDup l → let b := foldl (λ a p, wake1 chan p a) a l in
  ready b = ready a ++ filter (waits_on chan a) l ∧
  ∀ p, (p ∈ l ∧ waits_on chan a p → st_of b p = TSTATE_READY ∧ chan_of b p = 0) ∧
       (¬ (p ∈ l ∧ waits_on chan a p) → st_of b p = st_of a p ∧ chan_of b p = chan_of a p).
Proof.
  revert a. induction l as [|q l IH]; intros a Hnd b; unfold b.
  { simpl. split; [by rewrite app_nil_r|]. intros p. split; [by intros [?%elem_of_nil _]|done]. }
  apply NoDup_cons in Hnd as [Hq Hnd]. simpl. destruct (IH (wake1 chan q a) Hnd) as [-> Hp].
  assert (filter (waits_on chan (wake1 chan q a)) l = filter (waits_on chan a) l) as ->.
  { clear -Hq. induction l as [|x l IH]; [done|]. apply not_elem_of_cons in Hq as [Hx Hq].
    assert (waits_on chan (wake1 chan q a) x ↔ waits_on chan a x) as Hi by (apply wake1_waits; done).
    destruct (decide (waits_on chan a x)).
    - rewrite !filter_cons_True by tauto. f_equal. by apply IH.
    - rewrite !filter_cons_False by tauto. by apply IH. }
  split.
  - destruct (decide (waits_on chan a q)) as [Hw|Hw].
    + rewrite filter_cons_True, wake1_yes by done. simpl. by rewrite <- app_assoc.
    + by rewrite filter_cons_False, wake1_no.
  - intros p. destruct (Hp p) as [H1 H2]. destruct (decide (p = q)) as [->|Hne].
    + destruct H2 as [-> ->]; [tauto|]. destruct (decide (waits_on chan a q)) as [Hw|Hw].
      * rewrite wake1_yes by done. simpl. rewrite !fupd_eq. split; [done|]. intros []. split; [left|done].
      * rewrite wake1_no by done. split; [by intros [_ ?]|done].
    + rewrite elem_of_cons. rewrite wake1_waits in H1, H2 by done.
      split; [intros [[?|?] ?]; [done|by apply H1]|]. intros Hn.
      destruct H2 as [-> ->]; [tauto|]. unfold wake1. destruct (_ && _); [|done].
      simpl. by rewrite !fupd_ne.
Qed.

(** A thread that is not ready is not the next one to run. *)
Lemma not_next a p :
  sched_wf a → ready a ≠ [] → st_of a p ≠ TSTATE_READY → p ≠ hd_or NUM_IDS (ready a).
Proof.
  intros Hs Hne Hst ->. apply Hst. destruct (ready a) as [|x l] eqn:E; [done|].
  apply (sw_ready a Hs). rewrite E. left.
Qed.

(** ** A concrete system *)

Definition demo_thr0 : thr := {|
  t_vmm := demo_vm0;
  pcpu := ∅; CURID := ∅; kctx_pool := ∅; regs := inhabitant; TCBPool := ∅; TQueuePool := ∅;
  sched_lk := {| lock_holder := 9; lock := 0 |}; sched_ticks := ∅ |}.

#[local] Existing Instance demo_env.
#[local] Existing Instance demo_layout.

Lemma demo_thr :
  ∃ s a, thread_init (ret 1) demo_mbi demo_thr0 = Ret (tt, s) ∧ sched_ok s a ∧
    ready a = [] ∧ cur a = 0 ∧ spawn_ok 0 0 (v_cont (vm a)) ∧
    nchildren (ctr (v_cont (vm a)) 0) = 0.
Proof.
  assert (∀ t : thr, ∃ d, ret 1 t = Ret (d, t)) as Hn by (intros t; by exists 1).
  assert (0 ≤ ks_cpu_idx < NUM_CPUS) as Hc by done.
  assert (pcpu_cpu_idx (pcpu demo_thr0 !!! ks_cpu_idx) = ks_cpu_idx) as Hp by (vm_compute; done).
  destruct (proj1 (runs_eq _ _ _) (thread_init_runs (ret 1) Hn demo_mbi demo_thr0 Hc Hp
    (conj (conj eq_refl (conj eq_refl eq_refl)) eq_refl) demo_mbi_length demo_mbi_wf))
    as ([] & s & E & a & Hr & (Hrd & Hcu & Hw) & Hl & (_ & (Hpm & Hok & H0 & _) & _)).
  exists s, a. split; [exact E|]. clear E. split; [done|]. split; [done|]. split; [done|].
  split; [|by rewrite H0]. unfold spawn_ok. rewrite H0. split; [done|]. split; [done|]. split; [done|]. split; [done|].
  split; [|done]. unfold container_can_consume, cget. kstep (aread_in NUM_IDS CONTAINER 0) by done.
  unfold ctr in H0. rewrite H0. simpl. rewrite (demo_boot_free _ Hpm). done.
Qed.

(** The same with a second thread. *)
Lemma demo_thr1 : ∃ s a, sched_ok s a ∧ ready a = [1] ∧ cur a = 0.
Proof.
  destruct demo_thr as (s & a & _ & Hok & Hr & Hc & Hsp & Hn).
  destruct (proj1 (runs_eq _ _ _) (@spawn_ok_runs demo_env demo_layout eq_refl s a 4096 0 0 Hok Hsp))
    as (pid & s' & _ & v & Hpid & _ & Hpo & _ & Hok').
  exists s', (spec_spawn 4096 pid v a). split; [done|]. simpl. rewrite Hr, Hc. split; [|done].
  rewrite Hpid. unfold child_of. by rewrite Hn.
Qed.

Definition no_lock : M thr unit := ret tt.

Lemma no_lock_neutral : neutral no_lock.
Proof. intros t b Hr. by apply runs_ret. Qed.

(** ** The queues *)

(** C36: the linked thread queues implement FIFO lists.  In a state whose queues hold
    the lists [Q], [tqueue_enqueue] appends a thread that is in no queue,
    [tqueue_dequeue] takes the first one ([NUM_IDS] when there is none), and
    [tqueue_remove] takes a thread out of any position; the other queues, and
    everything that is not a link, stay as they are. *)
Theorem tqueue_lists s Q c pid l1 l2 :
  queues_ok s Q → chid_ok c →
  (0 ≤ pid < NUM_IDS → (∀ c', chid_ok c' → pid ∉ Q c') →
   runs (tqueue_enqueue c pid) s (λ _ s', queues_ok s' (qupd Q c (Q c ++ [pid])) ∧ links_only s s')) ∧
  runs (tqueue_dequeue c) s (λ r s', r = hd_or NUM_IDS (Q c) ∧
    queues_ok s' (qupd Q c (tl (Q c))) ∧ links_only s s') ∧
  (Q c = l1 ++ pid :: l2 →
   runs (tqueue_remove c pid) s (λ _ s', queues_ok s' (qupd Q c (l1 ++ l2)) ∧ links_only s s')).
Proof.
  intros Hq Hc. split; [by apply enqueue_runs|]. split; [by apply dequeue_runs|].
  by apply remove_runs.
Qed.

Lemma tqueue_lists_witness :
  ∃ s Q, Q NUM_IDS = [1] ∧
    runs (tqueue_enqueue NUM_IDS 5) s (λ _ s', queues_ok s' (qupd Q NUM_IDS [1; 5]) ∧ links_only s s') ∧
    runs (tqueue_dequeue NUM_IDS) s (λ r s', r = 1 ∧
      queues_ok s' (qupd Q NUM_IDS []) ∧ links_only s s') ∧
    runs (tqueue_remove NUM_IDS 1) s (λ _ s', queues_ok s' (qupd Q NUM_IDS []) ∧ links_only s s').
Proof.
  destruct demo_thr1 as (s & a & (Hr & _) & Hrd & _). pose proof (re_queues _ _ Hr) as Hq.
  rewrite Hrd in Hq. exists s, (ready_only [1]). split; [reflexivity|].
  assert (chid_ok NUM_IDS) as Hc by done.
  destruct (tqueue_lists s (ready_only [1]) NUM_IDS 5 [] [] Hq Hc) as (H1 & H2 & _).
  destruct (tqueue_lists s (ready_only [1]) NUM_IDS 1 [] [] Hq Hc) as (_ & _ & H3).
  split; [|split; [exact H2|exact (H3 eq_refl)]].
  apply H1; [done|]. intros c' _. unfold ready_only. case_bool_decide.
  - rewrite list_elem_of_singleton. lia.
  - apply not_elem_of_nil.
Defined.

(** ** Scheduling *)

Section properties.
Context `{KEnv, KernelLayout}.

(** C27: [thread_yield] and the timer interrupt [sched_update] refine round-robin
    scheduling: from a state that represents [a], a yield returns with the running
    thread at the end of the ready list, the first thread running and the registers
    exchanged; a timer tick only counts, and yields when the time slice is over.  The
    representation, the invariant of the thread states and the free scheduler lock
    are kept. *)
Theorem yield_round_robin s a :
  ks_magic = KSTACK_MAGIC → sched_ok s a →
  runs thread_yield s (λ _ s', sched_ok s' (spec_yield a)) ∧
  runs sched_update s (λ _ s', sched_ok s' (spec_tick ks_cpu_idx a)).
Proof. intros Hm Hok. split; [by apply yield_ok|by apply tick_ok]. Qed.

(** C34: a thread that sleeps on a channel leaves the processor to the first ready
    thread, and the next [thread_wakeup] on that channel makes it ready again, after
    the threads that were ready, together with exactly the other threads (from number
    1 on) that wait on the channel, in the order of their numbers. *)
Theorem sleep_then_wakeup s a chan rel :
  ks_magic = KSTACK_MAGIC → sched_ok s a → ready a ≠ [] → 1 ≤ cur a → neutral rel →
  runs (let! p := thread_sleep_enter chan (Some rel) in thread_wakeup chan ;;; ret p) s
    (λ p s', ∃ b, p = cur a ∧ sched_ok s' b ∧ cur b = hd_or NUM_IDS (ready a) ∧
       ready b = tl (ready a) ++ filter (waits_on chan (spec_sleep chan a)) (seqZ 1 63) ∧
       p ∈ ready b ∧ chan_of b p = 0 ∧
       ∀ q, 1 ≤ q < NUM_IDS → waits_on chan a q → q ∈ ready b).
Proof.
  intros Hm Hok Hne Hc Hn. pose proof Hok as (_ & [Hs _ _] & _). pose proof (sw_cur a Hs) as Hcr.
  eapply runs_bind_mono; [by apply sleep_ok|]. intros p s1 [-> Hok1].
  eapply runs_bind_mono; [by apply wakeup_ok|]. intros [] s2 Hok2. apply runs_ret.
  destruct (wake_fold chan (seqZ 1 63) (spec_sleep chan a) (NoDup_seqZ 1 63)) as [Hrd Hp].
  exists (spec_wakeup chan (spec_sleep chan a)). split; [done|]. split; [exact Hok2|].
  split; [apply wakeup_rest|]. split; [exact Hrd|].
  assert (∀ q, 1 ≤ q < NUM_IDS → q ∈ seqZ 1 63) as Hin
    by (intros q; rewrite elem_of_seqZ; unfold NUM_IDS; lia).
  assert (waits_on chan (spec_sleep chan a) (cur a)) as Hw.
  { split; simpl; [by rewrite fupd_eq|]. rewrite fupd_ne, fupd_eq; [done|].
    apply (not_next a); try done. by rewrite (proj2 (sw_run a Hs _ Hcr) eq_refl). }
  assert (∀ q, 1 ≤ q < NUM_IDS → waits_on chan (spec_sleep chan a) q →
    q ∈ ready (spec_wakeup chan (spec_sleep chan a))) as Hall.
  { intros q Hq Hwq. unfold spec_wakeup. rewrite Hrd, elem_of_app, list_elem_of_filter. right.
    split; [done|by apply Hin]. }
  split; [apply Hall; [lia|done]|]. split; [apply (Hp (cur a)); split; [apply Hin; lia|done]|].
  intros q Hq [Eq1 Eq2]. destruct (decide (q = cur a)) as [->|Hqc]; [apply Hall; [lia|done]|].
  apply Hall; [done|]. split; simpl; [by rewrite fupd_ne|].
  rewrite fupd_ne; [by rewrite fupd_ne|].
  apply (not_next a); try done. by rewrite Eq2.
Qed.

(** With an empty ready list [thread_sleep] takes the queue's answer [NUM_IDS] for a
    thread and writes outside the table of control blocks. *)
Theorem sleep_without_ready s a chan rel :
  ks_magic = KSTACK_MAGIC → sched_ok s a → ready a = [] → neutral rel →
  thread_sleep_enter chan (Some rel) s = Fault.
Proof.
  intros Hm (Hr & [Hs _ _] & Hl) He Hn. eapply sleep_empty; [done|exact Hr|done|done|done|].
  intros t Ht. by apply Hn.
Qed.

(** C35: [thread_spawn], under the checks of [sys_spawn], makes the next child of the
    parent's container a ready thread: it was dead before, it is last in the ready
    list, starts at [entry] on its own kernel stack and owns the quota the parent is
    charged for; memory and all other threads stay as they are. *)
Theorem thread_spawn_spec s a entry id q :
  ks_magic = KSTACK_MAGIC → sched_ok s a → spawn_ok id q (v_cont (vm a)) →
  runs (thread_spawn entry id q) s (λ pid s', ∃ v,
    pid = child_of (v_cont (vm a)) id ∧ st_of a pid = TSTATE_DEAD ∧
    split_post id q (v_cont (vm a)) pid (v_cont v) ∧ mem v = mem (vm a) ∧
    sched_ok s' (spec_spawn entry pid v a)).
Proof. intros Hm. by apply spawn_ok_runs. Qed.

Lemma run_exists s a n :
  ks_magic = KSTACK_MAGIC → sched_ok s a → ∃ s' a', sched_run n s s' ∧ sched_ok s' a'.
Proof.
  intros Hm. revert s a. induction n as [|n IH]; intros s a Hok.
  { exists s, a. split; [constructor|done]. }
  destruct (proj1 (runs_eq _ _ _) (yield_ok Hm s a Hok)) as ([] & s1 & E & Hok1).
  destruct (IH s1 _ Hok1) as (s' & a' & Hr & Hok'). exists s', a'. split; [|done].
  eapply sr_turn; [by apply ss_yield|done].
Qed.

(** C7: no ready thread starves.  A thread with [i] threads before it in the ready list
    is the running thread after [i + 1] switches, whatever else happens in between:
    yields, sleeps, wake-ups and new threads in any order; and the switches do happen,
    since a yield always returns. *)
Theorem ready_thread_runs s a i p :
  ks_magic = KSTACK_MAGIC → sched_ok s a → ready a !! i = Some p →
  (∃ s1 s2, sched_run i s s1 ∧ sched_step s1 true s2) ∧
  ∀ s1 s2, sched_run i s s1 → sched_step s1 true s2 → CURID s2 !!! ks_cpu_idx = p.
Proof.
  intros Hm Hok Hi. split.
  - destruct (run_exists s a i Hm Hok) as (s1 & a1 & Hr & Hok1).
    destruct (proj1 (runs_eq _ _ _) (yield_ok Hm s1 a1 Hok1)) as ([] & s2 & E & _).
    exists s1, s2. split; [done|]. by apply ss_yield.
  - intros s1 s2 Hr Hst.
    destruct (moves_up Hm i s s1 a i p Hr Hok Hi (le_n i)) as (a1 & Hok1 & H1).
    destruct (step_turn Hm s1 a1 s2 Hok1 Hst) as (a2 & (R2 & _) & r & _ & Hc & _).
    rewrite (re_cur _ _ R2), Hc. rewrite Nat.sub_diag in H1.
    by destruct (ready a1) as [|x l]; [|injection H1 as ->].
Qed.

(** [thread_init] returns from the boot state with paging on, no ready thread,
    thread 0 running, all other threads dead, empty queues and free locks. *)
Theorem thread_init_spec namei_root mbi s :
  (∀ t, ∃ d, namei_root t = Ret (d, t)) →
  0 ≤ ks_cpu_idx < NUM_CPUS → pcpu_cpu_idx (pcpu s !!! ks_cpu_idx) = ks_cpu_idx →
  cont_boot (v_cont (t_vmm s)) → Z.of_nat (length (low_entries mbi)) ≤ 128 → Forall mmap_wf mbi →
  runs (thread_init namei_root mbi) s (λ _ s', ∃ a, sched_ok s' a ∧ ready a = [] ∧ cur a = 0 ∧
    paging_post mbi (vm a) ∧ ∀ p, 1 ≤ p < NUM_IDS → st_of a p = TSTATE_DEAD).
Proof.
  intros Hn Hc Hp Hb Hl Hw. eapply runs_mono; [by apply thread_init_runs|].
  intros [] s' (a & R & (Hr & Hcu & Hpw) & Hlk & Hpp). exists a. split; [done|].
  split; [done|]. split; [done|]. split; [done|]. intros p Hr'. apply (pw_dead _ Hpw); [done|].
  destruct Hpp as (_ & (_ & _ & _ & Hj) & _). rewrite Hj by lia. done.
Qed.

End properties.

(** ** The properties at the concrete system *)

Lemma yield_round_robin_witness :
  ∃ s a, ready a = [1] ∧ cur a = 0 ∧ runs thread_yield s (λ _ s', sched_ok s' (spec_yield a)) ∧
    runs sched_update s (λ _ s', sched_ok s' (spec_tick ks_cpu_idx a)) ∧
    cur (spec_yield a) = 1 ∧ ready (spec_yield a) = [0].
Proof.
  destruct demo_thr1 as (s & a & Hok & Hr & Hc). exists s, a.
  destruct (@yield_round_robin demo_env demo_layout s a eq_refl Hok) as [H1 H2].
  split; [done|]. split; [done|]. split; [done|]. split; [done|].
  unfold spec_yield. rewrite Hr, Hc. done.
Defined.

Lemma sleep_then_wakeup_witness :
  ∃ s a, cur a = 1 ∧ ready a = [0] ∧
  runs (let! p := thread_sleep_enter 77 (Some no_lock) in thread_wakeup 77 ;;; ret p) s
    (λ p s', ∃ b, p = cur a ∧ sched_ok s' b ∧ cur b = hd_or NUM_IDS (ready a) ∧
       ready b = tl (ready a) ++ filter (waits_on 77 (spec_sleep 77 a)) (seqZ 1 63) ∧
       p ∈ ready b ∧ chan_of b p = 0 ∧
       ∀ q, 1 ≤ q < NUM_IDS → waits_on 77 a q → q ∈ ready b).
Proof.
  destruct demo_thr1 as (s & a & Hok & Hr & Hc).
  destruct (proj1 (runs_eq _ _ _) (@yield_ok demo_env demo_layout eq_refl s a Hok)) as ([] & s1 & _ & Hok1).
  assert (cur (spec_yield a) = 1 ∧ ready (spec_yield a) = [0]) as [Hc1 Hr1]
    by (unfold spec_yield; by rewrite Hr, Hc).
  exists s1, (spec_yield a). split; [done|]. split; [done|].
  assert (ready (spec_yield a) ≠ []) as Hne by (by rewrite Hr1).
  assert (1 ≤ cur (spec_yield a)) as Hge by (by rewrite Hc1).
  exact (@sleep_then_wakeup demo_env demo_layout s1 (spec_yield a) 77 no_lock eq_refl Hok1 Hne Hge
           no_lock_neutral).
Defined.

Lemma sleep_without_ready_witness :
  ∃ s, thread_sleep_enter 77 (Some no_lock) s = Fault.
Proof.
  destruct demo_thr as (s & a & _ & Hok & Hr & _). exists s.
  exact (@sleep_without_ready demo_env demo_layout s a 77 no_lock eq_refl Hok Hr no_lock_neutral).
Defined.

Lemma thread_spawn_spec_witness :
  ∃ s a, ready a = [] ∧ runs (thread_spawn 4096 0 0) s (λ pid s', ∃ v,
    pid = child_of (v_cont (vm a)) 0 ∧ st_of a pid = TSTATE_DEAD ∧
    split_post 0 0 (v_cont (vm a)) pid (v_cont v) ∧ mem v = mem (vm a) ∧
    sched_ok s' (spec_spawn 4096 pid v a)).
Proof.
  destruct demo_thr as (s & a & _ & Hok & Hr & _ & Hsp & _). exists s, a. split; [done|].
  exact (@thread_spawn_spec demo_env demo_layout s a 4096 0 0 eq_refl Hok Hsp).
Defined.

Lemma ready_thread_runs_witness :
  ∃ s, (∃ s1 s2, sched_run 0 s s1 ∧ sched_step s1 true s2) ∧
    ∀ s1 s2, sched_run 0 s s1 → sched_step s1 true s2 → CURID s2 !!! ks_cpu_idx = 1.
Proof.
  destruct demo_thr1 as (s & a & Hok & Hr & _). exists s.
  assert (ready a !! 0%nat = Some 1) as Hi by (by rewrite Hr).
  exact (@ready_thread_runs demo_env demo_layout s a 0%nat 1 eq_refl Hok Hi).
Defined.

Lemma thread_init_spec_witness :
  runs (thread_init (ret 1) demo_mbi) demo_thr0 (λ _ s', ∃ a, sched_ok s' a ∧ ready a = [] ∧
    cur a = 0 ∧ paging_post demo_mbi (vm a) ∧ ∀ p, 1 ≤ p < NUM_IDS → st_of a p = TSTATE_DEAD).
Proof.
  assert (∀ t : thr, ∃ d, ret 1 t = Ret (d, t)) as Hn by (intros t; by exists 1).
  assert (0 ≤ ks_cpu_idx < NUM_CPUS) as Hc by done.
  assert (pcpu_cpu_idx (pcpu demo_thr0 !!! ks_cpu_idx) = ks_cpu_idx) as Hp by (vm_compute; done).
  exact (@thread_init_spec demo_env demo_layout (ret 1) demo_mbi demo_thr0 Hn Hc Hp
    (conj (conj eq_refl (conj eq_refl eq_refl)) eq_refl) demo_mbi_length demo_mbi_wf).
Defined.
