(* ===== verification/LayerTests.v ===== *)
(** * The unit tests of the layers

    The files test.c of kern/pmm, kern/vmm and kern/thread: each test returns 0 when it
    passes and 1 when it does not.  The messages, and the tests that are left to the reader
    ([..._test_own], which return 0), are left out. *)

From S2P Require Import Prelude Spinlock Pmmap MAT Container Mem Vmm Thread.

(** A test ends with 1, or goes on. *)
Definition fail_if {St} (b : bool) (k : M St Z) : M St Z := if b then ret 1 else k.
Notation "'failing' b ;;; k" := (fail_if b k) (at level 100, b at level 9, k at level 200, right associativity).

(** The sum of the results, in the order of the calls. *)
Definition sum2 {St} (a b : M St Z) : M St Z := let! x := a in let! y := b in ret (x + y).

Definition neqb (a b : Z) : bool := negb (a =? b).

Section pmm.
Context `{KEnv}.

(** ** MATIntro *)

Definition rn10 : list Z := [1; 3; 5; 6; 78; 3576; 32; 8; 0; 100].

Definition MATIntro_test1 : M mat Z :=
  let! nps := get_nps in
  let! r := for_exit 0 10 (λ i,
    let v := rn10 !!! Z.to_nat i in
    set_nps v ;;;
    let! n := get_nps in
    if neqb n v then set_nps nps ;;; ret (Some 1) else ret None) in
  match r with
  | Some v => ret v
  | None => set_nps nps ;;; ret 0
  end.

(** The page 0 after [at_set_perm(0, p)] must be normal or not, and free. *)
Definition perm_check (p norm : Z) (k : M mat Z) : M mat Z :=
  at_set_perm 0 p ;;;
  let! n := at_is_norm 0 in
  let! a := (if neqb n norm then ret 0 else at_is_allocated 0) in
  if neqb n norm || neqb a 0 then at_set_perm 0 0 ;;; ret 1 else k.

Definition MATIntro_test2 : M mat Z :=
  perm_check 0 0 (perm_check 1 0 (perm_check 2 1 (perm_check 100 1 (at_set_perm 0 0 ;;; ret 0)))).

Definition alloc_check (v a : Z) (k : M mat Z) : M mat Z :=
  at_set_allocated 1 v ;;;
  let! b := at_is_allocated 1 in
  if neqb b a then at_set_allocated 1 0 ;;; ret 1 else k.

Definition MATIntro_test3 : M mat Z :=
  alloc_check 0 0 (alloc_check 1 1 (alloc_check 100 1 (at_set_allocated 1 0 ;;; ret 0))).

Definition test_MATIntro : M mat Z := sum2 (sum2 MATIntro_test1 MATIntro_test2) MATIntro_test3.

(** ** MATInit *)

Definition MATInit_test1 : M mat Z :=
  let! n := get_nps in
  let nps := s32 n in
  failing (nps <=? 1000) ;;;
  let! r := for_exit 0 nps (λ i,
    let! a := at_is_allocated i in
    if neqb a 0 then ret (Some 1)
    else
      let! bad := (if (i <? VM_USERLO_PI) || (VM_USERHI_PI <=? i)
                   then let! n := at_is_norm i in ret (neqb n 0) else ret false) in
      ret (if bad : bool then Some 1 else None)) in
  ret (default 0 r).

Definition test_MATInit : M mat Z := MATInit_test1.

(** ** MATOp *)

Definition MATOp_test1 : M mat Z :=
  let! p := palloc in
  let page_index := s32 p in
  if (page_index <? VM_USERLO_PI) || (VM_USERHI_PI <=? page_index) then pfree (u32 page_index) ;;; ret 1
  else
    let! n := at_is_norm page_index in
    if neqb n 1 then pfree page_index ;;; ret 1
    else
      let! a := at_is_allocated page_index in
      if neqb a 1 then pfree page_index ;;; ret 1
      else
        pfree page_index ;;;
        let! a := at_is_allocated page_index in
        failing (neqb a 0) ;;;
        ret 0.

Definition test_MATOp : M mat Z := MATOp_test1.

(** ** MContainer *)

Definition MContainer_test1 : M cont Z :=
  let! q := container_get_quota 0 in
  failing (q <=? 10000) ;;;
  let! c := container_can_consume 0 10000 in
  failing (neqb c 1) ;;;
  let! c := container_can_consume 0 10000000 in
  failing (neqb c 0) ;;;
  ret 0.

Definition MContainer_test2 : M cont Z :=
  let! old_usage := container_get_usage 0 in
  let! old_nchildren := container_get_nchildren 0 in
  let! chid := container_split 0 100 in
  let! q := container_get_quota chid in
  let! p := container_get_parent chid in
  let! u := container_get_usage chid in
  let! n := container_get_nchildren chid in
  let! u0 := container_get_usage 0 in
  let! n0 := container_get_nchildren 0 in
  failing (neqb q 100 || neqb p 0 || neqb u 0 || neqb n 0 || neqb u0 (u32 (old_usage + 100)) || neqb n0 (u32 (old_nchildren + 1))) ;;;
  container_alloc chid ;;;
  let! u := container_get_usage chid in
  failing (neqb u 1) ;;;
  ret 0.

Definition test_MContainer : M cont Z := sum2 MContainer_test1 MContainer_test2.

End pmm.

Section vmm.
Context `{KEnv, KernelLayout}.

(** ** MPTIntro *)

Definition MPTIntro_test1 : M vmm Z :=
  set_pdir_base 0 ;;;
  let! cr3 := gets CR3 in
  failing (neqb (PDirPool 0 0) cr3) ;;;
  set_pdir_entry_identity 1 1 ;;;
  set_pdir_entry 1 2 100 ;;;
  let! e := get_pdir_entry 1 1 in
  failing (neqb e (u32 (IDPTbl 1 0 + 7))) ;;;
  let! e := get_pdir_entry 1 2 in
  failing (neqb e 409607) ;;;
  rmv_pdir_entry 1 1 ;;;
  rmv_pdir_entry 1 2 ;;;
  let! e1 := get_pdir_entry 1 1 in
  let! e2 := get_pdir_entry 1 2 in
  failing (neqb e1 0 || neqb e2 0) ;;;
  ret 0.

Definition MPTIntro_test2 : M vmm Z :=
  set_pdir_entry 1 1 10000 ;;;
  set_ptbl_entry 1 1 1 10000 259 ;;;
  let! e := get_ptbl_entry 1 1 1 in
  failing (neqb e 40960259) ;;;
  rmv_ptbl_entry 1 1 1 ;;;
  let! e := get_ptbl_entry 1 1 1 in
  failing (neqb e 0) ;;;
  rmv_pdir_entry 1 1 ;;;
  ret 0.

Definition test_MPTIntro : M vmm Z := sum2 MPTIntro_test1 MPTIntro_test2.

(** ** MPTOp *)

Definition MPTOp_test1 : M vmm Z :=
  let vaddr := 4096 * 1024 * 300 in
  let! e := get_ptbl_entry_by_va 10 vaddr in
  failing (neqb e 0) ;;;
  let! e := get_pdir_entry_by_va 10 vaddr in
  failing (neqb e 0) ;;;
  set_pdir_entry_by_va 10 vaddr 100 ;;;
  set_ptbl_entry_by_va 10 vaddr 100 259 ;;;
  let! e := get_ptbl_entry_by_va 10 vaddr in
  failing (e =? 0) ;;;
  let! e := get_pdir_entry_by_va 10 vaddr in
  failing (e =? 0) ;;;
  rmv_ptbl_entry_by_va 10 vaddr ;;;
  rmv_pdir_entry_by_va 10 vaddr ;;;
  let! e := get_ptbl_entry_by_va 10 vaddr in
  failing (neqb e 0) ;;;
  let! e := get_pdir_entry_by_va 10 vaddr in
  failing (neqb e 0) ;;;
  ret 0.

Definition test_MPTOp : M vmm Z := MPTOp_test1.

(** ** MPTComm *)

(** [i * 4096 * 1024], a product of [int]s. *)
Definition int_va {St} (i : Z) : M St Z := let! a := imul i 4096 in imul a 1024.

Definition MPTComm_test1 : M vmm Z :=
  let! r := for_exit 0 1024 (λ i,
    if (i <? 256) || (i >=? 960) then
      let! va := int_va i in
      let! e := get_ptbl_entry_by_va 10 (u32 va) in
      let! va := int_va i in
      let! w := iadd va 259 in
      ret (if neqb e (u32 w) then Some 1 else None)
    else ret None) in
  ret (default 0 r).

Definition MPTComm_test2 : M vmm Z :=
  let vaddr := 300 * 4096 * 1024 in
  zoom (container_split 0 100) ;;;
  alloc_ptbl 1 vaddr ;;;
  let! e := get_pdir_entry_by_va 1 vaddr in
  failing (e =? 0) ;;;
  let! e := get_ptbl_entry_by_va 1 vaddr in
  failing (neqb e 0) ;;;
  free_ptbl 1 vaddr ;;;
  let! e := get_pdir_entry_by_va 1 vaddr in
  failing (neqb e 0) ;;;
  ret 0.

Definition test_MPTComm : M vmm Z := sum2 MPTComm_test1 MPTComm_test2.

(** ** MPTKern *)

Definition MPTKern_test1 : M vmm Z :=
  let vaddr := 4096 * 1024 * 300 in
  zoom (container_split 0 100) ;;;
  let! e := get_ptbl_entry_by_va 1 vaddr in
  failing (neqb e 0) ;;;
  let! e := get_pdir_entry_by_va 1 vaddr in
  failing (neqb e 0) ;;;
  map_page 1 vaddr 100 7 ;;;
  let! e := get_ptbl_entry_by_va 1 vaddr in
  failing (e =? 0) ;;;
  let! e := get_pdir_entry_by_va 1 vaddr in
  failing (e =? 0) ;;;
  unmap_page 1 vaddr ;;;
  let! e := get_ptbl_entry_by_va 1 vaddr in
  failing (neqb e 0) ;;;
  ret 0.

Definition MPTKern_test2 : M vmm Z :=
  let! r := for_exit 256 960 (λ i,
    let! e := get_ptbl_entry_by_va 0 (u32 (i * 4096 * 1024)) in
    ret (if neqb e (u32 (i * 4096 * 1024 + 3)) then Some 1 else None)) in
  ret (default 0 r).

Definition test_MPTKern : M vmm Z := sum2 MPTKern_test1 MPTKern_test2.

(** ** MPTNew *)

Definition MPTNew_test1 : M vmm Z :=
  let vaddr := 4096 * 1024 * 400 in
  zoom (container_split 0 100) ;;;
  let! e := get_ptbl_entry_by_va 1 vaddr in
  failing (neqb e 0) ;;;
  let! e := get_pdir_entry_by_va 1 vaddr in
  failing (neqb e 0) ;;;
  alloc_page 1 vaddr 7 ;;;
  let! e := get_ptbl_entry_by_va 1 vaddr in
  failing (e =? 0) ;;;
  let! e := get_pdir_entry_by_va 1 vaddr in
  failing (e =? 0) ;;;
  ret 0.

Definition test_MPTNew : M vmm Z := MPTNew_test1.

(** ** PKCtxNew *)

Definition PKCtxNew_test1 : M thr Z :=
  let dummy_addr := 0 in
  let! chid := kctx_new dummy_addr 0 1000 in
  let! q := zoom (Sub := vmm) (zoom (container_get_quota chid)) in
  failing (neqb q 1000) ;;;
  let! c := aread NUM_IDS kctx_pool chid in
  failing (neqb (k_eip c) dummy_addr) ;;;
  ret 0.

Definition test_PKCtxNew : M thr Z := PKCtxNew_test1.

(** ** PTCBInit *)

Definition PTCBInit_test1 : M thr Z :=
  let! r := for_exit 1 NUM_IDS (λ i,
    let! st := tcb_get_state i in
    let! p := tcb_get_prev i in
    let! n := tcb_get_next i in
    ret (if neqb st TSTATE_DEAD || neqb p NUM_IDS || neqb n NUM_IDS then Some 1 else None)) in
  ret (default 0 r).

Definition test_PTCBInit : M thr Z := PTCBInit_test1.

(** ** PTQueueInit *)

Definition PTQueueInit_test1 : M thr Z :=
  let! r := for_exit 0 NUM_IDS (λ i,
    let! h := tqueue_get_head i in
    let! t := tqueue_get_tail i in
    ret (if neqb h NUM_IDS || neqb t NUM_IDS then Some 1 else None)) in
  ret (default 0 r).

(** The neighbours of a thread in its queue. *)
Definition links_are (pid p n : Z) (k : M thr Z) : M thr Z :=
  let! p' := tcb_get_prev pid in
  let! n' := tcb_get_next pid in
  failing (neqb p' p || neqb n' n) ;;; k.

Definition PTQueueInit_test2 : M thr Z :=
  tqueue_enqueue 0 2 ;;;
  tqueue_enqueue 0 3 ;;;
  tqueue_enqueue 0 4 ;;;
  links_are 2 NUM_IDS 3 (links_are 3 2 4 (links_are 4 3 NUM_IDS (
  tqueue_remove 0 3 ;;;
  links_are 2 NUM_IDS 4 (links_are 3 NUM_IDS NUM_IDS (links_are 4 2 NUM_IDS (
  let! pid := tqueue_dequeue 0 in
  failing (neqb pid 2) ;;;
  let! p := tcb_get_prev pid in
  let! n := tcb_get_next pid in
  let! h := tqueue_get_head 0 in
  let! t := tqueue_get_tail 0 in
  failing (neqb p NUM_IDS || neqb n NUM_IDS || neqb h 4 || neqb t 4) ;;;
  ret 0)))))).

Definition test_PTQueueInit : M thr Z := sum2 PTQueueInit_test1 PTQueueInit_test2.

(** ** PThread *)

Definition PThread_test1 : M thr Z :=
  let dummy_addr := 0 in
  let! chid := thread_spawn dummy_addr 0 1000 in
  let! st := tcb_get_state chid in
  failing (neqb st TSTATE_READY) ;;;
  let! t := tqueue_get_tail NUM_IDS in
  failing (neqb t chid) ;;;
  ret 0.

Definition test_PThread : M thr Z := PThread_test1.

End vmm.
