(* ===== verification/LayerSpec.v ===== *)
(** * The unit tests of the layers

    On every machine with enough memory, in the state after [thread_init], each test of
    LayerTests returns 0, but for the first test of MPTComm, which is undefined. *)

From S2P Require Import Prelude Spinlock Pmmap MAT Container Mem Vmm Isolation Mmu DList Thread Sched RoundRobin LayerTests.

(** A test that passes. *)
Definition passes {St} (test : M St Z) (s : St) : Prop := runs test s (λ r _, r = 0).

Lemma passes_sum {St} (a b : M St Z) s : (runs a s (λ r s', r = 0 ∧ passes b s')) → passes (sum2 a b) s.
Proof.
  intros Ha. unfold passes, sum2. eapply runs_bind_mono; [exact Ha|]. intros x s1 [-> Hb].
  eapply runs_bind_mono; [exact Hb|]. intros y s2 ->. by apply runs_ret.
Qed.

Section pmm.
Context `{KEnv}.
Hypothesis Hmagic : ks_magic = KSTACK_MAGIC.

Lemma allocated_run i m : 0 ≤ i < AT_LEN →
  at_is_allocated i m = Ret (if allocated (AT m !!! i) >? 0 then 1 else allocated (AT m !!! i), m).
Proof. intros Hi. unfold at_is_allocated. by rewrite (bind_Ret _ _ _ _ _ (aread_in _ _ _ _ Hi)). Qed.

Lemma perm_check_runs p norm k m P :
  norm = b2z (p >? 1) → (∀ m', runs k m' P) → runs (perm_check p norm k) m P.
Proof.
  intros -> Hk. unfold perm_check. eapply runs_bind_eq; [by apply at_set_perm_run|].
  eapply runs_bind_eq; [by apply at_is_norm_run|]. simpl. rewrite lookup_total_insert_eq. simpl. unfold neqb.
  rewrite Z.eqb_refl. eapply runs_bind_eq; [by apply allocated_run|]. simpl. rewrite lookup_total_insert_eq. simpl. apply Hk.
Qed.

Lemma alloc_check_runs v a k m P :
  a = (if v >? 0 then 1 else v) → (∀ m', runs k m' P) → runs (alloc_check v a k) m P.
Proof.
  intros -> Hk. unfold alloc_check. eapply runs_bind_eq; [by apply at_set_allocated_run|].
  eapply runs_bind_eq; [by apply allocated_run|]. simpl. rewrite lookup_total_insert_eq. simpl. unfold neqb.
  rewrite Z.eqb_refl. apply Hk.
Qed.

Lemma MATIntro_passes m : passes test_MATIntro m.
Proof.
  apply passes_sum. unfold sum2. eapply (runs_bind_mono _ _ _ (λ r _, r = 0)).
  { by apply (runs_of_eq MATIntro_test1 m 0 (set_NUM_PAGES (NUM_PAGES m) m)). }
  intros x m1 ->. eapply (runs_bind_mono _ _ _ (λ r _, r = 0)).
  - unfold MATIntro_test2. do 4 (apply perm_check_runs; [done|]; intros ?). eapply runs_bind_eq; [by apply at_set_perm_run|].
    by apply runs_ret.
  - intros y m2 ->. apply runs_ret. split; [done|]. unfold passes, MATIntro_test3.
    do 3 (apply alloc_check_runs; [done|]; intros ?). eapply runs_bind_eq; [by apply at_set_allocated_run|]. by apply runs_ret.
Qed.

(** No page is allocated yet. *)
Lemma MATInit_passes m : mat_ok m → 1000 < NUM_PAGES m → (∀ i, allocated (AT m !!! i) = 0) → passes test_MATInit m.
Proof.
  intros Hok Hn Ha. pose proof (ok_nps m Hok) as Hnps. unfold passes, test_MATInit, MATInit_test1.
  eapply runs_bind_eq; [reflexivity|]. rewrite s32_small by (unfold AT_LEN in *; unfold is_s32; lia).
  unfold fail_if. rewrite (proj2 (Z.leb_gt _ _)) by lia.
  eapply runs_bind_mono.
  { apply (for_exit_runs (λ _ t, t = m) (λ r _, r = None)); [lia|done| |done]. intros i t Hi ->.
    eapply runs_bind_eq; [apply allocated_run; lia|]. rewrite Ha. simpl.
    destruct ((i <? VM_USERLO_PI) || (VM_USERHI_PI <=? i)) eqn:E; [|by eapply runs_bind_eq; [reflexivity|]; apply runs_ret].
    apply runs_bind. eapply runs_bind_eq; [apply at_is_norm_run; lia|]. apply runs_ret.
    assert (perm (AT m !!! i) ≤ 1) as Hp by (apply (ok_user m Hok); lia).
    assert ((perm (AT m !!! i) >? 1) = false) as -> by lia. by apply runs_ret. }
  intros r m1 ->. by apply runs_ret.
Qed.

Lemma MATOp_passes m : mat_ok m → (∃ i, page_free m i = true) → passes test_MATOp m.
Proof.
  intros Hok [i Hi]. unfold passes, test_MATOp, MATOp_test1. eapply runs_bind_mono; [by apply palloc_runs|].
  intros p m1 [(k & _ & _ & Hf & _ & ->)|(Hn & _)]; [|by rewrite Hn in Hi].
  destruct (page_free_user m p Hok Hf) as [Hu _]. apply andb_true_iff in Hf as [Hp _].
  rewrite s32_small by (unfold is_s32; unfold_consts; lia).
  assert ((p <? VM_USERLO_PI) || (VM_USERHI_PI <=? p) = false) as -> by lia.
  assert (0 ≤ p < AT_LEN) as Hr by (unfold_consts; lia).
  eapply runs_bind_eq; [by apply at_is_norm_run|]. simpl. rewrite lookup_total_insert_eq. simpl. rewrite Hp. simpl.
  eapply runs_bind_eq; [by apply allocated_run|]. simpl. rewrite lookup_total_insert_eq. simpl.
  eapply runs_bind_eq; [by apply pfree_run|]. eapply runs_bind_eq; [by apply allocated_run|]. simpl.
  rewrite lookup_total_insert_eq. simpl. by apply runs_ret.
Qed.

(** The root has the pages of the machine, and no process has been made. *)
Definition root_only (c : cont) : Prop :=
  cont_ok c ∧ ∃ q, 10000 < q ∧ ctr c 0 = {| quota := q; usage := 0; parent := 0; nchildren := 0; used := 1 |}.

Definition child (q : Z) : SContainer := {| quota := q; usage := 0; parent := 0; nchildren := 0; used := 1 |}.

Lemma split_root q c : root_only c → 0 ≤ q ≤ 10000 →
  runs (container_split 0 q) c (λ id c', id = 1 ∧ cont_ok c' ∧ split_post 0 q c 1 c' ∧ ctr c' 1 = child q ∧
    usage (ctr c' 0) = q ∧ nchildren (ctr c' 0) = 1).
Proof.
  intros (Hok & r & Hr & E) Hq.
  assert (nchildren (ctr c 0) < MAX_CHILDREN ∧ child_of c 0 = 1 ∧ avail (ctr c 0) = r) as (Hn & Hc & Ha)
    by (unfold child_of, avail; rewrite E; unfold MAX_CHILDREN; simpl; lia).
  eapply runs_mono; [apply (container_split_runs Hmagic 0 q c Hok); [done|done|by rewrite Hc|rewrite Ha; lia]|].
  intros id c' Hp. pose proof Hp as (-> & Hm & Hctr & _). rewrite Hc in *. split; [done|].
  split; [apply (split_post_ok 0 q c 1 c'); [done|done|by rewrite E|done|by rewrite Hc|rewrite Ha; lia|done]|]. split; [done|].
  rewrite (Hctr 1), (Hctr 0). simpl. rewrite E. simpl. repeat split; lia.
Qed.

Lemma container_gets id c : 0 ≤ id < NUM_IDS →
  container_get_quota id c = Ret (u32 (quota (ctr c id)), c) ∧ container_get_parent id c = Ret (u32 (parent (ctr c id)), c) ∧
  container_get_usage id c = Ret (u32 (usage (ctr c id)), c) ∧ container_get_nchildren id c = Ret (u32 (nchildren (ctr c id)), c) ∧
  ∀ n, container_can_consume id n c = Ret (b2z (u32 (usage (ctr c id) + n) <=? u32 (quota (ctr c id))), c).
Proof.
  intros Hid. unfold container_get_quota, container_get_parent, container_get_usage, container_get_nchildren, container_can_consume.
  split_and!; intros; by rewrite (bind_Ret _ _ _ _ _ (cget_run id c Hid)).
Qed.

Lemma MContainer_passes c : root_only c → passes test_MContainer c.
Proof.
  intros Hroot. pose proof Hroot as (Hok & q & Hq & E). pose proof (co_bound c Hok 0 ltac:(done)) as [_ Hb]. rewrite E in Hb. simpl in Hb.
  assert (u32 q = q) as Eq by (apply u32_small; unfold AT_LEN, W32 in *; lia).
  destruct (container_gets 0 c ltac:(done)) as (Gq & _ & Gu & Gn & Gc). rewrite E in *. simpl in *.
  apply passes_sum. apply (runs_of_eq _ c 0 c).
  { unfold MContainer_test1. rewrite (bind_Ret _ _ _ _ _ Gq). unfold fail_if. rewrite Eq, (proj2 (Z.leb_gt q 10000)) by lia.
    rewrite (bind_Ret _ _ _ _ _ (Gc 10000)), Eq. change (u32 (0 + 10000)) with 10000. rewrite (proj2 (Z.leb_le 10000 q)) by lia. simpl.
    rewrite (bind_Ret _ _ _ _ _ (Gc 10000000)), Eq. change (u32 (0 + 10000000)) with 10000000.
    by rewrite (proj2 (Z.leb_gt 10000000 q)) by (unfold AT_LEN in *; lia). }
  split; [done|]. unfold passes, MContainer_test2. eapply runs_bind_eq; [exact Gu|]. eapply runs_bind_eq; [exact Gn|].
  eapply runs_bind_mono; [apply (split_root 100 c Hroot); lia|]. intros id c1 (-> & Hok1 & _ & E1 & E2 & E3).
  destruct (container_gets 1 c1 ltac:(done)) as (Q1 & P1 & U1 & N1 & _), (container_gets 0 c1 ltac:(done)) as (_ & _ & U0 & N0 & _).
  rewrite E1 in *. rewrite E2 in U0. rewrite E3 in N0.
  eapply runs_bind_eq; [exact Q1|]. eapply runs_bind_eq; [exact P1|]. eapply runs_bind_eq; [exact U1|]. eapply runs_bind_eq; [exact N1|].
  eapply runs_bind_eq; [exact U0|]. eapply runs_bind_eq; [exact N0|]. simpl.
  eapply runs_bind_mono; [apply (container_alloc_runs Hmagic 1 c1 Hok1); [done|by rewrite E1]|].
  intros p c2 [(_ & _ & _ & Hctr & _) _]. destruct (container_gets 1 c2 ltac:(done)) as (_ & _ & U2 & _).
  rewrite (Hctr 1) in U2. simpl in U2. rewrite E1 in U2. eapply runs_bind_eq; [exact U2|]. by apply runs_ret.
Qed.

End pmm.

Section vmm.
Context `{KEnv, KernelLayout}.
Hypothesis Hmagic : ks_magic = KSTACK_MAGIC.
Implicit Types (s : vmm).

(** The page tables before any process has been made. *)
Record vm_boot (s : vmm) : Prop := {
  vb_ok : vmm_ok s;
  vb_root : root_only (v_cont s);
  vb_pde : ∀ p k, user_pde p k → pde s p k = 0;
}.

Lemma paging_boot mbi s : paging_post mbi s → 10000 < free_pages (c_mat (v_cont s)) → vm_boot s.
Proof.
  intros (Hok & (Hpm & Hc & Hroot & _) & _) Hf. constructor; [done|by split; [|eexists]|].
  intros p k Hu. destruct (Z.eq_dec (pde s p k) 0) as [|Hne]; [done|].
  destruct (user_table s p k Hok Hu Hne) as (pg & _ & [_ Ha] & _). by rewrite (pp_alloc _ _ Hpm) in Ha.
Qed.

(** The directory and table index of the first address of a directory entry. *)
Lemma va_index k : 0 ≤ k < 1024 →
  let va := u32 (k * 4096 * 1024) in va = k * 4194304 ∧ 0 ≤ va < W32 ∧ PDE_ADDR va = k ∧ PTE_ADDR va = 0.
Proof.
  intros Hk va. assert (va = k * 4194304) as Ev by (unfold va; rewrite u32_small; unfold W32; lia).
  split; [done|]. rewrite Ev, PDE_ADDR_div, PTE_ADDR_mod. unfold W32. split; [lia|]. split; divlia.
Qed.

Lemma pte_of_va p k s : vmm_ok s → 0 ≤ p < NUM_IDS → 0 ≤ k < 1024 →
  get_ptbl_entry_by_va p (u32 (k * 4096 * 1024)) s = Ret (pte s p k 0, s).
Proof.
  intros Hok Hp Hk. destruct (va_index k Hk) as (_ & Hr & E1 & E2).
  rewrite get_ptbl_entry_by_va_run by done. by rewrite E1, E2.
Qed.

Lemma pde_of_va p k s : 0 ≤ p < NUM_IDS → 0 ≤ k < 1024 →
  get_pdir_entry_by_va p (u32 (k * 4096 * 1024)) s = Ret (pde s p k, s).
Proof.
  intros Hp Hk. destruct (va_index k Hk) as (_ & Hr & E1 & E2).
  unfold get_pdir_entry_by_va, get_pdir_entry. rewrite E1. by apply pdir_load_run.
Qed.

(** The identity map, as the tests compute it. *)
Lemma id_word_va k : 0 ≤ k < 1024 → id_pte k 0 = u32 (k * 4096 * 1024 + id_perm k).
Proof.
  intros Hk. pose proof (id_pte_range k 0 Hk ltac:(lia)) as Hr. rewrite u32_small; unfold id_pte in *; unfold is_u32 in Hr; lia.
Qed.

(** A loop that goes on until an undefined operation. *)
Lemma for_exit_fault {St R} (body : Z → M St (option R)) lo k hi (s : St) :
  lo ≤ k < hi → (∀ i, lo ≤ i < k → body i s = Ret (None, s)) → body k s = Fault → for_exit lo hi body s = Fault.
Proof.
  intros Hk Hb Hf. unfold for_exit.
  assert (∀ n i, lo ≤ i ≤ k → k < i + Z.of_nat n → for_exit_loop n i body s = Fault) as Hl; [|apply Hl; lia].
  induction n as [|n IH]; intros i Hi Hn; [lia|]. cbn [for_exit_loop]. destruct (decide (i = k)) as [->|Hne].
  - unfold bind. by rewrite Hf.
  - rewrite (bind_Ret _ _ _ _ _ (Hb i ltac:(lia))). apply IH; lia.
Qed.

Lemma int_va_small {St} i (s : St) : 0 ≤ i < 512 → int_va i s = Ret (i * 4096 * 1024, s).
Proof.
  intros Hi. unfold int_va, imul, bind.
  rewrite (proj2 (Z.leb_le _ (i * 4096))), (proj2 (Z.ltb_lt (i * 4096) _)) by lia. simpl.
  by rewrite (proj2 (Z.leb_le _ _)), (proj2 (Z.ltb_lt _ _)) by lia.
Qed.

(** The entries below 1 GB are right; at the next address the product is out of range. *)
Lemma MPTComm_test1_faults s : vmm_ok s → MPTComm_test1 s = Fault.
Proof.
  intros Hok. unfold MPTComm_test1. unfold bind at 1. rewrite (for_exit_fault _ 0 960 1024); [done|lia| |done].
  intros i Hi. destruct ((i <? 256) || (i >=? 960)) eqn:E; [|done].
  assert (0 ≤ i < 256) as Hr by (rewrite Z.geb_leb in E; lia). kstep (int_va_small i s ltac:(lia)).
  assert (¬ user_pde 10 i) as Hu by (unfold user_pde, VM_USERLO_PDE, VM_USERHI_PDE; lia).
  kstep (pte_of_va 10 i s Hok ltac:(done) ltac:(lia)). kstep (int_va_small i s ltac:(lia)).
  unfold iadd. rewrite (proj2 (Z.leb_le _ _)), (proj2 (Z.ltb_lt _ _)) by lia. unfold bind at 1. simpl.
  rewrite kern_pte by (done || lia). rewrite id_word_va by lia.
  assert (id_perm i = 259) as -> by (unfold id_perm, VM_USERLO_PDE, VM_USERHI_PDE; by rewrite (proj2 (Z.ltb_lt i 256)) by lia).
  unfold neqb. by rewrite Z.eqb_refl.
Qed.

(** Process 1 gets a quota of 100 pages. *)
Lemma split_boot s : vm_boot s → runs (zoom (container_split 0 100)) s (λ _ t,
  vmm_ok t ∧ mem t = mem s ∧ ctr (v_cont t) 1 = child 100 ∧ ∀ p k, user_pde p k → pde t p k = 0).
Proof.
  intros [Hok Hr Hz]. apply runs_zoom. eapply runs_mono; [apply (split_root Hmagic 100 (v_cont s) Hr); lia|].
  intros id c (-> & Hc & (_ & Em & _) & E1 & _). split; [|by split_and!].
  apply (vmm_ok_cont s); [done|done|done|]. intros g [Hg Ha]. split; [done|]. simpl. by rewrite Em.
Qed.

Definition va300 : Z := u32 (300 * 4096 * 1024).
Definition va400 : Z := u32 (400 * 4096 * 1024).

Lemma MPTComm_test2_passes s : vm_boot s → passes MPTComm_test2 s.
Proof.
  intros Hb. unfold passes, MPTComm_test2. change (300 * 4096 * 1024) with va300. cbv zeta.
  eapply runs_bind_mono; [by apply split_boot|]. intros ? s1 (Hok1 & _ & E1 & Hz1).
  eapply runs_bind_mono; [apply (alloc_ptbl_runs Hmagic 1 va300 s1 Hok1); [done|by apply Hz1]|].
  intros r s2 (Hok2 & Hsame & _ & _ & Hcase). rewrite E1 in Hcase. simpl in Hcase. destruct Hcase as (Hr & Hpde & _ & Hrr & _).
  change (PDE_ADDR va300) with 300 in Hpde.
  eapply runs_bind_eq; [by apply pde_of_va|]. rewrite Hpde. unfold fail_if, neqb. rewrite (proj2 (Z.eqb_neq _ _)) by (unfold_vm; lia).
  eapply runs_bind_eq; [by apply pte_of_va|]. rewrite Hsame by done. unfold pte at 1. rewrite (Hz1 1 300) by done. simpl.
  unfold free_ptbl. eapply runs_bind_mono.
  { eapply runs_bind_eq; [by apply pde_of_va|]. rewrite Hpde, entry_page by (unfold_vm; lia). unfold rmv_pdir_entry.
    eapply runs_bind_eq; [by apply pdir_store_run|]. apply runs_zoom.
    eapply runs_mono; [apply (container_free_runs Hmagic); [apply (vo_cont _ Hok2)|done|unfold_vm; lia]|]. intros ? c _.
    change (PDE_ADDR va300) with 300. instantiate (1 := λ _ t, pde t 1 300 = 0).
    pose proof (PDirPool_range 1 300 ltac:(done) ltac:(lia)). pose proof PDirPool_low.
    unfold pde. simpl. apply load32_store32_eq; unfold VM_USERLO, W32 in *; lia. }
  intros ? s3 E3. eapply runs_bind_eq; [by apply pde_of_va|]. rewrite E3. by apply runs_ret.
Qed.

Lemma MPTComm_faults s : vmm_ok s → test_MPTComm s = Fault.
Proof. intros Hok. unfold test_MPTComm, sum2, bind. by rewrite MPTComm_test1_faults. Qed.

Lemma MPTNew_passes s : vm_boot s → passes test_MPTNew s.
Proof.
  intros Hb. unfold passes, test_MPTNew, MPTNew_test1. change (4096 * 1024 * 400) with va400. cbv zeta.
  eapply runs_bind_mono; [by apply split_boot|]. intros ? s1 (Hok1 & _ & E1 & Hz1).
  eapply runs_bind_eq; [by apply pte_of_va|]. unfold pte at 1. rewrite (Hz1 1 400) by done. simpl.
  eapply runs_bind_eq; [by apply pde_of_va|]. rewrite (Hz1 1 400) by done. simpl.
  eapply runs_bind_mono; [by apply (alloc_page_runs Hmagic 1 va400 7 s1 Hok1)|].
  change (PDE_ADDR va400) with 400. change (PTE_ADDR va400) with 0.
  intros r s2 (Hok2 & _ & Hcase). unfold tables_needed, avail in Hcase. rewrite (Hz1 1 400), E1 in Hcase by done.
  change (1 + (if 0 =? 0 then 1 else 0) <=? quota (child 100) - usage (child 100)) with true in Hcase. cbv iota in Hcase.
  destruct Hcase as (f & Hf & Hset & Hr & Hpde & _).
  destruct (page_free_user (c_mat (v_cont s1)) f (co_mat _ (vo_cont _ Hok1)) Hf) as [Hfu _].
  eapply runs_bind_eq; [by apply pte_of_va|]. rewrite Hset, bool_decide_true by done. unfold fail_if.
  rewrite (proj2 (Z.eqb_neq _ _)) by (unfold_vm; lia).
  eapply runs_bind_eq; [by apply pde_of_va|]. rewrite Hpde.
  rewrite (proj2 (Z.eqb_neq _ _)) by (unfold_vm; lia). by apply runs_ret.
Qed.

(** *** Tables that are not a process's own

    The tests also use pages of the kernel's part as page tables and as user memory,
    which [vmm_ok] excludes: their steps are followed in the memory. *)

(** A page that holds no part of the directories. *)
Definition off_dirs (pg : Z) : Prop :=
  0 < pg < AT_LEN ∧ ((pg + 1) * 4096 ≤ PDirPool_addr ∨ PDirPool_addr + NUM_IDS * PAGESIZE ≤ pg * 4096).

Definition has_table (s : vmm) (p k pg : Z) : Prop := pde s p k = pg * 4096 + PT_PERM_PTU.

Lemma has_table_nz s p k pg : 0 < pg → has_table s p k pg → (pde s p k =? 0) = false.
Proof. intros Hpg ->. apply Z.eqb_neq. unfold PT_PERM_PTU. lia. Qed.

Lemma pde_set p k v p' k' s : 0 ≤ p < NUM_IDS → 0 ≤ k < 1024 → 0 ≤ p' < NUM_IDS → 0 ≤ k' < 1024 → is_u32 v →
  pde (set_mem (store32 (PDirPool p k) v (mem s)) s) p' k' = if bool_decide ((p', k') = (p, k)) then v else pde s p' k'.
Proof.
  intros Hp Hk Hp' Hk' Hv. pose proof (PDirPool_range p k Hp Hk). pose proof (PDirPool_range p' k' Hp' Hk'). pose proof PDirPool_low.
  unfold pde. simpl. case_bool_decide as E.
  - injection E as -> ->. apply load32_store32_eq; [unfold_vm; lia..|done].
  - apply load32_store32_ne; [unfold_vm; lia..|]. unfold PDirPool. assert (p' * 1024 + k' ≠ p * 1024 + k); [|lia].
    intros E'. apply E. f_equal; lia.
Qed.

Lemma set_pdir_run p k pg s : 0 ≤ p < NUM_IDS → 0 ≤ k < 1024 → 0 ≤ pg < AT_LEN →
  set_pdir_entry p k pg s = Ret (tt, set_mem (store32 (PDirPool p k) (pg * 4096 + PT_PERM_PTU) (mem s)) s).
Proof. intros Hp Hk Hpg. unfold set_pdir_entry. rewrite entry_eq by done. by apply pdir_store_run. Qed.

Lemma table_get p k j pg s : 0 ≤ p < NUM_IDS → 0 ≤ k < 1024 → 0 ≤ j < 1024 → 0 ≤ pg < AT_LEN → has_table s p k pg →
  get_ptbl_entry p k j s = Ret (load32 (mem s) (pg * 4096 + 4 * j), s).
Proof.
  intros Hp Hk Hj Hpg Ht. unfold get_ptbl_entry. kstep (pdir_load_run _ _ _ Hp Hk). unfold has_table in Ht.
  rewrite Ht, ADDR_MASK_entry by done. unfold ptr_load, gets. rewrite u32_small; [done|]. unfold_vm. lia.
Qed.

Lemma table_put p k j pg v s : 0 ≤ p < NUM_IDS → 0 ≤ k < 1024 → 0 ≤ j < 1024 → 0 ≤ pg < AT_LEN → has_table s p k pg →
  (let! e := pdir_load p k in ptr_store (ADDR_MASK e) j v) s = Ret (tt, set_mem (store32 (pg * 4096 + 4 * j) v (mem s)) s).
Proof.
  intros Hp Hk Hj Hpg Ht. kstep (pdir_load_run _ _ _ Hp Hk). unfold has_table in Ht. rewrite Ht, ADDR_MASK_entry by done.
  by apply ptr_store_run.
Qed.

(** A store into such a table. *)
Lemma table_set_get pg j v s : off_dirs pg → 0 ≤ j < 1024 → is_u32 v →
  let s' := set_mem (store32 (pg * 4096 + 4 * j) v (mem s)) s in
  load32 (mem s') (pg * 4096 + 4 * j) = v ∧ ∀ p k, 0 ≤ p < NUM_IDS → 0 ≤ k < 1024 → pde s' p k = pde s p k.
Proof.
  intros [Hpg Hoff] Hj Hv s'. split; [apply load32_store32_eq; unfold is_u32 in *; unfold_vm; lia|].
  intros p k Hp Hk. pose proof (PDirPool_range p k Hp Hk). pose proof PDirPool_low. apply load32_store32_ne; unfold_vm; lia.
Qed.

(** The store of a step of a test; the directories stay as they are. *)
Lemma put_step {A} p k j pg v (c : M vmm A) s P :
  0 ≤ p < NUM_IDS → 0 ≤ k < 1024 → 0 ≤ j < 1024 → off_dirs pg → has_table s p k pg → is_u32 v →
  (∀ s1, has_table s1 p k pg → load32 (mem s1) (pg * 4096 + 4 * j) = v → agree_off pg (mem s) (mem s1) → runs c s1 P) →
  runs ((let! e := pdir_load p k in ptr_store (ADDR_MASK e) j v) ;;; c) s P.
Proof.
  intros Hp Hk Hj Hoff Ht Hv Hc. pose proof Hoff as [Hpg _]. assert (0 ≤ pg < AT_LEN) as Hpg' by lia.
  eapply runs_bind_eq; [by apply table_put|]. destruct (table_set_get pg j v s Hoff Hj Hv) as [L1 D1].
  apply Hc; [unfold has_table; by rewrite D1|done|]. apply agree_off_store; done || lia.
Qed.

Lemma get_step {A} p k j pg (c : Z → M vmm A) s P :
  0 ≤ p < NUM_IDS → 0 ≤ k < 1024 → 0 ≤ j < 1024 → off_dirs pg → has_table s p k pg →
  runs (c (load32 (mem s) (pg * 4096 + 4 * j))) s P → runs (bind (get_ptbl_entry p k j) c) s P.
Proof. intros Hp Hk Hj [Hpg _] Ht Hc. eapply runs_bind_eq; [apply (table_get p k j pg); [done..|lia|done]|]. exact Hc. Qed.

(** The operations on addresses, where there is a table. *)
Lemma by_va_table p k pg s : 0 ≤ p < NUM_IDS → 0 ≤ k < 1024 → 0 < pg → has_table s p k pg →
  let va := u32 (k * 4096 * 1024) in
  get_ptbl_entry_by_va p va s = get_ptbl_entry p k 0 s ∧ rmv_ptbl_entry_by_va p va s = rmv_ptbl_entry p k 0 s.
Proof.
  intros Hp Hk Hpg Ht va. destruct (va_index k Hk) as (_ & Hr & E1 & E2). fold va in E1, E2.
  unfold get_ptbl_entry_by_va, rmv_ptbl_entry_by_va, get_pdir_entry. cbv zeta. rewrite E1, E2.
  kstep (pdir_load_run _ _ _ Hp Hk). kstep (pdir_load_run _ _ _ Hp Hk). by rewrite (has_table_nz s p k pg).
Qed.

Lemma va_get_step {A} p k pg (c : Z → M vmm A) s P :
  0 ≤ p < NUM_IDS → 0 ≤ k < 1024 → off_dirs pg → has_table s p k pg →
  runs (c (load32 (mem s) (pg * 4096))) s P → runs (bind (get_ptbl_entry_by_va p (u32 (k * 4096 * 1024))) c) s P.
Proof.
  intros Hp Hk Hoff Ht Hc. pose proof Hoff as [Hpg _]. destruct (by_va_table p k pg s) as [E _]; [done..|lia|done|].
  eapply runs_bind_eq; [rewrite E; apply (table_get p k 0 pg); [done..|lia|done]|]. by rewrite Z.mul_0_r, Z.add_0_r.
Qed.

Lemma pde_step {A} p k (c : Z → M vmm A) s P : 0 ≤ p < NUM_IDS → 0 ≤ k < 1024 →
  runs (c (pde s p k)) s P → runs (bind (get_pdir_entry_by_va p (u32 (k * 4096 * 1024))) c) s P.
Proof. intros Hp Hk Hc. by eapply runs_bind_eq; [by apply pde_of_va|]. Qed.

Lemma va_put_step {A} p k pg f perm (c : M vmm A) s P :
  0 ≤ p < NUM_IDS → 0 ≤ k < 1024 → off_dirs pg → has_table s p k pg → 0 ≤ f < AT_LEN → 0 ≤ perm < 4096 →
  (∀ s1, has_table s1 p k pg → load32 (mem s1) (pg * 4096) = f * 4096 + perm → agree_off pg (mem s) (mem s1) → runs c s1 P) →
  runs (set_ptbl_entry_by_va p (u32 (k * 4096 * 1024)) f perm ;;; c) s P.
Proof.
  intros Hp Hk Hoff Ht Hf Hperm Hc. destruct (va_index k Hk) as (_ & Hr & E1 & E2).
  unfold set_ptbl_entry_by_va, set_ptbl_entry. cbv zeta. rewrite E1, E2, entry_eq by done.
  apply (put_step p k 0 pg); [done|done|lia|done|done|unfold is_u32; unfold_vm; lia|].
  intros s1 T1. rewrite Z.mul_0_r, Z.add_0_r. by apply Hc.
Qed.

Lemma va_rmv_step {A} p k pg (c : M vmm A) s P :
  0 ≤ p < NUM_IDS → 0 ≤ k < 1024 → off_dirs pg → has_table s p k pg →
  (∀ s1, has_table s1 p k pg → load32 (mem s1) (pg * 4096) = 0 → agree_off pg (mem s) (mem s1) → runs c s1 P) →
  runs (rmv_ptbl_entry_by_va p (u32 (k * 4096 * 1024)) ;;; c) s P.
Proof.
  intros Hp Hk Hoff Ht Hc. destruct (by_va_table p k pg s) as [_ E]; [done..|destruct Hoff; lia|done|].
  assert (runs (rmv_ptbl_entry p k 0 ;;; c) s P) as Hr.
  { apply (put_step p k 0 pg); [done|done|lia|done..|]. intros s1 T1. rewrite Z.mul_0_r, Z.add_0_r. by apply Hc. }
  revert Hr. unfold runs, bind. by rewrite E.
Qed.

(** A page of the user range is not part of the directories. *)
Lemma user_off_dirs pg : VM_USERLO_PI ≤ pg < VM_USERHI_PI → off_dirs pg.
Proof. intros Hpg. pose proof PDirPool_low. unfold off_dirs. unfold VM_USERLO in *. unfold_vm. lia. Qed.

(** The whole address space of process 0 is the identity map. *)
Definition kern_maps (s : vmm) : Prop := ∀ k, 0 ≤ k < 1024 →
  pde s 0 k = IDPTbl k 0 + PT_PERM_PTU ∧ load32 (mem s) (IDPTbl k 0) = id_pte k 0.

Lemma vmm_kern_maps s : vmm_ok s → kern_maps s.
Proof. intros Hok k Hk. split; [apply (vo_kern s Hok); [done|done|unfold user_pde; lia]|by apply (vo_idpt s Hok)]. Qed.

Lemma agree_kern_maps pg s s' : VM_USERLO_PI ≤ pg → agree_off pg (mem s) (mem s') → kern_maps s → kern_maps s'.
Proof.
  intros Hpg Ha Hk k Hr. destruct (Hk k Hr) as [E1 E2]. rewrite <- E1, <- E2.
  split; [by apply (agree_pde s s' pg)|by apply (agree_idpt s s' pg)].
Qed.

Lemma kern_maps_get k s : kern_maps s → 0 ≤ k < 1024 → get_ptbl_entry_by_va 0 (u32 (k * 4096 * 1024)) s = Ret (id_pte k 0, s).
Proof.
  intros Hm Hk. destruct (Hm k Hk) as [E1 E2], (IDPTbl_page k Hk) as (pg & Hpg & Epg & Epg').
  assert (0 < pg) as Hpos by (pose proof IDPTbl_low; lia). rewrite Epg in E1.
  destruct (by_va_table 0 k pg s) as [-> _]; [done|done|done|exact E1|].
  rewrite (table_get 0 k 0 pg) by (done || (unfold_vm; lia)). by rewrite Z.mul_0_r, Z.add_0_r, <- Epg, E2.
Qed.

Lemma MPTKern_test2_passes s : kern_maps s → passes MPTKern_test2 s.
Proof.
  intros Hm. unfold passes, MPTKern_test2. eapply runs_bind_mono.
  { apply (for_exit_runs (λ _ t, t = s) (λ r t, r = None ∧ t = s)); [lia|done| |by intros ? ->]. intros i t Hi ->.
    assert (0 ≤ i < 1024) as Hr by lia. eapply runs_bind_eq; [by apply kern_maps_get|]. apply runs_ret. rewrite id_word_va by done.
    assert (id_perm i = 3) as -> by (unfold id_perm, VM_USERLO_PDE, VM_USERHI_PDE;
      rewrite (proj2 (Z.ltb_ge i 256)), (proj2 (Z.leb_gt 960 i)) by lia; done).
    unfold neqb. by rewrite Z.eqb_refl. }
  intros r t [-> ->]. by apply runs_ret.
Qed.

(** Page 100 is mapped for process 1: the page is the kernel's, the table is not. *)
Lemma map_100_runs s : vmm_ok s → ctr (v_cont s) 1 = child 100 → pde s 1 300 = 0 →
  runs (map_page 1 va300 100 7) s (λ _ t, kern_maps t ∧ ∃ pg, VM_USERLO_PI ≤ pg < VM_USERHI_PI ∧ has_table t 1 300 pg ∧
    load32 (mem t) (pg * 4096) = 409607).
Proof.
  intros Hok E1 Hz. unfold map_page. apply (pde_step 1 300); [done|done|]. rewrite Hz. simpl.
  eapply runs_bind_mono; [apply (alloc_ptbl_runs Hmagic 1 va300 s Hok); done|].
  intros r s2 (Hok2 & _ & _ & _ & Hcase). rewrite E1 in Hcase. simpl in Hcase. destruct Hcase as (Hr & Hpde & _ & Hrr & _).
  rewrite (proj2 (Z.eqb_neq r 0) Hr). simpl. pose proof (user_off_dirs r Hrr) as Hoff.
  apply (va_put_step 1 300 r); [done|done|done|exact Hpde|done|done|]. intros s3 T3 L3 A3. apply runs_ret.
  split; [apply (agree_kern_maps r s2 s3); [lia|done|by apply vmm_kern_maps]|]. by exists r.
Qed.

Lemma MPTKern_test1_runs s : vm_boot s → runs MPTKern_test1 s (λ r t, r = 0 ∧ kern_maps t).
Proof.
  intros Hb. unfold MPTKern_test1. change (4096 * 1024 * 300) with va300. cbv zeta.
  eapply runs_bind_mono; [by apply split_boot|]. intros ? s1 (Hok1 & _ & E1 & Hz1). unfold fail_if.
  eapply runs_bind_eq; [by apply pte_of_va|]. unfold pte at 1. rewrite (Hz1 1 300) by done. simpl.
  apply (pde_step 1 300); [done|done|]. rewrite (Hz1 1 300) by done. simpl.
  eapply runs_bind_mono; [apply (map_100_runs s1 Hok1 E1); by apply Hz1|]. intros ? s2 (K2 & pg & Hu & T2 & L2).
  pose proof (user_off_dirs pg Hu) as Hoff. pose proof Hoff as [Hpg _].
  apply (va_get_step 1 300 pg); [done..|]. rewrite L2. simpl.
  apply (pde_step 1 300); [done|done|]. rewrite (has_table_nz s2 1 300 pg) by (done || lia).
  unfold unmap_page. apply runs_bind. apply (va_get_step 1 300 pg); [done..|]. rewrite L2. simpl when.
  apply (va_rmv_step 1 300 pg); [done..|]. intros s3 T3 L3 A3. apply runs_ret.
  apply (va_get_step 1 300 pg); [done..|]. rewrite L3. apply runs_ret. split; [done|]. by apply (agree_kern_maps pg s2 s3); [lia|..].
Qed.

Lemma MPTKern_passes s : vm_boot s → passes test_MPTKern s.
Proof.
  intros Hb. apply passes_sum. eapply runs_mono; [by apply MPTKern_test1_runs|]. intros r t [-> Hk]. split; [done|].
  by apply MPTKern_test2_passes.
Qed.

(** *** The kernel's pages 100 and 10000 as page tables

    The kernel is linked at 1 MB (kern/Makefile.inc), and its directories are below page 10000. *)
Context (Hlow : 1048576 ≤ PDirPool_addr) (Hhigh : PDirPool_addr + NUM_IDS * PAGESIZE ≤ 40960000).

Lemma off_100 : off_dirs 100.
Proof. split; [done|lia]. Qed.
Lemma off_10000 : off_dirs 10000.
Proof. split; [done|lia]. Qed.

Lemma has_table_set p k pg s : 0 ≤ p < NUM_IDS → 0 ≤ k < 1024 → 0 ≤ pg < AT_LEN →
  has_table (set_mem (store32 (PDirPool p k) (pg * 4096 + PT_PERM_PTU) (mem s)) s) p k pg.
Proof. intros. unfold has_table. rewrite pde_set by (done || (unfold is_u32; unfold_vm; lia)). by rewrite bool_decide_true. Qed.

Lemma MPTOp_passes s : vm_boot s → passes test_MPTOp s.
Proof.
  intros [Hok _ Hz]. unfold passes, test_MPTOp, MPTOp_test1. change (4096 * 1024 * 300) with va300. cbv zeta. unfold fail_if.
  assert (pde s 10 300 = 0) as E0 by (by apply Hz). pose proof off_100 as Hoff.
  eapply runs_bind_eq; [by apply pte_of_va|]. unfold pte at 1. rewrite E0. simpl.
  apply (pde_step 10 300); [done|done|]. rewrite E0. simpl.
  eapply runs_bind_eq; [apply (set_pdir_run 10 300 100); done|].
  pose proof (has_table_set 10 300 100 s ltac:(done) ltac:(done) ltac:(done)) as T1. set (s1 := set_mem _ s) in *.
  apply (va_put_step 10 300 100); [done..|]. intros s2 T2 L2 _.
  apply (va_get_step 10 300 100); [done..|]. rewrite L2. simpl.
  apply (pde_step 10 300); [done|done|]. rewrite (has_table_nz s2 10 300 100) by done.
  apply (va_rmv_step 10 300 100); [done..|]. intros s3 T3 L3 _.
  eapply runs_bind_eq; [apply (pdir_store_run 10 300); done|]. set (s4 := set_mem _ s3).
  assert (pde s4 10 300 = 0) as E4 by (unfold s4; by rewrite pde_set).
  eapply (runs_bind_eq _ _ _ 0 s4).
  { unfold get_ptbl_entry_by_va, get_pdir_entry. change (PDE_ADDR va300) with 300. kstep (pdir_load_run 10 300 s4 ltac:(done) ltac:(done)).
    by rewrite E4. }
  simpl. apply (pde_step 10 300); [done|done|]. rewrite E4. by apply runs_ret.
Qed.

Lemma MPTIntro_test1_passes s : passes MPTIntro_test1 s.
Proof.
  unfold passes, MPTIntro_test1, fail_if. eapply runs_bind_eq; [reflexivity|]. eapply runs_bind_eq; [reflexivity|].
  simpl CR3. unfold neqb. rewrite Z.eqb_refl. simpl negb. cbv iota. set (s1 := set_CR3 _ s).
  unfold set_pdir_entry_identity. change (inb 1024 1) with true. cbv iota zeta. rewrite IDPTbl_lor by done.
  pose proof (IDPTbl_entry_range 1 ltac:(done)) as Hi.
  eapply runs_bind_eq; [apply (pdir_store_run 1 1); done|]. set (s2 := set_mem _ s1).
  eapply runs_bind_eq; [apply (set_pdir_run 1 2 100); done|]. set (s3 := set_mem _ s2).
  assert (pde s3 1 1 = IDPTbl 1 0 + PT_PERM_PTU ∧ pde s3 1 2 = 409607) as [E1 E2].
  { unfold s3. rewrite !pde_set by done. rewrite bool_decide_false, bool_decide_true by done. split; [|done].
    unfold s2. rewrite pde_set by done. by rewrite bool_decide_true. }
  unfold get_pdir_entry. eapply runs_bind_eq; [apply (pdir_load_run 1 1); done|]. rewrite E1, u32_small by exact Hi.
  change 7 with PT_PERM_PTU. rewrite Z.eqb_refl. simpl negb. cbv iota.
  eapply runs_bind_eq; [apply (pdir_load_run 1 2); done|]. rewrite E2. simpl negb. cbv iota. unfold rmv_pdir_entry.
  eapply runs_bind_eq; [apply (pdir_store_run 1 1); done|]. set (s4 := set_mem _ s3).
  eapply runs_bind_eq; [apply (pdir_store_run 1 2); done|]. set (s5 := set_mem _ s4).
  assert (pde s5 1 1 = 0 ∧ pde s5 1 2 = 0) as [E5 E6].
  { unfold s5. rewrite !pde_set by done. rewrite bool_decide_false, bool_decide_true by done. split; [|done].
    unfold s4. rewrite pde_set by done. by rewrite bool_decide_true. }
  eapply runs_bind_eq; [apply (pdir_load_run 1 1); done|]. eapply runs_bind_eq; [apply (pdir_load_run 1 2); done|].
  rewrite E5, E6. by apply runs_ret.
Qed.

Lemma MPTIntro_test2_passes s : passes MPTIntro_test2 s.
Proof.
  unfold passes, MPTIntro_test2, fail_if. pose proof off_10000 as Hoff.
  eapply runs_bind_eq; [apply (set_pdir_run 1 1 10000); done|].
  pose proof (has_table_set 1 1 10000 s ltac:(done) ltac:(done) ltac:(done)) as T1. set (s1 := set_mem _ s) in *.
  unfold set_ptbl_entry. cbv zeta. rewrite entry_eq by done. apply (put_step 1 1 1 10000); [done..|]. intros s2 T2 L2 _.
  apply (get_step 1 1 1 10000); [done..|]. rewrite L2. simpl negb. cbv iota.
  apply (put_step 1 1 1 10000 0); [done..|]. intros s3 T3 L3 _.
  apply (get_step 1 1 1 10000); [done..|]. rewrite L3. simpl negb. cbv iota.
  eapply runs_bind_eq; [apply (pdir_store_run 1 1); done|]. by apply runs_ret.
Qed.

Lemma MPTIntro_passes s : passes test_MPTIntro s.
Proof.
  apply passes_sum. eapply runs_mono; [apply MPTIntro_test1_passes|]. intros r t ->. split; [done|]. apply MPTIntro_test2_passes.
Qed.

End vmm.

Section thread.
Context `{KEnv, KernelLayout}.
Hypothesis Hmagic : ks_magic = KSTACK_MAGIC.
Implicit Types (s : thr).

(** *** The queues, link by link

    [linked] follows the links of threads that are in no queue too. *)

Lemma enqueue_first s n p h t c pid : linked s n p h t → chid_ok c → 0 ≤ pid < NUM_IDS → t c = NUM_IDS →
  runs (tqueue_enqueue c pid) s (λ _ s', linked s' (fupd n pid NUM_IDS) (fupd p pid NUM_IDS) (fupd h c pid) (fupd t c pid)).
Proof.
  intros L Hc Hp Ht. unfold tqueue_enqueue. eapply runs_bind_eq; [by apply get_tail_run|].
  rewrite (ln_tail _ _ _ _ _ L), Ht. simpl.
  eapply set_prev_linked; [done|done|]. intros s1 L1 _. eapply set_next_linked; [done|done|]. intros s2 L2 _.
  eapply set_head_linked; [done|done|]. intros s3 L3 _. apply runs_end. eapply set_tail_linked; [done|done|].
  intros s4 L4 _. by apply runs_ret.
Qed.

Lemma enqueue_next s n p h t c pid x : linked s n p h t → chid_ok c → 0 ≤ pid < NUM_IDS → t c = x → 0 ≤ x < NUM_IDS →
  runs (tqueue_enqueue c pid) s (λ _ s', linked s' (fupd (fupd n x pid) pid NUM_IDS) (fupd p pid x) h (fupd t c pid)).
Proof.
  intros L Hc Hp Ht Hx. unfold tqueue_enqueue. eapply runs_bind_eq; [by apply get_tail_run|].
  rewrite (ln_tail _ _ _ _ _ L), Ht. rewrite (proj2 (Z.eqb_neq x NUM_IDS)) by lia.
  eapply set_next_linked; [done|done|]. intros s1 L1 _. eapply set_prev_linked; [done|done|]. intros s2 L2 _.
  eapply set_next_linked; [done|done|]. intros s3 L3 _. apply runs_end. eapply set_tail_linked; [done|done|].
  intros s4 L4 _. by apply runs_ret.
Qed.

Lemma remove_middle s n p h t c pid x y : linked s n p h t → 0 ≤ pid < NUM_IDS →
  p pid = x → n pid = y → 0 ≤ x < NUM_IDS → 0 ≤ y < NUM_IDS → x ≠ y →
  runs (tqueue_remove c pid) s (λ _ s',
    linked s' (fupd (fupd n x y) pid NUM_IDS) (fupd (fupd p y x) pid NUM_IDS) h t).
Proof.
  intros L Hp Hx Hy Rx Ry Hxy. unfold tqueue_remove. eapply runs_bind_eq; [by apply tcb_get_run|].
  eapply runs_bind_eq; [by apply tcb_get_run|]. change (prev (tcb s pid)) with (prv s pid). change (next (tcb s pid)) with (nxt s pid).
  rewrite (ln_prv _ _ _ _ _ L), (ln_nxt _ _ _ _ _ L), Hx, Hy.
  rewrite (proj2 (Z.eqb_neq x NUM_IDS)), (proj2 (Z.eqb_neq y NUM_IDS)), (proj2 (Z.eqb_neq x y)) by lia. simpl when.
  apply runs_bind. eapply set_next_linked; [done|done|]. intros s1 L1 _. apply runs_end.
  eapply set_prev_linked; [done|done|]. intros s2 L2 _. apply runs_ret.
  eapply set_prev_linked; [done|done|]. intros s3 L3 _. apply runs_end.
  eapply set_next_linked; [done|done|]. intros s4 L4 _. by apply runs_ret.
Qed.

Lemma dequeue_next s n p h t c x y : linked s n p h t → chid_ok c →
  h c = x → n x = y → 0 ≤ x < NUM_IDS → 0 ≤ y < NUM_IDS →
  runs (tqueue_dequeue c) s (λ r s', r = x ∧
    linked s' (fupd n x NUM_IDS) (fupd (fupd p y NUM_IDS) x NUM_IDS) (fupd h c y) t).
Proof.
  intros L Hc Hx Hy Rx Ry. unfold tqueue_dequeue. eapply runs_bind_eq; [by apply get_head_run|].
  rewrite (ln_head _ _ _ _ _ L), Hx. rewrite (proj2 (Z.eqb_neq x NUM_IDS)) by lia. cbv zeta. simpl negb. cbv iota.
  eapply runs_bind_eq; [by apply tcb_get_run|]. change (next (tcb s x)) with (nxt s x). rewrite (ln_nxt _ _ _ _ _ L), Hy.
  rewrite (proj2 (Z.eqb_neq y NUM_IDS)) by lia. apply runs_bind.
  eapply set_prev_linked; [done|done|]. intros s1 L1 _. apply runs_end. eapply set_head_linked; [done|done|]. intros s2 L2 _. apply runs_ret.
  eapply set_prev_linked; [done|done|]. intros s3 L3 _. eapply set_next_linked; [done|done|]. intros s4 L4 _. by apply runs_ret.
Qed.

Lemma links_are_step s n p h t pid a b k P : linked s n p h t → 0 ≤ pid < NUM_IDS → p pid = a → n pid = b →
  runs k s P → runs (links_are pid a b k) s P.
Proof.
  intros L Hp Ha Hb Hk. unfold links_are. eapply runs_bind_eq; [by apply tcb_get_run|]. eapply runs_bind_eq; [by apply tcb_get_run|].
  change (prev (tcb s pid)) with (prv s pid). change (next (tcb s pid)) with (nxt s pid).
  rewrite (ln_prv _ _ _ _ _ L), (ln_nxt _ _ _ _ _ L), Ha, Hb. unfold fail_if, neqb. by rewrite !Z.eqb_refl.
Qed.

Lemma PTQueueInit_test2_passes s : tail (tqu s 0) = NUM_IDS → passes PTQueueInit_test2 s.
Proof.
  intros Ht. unfold passes, PTQueueInit_test2. pose proof (linked_self s) as L0.
  eapply runs_bind_mono; [by apply (enqueue_first _ _ _ _ _ 0 2 L0)|]. intros ? s1 L1.
  eapply runs_bind_mono; [by apply (enqueue_next _ _ _ _ _ 0 3 2 L1)|]. intros ? s2 L2.
  eapply runs_bind_mono; [by apply (enqueue_next _ _ _ _ _ 0 4 3 L2)|]. intros ? s3 L3.
  do 3 (eapply links_are_step; [exact L3|done|reflexivity|reflexivity|]).
  eapply runs_bind_mono; [by apply (remove_middle _ _ _ _ _ 0 3 2 4 L3)|]. intros ? s4 L4.
  do 3 (eapply links_are_step; [exact L4|done|reflexivity|reflexivity|]).
  eapply runs_bind_mono; [by apply (dequeue_next _ _ _ _ _ 0 2 4 L4)|]. intros ? s5 [-> L5].
  unfold fail_if. simpl neqb. cbv iota.
  eapply runs_bind_eq; [by apply (tcb_get_run prev 2)|]. eapply runs_bind_eq; [by apply (tcb_get_run next 2)|].
  eapply runs_bind_eq; [by apply (get_head_run 0)|]. eapply runs_bind_eq; [by apply (get_tail_run 0)|].
  change (prev (tcb s5 2)) with (prv s5 2). change (next (tcb s5 2)) with (nxt s5 2).
  rewrite (ln_prv _ _ _ _ _ L5), (ln_nxt _ _ _ _ _ L5), (ln_head _ _ _ _ _ L5), (ln_tail _ _ _ _ _ L5). by apply runs_ret.
Qed.

(** *** After thread_init *)

(** The links of the threads and of the queues. *)
Definition blank_links (s : thr) : Prop :=
  (∀ x, 1 ≤ x < NUM_IDS → tcb_blank (tcb s x)) ∧ (∀ c, chid_ok c → tqu s c = {| head := NUM_IDS; tail := NUM_IDS |}).

Lemma thread_init_links namei_root mbi s :
  (∀ t, ∃ d, namei_root t = Ret (d, t)) →
  0 ≤ ks_cpu_idx < NUM_CPUS → pcpu_cpu_idx (pcpu s !!! ks_cpu_idx) = ks_cpu_idx →
  cont_boot (v_cont (t_vmm s)) → Z.of_nat (length (low_entries mbi)) ≤ 128 → Forall mmap_wf mbi →
  runs (thread_init namei_root mbi) s (λ _, blank_links).
Proof.
  intros Hn Hcpu Hp Hb Hl Hwf. unfold thread_init.
  eapply (runs_bind_mono _ _ _ (λ _ t, t_vmm t = t_vmm s ∧ pcpu t = pcpu s)).
  { apply (for_runs (λ _ t, t_vmm t = t_vmm s ∧ pcpu t = pcpu s)); [done|done|].
    intros j t Hj [? ?]. by eapply runs_of_eq; [apply awrite_in|]. }
  intros [] s1 [V1 P1]. eapply runs_bind_eq; [by apply fzoom_Ret|].
  eapply runs_bind_mono; [apply (tqueue_init_runs namei_root Hn); simpl; by rewrite ?V1|].
  intros [] s2 (_ & P2 & _ & _ & _ & Hbl & Hq).
  assert (pcpu_cpu_idx (pcpu s2 !!! ks_cpu_idx) = ks_cpu_idx) as Ei by (rewrite P2; simpl; by rewrite P1).
  eapply runs_bind_eq.
  { unfold set_curid, get_pcpu_idx, pcpu_cur, get_kstack_cpu_idx. rewrite bind_assoc, bind_ret_l, bind_assoc.
    kstep (aread_in _ pcpu _ s2 Hcpu). rewrite Ei, bind_ret_l. by apply awrite_in. }
  eapply runs_of_eq; [by apply tcb_mod_run|]. split; [|done]. intros x Hx.
  rewrite tcb_after, bool_decide_false by lia. apply Hbl. lia.
Qed.

Lemma PTCBInit_passes s : blank_links s → passes test_PTCBInit s.
Proof.
  intros [Hb _]. unfold passes, test_PTCBInit, PTCBInit_test1. eapply runs_bind_mono.
  { apply (for_exit_runs (λ _ t, t = s) (λ r _, r = None)); [done|done| |done]. intros i t Hi ->.
    destruct (Hb i Hi) as (E1 & E2 & E3 & _). assert (0 ≤ i < NUM_IDS) as Hr by lia.
    eapply runs_bind_eq; [by apply tcb_get_run|]. eapply runs_bind_eq; [by apply tcb_get_run|].
    eapply runs_bind_eq; [by apply tcb_get_run|]. rewrite E1, E2, E3. by apply runs_ret. }
  intros r t ->. by apply runs_ret.
Qed.

Lemma PTQueueInit_passes s : blank_links s → passes test_PTQueueInit s.
Proof.
  intros [_ Hq]. apply passes_sum. unfold PTQueueInit_test1. eapply runs_bind_mono.
  { apply (for_exit_runs (λ _ t, t = s) (λ r t, r = None ∧ t = s)); [done|done| |by intros ? ->]. intros i t Hi ->.
    assert (chid_ok i) as Hc by (unfold chid_ok, NUM_CPUS; lia).
    eapply runs_bind_eq; [by apply get_head_run|]. eapply runs_bind_eq; [by apply get_tail_run|].
    rewrite (Hq i Hc). by apply runs_ret. }
  intros r t [-> ->]. apply runs_ret. split; [done|]. apply PTQueueInit_test2_passes. by rewrite (Hq 0).
Qed.

Lemma root_spawn_ok c : root_only c → spawn_ok 0 1000 c.
Proof.
  intros (Hok & q & Hq & E). pose proof (co_bound c Hok 0 ltac:(done)) as [_ Hb]. rewrite E in Hb. simpl in Hb.
  destruct (container_gets 0 c ltac:(done)) as (_ & _ & _ & _ & Gc). unfold spawn_ok. rewrite E. split_and!; try done.
  rewrite Gc, E. cbn [usage quota]. rewrite (u32_small q) by (unfold AT_LEN, W32 in *; lia). change (u32 (0 + 1000)) with 1000.
  by rewrite (proj2 (Z.leb_le 1000 q)) by lia.
Qed.

Lemma PKCtxNew_passes s a : sched_ok s a → root_only (v_cont (vm a)) → passes test_PKCtxNew s.
Proof.
  intros (R & Hp & Hl) Hroot. unfold passes, test_PKCtxNew, PKCtxNew_test1. cbv zeta.
  pose proof Hroot as (Hok & q & Hq & E).
  eapply runs_bind_mono; [apply (kctx_new_runs Hmagic s a); [done|done|by apply root_spawn_ok]|].
  intros pid s1 (v & Hpid & Hr & (_ & _ & Hctr & _) & _ & R1 & _).
  assert (pid = 1) as -> by (rewrite Hpid; unfold child_of; by rewrite E).
  pose proof (re_vm _ _ R1) as Ev. pose proof (re_ctxs _ _ R1) as Ec. simpl in Ev, Ec.
  destruct (container_gets 1 (v_cont v) ltac:(done)) as (Gq & _). rewrite (Hctr 1) in Gq. simpl in Gq.
  eapply (runs_bind_eq _ _ _ 1000 s1).
  { apply zoom_read, zoom_read. change (lget (lget s1)) with (v_cont (t_vmm s1)). rewrite Ev. exact Gq. }
  unfold fail_if. simpl neqb. cbv iota. eapply runs_bind_eq; [by apply aread_in|]. rewrite Ec, lookup_total_insert_eq. by apply runs_ret.
Qed.

Lemma PThread_passes s a : sched_ok s a → root_only (v_cont (vm a)) → ready a = [] → passes test_PThread s.
Proof.
  intros Hs Hroot Hrd. unfold passes, test_PThread, PThread_test1. cbv zeta. pose proof Hroot as (Hok & q & Hq & E).
  eapply runs_bind_mono; [apply (spawn_ok_runs Hmagic s a 0 0 1000); [done|by apply root_spawn_ok]|].
  intros pid s1 (v & Hpid & _ & _ & _ & (R1 & _)).
  assert (pid = 1) as -> by (rewrite Hpid; unfold child_of; by rewrite E).
  eapply runs_bind_eq; [by apply tcb_get_run|]. rewrite (re_st _ _ R1). simpl st_of. unfold fail_if. rewrite fupd_eq. simpl neqb. cbv iota.
  assert (chid_ok NUM_IDS) as Hc by done. eapply runs_bind_eq; [by apply get_tail_run|].
  destruct (re_queues _ _ R1) as [_ Hq1]. destruct (Hq1 NUM_IDS Hc) as (_ & Et & _). rewrite Et. unfold ready_only.
  rewrite bool_decide_true by done. simpl. rewrite Hrd. by apply runs_ret.
Qed.

End thread.

(** ** All tests *)

(** Each test but the first of MPTComm passes when it is run in this state. *)
Definition layers_pass `{KEnv, KernelLayout} (s : thr) : Prop :=
  let v := t_vmm s in let c := v_cont v in let m := c_mat c in
  (passes test_MATIntro m ∧ passes test_MATInit m ∧ passes test_MATOp m ∧ passes test_MContainer c) ∧
  (passes test_MPTIntro v ∧ passes test_MPTOp v ∧ passes MPTComm_test2 v ∧ passes test_MPTKern v ∧ passes test_MPTNew v) ∧
  passes test_PKCtxNew s ∧ passes test_PTCBInit s ∧ passes test_PTQueueInit s ∧ passes test_PThread s.

(** The first test of MPTComm runs into undefined behaviour. *)
Definition comm_undefined `{KEnv, KernelLayout} (s : thr) : Prop :=
  MPTComm_test1 (t_vmm s) = Fault ∧ test_MPTComm (t_vmm s) = Fault.

Lemma mat_tests_pass `{KEnv} mbi m : ks_magic = KSTACK_MAGIC → pmem_post mbi m → 10000 < free_pages m →
  passes test_MATIntro m ∧ passes test_MATInit m ∧ passes test_MATOp m.
Proof.
  intros Hmagic Hp Hf. pose proof (pp_ok _ _ Hp) as Hok. pose proof (zsum_b2z_le (page_free m) (Z.to_nat (NUM_PAGES m))) as Hle.
  fold (free_pages m) in Hle. split_and!; [apply MATIntro_passes|apply MATInit_passes; [done|lia|apply (pp_alloc _ _ Hp)]|].
  apply MATOp_passes; [done|done|]. destruct (zsum_b2z_pos (page_free m) (Z.to_nat (NUM_PAGES m))) as (i & _ & Hi); [fold (free_pages m); lia|].
  by exists i.
Qed.

(** C14: On every machine with more than 10000 free pages, whatever its memory map, and with the page directories between
    1 MB and page 10000, in the state that [thread_init] leaves, each unit test of the kernel's layers (kern/pmm, kern/vmm,
    kern/thread) returns 0, except the first test of MPTComm: its product of [int]s leaves the range of [int] when it
    reaches the addresses above the user range, which is undefined. *)
Theorem layer_tests `{KEnv, KernelLayout} namei_root mbi s :
  ks_magic = KSTACK_MAGIC → (∀ t, ∃ d, namei_root t = Ret (d, t)) →
  0 ≤ ks_cpu_idx < NUM_CPUS → pcpu_cpu_idx (pcpu s !!! ks_cpu_idx) = ks_cpu_idx →
  cont_boot (v_cont (t_vmm s)) → Z.of_nat (length (low_entries mbi)) ≤ 128 → Forall mmap_wf mbi →
  (∀ m, pmem_post mbi m → 10000 < free_pages m) →
  1048576 ≤ PDirPool_addr → PDirPool_addr + NUM_IDS * PAGESIZE ≤ 40960000 →
  runs (thread_init namei_root mbi) s (λ _ s', layers_pass s' ∧ comm_undefined s').
Proof.
  intros Hmagic Hn Hcpu Hp Hb Hl Hwf Hmem Hlo Hhi.
  eapply runs_mono; [apply runs_and; [by apply thread_init_runs|by apply thread_init_links]|].
  intros [] s' [(a & R & (Hrd & _ & Hpw) & Hlk & Hpp) Hlinks]. pose proof (re_vm _ _ R) as Ev.
  pose proof Hpp as (_ & (Hpm & _) & _). pose proof (Hmem _ Hpm) as Hf.
  pose proof (paging_boot mbi (vm a) Hpp Hf) as Hboot. pose proof (vb_root _ Hboot) as Hroot. destruct (mat_tests_pass mbi _ Hmagic Hpm Hf) as (T1 & T2 & T3).
  unfold layers_pass, comm_undefined. rewrite Ev. cbv zeta. assert (sched_ok s' a) as Hs by done.
  split; [|split; [apply MPTComm_test1_faults, Hboot|apply MPTComm_faults, Hboot]].
  split; [split_and!; [done..|by apply MContainer_passes]|].
  split; [|split_and!; [by apply (PKCtxNew_passes Hmagic s' a)|by apply PTCBInit_passes|by apply PTQueueInit_passes|by apply (PThread_passes Hmagic s' a)]].
  split_and!; [by apply MPTIntro_passes|by apply MPTOp_passes|by apply MPTComm_test2_passes|by apply MPTKern_passes|by apply MPTNew_passes].
Qed.

(** *** A machine *)

#[local] Existing Instance demo_env.
#[local] Existing Instance demo_layout.

(** 64 MB of RAM at the start of the user range. *)
Definition tests_mbi : list mboot_mmap :=
  [{| mm_size := 20; base_addr_low := 1073741824; base_addr_high := 0; length_low := 67108864; length_high := 0; mm_type := MEM_RAM |}].

Lemma tests_free m : pmem_post tests_mbi m → 10000 < free_pages m.
Proof.
  intros Hp. pose proof (pp_map _ _ Hp) as E.
  assert (pmmap_list (mat_map m) = [{| pm_start := 1073741824; pm_end := 1140850688; pm_type := MEM_RAM |}]) as El
    by (generalize dependent (mat_map m); intros mm E; vm_compute in E; by injection E as <-).
  pose proof (pp_nps _ _ Hp) as En. rewrite El in En. change (max_end _ _) with 1140850688 in En.
  change (1140850688 / PAGESIZE) with (VM_USERLO_PI + 16384) in En.
  unfold free_pages. rewrite (zsum_ext _ (λ i, b2z (bool_decide (VM_USERLO_PI ≤ i < VM_USERLO_PI + 16384)))).
  - rewrite zsum_interval; rewrite ?En; unfold_consts; lia.
  - intros i Hi. f_equal. unfold page_free. rewrite (pp_perm _ _ Hp), (pp_alloc _ _ Hp), El, En, andb_true_r.
    rewrite bool_decide_true by lia. unfold init_perm.
    destruct (Z.ltb_spec i VM_USERLO_PI); simpl; [by rewrite bool_decide_false by lia|].
    rewrite (proj2 (Z.leb_gt _ _)) by (unfold_consts; lia).
    unfold contains_page. simpl. rewrite !(proj2 (Z.leb_le _ _)) by (unfold_consts; lia).
    by rewrite bool_decide_true by lia.
Qed.

Lemma layer_tests_witness : runs (thread_init (ret 1) tests_mbi) demo_thr0 (λ _ s', layers_pass s' ∧ comm_undefined s').
Proof.
  assert (∀ t : thr, ∃ d, ret 1 t = Ret (d, t)) as Hn by (intros t; by exists 1).
  assert (0 ≤ ks_cpu_idx < NUM_CPUS) as Hc by done.
  assert (pcpu_cpu_idx (pcpu demo_thr0 !!! ks_cpu_idx) = ks_cpu_idx) as Hp by (vm_compute; done).
  assert (Forall mmap_wf tests_mbi) as Hw.
  { constructor; [|constructor]. unfold mmap_wf, is_u32; simpl; unfold_consts. split_and!; [lia..|by left]. }
  assert (Z.of_nat (length (low_entries tests_mbi)) ≤ 128) as Hl by (vm_compute; discriminate).
  apply (@layer_tests demo_env demo_layout (ret 1) tests_mbi demo_thr0 eq_refl Hn Hc Hp
    (conj (conj eq_refl (conj eq_refl eq_refl)) eq_refl) Hl Hw tests_free).
  - discriminate.
  - discriminate.
Defined.
