(* ===== verification/UserCopy.v ===== *)
(** * Copies between the kernel and user memory

    kern/lib/pmap.c: [pt_copyin], [pt_copyout] and [pt_memset] copy page by page
    through the page tables of a process, and allocate the pages that are missing. *)

From S2P Require Import Prelude Spinlock Pmmap MAT Container Mem Vmm Isolation Mmu.

Definition VM_USERHI : Z := 4026531840.

Section ops.
Context `{KEnv, KernelLayout}.

(** The physical address behind [uva], which all three loops compute; the result of
    [alloc_page] is ignored. *)
Definition user_pa (pmap_id uva : Z) : M vmm Z :=
  let! uva_pa := get_ptbl_entry_by_va pmap_id uva in
  let! uva_pa := (if Z.land uva_pa PTE_P =? 0 then
                    alloc_page pmap_id uva (Z.lor (Z.lor PTE_P PTE_U) PTE_W) ;;;
                    get_ptbl_entry_by_va pmap_id uva
                  else ret uva_pa) in
  ret (u32 (ADDR_MASK uva_pa + uva mod PAGESIZE)).

(** How much of the page at [pa] a step handles. *)
Definition chunk (len pa : Z) : Z :=
  if len <? PAGESIZE - pa mod PAGESIZE then len else PAGESIZE - pa mod PAGESIZE.

(** Every step but the first and the last handles a whole page. *)
Definition copy_fuel (len : Z) : nat := Z.to_nat (len / PAGESIZE + 3).

Definition pt_copyin (pmap_id uva kva len : Z) : M vmm Z :=
  if negb ((VM_USERLO <=? uva) && (u32 (uva + len) <=? VM_USERHI)) then ret 0
  else if u32 (kva + len) >? VM_USERHI then ret 0
  else
    loop (copy_fuel len) (λ '(len, uva, kva, copied),
      if nz len then
        let! uva_pa := user_pa pmap_id uva in
        let size := chunk len uva_pa in
        zoom (memcpy kva uva_pa size) ;;;
        ret (inl (u32 (len - size), u32 (uva + size), u32 (kva + size), u32 (copied + size)))
      else ret (inr copied)) (len, uva, kva, 0).

Definition pt_copyout (kva pmap_id uva len : Z) : M vmm Z :=
  if negb ((VM_USERLO <=? uva) && (u32 (uva + len) <=? VM_USERHI)) then ret 0
  else if u32 (kva + len) >? VM_USERHI then ret 0
  else
    loop (copy_fuel len) (λ '(len, uva, kva, copied),
      if nz len then
        let! uva_pa := user_pa pmap_id uva in
        let size := chunk len uva_pa in
        zoom (memcpy uva_pa kva size) ;;;
        ret (inl (u32 (len - size), u32 (uva + size), u32 (kva + size), u32 (copied + size)))
      else ret (inr copied)) (len, uva, kva, 0).

Definition pt_memset (pmap_id va c len : Z) : M vmm Z :=
  loop (copy_fuel len) (λ '(len, va, set),
    if nz len then
      let! pa := user_pa pmap_id va in
      let size := chunk len pa in
      zoom (memset pa c size) ;;;
      ret (inl (u32 (len - size), u32 (va + size), u32 (set + size)))
    else ret (inr set)) (len, va, 0).

End ops.

(** ** The memory of a process *)

Section spec.
Context `{KEnv, KernelLayout}.
Hypothesis Hmagic : ks_magic = KSTACK_MAGIC.
Implicit Types (s : vmm).

(** The entry behind an address, whether it is present, and where it leads. *)
Definition upte s (p va : Z) : Z := pte s p (PDE_ADDR va) (PTE_ADDR va).
Definition present s (p va : Z) : Prop := Z.testbit (upte s p va) 0 = true.
Definition phys s (p va : Z) : Z := upte s p va / 4096 * 4096 + va mod 4096.
Definition ubyte s (p va : Z) : Z := load8 (mem s) (phys s p va).

Definition user_va (p va : Z) : Prop := 1 ≤ p < NUM_IDS ∧ VM_USERLO ≤ va < VM_USERHI.

(** Addresses of the kernel outside the page tables. *)
Definition kern_addr (a : Z) : Prop :=
  0 ≤ a < VM_USERLO ∧ ¬ (PDirPool_addr ≤ a < PDirPool_addr + NUM_IDS * PAGESIZE) ∧
  ¬ (IDPTbl_addr ≤ a < IDPTbl_addr + 1024 * PAGESIZE).

Ltac unfold_uc := unfold VM_USERHI, VM_USERLO in *; unfold_vm.

Lemma user_va_pde p va : user_va p va → user_pde p (PDE_ADDR va) ∧ 0 ≤ PTE_ADDR va < 1024.
Proof.
  intros [Hp Hva]. split; [|rewrite PTE_ADDR_mod; divlia]. split; [done|].
  rewrite PDE_ADDR_div. unfold_uc. divlia.
Qed.

(** An entry and its page of a present address. *)
Lemma present_frame s p va :
  vmm_ok s → user_va p va → present s p va →
  let u := Data p (PDE_ADDR va) (PTE_ADDR va) in
  use_wf u ∧ frame s u = Some (phys s p va / 4096) ∧ in_use s (phys s p va / 4096) ∧
  0 ≤ phys s p va < W32 ∧ phys s p va mod 4096 = va mod 4096.
Proof.
  intros Hok Hu Hp u. destruct (user_va_pde p va Hu) as [Hk Hj].
  assert (use_wf u) as Hw by done. pose proof (pte_range s p (PDE_ADDR va) (PTE_ADDR va)) as Hr.
  assert (phys s p va / 4096 = upte s p va / 4096) as E by (unfold phys; divlia).
  assert (frame s u = Some (phys s p va / 4096)) as Hf.
  { rewrite E. simpl. fold (upte s p va). destruct (Z.eqb_spec (upte s p va) 0) as [Ez|]; [|done].
    unfold present in Hp. by rewrite Ez in Hp. }
  split; [done|]. split; [done|]. split; [by eapply vo_owned|].
  unfold phys. fold (upte s p va) in Hr. unfold_uc. split; divlia.
Qed.

(** Two present addresses with the same physical page. *)
Lemma phys_inj s p va q vb :
  vmm_ok s → user_va p va → user_va q vb → present s p va → present s q vb →
  phys s p va = phys s q vb → p = q ∧ va = vb.
Proof.
  intros Hok Hu Hv Hp Hq E. destruct (present_frame s p va) as (W1 & F1 & _ & _ & M1); [done..|].
  destruct (present_frame s q vb) as (W2 & F2 & _ & _ & M2); [done..|].
  rewrite <- E in F2. pose proof (vo_inj s Hok _ _ _ W1 W2 F1 F2) as Ei. injection Ei as Ep Ek Ej.
  split; [done|]. rewrite <- E, M1 in M2. rewrite !PDE_ADDR_div in Ek. rewrite !PTE_ADDR_mod in Ej.
  divlia.
Qed.

(** ** What the steps change *)

(** The addresses from [uva] to [uva + n] of process [p] hold the bytes [f]; nothing else
    that a process or the kernel sees changes, except that missing pages of [p] may
    have been allocated. *)
Record uwrite (p uva n : Z) (f : Z → Z) s s' : Prop := {
  uw_ok : vmm_ok s';
  uw_new : ∀ i, 0 ≤ i < n → present s' p (uva + i) ∧ ubyte s' p (uva + i) = f i;
  uw_keep : ∀ q va, user_va q va → present s q va → upte s' q va = upte s q va;
  uw_data : ∀ q va, user_va q va → present s q va →
    ¬ (q = p ∧ uva ≤ va < uva + n) → ubyte s' q va = ubyte s q va;
  uw_other : ∀ q va, user_va q va → q ≠ p → upte s' q va = upte s q va;
  uw_kern : ∀ a, kern_addr a → load8 (mem s') a = load8 (mem s) a;
}.

Lemma present_keep s s' q va : upte s' q va = upte s q va → present s q va → present s' q va.
Proof. unfold present. by intros ->. Qed.

Lemma phys_keep s s' q va : upte s' q va = upte s q va → phys s' q va = phys s q va.
Proof. unfold phys. by intros ->. Qed.

Lemma uwrite_refl p uva f s : vmm_ok s → uwrite p uva 0 f s s.
Proof. intros Hok. constructor; try done. intros; lia. Qed.

Lemma uwrite_trans p uva n m f g s s1 s' :
  0 ≤ n → user_va p uva → uva + n + m ≤ VM_USERHI → 0 ≤ m →
  uwrite p uva n f s s1 → uwrite p (uva + n) m g s1 s' →
  uwrite p uva (n + m) (λ i, if i <? n then f i else g (i - n)) s s'.
Proof.
  intros Hn [Hp Hv] Hhi Hm [] []. constructor; [done|..].
  - intros i Hi. destruct (Z.ltb_spec i n) as [Hlt|Hge].
    + destruct (uw_new0 i ltac:(lia)) as [Hpr Hb].
      assert (user_va p (uva + i)) as Hu by (split; lia).
      pose proof (uw_keep1 _ _ Hu Hpr) as E. split; [by apply (present_keep s1)|].
      rewrite uw_data1; [done|done|done|lia].
    + replace (uva + i) with (uva + n + (i - n)) by lia. apply uw_new1. lia.
  - intros q va Hu Hpr. pose proof (uw_keep0 _ _ Hu Hpr) as E.
    rewrite uw_keep1, E; [done|done|]. by apply (present_keep s).
  - intros q va Hu Hpr Hnot. pose proof (uw_keep0 _ _ Hu Hpr) as E.
    rewrite uw_data1; [|done|by apply (present_keep s)|lia]. apply uw_data0; [done|done|lia].
  - intros q va Hu Hne. by rewrite uw_other1, uw_other0.
  - intros a Ha. by rewrite uw_kern1, uw_kern0.
Qed.

Lemma uwrite_ext p uva n f g s s' :
  (∀ i, 0 ≤ i < n → f i = g i) → uwrite p uva n f s s' → uwrite p uva n g s s'.
Proof. intros E []. constructor; try done. intros i Hi. rewrite <- E by done. auto. Qed.

(** *** Finding the page *)

Lemma land_P e : (Z.land e PTE_P =? 0) = negb (Z.testbit e 0).
Proof.
  change PTE_P with (Z.ones 1). rewrite Z.land_ones by lia. change (2 ^ 1) with 2.
  rewrite Z.bit0_odd, Zodd_mod. destruct (Z.eqb_spec (e mod 2) 0) as [->|]; [done|].
  assert (e mod 2 = 1) as -> by divlia. done.
Qed.

Lemma ubyte_tables p q va s s' :
  vmm_ok s' → tables_only p s s' → user_va q va → present s' q va → upte s' q va = upte s q va →
  ubyte s' q va = ubyte s q va.
Proof.
  intros Hok Ht Hu Hpr E. unfold ubyte. rewrite (phys_keep s s') by done.
  destruct (present_frame s' q va) as (W & F & [Hr _] & Hr' & _); [done..|].
  rewrite (phys_keep s s') in * by done. destruct (Ht _ Hr') as [->|[Hd|(k & Hk & Hf)]]; [done|..].
  - pose proof PDirPool_low. unfold_uc. divlia.
  - by pose proof (vo_inj s' Hok _ _ _ W (Hk : use_wf (Tbl p k)) F Hf).
Qed.

Lemma kern_tables p s s' a :
  vmm_ok s' → tables_only p s s' → kern_addr a → load8 (mem s') a = load8 (mem s) a.
Proof.
  intros Hok Ht (Ha & Hd & _). destruct (Ht a) as [->|[?|(k & Hk & Hf)]]; [unfold_uc; lia|done..|].
  destruct (vo_owned s' Hok (Tbl p k) _ Hk Hf) as [Hr _]. unfold_uc. divlia.
Qed.

(** With the page present, or quota for a page and a table, [user_pa] finds it. *)
Lemma user_pa_runs p uva s :
  vmm_ok s → user_va p uva → present s p uva ∨ 2 ≤ avail (ctr (v_cont s) p) →
  runs (user_pa p uva) s (λ pa s', pa = phys s' p uva ∧ present s' p uva ∧
    uwrite p uva 0 (λ _, 0) s s' ∧ avail (ctr (v_cont s) p) - 2 ≤ avail (ctr (v_cont s') p)).
Proof.
  intros Hok Hu Hq. destruct (user_va_pde p uva Hu) as [Hk Hj].
  destruct (user_pde_range _ _ Hk) as [Hp Hkr]. pose proof Hu as [_ Hva].
  assert (∀ t, vmm_ok t → get_ptbl_entry_by_va p uva t = Ret (upte t p uva, t)) as Hget.
  { intros t Ht. apply get_ptbl_entry_by_va_run; [done|done|unfold_uc; lia]. }
  assert (∀ t, vmm_ok t → present t p uva →
    u32 (ADDR_MASK (upte t p uva) + uva mod PAGESIZE) = phys t p uva) as Hpa.
  { intros t Ht Hpr. destruct (present_frame t p uva Ht Hu Hpr) as (_ & _ & _ & Hr & _).
    rewrite ADDR_MASK_div by apply pte_range. by apply u32_small. }
  unfold user_pa. eapply runs_bind_eq; [by apply Hget|]. rewrite land_P.
  destruct (Z.testbit (upte s p uva) 0) eqn:E; simpl negb; cbv iota.
  { apply runs_bind, runs_ret, runs_ret. split; [by apply Hpa|]. split; [done|].
    split; [by apply uwrite_refl|lia]. }
  destruct Hq as [Hpr|Hq]; [unfold present in Hpr; congruence|].
  apply runs_bind. eapply runs_bind_mono; [by apply (alloc_page_runs Hmagic); [..|done]|].
  intros r s1 (Hok1 & Htab & Hpost).
  assert (0 ≤ tables_needed s p (PDE_ADDR uva) ≤ 1) as Ht01
    by (unfold tables_needed; destruct (_ =? _); lia).
  rewrite (proj2 (Z.leb_le _ _)) in Hpost by lia. destruct Hpost as (f & _ & Hset & _ & _ & Hch & _).
  eapply runs_of_eq; [by apply Hget|]. apply runs_ret.
  assert (present s1 p uva) as Hpr1.
  { unfold present, upte. rewrite Hset, bool_decide_true by done.
    change (Z.lor (Z.lor PTE_P PTE_U) PTE_W) with 7. change 4096 with (2 ^ 12).
    rewrite <- lor_pow2, Z.lor_spec, Z.mul_pow2_bits_low by lia. done. }
  assert (∀ q va, user_va q va → present s q va ∨ q ≠ p → upte s1 q va = upte s q va) as Hkeep.
  { intros q va Huq Hor. destruct (user_va_pde q va Huq) as [Hk' Hj'].
    destruct (user_pde_range _ _ Hk'). unfold upte. rewrite Hset by done.
    case_bool_decide as Ee; [|done]. injection Ee as -> Ek Ej. destruct Hor as [Hpr|?]; [|done].
    unfold present, upte in Hpr. rewrite Ek, Ej in Hpr. unfold upte in E. congruence. }
  split; [by apply Hpa|]. split; [done|]. split.
  - constructor; [done|intros; lia|auto..|by intros; eapply kern_tables].
    intros q va Huq Hpr _. eapply ubyte_tables; [done|done|done| |by auto].
    apply (present_keep s); auto.
  - rewrite Hch. unfold avail. simpl. lia.
Qed.

(** *** One page *)

Lemma chunk_spec len uva pa :
  0 < len → pa mod 4096 = uva mod 4096 → let n := chunk len pa in
  1 ≤ n ≤ len ∧ uva mod 4096 + n ≤ 4096 ∧ (n < len → (uva + n) mod 4096 = 0).
Proof.
  intros Hl E n. unfold n, chunk, PAGESIZE. rewrite E.
  destruct (Z.ltb_spec len (4096 - uva mod 4096)); divlia.
Qed.

(** Addresses of one page have one entry. *)
Lemma same_page s p uva i :
  0 ≤ i → uva mod 4096 + i < 4096 →
  upte s p (uva + i) = upte s p uva ∧ phys s p (uva + i) = phys s p uva + i.
Proof.
  intros Hi Hl. assert (upte s p (uva + i) = upte s p uva) as E.
  { unfold upte. rewrite !PDE_ADDR_div, !PTE_ADDR_mod. f_equal; divlia. }
  split; [done|]. unfold phys. rewrite E. divlia.
Qed.

Lemma fill_page p uva n f s m' :
  vmm_ok s → user_va p uva → present s p uva → 0 ≤ n → uva mod 4096 + n ≤ 4096 →
  uva + n ≤ VM_USERHI → filled (mem s) m' (phys s p uva) n f → uwrite p uva n f s (set_mem m' s).
Proof.
  intros Hok Hu Hpr Hn Hl Hhi Hf. set (s' := set_mem m' s). pose proof Hu as [Hp Hva].
  destruct (present_frame s p uva) as (Hw & Hfr & Hin & Hr & Hmod); [done..|].
  assert (agree_off (phys s p uva / 4096) (mem s) (mem s')) as Ha.
  { intros a Ha Hne. simpl. rewrite Hf by done. rewrite bool_decide_false; [done|]. divlia. }
  destruct (data_change_ok s s' (Data p (PDE_ADDR uva) (PTE_ADDR uva)) (phys s p uva / 4096))
    as [Hok' Hsame]; [done|done|by eauto|done|done|done|].
  assert (∀ q va, user_va q va → upte s' q va = upte s q va) as Hup.
  { intros q va Huq. destruct (user_va_pde q va Huq) as [Hk Hj].
    destruct (user_pde_range _ _ Hk). by apply Hsame. }
  constructor; [done|..|by auto| |by auto|].
  - intros i Hi. destruct (same_page s p uva i) as [E1 E2]; [lia..|].
    assert (user_va p (uva + i)) as Hui by (split; lia).
    split; [unfold present; by rewrite Hup, E1|]. unfold ubyte. rewrite (phys_keep s s') by auto.
    simpl. rewrite E2, Hf, bool_decide_true by (unfold_uc; divlia). f_equal. lia.
  - intros q va Huq Hpq Hnot. unfold ubyte. rewrite (phys_keep s s') by auto.
    destruct (present_frame s q va) as (_ & _ & _ & Hrq & _); [done..|].
    simpl. rewrite Hf, bool_decide_false; [done| |done]. intros Hc.
    assert (∃ i, phys s q va = phys s p uva + i ∧ 0 ≤ i < n) as (i & Ei & Hi)
      by (exists (phys s q va - phys s p uva); lia).
    destruct (same_page s p uva i) as [E1 E2]; [lia..|].
    assert (user_va p (uva + i)) as Hui by (split; lia).
    assert (present s p (uva + i)) as Hpi by (unfold present; by rewrite E1).
    destruct (phys_inj s p (uva + i) q va) as [<- <-]; try done; [lia|].
    apply Hnot. lia.
  - intros a (Hka & _). simpl. rewrite Hf by (unfold_uc; lia). rewrite bool_decide_false; [done|].
    destruct Hin as [Hin _]. unfold_uc. divlia.
Qed.

(** *** Paying for the pages of a range *)

Definition npages (uva len : Z) : Z :=
  if len =? 0 then 0 else (uva + len - 1) / 4096 - uva / 4096 + 1.

(** The pages are all there, or the quota covers a page and a table for each. *)
Definition fundable s (p uva len : Z) : Prop :=
  (∀ i, 0 ≤ i < len → present s p (uva + i)) ∨ 2 * npages uva len ≤ avail (ctr (v_cont s) p).

Lemma npages_pos uva len : 0 < len → 1 ≤ npages uva len.
Proof. intros. unfold npages. rewrite (proj2 (Z.eqb_neq _ _)) by lia. divlia. Qed.

Lemma npages_nonneg uva len : 0 ≤ len → 0 ≤ npages uva len.
Proof. intros. unfold npages. destruct (Z.eqb_spec len 0); [lia|]. divlia. Qed.

Lemma npages_step uva len n :
  1 ≤ n ≤ len → uva mod 4096 + n ≤ 4096 → (n < len → (uva + n) mod 4096 = 0) →
  npages (uva + n) (len - n) ≤ npages uva len - 1.
Proof.
  intros Hn Hl Hm. unfold npages. rewrite (proj2 (Z.eqb_neq len 0)) by lia.
  destruct (Z.eqb_spec (len - n) 0); [divlia|]. specialize (Hm ltac:(lia)). divlia.
Qed.

Lemma npages_fuel uva len : 0 ≤ len → npages uva len + 1 ≤ Z.of_nat (copy_fuel len).
Proof.
  intros. unfold copy_fuel, npages, PAGESIZE. destruct (Z.eqb_spec len 0); divlia.
Qed.

Lemma fundable_head s p uva len :
  0 < len → fundable s p uva len → present s p uva ∨ 2 ≤ avail (ctr (v_cont s) p).
Proof.
  intros Hl [Hp|Hq]; [left|right].
  - rewrite <- (Z.add_0_r uva). apply Hp. lia.
  - pose proof (npages_pos uva len Hl). lia.
Qed.

Lemma fundable_step s s2 p uva len n f :
  user_va p uva → uva + len ≤ VM_USERHI → 1 ≤ n ≤ len → uva mod 4096 + n ≤ 4096 →
  (n < len → (uva + n) mod 4096 = 0) → fundable s p uva len →
  uwrite p uva n f s s2 → avail (ctr (v_cont s) p) - 2 ≤ avail (ctr (v_cont s2) p) →
  fundable s2 p (uva + n) (len - n).
Proof.
  intros [Hp Hva] Hhi Hn Hl Hm Hfu Hw Hav. destruct Hfu as [Hpr|Hq]; [left|right].
  - intros i Hi. apply (present_keep s).
    + eapply uw_keep; [exact Hw|split; lia|]. replace (uva + n + i) with (uva + (n + i)) by lia.
      apply Hpr. lia.
    + replace (uva + n + i) with (uva + (n + i)) by lia. apply Hpr. lia.
  - pose proof (npages_step uva len n Hn Hl Hm). lia.
Qed.

(** *** The loops *)

(** A kernel buffer. *)
Definition kern_range (kva len : Z) : Prop := ∀ i, 0 ≤ i < len → kern_addr (kva + i).

(** One step of the loops that write to user memory. *)
Lemma write_step p uva len s (w : Z → Z → M vmm Z) f :
  vmm_ok s → user_va p uva → 0 < len → uva + len ≤ VM_USERHI → fundable s p uva len →
  (∀ t pa n, (∀ a, kern_addr a → load8 (mem t) a = load8 (mem s) a) →
     0 ≤ pa → pa + n < W32 → 0 ≤ n ≤ len →
     runs (w pa n) t (λ _ t', ∃ m', t' = set_mem m' t ∧ filled (mem t) m' pa n f)) →
  runs (let! pa := user_pa p uva in let size := chunk len pa in w pa size ;;; ret size) s
    (λ n s', 1 ≤ n ≤ len ∧ npages (uva + n) (len - n) ≤ npages uva len - 1 ∧
       uwrite p uva n f s s' ∧ fundable s' p (uva + n) (len - n)).
Proof.
  intros Hok Hu Hl Hhi Hfu Hwr. pose proof Hu as [Hp Hva].
  eapply runs_bind_mono; [apply user_pa_runs; [done|done|by eapply fundable_head]|].
  intros pa s1 (-> & Hpr & Hw1 & Hav). cbv zeta.
  destruct (present_frame s1 p uva) as (_ & _ & [Hin _] & Hr & Hmod); [by apply Hw1|done..|].
  destruct (chunk_spec len uva (phys s1 p uva)) as (Hn & Hpg & Hm); [done|done|].
  set (n := chunk len (phys s1 p uva)) in *.
  eapply runs_bind_mono.
  { apply (Hwr s1); [by intros; eapply uw_kern|lia| |lia]. unfold_uc. divlia. }
  intros r s2 (m' & -> & Hf). apply runs_ret.
  assert (uwrite p uva n f s (set_mem m' s1)) as Hw.
  { pose proof (fill_page p uva n f s1 m' (uw_ok _ _ _ _ _ _ Hw1) Hu Hpr ltac:(lia) Hpg ltac:(lia) Hf) as Hw2.
    rewrite <- (Z.add_0_r uva) in Hw2.
    pose proof (uwrite_trans p uva 0 n _ _ s s1 _ ltac:(lia) Hu ltac:(lia) ltac:(lia) Hw1 Hw2) as Hw.
    rewrite Z.add_0_l in Hw. eapply uwrite_ext; [|exact Hw]. intros i Hi. cbv beta.
    rewrite (proj2 (Z.ltb_ge i 0)) by lia. by rewrite Z.sub_0_r. }
  split; [done|]. split; [by apply npages_step|]. split; [done|].
  by eapply (fundable_step s).
Qed.

(** Going on after a step. *)
Lemma write_more p uva len n f s s1 s' :
  user_va p uva → 1 ≤ n ≤ len → uva + len ≤ VM_USERHI →
  uwrite p uva n f s s1 → uwrite p (uva + n) (len - n) (λ i, f (n + i)) s1 s' →
  uwrite p uva len f s s'.
Proof.
  intros Hu Hn Hhi H1 H2. replace len with (n + (len - n)) by lia.
  eapply uwrite_ext; [|eapply uwrite_trans; [..|exact H1|exact H2]; try done; lia].
  intros i Hi. simpl. destruct (Z.ltb_spec i n); [done|]. f_equal. lia.
Qed.

Lemma copyout_loop fuel p uva kva len copied s :
  vmm_ok s → 1 ≤ p < NUM_IDS → VM_USERLO ≤ uva → uva + len ≤ VM_USERHI → 0 ≤ len →
  kern_range kva len → fundable s p uva len → npages uva len < Z.of_nat fuel →
  0 ≤ copied → copied + len < W32 → 0 ≤ kva → kva + len ≤ VM_USERLO →
  runs (loop fuel (λ '(len, uva, kva, copied),
      if nz len then
        let! uva_pa := user_pa p uva in
        let size := chunk len uva_pa in
        zoom (memcpy uva_pa kva size) ;;;
        ret (inl (u32 (len - size), u32 (uva + size), u32 (kva + size), u32 (copied + size)))
      else ret (inr copied)) (len, uva, kva, copied)) s
    (λ r s', r = copied + len ∧ uwrite p uva len (λ i, load8 (mem s) (kva + i)) s s').
Proof.
  revert uva kva len copied s. induction fuel as [|fuel IH];
    intros uva kva len copied s Hok Hp Hlo Hhi Hl Hk Hfu Hfuel Hc Hcl Hka Hkl;
    [pose proof (npages_nonneg uva len Hl); lia|].
  apply loop_S. destruct (Z.eq_dec len 0) as [->|Hne].
  { apply runs_ret. split; [lia|]. by apply uwrite_refl. }
  rewrite nz_pos by lia. assert (user_va p uva) as Hu by (split; [done|lia]).
  pose proof (write_step p uva len s (λ pa n, zoom (memcpy pa kva n)) (λ i, load8 (mem s) (kva + i))
    Hok Hu ltac:(lia) Hhi Hfu) as Hst.
  eapply (runs_rw _ (let! n := (let! pa := user_pa p uva in
    let size := chunk len pa in zoom (memcpy pa kva size) ;;; ret size) in
    ret (inl (u32 (len - n), u32 (uva + n), u32 (kva + n), u32 (copied + n))))).
  { rewrite bind_assoc. apply bind_ext. intros pa t. cbv zeta. by rewrite bind_assoc. }
  eapply runs_bind_mono.
  { apply Hst. intros t pa n Ht Hpa Hpn Hn. apply runs_zoom. unfold memcpy.
    eapply runs_mono; [apply memmove_filled; unfold_uc; lia|].
    intros r m' [_ Hf]. exists m'. split; [done|]. intros a Ha. rewrite (Hf a Ha).
    case_bool_decide; [|done]. apply Ht, Hk. lia. }
  intros n s1 (Hn & Hnp & Hw & Hfu1). apply runs_ret. unfold W32 in Hcl.
  rewrite !u32_small by (unfold_uc; lia).
  eapply runs_mono.
  { apply (IH (uva + n) (kva + n) (len - n) (copied + n) s1); try lia; try done; [by apply Hw| |unfold W32; lia].
    intros i Hi. replace (kva + n + i) with (kva + (n + i)) by lia. apply Hk. lia. }
  intros r s' [-> Hw']. split; [lia|]. eapply write_more; [done|exact Hn|done|exact Hw|].
  eapply uwrite_ext; [|exact Hw']. intros i Hi. simpl.
  replace (kva + n + i) with (kva + (n + i)) by lia. apply (uw_kern _ _ _ _ _ _ Hw). apply Hk. lia.
Qed.

Lemma memset_loop fuel p uva c len done_ s :
  vmm_ok s → 1 ≤ p < NUM_IDS → VM_USERLO ≤ uva → uva + len ≤ VM_USERHI → 0 ≤ len →
  fundable s p uva len → npages uva len < Z.of_nat fuel → 0 ≤ done_ → done_ + len < W32 →
  runs (loop fuel (λ '(len, va, set),
      if nz len then
        let! pa := user_pa p va in
        let size := chunk len pa in
        zoom (memset pa c size) ;;;
        ret (inl (u32 (len - size), u32 (va + size), u32 (set + size)))
      else ret (inr set)) (len, uva, done_)) s
    (λ r s', r = done_ + len ∧ uwrite p uva len (λ _, u8 c) s s').
Proof.
  revert uva len done_ s. induction fuel as [|fuel IH];
    intros uva len dn s Hok Hp Hlo Hhi Hl Hfu Hfuel Hc Hcl;
    [pose proof (npages_nonneg uva len Hl); lia|].
  apply loop_S. destruct (Z.eq_dec len 0) as [->|Hne].
  { apply runs_ret. split; [lia|]. by apply uwrite_refl. }
  rewrite nz_pos by lia. assert (user_va p uva) as Hu by (split; [done|lia]).
  pose proof (write_step p uva len s (λ pa n, zoom (memset pa c n)) (λ _, u8 c)
    Hok Hu ltac:(lia) Hhi Hfu) as Hst.
  eapply (runs_rw _ (let! n := (let! pa := user_pa p uva in
    let size := chunk len pa in zoom (memset pa c size) ;;; ret size) in
    ret (inl (u32 (len - n), u32 (uva + n), u32 (dn + n))))).
  { rewrite bind_assoc. apply bind_ext. intros pa t. cbv zeta. by rewrite bind_assoc. }
  eapply runs_bind_mono.
  { apply Hst. intros t pa n Ht Hpa Hpn Hn. apply runs_zoom.
    eapply runs_mono; [apply memset_filled; lia|].
    intros r m' [_ Hf]. by exists m'. }
  intros n s1 (Hn & Hnp & Hw & Hfu1). apply runs_ret. unfold W32 in Hcl.
  rewrite !u32_small by (unfold_uc; lia).
  eapply runs_mono.
  { apply (IH (uva + n) (len - n) (dn + n) s1); try lia; try done; [by apply Hw|unfold W32; lia]. }
  intros r s' [-> Hw']. split; [lia|]. by eapply write_more.
Qed.

(** *** Reading user memory into a kernel buffer *)

Record uread (p uva n kva : Z) s s' : Prop := {
  ur_ok : vmm_ok s';
  ur_new : ∀ i, 0 ≤ i < n → present s' p (uva + i) ∧ load8 (mem s') (kva + i) = ubyte s' p (uva + i);
  ur_keep : ∀ q va, user_va q va → present s q va →
    upte s' q va = upte s q va ∧ ubyte s' q va = ubyte s q va;
  ur_other : ∀ q va, user_va q va → q ≠ p → upte s' q va = upte s q va;
  ur_kern : ∀ a, kern_addr a → ¬ (kva ≤ a < kva + n) → load8 (mem s') a = load8 (mem s) a;
}.

(** A change of kernel memory outside the page tables. *)
Lemma kern_change_ok s m' :
  vmm_ok s → (∀ a, 0 ≤ a < W32 → ¬ kern_addr a → load8 m' a = load8 (mem s) a) →
  let s' := set_mem m' s in vmm_ok s' ∧ pte_same s s'.
Proof.
  intros Hok Ha s'. pose proof PDirPool_low as HPl. pose proof IDPTbl_low as HIl.
  assert (∀ p k, 0 ≤ p < NUM_IDS → 0 ≤ k < 1024 → pde s' p k = pde s p k) as Hpde.
  { intros p k Hp Hk. pose proof (PDirPool_range p k Hp Hk). apply load32_ext. intros i Hi.
    apply Ha; [unfold_uc; lia|]. intros (_ & Hn & _). apply Hn. lia. }
  assert (∀ p k j, user_pde p k → 0 ≤ j < 1024 → pte s' p k j = pte s p k j) as Hpte.
  { intros p k j Hu Hj. destruct (user_pde_range _ _ Hu).
    destruct (decide (pde s p k = 0)) as [Hz|Hz]; [unfold pte; by rewrite Hpde, Hz|].
    destruct (user_table s p k Hok Hu Hz) as (pg & Hpg & [Hr' _] & _ & Hmask & _ & ->).
    unfold pte. rewrite Hpde, (proj2 (Z.eqb_neq _ _) Hz), Hmask by done.
    apply load32_ext. intros i Hi. apply Ha; [unfold_uc; lia|]. intros (Hn & _). unfold_uc. lia. }
  assert (vmm_ok s') as Hok'.
  { apply (vmm_ok_change s s' (Tbl 0 0) 0); try done; [apply Hok|by auto| | |].
    - intros k j Hk Hj. pose proof (IDPTbl_range k j Hk Hj). apply load32_ext. intros i Hi.
      apply Ha; [unfold_uc; lia|]. intros (_ & _ & Hn). apply Hn. lia.
    - intros p k Hu. destruct (user_pde_range _ _ Hu). rewrite Hpde by done. by apply vo_pde.
    - intros [p k|p k j] g Hg; simpl.
      + destruct (user_pde_range _ _ Hg). rewrite Hpde by done. by left.
      + destruct Hg. rewrite Hpte by done. by left. }
  split; [done|]. intros p k j Hp Hk Hj.
  destruct (decide (user_pde p k)); [by apply Hpte|]. by rewrite !kern_pte.
Qed.

Lemma read_page p uva n kva s m' :
  vmm_ok s → user_va p uva → present s p uva → 0 ≤ n → uva mod 4096 + n ≤ 4096 →
  uva + n ≤ VM_USERHI → kern_range kva n →
  filled (mem s) m' kva n (λ i, load8 (mem s) (phys s p uva + i)) → uread p uva n kva s (set_mem m' s).
Proof.
  intros Hok Hu Hpr Hn Hl Hhi Hk Hf. set (s' := set_mem m' s). pose proof Hu as [Hp Hva].
  assert (∀ a, 0 ≤ a < W32 → ¬ kern_addr a → load8 m' a = load8 (mem s) a) as Ha.
  { intros a Ha Hka. rewrite Hf by done. rewrite bool_decide_false; [done|]. intros Hc. apply Hka.
    replace a with (kva + (a - kva)) by lia. apply Hk. lia. }
  destruct (kern_change_ok s m' Hok Ha) as [Hok' Hsame]. fold s' in Hok', Hsame.
  assert (∀ q va, user_va q va → upte s' q va = upte s q va) as Hup.
  { intros q va Huq. destruct (user_va_pde q va Huq) as [Hk' Hj].
    destruct (user_pde_range _ _ Hk'). by apply Hsame. }
  assert (∀ q va, user_va q va → present s q va → ubyte s' q va = ubyte s q va) as Hby.
  { intros q va Huq Hpq. unfold ubyte. rewrite (phys_keep s s') by auto.
    destruct (present_frame s q va) as (_ & _ & [Hin _] & Hr & _); [done..|].
    apply Ha; [done|]. intros (Hc & _). unfold_uc. divlia. }
  constructor; [done|..|by auto|by auto|].
  - intros i Hi. destruct (same_page s p uva i) as [E1 E2]; [lia..|].
    assert (user_va p (uva + i)) as Hui by (split; lia).
    assert (present s p (uva + i)) as Hpi by (unfold present; by rewrite E1).
    split; [apply (present_keep s); auto|]. rewrite Hby by done. unfold ubyte. rewrite E2. simpl.
    destruct (Hk i ltac:(lia)) as [Hr _]. rewrite Hf, bool_decide_true by (unfold_uc; lia).
    f_equal. lia.
  - intros a [Hka _] Hnot. simpl. rewrite Hf by (unfold_uc; lia). by rewrite bool_decide_false.
Qed.

Lemma uread_refl p uva kva s : vmm_ok s → uread p uva 0 kva s s.
Proof. intros Hok. constructor; try done. intros; lia. Qed.

(** Allocating the page first. *)
Lemma uread_after p uva n kva s s1 s' f :
  uwrite p uva 0 f s s1 → uread p uva n kva s1 s' → uread p uva n kva s s'.
Proof.
  intros [] []. constructor; [done|done|..].
  - intros q va Hu Hpr. pose proof (uw_keep0 _ _ Hu Hpr) as E.
    destruct (ur_keep0 q va Hu) as [E1 E2]; [by apply (present_keep s)|].
    split; [congruence|]. rewrite E2. apply uw_data0; [done|done|lia].
  - intros q va Hu Hne. by rewrite ur_other0, uw_other0.
  - intros a Ha Hnot. by rewrite ur_kern0, uw_kern0.
Qed.

Lemma uread_trans p uva n m kva s s1 s' :
  0 ≤ n → user_va p uva → uva + n + m ≤ VM_USERHI → 0 ≤ m → kern_range kva (n + m) →
  uread p uva n kva s s1 → uread p (uva + n) m (kva + n) s1 s' → uread p uva (n + m) kva s s'.
Proof.
  intros Hn [Hp Hv] Hhi Hm Hk [] []. constructor; [done|..].
  - intros i Hi. destruct (Z.ltb_spec i n) as [Hlt|Hge].
    + destruct (ur_new0 i ltac:(lia)) as [Hpr Hb].
      assert (user_va p (uva + i)) as Hu by (split; lia).
      destruct (ur_keep1 _ _ Hu Hpr) as [E1 E2]. split; [by apply (present_keep s1)|].
      rewrite E2, <- Hb. apply ur_kern1; [apply Hk; lia|lia].
    + replace (uva + i) with (uva + n + (i - n)) by lia.
      replace (kva + i) with (kva + n + (i - n)) by lia. apply ur_new1. lia.
  - intros q va Hu Hpr. destruct (ur_keep0 _ _ Hu Hpr) as [E1 E2].
    destruct (ur_keep1 q va Hu) as [E3 E4]; [by apply (present_keep s)|]. split; congruence.
  - intros q va Hu Hne. by rewrite ur_other1, ur_other0.
  - intros a Ha Hnot. rewrite ur_kern1, ur_kern0; [done|done|lia|done|lia].
Qed.

Lemma copyin_loop fuel p uva kva len copied s :
  vmm_ok s → 1 ≤ p < NUM_IDS → VM_USERLO ≤ uva → uva + len ≤ VM_USERHI → 0 ≤ len →
  kern_range kva len → fundable s p uva len → npages uva len < Z.of_nat fuel →
  0 ≤ copied → copied + len < W32 → 0 ≤ kva → kva + len ≤ VM_USERLO →
  runs (loop fuel (λ '(len, uva, kva, copied),
      if nz len then
        let! uva_pa := user_pa p uva in
        let size := chunk len uva_pa in
        zoom (memcpy kva uva_pa size) ;;;
        ret (inl (u32 (len - size), u32 (uva + size), u32 (kva + size), u32 (copied + size)))
      else ret (inr copied)) (len, uva, kva, copied)) s
    (λ r s', r = copied + len ∧ uread p uva len kva s s').
Proof.
  revert uva kva len copied s. induction fuel as [|fuel IH];
    intros uva kva len copied s Hok Hp Hlo Hhi Hl Hk Hfu Hfuel Hc Hcl Hka Hkl;
    [pose proof (npages_nonneg uva len Hl); lia|].
  apply loop_S. destruct (Z.eq_dec len 0) as [->|Hne].
  { apply runs_ret. split; [lia|]. by apply uread_refl. }
  rewrite nz_pos by lia. assert (user_va p uva) as Hu by (split; [done|lia]).
  eapply runs_bind_mono; [apply user_pa_runs; [done|done|eapply fundable_head; [|done]; lia]|].
  intros pa s1 (-> & Hpr & Hw1 & Hav). cbv zeta. pose proof (uw_ok _ _ _ _ _ _ Hw1) as Hok1.
  destruct (present_frame s1 p uva) as (_ & _ & [Hin _] & Hr & Hmod); [done..|].
  destruct (chunk_spec len uva (phys s1 p uva)) as (Hn & Hpg & Hm); [lia|done|].
  set (n := chunk len (phys s1 p uva)) in *.
  assert (kern_range kva n) as Hkn by (intros i Hi; apply Hk; lia).
  eapply (runs_bind_mono _ _ _ (λ _ s2, uread p uva n kva s s2 ∧ v_cont s2 = v_cont s1)).
  { apply runs_zoom. unfold memcpy. eapply runs_mono; [apply memmove_filled; unfold_uc; divlia|].
    intros r m' [_ Hf]. split; [|done]. eapply uread_after; [exact Hw1|].
    apply read_page; try done; lia. }
  intros r s2 [Hr2 Hv2]. apply runs_ret. unfold W32 in Hcl.
  rewrite !u32_small by (unfold_uc; lia).
  pose proof (npages_step uva len n Hn Hpg Hm) as Hnp.
  eapply runs_mono.
  { apply (IH (uva + n) (kva + n) (len - n) (copied + n) s2);
      try lia; try done; [by apply Hr2|..|unfold W32; lia].
    - intros i Hi. replace (kva + n + i) with (kva + (n + i)) by lia. apply Hk. lia.
    - destruct Hfu as [Hall|Hq]; [left|right; rewrite Hv2; lia].
      intros i Hi. assert (present s p (uva + n + i)) as Hpi
        by (replace (uva + n + i) with (uva + (n + i)) by lia; apply Hall; lia).
      apply (present_keep s); [|done]. eapply ur_keep; [exact Hr2|split; lia|done]. }
  intros r' s' [-> Hr']. split; [lia|]. replace len with (n + (len - n)) by lia.
  eapply uread_trans; [..|exact Hr2|exact Hr']; try done; try lia.
  by replace (n + (len - n)) with len by lia.
Qed.

(** A range of user addresses that the checks of the functions accept. *)
Definition user_range (p uva len : Z) : Prop :=
  1 ≤ p < NUM_IDS ∧ VM_USERLO ≤ uva ∧ uva + len ≤ VM_USERHI ∧ 0 ≤ len.

Lemma range_guard p uva kva len :
  user_range p uva len → 0 ≤ kva → kva + len ≤ VM_USERLO →
  negb ((VM_USERLO <=? uva) && (u32 (uva + len) <=? VM_USERHI)) = false ∧
  (u32 (kva + len) >? VM_USERHI) = false.
Proof.
  intros (Hp & Hlo & Hhi & Hl) Hk Hkl. rewrite !u32_small by (unfold_uc; lia).
  rewrite (proj2 (Z.leb_le _ _)), (proj2 (Z.leb_le _ _)) by lia. split; [done|].
  rewrite Z.gtb_ltb. apply Z.ltb_ge. unfold_uc. lia.
Qed.

Lemma copyout_runs p uva kva len s :
  vmm_ok s → user_range p uva len → kern_range kva len → 0 ≤ kva → kva + len ≤ VM_USERLO →
  fundable s p uva len →
  runs (pt_copyout kva p uva len) s
    (λ r s', r = len ∧ uwrite p uva len (λ i, load8 (mem s) (kva + i)) s s').
Proof.
  intros Hok Hr Hk Hk0 Hkl Hfu. destruct (range_guard p uva kva len Hr Hk0 Hkl) as [E1 E2].
  destruct Hr as (Hp & Hlo & Hhi & Hl). unfold pt_copyout. rewrite E1, E2.
  pose proof (npages_fuel uva len Hl).
  eapply runs_mono; [apply copyout_loop; try done; unfold_uc; lia|]. done.
Qed.

Lemma copyin_runs p uva kva len s :
  vmm_ok s → user_range p uva len → kern_range kva len → 0 ≤ kva → kva + len ≤ VM_USERLO →
  fundable s p uva len →
  runs (pt_copyin p uva kva len) s (λ r s', r = len ∧ uread p uva len kva s s').
Proof.
  intros Hok Hr Hk Hk0 Hkl Hfu. destruct (range_guard p uva kva len Hr Hk0 Hkl) as [E1 E2].
  destruct Hr as (Hp & Hlo & Hhi & Hl). unfold pt_copyin. rewrite E1, E2.
  pose proof (npages_fuel uva len Hl).
  eapply runs_mono; [apply copyin_loop; try done; unfold_uc; lia|]. done.
Qed.

Lemma pt_memset_runs p uva c len s :
  vmm_ok s → user_range p uva len → fundable s p uva len →
  runs (pt_memset p uva c len) s (λ r s', r = len ∧ uwrite p uva len (λ _, u8 c) s s').
Proof.
  intros Hok (Hp & Hlo & Hhi & Hl) Hfu. unfold pt_memset. pose proof (npages_fuel uva len Hl).
  eapply runs_mono; [apply memset_loop; try done; unfold_uc; lia|]. done.
Qed.

(** Without quota the page stays missing, and the address is taken from a zero entry. *)
Lemma user_pa_broke p uva s :
  vmm_ok s → user_va p uva → upte s p uva = 0 → avail (ctr (v_cont s) p) = 0 →
  runs (user_pa p uva) s (λ pa s', pa = uva mod 4096 ∧
    ∀ a, kern_addr a → load8 (mem s') a = load8 (mem s) a).
Proof.
  intros Hok Hu Hz Hq. destruct (user_va_pde p uva Hu) as [Hk Hj].
  destruct (user_pde_range _ _ Hk) as [Hp Hkr]. pose proof Hu as [_ Hva].
  assert (∀ t, vmm_ok t → get_ptbl_entry_by_va p uva t = Ret (upte t p uva, t)) as Hget.
  { intros t Ht. apply get_ptbl_entry_by_va_run; [done|done|unfold_uc; lia]. }
  unfold user_pa. eapply runs_bind_eq; [by apply Hget|]. rewrite Hz. simpl.
  apply runs_bind. eapply runs_bind_mono; [by apply (alloc_page_runs Hmagic); [..|done]|].
  intros r s1 (Hok1 & Htab & Hpost).
  assert (0 ≤ tables_needed s p (PDE_ADDR uva)) by (unfold tables_needed; destruct (_ =? _); lia).
  rewrite (proj2 (Z.leb_gt _ _)) in Hpost by lia. destruct Hpost as (_ & Hsame & _).
  eapply runs_of_eq; [by apply Hget|]. apply runs_ret.
  assert (upte s1 p uva = 0) as -> by (unfold upte; by rewrite Hsame).
  split; [|intros a Ha; by eapply kern_tables]. change (ADDR_MASK 0) with 0. rewrite Z.add_0_l.
  apply u32_small. unfold_uc. divlia.
Qed.

End spec.

(** ** Properties *)

Section properties.
Context `{KEnv, KernelLayout}.

(** [pt_copyout] copies a kernel buffer to user memory: it returns the length, every
    byte of the range is then mapped and holds the byte of the buffer, pages that were
    missing are allocated from the quota of the process, and no other mapped byte of any
    process, no entry of another process and no kernel memory outside the page tables
    changes.  [pt_memset] does the same with one byte value. *)
Theorem copyout_writes p uva kva c len s :
  ks_magic = KSTACK_MAGIC → vmm_ok s → user_range p uva len → kern_range kva len →
  0 ≤ kva → kva + len ≤ VM_USERLO → fundable s p uva len →
  runs (pt_copyout kva p uva len) s
    (λ r s', r = len ∧ uwrite p uva len (λ i, load8 (mem s) (kva + i)) s s') ∧
  runs (pt_memset p uva c len) s (λ r s', r = len ∧ uwrite p uva len (λ _, u8 c) s s').
Proof. intros. split; [by apply copyout_runs|by apply pt_memset_runs]. Qed.

(** C15: what [pt_copyout] put into user memory, [pt_copyin] brings back: copied out from one
    kernel buffer and in to another, the bytes are those of the first buffer, on any
    range of user memory, across page boundaries and with pages allocated on the way;
    kernel memory outside the second buffer and the page tables stays as it was. *)
Theorem copyout_copyin p uva kva kva' len s :
  ks_magic = KSTACK_MAGIC → vmm_ok s → user_range p uva len →
  kern_range kva len → 0 ≤ kva → kva + len ≤ VM_USERLO →
  kern_range kva' len → 0 ≤ kva' → kva' + len ≤ VM_USERLO → fundable s p uva len →
  runs (let! _ := pt_copyout kva p uva len in pt_copyin p uva kva' len) s (λ r s',
    r = len ∧ vmm_ok s' ∧
    (∀ i, 0 ≤ i < len → load8 (mem s') (kva' + i) = load8 (mem s) (kva + i)) ∧
    ∀ a, kern_addr a → ¬ (kva' ≤ a < kva' + len) → load8 (mem s') a = load8 (mem s) a).
Proof.
  intros Hm Hok Hr Hk Hk0 Hkl Hk' Hk0' Hkl' Hfu. pose proof Hr as (Hp & Hlo & Hhi & Hl).
  eapply runs_bind_mono; [by apply copyout_runs|]. intros _ s1 [-> Hw].
  eapply runs_mono; [apply copyin_runs; try done; [by apply Hw|]|].
  { left. intros i Hi. by apply Hw. }
  intros r s' [-> Hrd]. split; [done|]. split; [by apply Hrd|]. split.
  - intros i Hi. destruct (ur_new _ _ _ _ _ _ Hrd i Hi) as [_ ->].
    destruct (uw_new _ _ _ _ _ _ Hw i Hi) as [Hpr <-]. apply Hrd; [|done]. split; [done|lia].
  - intros a Ha Hnot. rewrite (ur_kern _ _ _ _ _ _ Hrd) by done. by apply Hw.
Qed.

(** C37: [pt_copyout] ignores a failed [alloc_page].  To an address that is not mapped, of a
    process without quota, it reports success, but the bytes are in physical page 0. *)
Theorem copyout_without_quota p uva kva len s :
  ks_magic = KSTACK_MAGIC → vmm_ok s → user_range p uva len → 0 < len →
  uva mod 4096 + len ≤ 4096 → kern_range kva len → 0 ≤ kva → kva + len ≤ VM_USERLO →
  upte s p uva = 0 → avail (ctr (v_cont s) p) = 0 →
  runs (pt_copyout kva p uva len) s (λ r s', r = len ∧
    ∀ i, 0 ≤ i < len → load8 (mem s') (uva mod 4096 + i) = load8 (mem s) (kva + i)).
Proof.
  intros Hm Hok Hr Hl Hpg Hk Hk0 Hkl Hz Hq. pose proof Hr as (Hp & Hlo & Hhi & _).
  destruct (range_guard p uva kva len Hr Hk0 Hkl) as [E1 E2]. unfold pt_copyout. rewrite E1, E2.
  assert (∃ n, copy_fuel len = S (S n)) as [n ->].
  { exists (Z.to_nat (len / PAGESIZE + 1)). unfold copy_fuel, PAGESIZE. divlia. }
  apply loop_S. rewrite nz_pos by done.
  eapply runs_bind_mono; [apply user_pa_broke; try done; split; [done|lia]|].
  intros pa s1 [-> Hk1]. cbv zeta.
  assert (chunk len (uva mod 4096) = len) as ->.
  { unfold chunk, PAGESIZE. rewrite Z.mod_mod by lia.
    destruct (Z.ltb_spec len (4096 - uva mod 4096)); lia. }
  eapply (runs_bind_mono _ _ _ (λ _ s2, ∀ i, 0 ≤ i < len →
    load8 (mem s2) (uva mod 4096 + i) = load8 (mem s) (kva + i))).
  { apply runs_zoom. unfold memcpy. unfold VM_USERHI, VM_USERLO in *.
    eapply runs_mono; [apply memmove_filled; unfold_vm; divlia|].
    intros r m' [_ Hf] i Hi. simpl. rewrite Hf, bool_decide_true by (unfold_vm; divlia).
    rewrite <- Hk1 by (by apply Hk). simpl. do 2 f_equal. lia. }
  intros r s2 Hb. apply runs_ret. rewrite Z.sub_diag. apply loop_S. apply runs_ret.
  split; [|done]. rewrite Z.add_0_l. apply u32_small. unfold VM_USERHI, VM_USERLO in *. unfold_vm. lia.
Qed.

End properties.

#[local] Existing Instance demo_env.
#[local] Existing Instance demo_layout.

(** Kernel buffers of the concrete layout. *)
Lemma demo_buffer kva len : 33554432 ≤ kva → kva + len ≤ 33816576 → kern_range kva len.
Proof. intros H1 H2 i Hi. unfold kern_addr. unfold_vm. simpl. lia. Qed.

(** Four bytes across a page boundary of process 1, which has no pages yet. *)
Lemma copyout_writes_witness :
  ∃ s, (runs (pt_copyout 33554432 1 1073750014 4) s
    (λ r s', r = 4 ∧ uwrite 1 1073750014 4 (λ i, load8 (mem s) (33554432 + i)) s s')) ∧
    runs (pt_memset 1 1073750014 7 4) s
      (λ r s', r = 4 ∧ uwrite 1 1073750014 4 (λ _, u8 7) s s').
Proof.
  destruct demo_vm as (s0 & s & _ & _ & _ & Hok & Hc & _). exists s.
  assert (fundable s 1 1073750014 4) as Hf by (right; rewrite Hc; vm_compute; discriminate).
  assert (user_range 1 1073750014 4) as Hr by (vm_compute; intuition discriminate).
  assert (kern_range 33554432 4) as Hk by (apply demo_buffer; vm_compute; discriminate).
  exact (@copyout_writes demo_env demo_layout 1 1073750014 33554432 7 4 s eq_refl Hok Hr Hk
    ltac:(by vm_compute) ltac:(by vm_compute) Hf).
Defined.

Lemma copyout_copyin_witness :
  ∃ s, runs (let! _ := pt_copyout 33554432 1 1073750014 4 in pt_copyin 1 1073750014 33558528 4) s
    (λ r s', r = 4 ∧ vmm_ok s' ∧
      (∀ i, 0 ≤ i < 4 → load8 (mem s') (33558528 + i) = load8 (mem s) (33554432 + i)) ∧
      ∀ a, kern_addr a → ¬ (33558528 ≤ a < 33558528 + 4) → load8 (mem s') a = load8 (mem s) a).
Proof.
  destruct demo_vm as (s0 & s & _ & _ & _ & Hok & Hc & _). exists s.
  assert (fundable s 1 1073750014 4) as Hf by (right; rewrite Hc; vm_compute; discriminate).
  assert (user_range 1 1073750014 4) as Hr by (vm_compute; intuition discriminate).
  assert (kern_range 33554432 4) as Hk by (apply demo_buffer; vm_compute; discriminate).
  assert (kern_range 33558528 4) as Hk' by (apply demo_buffer; vm_compute; discriminate).
  exact (@copyout_copyin demo_env demo_layout 1 1073750014 33554432 33558528 4 s eq_refl Hok Hr Hk
    ltac:(by vm_compute) ltac:(by vm_compute) Hk' ltac:(by vm_compute) ltac:(by vm_compute) Hf).
Defined.

Lemma copyout_without_quota_witness :
  ∃ s, runs (pt_copyout 33554432 2 1073741824 4) s (λ r s', r = 4 ∧
    ∀ i, 0 ≤ i < 4 → load8 (mem s') (1073741824 mod 4096 + i) = load8 (mem s) (33554432 + i)).
Proof.
  destruct demo_vm as (s0 & s & _ & _ & _ & Hok & _ & Hz & Hq). exists s.
  assert (user_range 2 1073741824 4) as Hr by (vm_compute; intuition discriminate).
  assert (kern_range 33554432 4) as Hk by (apply demo_buffer; vm_compute; discriminate).
  assert (upte s 2 1073741824 = 0) as Hu by (apply Hz; vm_compute; intuition discriminate).
  exact (@copyout_without_quota demo_env demo_layout 2 1073741824 33554432 4 s eq_refl Hok Hr eq_refl
    ltac:(by vm_compute) Hk ltac:(by vm_compute) ltac:(by vm_compute) Hu Hq).
Defined.
