(* ===== verification/Bufcache.v ===== *)
(** * The disk driver and the buffer cache

    kern/dev/disk/ide.c drives an IDE controller, kern/fs/bufcache.c keeps copies of
    disk blocks in [NBUF] buffers, in a doubly linked list ordered by their last use. *)

From S2P Require Import Prelude Spinlock Mem DList.

Definition NBUF : Z := 10.
Definition BSIZE : Z := 512.
Definition ROOTDEV : Z := 1.

Definition B_BUSY : Z := 1.
Definition B_VALID : Z := 2.
Definition B_DIRTY : Z := 4.

Definition IDE_BSY : Z := 128.
Definition IDE_DRDY : Z := 64.
Definition IDE_DF : Z := 32.
Definition IDE_ERR : Z := 1.
Definition IDE_CMD_READ : Z := 32.
Definition IDE_CMD_WRITE : Z := 48.

(** A pointer to a [struct buf] is the index of the buffer in [bcache.buf], [NBUF] for
    [bcache.head] and [-1] for the null pointer. *)
Definition HEAD : Z := NBUF.
Definition NULL : Z := -1.

Record buf := {
  b_flags : Z;
  b_dev : Z;
  b_sector : Z;
  b_prev : Z;
  b_next : Z;
  b_qnext : Z;
  b_data : memory;
}.
#[global] Instance buf_inhabited : Inhabited buf := populate
  {| b_flags := 0; b_dev := 0; b_sector := 0; b_prev := NULL; b_next := NULL; b_qnext := NULL;
     b_data := ∅ |}.

(** The drives: the contents of their sectors, the sectors written since the start in
    their order, the registers of the controller by port, and whether the status
    register shows an error.  Then the variables of ide.c and bufcache.c. *)
Record bc := {
  d_disk : gmap (Z * Z) memory;
  d_writes : list (Z * Z * memory);
  d_regs : gmap Z Z;
  d_fail : bool;
  ide_lk : spinlock_t;
  fs_lock : spinlock_t;
  idequeue : Z;
  havedisk1 : Z;
  bcache_lock : spinlock_t;
  bufs : gmap Z buf;
}.

Definition set_disk (d : gmap (Z * Z) memory) (w : list (Z * Z * memory)) (s : bc) : bc := {|
  d_disk := d; d_writes := w; d_regs := d_regs s; d_fail := d_fail s; ide_lk := ide_lk s;
  fs_lock := fs_lock s; idequeue := idequeue s; havedisk1 := havedisk1 s;
  bcache_lock := bcache_lock s; bufs := bufs s |}.
Definition set_regs (r : gmap Z Z) (s : bc) : bc := {|
  d_disk := d_disk s; d_writes := d_writes s; d_regs := r; d_fail := d_fail s; ide_lk := ide_lk s;
  fs_lock := fs_lock s; idequeue := idequeue s; havedisk1 := havedisk1 s;
  bcache_lock := bcache_lock s; bufs := bufs s |}.
Definition set_ide_lk (l : spinlock_t) (s : bc) : bc := {|
  d_disk := d_disk s; d_writes := d_writes s; d_regs := d_regs s; d_fail := d_fail s; ide_lk := l;
  fs_lock := fs_lock s; idequeue := idequeue s; havedisk1 := havedisk1 s;
  bcache_lock := bcache_lock s; bufs := bufs s |}.
Definition set_fs_lock (l : spinlock_t) (s : bc) : bc := {|
  d_disk := d_disk s; d_writes := d_writes s; d_regs := d_regs s; d_fail := d_fail s;
  ide_lk := ide_lk s; fs_lock := l; idequeue := idequeue s; havedisk1 := havedisk1 s;
  bcache_lock := bcache_lock s; bufs := bufs s |}.
Definition set_idequeue (q : Z) (s : bc) : bc := {|
  d_disk := d_disk s; d_writes := d_writes s; d_regs := d_regs s; d_fail := d_fail s;
  ide_lk := ide_lk s; fs_lock := fs_lock s; idequeue := q; havedisk1 := havedisk1 s;
  bcache_lock := bcache_lock s; bufs := bufs s |}.
Definition set_havedisk1 (v : Z) (s : bc) : bc := {|
  d_disk := d_disk s; d_writes := d_writes s; d_regs := d_regs s; d_fail := d_fail s;
  ide_lk := ide_lk s; fs_lock := fs_lock s; idequeue := idequeue s; havedisk1 := v;
  bcache_lock := bcache_lock s; bufs := bufs s |}.
Definition set_bcache_lock (l : spinlock_t) (s : bc) : bc := {|
  d_disk := d_disk s; d_writes := d_writes s; d_regs := d_regs s; d_fail := d_fail s;
  ide_lk := ide_lk s; fs_lock := fs_lock s; idequeue := idequeue s; havedisk1 := havedisk1 s;
  bcache_lock := l; bufs := bufs s |}.
Definition set_bufs (b : gmap Z buf) (s : bc) : bc := {|
  d_disk := d_disk s; d_writes := d_writes s; d_regs := d_regs s; d_fail := d_fail s;
  ide_lk := ide_lk s; fs_lock := fs_lock s; idequeue := idequeue s; havedisk1 := havedisk1 s;
  bcache_lock := bcache_lock s; bufs := b |}.

Definition set_b_flags (v : Z) (b : buf) : buf := {| b_flags := v; b_dev := b_dev b;
  b_sector := b_sector b; b_prev := b_prev b; b_next := b_next b; b_qnext := b_qnext b; b_data := b_data b |}.
Definition set_b_dev (v : Z) (b : buf) : buf := {| b_flags := b_flags b; b_dev := v;
  b_sector := b_sector b; b_prev := b_prev b; b_next := b_next b; b_qnext := b_qnext b; b_data := b_data b |}.
Definition set_b_sector (v : Z) (b : buf) : buf := {| b_flags := b_flags b; b_dev := b_dev b;
  b_sector := v; b_prev := b_prev b; b_next := b_next b; b_qnext := b_qnext b; b_data := b_data b |}.
Definition set_b_prev (v : Z) (b : buf) : buf := {| b_flags := b_flags b; b_dev := b_dev b;
  b_sector := b_sector b; b_prev := v; b_next := b_next b; b_qnext := b_qnext b; b_data := b_data b |}.
Definition set_b_next (v : Z) (b : buf) : buf := {| b_flags := b_flags b; b_dev := b_dev b;
  b_sector := b_sector b; b_prev := b_prev b; b_next := v; b_qnext := b_qnext b; b_data := b_data b |}.
Definition set_b_qnext (v : Z) (b : buf) : buf := {| b_flags := b_flags b; b_dev := b_dev b;
  b_sector := b_sector b; b_prev := b_prev b; b_next := b_next b; b_qnext := v; b_data := b_data b |}.
Definition set_b_data (v : memory) (b : buf) : buf := {| b_flags := b_flags b; b_dev := b_dev b;
  b_sector := b_sector b; b_prev := b_prev b; b_next := b_next b; b_qnext := b_qnext b; b_data := v |}.

Section ops.
Context `{KEnv}.

(** [b->field] and [b->field = v]. *)
Definition bget {A} (b : Z) (f : buf → A) : M bc A :=
  let! x := aread (NBUF + 1) bufs b in ret (f x).
Definition bmod (b : Z) (f : buf → buf) : M bc unit := amod (NBUF + 1) bufs set_bufs b f.

(** ** The controller *)

(** The drive and the sector that the registers select. *)
Definition ide_drive (r : gmap Z Z) : Z := Z.land (Z.shiftr (r !!! 502) 4) 1.
Definition ide_lba (r : gmap Z Z) : Z :=
  r !!! 499 + 256 * (r !!! 500) + 65536 * (r !!! 501) + 16777216 * Z.land (r !!! 502) 15.
Definition ide_addr (s : bc) : Z * Z := (ide_drive (d_regs s), ide_lba (d_regs s)).

Definition outb (port v : Z) : M bc unit :=
  modify (λ s, set_regs (<[port := u8 v]> (d_regs s)) s).
(** The status register, port 0x1f7: the drive is ready. *)
Definition ide_status : M bc Z :=
  gets (λ s, if d_fail s then Z.lor IDE_DRDY IDE_ERR else IDE_DRDY).
(** [insl] and [outsl] of a whole sector on port 0x1f0. *)
Definition insl_sector : M bc memory := gets (λ s, d_disk s !!! ide_addr s).
Definition outsl_sector (data : memory) : M bc unit :=
  modify (λ s, set_disk (<[ide_addr s := data]> (d_disk s)) (d_writes s ++ [(ide_addr s, data)]) s).

(** ** ide.c *)

Definition ide_lock : M bc unit := fzoom ide_lk set_ide_lk Spinlock.spinlock_acquire.
Definition ide_unlock : M bc unit := fzoom ide_lk set_ide_lk Spinlock.spinlock_release.

Definition ide_wait (checkerr : Z) : M bc Z :=
  let! r := ide_status in
  if negb (Z.land r (Z.lor IDE_BSY IDE_DRDY) =? IDE_DRDY) then hang
  else if nz checkerr && nz (Z.land r (Z.lor IDE_DF IDE_ERR)) then ret (-1) else ret 0.

(** The registration of the interrupt line is not part of this state; a second drive
    answers when the status of drive 1 is not 0. *)
Definition ide_init : M bc unit :=
  fzoom ide_lk set_ide_lk Spinlock.spinlock_init ;;;
  fzoom fs_lock set_fs_lock Spinlock.spinlock_init ;;;
  ide_wait 0 ;;;
  outb 502 (Z.lor 224 (Z.shiftl 1 4)) ;;;
  for_exit 0 1000 (λ _,
    let! r := ide_status in
    if nz r then modify (set_havedisk1 1) ;;; ret (Some tt) else ret None) ;;;
  outb 502 (Z.lor 224 (Z.shiftl 0 4)).

Definition ide_start (b : Z) : M bc unit :=
  when (b =? NULL) KERN_PANIC ;;;
  ide_wait 0 ;;;
  outb 1014 0 ;;;
  outb 498 1 ;;;
  let! sector := bget b b_sector in
  let! dev := bget b b_dev in
  outb 499 (Z.land sector 255) ;;;
  outb 500 (Z.land (Z.shiftr sector 8) 255) ;;;
  outb 501 (Z.land (Z.shiftr sector 16) 255) ;;;
  outb 502 (Z.lor (Z.lor 224 (Z.shiftl (Z.land dev 1) 4)) (Z.land (Z.shiftr sector 24) 15)) ;;;
  let! flags := bget b b_flags in
  if nz (Z.land flags B_DIRTY) then
    outb 503 IDE_CMD_WRITE ;;;
    let! data := bget b b_data in
    outsl_sector data
  else
    outb 503 IDE_CMD_READ.

(** [thread_wakeup(b)] concerns the scheduler only. *)
Definition ide_intr : M bc unit :=
  ide_lock ;;;
  let! b := gets idequeue in
  if b =? NULL then ide_unlock
  else
    let! qn := bget b b_qnext in
    modify (set_idequeue qn) ;;;
    let! flags := bget b b_flags in
    (if nz (Z.land flags B_DIRTY) then ret tt
     else
       let! r := ide_wait 1 in
       when (r >=? 0) (let! data := insl_sector in bmod b (set_b_data data))) ;;;
    bmod b (λ x, set_b_flags (Z.lor (b_flags x) B_VALID) x) ;;;
    bmod b (λ x, set_b_flags (Z.land (b_flags x) (Z.lnot B_DIRTY)) x) ;;;
    let! q := gets idequeue in
    when (negb (q =? NULL)) (ide_start q) ;;;
    ide_unlock.

(** The end of the queue; it holds each buffer at most once. *)
Fixpoint queue_append (fuel : nat) (p b : Z) : M bc unit :=
  match fuel with
  | O => hang
  | S f => let! qn := bget p b_qnext in
           if qn =? NULL then bmod p (set_b_qnext b) else queue_append f qn b
  end.

(** Every wait in the loop ends with an interrupt of the disk, which finishes one of the
    requests before this one or this one. *)
Definition ide_rw (b : Z) : M bc unit :=
  let! flags := bget b b_flags in
  when (negb (nz (Z.land flags B_BUSY))) KERN_PANIC ;;;
  when (Z.land flags (Z.lor B_VALID B_DIRTY) =? B_VALID) KERN_PANIC ;;;
  let! dev := bget b b_dev in
  let! have := gets havedisk1 in
  when (negb (dev =? 0) && negb (nz have)) KERN_PANIC ;;;
  ide_lock ;;;
  bmod b (set_b_qnext NULL) ;;;
  let! q := gets idequeue in
  (if q =? NULL then modify (set_idequeue b) else queue_append (Z.to_nat NBUF + 1) q b) ;;;
  let! q := gets idequeue in
  when (q =? b) (ide_start b) ;;;
  loop (Z.to_nat NBUF + 2) (λ _ : unit,
    let! flags := bget b b_flags in
    if negb (Z.land flags (Z.lor B_VALID B_DIRTY) =? B_VALID) then
      ide_unlock ;;; ide_intr ;;; ide_lock ;;;    (* thread_sleep(b, &ide_lk) *)
      ret (inl tt)
    else ret (inr tt)) tt ;;;
  ide_unlock.

(** ** bufcache.c *)

Definition bc_lock : M bc unit := fzoom bcache_lock set_bcache_lock Spinlock.spinlock_acquire.
Definition bc_unlock : M bc unit := fzoom bcache_lock set_bcache_lock Spinlock.spinlock_release.

Definition bufcache_init : M bc unit :=
  fzoom bcache_lock set_bcache_lock Spinlock.spinlock_init ;;;
  bmod HEAD (set_b_prev HEAD) ;;;
  bmod HEAD (set_b_next HEAD) ;;;
  for_ 0 NBUF (λ b,
    let! n := bget HEAD b_next in
    bmod b (set_b_next n) ;;;
    bmod b (set_b_prev HEAD) ;;;
    bmod b (set_b_dev (-1)) ;;;
    let! n := bget HEAD b_next in
    bmod n (set_b_prev b) ;;;
    bmod HEAD (set_b_next b)).

(** The two scans of [bufcache_get], from the most and from the least recently used
    buffer. *)
Fixpoint bc_find (fuel : nat) (b dev sector : Z) : M bc Z :=
  match fuel with
  | O => hang
  | S f =>
    if b =? HEAD then ret NULL
    else
      let! x := bget b id in
      if (u32 (b_dev x) =? dev) && (b_sector x =? sector) then ret b
      else bc_find f (b_next x) dev sector
  end.

Fixpoint bc_victim (fuel : nat) (b : Z) : M bc Z :=
  match fuel with
  | O => hang
  | S f =>
    if b =? HEAD then ret NULL
    else
      let! x := bget b id in
      if (Z.land (b_flags x) B_BUSY =? 0) && (Z.land (b_flags x) B_DIRTY =? 0) then ret b
      else bc_victim f (b_prev x)
  end.

Definition scan_len : nat := Z.to_nat NBUF + 1.

(** A busy buffer is waited for: nobody releases it while this thread sleeps, unless
    another thread holds it. *)
Definition bufcache_get (dev sector : Z) : M bc Z :=
  bc_lock ;;;
  let! h := bget HEAD b_next in
  let! b := bc_find scan_len h dev sector in
  if negb (b =? NULL) then
    let! flags := bget b b_flags in
    if Z.land flags B_BUSY =? 0 then
      bmod b (λ x, set_b_flags (Z.lor (b_flags x) B_BUSY) x) ;;;
      bc_unlock ;;;
      ret b
    else hang
  else
    let! h := bget HEAD b_prev in
    let! b := bc_victim scan_len h in
    if negb (b =? NULL) then
      bmod b (set_b_dev (s32 dev)) ;;;
      bmod b (set_b_sector sector) ;;;
      bmod b (set_b_flags B_BUSY) ;;;
      bc_unlock ;;;
      ret b
    else KERN_PANIC ;;; ret NULL.

Definition bufcache_read (dev sector : Z) : M bc Z :=
  let! b := bufcache_get dev sector in
  let! flags := bget b b_flags in
  when (negb (nz (Z.land flags B_VALID))) (ide_rw b) ;;;
  ret b.

Definition bufcache_write (b : Z) : M bc unit :=
  let! flags := bget b b_flags in
  when (Z.land flags B_BUSY =? 0) KERN_PANIC ;;;
  bmod b (λ x, set_b_flags (Z.lor (b_flags x) B_DIRTY) x) ;;;
  ide_rw b.

Definition bufcache_release (b : Z) : M bc unit :=
  let! flags := bget b b_flags in
  when (Z.land flags B_BUSY =? 0) KERN_PANIC ;;;
  bc_lock ;;;
  let! n := bget b b_next in
  let! p := bget b b_prev in
  bmod n (set_b_prev p) ;;;
  let! n := bget b b_next in
  let! p := bget b b_prev in
  bmod p (set_b_next n) ;;;
  let! n := bget HEAD b_next in
  bmod b (set_b_next n) ;;;
  bmod b (set_b_prev HEAD) ;;;
  let! n := bget HEAD b_next in
  bmod n (set_b_prev b) ;;;
  bmod HEAD (set_b_next b) ;;;
  bmod b (λ x, set_b_flags (Z.land (b_flags x) (Z.lnot B_BUSY)) x) ;;;
  bc_unlock.                                      (* thread_wakeup(b) *)

End ops.
