(* ===== verification/BufSpec.v ===== *)
(** * The buffer cache, verified

    The least-recently-used list, the driver, and what a client of the cache may rely
    on: a block that is read is the cached or the disk's content, a write goes to the
    disk, and nothing else changes. *)

From S2P Require Import Prelude Spinlock Mem DList Bufcache.

Section driver.
Context `{KEnv}.
Hypothesis Hmagic : ks_magic = KSTACK_MAGIC.

Definition bufx (s : bc) (b : Z) : buf := bufs s !!! b.

(** The driver is idle, the drives are there and work. *)
Record idle (s : bc) : Prop := {
  id_lk : lock (ide_lk s) = 0;
  id_queue : idequeue s = NULL;
  id_fail : d_fail s = false;
  id_disk1 : havedisk1 s ≠ 0;
}.

Lemma bget_run {A} b (f : buf → A) s : 0 ≤ b ≤ NBUF → bget b f s = Ret (f (bufx s b), s).
Proof. intros Hb. unfold bget. kstep (aread_in (NBUF + 1) bufs b s ltac:(lia)). done. Qed.

Lemma bmod_run b f s :
  0 ≤ b ≤ NBUF → bmod b f s = Ret (tt, set_bufs (<[b := f (bufx s b)]> (bufs s)) s).
Proof. intros Hb. unfold bmod. by rewrite amod_in by lia. Qed.

Lemma bufx_set m s b : bufx (set_bufs m s) b = m !!! b.
Proof. done. Qed.

(** The registers select the sector. *)
Lemma land_byte x : Z.land x 255 = x mod 256.
Proof. change 255 with (Z.ones 8). by rewrite Z.land_ones by lia. Qed.

Lemma sector_bytes x :
  0 ≤ x < 2 ^ 28 →
  x mod 256 + 256 * (x / 256 mod 256) + 65536 * (x / 65536 mod 256) + 16777216 * (x / 16777216) = x.
Proof. change (2 ^ 28) with 268435456. intros. divlia. Qed.

Definition regs_for (sec cmd : Z) (r : gmap Z Z) : gmap Z Z :=
  <[503 := u8 cmd]> (<[502 := u8 (Z.lor (Z.lor 224 (Z.shiftl (Z.land 1 1) 4)) (Z.land (Z.shiftr sec 24) 15))]>
    (<[501 := u8 (Z.land (Z.shiftr sec 16) 255)]> (<[500 := u8 (Z.land (Z.shiftr sec 8) 255)]>
      (<[499 := u8 (Z.land sec 255)]> (<[498 := u8 1]> (<[1014 := u8 0]> r)))))).

Lemma drive_byte t : 0 ≤ t < 16 →
  u8 (Z.lor 240 t) = 240 + t ∧ Z.land (Z.shiftr (240 + t) 4) 1 = 1 ∧ Z.land (240 + t) 15 = t.
Proof.
  intros Ht. assert (t ∈ seqZ 0 16) as Hin by (apply elem_of_seqZ; lia). revert t Hin Ht.
  cut (Forall (λ t, u8 (Z.lor 240 t) = 240 + t ∧ Z.land (Z.shiftr (240 + t) 4) 1 = 1 ∧
    Z.land (240 + t) 15 = t) (seqZ 0 16)); [|by repeat constructor].
  intros Hf t Hin _. by apply (proj1 (Forall_forall _ _) Hf).
Qed.

Lemma regs_for_addr sec cmd r s :
  0 ≤ sec < 2 ^ 28 → d_regs s = regs_for sec cmd r → ide_addr s = (1, sec).
Proof.
  intros Hs E. unfold ide_addr, ide_drive, ide_lba. rewrite E. unfold regs_for.
  repeat first [rewrite lookup_total_insert_eq | rewrite lookup_total_insert_ne by lia].
  rewrite !land_byte, !Z.shiftr_div_pow2 by lia. change (Z.lor 224 (Z.shiftl (Z.land 1 1) 4)) with 240.
  assert (0 ≤ sec / 2 ^ 24 < 16) as Ht
    by (change (2 ^ 28) with 268435456 in Hs; change (2 ^ 24) with 16777216; divlia).
  assert (Z.land (sec / 2 ^ 24) 15 = sec / 2 ^ 24) as ->.
  { change 15 with (Z.ones 4). rewrite Z.land_ones by lia. by apply Z.mod_small. }
  destruct (drive_byte _ Ht) as (-> & E1 & E2). rewrite E2. rewrite Z.shiftr_div_pow2 in E1 by lia.
  rewrite E1. f_equal. unfold u8. rewrite !Z.mod_mod by lia. by apply sector_bytes.
Qed.

(** *** The driver *)

Lemma status_run s : d_fail s = false → ide_status s = Ret (IDE_DRDY, s).
Proof. intros E. unfold ide_status, gets. by rewrite E. Qed.

Lemma wait_run c s : d_fail s = false → ide_wait c s = Ret (0, s).
Proof.
  intros E. unfold ide_wait. kstep (status_run s E).
  change (Z.land IDE_DRDY (Z.lor IDE_BSY IDE_DRDY) =? IDE_DRDY) with true.
  change (nz (Z.land IDE_DRDY (Z.lor IDE_DF IDE_ERR))) with false. by rewrite andb_false_r.
Qed.

(** What [ide_start] leaves: the registers set, and a dirty buffer written. *)
Definition started (b : Z) (s : bc) : bc :=
  let x := bufx s b in
  let sec := b_sector x in
  if nz (Z.land (b_flags x) B_DIRTY) then
    set_disk (<[(1, sec) := b_data x]> (d_disk s)) (d_writes s ++ [(1, sec, b_data x)])
      (set_regs (regs_for sec IDE_CMD_WRITE (d_regs s)) s)
  else set_regs (regs_for sec IDE_CMD_READ (d_regs s)) s.

Lemma ide_start_run b s :
  0 ≤ b < NBUF → d_fail s = false → b_dev (bufx s b) = 1 → 0 ≤ b_sector (bufx s b) < 2 ^ 28 →
  ide_start b s = Ret (tt, started b s).
Proof.
  intros Hb Hf Hd Hs. unfold ide_start. rewrite (proj2 (Z.eqb_neq b NULL)) by (unfold NULL; lia).
  simpl when. rewrite bind_ret_l. kstep (wait_run 0 s Hf).
  assert (∀ A (f : buf → A) t, bufs t = bufs s → bget b f t = Ret (f (bufx s b), t)) as Hg.
  { intros A f t E. rewrite bget_run by lia. unfold bufx. by rewrite E. }
  unfold outb, modify. do 2 (erewrite bind_Ret; [|reflexivity]).
  do 2 (erewrite bind_Ret; [|by apply Hg]).
  do 4 (erewrite bind_Ret; [|reflexivity]). erewrite bind_Ret; [|by apply Hg]. rewrite Hd.
  unfold started. cbv zeta. destruct (nz _).
  - erewrite bind_Ret; [|reflexivity]. erewrite bind_Ret; [|by apply Hg].
    unfold outsl_sector, modify. do 2 f_equal.
    erewrite !regs_for_addr; [reflexivity|exact Hs|reflexivity].
  - reflexivity.
Qed.

(** *** The flags *)

Definition fl (bu va di : bool) : Z := b2z bu + 2 * b2z va + 4 * b2z di.

Lemma fl_busy bu va di : nz (Z.land (fl bu va di) B_BUSY) = bu.
Proof. by destruct bu, va, di. Qed.
Lemma fl_nbusy bu va di : (Z.land (fl bu va di) B_BUSY =? 0) = negb bu.
Proof. by destruct bu, va, di. Qed.
Lemma fl_valid bu va di : nz (Z.land (fl bu va di) B_VALID) = va.
Proof. by destruct bu, va, di. Qed.
Lemma fl_dirty bu va di : nz (Z.land (fl bu va di) B_DIRTY) = di.
Proof. by destruct bu, va, di. Qed.
Lemma fl_ndirty bu va di : (Z.land (fl bu va di) B_DIRTY =? 0) = negb di.
Proof. by destruct bu, va, di. Qed.
Lemma fl_clean bu va di : (Z.land (fl bu va di) (Z.lor B_VALID B_DIRTY) =? B_VALID) = va && negb di.
Proof. by destruct bu, va, di. Qed.
Lemma fl_set_busy bu va di : Z.lor (fl bu va di) B_BUSY = fl true va di.
Proof. by destruct bu, va, di. Qed.
Lemma fl_set_valid bu va di : Z.lor (fl bu va di) B_VALID = fl bu true di.
Proof. by destruct bu, va, di. Qed.
Lemma fl_set_dirty bu va di : Z.lor (fl bu va di) B_DIRTY = fl bu va true.
Proof. by destruct bu, va, di. Qed.
Lemma fl_clear_dirty bu va di : Z.land (fl bu va di) (Z.lnot B_DIRTY) = fl bu va false.
Proof. by destruct bu, va, di. Qed.
Lemma fl_clear_busy bu va di : Z.land (fl bu va di) (Z.lnot B_BUSY) = fl false va di.
Proof. by destruct bu, va, di. Qed.

(** *** A transfer *)

(** A transfer of buffer [b]: a dirty buffer is written, another one read. *)
Definition moved (x : buf) (bu di : bool) (d : memory) : buf := {|
  b_flags := fl bu true false; b_dev := b_dev x; b_sector := b_sector x; b_prev := b_prev x;
  b_next := b_next x; b_qnext := NULL; b_data := if di then b_data x else d |}.

Record rw_post (b : Z) (bu di : bool) (s s' : bc) : Prop := {
  rp_idle : idle s';
  rp_bcl : bcache_lock s' = bcache_lock s;
  rp_fsl : fs_lock s' = fs_lock s;
  rp_bufs : bufs s' = <[b := moved (bufx s b) bu di (d_disk s !!! (1, b_sector (bufx s b)))]> (bufs s);
  rp_disk : d_disk s' = if di then <[(1, b_sector (bufx s b)) := b_data (bufx s b)]> (d_disk s)
                        else d_disk s;
  rp_writes : d_writes s' = if di then d_writes s ++ [(1, b_sector (bufx s b), b_data (bufx s b))]
                            else d_writes s;
}.

Definition with_queue (b q : Z) (s : bc) : bc :=
  set_idequeue q (set_bufs (<[b := set_b_qnext NULL (bufx s b)]> (bufs s))
    (set_ide_lk (Spinlock.held_by ks_cpu_idx) s)).

(** Two updates of one buffer. *)
Lemma bmod_fuse {A} b f g (k : M bc A) s :
  (bmod b f ;;; bmod b g ;;; k) s = (bmod b (λ x, g (f x)) ;;; k) s.
Proof.
  unfold bmod, amod, bind. destruct (inb (NBUF + 1) b); [|done]. simpl.
  by rewrite lookup_total_insert_eq, insert_insert_eq.
Qed.

Lemma bmod_bind {A} b f (k : M bc A) s :
  0 ≤ b ≤ NBUF → (bmod b f ;;; k) s = k (set_bufs (<[b := f (bufx s b)]> (bufs s)) s).
Proof. intros Hb. by kstep (bmod_run b f s Hb). Qed.

Lemma bget_bind {A B} b (f : buf → A) (k : A → M bc B) s :
  0 ≤ b ≤ NBUF → bind (bget b f) k s = k (f (bufx s b)) s.
Proof. intros Hb. by kstep (bget_run b f s Hb). Qed.

Lemma gets_bind {A B} (f : bc → A) (k : A → M bc B) s : bind (gets f) k s = k (f s) s.
Proof. done. Qed.

Lemma moved_dirty x bu d :
  b_qnext x = NULL → set_b_flags (fl bu true false) x = moved x bu true d.
Proof. destruct x. simpl. by intros ->. Qed.

Lemma moved_read x bu d :
  b_qnext x = NULL → set_b_flags (fl bu true false) (set_b_data d x) = moved x bu false d.
Proof. destruct x. simpl. by intros ->. Qed.

(** The end of the request by the interrupt. *)
Lemma ide_intr_run b bu va di s :
  0 ≤ b < NBUF → d_fail s = false → lock (ide_lk s) = 0 → idequeue s = b →
  b_flags (bufx s b) = fl bu va di → b_qnext (bufx s b) = NULL → ide_addr s = (1, b_sector (bufx s b)) →
  ide_intr s = Ret (tt, set_ide_lk Spinlock.free_lk (set_idequeue NULL
    (set_bufs (<[b := moved (bufx s b) bu di (d_disk s !!! (1, b_sector (bufx s b)))]> (bufs s)) s))).
Proof.
  intros Hb Hf Hl Hq Hfl Hqn Ha. unfold ide_intr, ide_lock, ide_unlock.
  erewrite bind_Ret; [|by apply fzoom_Ret, Spinlock.acquire_free].
  set (s1 := set_ide_lk _ s). rewrite gets_bind.
  change (idequeue s1) with (idequeue s). rewrite Hq, (proj2 (Z.eqb_neq b NULL)) by (unfold NULL; lia).
  rewrite bget_bind by lia. change (bufx s1 b) with (bufx s b). rewrite Hqn.
  erewrite bind_Ret; [|reflexivity]. set (s2 := set_idequeue NULL s1).
  rewrite bget_bind by lia. change (bufx s2 b) with (bufx s b). rewrite Hfl, fl_dirty.
  destruct di.
  - rewrite bind_ret_l, bmod_fuse, bmod_bind by lia. rewrite gets_bind. simpl. rewrite bind_ret_l.
    unfold fzoom. simpl. change (bufx s2 b) with (bufx s b).
    rewrite Hfl, fl_set_valid, fl_clear_dirty.
    erewrite <- moved_dirty by exact Hqn. done.
  - erewrite bind_Ret; [|erewrite bind_Ret; [|by apply wait_run]; simpl when;
      erewrite bind_Ret; [|reflexivity]; apply bmod_run; lia].
    change (bufx s2 b) with (bufx s b). change (d_disk s2 !!! ide_addr s2) with (d_disk s !!! ide_addr s).
    rewrite Ha, bmod_fuse, bmod_bind by lia. rewrite gets_bind. simpl. rewrite bind_ret_l.
    unfold fzoom, bufx. simpl. rewrite lookup_total_insert_eq, insert_insert_eq. simpl.
    change (bufs s !!! b) with (bufx s b). rewrite Hfl, fl_set_valid, fl_clear_dirty.
    rewrite <- moved_read by exact Hqn. done.
Qed.

Lemma ide_rw_runs b bu va di s :
  idle s → 0 ≤ b < NBUF → bu = true → va && negb di = false →
  b_flags (bufx s b) = fl bu va di → b_dev (bufx s b) = 1 → 0 ≤ b_sector (bufx s b) < 2 ^ 28 →
  runs (ide_rw b) s (λ _ s', rw_post b bu di s s').
Proof.
  intros [Hl Hq Hf Hd1] Hb -> Hvd Hfl Hdev Hsec.
  assert (bufx (with_queue b b s) b = set_b_qnext NULL (bufx s b)) as Ebq
    by (unfold bufx at 1; simpl; by rewrite lookup_total_insert_eq).
  eapply runs_rw; [unfold ide_rw, ide_lock, ide_unlock|].
  { rewrite bget_bind by lia. rewrite Hfl, fl_busy, fl_clean, Hvd. simpl when. rewrite !bind_ret_l.
    rewrite bget_bind by lia. rewrite gets_bind, Hdev.
    rewrite (proj2 (nz_spec _) Hd1). simpl when. rewrite bind_ret_l.
    erewrite bind_Ret; [|by apply fzoom_Ret, Spinlock.acquire_free].
    rewrite bmod_bind by lia. rewrite gets_bind. simpl idequeue. rewrite Hq.
    change (NULL =? NULL) with true. cbv iota. erewrite bind_Ret; [|reflexivity].
    rewrite gets_bind. simpl idequeue. rewrite Z.eqb_refl. simpl when.
    change (bufx (set_ide_lk (Spinlock.held_by ks_cpu_idx) s) b) with (bufx s b). simpl bufs.
    fold (with_queue b b s).
    erewrite bind_Ret; [|apply ide_start_run; [done|done|by rewrite Ebq|by rewrite Ebq]].
    reflexivity. }
  set (s1 := started b (with_queue b b s)).
  assert (bufs s1 = <[b := set_b_qnext NULL (bufx s b)]> (bufs s) ∧ d_fail s1 = false ∧
    idequeue s1 = b ∧ havedisk1 s1 = havedisk1 s ∧ bcache_lock s1 = bcache_lock s ∧
    fs_lock s1 = fs_lock s ∧ ide_addr s1 = (1, b_sector (bufx s b)) ∧
    (d_disk s1 = if di then <[(1, b_sector (bufx s b)) := b_data (bufx s b)]> (d_disk s) else d_disk s) ∧
    (d_writes s1 = if di then d_writes s ++ [(1, b_sector (bufx s b), b_data (bufx s b))]
                   else d_writes s)) as (Eb & Ef & Eq & Eh & El & Efs & Ea & Ed & Ew).
  { unfold s1, started. cbv zeta. rewrite Ebq. simpl b_flags. rewrite Hfl, fl_dirty. simpl b_sector.
    destruct di; split_and!; try done; by eapply regs_for_addr; [done|]. }
  assert (bufx s1 b = set_b_qnext NULL (bufx s b)) as Ebx
    by (unfold bufx at 1; rewrite Eb; by rewrite lookup_total_insert_eq).
  clearbody s1.
  change (Z.to_nat NBUF + 2)%nat with 12%nat.
  eapply runs_bind_eq.
  { erewrite loop_inl.
    2: { rewrite bget_bind by lia. rewrite Ebx.
      change (b_flags (set_b_qnext NULL (bufx s b))) with (b_flags (bufx s b)). rewrite Hfl, fl_clean, Hvd.
      kif. erewrite bind_Ret; [|by apply fzoom_Ret].
      erewrite bind_Ret; [|apply (ide_intr_run b true va di); try done; unfold bufx; simpl;
        change (bufs s1 !!! b) with (bufx s1 b); by rewrite Ebx].
      erewrite bind_Ret; [reflexivity|by apply fzoom_Ret, Spinlock.acquire_free]. }
    eapply loop_inr. rewrite bget_bind by lia.
    match goal with |- context [b_flags (bufx ?t b)] =>
      replace (b_flags (bufx t b)) with (fl true true false)
        by (unfold bufx at 1; simpl; by rewrite lookup_total_insert_eq) end.
    rewrite fl_clean. reflexivity. }
  eapply runs_of_eq; [by apply fzoom_Ret|].
  change (bufx (set_ide_lk _ s1) b) with (bufx s1 b). rewrite Ebx. simpl.
  constructor; try done; [constructor; simpl; try done; by rewrite Eh|]. simpl.
  rewrite Eb, insert_insert_eq. f_equal. unfold moved. simpl. f_equal. destruct di; [done|by rewrite Ed].
Qed.

(** ** The list of buffers *)

Definition bnext (s : bc) (b : Z) : Z := b_next (bufx s b).
Definition bprev (s : bc) (b : Z) : Z := b_prev (bufx s b).

(** The buffers from the most to the least recently used one. *)
Record lru (s : bc) (L : list Z) : Prop := {
  lr_nodup : NoDup L;
  lr_all : ∀ b, b ∈ L ↔ 0 ≤ b < NBUF;
  lr_ring : ring HEAD (bnext s) (bprev s) L;
}.

Lemma lru_length s L : lru s L → length L = 10%nat.
Proof.
  intros [Hnd Hall _].
  assert (L ≡ₚ seqZ 0 NBUF) as E.
  { apply NoDup_Permutation; [done|apply NoDup_seqZ|]. intros x. rewrite Hall, elem_of_seqZ. done. }
  rewrite E. by rewrite length_seqZ.
Qed.

Definition caches (s : bc) (dev sec b : Z) : bool :=
  (u32 (b_dev (bufx s b)) =? dev) && (b_sector (bufx s b) =? sec).
Definition evictable (s : bc) (b : Z) : bool :=
  (Z.land (b_flags (bufx s b)) B_BUSY =? 0) && (Z.land (b_flags (bufx s b)) B_DIRTY =? 0).

Lemma bc_find_run fuel s p L n dev sec :
  dseg (bnext s) (bprev s) p L HEAD → (∀ b, b ∈ L → 0 ≤ b < NBUF) → (length L < fuel)%nat →
  n = hd_or HEAD L →
  ∃ r, bc_find fuel n dev sec s = Ret (r, s) ∧
    (r = NULL ∧ (∀ b, b ∈ L → caches s dev sec b = false) ∨ r ∈ L ∧ caches s dev sec r = true).
Proof.
  revert p L n. induction fuel as [|fuel IH]; intros p L n Hd Hr Hl ->; [lia|].
  destruct L as [|b L]; simpl.
  { exists NULL. split; [done|]. left. split; [done|]. by intros b ?%elem_of_nil. }
  assert (0 ≤ b < NBUF) as Hb by (apply Hr; left). destruct Hd as (_ & Hn & Hd).
  rewrite (proj2 (Z.eqb_neq b HEAD)) by (unfold HEAD; lia). rewrite bget_bind by lia.
  simpl. fold (caches s dev sec b). destruct (caches s dev sec b) eqn:E.
  { exists b. split; [done|]. right. split; [left|done]. }
  destruct (IH b L (bnext s b)) as (r & Er & Hc); [done|intros; apply Hr; by right|simpl in Hl; lia|done|].
  exists r. split; [exact Er|]. destruct Hc as [[-> Hn']|[Hin Hc]]; [left|right].
  - split; [done|]. intros c [->|?]%elem_of_cons; auto.
  - split; [by right|done].
Qed.

Lemma bc_victim_run fuel s L n :
  dseg (bnext s) (bprev s) HEAD L n → (∀ b, b ∈ L → 0 ≤ b < NBUF) → (length L < fuel)%nat →
  ∃ r, bc_victim fuel (last_or HEAD L) s = Ret (r, s) ∧
    (r = NULL ∧ (∀ b, b ∈ L → evictable s b = false) ∨ r ∈ L ∧ evictable s r = true).
Proof.
  revert L n. induction fuel as [|fuel IH]; intros L n Hd Hr Hl; [lia|].
  destruct L as [|b L _] using rev_ind; simpl.
  { exists NULL. split; [done|]. left. split; [done|]. by intros b ?%elem_of_nil. }
  rewrite last_or_snoc. apply dseg_app in Hd as [Hd (Hp & _ & _)].
  assert (0 ≤ b < NBUF) as Hb by (apply Hr, elem_of_app; right; left).
  rewrite (proj2 (Z.eqb_neq b HEAD)) by (unfold HEAD; lia). rewrite bget_bind by lia.
  simpl. fold (evictable s b). destruct (evictable s b) eqn:E.
  { exists b. split; [done|]. right. split; [apply elem_of_app; right; left|done]. }
  change (b_prev (bufx s b)) with (bprev s b). rewrite Hp.
  destruct (IH L (hd_or n [b])) as (r & Er & Hc); [done|intros; apply Hr, elem_of_app; by left| |].
  { rewrite length_app in Hl. simpl in Hl. lia. }
  exists r. split; [exact Er|]. destruct Hc as [[-> Hn']|[Hin Hc]]; [left|right].
  - split; [done|]. intros c [?|?%list_elem_of_singleton]%elem_of_app; subst; auto.
  - split; [apply elem_of_app; by left|done].
Qed.

(** ** The cache *)

(** Buffers that differ at most in their links. *)
Definition same_core (x y : buf) : Prop :=
  b_flags x = b_flags y ∧ b_dev x = b_dev y ∧ b_sector x = b_sector y ∧ b_data x = b_data y.

#[global] Instance same_core_equiv : Equivalence same_core.
Proof.
  split; [by intros x|by intros x y (? & ? & ? & ?)|].
  intros x y z (? & ? & ? & ?) (? & ? & ? & ?). split_and!; congruence.
Qed.

Definition is_buf (b : Z) : Prop := 0 ≤ b < NBUF.

Record cache_ok (s : bc) : Prop := {
  co_idle : idle s;
  co_lock : lock (bcache_lock s) = 0;
  co_lru : ∃ L, lru s L;
  co_flags : ∀ b, is_buf b → ∃ bu va di, b_flags (bufx s b) = fl bu va di;
  co_dev : ∀ b, is_buf b → b_dev (bufx s b) = -1 ∧ b_flags (bufx s b) = 0 ∨
    b_dev (bufx s b) = 1 ∧ 0 ≤ b_sector (bufx s b) < 2 ^ 28;
  co_uniq : ∀ b c, is_buf b → is_buf c → b_dev (bufx s b) = 1 → b_dev (bufx s c) = 1 →
    b_sector (bufx s b) = b_sector (bufx s c) → b = c;
  co_valid : ∀ b va di, is_buf b → b_dev (bufx s b) = 1 → b_flags (bufx s b) = fl false va di → va = true;
  co_clean : ∀ b, is_buf b → b_dev (bufx s b) = 1 → b_flags (bufx s b) = fl false true false →
    b_data (bufx s b) = d_disk s !!! (1, b_sector (bufx s b));
}.

(** Buffer [b] caches the sector. *)
Definition holds (s : bc) (b sec : Z) : Prop :=
  is_buf b ∧ b_dev (bufx s b) = 1 ∧ b_sector (bufx s b) = sec.

Lemma caches_holds s b sec : cache_ok s → is_buf b → caches s 1 sec b = true ↔ holds s b sec.
Proof.
  intros Hok Hb. unfold caches, holds. rewrite andb_true_iff, !Z.eqb_eq.
  destruct (co_dev s Hok b Hb) as [[-> _]|[-> _]]; split; try tauto; [by intros []|by intros (_ & ? & _)].
Qed.

Lemma sector_range s b : cache_ok s → is_buf b → b_dev (bufx s b) = 1 → 0 ≤ b_sector (bufx s b) < 2 ^ 28.
Proof. intros Hok Hb E. destruct (co_dev s Hok b Hb) as [[E' _]|[_ ?]]; [congruence|done]. Qed.

(** A change that keeps the flags, the contents and the sectors of all buffers. *)
Lemma cache_ok_links s s' L :
  cache_ok s → lru s' L → idle s' → lock (bcache_lock s') = 0 → d_disk s' = d_disk s →
  (∀ c, is_buf c → same_core (bufx s' c) (bufx s c)) → cache_ok s'.
Proof.
  intros [] Hl Hi Hlk Hd Hs. constructor; [done|done|by exists L|..].
  - intros b Hb. destruct (Hs b Hb) as (-> & _). auto.
  - intros b Hb. destruct (Hs b Hb) as (-> & -> & -> & _). auto.
  - intros b c Hb Hc. destruct (Hs b Hb) as (_ & -> & -> & _), (Hs c Hc) as (_ & -> & -> & _). auto.
  - intros b va di Hb. destruct (Hs b Hb) as (-> & -> & _). by apply co_valid0.
  - intros b Hb. destruct (Hs b Hb) as (-> & -> & -> & ->). rewrite Hd. auto.
Qed.

Lemma lru_ext s s' L :
  (∀ b, 0 ≤ b ≤ NBUF → bnext s' b = bnext s b ∧ bprev s' b = bprev s b) → lru s L → lru s' L.
Proof.
  intros E [Hnd Hall Hr]. constructor; [done|done|].
  eapply ring_ext; [|exact Hr]. intros x [->|Hx%Hall]; apply E; [done|lia].
Qed.

Lemma fl_inj bu va di bu' va' di' : fl bu va di = fl bu' va' di' → bu = bu' ∧ va = va' ∧ di = di'.
Proof. destruct bu, va, di, bu', va', di'; done. Qed.

(** After a read: buffer [b] is held by the caller and has the content [d] of the
    sector; everything else is as before. *)
Record got (sec b : Z) (di : bool) (d : memory) (s s' : bc) : Prop := {
  g_ok : cache_ok s';
  g_buf : is_buf b;
  g_flags : b_flags (bufx s' b) = fl true true di;
  g_dev : b_dev (bufx s' b) = 1;
  g_sector : b_sector (bufx s' b) = sec;
  g_data : b_data (bufx s' b) = d;
  g_others : ∀ c, is_buf c → c ≠ b → same_core (bufx s' c) (bufx s c);
  g_disk : d_disk s' = d_disk s;
  g_writes : d_writes s' = d_writes s;
}.

(** A buffer taken for a sector. *)
Lemma take_ok s s' b sec va di :
  cache_ok s → is_buf b → idle s' → lock (bcache_lock s') = 0 → d_disk s' = d_disk s →
  (∀ c, c ≠ b → bufx s' c = bufx s c) → bnext s' b = bnext s b → bprev s' b = bprev s b →
  b_flags (bufx s' b) = fl true va di → b_dev (bufx s' b) = 1 → b_sector (bufx s' b) = sec →
  0 ≤ sec < 2 ^ 28 → (∀ c, holds s c sec → c = b) → cache_ok s'.
Proof.
  intros Hok Hb Hi Hl Hd Ho En Ep Hf Hdv Hs Hr Hu. pose proof Hok as [_ _ [L HL] H4 H5 H6 H7 H8].
  constructor; [done|done|..].
  - exists L. eapply lru_ext; [|exact HL]. intros c _. destruct (decide (c = b)) as [->|]; [done|].
    unfold bnext, bprev. by rewrite Ho.
  - intros c Hc. destruct (decide (c = b)) as [->|]; [eauto|]. rewrite Ho by done. auto.
  - intros c Hc. destruct (decide (c = b)) as [->|]; [right; by rewrite Hdv, Hs|].
    rewrite Ho by done. auto.
  - intros c c' Hc Hc'. destruct (decide (c = b)) as [->|Hn], (decide (c' = b)) as [->|Hn'];
      [done|rewrite (Ho c') by done|rewrite (Ho c) by done|rewrite !Ho by done; by apply H6];
      rewrite Hs; intros D1 D2 E.
    + symmetry. apply Hu. split; [done|]. by split.
    + apply Hu. split; [done|]. by split.
  - intros c va' di' Hc. destruct (decide (c = b)) as [->|]; [|rewrite Ho by done; by apply H7].
    intros _ E. rewrite Hf in E. apply fl_inj in E as [? _]. done.
  - intros c Hc. destruct (decide (c = b)) as [->|]; [|rewrite Ho, Hd by done; by apply H8].
    intros _ E. rewrite Hf in E. apply fl_inj in E as [? _]. done.
Qed.

Lemma bc_lock_bind {A} (k : M bc A) s :
  lock (bcache_lock s) = 0 →
  (bc_lock ;;; k) s = k (set_bcache_lock (Spinlock.held_by ks_cpu_idx) s).
Proof. intros Hl. erewrite bind_Ret; [done|]. by apply fzoom_Ret, Spinlock.acquire_free. Qed.

Lemma bc_unlock_bind {A} (k : M bc A) s :
  (bc_unlock ;;; k) s = k (set_bcache_lock Spinlock.free_lk s).
Proof. done. Qed.

Lemma find_run s dev sec : cache_ok s →
  let s1 := set_bcache_lock (Spinlock.held_by ks_cpu_idx) s in
  ∃ r, bc_find scan_len (bnext s HEAD) dev sec s1 = Ret (r, s1) ∧
    (r = NULL ∧ (∀ b, is_buf b → caches s dev sec b = false) ∨ is_buf r ∧ caches s dev sec r = true).
Proof.
  intros [_ _ [L HL] _ _ _ _ _] s1. pose proof (lru_length s L HL) as Hlen. destruct HL as [Hnd Hall [Hf Hl Hs]].
  destruct (bc_find_run scan_len s1 HEAD L (bnext s HEAD) dev sec) as (r & Er & Hc);
    [done|intros; by apply Hall|rewrite Hlen; vm_compute; lia|done|].
  exists r. split; [exact Er|]. destruct Hc as [[-> Hn]|[Hin Hc]]; [left|right].
  - split; [done|]. intros b Hb. by apply Hn, Hall.
  - split; [by apply Hall|done].
Qed.

Lemma read_hit s b sec di :
  cache_ok s → holds s b sec → b_flags (bufx s b) = fl false true di →
  runs (bufcache_read 1 sec) s (λ r s', r = b ∧ got sec b di (b_data (bufx s b)) s s').
Proof.
  intros Hok Hh Hf. pose proof Hh as (Hb & Hdv & Hs). unfold bufcache_read, bufcache_get.
  destruct (find_run s 1 sec Hok) as (r & Er & Hc).
  assert (r = b) as ->.
  { destruct Hc as [[-> Hn]|[Hr Hc]].
    - specialize (Hn b Hb). by rewrite (proj2 (caches_holds s b sec Hok Hb) Hh) in Hn.
    - apply caches_holds in Hc as (_ & D & E); [|done..]. apply (co_uniq s Hok); congruence. }
  clear Hc. eapply runs_bind_eq.
  { rewrite bc_lock_bind by apply Hok. rewrite bget_bind by done.
    change (b_next _) with (bnext s HEAD). kstep Er.
    rewrite (proj2 (Z.eqb_neq b NULL)) by (unfold is_buf, NULL in *; lia). kif.
    rewrite bget_bind by (unfold is_buf in Hb; lia).
    change (bufx (set_bcache_lock _ s) b) with (bufx s b). rewrite Hf, fl_nbusy. kif.
    rewrite bmod_bind by (unfold is_buf in Hb; lia). by rewrite bc_unlock_bind. }
  change (bufx (set_bcache_lock _ s) b) with (bufx s b). rewrite Hf, fl_set_busy. simpl bufs.
  set (s1 := set_bcache_lock Spinlock.free_lk _).
  assert (bufx s1 b = set_b_flags (fl true true di) (bufx s b)) as Eb
    by (unfold bufx at 1; simpl; by rewrite lookup_total_insert_eq).
  assert (∀ c, c ≠ b → bufx s1 c = bufx s c) as Eo
    by (intros c Hc; unfold bufx at 1; simpl; by rewrite lookup_total_insert_ne).
  eapply runs_bind_eq; [apply bget_run; unfold is_buf in Hb; lia|]. rewrite Eb. simpl b_flags.
  rewrite fl_valid. simpl when. apply runs_bind, runs_ret, runs_ret. split; [done|].
  assert (cache_ok s1) as Hok1.
  { apply (take_ok s s1 b sec true di); try done; unfold bnext, bprev; rewrite ?Eb; try done.
    - by destruct (co_idle s Hok).
    - rewrite <- Hs. by apply sector_range.
    - intros c (Hc & D & E). apply (co_uniq s Hok); congruence. }
  constructor; rewrite ?Eb; try done. intros c _ Hn. by rewrite Eo.
Qed.

Lemma evictable_fl s b bu va di :
  b_flags (bufx s b) = fl bu va di → evictable s b = negb bu && negb di.
Proof. intros E. unfold evictable. by rewrite E, fl_nbusy, fl_ndirty. Qed.

Lemma read_miss s sec :
  cache_ok s → 0 ≤ sec < 2 ^ 28 → (∀ b, ¬ holds s b sec) → (∃ c, is_buf c ∧ evictable s c = true) →
  runs (bufcache_read 1 sec) s (λ b s', evictable s b = true ∧
    got sec b false (d_disk s !!! (1, sec)) s s').
Proof.
  intros Hok Hsec Hno Hev. unfold bufcache_read, bufcache_get.
  destruct (find_run s 1 sec Hok) as (r & Er & Hc).
  assert (r = NULL) as ->.
  { destruct Hc as [[-> _]|[Hr Hc]]; [done|]. apply caches_holds in Hc; [|done..]. by destruct (Hno r). }
  clear Hc. pose proof (co_lru s Hok) as [L HL]. pose proof (lru_length s L HL) as Hlen.
  set (s1 := set_bcache_lock (Spinlock.held_by ks_cpu_idx) s) in *.
  destruct (bc_victim_run scan_len s1 L HEAD) as (b & Ev & Hc);
    [apply (lr_ring _ _ HL)|intros; by apply HL|rewrite Hlen; vm_compute; lia|].
  assert (is_buf b ∧ evictable s b = true) as [Hb Heb].
  { destruct Hc as [[-> Hn]|[Hin Hc]]; [|split; [by apply HL|done]].
    destruct Hev as (c & Hc & Ec). specialize (Hn c (proj2 (lr_all _ _ HL c) Hc)).
    change (evictable s1 c) with (evictable s c) in Hn. congruence. }
  clear Hc. assert (0 ≤ b ≤ NBUF) as Hb' by (unfold is_buf in Hb; lia).
  eapply runs_bind_eq.
  { rewrite bc_lock_bind by apply Hok. fold s1. rewrite bget_bind by done.
    change (b_next _) with (bnext s HEAD). kstep Er. change (NULL =? NULL) with true. kif.
    rewrite bget_bind by done. change (b_prev _) with (bprev s HEAD). rewrite (ri_last _ _ _ _ (lr_ring _ _ HL)). kstep Ev.
    rewrite (proj2 (Z.eqb_neq b NULL)) by (unfold is_buf, NULL in *; lia). kif.
    rewrite !bmod_fuse, bmod_bind by done. by rewrite bc_unlock_bind. }
  change (bufx s1 b) with (bufx s b). change (bufs s1) with (bufs s).
  set (x := set_b_flags B_BUSY _). set (s2 := set_bcache_lock Spinlock.free_lk _).
  assert (bufx s2 b = x) as Eb by (unfold bufx at 1; simpl; by rewrite lookup_total_insert_eq).
  assert (∀ c, c ≠ b → bufx s2 c = bufx s c) as Eo
    by (intros c Hc; unfold bufx at 1; simpl; by rewrite lookup_total_insert_ne).
  assert (idle s2) as Hi2 by (by destruct (co_idle s Hok)).
  eapply runs_bind_eq; [by apply bget_run|]. rewrite Eb. simpl b_flags.
  change (nz (Z.land B_BUSY B_VALID)) with false. simpl when.
  eapply runs_bind_mono.
  { apply (ide_rw_runs b true false false); rewrite ?Eb; done. }
  intros [] s3 [Hi3 Hl3 _ Hbf3 Hd3 Hw3]. apply runs_ret. split; [done|]. rewrite Eb in Hbf3.
  assert (bufx s3 b = moved x true false (d_disk s2 !!! (1, sec))) as Eb3
    by (unfold bufx at 1; rewrite Hbf3; by rewrite lookup_total_insert_eq).
  assert (∀ c, c ≠ b → bufx s3 c = bufx s c) as Eo3.
  { intros c Hc. rewrite <- Eo by done. unfold bufx at 1. rewrite Hbf3.
    by rewrite lookup_total_insert_ne. }
  constructor; rewrite ?Eb3; try done; [|intros c _ Hn; by rewrite Eo3].
  apply (take_ok s s3 b sec true false); try done; unfold bnext, bprev; rewrite ?Eb3; try done.
  - by rewrite Hl3.
  - intros c Hc. by destruct (Hno c).
Qed.

(** *** Writing and releasing *)

Lemma write_runs s b va di :
  cache_ok s → is_buf b → b_flags (bufx s b) = fl true va di → b_dev (bufx s b) = 1 →
  let sec := b_sector (bufx s b) in let d := b_data (bufx s b) in
  runs (bufcache_write b) s (λ _ s', cache_ok s' ∧ b_flags (bufx s' b) = fl true true false ∧
    b_dev (bufx s' b) = 1 ∧ b_sector (bufx s' b) = sec ∧ b_data (bufx s' b) = d ∧
    (∀ c, is_buf c → c ≠ b → same_core (bufx s' c) (bufx s c)) ∧
    d_disk s' = <[(1, sec) := d]> (d_disk s) ∧ d_writes s' = d_writes s ++ [(1, sec, d)]).
Proof.
  intros Hok Hb Hf Hdv sec d. assert (0 ≤ b ≤ NBUF) as Hb' by (unfold is_buf in Hb; lia).
  assert (0 ≤ sec < 2 ^ 28) as Hsec by (by apply sector_range).
  unfold bufcache_write. eapply runs_bind_eq; [by apply bget_run|]. rewrite Hf, fl_nbusy. simpl when.
  eapply runs_bind_eq; [done|]. eapply runs_bind_eq; [by apply bmod_run|]. cbv beta.
  rewrite Hf, fl_set_dirty.
  set (s1 := set_bufs _ s).
  assert (bufx s1 b = set_b_flags (fl true va true) (bufx s b)) as Eb
    by (unfold bufx at 1; simpl; by rewrite lookup_total_insert_eq).
  assert (∀ c, c ≠ b → bufx s1 c = bufx s c) as Eo
    by (intros c Hc; unfold bufx at 1; simpl; by rewrite lookup_total_insert_ne).
  eapply runs_mono.
  { apply (ide_rw_runs b true va true); rewrite ?Eb; try done; [by destruct (co_idle s Hok)|].
    by rewrite andb_false_r. }
  intros [] s2 [Hi Hl _ Hbf Hd Hw]. rewrite Eb in *. simpl in Hbf, Hd, Hw.
  assert (bufx s2 b = moved (set_b_flags (fl true va true) (bufx s b)) true true
    (d_disk s !!! (1, b_sector (bufx s b)))) as Eb2
    by (unfold bufx at 1; rewrite Hbf; by rewrite lookup_total_insert_eq).
  assert (∀ c, c ≠ b → bufx s2 c = bufx s c) as Eo2.
  { intros c Hc. rewrite <- Eo by done. unfold bufx at 1. rewrite Hbf. by rewrite lookup_total_insert_ne. }
  rewrite Eb2. split; [|split_and!; try done; intros c _ Hn; by rewrite Eo2].
  pose proof Hok as [_ Hlk [L HL] H4 H5 H6 H7 H8]. constructor; [done|by rewrite Hl|..].
  - exists L. eapply lru_ext; [|exact HL]. intros c _. unfold bnext, bprev.
    destruct (decide (c = b)) as [->|]; [by rewrite Eb2|by rewrite Eo2].
  - intros c Hc. destruct (decide (c = b)) as [->|]; [rewrite Eb2; simpl; eauto|].
    rewrite Eo2 by done. auto.
  - intros c Hc. destruct (decide (c = b)) as [->|]; [rewrite Eb2; right; done|].
    rewrite Eo2 by done. auto.
  - intros c c' Hc Hc'. specialize (H6 c c' Hc Hc').
    destruct (decide (c = b)) as [->|], (decide (c' = b)) as [->|]; rewrite ?Eb2, ?Eo2 by done; done.
  - intros c va' di' Hc. destruct (decide (c = b)) as [->|]; [|rewrite Eo2 by done; by apply H7].
    rewrite Eb2. simpl. intros _ E. by apply fl_inj in E as [? _].
  - intros c Hc. destruct (decide (c = b)) as [->|Hn].
    + rewrite Eb2. simpl. intros _ E. by apply fl_inj in E as [? _].
    + rewrite Eo2 by done. intros D F. rewrite Hd, lookup_total_insert_ne; [by apply H8|].
      intros [= E]. apply Hn. apply H6; congruence.
Qed.

(** Steps that change a link. *)
Record relinked (n p : Z → Z) (s s' : bc) : Prop := {
  rl_next : ∀ b, 0 ≤ b ≤ NBUF → bnext s' b = n b;
  rl_prev : ∀ b, 0 ≤ b ≤ NBUF → bprev s' b = p b;
  rl_core : ∀ b, same_core (bufx s' b) (bufx s b);
  rl_rest : s' = set_bufs (bufs s') s;
}.

Lemma relinked_refl s : relinked (bnext s) (bprev s) s s.
Proof. by constructor; [..|destruct s]. Qed.

Lemma relink_next {A} n p s s1 b v (k : M bc A) P :
  relinked n p s s1 → 0 ≤ b ≤ NBUF →
  (∀ s2, relinked (fupd n b v) p s s2 → runs k s2 P) → runs (bmod b (set_b_next v) ;;; k) s1 P.
Proof.
  intros [Hn Hp Hc Hr] Hb Hk. eapply runs_rw; [by apply bmod_bind|]. apply Hk.
  set (s2 := set_bufs _ s1).
  assert (∀ c, bufx s2 c = if bool_decide (c = b) then set_b_next v (bufx s1 b) else bufx s1 c) as E.
  { intros c. unfold bufx. simpl. rewrite lookup_total_insert_dec. by repeat case_bool_decide; subst. }
  constructor.
  - intros c Hc'. unfold bnext, fupd. rewrite E. case_bool_decide; [done|]. by apply Hn.
  - intros c Hc'. unfold bprev. rewrite E. case_bool_decide; [subst; simpl|]; by apply Hp.
  - intros c. rewrite E. case_bool_decide; [subst; apply Hc|apply Hc].
  - unfold s2. simpl. rewrite Hr. done.
Qed.

Lemma relink_prev {A} n p s s1 b v (k : M bc A) P :
  relinked n p s s1 → 0 ≤ b ≤ NBUF →
  (∀ s2, relinked n (fupd p b v) s s2 → runs k s2 P) → runs (bmod b (set_b_prev v) ;;; k) s1 P.
Proof.
  intros [Hn Hp Hc Hr] Hb Hk. eapply runs_rw; [by apply bmod_bind|]. apply Hk.
  set (s2 := set_bufs _ s1).
  assert (∀ c, bufx s2 c = if bool_decide (c = b) then set_b_prev v (bufx s1 b) else bufx s1 c) as E.
  { intros c. unfold bufx. simpl. rewrite lookup_total_insert_dec. by repeat case_bool_decide; subst. }
  constructor.
  - intros c Hc'. unfold bnext. rewrite E. case_bool_decide; [subst; simpl|]; by apply Hn.
  - intros c Hc'. unfold bprev, fupd. rewrite E. case_bool_decide; [done|]. by apply Hp.
  - intros c. rewrite E. case_bool_decide; [subst; apply Hc|apply Hc].
  - unfold s2. simpl. rewrite Hr. done.
Qed.

Lemma get_next {A} n p s s1 b (k : Z → M bc A) P :
  relinked n p s s1 → 0 ≤ b ≤ NBUF → runs (k (n b)) s1 P → runs (let! x := bget b b_next in k x) s1 P.
Proof.
  intros [Hn _ _ _] Hb Hk. eapply runs_rw; [by apply bget_bind|].
  change (b_next (bufx s1 b)) with (bnext s1 b). by rewrite Hn.
Qed.

Lemma get_prev {A} n p s s1 b (k : Z → M bc A) P :
  relinked n p s s1 → 0 ≤ b ≤ NBUF → runs (k (p b)) s1 P → runs (let! x := bget b b_prev in k x) s1 P.
Proof.
  intros [_ Hp _ _] Hb Hk. eapply runs_rw; [by apply bget_bind|].
  change (b_prev (bufx s1 b)) with (bprev s1 b). by rewrite Hp.
Qed.

(** The relinking of [bufcache_release]: the buffer moves to the front. *)
Lemma release_links {A} s b L (k : M bc A) P :
  lru s L → is_buf b →
  (∀ s' L', lru s' (b :: L') → (∀ c, same_core (bufx s' c) (bufx s c)) → s' = set_bufs (bufs s') s →
     runs k s' P) →
  runs (let! n := bget b b_next in
        let! p := bget b b_prev in
        bmod n (set_b_prev p) ;;;
        let! n := bget b b_next in
        let! p := bget b b_prev in
        bmod p (set_b_next n) ;;;
        let! n := bget HEAD b_next in
        bmod b (set_b_next n) ;;;
        bmod b (set_b_prev HEAD) ;;;
        let! n := bget HEAD b_next in
        bmod n (set_b_prev b) ;;;
        bmod HEAD (set_b_next b) ;;; k) s P.
Proof.
  intros [Hnd Hall Hring] Hb Hk. pose proof (relinked_refl s) as R0.
  assert (0 ≤ b ≤ NBUF) as Hb' by (unfold is_buf in Hb; lia). assert (b ≠ HEAD) as HbH by (unfold is_buf, HEAD in *; lia).
  destruct (list_elem_of_split L b) as (l1 & l2 & ->); [by apply Hall|].
  destruct (dseg_middle _ _ _ _ _ _ _ (ri_seg _ _ _ _ Hring)) as [Ep En].
  assert (HEAD ∉ l1 ++ b :: l2) as Hno by (intros Hc%Hall; unfold HEAD in Hc; lia).
  pose proof (ring_remove HEAD _ _ l1 b l2 Hnd Hno Hring) as Hr1.
  pose proof Hnd as (Hnd1 & Hdis & [Hx Hnd2]%NoDup_cons)%NoDup_app.
  assert (∀ x, x = HEAD ∨ x ∈ l1 ++ l2 → 0 ≤ x ≤ NBUF ∧ x ≠ b) as Hrange.
  { intros x [->|Hin]; [done|]. assert (x ∈ l1 ++ b :: l2) as Hx'
      by (rewrite elem_of_app in *; rewrite elem_of_cons; tauto). apply Hall in Hx'. split; [lia|].
    intros ->. apply elem_of_app in Hin as [Hin|]; [|done]. apply (Hdis b Hin). left. }
  set (n0 := hd_or HEAD l2) in *. set (p0 := last_or HEAD l1) in *.
  assert (0 ≤ n0 ≤ NBUF ∧ n0 ≠ b) as [Hn0 Hn0b].
  { apply Hrange. destruct (hd_or_elem HEAD l2); [by left|right; apply elem_of_app; by right]. }
  assert (0 ≤ p0 ≤ NBUF ∧ p0 ≠ b) as [Hp0 Hp0b].
  { apply Hrange. destruct (last_or_elem HEAD l1); [by left|right; apply elem_of_app; by left]. }
  eapply get_next; [done|done|]. eapply get_prev; [done|done|]. rewrite Ep, En.
  eapply relink_prev; [done|done|]. intros s1 R1.
  eapply get_next; [done|done|]. eapply get_prev; [done|done|]. rewrite fupd_ne, Ep, En by done.
  eapply relink_next; [done|done|]. intros s2 R2.
  eapply get_next; [done|done|]. rewrite (ri_first _ _ _ _ Hr1). set (h := hd_or HEAD (l1 ++ l2)).
  assert (0 ≤ h ≤ NBUF ∧ h ≠ b) as [Hh Hhb] by (apply Hrange; apply hd_or_elem).
  eapply relink_next; [done|done|]. intros s3 R3.
  eapply relink_prev; [done|done|]. intros s4 R4.
  eapply get_next; [done|done|]. rewrite fupd_ne by done. rewrite (ri_first _ _ _ _ Hr1). fold h.
  eapply relink_prev; [done|done|]. intros s5 R5.
  eapply relink_next; [done|done|]. intros s6 R6. destruct R6 as [Rn Rp Rc Rr].
  assert (NoDup (l1 ++ l2)) as Hnd'.
  { apply NoDup_app. split; [done|]. split; [|done]. intros y Hy Hy2. apply (Hdis y Hy). by right. }
  assert (b ∉ l1 ++ l2) as Hbn by (intros Hc; by destruct (Hrange b (or_intror Hc))).
  apply (Hk s6 (l1 ++ l2)); [|done|done]. constructor.
  - by apply NoDup_cons.
  - intros c. rewrite <- Hall, elem_of_cons, !elem_of_app, elem_of_cons. tauto.
  - eapply ring_ext; [|apply ring_push; [done| |done|done|exact Hr1]].
    + intros x Hx'. rewrite Rn, Rp; [done|..];
        (destruct Hx' as [->|[->|Hin]%elem_of_cons]; [done|done|by apply Hrange; right]).
    + intros Hc. by destruct (Hno ltac:(rewrite elem_of_app in *; rewrite elem_of_cons; tauto)).
Qed.

Lemma release_runs s b di :
  cache_ok s → is_buf b → b_flags (bufx s b) = fl true true di → b_dev (bufx s b) = 1 →
  (di = false → b_data (bufx s b) = d_disk s !!! (1, b_sector (bufx s b))) →
  runs (bufcache_release b) s (λ _ s', cache_ok s' ∧ (∃ L, lru s' (b :: L)) ∧
    same_core (bufx s' b) (set_b_flags (fl false true di) (bufx s b)) ∧
    (∀ c, is_buf c → c ≠ b → same_core (bufx s' c) (bufx s c)) ∧
    d_disk s' = d_disk s ∧ d_writes s' = d_writes s).
Proof.
  intros Hok Hb Hf Hdv Hcl. assert (0 ≤ b ≤ NBUF) as Hb' by (unfold is_buf in Hb; lia).
  unfold bufcache_release. eapply runs_rw.
  { rewrite bget_bind by done. rewrite Hf, fl_nbusy. simpl when. rewrite bind_ret_l.
    rewrite bc_lock_bind by apply Hok. reflexivity. }
  set (s1 := set_bcache_lock _ s). destruct (co_lru s Hok) as [L HL].
  eapply (release_links s1 b L); [by eapply lru_ext; [|exact HL]|done|].
  intros s2 L' HL2 Hc2 E2. eapply runs_bind_eq; [by apply bmod_run|]. cbv beta.
  destruct (Hc2 b) as (Ef & Ed & Es & Edt). rewrite Ef.
  change (b_flags (bufx s1 b)) with (b_flags (bufx s b)). rewrite Hf, fl_clear_busy.
  eapply runs_of_eq; [by apply fzoom_Ret|]. set (s3 := set_bcache_lock _ _).
  assert (bufx s3 b = set_b_flags (fl false true di) (bufx s2 b)) as Eb
    by (unfold bufx at 1; simpl; by rewrite lookup_total_insert_eq).
  assert (∀ c, c ≠ b → bufx s3 c = bufx s2 c) as Eo
    by (intros c Hc; unfold bufx at 1; simpl; by rewrite lookup_total_insert_ne).
  assert (lru s3 (b :: L')) as HL3.
  { eapply lru_ext; [|exact HL2]. intros c _. unfold bnext, bprev.
    destruct (decide (c = b)) as [->|]; [by rewrite Eb|by rewrite Eo]. }
  assert (same_core (bufx s3 b) (set_b_flags (fl false true di) (bufx s b))) as Hcb.
  { rewrite Eb. by split_and!. }
  assert (∀ c, is_buf c → c ≠ b → same_core (bufx s3 c) (bufx s c)) as Hco
    by (intros c _ Hn; rewrite Eo by done; apply Hc2).
  assert (d_disk s3 = d_disk s ∧ d_writes s3 = d_writes s) as [Ed3 Ew3] by (unfold s3; simpl; rewrite E2; done).
  split; [|split; [by exists L'|done]].
  pose proof Hok as [Hi _ _ H4 H5 H6 H7 H8]. constructor; [|done|by eexists|..].
  - unfold s3. rewrite E2. by destruct Hi.
  - intros c Hc. destruct (decide (c = b)) as [->|]; [destruct Hcb as (-> & _); simpl; eauto|].
    destruct (Hco c Hc) as (-> & _); [done|]. auto.
  - intros c Hc. destruct (decide (c = b)) as [->|].
    + destruct Hcb as (-> & -> & -> & _). right. simpl. split; [done|]. by apply sector_range.
    + destruct (Hco c Hc) as (-> & -> & -> & _); [done|]. auto.
  - intros c c' Hc Hc'. specialize (H6 c c' Hc Hc').
    assert (∀ x, is_buf x → b_dev (bufx s3 x) = b_dev (bufx s x) ∧
      b_sector (bufx s3 x) = b_sector (bufx s x)) as Hds.
    { intros x Hx. destruct (decide (x = b)) as [->|]; [by destruct Hcb as (_ & -> & -> & _)|].
      by destruct (Hco x Hx) as (_ & -> & -> & _). }
    destruct (Hds c Hc) as [-> ->], (Hds c' Hc') as [-> ->]. done.
  - intros c va di' Hc. destruct (decide (c = b)) as [->|].
    + destruct Hcb as (-> & _ & _). simpl. intros _ E. by apply fl_inj in E as (_ & <- & _).
    + destruct (Hco c Hc) as (-> & -> & _); [done|]. by apply H7.
  - intros c Hc. rewrite Ed3. destruct (decide (c = b)) as [->|].
    + destruct Hcb as (-> & -> & -> & ->). simpl. intros _ E. apply fl_inj in E as (_ & _ & ->). auto.
    + destruct (Hco c Hc) as (-> & -> & -> & ->); [done|]. by apply H8.
Qed.

(** ** Initialisation *)

(** The buffers after [bufcache_init], from memory that is all zero. *)
Definition init_buf (n p : Z) : buf := {| b_flags := 0; b_dev := -1; b_sector := 0; b_prev := p;
  b_next := n; b_qnext := NULL; b_data := ∅ |}.
Definition init_order : list Z := [9; 8; 7; 6; 5; 4; 3; 2; 1; 0].

Lemma bufcache_init_runs s :
  bufs s = ∅ → runs bufcache_init s (λ _ s',
    lru s' init_order ∧ (∀ b, is_buf b → b_flags (bufx s' b) = 0 ∧ b_dev (bufx s' b) = -1) ∧
    s' = set_bufs (bufs s') (set_bcache_lock Spinlock.free_lk s)).
Proof.
  intros E. destruct s as [d w r f il fl q h bl bf]. simpl in E. subst bf.
  eapply runs_of_eq; [vm_compute; reflexivity|]. split; [|split; [|reflexivity]].
  - constructor; [| |].
    + apply (bool_decide_unpack _). vm_compute. exact I.
    + intros b. unfold init_order, NBUF. rewrite !elem_of_cons, elem_of_nil. lia.
    + split; [reflexivity|reflexivity|]. repeat split.
  - intros b Hb. unfold is_buf, NBUF in Hb.
    assert (b ∈ seqZ 0 10) as Hin by (apply elem_of_seqZ; lia). revert b Hin Hb.
    match goal with |- ∀ b, _ → _ → @?P b => cut (Forall P (seqZ 0 10)) end.
    + intros Hf b Hin _. by apply (proj1 (Forall_forall _ _) Hf).
    + repeat constructor.
Qed.

(** The state of devinit: the drives, and memory that is all zero. *)
Definition disk_boot (s : bc) : Prop := d_fail s = false ∧ bufs s = ∅ ∧ idequeue s = NULL.

Lemma ide_init_runs s :
  d_fail s = false → idequeue s = NULL →
  runs ide_init s (λ _ s', idle s' ∧ d_disk s' = d_disk s ∧ d_writes s' = d_writes s ∧
    bufs s' = bufs s ∧ bcache_lock s' = bcache_lock s).
Proof.
  intros Hf Hq. destruct s as [d w r f il fl q h bl bf]. simpl in Hf, Hq. subst f q.
  unfold ide_init. eapply runs_of_eq; [reflexivity|]. split; [by constructor|done].
Qed.

Lemma cache_init_runs s :
  disk_boot s → runs (bufcache_init ;;; ide_init) s (λ _ s',
    cache_ok s' ∧ d_disk s' = d_disk s ∧ d_writes s' = d_writes s ∧
    ∀ b, is_buf b → b_flags (bufx s' b) = 0 ∧ b_dev (bufx s' b) = -1).
Proof.
  intros (Hf & Hb & Hq). eapply runs_bind_mono; [by apply bufcache_init_runs|].
  intros [] s1 (HL & Hz & E1).
  eapply runs_mono; [apply ide_init_runs; rewrite E1; done|].
  intros [] s2 (Hi & Ed & Ew & Eb & El). rewrite Ed, Ew, E1. split; [|split; [done|split; [done|]]].
  2: { intros b Hbb. unfold bufx. rewrite Eb. by apply Hz. }
  assert (∀ b, bufx s2 b = bufx s1 b) as Ex by (intros b; unfold bufx; by rewrite Eb).
  constructor; [done|by rewrite El, E1|..].
  - exists init_order. eapply lru_ext; [|exact HL]. intros b _. unfold bnext, bprev. by rewrite Ex.
  - intros b Hbb. rewrite Ex. destruct (Hz b Hbb) as [-> _]. by exists false, false, false.
  - intros b Hbb. rewrite Ex. destruct (Hz b Hbb) as [-> ->]. by left.
  - intros b c Hbb _. rewrite !Ex. destruct (Hz b Hbb) as [_ ->]. done.
  - intros b va di Hbb. rewrite Ex. destruct (Hz b Hbb) as [_ ->]. done.
  - intros b Hbb. rewrite Ex. destruct (Hz b Hbb) as [_ ->]. done.
Qed.

End driver.
