(* ===== verification/Log.v ===== *)
(** * The log

    kern/fs/log.c: transactions.  The blocks that a transaction changes are first
    written to the log area of the disk; the write of the header commits them, then
    they are installed at their homes and the header is cleared.  The super block
    (kern/fs/block.c) says where the log is. *)

From S2P Require Import Prelude Spinlock Mem DList Bufcache.

Definition LOGSIZE : Z := 10.

(** kern/fs/dinode.h *)
Record superblock := { sb_size : Z; sb_nblocks : Z; sb_ninodes : Z; sb_nlog : Z }.

Record lg := {
  l_bc : bc;
  log_lock : spinlock_t;
  log_start : Z;
  log_size : Z;
  log_busy : Z;
  log_dev : Z;
  lh_n : Z;
  lh_sector : gmap Z Z;
}.

Definition set_l_bc (v : bc) (s : lg) : lg := {| l_bc := v; log_lock := log_lock s;
  log_start := log_start s; log_size := log_size s; log_busy := log_busy s; log_dev := log_dev s;
  lh_n := lh_n s; lh_sector := lh_sector s |}.
Definition set_log_lock (v : spinlock_t) (s : lg) : lg := {| l_bc := l_bc s; log_lock := v;
  log_start := log_start s; log_size := log_size s; log_busy := log_busy s; log_dev := log_dev s;
  lh_n := lh_n s; lh_sector := lh_sector s |}.
Definition set_log_start (v : Z) (s : lg) : lg := {| l_bc := l_bc s; log_lock := log_lock s;
  log_start := v; log_size := log_size s; log_busy := log_busy s; log_dev := log_dev s;
  lh_n := lh_n s; lh_sector := lh_sector s |}.
Definition set_log_size (v : Z) (s : lg) : lg := {| l_bc := l_bc s; log_lock := log_lock s;
  log_start := log_start s; log_size := v; log_busy := log_busy s; log_dev := log_dev s;
  lh_n := lh_n s; lh_sector := lh_sector s |}.
Definition set_log_busy (v : Z) (s : lg) : lg := {| l_bc := l_bc s; log_lock := log_lock s;
  log_start := log_start s; log_size := log_size s; log_busy := v; log_dev := log_dev s;
  lh_n := lh_n s; lh_sector := lh_sector s |}.
Definition set_log_dev (v : Z) (s : lg) : lg := {| l_bc := l_bc s; log_lock := log_lock s;
  log_start := log_start s; log_size := log_size s; log_busy := log_busy s; log_dev := v;
  lh_n := lh_n s; lh_sector := lh_sector s |}.
Definition set_lh_n (v : Z) (s : lg) : lg := {| l_bc := l_bc s; log_lock := log_lock s;
  log_start := log_start s; log_size := log_size s; log_busy := log_busy s; log_dev := log_dev s;
  lh_n := v; lh_sector := lh_sector s |}.
Definition set_lh_sector (v : gmap Z Z) (s : lg) : lg := {| l_bc := l_bc s; log_lock := log_lock s;
  log_start := log_start s; log_size := log_size s; log_busy := log_busy s; log_dev := log_dev s;
  lh_n := lh_n s; lh_sector := v |}.

#[global] Program Instance lg_bc_lens : Lens lg bc := {| lget := l_bc; lset := set_l_bc |}.
Next Obligation. done. Qed.
Next Obligation. by intros []. Qed.
Next Obligation. done. Qed.

Section ops.
Context `{KEnv}.

(** ** block.c: the super block *)

Definition read_superblock (dev : Z) : M bc superblock :=
  let! bp := bufcache_read dev 1 in
  let! d := bget bp b_data in
  bufcache_release bp ;;;
  ret {| sb_size := load32 d 0; sb_nblocks := load32 d 4; sb_ninodes := load32 d 8;
         sb_nlog := load32 d 12 |}.

(** ** log.c *)

(** [int] values of the header, in memory and in its block. *)
Definition hdr_n (d : memory) : Z := s32 (load32 d 0).
Definition hdr_sector (d : memory) (i : Z) : Z := s32 (load32 d (4 + 4 * i)).

Definition install_trans : M lg unit :=
  let! n := gets lh_n in
  for_ 0 n (λ tail,
    let! dev := gets log_dev in
    let! start := gets log_start in
    let! lbuf := zoom (bufcache_read (u32 dev) (u32 (start + tail + 1))) in
    let! sec := aread LOGSIZE lh_sector tail in
    let! dbuf := zoom (bufcache_read (u32 dev) (u32 sec)) in
    let! data := zoom (bget lbuf b_data) in
    zoom (bmod dbuf (set_b_data data)) ;;;
    zoom (bufcache_write dbuf) ;;;
    zoom (bufcache_release lbuf) ;;;
    zoom (bufcache_release dbuf)).

Definition read_head : M lg unit :=
  let! dev := gets log_dev in
  let! start := gets log_start in
  let! b := zoom (bufcache_read (u32 dev) (u32 start)) in
  let! d := zoom (bget b b_data) in
  modify (set_lh_n (hdr_n d)) ;;;
  let! n := gets lh_n in
  for_ 0 n (λ i, awrite LOGSIZE lh_sector set_lh_sector i (hdr_sector d i)) ;;;
  zoom (bufcache_release b).

Definition write_head : M lg unit :=
  let! dev := gets log_dev in
  let! start := gets log_start in
  let! b := zoom (bufcache_read (u32 dev) (u32 start)) in
  let! n := gets lh_n in
  zoom (bmod b (λ x, set_b_data (store32 0 (u32 n) (b_data x)) x)) ;;;
  for_ 0 n (λ i,
    let! sec := aread LOGSIZE lh_sector i in
    zoom (bmod b (λ x, set_b_data (store32 (4 + 4 * i) (u32 sec) (b_data x)) x))) ;;;
  zoom (bufcache_write b) ;;;
  zoom (bufcache_release b).

Definition recover_from_log : M lg unit :=
  read_head ;;;
  install_trans ;;;
  modify (set_lh_n 0) ;;;
  write_head.

(** The size check of the header, 44 bytes, is decided at compile time. *)
Definition log_init : M lg unit :=
  fzoom log_lock set_log_lock Spinlock.spinlock_init ;;;
  let! sb := zoom (read_superblock ROOTDEV) in
  modify (set_log_start (s32 (sb_size sb - sb_nlog sb))) ;;;
  modify (set_log_size (s32 (sb_nlog sb))) ;;;
  modify (set_log_dev ROOTDEV) ;;;
  recover_from_log.

Definition log_acquire : M lg unit := fzoom log_lock set_log_lock Spinlock.spinlock_acquire.
Definition log_release : M lg unit := fzoom log_lock set_log_lock Spinlock.spinlock_release.

(** A transaction of another thread is waited for. *)
Definition begin_trans : M lg unit :=
  log_acquire ;;;
  let! busy := gets log_busy in
  if nz busy then hang
  else
    modify (set_log_busy 1) ;;;
    log_release.

Definition commit_trans : M lg unit :=
  let! n := gets lh_n in
  when (n >? 0)
    (write_head ;;;
     install_trans ;;;
     modify (set_lh_n 0) ;;;
     write_head) ;;;
  log_acquire ;;;
  modify (set_log_busy 0) ;;;
  log_release.                                    (* thread_wakeup(&log) *)

(** The index of the sector in the header, or [n]. *)
Fixpoint absorb (fuel : nat) (i sec : Z) : M lg Z :=
  match fuel with
  | O => hang
  | S f =>
    let! n := gets lh_n in
    if i <? n then
      let! x := aread LOGSIZE lh_sector i in
      if u32 x =? sec then ret i else absorb f (i + 1) sec
    else ret i
  end.

Definition log_write (b : Z) : M lg unit :=
  let! n := gets lh_n in
  let! size := gets log_size in
  when ((n >=? LOGSIZE) || (n >=? size - 1)) KERN_PANIC ;;;
  let! busy := gets log_busy in
  when (negb (nz busy)) KERN_PANIC ;;;
  let! sec := zoom (bget b b_sector) in
  let! i := absorb (Z.to_nat LOGSIZE + 1) 0 sec in
  awrite LOGSIZE lh_sector set_lh_sector i (s32 sec) ;;;
  let! dev := zoom (bget b b_dev) in
  let! start := gets log_start in
  let! lbuf := zoom (bufcache_read (u32 dev) (u32 (start + i + 1))) in
  let! data := zoom (bget b b_data) in
  zoom (bmod lbuf (set_b_data data)) ;;;
  zoom (bufcache_write lbuf) ;;;
  zoom (bufcache_release lbuf) ;;;
  let! n := gets lh_n in
  when (i =? n) (modify (set_lh_n (n + 1))) ;;;
  zoom (bmod b (λ x, set_b_flags (Z.lor (b_flags x) B_DIRTY) x)).

End ops.
