(* ===== verification/LogSpec.v ===== *)
(** * Transactions, verified

    The cache under the log: which buffers are pinned by a transaction.  On this, the
    writes of a commit and of the recovery, and that a crash at any point leaves all of
    the transaction or nothing of it. *)

From S2P Require Import Prelude Spinlock Mem DList Bufcache BufSpec Log.

Section cache.
Context `{KEnv}.
Hypothesis Hmagic : ks_magic = KSTACK_MAGIC.

(** The buffers that cannot be reused are those in [K], held by the caller, and one for
    every block of the transaction [T], which is dirty and has the block's content. *)
Record pins (s : bc) (T : gmap Z memory) (K : list Z) : Prop := {
  pi_ok : cache_ok s;
  pi_only : ∀ b, is_buf b → b ∉ K → evictable s b = false →
    b_flags (bufx s b) = fl false true true ∧ b_dev (bufx s b) = 1 ∧
    T !! b_sector (bufx s b) = Some (b_data (bufx s b));
  pi_all : ∀ sec d, T !! sec = Some d → ∃ b, (b ∉ K) ∧ holds s b sec ∧
    b_flags (bufx s b) = fl false true true ∧ b_data (bufx s b) = d;
}.

#[local] Instance holds_dec s b sec : Decision (holds s b sec).
Proof. unfold holds, is_buf. apply _. Defined.

(** The sector is not in a buffer that is held or dirty. *)
Definition clean (s : bc) (sec : Z) : Prop :=
  ∀ b, holds s b sec → b_flags (bufx s b) = fl false true false.

Lemma pins_clean s T K sec :
  pins s T K → T !! sec = None → (∀ b, b ∈ K → b_sector (bufx s b) ≠ sec) → clean s sec.
Proof.
  intros [Hok Ho _] HT HH b (Hb & Hd & Hs).
  destruct (decide (b ∈ K)) as [Hin|Hin]; [by destruct (HH b Hin)|].
  destruct (evictable s b) eqn:E.
  - destruct (co_flags s Hok b Hb) as (bu & va & di & Ef). rewrite (evictable_fl s b bu va di Ef) in E.
    apply andb_true_iff in E as [->%negb_true_iff ->%negb_true_iff]. rewrite Ef.
    by rewrite (co_valid s Hok b va false Hb Hd Ef).
  - destruct (Ho b Hb Hin E) as (_ & _ & HT'). congruence.
Qed.

(** There are buffers to reuse. *)
Definition room (s : bc) : Prop := ∃ c, is_buf c ∧ evictable s c = true.

Lemma pins_room s T K :
  pins s T K → Z.of_nat (size T + length K) < NBUF → room s.
Proof.
  intros [Hok Ho _] Hlt.
  destruct (decide (Exists (λ b, evictable s b = true) (seqZ 0 NBUF))) as [He|He].
  { apply Exists_exists in He as (c & Hc%elem_of_seqZ & E). exists c. by split. }
  exfalso. assert (∀ b, is_buf b → evictable s b = false) as Hall.
  { intros b Hb. apply not_true_iff_false. intros E. apply He, Exists_exists. exists b.
    split; [by apply elem_of_seqZ|done]. }
  set (P := filter (λ b, b ∉ K) (seqZ 0 NBUF)).
  assert (NoDup P) as HP by (apply NoDup_filter, NoDup_seqZ).
  assert (NoDup ((λ b, b_sector (bufx s b)) <$> P)) as Hn.
  { apply NoDup_fmap_2_strong; [|done]. intros x y [Hx Hx'%elem_of_seqZ]%list_elem_of_filter
      [Hy Hy'%elem_of_seqZ]%list_elem_of_filter E.
    destruct (Ho x Hx' Hx (Hall x Hx')) as (_ & Dx & _), (Ho y Hy' Hy (Hall y Hy')) as (_ & Dy & _).
    by apply (co_uniq s Hok). }
  assert (((λ b, b_sector (bufx s b)) <$> P) ⊆+ (map_to_list T).*1) as Hsub.
  { apply NoDup_submseteq; [done|]. intros x (b & -> & [Hb Hb'%elem_of_seqZ]%list_elem_of_filter)%list_elem_of_fmap.
    destruct (Ho b Hb' Hb (Hall b Hb')) as (_ & _ & E). apply list_elem_of_fmap.
    exists (b_sector (bufx s b), b_data (bufx s b)). split; [done|]. by apply elem_of_map_to_list. }
  apply submseteq_length in Hsub. rewrite !length_fmap, length_map_to_list in Hsub.
  assert (seqZ 0 NBUF ⊆+ P ++ K) as Hcov.
  { apply NoDup_submseteq; [apply NoDup_seqZ|]. intros x Hx. apply elem_of_app.
    destruct (decide (x ∈ K)); [by right|left]. by apply list_elem_of_filter. }
  apply submseteq_length in Hcov. rewrite length_app, length_seqZ in Hcov. lia.
Qed.

(** ** Reading a clean block *)

Lemma read_clean s sec :
  cache_ok s → 0 ≤ sec < 2 ^ 28 → clean s sec → room s →
  runs (bufcache_read 1 sec) s (λ b s', evictable s b = true ∧
    got sec b false (d_disk s !!! (1, sec)) s s').
Proof.
  intros Hok Hr Hcl Hroom.
  destruct (decide (Exists (λ b, holds s b sec) (seqZ 0 NBUF))) as [He|He].
  - apply Exists_exists in He as (b & _ & Hh). pose proof (Hcl b Hh) as Hf. pose proof Hh as (Hb & Hd & Hs).
    eapply runs_mono; [by apply read_hit|]. intros r s' [-> Hg].
    split; [by rewrite (evictable_fl s b false true false Hf)|].
    rewrite <- Hs at 2. rewrite <- (co_clean s Hok b Hb Hd Hf). done.
  - apply read_miss; try done. intros b Hh. apply He, Exists_exists. exists b. split; [|done].
    apply elem_of_seqZ. apply Hh.
Qed.

(** ** Updating a block *)

(** The block [sec] is [d] now, on the disk; pinned buffers are as before. *)
Record wrote (sec : Z) (d : memory) (s s' : bc) : Prop := {
  wr_ok : cache_ok s';
  wr_disk : d_disk s' = <[(1, sec) := d]> (d_disk s);
  wr_writes : d_writes s' = d_writes s ++ [(1, sec, d)];
  wr_pinned : ∀ c, is_buf c → evictable s c = false → same_core (bufx s' c) (bufx s c);
  wr_evict : ∀ c, is_buf c → evictable s c = true → evictable s' c = true;
}.

Lemma evictable_core s s' c : same_core (bufx s' c) (bufx s c) → evictable s' c = evictable s c.
Proof. intros (E & _). unfold evictable. by rewrite E. Qed.

Lemma holds_core s s' c sec :
  same_core (bufx s' c) (bufx s c) → holds s c sec → holds s' c sec.
Proof. intros (_ & E1 & E2 & _) (Hb & Hd & Hs). split; [done|]. split; congruence. Qed.

(** Pinned buffers stay, the others may be reused. *)
Record kept (s s' : bc) : Prop := {
  kp_ok : cache_ok s';
  kp_pinned : ∀ c, is_buf c → evictable s c = false → same_core (bufx s' c) (bufx s c);
  kp_evict : ∀ c, is_buf c → evictable s c = true → evictable s' c = true;
}.

Lemma wrote_kept sec d s s' : wrote sec d s s' → kept s s'.
Proof. by intros []. Qed.

Lemma pins_kept s s' T K : pins s T K → kept s s' → pins s' T K.
Proof.
  intros [Hok Ho Ha] [Hok' Hp He]. constructor; [done|..].
  - intros b Hb HK E. assert (evictable s b = false) as E'.
    { apply not_true_iff_false. intros Et. rewrite (He b Hb Et) in E. done. }
    destruct (Hp b Hb E') as (-> & -> & -> & ->). by apply Ho.
  - intros sec' d' HT. destruct (Ha sec' d' HT) as (b & HK & Hh & Hf & Hd). pose proof Hh as (Hb & _).
    assert (same_core (bufx s' b) (bufx s b)) as Hc
      by (apply Hp; [done|]; by rewrite (evictable_fl s b _ _ _ Hf)).
    exists b. split; [done|]. split; [by apply (holds_core s)|]. destruct Hc as (-> & _ & _ & ->). done.
Qed.

Lemma pins_wrote sec d s s' T K : pins s T K → wrote sec d s s' → pins s' T K.
Proof. intros Hp Hw. eapply pins_kept; [done|by eapply wrote_kept]. Qed.

(** The caller changes the data of a buffer it holds. *)
Definition with_data (b : Z) (d : memory) (s : bc) : bc :=
  set_bufs (<[b := set_b_data d (bufx s b)]> (bufs s)) s.

Lemma with_data_at b d s : bufx (with_data b d s) b = set_b_data d (bufx s b).
Proof. unfold bufx at 1. simpl. by rewrite lookup_total_insert_eq. Qed.
Lemma with_data_ne b d s c : c ≠ b → bufx (with_data b d s) c = bufx s c.
Proof. intros Hn. unfold bufx at 1. simpl. by rewrite lookup_total_insert_ne. Qed.

Lemma with_data_ok b d s va di :
  cache_ok s → is_buf b → b_flags (bufx s b) = fl true va di → b_dev (bufx s b) = 1 →
  cache_ok (with_data b d s).
Proof.
  intros Hok Hb Hf Hd.
  apply (take_ok s _ b (b_sector (bufx s b)) va di); unfold bnext, bprev; rewrite ?with_data_at; try done.
  - by destruct (co_idle s Hok).
  - by destruct Hok.
  - intros c Hn. by apply with_data_ne.
  - by apply sector_range.
  - intros c (Hc & Dc & Sc). by apply (co_uniq s Hok).
Qed.

(** Write and release, after a clean block was read and changed. *)
Lemma finish_runs s s2 b sec d0 d s1 :
  evictable s b = true → got sec b false d0 s s1 → s2 = with_data b d s1 →
  runs (bufcache_write b ;;; bufcache_release b) s2 (λ _ s', wrote sec d s s').
Proof.
  intros He [Hok Hb Hf Hd Hs Hdt Ho Hdk Hw] ->. set (s2 := with_data b d s1).
  assert (cache_ok s2) as Hok2 by (by eapply with_data_ok).
  assert (bufx s2 b = set_b_data d (bufx s1 b)) as E2 by apply with_data_at.
  eapply runs_bind_mono; [apply (write_runs Hmagic s2 b true false); rewrite ?E2; done|].
  rewrite E2. intros [] s3 (Hok3 & F3 & D3 & S3 & T3 & O3 & K3 & W3). simpl in S3, T3, K3, W3.
  eapply runs_mono.
  { apply (release_runs Hmagic s3 b false); try done. intros _. rewrite T3, S3, K3.
    by rewrite lookup_total_insert_eq. }
  intros [] s4 (Hok4 & _ & C4 & O4 & K4 & W4).
  assert (∀ c, is_buf c → c ≠ b → same_core (bufx s4 c) (bufx s c)) as Hsame.
  { intros c Hc Hn. rewrite (O4 c Hc Hn), (O3 c Hc Hn). unfold s2. rewrite with_data_ne by done. auto. }
  constructor; [done|..].
  - rewrite K4, K3, Hs. f_equal. unfold s2. done.
  - rewrite W4, W3, Hs. unfold s2. simpl. by rewrite Hw.
  - intros c Hc E. apply Hsame; [done|]. intros ->. congruence.
  - intros c Hc E. destruct (decide (c = b)) as [->|Hn].
    + destruct C4 as (C4 & _). rewrite (evictable_fl s4 b false true false); done.
    + rewrite (evictable_core s s4); [done|]. by apply Hsame.
Qed.

End cache.

(** ** The header *)

Fixpoint put_secs (i : Z) (secs : list Z) (d : memory) : memory :=
  match secs with
  | [] => d
  | x :: r => put_secs (i + 1) r (store32 (4 + 4 * i) (u32 x) d)
  end.

(** The header block for a list of sectors, over the old contents [d]. *)
Definition head_data (secs : list Z) (d : memory) : memory :=
  put_secs 0 secs (store32 0 (u32 (Z.of_nat (length secs))) d).

Lemma put_secs_snoc i l x d :
  put_secs i (l ++ [x]) d = store32 (4 + 4 * (i + Z.of_nat (length l))) (u32 x) (put_secs i l d).
Proof.
  revert i d. induction l as [|y l IH]; intros i d; simpl; [by rewrite Z.add_0_r|].
  rewrite IH. f_equal. lia.
Qed.

(** What is read back. *)
Lemma put_secs_other i l d a :
  0 ≤ i → 4 + 4 * (i + Z.of_nat (length l)) ≤ W32 → 0 ≤ a → a + 4 ≤ 4 + 4 * i →
  load32 (put_secs i l d) a = load32 d a.
Proof.
  revert i d. induction l as [|y l IH]; intros i d Hi Hl Ha Hai; simpl; [done|]. simpl in Hl.
  rewrite IH by lia. by rewrite load32_store32_ne by lia.
Qed.

Lemma put_secs_at i l d j x :
  0 ≤ i → 4 + 4 * (i + Z.of_nat (length l)) ≤ W32 → l !! j = Some x →
  load32 (put_secs i l d) (4 + 4 * (i + Z.of_nat j)) = u32 x.
Proof.
  revert i j d. induction l as [|y l IH]; intros i j d Hi Hl Hj; [done|]. simpl in Hl |- *.
  destruct j as [|j].
  - injection Hj as ->. rewrite put_secs_other by lia. rewrite Z.add_0_r.
    apply load32_store32_eq; [lia|lia|auto with kern].
  - replace (i + Z.of_nat (S j)) with (i + 1 + Z.of_nat j) by lia. apply IH; [lia|lia|done].
Qed.

Lemma head_data_n secs d : Z.of_nat (length secs) ≤ LOGSIZE → hdr_n (head_data secs d) = Z.of_nat (length secs).
Proof.
  intros Hl. unfold hdr_n, head_data. unfold LOGSIZE in Hl.
  rewrite put_secs_other by (unfold W32; lia).
  rewrite load32_store32_eq by (auto with kern; unfold W32; lia).
  rewrite u32_small by (unfold W32; lia). apply s32_small. unfold is_s32. lia.
Qed.

Lemma head_data_sector secs d i x :
  Z.of_nat (length secs) ≤ LOGSIZE → secs !! i = Some x → 0 ≤ x < 2 ^ 28 →
  hdr_sector (head_data secs d) (Z.of_nat i) = x.
Proof.
  intros Hl Hi Hx. unfold hdr_sector, head_data. unfold LOGSIZE in Hl. change (2 ^ 28) with 268435456 in Hx.
  replace (4 + 4 * Z.of_nat i) with (4 + 4 * (0 + Z.of_nat i)) by lia.
  rewrite (put_secs_at 0 secs _ i x) by (try done; unfold W32; lia).
  rewrite u32_small by (unfold W32; lia). apply s32_small. unfold is_s32. lia.
Qed.

(** The header in memory lists [secs]. *)
Record hdr_is (s : lg) (secs : list Z) : Prop := {
  hi_n : lh_n s = Z.of_nat (length secs);
  hi_len : Z.of_nat (length secs) ≤ LOGSIZE;
  hi_sec : ∀ i x, secs !! i = Some x → lh_sector s !!! Z.of_nat i = x;
}.

(** The log of the root device, with its area in the range of the drive. *)
Record log_at (s : lg) (st : Z) : Prop := {
  la_dev : log_dev s = 1;
  la_start : log_start s = st;
  la_range : 1 < st ∧ st + LOGSIZE + 1 < 2 ^ 28;
}.

Section head.
Context `{KEnv}.
Hypothesis Hmagic : ks_magic = KSTACK_MAGIC.

Lemma with_data_twice b d d' s : with_data b d (with_data b d' s) = with_data b d s.
Proof.
  unfold with_data. rewrite (with_data_at b d' s : bufx (set_bufs _ s) b = _). simpl.
  by rewrite insert_insert_eq.
Qed.

Lemma zoom_bmod_data b g s :
  is_buf b → zoom (bmod b (λ x, set_b_data (g (b_data x)) x)) s =
  Ret (tt, set_l_bc (with_data b (g (b_data (bufx (l_bc s) b))) (l_bc s)) s).
Proof.
  intros Hb. erewrite zoom_Ret; [done|]. apply bmod_run. unfold is_buf in Hb. lia.
Qed.

Lemma u32_sector x : 0 ≤ x < 2 ^ 28 → u32 x = x.
Proof. change (2 ^ 28) with 268435456. intros. apply u32_small. unfold W32. lia. Qed.

Lemma write_head_runs s st secs :
  log_at s st → hdr_is s secs → cache_ok (l_bc s) → clean (l_bc s) st → room (l_bc s) →
  runs write_head s (λ _ s', ∃ c, s' = set_l_bc c s ∧
    wrote st (head_data secs (d_disk (l_bc s) !!! (1, st))) (l_bc s) c).
Proof.
  intros [Hdv Hst Hr] [Hn Hlen Hsec] Hok Hcl Hroom. unfold write_head, LOGSIZE in *.
  eapply runs_bind_eq; [reflexivity|]. eapply runs_bind_eq; [reflexivity|].
  rewrite Hdv, Hst. change (u32 1) with 1. rewrite (u32_sector st) by lia.
  eapply runs_bind_mono.
  { apply (runs_zoom _ _ (λ b t, ∃ c, t = set_l_bc c s ∧ evictable (l_bc s) b = true ∧
      got st b false (d_disk (l_bc s) !!! (1, st)) (l_bc s) c)).
    eapply runs_mono; [apply (read_clean Hmagic); [done|lia|done|done]|]. intros b c [? ?]. by exists c. }
  intros b t (c & -> & Hev & Hg). pose proof (g_buf _ _ _ _ _ _ Hg) as Hb.
  set (d0 := d_disk (l_bc s) !!! (1, st)) in *.
  eapply runs_bind_eq; [reflexivity|]. change (lh_n (set_l_bc c s)) with (lh_n s). rewrite Hn.
  eapply runs_bind_eq; [by apply (zoom_bmod_data b (store32 0 (u32 (Z.of_nat (length secs)))))|].
  change (l_bc (set_l_bc c s)) with c. rewrite (g_data _ _ _ _ _ _ Hg).
  set (d1 := store32 0 _ d0).
  eapply runs_bind_mono.
  { apply (for_runs (λ i t, t = set_l_bc (with_data b (put_secs 0 (take (Z.to_nat i) secs) d1) c) s));
      [lia|done|].
    intros i t Hi ->. change (lh_sector (set_l_bc _ s)) with (lh_sector s).
    eapply runs_bind_eq; [apply aread_in; lia|].
    eapply runs_of_eq; [by apply (zoom_bmod_data b (store32 (4 + 4 * i) _))|].
    change (l_bc (set_l_bc ?x s)) with x. rewrite with_data_twice, with_data_at. simpl b_data.
    destruct (lookup_lt_is_Some_2 secs (Z.to_nat i)) as [x Hx]; [lia|].
    assert (lh_sector s !!! i = x) as Ex by (rewrite <- (Hsec _ _ Hx); f_equal; lia).
    change (lh_sector (set_l_bc _ s) !!! i) with (lh_sector s !!! i). rewrite Ex.
    replace (Z.to_nat (i + 1)) with (S (Z.to_nat i)) by lia.
    rewrite (take_S_r _ _ _ Hx), put_secs_snoc, length_take_le by lia.
    by replace (0 + Z.of_nat (Z.to_nat i)) with i by lia. }
  intros [] t ->. rewrite Nat2Z.id, firstn_all.
  eapply runs_rw; [symmetry; apply zoom_seq|]. apply runs_zoom.
  eapply runs_mono; [by apply (finish_runs Hmagic (l_bc s) _ b st d0 (head_data secs d0) c)|].
  intros [] c' Hw. by exists c'.
Qed.

(** ** Installing *)

(** Block [x] has been installed: its buffer, if it was dirty, is clean now. *)
Record installed (x : Z) (d : memory) (s s' : bc) : Prop := {
  in_ok : cache_ok s';
  in_disk : d_disk s' = <[(1, x) := d]> (d_disk s);
  in_writes : d_writes s' = d_writes s ++ [(1, x, d)];
  in_pinned : ∀ c, is_buf c → evictable s c = false → ¬ holds s c x → same_core (bufx s' c) (bufx s c);
  in_evict : ∀ c, is_buf c → evictable s c = true ∨ holds s c x → evictable s' c = true;
}.

Lemma pins_installed x d s s' T : pins s T [] → installed x d s s' → pins s' (delete x T) [].
Proof.
  intros [Hok Ho Ha] [Hok' _ _ Hp He]. constructor; [done|..].
  - intros b Hb HK E. assert (evictable s b = false ∧ ¬ holds s b x) as [E' Hnx].
    { split; [apply not_true_iff_false|]; intros Et; rewrite (He b Hb ltac:(tauto)) in E; done. }
    destruct (Hp b Hb E' Hnx) as (-> & -> & -> & ->). destruct (Ho b Hb HK E') as (F & D & HT).
    split; [done|]. split; [done|]. rewrite lookup_delete_ne; [done|]. intros ->. by apply Hnx.
  - intros sec' d' [Hne HT]%lookup_delete_Some. destruct (Ha sec' d' HT) as (b & HK & Hh & Hf & Hd).
    pose proof Hh as (Hb & Hdv & Hs).
    assert (same_core (bufx s' b) (bufx s b)) as Hc.
    { apply Hp; [done|by rewrite (evictable_fl s b _ _ _ Hf)|]. intros (_ & _ & Hs'). congruence. }
    exists b. split; [done|]. split; [by apply (holds_core s)|]. destruct Hc as (-> & _ & _ & ->). done.
Qed.

(** Reading the home of a logged block: it is pinned by the transaction, or clean. *)
Lemma read_home s T x :
  pins s T [] → 0 ≤ x < 2 ^ 28 → ∀ l sl dl s1,
  evictable s l = true → got sl l false dl s s1 → sl ≠ x →
  (is_Some (T !! x) ∨ Z.of_nat (size T) + 1 < NBUF) →
  runs (bufcache_read 1 x) s1 (λ b s2, ∃ di d, got x b di d s1 s2 ∧ b ≠ l ∧
    (evictable s b = true ∨ holds s b x) ∧ ∀ c, holds s c x → c = b ∨ c = l).
Proof.
  intros Hp Hx l sl dl s1 He Hg Hne Hroom. pose proof Hp as [Hok Ho Ha].
  pose proof Hg as [Hok1 Hl F1 D1 S1 _ O1 _ _].
  assert (∀ b, is_buf b → b ≠ l → holds s b x ↔ holds s1 b x) as Hhs.
  { intros b Hb Hn. destruct (O1 b Hb Hn) as (_ & E1 & E2 & _). unfold holds. by rewrite E1, E2. }
  assert (∀ b, holds s1 b x → b ≠ l) as Hnl by (intros b (_ & _ & Hs) ->; congruence).
  destruct (T !! x) as [d|] eqn:HT.
  - destruct (Ha x d HT) as (b & _ & Hh & Hf & Hd). pose proof Hh as (Hb & Hdv & Hs).
    assert (b ≠ l) as Hn by (intros ->; by rewrite (evictable_fl s l _ _ _ Hf) in He).
    destruct (O1 b Hb Hn) as (Ef & _).
    eapply runs_mono; [apply (read_hit Hmagic s1 b x true); [done|by apply Hhs|by rewrite Ef]|].
    intros r s2 [-> Hg2]. eexists _, _. split; [exact Hg2|]. split; [done|]. split; [by right|].
    intros c (Hc & Dc & Sc). left. apply (co_uniq s Hok); congruence.
  - destruct Hroom as [[? ?]|Hroom]; [done|].
    assert (clean s x) as Hcl by (apply (pins_clean s T []); [done|done|by intros b ?%elem_of_nil]).
    assert (pins s1 T [l]) as Hp1.
    { constructor; [done|..].
      - intros b Hb Hbl E. apply not_elem_of_cons in Hbl as [Hbl _].
        pose proof (O1 b Hb Hbl) as Hc. rewrite (evictable_core s s1 b Hc) in E.
        destruct Hc as (-> & -> & -> & ->). apply Ho; [done|apply not_elem_of_nil|done].
      - intros sec' d' HT'. destruct (Ha sec' d' HT') as (b & _ & Hh & Hf & Hd).
        assert (b ≠ l) as Hn by (intros ->; by rewrite (evictable_fl s l _ _ _ Hf) in He).
        pose proof (O1 b (proj1 Hh) Hn) as Hc. exists b.
        split; [by apply not_elem_of_cons; split; [|apply not_elem_of_nil]|].
        split; [by apply (holds_core s)|]. destruct Hc as (-> & _ & _ & ->). done. }
    assert (room s1) as Hrm by (apply (pins_room s1 T [l]); [done|]; simpl; lia).
    assert (clean s1 x) as Hcl1.
    { intros b Hh. pose proof (Hnl b Hh) as Hn. destruct (O1 b (proj1 Hh) Hn) as (-> & _).
      apply Hcl. by apply Hhs; [apply Hh| |]. }
    eapply runs_mono; [by apply (read_clean Hmagic)|]. intros b s2 [Hev Hg2].
    assert (is_buf b) as Hb by apply Hg2.
    assert (b ≠ l) as Hn by (intros ->; by rewrite (evictable_fl s1 l _ _ _ F1) in Hev).
    eexists _, _. split; [exact Hg2|]. split; [done|].
    assert (evictable s b = true) as Hev0 by (by rewrite <- (evictable_core s s1 b (O1 b Hb Hn))).
    split; [by left|]. intros c Hh. destruct (decide (c = l)) as [|Hcl']; [by right|left].
    destruct (decide (c = b)) as [|Hcb]; [done|]. destruct Hg2 as [Hok2 _ _ D2 S2 _ O2 _ _].
    pose proof (proj1 (Hhs c (proj1 Hh) Hcl') Hh) as Hh1.
    destruct (holds_core s1 s2 c x (O2 c (proj1 Hh) Hcb) Hh1) as (Hc2 & Dc2 & Sc2).
    apply (co_uniq s2 Hok2); congruence.
Qed.

(** One block of [install_trans], in the cache. *)
Definition install1 (st tail x : Z) : M bc unit :=
  let! lbuf := bufcache_read 1 (st + tail + 1) in
  let! dbuf := bufcache_read 1 x in
  let! data := bget lbuf b_data in
  bmod dbuf (set_b_data data) ;;;
  bufcache_write dbuf ;;;
  bufcache_release lbuf ;;;
  bufcache_release dbuf.

Lemma install1_runs s T st tail x :
  pins s T [] → 0 ≤ x < 2 ^ 28 → 0 ≤ st + tail + 1 < 2 ^ 28 → st + tail + 1 ≠ x →
  T !! (st + tail + 1) = None → Z.of_nat (size T) < NBUF →
  (is_Some (T !! x) ∨ Z.of_nat (size T) + 1 < NBUF) →
  runs (install1 st tail x) s (λ _ s', installed x (d_disk s !!! (1, st + tail + 1)) s s').
Proof.
  intros Hp Hx Hsl Hne HT Hsz Hroom. unfold install1. set (sl := st + tail + 1) in *.
  set (dl := d_disk s !!! (1, sl)).
  eapply runs_bind_mono.
  { apply (read_clean Hmagic s sl); [apply Hp|done| |].
    - apply (pins_clean s T []); [done|done|by intros b ?%elem_of_nil].
    - apply (pins_room s T []); [done|]. simpl. lia. }
  intros l s1 [He Hg]. fold dl in Hg.
  eapply runs_bind_mono; [by eapply (read_home s T x)|].
  intros b s2 (di & d & Hg2 & Hbl & Hev & Huniq).
  pose proof Hg as [Hok1 Hl F1 D1 S1 T1 O1 K1 W1]. pose proof Hg2 as [Hok2 Hb F2 D2 S2 _ O2 K2 W2].
  destruct (O2 l Hl (not_eq_sym Hbl)) as (F2l & D2l & S2l & T2l).
  eapply runs_bind_eq; [apply bget_run; unfold is_buf in Hl; lia|]. rewrite T2l, T1.
  eapply runs_bind_eq; [apply bmod_run; unfold is_buf in Hb; lia|]. fold (with_data b dl s2).
  set (s3 := with_data b dl s2). assert (cache_ok s3) as Hok3 by (by eapply with_data_ok).
  assert (bufx s3 b = set_b_data dl (bufx s2 b)) as E3 by apply with_data_at.
  eapply runs_bind_mono; [apply (write_runs Hmagic s3 b true di); rewrite ?E3; done|].
  rewrite E3. intros [] s4 (Hok4 & F4 & D4 & S4 & T4 & O4 & K4 & W4). simpl in S4, T4, K4, W4.
  rewrite S2 in S4, K4, W4.
  assert (same_core (bufx s4 l) (bufx s1 l)) as Hc4.
  { rewrite (O4 l Hl (not_eq_sym Hbl)). unfold s3. rewrite with_data_ne by done. by apply O2. }
  destruct Hc4 as (F4l & D4l & S4l & T4l).
  eapply runs_bind_mono.
  { apply (release_runs Hmagic s4 l false); [done|done|congruence|congruence|].
    intros _. rewrite T4l, T1, S4l, S1, K4. change (d_disk s3) with (d_disk s2).
    rewrite lookup_total_insert_ne by congruence. by rewrite K2, K1. }
  intros [] s5 (Hok5 & _ & C5 & O5 & K5 & W5). destruct (O5 b Hb Hbl) as (F5 & D5 & S5 & T5).
  eapply runs_mono.
  { apply (release_runs Hmagic s5 b false); [done|done|congruence|congruence|].
    intros _. rewrite T5, T4, S5, S4, K5, K4. by rewrite lookup_total_insert_eq. }
  intros [] s6 (Hok6 & _ & C6 & O6 & K6 & W6).
  assert (∀ c, is_buf c → c ≠ b → c ≠ l → same_core (bufx s6 c) (bufx s c)) as Hsame.
  { intros c Hc Hn1 Hn2. rewrite (O6 c Hc Hn1), (O5 c Hc Hn2), (O4 c Hc Hn1). unfold s3.
    rewrite with_data_ne by done. by rewrite (O2 c Hc Hn1), (O1 c Hc Hn2). }
  assert (evictable s6 b = true) as Eb
    by (destruct C6 as (C6 & _); by rewrite (evictable_fl s6 b false true false)).
  assert (evictable s6 l = true) as El.
  { rewrite (evictable_core s5 s6 l (O6 l Hl (not_eq_sym Hbl))). destruct C5 as (C5 & _).
    by rewrite (evictable_fl s5 l false true false). }
  constructor; [done|..].
  - rewrite K6, K5, K4. change (d_disk s3) with (d_disk s2). by rewrite K2, K1.
  - rewrite W6, W5, W4. change (d_writes s3) with (d_writes s2). by rewrite W2, W1.
  - intros c Hc E Hnx. apply Hsame; [done|intros ->|intros ->; congruence].
    destruct Hev as [?|?]; [congruence|done].
  - intros c Hc Hor. destruct (decide (c = b)) as [->|Hn1]; [done|].
    destruct (decide (c = l)) as [->|Hn2]; [done|]. rewrite (evictable_core s s6 c) by auto.
    destruct Hor as [?|Hh]; [done|]. by destruct (Huniq c Hh).
Qed.

(** *** The whole log *)

(** A sequence of writes to the drives. *)
Definition apply_writes (ws : list (Z * Z * memory)) (D : gmap (Z * Z) memory) : gmap (Z * Z) memory :=
  foldl (λ D w, <[w.1 := w.2]> D) D ws.

Lemma apply_writes_app ws ws' D : apply_writes (ws ++ ws') D = apply_writes ws' (apply_writes ws D).
Proof. apply foldl_app. Qed.

Lemma apply_writes_ne ws D a : a ∉ ws.*1 → apply_writes ws D !!! a = D !!! a.
Proof.
  revert D. induction ws as [|w ws IH]; intros D; simpl; [done|]. intros [Hn Hw]%not_elem_of_cons.
  rewrite IH by done. by rewrite lookup_total_insert_ne.
Qed.

(** The blocks of the log as writes to their homes. *)
Definition home_writes (D : gmap (Z * Z) memory) (st : Z) (secs : list Z) : list (Z * Z * memory) :=
  imap (λ i x, (1, x, D !!! (1, st + Z.of_nat i + 1))) secs.

Definition in_log (st x : Z) : Prop := st ≤ x ≤ st + LOGSIZE.

(** The sectors that a transaction may change. *)
Definition homes_ok (st : Z) (secs : list Z) : Prop :=
  NoDup secs ∧ ∀ x, x ∈ secs → 0 ≤ x < 2 ^ 28 ∧ ¬ in_log st x.

Lemma home_writes_addr D st secs : (home_writes D st secs).*1 = (λ x, (1, x)) <$> secs.
Proof.
  unfold home_writes. apply list_eq. intros i. rewrite !list_lookup_fmap, list_lookup_imap.
  by destruct (secs !! i).
Qed.

Lemma take_home_writes D st secs n : take n (home_writes D st secs) = home_writes D st (take n secs).
Proof.
  unfold home_writes. apply list_eq. intros i. rewrite list_lookup_imap.
  destruct (decide (i < n)%nat).
  - by rewrite !lookup_take_lt, list_lookup_imap by done.
  - by rewrite !lookup_take_ge by lia.
Qed.

(** The body of [install_trans]. *)
Lemma install_body s st tail x :
  log_at s st → 0 ≤ tail < LOGSIZE → lh_sector s !!! tail = x → 0 ≤ x < 2 ^ 28 →
  (let! dev := gets log_dev in
   let! start := gets log_start in
   let! lbuf := zoom (bufcache_read (u32 dev) (u32 (start + tail + 1))) in
   let! sec := aread LOGSIZE lh_sector tail in
   let! dbuf := zoom (bufcache_read (u32 dev) (u32 sec)) in
   let! data := zoom (bget lbuf b_data) in
   zoom (bmod dbuf (set_b_data data)) ;;;
   zoom (bufcache_write dbuf) ;;;
   zoom (bufcache_release lbuf) ;;;
   zoom (bufcache_release dbuf)) s = zoom (install1 st tail x) s.
Proof.
  intros [Hdv Hst Hr] Ht Hx Hxr. erewrite bind_Ret; [|reflexivity]. erewrite bind_Ret; [|reflexivity].
  rewrite Hdv, Hst. change (u32 1) with 1. rewrite (u32_sector (st + tail + 1)) by lia.
  unfold install1. rewrite zoom_bind.
  apply bind_ext_at. intros l t E.
  assert (lh_sector t !!! tail = x) as Et.
  { unfold zoom, fzoom in E. destruct (bufcache_read _ _ _) as [[? ?]| | |]; [|done..].
    injection E as _ <-. done. }
  kstep (aread_in LOGSIZE lh_sector tail t Ht). rewrite Et, (u32_sector x) by done.
  rewrite zoom_bind. apply bind_ext. intros b t1. rewrite zoom_bind. apply bind_ext. intros d t2.
  do 3 (rewrite zoom_seq; apply bind_ext; intros ? ?). done.
Qed.

Lemma install_trans_runs s st secs T :
  log_at s st → hdr_is s secs → homes_ok st secs → pins (l_bc s) T [] →
  (∀ x, is_Some (T !! x) → x ∈ secs) → Z.of_nat (size T) < NBUF →
  (∀ x, x ∈ secs → is_Some (T !! x) ∨ Z.of_nat (size T) + 1 < NBUF) →
  let ws := home_writes (d_disk (l_bc s)) st secs in
  runs install_trans s (λ _ s', ∃ c, s' = set_l_bc c s ∧ pins c ∅ [] ∧
    d_disk c = apply_writes ws (d_disk (l_bc s)) ∧ d_writes c = d_writes (l_bc s) ++ ws).
Proof.
  intros Hlog [Hn Hlen Hsec] [Hnd Hh] Hp Hdom Hsz Hroom ws. unfold install_trans.
  eapply runs_bind_eq; [reflexivity|]. rewrite Hn.
  set (inv := λ i t, ∃ c Ti, t = set_l_bc c s ∧ pins c Ti [] ∧ (size Ti ≤ size T)%nat ∧
    (∀ j x, secs !! j = Some x → Ti !! x = if (Z.of_nat j <? i) then None else T !! x) ∧
    (∀ x, x ∉ secs → Ti !! x = None) ∧
    d_disk c = apply_writes (take (Z.to_nat i) ws) (d_disk (l_bc s)) ∧
    d_writes c = d_writes (l_bc s) ++ take (Z.to_nat i) ws).
  eapply runs_mono.
  { apply (for_runs inv); [lia| |].
    - exists (l_bc s), T. split; [by destruct s|]. split; [done|]. split; [done|].
      split; [intros j x Hj; by rewrite (proj2 (Z.ltb_ge _ _)) by lia|]. simpl.
      split; [|by rewrite app_nil_r]. intros x Hx. apply eq_None_not_Some. intros HT. by apply Hx, Hdom.
    - intros i t Hi (c & Ti & -> & Hpc & Hszi & HTi & HTo & Hdk & Hwr).
      destruct (lookup_lt_is_Some_2 secs (Z.to_nat i)) as [x Hx]; [lia|].
      pose proof (list_elem_of_lookup_2 _ _ _ Hx) as Hin. destruct (Hh x Hin) as [Hxr Hxl].
      assert (lh_sector s !!! i = x) as Ex by (rewrite <- (Hsec _ _ Hx); f_equal; lia).
      pose proof Hlog as [Hdv Hst Hr]. unfold in_log, LOGSIZE in *.
      assert (Ti !! x = T !! x) as ETx.
      { rewrite (HTi _ _ Hx). by rewrite (proj2 (Z.ltb_ge _ _)) by lia. }
      eapply runs_rw; [apply (install_body _ st i x); try done; unfold LOGSIZE; lia|]. apply runs_zoom.
      change (lget (set_l_bc c s)) with c.
      eapply runs_mono; [apply (install1_runs c Ti st i x); try done; try lia|].
      { apply HTo. intros [_ Hc]%Hh. apply Hc. lia. }
      { rewrite ETx. destruct (Hroom x Hin); [by left|right; lia]. }
      intros [] c' Hinst. pose proof Hinst as [_ Hd' Hw' _ _].
      assert (d_disk c !!! (1, st + i + 1) = d_disk (l_bc s) !!! (1, st + i + 1)) as Edat.
      { rewrite Hdk. apply apply_writes_ne. unfold ws. rewrite take_home_writes, home_writes_addr.
        intros (y & [= <-] & Hy%elem_of_take)%list_elem_of_fmap. destruct Hy as (k & Hy & _).
        apply list_elem_of_lookup_2, Hh in Hy as [_ Hc]. apply Hc. lia. }
      assert (ws !! Z.to_nat i = Some (1, x, d_disk (l_bc s) !!! (1, st + i + 1))) as Ews.
      { unfold ws, home_writes. rewrite list_lookup_imap, Hx. simpl. do 4 f_equal. lia. }
      rewrite Edat in Hd', Hw'.
      exists c', (delete x Ti). replace (Z.to_nat (i + 1)) with (S (Z.to_nat i)) by lia.
      rewrite (take_S_r _ _ _ Ews). split; [done|]. split; [by eapply pins_installed|].
      split; [rewrite map_size_delete; by destruct (Ti !! x); simpl; lia|]. split; [|split; [|split]].
      + intros j y Hj. destruct (decide (y = x)) as [->|Hne].
        * rewrite lookup_delete_eq. assert (j = Z.to_nat i) as -> by (eapply NoDup_lookup; done).
          by rewrite (proj2 (Z.ltb_lt _ _)) by lia.
        * rewrite lookup_delete_ne by done. rewrite (HTi j y Hj).
          assert (j ≠ Z.to_nat i) by (intros ->; congruence).
          destruct (Z.ltb_spec (Z.of_nat j) i), (Z.ltb_spec (Z.of_nat j) (i + 1)); try lia; done.
      + intros y Hy. rewrite lookup_delete_ne; [by apply HTo|]. by intros ->.
      + rewrite apply_writes_app, <- Hdk. done.
      + by rewrite Hw', Hwr, <- app_assoc. }
  intros [] s' (c & Ti & -> & Hpc & _ & HTi & HTo & Hdk & Hwr).
  assert (Ti = ∅) as ->.
  { apply map_empty. intros x. destruct (decide (x ∈ secs)) as [Hin|]; [|by apply HTo].
    apply list_elem_of_lookup in Hin as [j Hj]. rewrite (HTi j x Hj).
    rewrite (proj2 (Z.ltb_lt _ _)); [done|]. apply lookup_lt_Some in Hj. lia. }
  rewrite Nat2Z.id in Hdk, Hwr.
  rewrite take_ge in Hdk, Hwr by (unfold ws, home_writes; rewrite length_imap; lia).
  exists c. done.
Qed.

End head.
