(* ===== verification/Crash.v ===== *)
(** * Transactions and crashes

    What [log_write] does to the cache and the log, the disk writes of [commit_trans],
    the recovery of [log_init], and from these: a transaction is atomic, wherever in its
    sequence of disk writes the machine stops. *)

From S2P Require Import Prelude Spinlock Mem DList Bufcache BufSpec Log LogSpec.

Section cache.
Context `{KEnv}.
Hypothesis Hmagic : ks_magic = KSTACK_MAGIC.

(** The content of a block as the file system sees it. *)
Definition view (s : bc) (T : gmap Z memory) (x : Z) : memory := default (d_disk s !!! (1, x)) (T !! x).

(** A block was only looked at. *)
Lemma look_runs s b sec s1 :
  evictable s b = true → got sec b false (d_disk s !!! (1, sec)) s s1 →
  runs (bufcache_release b) s1 (λ _ s', kept s s' ∧ d_disk s' = d_disk s ∧ d_writes s' = d_writes s).
Proof.
  intros He [Hok Hb Hf Hd Hs Hdt Ho Hdk Hw].
  eapply runs_mono; [apply (release_runs Hmagic s1 b false); try done; congruence|].
  intros [] s2 (Hok2 & _ & (F2 & _) & O2 & K2 & W2).
  assert (∀ c, is_buf c → c ≠ b → same_core (bufx s2 c) (bufx s c)) as Hsame
    by (intros c Hc Hn; rewrite (O2 c Hc Hn); auto).
  split; [|by rewrite K2, W2]. constructor; [done|..].
  - intros c Hc E. apply Hsame; [done|]. intros ->. congruence.
  - intros c Hc E. destruct (decide (c = b)) as [->|Hn]; [by rewrite (evictable_fl s2 b false true false)|].
    rewrite (evictable_core s s2); [done|]. by apply Hsame.
Qed.

(** Reading a block that the caller does not hold yet: the caller holds the buffer, which
    is not a buffer of the transaction for that time. *)
Lemma read_pins s T K x :
  pins s T K → (∀ b, b ∈ K → b_sector (bufx s b) ≠ x ∧ evictable s b = false) → 0 ≤ x < 2 ^ 28 →
  Z.of_nat (size T + length K) < NBUF →
  runs (bufcache_read 1 x) s (λ b s', got x b (bool_decide (is_Some (T !! x))) (view s T x) s s' ∧
    pins s' (delete x T) (b :: K) ∧ b ∉ K).
Proof.
  intros Hp HK Hx Hsz. pose proof Hp as [Hok Ho Ha].
  assert (∀ b di d s', got x b di d s s' → (∀ c d', T !! x = Some d' → holds s c x → c = b) →
    (evictable s b = true ∨ holds s b x) → pins s' (delete x T) (b :: K) ∧ b ∉ K) as Hpost.
  { intros b di d s' [Hok' Hb F D S _ O _ _] Hu Hev. split.
    2:{ intros [Hs He]%HK. destruct Hev as [Hev|(_ & _ & Hev)]; congruence. }
    constructor; [done|..].
    - intros c Hc [Hcb HcK]%not_elem_of_cons E. pose proof (O c Hc Hcb) as Hcore.
      rewrite (evictable_core s s' c Hcore) in E. destruct Hcore as (-> & -> & -> & ->).
      destruct (Ho c Hc HcK E) as (Fc & Dc & HT). split; [done|]. split; [done|].
      rewrite lookup_delete_ne; [done|]. intros ->. destruct Hcb. by eapply Hu.
    - intros y dy [Hne HT]%lookup_delete_Some. destruct (Ha y dy HT) as (c & HcK & Hh & Fc & Dc).
      assert (c ≠ b) as Hcb.
      { intros ->. destruct Hev as [Hev|Hev].
        - by rewrite (evictable_fl s b _ _ _ Fc) in Hev.
        - destruct Hh as (_ & _ & ?), Hev as (_ & _ & ?). congruence. }
      pose proof (O c (proj1 Hh) Hcb) as Hcore. exists c.
      split; [by apply not_elem_of_cons|].
      split; [by apply (holds_core s)|]. destruct Hcore as (-> & _ & _ & ->). done. }
  unfold view. destruct (T !! x) as [d|] eqn:HT; simpl.
  - destruct (Ha x d HT) as (b & _ & Hh & Hf & Hd). eapply runs_mono; [by apply (read_hit Hmagic s b x true)|].
    intros r s' [-> Hg]. rewrite Hd in Hg. split; [done|]. apply (Hpost b true d s' Hg); [|by right].
    intros c d' _ (Hc & Dc & Sc). destruct Hh as (Hb & Db & Sb). apply (co_uniq s Hok); congruence.
  - eapply runs_mono.
    { apply (read_clean Hmagic s x Hok Hx); [apply (pins_clean s T K x); [done..|by intros b [? _]%HK]|].
      by apply (pins_room s T K). }
    intros b s' [Hev Hg]. split; [done|]. eapply Hpost; [done| |by left]. congruence.
Qed.

(** Releasing a dirty buffer: it belongs to the transaction. *)
Lemma release_pins s T K x b d :
  pins s (delete x T) (b :: K) → (b ∉ K) → is_buf b → b_flags (bufx s b) = fl true true true → b_dev (bufx s b) = 1 →
  b_sector (bufx s b) = x → b_data (bufx s b) = d →
  runs (bufcache_release b) s (λ _ s', pins s' (<[x := d]> T) K ∧ d_disk s' = d_disk s ∧
    d_writes s' = d_writes s ∧ ∀ c, is_buf c → c ≠ b → same_core (bufx s' c) (bufx s c)).
Proof.
  intros [Hok Ho Ha] HbK Hb F D S Dt. eapply runs_mono; [by apply (release_runs Hmagic s b true)|].
  intros [] s' (Hok' & _ & (F' & D' & S' & T') & O & Kd & W). simpl in F', D', S', T'.
  split; [|done]. constructor; [done|..].
  - intros c Hc HcK E. destruct (decide (c = b)) as [->|Hcb].
    + rewrite F', D', S', T', S, Dt, D, lookup_insert_eq. done.
    + pose proof (O c Hc Hcb) as Hcore. rewrite (evictable_core s s' c Hcore) in E.
      destruct Hcore as (-> & -> & -> & ->).
      destruct (Ho c Hc ltac:(by apply not_elem_of_cons) E)
        as (Fc & Dc & HT). split; [done|]. split; [done|].
      apply lookup_delete_Some in HT as [Hne HT]. by rewrite lookup_insert_ne.
  - intros y dy Hy. destruct (decide (y = x)) as [->|Hne].
    + rewrite lookup_insert_eq in Hy. injection Hy as <-. exists b. split; [done|].
      split; [|by rewrite T']. split; [done|]. split; congruence.
    + rewrite lookup_insert_ne in Hy by done.
      destruct (Ha y dy) as (c & Hcb & Hh & Fc & Dc); [by rewrite lookup_delete_ne|].
      apply not_elem_of_cons in Hcb as [Hcb HcK]. pose proof (O c (proj1 Hh) Hcb) as Hcore.
      exists c. split; [done|]. split; [by apply (holds_core s)|].
      destruct Hcore as (-> & _ & _ & ->). done.
Qed.

(** Releasing a buffer that was only looked at. *)
Lemma release_clean s T K b :
  pins s T (b :: K) → (b ∉ K) → is_buf b → b_flags (bufx s b) = fl true true false → b_dev (bufx s b) = 1 →
  b_data (bufx s b) = d_disk s !!! (1, b_sector (bufx s b)) →
  runs (bufcache_release b) s (λ _ s', pins s' T K ∧ d_disk s' = d_disk s ∧
    d_writes s' = d_writes s ∧ ∀ c, is_buf c → c ≠ b → same_core (bufx s' c) (bufx s c)).
Proof.
  intros [Hok Ho Ha] HbK Hb F D Dt. eapply runs_mono; [by apply (release_runs Hmagic s b false)|].
  intros [] s' (Hok' & _ & (F' & _) & O & K' & W). simpl in F'. split; [|done]. constructor; [done|..].
  - intros c Hc HcK E. destruct (decide (c = b)) as [->|Hcb]; [by rewrite (evictable_fl s' b _ _ _ F') in E|].
    pose proof (O c Hc Hcb) as Hcore. rewrite (evictable_core s s' c Hcore) in E.
    destruct Hcore as (-> & -> & -> & ->). by apply Ho; [|apply not_elem_of_cons|].
  - intros y dy Hy. destruct (Ha y dy Hy) as (c & [Hcb HcK]%not_elem_of_cons & Hh & Fc & Dc).
    pose proof (O c (proj1 Hh) Hcb) as Hcore. exists c. split; [done|]. split; [by apply (holds_core s)|].
    destruct Hcore as (-> & _ & _ & ->). done.
Qed.

(** A held buffer is changed. *)
Lemma pins_change s s' T K b :
  pins s T K → b ∈ K → cache_ok s' → (∀ c, is_buf c → c ≠ b → bufx s' c = bufx s c) → pins s' T K.
Proof.
  intros [_ Ho Ha] HbK Hok' O. constructor; [done|..].
  - intros c Hc Hcb E. assert (c ≠ b) as Hn by (by intros ->). unfold evictable in E.
    rewrite (O c Hc Hn) in E |- *. by apply Ho.
  - intros y dy Hy. destruct (Ha y dy Hy) as (c & Hcb & Hh & Fc & Dc). exists c.
    assert (c ≠ b) as Hn by (by intros ->). unfold holds. by rewrite (O c (proj1 Hh) Hn).
Qed.

End cache.

(** ** Writing to the log *)

Section log.
Context `{KEnv}.
Hypothesis Hmagic : ks_magic = KSTACK_MAGIC.

Lemma s32_sector x : 0 ≤ x < 2 ^ 28 → s32 x = x.
Proof. change (2 ^ 28) with 268435456. intros. apply s32_small. unfold is_s32. lia. Qed.

Lemma absorb_run fuel s secs i x :
  hdr_is s secs → Forall (λ y, 0 ≤ y < 2 ^ 28) secs → 0 ≤ i ≤ Z.of_nat (length secs) →
  Z.of_nat (length secs) < Z.of_nat fuel + i → x ∉ take (Z.to_nat i) secs →
  ∃ j, absorb fuel i x s = Ret (Z.of_nat j, s) ∧ (secs !! j = Some x ∨ j = length secs ∧ x ∉ secs).
Proof.
  intros [Hn Hl Hs] Hr. revert i. induction fuel as [|f IH]; intros i Hi Hf Hx; [lia|]. simpl.
  erewrite bind_Ret; [|reflexivity]. rewrite Hn. destruct (Z.ltb_spec i (Z.of_nat (length secs))).
  - destruct (lookup_lt_is_Some_2 secs (Z.to_nat i)) as [y Hy]; [lia|].
    assert (lh_sector s !!! i = y) as Ey by (rewrite <- (Hs _ _ Hy); f_equal; lia).
    kstep (aread_in LOGSIZE lh_sector i s ltac:(lia)). rewrite Ey.
    rewrite (u32_sector y) by (by apply (Forall_lookup_1 _ _ _ _ Hr Hy)).
    destruct (Z.eqb_spec y x) as [->|Hne].
    + exists (Z.to_nat i). rewrite Z2Nat.id by lia. split; [done|by left].
    + apply IH; [lia|lia|]. replace (Z.to_nat (i + 1)) with (S (Z.to_nat i)) by lia.
      rewrite (take_S_r _ _ _ Hy), elem_of_app, list_elem_of_singleton. naive_solver.
  - exists (length secs). split; [unfold ret; do 2 f_equal; lia|]. right. split; [done|].
    rewrite take_ge in Hx by lia. done.
Qed.

(** The state of the log for the blocks [T] of a transaction, which are in the order
    [secs] in the header. *)
Record logged (s : lg) (st : Z) (secs : list Z) (T : gmap Z memory) : Prop := {
  lo_log : log_at s st;
  lo_size : LOGSIZE ≤ log_size s;
  lo_hdr : hdr_is s secs;
  lo_homes : homes_ok st secs;
  lo_dom : ∀ x, is_Some (T !! x) → x ∈ secs;
  lo_len : size T = length secs;
  lo_slot : ∀ i x, secs !! i = Some x → T !! x = Some (d_disk (l_bc s) !!! (1, st + Z.of_nat i + 1));
}.

Lemma lo_outside s st secs T x : logged s st secs T → is_Some (T !! x) → ¬ in_log st x.
Proof. intros Hl Hx%(lo_dom _ _ _ _ Hl). by apply (lo_homes _ _ _ _ Hl). Qed.

Lemma zoom_pair {A} (m n : M bc unit) (k : M lg A) s : (zoom m ;;; zoom n ;;; k) s = (zoom (m ;;; n) ;;; k) s.
Proof. rewrite <- bind_assoc. unfold bind at 1 3. by rewrite <- zoom_seq. Qed.

Lemma runs_bc {A} (m : M bc A) (s : lg) P :
  runs m (l_bc s) P → runs (zoom m) s (λ a s', ∃ c, s' = set_l_bc c s ∧ P a c).
Proof. intros Hm. apply runs_zoom. eapply runs_mono; [exact Hm|]. intros a c HP. by exists c. Qed.

(** The header and the slot after [log_write]. *)
Record log_wrote (st x : Z) (d : memory) (secs : list Z) (b : Z) (T' : gmap Z memory) (K : list Z)
  (s s' : lg) : Prop := {
  lw_at : ∃ j, (secs !! j = Some x ∨ j = length secs ∧ x ∉ secs) ∧
    lh_n s' = Z.max (Z.of_nat j + 1) (Z.of_nat (length secs)) ∧
    lh_sector s' = <[Z.of_nat j := x]> (lh_sector s) ∧
    d_disk (l_bc s') = <[(1, st + Z.of_nat j + 1) := d]> (d_disk (l_bc s)) ∧
    d_writes (l_bc s') = d_writes (l_bc s) ++ [(1, st + Z.of_nat j + 1, d)];
  lw_pins : pins (l_bc s') T' K;
  lw_buf : same_core (bufx (l_bc s') b) (set_b_flags (fl true true true) (bufx (l_bc s) b));
  lw_held : ∀ c, is_buf c → c ≠ b → evictable (l_bc s) c = false → same_core (bufx (l_bc s') c) (bufx (l_bc s) c);
  lw_rest : log_lock s' = log_lock s ∧ log_start s' = log_start s ∧ log_size s' = log_size s ∧
    log_busy s' = log_busy s ∧ log_dev s' = log_dev s;
}.

Lemma log_write_runs s st secs T T' K x b di d :
  logged s st secs T → Z.of_nat (length secs) < LOGSIZE - 1 → log_busy s ≠ 0 →
  0 ≤ x < 2 ^ 28 → ¬ in_log st x → pins (l_bc s) T' K → T' ⊆ T → Z.of_nat (size T' + length K) < NBUF →
  (∀ c, c ∈ K → ¬ in_log st (b_sector (bufx (l_bc s) c))) → b ∈ K → is_buf b →
  b_flags (bufx (l_bc s) b) = fl true true di → b_dev (bufx (l_bc s) b) = 1 →
  b_sector (bufx (l_bc s) b) = x → b_data (bufx (l_bc s) b) = d →
  runs (log_write b) s (λ _ s', log_wrote st x d secs b T' K s s').
Proof.
  intros Hlg Hlen Hbusy Hx Hxl Hp HT' Hsz HK HbK Hb F D S Dt.
  pose proof Hlg as [[Hdv Hst Hr] Hsize Hhdr [Hnd Hh] Hdom Hszl Hslot]. pose proof Hhdr as [Hn Hl Hsec].
  unfold is_buf in Hb. unfold LOGSIZE in *. unfold log_write.
  assert (∀ A (f : buf → A) (t : lg), zoom (bget b f) t = Ret (f (bufx (l_bc t) b), t)) as Hget.
  { intros A f t. apply zoom_read, bget_run. lia. }
  eapply runs_bind_eq; [reflexivity|]. eapply runs_bind_eq; [reflexivity|]. rewrite Hn.
  rewrite !Z.geb_leb, !(proj2 (Z.leb_gt _ _)) by (unfold LOGSIZE; lia).
  eapply runs_bind_eq; [reflexivity|]. eapply runs_bind_eq; [reflexivity|].
  rewrite (proj2 (nz_spec _) Hbusy). eapply runs_bind_eq; [reflexivity|].
  eapply runs_bind_eq; [apply Hget|]. rewrite S.
  destruct (absorb_run (Z.to_nat LOGSIZE + 1) s secs 0 x) as (j & Ej & Hj); [done| |lia|unfold LOGSIZE; lia| |].
  { apply Forall_forall. intros y Hy. by apply Hh. } { apply not_elem_of_nil. }
  eapply runs_bind_eq; [exact Ej|].
  assert (Z.of_nat j ≤ Z.of_nat (length secs)) as Hjl.
  { destruct Hj as [Hj%lookup_lt_Some|[-> _]]; lia. }
  eapply runs_bind_eq; [apply awrite_in; unfold LOGSIZE; lia|]. rewrite (s32_sector x Hx).
  set (s1 := set_lh_sector _ s). eapply runs_bind_eq; [apply Hget|].
  eapply runs_bind_eq; [reflexivity|]. change (l_bc s1) with (l_bc s). change (log_start s1) with (log_start s).
  rewrite D, Hst. change (u32 1) with 1. set (sl := st + Z.of_nat j + 1).
  assert (0 ≤ sl < 2 ^ 28 ∧ in_log st sl) as [Hsl Hslin] by (unfold sl, in_log, LOGSIZE; lia).
  rewrite (u32_sector sl Hsl).
  assert (clean (l_bc s) sl) as Hcl.
  { apply (pins_clean _ _ K sl Hp).
    - apply eq_None_not_Some. intros [y Hy%(lookup_weaken _ T)]; [|done]. by apply (lo_outside s st secs T sl Hlg).
    - intros c Hc%HK. congruence. }
  assert (room (l_bc s)) as Hroom by by apply (pins_room _ _ _ Hp).
  eapply runs_bind_mono.
  { apply runs_bc, (read_clean Hmagic); [apply Hp|done|done|done]. }
  intros lb t1 (c1 & -> & Hev & Hg). change (l_bc s1) with (l_bc s) in Hev, Hg. eapply runs_bind_eq; [apply Hget|].
  assert (evictable (l_bc s) b = false) as Hnev by (by rewrite (evictable_fl _ b _ _ _ F)).
  assert (b ≠ lb) as Hblb by (intros ->; congruence).
  pose proof (g_others _ _ _ _ _ _ Hg b Hb Hblb) as (_ & _ & _ & Edt).
  change (l_bc (set_l_bc c1 s1)) with c1. rewrite Edt, Dt.
  eapply runs_bind_eq; [by apply (zoom_bmod_data lb (λ _, d)), Hg|]. change (l_bc (set_l_bc c1 s1)) with c1.
  eapply runs_rw; [apply zoom_pair|]. eapply runs_bind_mono.
  { by apply runs_bc, (finish_runs Hmagic (l_bc s) _ lb sl _ d c1 Hev Hg). }
  intros [] t2 (c2 & -> & Hw). match goal with |- runs _ ?t _ => change t with (set_l_bc c2 s1) end. eapply runs_bind_eq; [reflexivity|].
  pose proof (pins_wrote _ _ _ _ _ _ Hp Hw) as Hp2. pose proof Hw as [Hok2 Hd2 Hw2 Hpin2 _].
  change (lh_n (set_l_bc c2 s1)) with (lh_n s). rewrite Hn.
  set (n' := Z.max (Z.of_nat j + 1) (Z.of_nat (length secs))).
  eapply (runs_bind_eq _ _ _ tt (set_lh_n n' (set_l_bc c2 s1))).
  { unfold n'. destruct (Z.eqb_spec (Z.of_nat j) (Z.of_nat (length secs))) as [E|E]; simpl.
    - unfold modify. do 3 f_equal. lia.
    - unfold ret. do 2 f_equal. rewrite Z.max_r by lia. rewrite <- Hn. by destruct s. }
  destruct (Hpin2 b Hb Hnev) as (F2 & D2 & S2 & T2).
  eapply runs_of_eq; [apply zoom_Ret, bmod_run; lia|]. cbv beta. change (lget (set_lh_n n' (set_l_bc c2 s1))) with c2.
  rewrite F2, F, fl_set_dirty. set (c3 := set_bufs _ c2).
  assert (bufx c3 b = set_b_flags (fl true true true) (bufx c2 b)) as E3
    by (unfold c3, bufx at 1; simpl; by rewrite lookup_total_insert_eq).
  assert (∀ c, c ≠ b → bufx c3 c = bufx c2 c) as O3
    by (intros c Hc; unfold c3, bufx at 1; simpl; by rewrite lookup_total_insert_ne).
  constructor; simpl.
  - exists j. split; [done|]. split; [done|]. split; [done|]. by split.
  - apply (pins_change c2 _ _ _ b); [done|done| |by intros; apply O3].
    apply (take_ok c2 c3 b x true true); unfold bnext, bprev; rewrite ?E3; simpl; try done;
      [by destruct (co_idle c2 Hok2)|by destruct Hok2|congruence|congruence|].
    intros c (Hc & Dc & Sc). apply (co_uniq c2 Hok2); try done; congruence.
  - rewrite E3. unfold same_core. simpl. done.
  - intros c Hc Hcb Hev'. rewrite O3 by done. by apply Hpin2.
  - done.
Qed.

(** The use of [log_write] that its comment describes. *)
Definition update (x : Z) (d : memory) : M lg unit :=
  let! bp := zoom (bufcache_read ROOTDEV x) in
  zoom (bmod bp (set_b_data d)) ;;;
  log_write bp ;;;
  zoom (bufcache_release bp).

(** A transaction is open. *)
Record trans (s : lg) (st : Z) (secs : list Z) (T : gmap Z memory) : Prop := {
  tr_logged : logged s st secs T;
  tr_pins : pins (l_bc s) T [];
  tr_busy : log_busy s ≠ 0;
  tr_lock : lock (log_lock s) = 0;
}.

Lemma logged_wrote s s' st secs T T' K x d b :
  logged s st secs T → 0 ≤ x < 2 ^ 28 → ¬ in_log st x → Z.of_nat (length secs) < LOGSIZE - 1 →
  log_wrote st x d secs b T' K s s' →
  ∃ secs' sl, logged s' st secs' (<[x := d]> T) ∧ (length secs' ≤ S (length secs))%nat ∧
    st < sl ≤ st + LOGSIZE ∧ d_disk (l_bc s') = apply_writes [(1, sl, d)] (d_disk (l_bc s)) ∧
    d_writes (l_bc s') = d_writes (l_bc s) ++ [(1, sl, d)].
Proof.
  intros [[Hdv Hst Hr] Hsize [Hn Hl Hsec] [Hnd Hh] Hdom Hszl Hslot] Hx Hxl Hlen
    [(j & Hj & Hn' & Hs' & Hd' & Hw') _ _ _ (_ & E1 & E2 & _ & E3)].
  set (secs' := if decide (x ∈ secs) then secs else secs ++ [x]).
  assert (secs' !! j = Some x) as Hjx.
  { unfold secs'. destruct Hj as [Hj|[-> Hn0]].
    - by rewrite decide_True by (by eapply list_elem_of_lookup_2).
    - rewrite decide_False by done. by apply list_lookup_middle. }
  assert (∀ i y, secs' !! i = Some y → i = j ∧ y = x ∨ i ≠ j ∧ y ≠ x ∧ secs !! i = Some y) as Hinv.
  { intros i y Hi. destruct (decide (i = j)) as [->|Hne]; [left; split; congruence|right].
    split; [done|]. unfold secs' in Hi, Hjx. destruct (decide (x ∈ secs)) as [Hin|Hin].
    - split; [|done]. intros ->. apply Hne. by eapply NoDup_lookup.
    - destruct Hj as [Hj|[-> _]]; [by apply list_elem_of_lookup_2 in Hj|].
      apply lookup_app_Some in Hi as [Hi|[Hi1 Hi2]].
      + split; [|done]. intros ->. by apply Hin, (list_elem_of_lookup_2 _ i).
      + apply lookup_lt_Some in Hi2. simpl in Hi2. lia. }
  assert (Z.of_nat (length secs') = Z.max (Z.of_nat j + 1) (Z.of_nat (length secs)) ∧
    (length secs' ≤ S (length secs))%nat) as [Hlen' Hle].
  { unfold secs'. destruct (decide (x ∈ secs)) as [Hin|Hin].
    - destruct Hj as [Hj%lookup_lt_Some|[_ ?]]; [lia|done].
    - rewrite length_app. simpl. destruct Hj as [Hj|[-> _]]; [by apply list_elem_of_lookup_2 in Hj|lia]. }
  exists secs', (st + Z.of_nat j + 1). unfold LOGSIZE in *.
  assert (Z.of_nat j ≤ Z.of_nat (length secs)) by (destruct Hj as [Hj%lookup_lt_Some|[-> _]]; lia).
  split; [|split; [done|split; [lia|done]]]. constructor.
  - by constructor; [rewrite E3|rewrite E1|].
  - by rewrite E2.
  - constructor; [by rewrite Hn'|unfold LOGSIZE; lia|]. intros i y Hi. rewrite Hs'.
    destruct (Hinv i y Hi) as [[-> ->]|(Hne & _ & Hi')]; [by rewrite lookup_total_insert_eq|].
    rewrite lookup_total_insert_ne by lia. by apply Hsec.
  - split.
    + unfold secs'. destruct (decide (x ∈ secs)); [done|]. apply NoDup_app. split; [done|].
      split; [by intros y Hy ->%list_elem_of_singleton|apply NoDup_singleton].
    + intros y [i Hi]%list_elem_of_lookup. destruct (Hinv i y Hi) as [[_ ->]|(_ & _ & Hi')]; [done|].
      by apply Hh, (list_elem_of_lookup_2 _ i).
  - intros y [dy [[<- _]|[_ Hy]]%lookup_insert_Some]; [by apply (list_elem_of_lookup_2 _ j)|].
    assert (y ∈ secs) by (by apply Hdom). unfold secs'. destruct (decide (x ∈ secs)); [done|].
    apply elem_of_app. by left.
  - rewrite map_size_insert. unfold secs'. destruct (T !! x) eqn:ET.
    + rewrite decide_True by (by apply Hdom). done.
    + rewrite decide_False; [by rewrite length_app, Hszl; simpl; lia|].
      intros [i Hi]%list_elem_of_lookup. by rewrite (Hslot i x Hi) in ET.
  - intros i y Hi. rewrite Hd'. destruct (Hinv i y Hi) as [[-> ->]|(Hne & Hyx & Hi')].
    + by rewrite lookup_insert_eq, lookup_total_insert_eq.
    + rewrite lookup_insert_ne by done. rewrite lookup_total_insert_ne by (intros [= ?]; lia). by apply Hslot.
Qed.

Lemma update_runs s st secs T x d :
  trans s st secs T → 0 ≤ x < 2 ^ 28 → ¬ in_log st x → Z.of_nat (length secs) < LOGSIZE - 1 →
  runs (update x d) s (λ _ s', ∃ secs' sl, trans s' st secs' (<[x := d]> T) ∧
    (length secs' ≤ S (length secs))%nat ∧ st < sl ≤ st + LOGSIZE ∧
    d_disk (l_bc s') = apply_writes [(1, sl, d)] (d_disk (l_bc s)) ∧
    d_writes (l_bc s') = d_writes (l_bc s) ++ [(1, sl, d)]).
Proof.
  intros [Hlg Hp Hbusy Hlk] Hx Hxl Hlen. unfold update. eapply runs_bind_mono.
  { apply runs_bc, (read_pins Hmagic _ T []); [done|by intros b ?%elem_of_nil|done|].
    rewrite (lo_len _ _ _ _ Hlg). unfold LOGSIZE, NBUF in *. simpl. lia. }
  intros b t (c & -> & Hg & Hp1 & _). pose proof Hg as [Hok Hb F D S Dt O K W].
  eapply runs_bind_eq; [by apply (zoom_bmod_data b (λ _, d))|]. cbv beta.
  match goal with |- runs _ ?t _ => change t with (set_l_bc (with_data b d c) s) end.
  set (c1 := with_data b d c). set (s1 := set_l_bc c1 s).
  assert (bufx c1 b = set_b_data d (bufx c b)) as E1 by apply with_data_at.
  assert (cache_ok c1) as Hok1 by (by eapply with_data_ok).
  assert (d_disk c1 = d_disk (l_bc s)) as Ed1 by (unfold c1, with_data; simpl; done).
  assert (logged s1 st secs T) as Hlg1.
  { destruct Hlg as [[] ? [] ? ? ? Hs]. constructor; [done|done|done|done|done|done|].
    intros i y Hi. change (l_bc s1) with c1. rewrite Ed1. by apply Hs. }
  eapply runs_bind_mono.
  { eapply (log_write_runs s1 st secs T (delete x T) [b] x b _ d); change (l_bc s1) with c1; rewrite ?E1; try done.
    - apply (pins_change c _ _ _ b); [done|by left|done|]. intros a _ Hn. by apply with_data_ne.
    - apply delete_subseteq.
    - pose proof (map_size_delete x T) as E. pose proof (lo_len _ _ _ _ Hlg). unfold NBUF, LOGSIZE in *. simpl.
      destruct (T !! x); rewrite E; unfold id; lia.
    - intros a ->%list_elem_of_singleton. rewrite E1. simpl. by rewrite S.
    - by left. }
  intros [] s2 Hlw. destruct (logged_wrote _ _ _ _ _ _ _ _ _ _ Hlg1 Hx Hxl Hlen Hlw)
    as (secs' & sl & Hlg2 & Hle & Hsl & Hd2 & Hw2).
  change (l_bc s1) with c1 in Hd2, Hw2. rewrite Ed1 in Hd2. change (d_writes c1) with (d_writes c) in Hw2.
  rewrite W in Hw2. destruct Hlw as [_ Hp2 (F2 & D2 & S2 & T2) _ (L2 & _ & _ & B2 & _)].
  change (l_bc s1) with c1 in F2, D2, S2, T2. rewrite E1 in F2, D2, S2, T2. simpl in F2, D2, S2, T2.
  eapply runs_mono.
  { apply runs_bc, (release_pins Hmagic _ T [] x b d); try done; [apply not_elem_of_nil|congruence..]. }
  intros [] t (c3 & -> & Hp3 & Hd3 & Hw3 & _). exists secs', sl. split.
  - constructor; [|done|simpl; by rewrite B2|simpl; by rewrite L2].
    destruct Hlg2 as [[] ? [] ? ? ? Hs]. constructor; [done|done|done|done|done|done|].
    intros i y Hi. simpl. rewrite Hd3. by apply Hs.
  - simpl. by rewrite Hd3, Hw3.
Qed.

End log.

(** ** Commit and recovery *)

(** The header block on the disk lists [secs]. *)
Record disk_hdr (d : memory) (secs : list Z) : Prop := {
  dh_n : hdr_n d = Z.of_nat (length secs);
  dh_len : Z.of_nat (length secs) ≤ LOGSIZE;
  dh_sec : ∀ i x, secs !! i = Some x → hdr_sector d (Z.of_nat i) = x;
}.

Lemma head_data_hdr st secs d :
  Z.of_nat (length secs) ≤ LOGSIZE → homes_ok st secs → disk_hdr (head_data secs d) secs.
Proof.
  intros Hl [_ Hh]. constructor; [by apply head_data_n|done|]. intros i x Hi.
  apply head_data_sector; [done..|]. by apply Hh, (list_elem_of_lookup_2 _ i).
Qed.

(** The disk writes of a commit over the contents [D]. *)
Definition commit_writes (D : gmap (Z * Z) memory) (st : Z) (secs : list Z) : list (Z * Z * memory) :=
  let h := head_data secs (D !!! (1, st)) in
  (1, st, h) :: home_writes D st secs ++ [(1, st, head_data [] h)].

(** The disk writes of the recovery. *)
Definition recovery_writes (D : gmap (Z * Z) memory) (st : Z) (secs : list Z) : list (Z * Z * memory) :=
  home_writes D st secs ++ [(1, st, head_data [] (D !!! (1, st)))].

Lemma home_writes_ext D D' st secs :
  (∀ i, (i < length secs)%nat → D !!! (1, st + Z.of_nat i + 1) = D' !!! (1, st + Z.of_nat i + 1)) →
  home_writes D st secs = home_writes D' st secs.
Proof.
  intros E. unfold home_writes. apply imap_ext. intros i x Hi. by rewrite E by (by eapply lookup_lt_Some).
Qed.

Lemma home_writes_keep D' D st secs x :
  homes_ok st secs → in_log st x → apply_writes (home_writes D' st secs) D !!! (1, x) = D !!! (1, x).
Proof.
  intros [_ Hh] Hx. apply apply_writes_ne. rewrite home_writes_addr.
  intros (y & [= <-] & Hy)%list_elem_of_fmap. by apply Hh in Hy as [_ ?].
Qed.

Section boot.
Context `{KEnv}.
Hypothesis Hmagic : ks_magic = KSTACK_MAGIC.

Lemma pins_empty_clean s sec : pins s ∅ [] → clean s sec.
Proof. intros Hp. apply (pins_clean s ∅ []); [done|apply lookup_empty|by intros b ?%elem_of_nil]. Qed.

Lemma pins_empty_room s : pins s ∅ [] → room s.
Proof. intros Hp. by apply (pins_room s ∅ []). Qed.

(** Install what the header lists, then clear it. *)
Lemma install_clear_runs s st secs T :
  log_at s st → hdr_is s secs → homes_ok st secs → pins (l_bc s) T [] →
  (∀ x, is_Some (T !! x) → x ∈ secs) → Z.of_nat (size T) < NBUF →
  (∀ x, x ∈ secs → is_Some (T !! x) ∨ Z.of_nat (size T) + 1 < NBUF) →
  let ws := recovery_writes (d_disk (l_bc s)) st secs in
  runs (install_trans ;;; modify (set_lh_n 0) ;;; write_head) s (λ _ s', ∃ c,
    s' = set_lh_n 0 (set_l_bc c s) ∧ pins c ∅ [] ∧
    d_disk c = apply_writes ws (d_disk (l_bc s)) ∧ d_writes c = d_writes (l_bc s) ++ ws).
Proof.
  intros Hlog Hhdr Hho Hp Hdom Hsz Hroom ws. eapply runs_bind_mono; [by eapply install_trans_runs|].
  intros [] t (c & -> & Hpc & Hdk & Hwr). eapply runs_bind_eq; [reflexivity|].
  pose proof Hlog as [Hdv Hst Hr]. unfold LOGSIZE in Hr.
  eapply runs_mono.
  { apply (write_head_runs Hmagic (set_lh_n 0 (set_l_bc c s)) st []).
    - by constructor.
    - by constructor.
    - apply Hpc.
    - by apply pins_empty_clean.
    - by apply pins_empty_room. }
  intros [] t (c' & -> & Hw). exists c'. split; [done|]. change (l_bc (set_lh_n 0 (set_l_bc c s))) with c in Hw.
  assert (d_disk c !!! (1, st) = d_disk (l_bc s) !!! (1, st)) as Eh.
  { rewrite Hdk. apply home_writes_keep; [done|]. unfold in_log, LOGSIZE. lia. }
  split; [by eapply pins_wrote|]. destruct Hw as [_ Hd' Hw' _ _]. rewrite Eh in Hd', Hw'. unfold ws, recovery_writes.
  rewrite apply_writes_app, <- Hdk, Hd', Hw', Hwr, <- app_assoc. done.
Qed.

(** The same after the header has been written. *)
Lemma commit_body_runs s st secs T :
  trans s st secs T → Z.of_nat (length secs) < NBUF →
  let ws := commit_writes (d_disk (l_bc s)) st secs in
  runs (write_head ;;; install_trans ;;; modify (set_lh_n 0) ;;; write_head) s (λ _ s', ∃ c,
    s' = set_lh_n 0 (set_l_bc c s) ∧ pins c ∅ [] ∧
    d_disk c = apply_writes ws (d_disk (l_bc s)) ∧ d_writes c = d_writes (l_bc s) ++ ws).
Proof.
  intros [Hlg Hp Hbusy Hlk] Hlen ws. pose proof Hlg as [Hlog Hsize Hhdr Hho Hdom Hszl Hslot].
  pose proof Hlog as [_ _ Hr]. unfold LOGSIZE in Hr.
  assert (in_log st st) as Hin by (unfold in_log, LOGSIZE; lia).
  assert (T !! st = None) as HTst.
  { apply eq_None_not_Some. intros Hx. by apply (lo_outside _ _ _ _ _ Hlg Hx). }
  eapply runs_bind_mono.
  { apply (write_head_runs Hmagic s st secs Hlog Hhdr); [apply Hp| |].
    - by apply (pins_clean _ T []); [| |intros b ?%elem_of_nil].
    - apply (pins_room _ T []); [done|]. rewrite Hszl. simpl. lia. }
  intros [] t (c & -> & Hw). pose proof (pins_wrote _ _ _ _ _ _ Hp Hw) as Hpc.
  eapply runs_mono.
  { apply (install_clear_runs (set_l_bc c s) st secs T); try done.
    - by destruct Hlog.
    - by destruct Hhdr.
    - by rewrite Hszl.
    - intros x [i Hi]%list_elem_of_lookup. left. rewrite (Hslot _ _ Hi). by eexists. }
  intros [] t (c' & -> & Hpc' & Hd & Hwr). change (l_bc (set_l_bc c s)) with c in Hd, Hwr.
  exists c'. split; [done|]. split; [done|]. destruct Hw as [_ Hd1 Hw1 _ _].
  assert (recovery_writes (d_disk c) st secs = tail ws) as E.
  { unfold recovery_writes, ws, commit_writes. simpl. rewrite Hd1, lookup_total_insert_eq. f_equal.
    apply home_writes_ext. intros i _. rewrite lookup_total_insert_ne; [done|]. intros [= ?]. lia. }
  rewrite Hd, Hwr, E, Hw1, Hd1, <- app_assoc. done.
Qed.

Lemma commit_runs s st secs T :
  trans s st secs T → secs ≠ [] → Z.of_nat (length secs) < NBUF →
  let ws := commit_writes (d_disk (l_bc s)) st secs in
  runs commit_trans s (λ _ s', ∃ c,
    s' = set_log_lock Spinlock.free_lk (set_log_busy 0 (set_lh_n 0 (set_l_bc c s))) ∧ pins c ∅ [] ∧
    d_disk c = apply_writes ws (d_disk (l_bc s)) ∧ d_writes c = d_writes (l_bc s) ++ ws).
Proof.
  intros Htr Hne Hlen ws. unfold commit_trans. eapply runs_bind_eq; [reflexivity|].
  pose proof Htr as [[_ _ [Hn _ _] _ _ _ _] _ _ Hlk]. rewrite Hn.
  assert (0 < Z.of_nat (length secs)) by (destruct secs; simpl; [done|lia]).
  rewrite Z.gtb_ltb, (proj2 (Z.ltb_lt _ _)) by lia. simpl when.
  eapply runs_bind_mono; [by eapply commit_body_runs|]. intros [] t (c & -> & Hpc & Hd & Hwr).
  eapply runs_bind_eq; [by apply fzoom_Ret, Spinlock.acquire_free|]. eapply runs_bind_eq; [reflexivity|].
  eapply runs_of_eq; [reflexivity|]. exists c. done.
Qed.

(** ** Recovery *)

Lemma superblock_runs s :
  pins s ∅ [] → let d := d_disk s !!! (1, 1) in
  runs (read_superblock ROOTDEV) s (λ sb s', sb_size sb = load32 d 0 ∧ sb_nblocks sb = load32 d 4 ∧
    sb_ninodes sb = load32 d 8 ∧ sb_nlog sb = load32 d 12 ∧
    pins s' ∅ [] ∧ d_disk s' = d_disk s ∧ d_writes s' = d_writes s).
Proof.
  intros Hp d. unfold read_superblock. change ROOTDEV with 1. eapply runs_bind_mono.
  { apply (read_clean Hmagic); [apply Hp|lia|by apply pins_empty_clean|by apply pins_empty_room]. }
  intros b s1 [Hev Hg]. eapply runs_bind_eq.
  { apply bget_run. pose proof (g_buf _ _ _ _ _ _ Hg) as Hb. unfold is_buf in Hb. lia. }
  rewrite (g_data _ _ _ _ _ _ Hg). eapply runs_bind_mono; [by apply (look_runs Hmagic s b 1)|].
  intros [] s2 (Hk & Hd & Hw). apply runs_ret. simpl. split_and!; try done. by eapply pins_kept.
Qed.

Lemma read_head_runs s st secs :
  log_at s st → pins (l_bc s) ∅ [] → disk_hdr (d_disk (l_bc s) !!! (1, st)) secs →
  runs read_head s (λ _ s', ∃ c m, s' = set_lh_sector m (set_lh_n (Z.of_nat (length secs)) (set_l_bc c s)) ∧
    hdr_is s' secs ∧ pins c ∅ [] ∧ d_disk c = d_disk (l_bc s) ∧ d_writes c = d_writes (l_bc s)).
Proof.
  intros [Hdv Hst Hr] Hp [Hn Hlen Hsec]. unfold LOGSIZE in Hr, Hlen. unfold read_head.
  eapply runs_bind_eq; [reflexivity|]. eapply runs_bind_eq; [reflexivity|].
  rewrite Hdv, Hst. change (u32 1) with 1. rewrite (u32_sector st) by lia. eapply runs_bind_mono.
  { apply runs_bc, (read_clean Hmagic); [apply Hp|lia|by apply pins_empty_clean|by apply pins_empty_room]. }
  intros b t (c & -> & Hev & Hg). eapply runs_bind_eq.
  { apply zoom_read, bget_run. pose proof (g_buf _ _ _ _ _ _ Hg) as Hb. unfold is_buf in Hb. lia. }
  change (lget (set_l_bc c s)) with c. rewrite (g_data _ _ _ _ _ _ Hg). set (d := d_disk (l_bc s) !!! (1, st)) in *.
  eapply runs_bind_eq; [reflexivity|]. eapply runs_bind_eq; [reflexivity|]. rewrite Hn.
  set (s1 := set_lh_n (Z.of_nat (length secs)) (set_l_bc c s)). change (lh_n s1) with (Z.of_nat (length secs)).
  eapply runs_bind_mono.
  { apply (for_runs (λ i t, ∃ m, t = set_lh_sector m s1 ∧
      ∀ j x, Z.of_nat j < i → secs !! j = Some x → m !!! Z.of_nat j = x)); [lia| |].
    - exists (lh_sector s1). split; [by destruct s|]. lia.
    - intros i t Hi (m & -> & Hm). eapply runs_of_eq; [apply awrite_in; unfold LOGSIZE; lia|].
      eexists. split; [reflexivity|]. intros j x Hj Hx. simpl. rewrite lookup_total_insert_dec.
      case_bool_decide as E; [rewrite E|by apply Hm; [lia|]]. by apply Hsec. }
  intros [] t (m & -> & Hm). eapply runs_mono; [by apply runs_bc, (look_runs Hmagic (l_bc s) b st)|].
  intros [] t (c' & -> & Hk & Hd & Hw). exists c', m. split; [done|]. split; [|split; [by eapply pins_kept|done]].
  constructor; [done|done|]. intros i x Hi. apply Hm; [|done]. apply lookup_lt_Some in Hi. lia.
Qed.

(** The log lies where the super block says. *)
Definition sb_at (D : gmap (Z * Z) memory) (st : Z) : Prop :=
  s32 (load32 (D !!! (1, 1)) 0 - load32 (D !!! (1, 1)) 12) = st ∧ 1 < st ∧ st + LOGSIZE + 1 < 2 ^ 28 ∧
  LOGSIZE ≤ s32 (load32 (D !!! (1, 1)) 12).

Lemma log_init_runs s st secs :
  pins (l_bc s) ∅ [] → sb_at (d_disk (l_bc s)) st → disk_hdr (d_disk (l_bc s) !!! (1, st)) secs →
  homes_ok st secs → let ws := recovery_writes (d_disk (l_bc s)) st secs in
  runs log_init s (λ _ s', logged s' st [] ∅ ∧ pins (l_bc s') ∅ [] ∧ log_busy s' = log_busy s ∧
    lock (log_lock s') = 0 ∧ d_disk (l_bc s') = apply_writes ws (d_disk (l_bc s)) ∧
    d_writes (l_bc s') = d_writes (l_bc s) ++ ws).
Proof.
  intros Hp (Hst & Hst1 & Hst2 & Hsz) Hdh Hho ws. unfold log_init.
  eapply runs_bind_eq; [by apply fzoom_Ret|]. set (s0 := set_log_lock _ s).
  eapply runs_bind_mono; [by apply runs_bc, superblock_runs|].
  change (l_bc s0) with (l_bc s).
  intros sb t (c & -> & E0 & _ & _ & E12 & Hpc & Hd & Hw). rewrite E0, E12, Hst.
  do 3 (eapply runs_bind_eq; [reflexivity|]).
  match goal with |- runs _ ?t _ => set (s1 := t) end. assert (log_at s1 st) as Hlog by by constructor.
  unfold recover_from_log. eapply runs_bind_mono.
  { apply (read_head_runs s1 st secs Hlog Hpc). change (l_bc s1) with c. by rewrite Hd. }
  intros [] t (c2 & m & Et & Hhdr & Hpc2 & Hd2 & Hw2). change (l_bc s1) with c in Hd2, Hw2.
  assert (l_bc t = c2) as Ebc by (by rewrite Et).
  eapply runs_mono.
  { apply (install_clear_runs t st secs ∅); rewrite ?Ebc; try done.
    - by rewrite Et.
    - by intros x [y Hy%lookup_empty_Some].
    - by right. }
  intros [] t' (c3 & -> & Hpc3 & Hd3 & Hw3). rewrite Ebc in Hd3, Hw3. simpl.
  rewrite Hd3, Hw3, Hd2, Hw2, Hd, Hw, Et. split; [|done]. constructor; try done.
  - split; [constructor|]. by intros x ?%elem_of_nil.
  - by intros x [y Hy%lookup_empty_Some].
Qed.

End boot.

(** ** Atomicity *)

Section atomic.
Context `{KEnv}.
Hypothesis Hmagic : ks_magic = KSTACK_MAGIC.

(** The part of the boot that concerns the disk: devinit.c, then proc_start_user. *)
Definition boot : M lg unit := zoom (bufcache_init ;;; ide_init) ;;; log_init.

Lemma boot_runs s st secs :
  disk_boot (l_bc s) → sb_at (d_disk (l_bc s)) st → disk_hdr (d_disk (l_bc s) !!! (1, st)) secs →
  homes_ok st secs → let ws := recovery_writes (d_disk (l_bc s)) st secs in
  runs boot s (λ _ s', logged s' st [] ∅ ∧ pins (l_bc s') ∅ [] ∧ log_busy s' = log_busy s ∧
    lock (log_lock s') = 0 ∧ d_disk (l_bc s') = apply_writes ws (d_disk (l_bc s)) ∧
    d_writes (l_bc s') = d_writes (l_bc s) ++ ws).
Proof.
  intros Hb Hsb Hdh Hho ws. unfold boot. eapply runs_bind_mono; [by apply runs_bc, (cache_init_runs)|].
  intros [] t (c & -> & Hok & Hd & Hw & Hfl).
  assert (pins c ∅ []) as Hp.
  { constructor; [done|..|by intros x d Hx%lookup_empty_Some]. intros b Hb' _ E.
    destruct (Hfl b Hb') as [Ef _]. by rewrite (evictable_fl c b false false false Ef) in E. }
  eapply runs_mono; [apply (log_init_runs Hmagic (set_l_bc c s) st secs); simpl; by rewrite ?Hd|].
  simpl. rewrite Hd, Hw. done.
Qed.

(** A boot that is stopped after some of its disk writes. *)
Definition stopped_boot (D D' : gmap (Z * Z) memory) : Prop :=
  ∃ t t' ws k, disk_boot (l_bc t) ∧ d_disk (l_bc t) = D ∧ boot t = Ret (tt, t') ∧
    d_writes (l_bc t') = d_writes (l_bc t) ++ ws ∧ D' = apply_writes (take k ws) D.

(** Equal blocks outside of the log. *)
Definition same_files (st : Z) (D F : gmap (Z * Z) memory) : Prop :=
  ∀ x, ¬ in_log st x → D !!! (1, x) = F !!! (1, x).

(** The next recovery leads to the files [F]. *)
Definition recovers_to (st : Z) (D F : gmap (Z * Z) memory) : Prop :=
  ∃ secs, sb_at D st ∧ disk_hdr (D !!! (1, st)) secs ∧ homes_ok st secs ∧ (1 ∉ secs) ∧
    same_files st (apply_writes (home_writes D st secs) D) F.

Lemma apply_writes_in ws D a d : NoDup ws.*1 → (a, d) ∈ ws → apply_writes ws D !!! a = d.
Proof.
  revert D. induction ws as [|w ws IH]; intros D; [by intros _ ?%elem_of_nil|]. simpl.
  intros [Hn Hnd]%NoDup_cons [<-|Hin]%elem_of_cons.
  - rewrite apply_writes_ne by done. by rewrite lookup_total_insert_eq.
  - by apply IH.
Qed.

Lemma home_writes_in D' D st secs i x :
  NoDup secs → secs !! i = Some x →
  apply_writes (home_writes D' st secs) D !!! (1, x) = D' !!! (1, st + Z.of_nat i + 1).
Proof.
  intros Hnd Hi. apply apply_writes_in.
  - rewrite home_writes_addr. apply NoDup_fmap_2; [|done]. by intros ? ? [= ?].
  - apply (list_elem_of_lookup_2 _ i). unfold home_writes. by rewrite list_lookup_imap, Hi.
Qed.

Lemma home_writes_out D' D st secs x :
  x ∉ secs → apply_writes (home_writes D' st secs) D !!! (1, x) = D !!! (1, x).
Proof.
  intros Hx. apply apply_writes_ne. rewrite home_writes_addr. by intros (y & [= <-] & ?)%list_elem_of_fmap.
Qed.

Lemma sb_at_ext D D' st : D !!! (1, 1) = D' !!! (1, 1) → sb_at D st → sb_at D' st.
Proof. unfold sb_at. by intros ->. Qed.

Lemma out_log st x : x < st → ¬ in_log st x.
Proof. unfold in_log. lia. Qed.

(** A cleared header. *)
Lemma recovers_none st D F :
  sb_at D st → hdr_n (D !!! (1, st)) = 0 → same_files st D F → recovers_to st D F.
Proof.
  intros Hsb Hn Hf. exists []. split; [done|]. split; [by constructor|].
  split; [split; [constructor|by intros x ?%elem_of_nil]|]. split; [apply not_elem_of_nil|done].
Qed.

(** Recovery may be interrupted, and started again. *)
Lemma recovers_prefix st D F secs k :
  sb_at D st → disk_hdr (D !!! (1, st)) secs → homes_ok st secs → 1 ∉ secs →
  same_files st (apply_writes (home_writes D st secs) D) F →
  recovers_to st (apply_writes (take k (recovery_writes D st secs)) D) F.
Proof.
  intros Hsb Hdh Hho H1 Hf. pose proof Hho as [Hnd Hh]. pose proof Hsb as (_ & Hst & _). unfold recovery_writes.
  destruct (decide (k ≤ length (home_writes D st secs))%nat) as [Hk|Hk].
  - rewrite take_app_le by done. rewrite take_home_writes. set (D' := apply_writes _ D).
    assert (∀ x, in_log st x → D' !!! (1, x) = D !!! (1, x)) as HD'.
    { intros x Hx. unfold D'. apply home_writes_keep; [|done]. split.
      - eapply sublist_NoDup; [exact Hnd|apply sublist_take].
      - intros y (i & Hi & _)%elem_of_take. by apply Hh, (list_elem_of_lookup_2 _ i). }
    assert (home_writes D' st secs = home_writes D st secs) as Ehw.
    { apply home_writes_ext. intros i Hi. apply HD'. pose proof (dh_len _ _ Hdh). unfold in_log. lia. }
    exists secs. split; [|split; [|split; [done|split; [done|]]]].
    + eapply sb_at_ext; [|done]. symmetry. apply home_writes_out. intros (i & Hi & _)%elem_of_take.
      by apply H1, (list_elem_of_lookup_2 _ i).
    + rewrite HD'; [done|]. unfold in_log, LOGSIZE. lia.
    + intros x Hx. rewrite <- (Hf x Hx), Ehw. destruct (decide (x ∈ secs)) as [[i Hi]%list_elem_of_lookup|Hn].
      * by rewrite !(home_writes_in _ _ _ _ i).
      * rewrite !home_writes_out by done. apply home_writes_out. intros (i & Hi & _)%elem_of_take.
        by apply Hn, (list_elem_of_lookup_2 _ i).
  - rewrite take_ge by (rewrite length_app; simpl; lia). rewrite apply_writes_app. simpl.
    apply recovers_none.
    + eapply sb_at_ext; [|done]. rewrite lookup_total_insert_ne by (intros [= ?]; lia). by rewrite home_writes_out.
    + rewrite lookup_total_insert_eq. by apply (head_data_n []).
    + intros x Hx. rewrite lookup_total_insert_ne; [by apply Hf|]. intros [= ->]. apply Hx. unfold in_log, LOGSIZE. lia.
Qed.

Lemma recovers_boot st D F t :
  recovers_to st D F → disk_boot (l_bc t) → d_disk (l_bc t) = D →
  runs boot t (λ _ t', logged t' st [] ∅ ∧ pins (l_bc t') ∅ [] ∧ same_files st (d_disk (l_bc t')) F ∧
    hdr_n (d_disk (l_bc t') !!! (1, st)) = 0 ∧
    ∃ ws, d_writes (l_bc t') = d_writes (l_bc t) ++ ws ∧ ∀ k, recovers_to st (apply_writes (take k ws) D) F).
Proof.
  intros (secs & Hsb & Hdh & Hho & H1 & Hf) Hb <-. pose proof Hsb as (_ & Hst & _).
  eapply runs_mono; [by apply (boot_runs t st secs)|].
  intros [] t' (Hlg & Hp & _ & _ & Hd & Hw). split; [done|]. split; [done|]. rewrite Hd. unfold recovery_writes.
  rewrite apply_writes_app. simpl. split; [|split].
  - intros x Hx. rewrite lookup_total_insert_ne; [by apply Hf|]. intros [= ->]. apply Hx. unfold in_log, LOGSIZE. lia.
  - rewrite lookup_total_insert_eq. by apply (head_data_n []).
  - eexists. split; [exact Hw|]. intros k. by apply recovers_prefix.
Qed.

Lemma recovers_stopped st D F D' : recovers_to st D F → rtc stopped_boot D D' → recovers_to st D' F.
Proof.
  intros Hr Hrtc. revert Hr. induction Hrtc as [|D D1 D2 (t & t' & ws & k & Hb & Hd & Hboot & Hw & ->) _ IH]; [done|].
  intros Hr. apply IH. pose proof (recovers_boot st D F t Hr Hb Hd) as Hruns.
  destruct (runs_elim _ _ _ _ _ Hruns Hboot) as (_ & _ & _ & _ & ws' & Hw' & Hk).
  rewrite Hw in Hw'. apply app_inv_head in Hw' as ->. apply Hk.
Qed.

(** No transaction is open. *)
Record quiet (s : lg) (st : Z) : Prop := {
  qu_logged : logged s st [] ∅;
  qu_pins : pins (l_bc s) ∅ [];
  qu_busy : log_busy s = 0;
  qu_lock : lock (log_lock s) = 0;
  qu_sb : sb_at (d_disk (l_bc s)) st;
  qu_hdr : hdr_n (d_disk (l_bc s) !!! (1, st)) = 0;
}.

Fixpoint updates (us : list (Z * memory)) : M lg unit :=
  match us with
  | [] => ret tt
  | u :: r => update u.1 u.2 ;;; updates r
  end.

(** A transaction that sets some blocks. *)
Definition transaction (us : list (Z * memory)) : M lg unit :=
  begin_trans ;;; updates us ;;; commit_trans.

(** The blocks of the file system: not the super block, not the log. *)
Definition fs_block (st : Z) (x : Z) : Prop := 0 ≤ x < 2 ^ 28 ∧ x ≠ 1 ∧ ¬ in_log st x.

(** The updates done at once, on the disk. *)
Definition direct (us : list (Z * memory)) : list (Z * Z * memory) := (λ u, (1, u.1, u.2)) <$> us.

Definition put_all (us : list (Z * memory)) (T : gmap Z memory) : gmap Z memory :=
  foldl (λ T u, <[u.1 := u.2]> T) T us.

Lemma put_all_dom us T x : is_Some (put_all us T !! x) → is_Some (T !! x) ∨ x ∈ us.*1.
Proof.
  revert T. induction us as [|u us IH]; intros T; simpl; [by left|]. intros [Hx|Hx]%IH; [|by right; right].
  destruct (decide (x = u.1)) as [->|Hn]; [by right; left|]. rewrite lookup_insert_ne in Hx by done. by left.
Qed.

Lemma put_all_direct (us : list (Z * memory)) (T : gmap Z memory) (D D' : gmap (Z * Z) memory) x :
  D' !!! (1, x) = default (D !!! (1, x)) (T !! x) →
  apply_writes (direct us) D' !!! (1, x) = default (D !!! (1, x)) (put_all us T !! x).
Proof.
  revert T D'. induction us as [|u us IH]; intros T D' E; simpl; [done|]. apply IH.
  destruct (decide (x = u.1)) as [->|Hn]; [by rewrite lookup_insert_eq, lookup_total_insert_eq|].
  rewrite lookup_insert_ne by done. by rewrite lookup_total_insert_ne by (intros [= ?]; congruence).
Qed.

(** Only slots of the log are written. *)
Definition slots (st : Z) (ws : list (Z * Z * memory)) : Prop :=
  Forall (λ w, ∃ sl, w.1 = (1, sl) ∧ st < sl ≤ st + LOGSIZE) ws.

Lemma slots_keep st ws D x : slots st ws → ¬ st < x ≤ st + LOGSIZE → apply_writes ws D !!! (1, x) = D !!! (1, x).
Proof.
  intros Hs Hx. apply apply_writes_ne. intros (w & E & Hw)%list_elem_of_fmap.
  apply (proj1 (Forall_forall _ _) Hs) in Hw as (sl & Ew & Hsl). rewrite Ew in E. injection E as ->. done.
Qed.

Lemma updates_runs us s st secs T :
  trans s st secs T → Forall (λ u, fs_block st u.1) us → Z.of_nat (length secs + length us) < NBUF →
  runs (updates us) s (λ _ s', ∃ secs' ws, trans s' st secs' (put_all us T) ∧ slots st ws ∧
    (length secs' ≤ length secs + length us)%nat ∧
    d_disk (l_bc s') = apply_writes ws (d_disk (l_bc s)) ∧ d_writes (l_bc s') = d_writes (l_bc s) ++ ws).
Proof.
  revert s secs T. induction us as [|u us IH]; intros s secs T Htr Hf Hl; simpl updates.
  { apply runs_ret. exists secs, []. rewrite app_nil_r. split; [done|]. split; [constructor|].
    split; [lia|done]. }
  apply Forall_cons in Hf as [(Hx & _ & Hxl) Hf]. simpl in Hl. unfold NBUF in Hl.
  eapply runs_bind_mono; [apply (update_runs Hmagic s st secs T); [done..|unfold LOGSIZE; lia]|].
  intros [] s1 (secs1 & sl & Htr1 & Hle & Hsl & Hd1 & Hw1).
  eapply runs_mono; [apply (IH s1 secs1 _ Htr1 Hf); unfold NBUF; lia|].
  intros [] s2 (secs2 & ws & Htr2 & Hws & Hle2 & Hd2 & Hw2). exists secs2, ((1, sl, u.2) :: ws).
  split; [done|]. split; [constructor; [by exists sl|done]|]. split; [simpl; lia|].
  rewrite Hd2, Hw2, Hd1, Hw1, <- app_assoc. done.
Qed.

(** The disk when all blocks of the log are at their homes. *)
Lemma commit_disk s st secs T x :
  logged s st secs T → ¬ in_log st x →
  apply_writes (commit_writes (d_disk (l_bc s)) st secs) (d_disk (l_bc s)) !!! (1, x) = view (l_bc s) T x.
Proof.
  intros [[_ _ Hr] _ [_ Hlen _] [Hnd Hho] Hdom _ Hslot] Hx. unfold commit_writes.
  assert (∀ (D : gmap (Z * Z) memory) d, <[(1, st) := d]> D !!! (1, x) = D !!! (1, x)) as Est.
  { intros D d. apply lookup_total_insert_ne. intros [= ->]. apply Hx. unfold in_log, LOGSIZE. lia. }
  simpl. rewrite apply_writes_app. simpl. rewrite Est. unfold view.
  destruct (decide (x ∈ secs)) as [[i Hi]%list_elem_of_lookup|Hn].
  - rewrite (home_writes_in _ _ _ _ i x) by done. by rewrite (Hslot i x Hi).
  - rewrite home_writes_out, Est by done. destruct (T !! x) eqn:E; [|done]. destruct Hn. apply Hdom. by eexists.
Qed.

(** The header of the commit makes the transaction permanent. *)
Lemma committed_view s st secs T D F :
  logged s st secs T → sb_at D st → (1 ∉ secs) →
  (∀ x, ¬ st < x ≤ st + LOGSIZE → d_disk (l_bc s) !!! (1, x) = D !!! (1, x)) →
  (∀ x, ¬ in_log st x → F !!! (1, x) = view (l_bc s) T x) → ∀ k, (0 < k)%nat →
  recovers_to st (apply_writes (take k (commit_writes (d_disk (l_bc s)) st secs)) (d_disk (l_bc s))) F.
Proof.
  intros Hlg Hsb H1 HD HF [|k] Hk; [lia|]. pose proof Hlg as [Hlog _ Hhdr Hho _ _ _]. set (D1 := d_disk (l_bc s)) in *.
  assert (∀ x, ¬ in_log st x → apply_writes (commit_writes D1 st secs) D1 !!! (1, x) = F !!! (1, x)) as Hcd
    by (intros x Hx; rewrite HF by done; by apply commit_disk).
  revert Hcd. unfold commit_writes. set (h := head_data secs _). simpl. set (D2 := <[(1, st) := h]> D1). intros Hcd.
  pose proof Hlog as [_ _ [Hst Hst2]]. pose proof (hi_len _ _ Hhdr) as Hlen.
  assert (home_writes D1 st secs ++ [(1, st, head_data [] h)] = recovery_writes D2 st secs) as Ew.
  { unfold recovery_writes, D2. rewrite lookup_total_insert_eq. f_equal. apply home_writes_ext.
    intros i _. rewrite lookup_total_insert_ne by (intros [= ?]; lia). done. }
  rewrite Ew in *. apply recovers_prefix; [|unfold D2; rewrite lookup_total_insert_eq; by apply (head_data_hdr st)|done|done|].
  - eapply sb_at_ext; [|done]. unfold D2. rewrite lookup_total_insert_ne by (intros [= ?]; lia). symmetry. apply HD. lia.
  - intros x Hx. rewrite <- Hcd by done. unfold recovery_writes. rewrite apply_writes_app. simpl.
    rewrite lookup_total_insert_ne; [done|]. intros [= ->]. apply Hx. unfold in_log, LOGSIZE. lia.
Qed.

Lemma committed_recovers s st secs us D :
  trans s st secs (put_all us ∅) → sb_at D st → Forall (λ u, fs_block st u.1) us →
  (∀ x, ¬ st < x ≤ st + LOGSIZE → d_disk (l_bc s) !!! (1, x) = D !!! (1, x)) → ∀ k, (0 < k)%nat →
  recovers_to st (apply_writes (take k (commit_writes (d_disk (l_bc s)) st secs)) (d_disk (l_bc s)))
    (apply_writes (direct us) D).
Proof.
  intros [Hlg _ _ _] Hsb Hus HD. apply (committed_view s st secs (put_all us ∅) D); try done.
  - intros [i Hi]%list_elem_of_lookup. pose proof (lo_slot _ _ _ _ Hlg i 1 Hi) as E.
    destruct (put_all_dom us ∅ 1) as [[? ?%lookup_empty_Some]|Hin]; [by eexists|done|].
    apply list_elem_of_fmap in Hin as (u & E1 & Hin). apply (proj1 (Forall_forall _ _) Hus) in Hin as (_ & ? & _). done.
  - intros x Hx. rewrite (put_all_direct us ∅ D D x) by (by rewrite lookup_empty). unfold view.
    rewrite HD; [done|]. intros ?. apply Hx. unfold in_log. lia.
Qed.

(** What is on the disk after some of the writes of a transaction. *)
Lemma transaction_recovers s1 st secs us D sls k :
  sb_at D st → hdr_n (D !!! (1, st)) = 0 → Forall (λ u, fs_block st u.1) us →
  slots st sls → trans s1 st secs (put_all us ∅) → d_disk (l_bc s1) = apply_writes sls D →
  let ws := sls ++ commit_writes (d_disk (l_bc s1)) st secs in
  let D' := apply_writes (take k ws) D in
  (k ≤ length sls)%nat ∧ recovers_to st D' D ∨ (length sls < k)%nat ∧ recovers_to st D' (apply_writes (direct us) D).
Proof.
  intros Hsb Hh0 Hus Hsl Htr Hd1 ws D'. destruct (decide (k ≤ length sls)%nat) as [Hk|Hk]; [left|right].
  - split; [done|]. unfold D', ws. rewrite take_app_le by done.
    assert (slots st (take k sls)) as Hsl' by (by apply Forall_take). pose proof Hsb as (_ & Hst & _).
    assert (∀ x, ¬ st < x ≤ st + LOGSIZE → apply_writes (take k sls) D !!! (1, x) = D !!! (1, x)) as E
      by (intros x Hx; by apply (slots_keep st)).
    apply recovers_none; [eapply sb_at_ext; [symmetry; apply E; lia|done]|rewrite E by lia; done|].
    intros x Hx. apply E. intros ?. apply Hx. unfold in_log. lia.
  - split; [lia|]. unfold D', ws. rewrite take_app_ge by lia. rewrite apply_writes_app, <- Hd1.
    apply committed_recovers; [done|done|done| |lia]. intros x Hx. rewrite Hd1. by apply (slots_keep st).
Qed.

Lemma begin_runs s st :
  quiet s st → runs begin_trans s (λ _ s', trans s' st [] ∅ ∧ l_bc s' = l_bc s).
Proof.
  intros [Hlg Hp Hbusy Hlk Hsb Hh0]. unfold begin_trans.
  eapply runs_bind_eq; [by apply fzoom_Ret, Spinlock.acquire_free|]. eapply runs_bind_eq; [reflexivity|].
  change (log_busy (set_log_lock _ s)) with (log_busy s). rewrite Hbusy. kif.
  eapply runs_of_eq; [reflexivity|]. split; [|done].
  destruct Hlg as [[] ? [] ? ? ? ?]; constructor; [|done|done|done]; constructor; [by constructor|done|by constructor|done..].
Qed.

Lemma commit_quiet s1 st secs us D c ws :
  trans s1 st secs (put_all us ∅) → sb_at D st → Forall (λ u, fs_block st u.1) us →
  (∀ x, ¬ st < x ≤ st + LOGSIZE → d_disk (l_bc s1) !!! (1, x) = D !!! (1, x)) →
  ws = commit_writes (d_disk (l_bc s1)) st secs → pins c ∅ [] → d_disk c = apply_writes ws (d_disk (l_bc s1)) →
  quiet (set_log_lock Spinlock.free_lk (set_log_busy 0 (set_lh_n 0 (set_l_bc c s1)))) st ∧
  same_files st (d_disk c) (apply_writes (direct us) D).
Proof.
  intros Htr Hsb Hus HD -> Hp Hd.
  destruct (committed_recovers s1 st secs us D Htr Hsb Hus HD (length (commit_writes (d_disk (l_bc s1)) st secs)))
    as (secs' & Hsb' & Hdh & _ & _ & Hf); [simpl; lia|]. rewrite firstn_all, <- Hd in Hsb', Hdh, Hf.
  assert (hdr_n (d_disk c !!! (1, st)) = 0) as Hn0.
  { rewrite Hd. unfold commit_writes. simpl. rewrite apply_writes_app. simpl. rewrite lookup_total_insert_eq.
    by apply (head_data_n []). }
  destruct Hdh as [Hn _ _]. rewrite Hn0 in Hn. destruct secs'; [|done]. split; [|exact Hf].
  destruct Htr as [[[] ? [] ? ? ? ?] _ _ _]. constructor; try done. constructor; try done.
  - split; [constructor|by intros x ?%elem_of_nil].
  - by intros x [y Hy%lookup_empty_Some].
Qed.

(** C6: a transaction of fewer than [NBUF] block updates terminates with the updates on
    the disk, and it is atomic: wherever its disk writes stop, and however often the
    recovery of the next boots is stopped as well, the boot that completes finds all
    blocks outside of the log either as before the transaction or with all its updates. *)
Theorem transaction_atomic us s st :
  quiet s st → Forall (λ u, fs_block st u.1) us → us ≠ [] → Z.of_nat (length us) < NBUF →
  let D := d_disk (l_bc s) in
  runs (transaction us) s (λ _ s', quiet s' st ∧ same_files st (d_disk (l_bc s')) (apply_writes (direct us) D) ∧
    ∃ ws, d_writes (l_bc s') = d_writes (l_bc s) ++ ws ∧ d_disk (l_bc s') = apply_writes ws D ∧
    ∀ k D' t, rtc stopped_boot (apply_writes (take k ws) D) D' → disk_boot (l_bc t) → d_disk (l_bc t) = D' →
      runs boot t (λ _ t', pins (l_bc t') ∅ [] ∧ hdr_n (d_disk (l_bc t') !!! (1, st)) = 0 ∧
        (same_files st (d_disk (l_bc t')) D ∨
         same_files st (d_disk (l_bc t')) (apply_writes (direct us) D)))).
Proof.
  intros Hq Hus Hne Hlen D. pose proof Hq as [_ _ _ _ Hsb Hh0]. fold D in Hsb, Hh0. unfold transaction.
  eapply runs_bind_mono; [by apply begin_runs|]. intros [] s0 [Htr0 E0].
  eapply runs_bind_mono; [by apply (updates_runs us s0 st [] ∅)|].
  intros [] s1 (secs & sls & Htr & Hsl & Hle & Hd1 & Hw1). rewrite E0 in Hd1, Hw1. fold D in Hd1. simpl in Hle.
  assert (∀ x, ¬ st < x ≤ st + LOGSIZE → d_disk (l_bc s1) !!! (1, x) = D !!! (1, x)) as Hkeep
    by (intros x Hx; rewrite Hd1; by apply (slots_keep st)).
  assert (secs ≠ []) as Hsecs.
  { destruct us as [|u us _] using rev_ind; [done|]. intros ->. pose proof (lo_len _ _ _ _ (tr_logged _ _ _ _ Htr)) as E.
    apply map_size_empty_inv in E. unfold put_all in E. rewrite foldl_app in E. simpl in E. by apply insert_non_empty in E. }
  eapply runs_mono; [apply (commit_runs Hmagic s1 st secs _ Htr Hsecs); lia|].
  intros [] s' (c & -> & Hp' & Hd' & Hw'). destruct (commit_quiet s1 st secs us D c _ Htr Hsb Hus Hkeep eq_refl Hp' Hd')
    as [Hq' Hf]. split; [done|]. split; [done|].
  exists (sls ++ commit_writes (d_disk (l_bc s1)) st secs). simpl.
  split; [by rewrite Hw', Hw1, app_assoc|]. split; [by rewrite apply_writes_app, <- Hd1|].
  intros k D' t Hst Hb Hd. destruct (transaction_recovers s1 st secs us D sls k) as [[_ Hr]|[_ Hr]]; [done..| |].
  - eapply runs_mono; [apply (recovers_boot st D' D t); [by eapply recovers_stopped|done|done]|]. naive_solver.
  - eapply runs_mono; [apply (recovers_boot st D' (apply_writes (direct us) D) t); [by eapply recovers_stopped|done|done]|].
    naive_solver.
Qed.

End atomic.

(** ** The buffer cache *)

Section cache_claim.
Context `{KEnv}.
Hypothesis Hmagic : ks_magic = KSTACK_MAGIC.

Lemma read_open_runs s T x :
  pins s T [] → T !! x = None → 0 ≤ x < 2 ^ 28 → Z.of_nat (size T) < NBUF →
  runs (bufcache_read 1 x) s (λ b s', evictable s b = true ∧ got x b false (d_disk s !!! (1, x)) s s').
Proof.
  intros Hp HT Hx Hsz. apply (read_clean Hmagic); [apply Hp|done| |].
  - by apply (pins_clean s T []); [| |intros b ?%elem_of_nil].
  - apply (pins_room s T []); [done|]. simpl. lia.
Qed.

(** C21: a block that is read through the cache, changed, written and released is on the
    disk with its new content, and is read again with that content, whichever buffer the
    cache chose for it; no other block changes, and the blocks [T] that a transaction
    keeps in the cache stay there. *)
Theorem bufcache_write_read s T x d :
  pins s T [] → T !! x = None → 0 ≤ x < 2 ^ 28 → Z.of_nat (size T) < NBUF →
  runs (let! b := bufcache_read 1 x in
        bmod b (set_b_data d) ;;;
        (bufcache_write b ;;; bufcache_release b) ;;;
        let! b' := bufcache_read 1 x in
        let! r := bget b' b_data in
        bufcache_release b' ;;;
        ret r) s
    (λ r s', r = d ∧ d_disk s' = <[(1, x) := d]> (d_disk s) ∧ d_writes s' = d_writes s ++ [(1, x, d)] ∧
      pins s' T []).
Proof.
  intros Hp HT Hx Hsz. eapply runs_bind_mono; [by apply (read_open_runs s T)|].
  intros b s1 [Hev Hg]. pose proof (g_buf _ _ _ _ _ _ Hg) as Hb. unfold is_buf in Hb.
  eapply runs_bind_eq; [apply bmod_run; lia|]. cbv beta.
  eapply runs_bind_mono; [by apply (finish_runs Hmagic s _ b x _ d s1 Hev Hg)|].
  intros [] s2 Hw. pose proof (pins_wrote _ _ _ _ _ _ Hp Hw) as Hp2. destruct Hw as [_ Hd2 Hw2 _ _].
  eapply runs_bind_mono; [by apply (read_open_runs s2 T)|].
  intros b' s3 [Hev' Hg']. pose proof (g_buf _ _ _ _ _ _ Hg') as Hb'. unfold is_buf in Hb'.
  eapply runs_bind_eq; [apply bget_run; lia|]. rewrite (g_data _ _ _ _ _ _ Hg').
  eapply runs_bind_mono; [by apply (look_runs Hmagic s2 b' x)|].
  intros [] s4 (Hk & Hd4 & Hw4). apply runs_ret. rewrite Hd4, Hw4, Hd2, Hw2, lookup_total_insert_eq.
  split; [done|]. split; [done|]. split; [done|]. by eapply pins_kept.
Qed.

End cache_claim.

(** ** An example disk *)

Definition demo_sb : memory := store32 12 10 (store32 8 200 (store32 0 1000 ∅)).
Definition zero_lk : spinlock_t := {| lock_holder := 0; lock := 0 |}.
Definition demo_bc : bc := {| d_disk := {[ (1, 1) := demo_sb ]}; d_writes := []; d_regs := ∅; d_fail := false;
  ide_lk := zero_lk; fs_lock := zero_lk; idequeue := NULL; havedisk1 := 0; bcache_lock := zero_lk; bufs := ∅ |}.
Definition demo_lg : lg := {| l_bc := demo_bc; log_lock := zero_lk; log_start := 0; log_size := 0;
  log_busy := 0; log_dev := 0; lh_n := 0; lh_sector := ∅ |}.

Lemma demo_quiet : ∃ s, @quiet s 990 ∧ d_disk (l_bc s) !!! (1, 5) = ∅.
Proof.
  assert (runs (@boot demo_env) demo_lg (λ _ s', quiet s' 990 ∧ d_disk (l_bc s') !!! (1, 5) = ∅)) as Hr.
  { eapply runs_mono; [apply (@boot_runs demo_env eq_refl demo_lg 990 [])|].
    - done.
    - vm_compute. split; [reflexivity|]. split; [reflexivity|]. split; [reflexivity|]. discriminate.
    - constructor; [reflexivity|vm_compute; discriminate|done].
    - split; [constructor|by intros x ?%elem_of_nil].
    - intros [] s' (Hlg & Hp & Hb & Hl & Hd & _). split; [|by rewrite Hd].
      constructor; [done|done|done|done|rewrite Hd|rewrite Hd; reflexivity].
      vm_compute. split; [reflexivity|]. split; [reflexivity|]. split; [reflexivity|]. discriminate. }
  destruct (proj1 (runs_eq _ _ _) Hr) as (_ & s' & _ & Hq). exists s'. exact Hq.
Qed.

Lemma transaction_atomic_witness : ∃ s, quiet s 990 ∧
  runs (@transaction demo_env [(5, demo_sb); (7, ∅); (5, ∅)]) s (λ _ s', quiet s' 990).
Proof.
  destruct demo_quiet as [s [Hq _]]. exists s. split; [done|]. eapply runs_mono.
  - apply (@transaction_atomic demo_env eq_refl); [done| |done|reflexivity].
    repeat constructor; simpl; unfold in_log; lia.
  - intros r s' Hr. exact (proj1 Hr).
Defined.

Lemma bufcache_write_read_witness : ∃ s, pins s ∅ [] ∧
  runs (let! b := @bufcache_read demo_env 1 5 in
        bmod b (set_b_data demo_sb) ;;;
        (@bufcache_write demo_env b ;;; @bufcache_release demo_env b) ;;;
        let! b' := @bufcache_read demo_env 1 5 in
        let! r := bget b' b_data in
        @bufcache_release demo_env b' ;;;
        ret r) s (λ r _, r = demo_sb).
Proof.
  destruct demo_quiet as [s [Hq _]]. exists (l_bc s). split; [apply Hq|]. eapply runs_mono.
  - apply (@bufcache_write_read demo_env eq_refl _ ∅); [apply Hq|done|done|done].
  - intros r s' Hr. exact (proj1 Hr).
Defined.
