(* ===== verification/Inode.v ===== *)
(** * Blocks and inodes

    kern/fs/block.c: the bitmap of the disk blocks.  kern/fs/inode.c: the inode cache,
    the inodes on the disk, and the contents of files.  A pointer to an inode is a
    number from 1 to [NINODE], its place in the cache; 0 is the null pointer. *)

From S2P Require Import Prelude Spinlock Mem DList Bufcache Log.

Definition NINODE : Z := 50.
Definition NDEV : Z := 10.
Definition ROOTINO : Z := 1.
Definition NDIRECT : Z := 12.
Definition NINDIRECT : Z := BSIZE / 4.
Definition MAXFILE : Z := NDIRECT + NINDIRECT.
Definition I_BUSY : Z := 1.
Definition I_VALID : Z := 2.
Definition T_DIR : Z := 1.
Definition T_FILE : Z := 2.
Definition T_DEV : Z := 3.

(** [struct dinode] has 64 bytes: four 16-bit fields, the size, 13 addresses. *)
Definition DINODE_SIZE : Z := 64.
Definition IPB : Z := BSIZE / DINODE_SIZE.
Definition BPB : Z := BSIZE * 8.
Definition IBLOCK (i : Z) : Z := u32 (i / IPB + 2).
Definition BBLOCK (b ninodes : Z) : Z := u32 (b / BPB + ninodes / IPB + 3).

Definition store16 (a v : Z) (m : memory) : memory := store8 (a + 1) (v / 256) (store8 a v m).

(** [memset] of a part of a block, and the bytes that [memmove] takes from one and puts
    into one. *)
Fixpoint fill (n : nat) (a v : Z) (m : memory) : memory :=
  match n with
  | O => m
  | S n' => fill n' (a + 1) v (store8 a v m)
  end.
Definition get_bytes (m : memory) (a n : Z) : list Z := (λ i, load8 m (a + i)) <$> seqZ 0 n.
Fixpoint put_bytes (a : Z) (l : list Z) (m : memory) : memory :=
  match l with
  | [] => m
  | x :: r => put_bytes (a + 1) r (store8 a x m)
  end.

(** [i_ref] is an [int] in the code.  The references are those of the open files, of the
    current directories of the threads and of the calls that run, some hundreds, so that
    it is not given its width here: it never comes near to an overflow. *)
Record inode := {
  i_dev : Z;
  i_inum : Z;
  i_ref : Z;
  i_flags : Z;
  i_type : Z;
  i_major : Z;
  i_minor : Z;
  i_nlink : Z;
  i_size : Z;
  i_addrs : gmap Z Z;
}.
#[global] Instance inode_inhabited : Inhabited inode := populate
  {| i_dev := 0; i_inum := 0; i_ref := 0; i_flags := 0; i_type := 0; i_major := 0; i_minor := 0;
     i_nlink := 0; i_size := 0; i_addrs := ∅ |}.

(** [f_ref] counts descriptors of threads and is an [int] in the code; it is small, like
    [i_ref]. *)
Record file := {
  f_type : Z;
  f_ref : Z;
  f_readable : Z;
  f_writable : Z;
  f_ip : Z;
  f_off : Z;
}.
#[global] Instance file_inhabited : Inhabited file := populate
  {| f_type := 0; f_ref := 0; f_readable := 0; f_writable := 0; f_ip := 0; f_off := 0 |}.

(** The state of the file system: the log and the buffer cache, the inode cache, and the
    table of open files (kern/fs/file.c). *)
Record fs := {
  f_lg : lg;
  icache_lock : spinlock_t;
  inodes : gmap Z inode;
  ftable_lock : spinlock_t;
  files : gmap Z file;
}.

Definition set_f_lg (v : lg) (s : fs) : fs := {| f_lg := v; icache_lock := icache_lock s;
  inodes := inodes s; ftable_lock := ftable_lock s; files := files s |}.
Definition set_icache_lock (v : spinlock_t) (s : fs) : fs := {| f_lg := f_lg s; icache_lock := v;
  inodes := inodes s; ftable_lock := ftable_lock s; files := files s |}.
Definition set_inodes (v : gmap Z inode) (s : fs) : fs := {| f_lg := f_lg s; icache_lock := icache_lock s;
  inodes := v; ftable_lock := ftable_lock s; files := files s |}.
Definition set_ftable_lock (v : spinlock_t) (s : fs) : fs := {| f_lg := f_lg s; icache_lock := icache_lock s;
  inodes := inodes s; ftable_lock := v; files := files s |}.
Definition set_files (v : gmap Z file) (s : fs) : fs := {| f_lg := f_lg s; icache_lock := icache_lock s;
  inodes := inodes s; ftable_lock := ftable_lock s; files := v |}.

#[global] Program Instance fs_lg_lens : Lens fs lg := {| lget := f_lg; lset := set_f_lg |}.
Next Obligation. done. Qed.
Next Obligation. by intros []. Qed.
Next Obligation. done. Qed.

#[global] Program Instance fs_bc_lens : Lens fs bc :=
  {| lget := λ s, l_bc (f_lg s); lset := λ c s, set_f_lg (set_l_bc c (f_lg s)) s |}.
Next Obligation. done. Qed.
Next Obligation. by intros [[] ? ? ? ?]. Qed.
Next Obligation. done. Qed.

Definition set_i_id (dev inum : Z) (x : inode) : inode := {| i_dev := dev; i_inum := inum; i_ref := i_ref x;
  i_flags := i_flags x; i_type := i_type x; i_major := i_major x; i_minor := i_minor x; i_nlink := i_nlink x;
  i_size := i_size x; i_addrs := i_addrs x |}.
Definition set_i_ref (v : Z) (x : inode) : inode := {| i_dev := i_dev x; i_inum := i_inum x; i_ref := v;
  i_flags := i_flags x; i_type := i_type x; i_major := i_major x; i_minor := i_minor x; i_nlink := i_nlink x;
  i_size := i_size x; i_addrs := i_addrs x |}.
Definition set_i_flags (v : Z) (x : inode) : inode := {| i_dev := i_dev x; i_inum := i_inum x; i_ref := i_ref x;
  i_flags := v; i_type := i_type x; i_major := i_major x; i_minor := i_minor x; i_nlink := i_nlink x;
  i_size := i_size x; i_addrs := i_addrs x |}.
Definition set_i_type (v : Z) (x : inode) : inode := {| i_dev := i_dev x; i_inum := i_inum x; i_ref := i_ref x;
  i_flags := i_flags x; i_type := v; i_major := i_major x; i_minor := i_minor x; i_nlink := i_nlink x;
  i_size := i_size x; i_addrs := i_addrs x |}.
Definition set_i_majmin (ma mi : Z) (x : inode) : inode := {| i_dev := i_dev x; i_inum := i_inum x;
  i_ref := i_ref x; i_flags := i_flags x; i_type := i_type x; i_major := ma; i_minor := mi;
  i_nlink := i_nlink x; i_size := i_size x; i_addrs := i_addrs x |}.
Definition set_i_nlink (v : Z) (x : inode) : inode := {| i_dev := i_dev x; i_inum := i_inum x; i_ref := i_ref x;
  i_flags := i_flags x; i_type := i_type x; i_major := i_major x; i_minor := i_minor x; i_nlink := v;
  i_size := i_size x; i_addrs := i_addrs x |}.
Definition set_i_size (v : Z) (x : inode) : inode := {| i_dev := i_dev x; i_inum := i_inum x; i_ref := i_ref x;
  i_flags := i_flags x; i_type := i_type x; i_major := i_major x; i_minor := i_minor x; i_nlink := i_nlink x;
  i_size := v; i_addrs := i_addrs x |}.
Definition set_i_addrs (v : gmap Z Z) (x : inode) : inode := {| i_dev := i_dev x; i_inum := i_inum x;
  i_ref := i_ref x; i_flags := i_flags x; i_type := i_type x; i_major := i_major x; i_minor := i_minor x;
  i_nlink := i_nlink x; i_size := i_size x; i_addrs := v |}.

Section ops.
Context `{KEnv}.

(** ** block.c *)

Definition block_zero (dev bno : Z) : M lg unit :=
  let! bp := zoom (bufcache_read dev bno) in
  zoom (bmod bp (λ x, set_b_data (fill (Z.to_nat BSIZE) 0 0 (b_data x)) x)) ;;;
  log_write bp ;;;
  zoom (bufcache_release bp).

(** The number of bitmap blocks that the outer loop of [block_alloc] visits; [b] is
    [BPB * k] in its iteration [k]. *)
Definition bitmap_blocks (size : Z) : Z := (size + BPB - 1) / BPB.

Definition block_alloc (dev : Z) : M lg Z :=
  let! sb := zoom (read_superblock dev) in
  let! r := for_exit 0 (bitmap_blocks (sb_size sb)) (λ k,
    let b := BPB * k in
    let! bp := zoom (bufcache_read dev (BBLOCK b (sb_ninodes sb))) in
    let! r := for_exit 0 (min BPB (sb_size sb - b)) (λ bi,
      let m := Z.shiftl 1 (bi mod 8) in
      let! d := zoom (bget bp b_data) in
      if Z.land (load8 d (bi / 8)) m =? 0 then
        zoom (bmod bp (λ x, set_b_data (store8 (bi / 8) (Z.lor (load8 (b_data x) (bi / 8)) m) (b_data x)) x)) ;;;
        log_write bp ;;;
        zoom (bufcache_release bp) ;;;
        block_zero dev (u32 (b + bi)) ;;;
        ret (Some (b + bi))
      else ret None) in
    match r with
    | Some v => ret (Some v)
    | None => zoom (bufcache_release bp) ;;; ret None
    end) in
  match r with
  | Some v => ret (u32 v)
  | None => KERN_PANIC ;;; ret 0
  end.

Definition block_free (dev b : Z) : M lg unit :=
  let! sb := zoom (read_superblock dev) in
  let! bp := zoom (bufcache_read dev (BBLOCK b (sb_ninodes sb))) in
  let bi := b mod BPB in
  let m := Z.shiftl 1 (bi mod 8) in
  let! d := zoom (bget bp b_data) in
  when (Z.land (load8 d (bi / 8)) m =? 0) KERN_PANIC ;;;
  zoom (bmod bp (λ x,
    set_b_data (store8 (bi / 8) (Z.land (load8 (b_data x) (bi / 8)) (Z.lnot m)) (b_data x)) x)) ;;;
  log_write bp ;;;
  zoom (bufcache_release bp).

(** ** inode.c *)

Definition iget {A} (ip : Z) (f : inode → A) : M fs A :=
  let! x := aread NINODE inodes (ip - 1) in ret (f x).
Definition imod (ip : Z) (f : inode → inode) : M fs unit := amod NINODE inodes set_inodes (ip - 1) f.

Definition icache_acquire : M fs unit := fzoom icache_lock set_icache_lock Spinlock.spinlock_acquire.
Definition icache_release : M fs unit := fzoom icache_lock set_icache_lock Spinlock.spinlock_release.

Definition inode_init : M fs unit := fzoom icache_lock set_icache_lock Spinlock.spinlock_init.

(** The scan of [inode_get]: the entry, or the first empty one. *)
Definition icache_scan (dev inum : Z) (fuel : nat) (l : Z * Z) : M fs (Z + Z) :=
  loop fuel (λ '(i, empty),
    if i <? NINODE then
      let! x := aread NINODE inodes i in
      if (i_ref x >? 0) && (i_dev x =? dev) && (i_inum x =? inum) then ret (inr (inl (i + 1)))
      else ret (inl (i + 1, if (empty =? 0) && (i_ref x =? 0) then i + 1 else empty))
    else ret (inr (inr empty))) l.

Definition inode_get (dev inum : Z) : M fs Z :=
  icache_acquire ;;;
  let! r := icache_scan dev inum (Z.to_nat NINODE + 1) (0, 0) in
  match r with
  | inl ip =>
    imod ip (λ x, set_i_ref (i_ref x + 1) x) ;;;
    icache_release ;;;
    ret ip
  | inr empty =>
    when (empty =? 0) KERN_PANIC ;;;
    imod empty (λ x, set_i_flags 0 (set_i_ref 1 (set_i_id dev inum x))) ;;;
    icache_release ;;;
    ret empty
  end.

(** The address of a [struct dinode] in its block. *)
Definition dip (inum : Z) : Z := inum mod IPB * DINODE_SIZE.

Definition inode_alloc (dev type : Z) : M fs Z :=
  let! sb := zoom (read_superblock dev) in
  let! r := for_exit 1 (sb_ninodes sb) (λ inum,
    let! bp := zoom (bufcache_read dev (IBLOCK inum)) in
    let! d := zoom (bget bp b_data) in
    if s16 (load16 d (dip inum)) =? 0 then
      zoom (bmod bp (λ x, set_b_data (store16 (dip inum) type
        (fill (Z.to_nat DINODE_SIZE) (dip inum) 0 (b_data x))) x)) ;;;
      zoom (log_write bp) ;;;
      zoom (bufcache_release bp) ;;;
      let! ip := inode_get dev inum in
      ret (Some ip)
    else
      zoom (bufcache_release bp) ;;;
      ret None) in
  match r with
  | Some ip => ret ip
  | None => KERN_PANIC ;;; ret 0
  end.

(** The fields of an inode, to and from its block. *)
Definition put_dinode (x : inode) (d : memory) : memory :=
  let a := dip (i_inum x) in
  let d := store32 (a + 8) (i_size x) (store16 (a + 6) (i_nlink x) (store16 (a + 4) (i_minor x)
    (store16 (a + 2) (i_major x) (store16 a (i_type x) d)))) in
  foldl (λ d i, store32 (a + 12 + 4 * i) (i_addrs x !!! i) d) d (seqZ 0 (NDIRECT + 1)).
Definition get_dinode (d : memory) (x : inode) : inode :=
  let a := dip (i_inum x) in
  {| i_dev := i_dev x; i_inum := i_inum x; i_ref := i_ref x; i_flags := i_flags x;
     i_type := s16 (load16 d a); i_major := s16 (load16 d (a + 2)); i_minor := s16 (load16 d (a + 4));
     i_nlink := s16 (load16 d (a + 6)); i_size := load32 d (a + 8);
     i_addrs := foldl (λ m i, <[i := load32 d (a + 12 + 4 * i)]> m) (i_addrs x) (seqZ 0 (NDIRECT + 1)) |}.

Definition inode_update (ip : Z) : M fs unit :=
  let! x := iget ip id in
  let! bp := zoom (bufcache_read (i_dev x) (IBLOCK (i_inum x))) in
  zoom (bmod bp (λ b, set_b_data (put_dinode x (b_data b)) b)) ;;;
  zoom (log_write bp) ;;;
  zoom (bufcache_release bp).

Definition inode_dup (ip : Z) : M fs Z :=
  icache_acquire ;;;
  imod ip (λ x, set_i_ref (i_ref x + 1) x) ;;;
  icache_release ;;;
  ret ip.

(** A busy inode is waited for: another thread unlocks it, or nobody does. *)
Definition inode_lock (ip : Z) : M fs unit :=
  (if ip =? 0 then KERN_PANIC else let! r := iget ip i_ref in when (r <? 1) KERN_PANIC) ;;;
  icache_acquire ;;;
  let! fl := iget ip i_flags in
  if nz (Z.land fl I_BUSY) then hang
  else
    imod ip (λ x, set_i_flags (Z.lor (i_flags x) I_BUSY) x) ;;;
    icache_release ;;;
    let! x := iget ip id in
    when (negb (nz (Z.land (i_flags x) I_VALID)))
      (let! bp := zoom (bufcache_read (i_dev x) (IBLOCK (i_inum x))) in
       let! d := zoom (bget bp b_data) in
       imod ip (get_dinode d) ;;;
       zoom (bufcache_release bp) ;;;
       imod ip (λ x, set_i_flags (Z.lor (i_flags x) I_VALID) x) ;;;
       let! ty := iget ip i_type in
       when (ty =? 0) KERN_PANIC).

Definition inode_unlock (ip : Z) : M fs unit :=
  (if ip =? 0 then KERN_PANIC
   else let! x := iget ip id in
        when (negb (nz (Z.land (i_flags x) I_BUSY)) || (i_ref x <? 1)) KERN_PANIC) ;;;
  icache_acquire ;;;
  imod ip (λ x, set_i_flags (Z.land (i_flags x) (Z.lnot I_BUSY)) x) ;;;
  icache_release.                                 (* thread_wakeup(ip) *)

(** *** Contents *)

Definition addr_get (ip i : Z) : M fs Z :=
  let! a := iget ip i_addrs in
  if inb (NDIRECT + 1) i then ret (a !!! i) else fault.
Definition addr_set (ip i v : Z) : M fs unit :=
  if inb (NDIRECT + 1) i then imod ip (λ x, set_i_addrs (<[i := v]> (i_addrs x)) x) else fault.

(** [if ((addr = ip->addrs[i]) == 0) ip->addrs[i] = addr = block_alloc(ip->dev)] *)
Definition addr_or_alloc (ip i : Z) : M fs Z :=
  let! addr := addr_get ip i in
  if addr =? 0 then
    let! dev := iget ip i_dev in
    let! addr := zoom (block_alloc dev) in
    addr_set ip i addr ;;;
    ret addr
  else ret addr.

Definition bmap (ip bn : Z) : M fs Z :=
  if bn <? NDIRECT then addr_or_alloc ip bn
  else
    let bn := bn - NDIRECT in
    if bn <? NINDIRECT then
      let! addr := addr_or_alloc ip NDIRECT in
      let! dev := iget ip i_dev in
      let! bp := zoom (bufcache_read dev addr) in
      let! d := zoom (bget bp b_data) in
      let! addr :=
        (if load32 d (4 * bn) =? 0 then
           let! dev := iget ip i_dev in
           let! addr := zoom (block_alloc dev) in
           zoom (bmod bp (λ x, set_b_data (store32 (4 * bn) addr (b_data x)) x)) ;;;
           zoom (log_write bp) ;;;
           ret addr
         else ret (load32 d (4 * bn))) in
      zoom (bufcache_release bp) ;;;
      ret addr
    else KERN_PANIC ;;; ret 0.

Definition inode_trunc (ip : Z) : M fs unit :=
  for_ 0 NDIRECT (λ i,
    let! a := addr_get ip i in
    when (nz a)
      (let! dev := iget ip i_dev in
       zoom (block_free dev a) ;;;
       addr_set ip i 0)) ;;;
  let! a := addr_get ip NDIRECT in
  when (nz a)
    (let! dev := iget ip i_dev in
     let! bp := zoom (bufcache_read dev a) in
     for_ 0 NINDIRECT (λ j,
       let! d := zoom (bget bp b_data) in
       when (nz (load32 d (4 * j))) (zoom (block_free dev (load32 d (4 * j))))) ;;;
     zoom (bufcache_release bp) ;;;
     zoom (block_free dev a) ;;;
     addr_set ip NDIRECT 0) ;;;
  imod ip (set_i_size 0) ;;;
  inode_update ip.

Definition inode_put (ip : Z) : M fs unit :=
  icache_acquire ;;;
  let! x := iget ip id in
  when ((i_ref x =? 1) && nz (Z.land (i_flags x) I_VALID) && (i_nlink x =? 0))
    (when (nz (Z.land (i_flags x) I_BUSY)) KERN_PANIC ;;;
     imod ip (λ x, set_i_flags (Z.lor (i_flags x) I_BUSY) x) ;;;
     icache_release ;;;
     inode_trunc ip ;;;
     imod ip (set_i_type 0) ;;;
     inode_update ip ;;;
     icache_acquire ;;;
     imod ip (set_i_flags 0)) ;;;                 (* thread_wakeup(ip) *)
  imod ip (λ x, set_i_ref (i_ref x - 1) x) ;;;
  icache_release.

Definition inode_unlockput (ip : Z) : M fs unit :=
  inode_unlock ip ;;;
  inode_put ip.

Record file_stat := { st_type : Z; st_dev : Z; st_ino : Z; st_nlink : Z; st_size : Z }.

Definition inode_stat (ip : Z) : M fs file_stat :=
  let! x := iget ip id in
  ret {| st_dev := i_dev x; st_ino := i_inum x; st_type := i_type x; st_nlink := u16 (i_nlink x);
         st_size := i_size x |}.

(** [devsw], the table of the devices, is a null pointer: nothing sets it. *)
Definition devsw_call (major : Z) : M fs Z :=
  if (major <? 0) || (major >=? NDEV) then ret (-1) else fault.

(** The number of blocks that [n] bytes touch. *)
Definition io_fuel (n : Z) : nat := Z.to_nat (n / BSIZE + 3).

(** [inode_read(ip, dst, off, n)] returns the bytes that go to [dst]. *)
Definition inode_read (ip off n : Z) : M fs (Z * list Z) :=
  let! x := iget ip id in
  if i_type x =? T_DEV then let! r := devsw_call (i_major x) in ret (r, [])
  else if (off >? i_size x) || (u32 (off + n) <? off) then ret (-1, [])
  else
    let n := if u32 (off + n) >? i_size x then u32 (i_size x - off) else n in
    loop (io_fuel n) (λ '(tot, off, l),
      if tot <? n then
        let! bn := bmap ip (off / BSIZE) in
        let! dev := iget ip i_dev in
        let! bp := zoom (bufcache_read dev bn) in
        let m := min (u32 (n - tot)) (u32 (BSIZE - off mod BSIZE)) in
        let! d := zoom (bget bp b_data) in
        zoom (bufcache_release bp) ;;;
        ret (inl (u32 (tot + m), u32 (off + m), l ++ get_bytes d (off mod BSIZE) m))
      else ret (inr (s32 n, l))) (0, off, []).

(** [inode_write(ip, src, off, n)] with the bytes at [src]. *)
Definition inode_write (ip : Z) (src : list Z) (off n : Z) : M fs Z :=
  let! x := iget ip id in
  if i_type x =? T_DEV then devsw_call (i_major x)
  else if (off >? i_size x) || (u32 (off + n) <? off) then ret (-1)
  else if u32 (off + n) >? MAXFILE * BSIZE then ret (-1)
  else
    let! off' := loop (io_fuel n) (λ '(tot, off, src),
      if tot <? n then
        let! bn := bmap ip (off / BSIZE) in
        let! dev := iget ip i_dev in
        let! bp := zoom (bufcache_read dev bn) in
        let m := min (u32 (n - tot)) (u32 (BSIZE - off mod BSIZE)) in
        zoom (bmod bp (λ b, set_b_data (put_bytes (off mod BSIZE) (take (Z.to_nat m) src) (b_data b)) b)) ;;;
        zoom (log_write bp) ;;;
        zoom (bufcache_release bp) ;;;
        ret (inl (u32 (tot + m), u32 (off + m), drop (Z.to_nat m) src))
      else ret (inr off)) (0, off, src) in
    let! size := iget ip i_size in
    when ((n >? 0) && (off' >? size))
      (imod ip (set_i_size off') ;;;
       inode_update ip) ;;;
    ret (s32 n).

End ops.
