(* ===== verification/Dir.v ===== *)
(** * Directories and path names

    kern/fs/dir.c, and the path elements of kern/fs/path.c.  A pointer into a character
    array is the list of the bytes from there to the end of the array: a read behind the
    end is a fault.  A directory entry is its 16 bytes. *)

From S2P Require Import Prelude Spinlock Mem DList Bufcache Log Inode.

Definition DIRSIZ : Z := 14.
Definition DIRENT_SIZE : Z := 16.
Definition SLASH : Z := 47.
Definition DOT : Z := 46.

(** What the local variables contain that are not initialised. *)
Class Stack := { stack_bytes : Z → Z }.
Definition junk `{Stack} (n : Z) : list Z := (λ i, u8 (stack_bytes i)) <$> seqZ 0 n.

(** [memmove] of the bytes [l] to the start of an array. *)
Definition overlay (l a : list Z) : list Z := l ++ drop (length l) a.

(** ** string.c on arrays *)

Fixpoint cstrncmp (n : nat) (p q : list Z) : option Z :=
  match n with
  | O => Some 0
  | S n' =>
    match p, q with
    | a :: p', b :: q' =>
      if nz (s8 a) && (s8 a =? s8 b) then cstrncmp n' p' q' else Some (u8 a - u8 b)
    | _, _ => None
    end
  end.

(** The [n] bytes that [strncpy] writes. *)
Fixpoint cstrncpy (n : nat) (t : list Z) : option (list Z) :=
  match n with
  | O => Some []
  | S n' =>
    match t with
    | [] => None
    | c :: t' => if nz (s8 c) then cons c <$> cstrncpy n' t' else Some (c :: repeat 0 n')
    end
  end.

Fixpoint cstrnlen (n : nat) (t : list Z) : option Z :=
  match n with
  | O => Some 0
  | S n' =>
    match t with
    | [] => None
    | c :: t' => if nz (s8 c) then (λ k, k + 1) <$> cstrnlen n' t' else Some 0
    end
  end.

Definition lift {St A} (o : option A) : M St A :=
  match o with Some a => ret a | None => fault end.

(** ** Directory entries *)

Definition de_inum (de : list Z) : Z := u8 (nth 0 de 0) + 256 * u8 (nth 1 de 0).
Definition de_name (de : list Z) : list Z := drop 2 de.
Definition set_de_inum (v : Z) (de : list Z) : list Z := [u8 v; u8 (v / 256)] ++ drop 2 de.
Definition set_de_name (l de : list Z) : list Z := take 2 de ++ overlay l (drop 2 de).

Section dir.
Context `{KEnv, Stack}.

Definition dir_namecmp (s t : list Z) : M fs Z := lift (cstrncmp (Z.to_nat DIRSIZ) s t).

Definition dir_fuel (size : Z) : nat := Z.to_nat (size / DIRENT_SIZE + 2).

(** Returns the inode and [*poff]. *)
Definition dir_lookup (dp : Z) (name : list Z) (poff : Z) : M fs (Z * Z) :=
  let! x := iget dp id in
  when (negb (i_type x =? T_DIR)) KERN_PANIC ;;;
  loop (dir_fuel (i_size x)) (λ '(off, de),
    let! size := iget dp i_size in
    if off <? size then
      let! rd := inode_read dp off DIRENT_SIZE in
      let de := overlay rd.2 de in
      when (negb (u32 rd.1 =? DIRENT_SIZE)) KERN_PANIC ;;;
      if de_inum de =? 0 then ret (inl (u32 (off + DIRENT_SIZE), de))
      else
        let! c := dir_namecmp (de_name de) name in
        if c =? 0 then
          let! dev := iget dp i_dev in
          let! ip := inode_get dev (de_inum de) in
          ret (inr (ip, off))
        else ret (inl (u32 (off + DIRENT_SIZE), de))
    else ret (inr (0, poff))) (0, junk DIRENT_SIZE).

Definition dir_link (dp : Z) (name : list Z) (inum : Z) : M fs Z :=
  let! r := dir_lookup dp name 0 in
  if negb (r.1 =? 0) then
    inode_put r.1 ;;;
    ret (-1)
  else
    let! size := iget dp i_size in
    let! r := loop (dir_fuel size) (λ '(off, de),
      let! size := iget dp i_size in
      if off <? size then
        let! rd := inode_read dp off DIRENT_SIZE in
        let de := overlay rd.2 de in
        when (negb (u32 rd.1 =? DIRENT_SIZE)) KERN_PANIC ;;;
        if de_inum de =? 0 then ret (inr (off, de))
        else ret (inl (u32 (off + DIRENT_SIZE), de))
      else ret (inr (off, de))) (0, junk DIRENT_SIZE) in
    let '(off, de) := r in
    let! nm := lift (cstrncpy (Z.to_nat DIRSIZ) name) in
    let de := set_de_name nm (set_de_inum inum de) in
    let! w := inode_write dp de off DIRENT_SIZE in
    when (negb (u32 w =? DIRENT_SIZE)) KERN_PANIC ;;;
    ret 0.

End dir.

(** ** Path elements *)

Fixpoint skip_slashes (p : list Z) : option (list Z) :=
  match p with
  | [] => None
  | c :: r => if s8 c =? SLASH then skip_slashes r else Some p
  end.

(** The end of an element, and its length. *)
Fixpoint skip_name (p : list Z) : option (list Z * Z) :=
  match p with
  | [] => None
  | c :: r =>
    if negb (s8 c =? SLASH) && negb (s8 c =? 0) then (λ '(q, n), (q, n + 1)) <$> skip_name r
    else Some (p, 0)
  end.

(** The returned pointer is [None] for the null pointer; [name] is the array of [DIRSIZ]
    bytes.  A path that is the null pointer ends the walk in the code as an empty one does;
    every caller passes an array, and the list of its bytes is the path here. *)
Definition skipelem {St} (path name : list Z) : M St (option (list Z) * list Z) :=
  match path with
  | [] => fault
  | c :: _ =>
    if s8 c =? 0 then ret (None, name)
    else
      let! p := lift (skip_slashes path) in
      if s8 (hd 0 p) =? 0 then ret (None, name)
      else
        let! r := lift (skip_name p) in
        let '(q, len) := r in
        let k := if len >=? DIRSIZ then DIRSIZ - 1 else len in
        let! nm := lift (cstrncpy (Z.to_nat k) p) in
        let name := overlay (nm ++ [0]) name in
        let! q := lift (skip_slashes q) in
        ret (Some q, name)
  end.
