(* ===== verification/PathSpec.v ===== *)
(** * Path names

    The elements of a path: [skipelem] of kern/fs/path.c, called until it returns the null
    pointer as [namex] does, goes through the pieces of the text between the slashes. *)

From S2P Require Import Prelude Spinlock Mem DList Bufcache Log Inode Dir.

(** The pieces of a text between the slashes, the empty ones left out; [acc] is the piece
    before the text. *)
Fixpoint pieces (acc t : list Z) : list (list Z) :=
  match t with
  | [] => match acc with [] => [] | _ => [acc] end
  | c :: r =>
    if s8 c =? SLASH then match acc with [] => pieces [] r | _ => acc :: pieces [] r end
    else pieces (acc ++ [c]) r
  end.
Definition elements (t : list Z) : list (list Z) := pieces [] t.

(** A text without a zero byte. *)
Definition text (t : list Z) : Prop := ∀ c, c ∈ t → s8 c ≠ 0.

(** What [skipelem] keeps of a piece. *)
Definition cut (e : list Z) : list Z := take (Z.to_nat (DIRSIZ - 1)) e.

Lemma text_cons c t : text (c :: t) → s8 c ≠ 0 ∧ text t.
Proof. intros Ht. split; [apply Ht; left|intros d Hd; apply Ht; by right]. Qed.

Lemma text_app a b : text (a ++ b) → text a ∧ text b.
Proof. intros Ht. split; intros c Hc; apply Ht, elem_of_app; auto. Qed.

Lemma text_cut e : text e → text (cut e).
Proof.
  unfold cut. intros He. rewrite <- (take_drop (Z.to_nat (DIRSIZ - 1)) e) in He. by apply text_app in He as [? _].
Qed.

(** ** The loops of skipelem *)

Lemma skip_slashes_spec t rest : text t →
  ∃ t', skip_slashes (t ++ 0 :: rest) = Some (t' ++ 0 :: rest) ∧ elements t' = elements t ∧
    text t' ∧ (length t' ≤ length t)%nat ∧ s8 (hd 0 t') ≠ SLASH.
Proof.
  induction t as [|c t IH]; intros Ht.
  - by exists [].
  - apply text_cons in Ht as [Hc Ht]. simpl. destruct (s8 c =? SLASH) eqn:E.
    + destruct (IH Ht) as (t' & -> & He & ? & ? & ?). exists t'. unfold elements in *. simpl. rewrite E.
      repeat split; auto.
    + exists (c :: t). apply Z.eqb_neq in E. repeat split; auto.
      intros d [->|Hd]%elem_of_cons; auto.
Qed.

Lemma pieces_app acc e t : Forall (λ c, s8 c ≠ SLASH) e → pieces acc (e ++ t) = pieces (acc ++ e) t.
Proof.
  intros He. revert acc. induction He as [|c e Hc He IH]; intros acc; simpl; [by rewrite app_nil_r|].
  rewrite (proj2 (Z.eqb_neq _ _) Hc), IH. by rewrite <- app_assoc.
Qed.

Lemma skip_name_spec t rest : text t →
  ∃ e t', t = e ++ t' ∧ Forall (λ c, s8 c ≠ SLASH) e ∧ (t' = [] ∨ s8 (hd 0 t') = SLASH) ∧
    skip_name (t ++ 0 :: rest) = Some (t' ++ 0 :: rest, Z.of_nat (length e)).
Proof.
  induction t as [|c t IH]; intros Ht.
  - exists [], []. by repeat split; auto.
  - apply text_cons in Ht as [Hc Ht]. destruct (s8 c =? SLASH) eqn:E.
    + exists [], (c :: t). repeat split; [constructor|by right; apply Z.eqb_eq|]. cbn. by rewrite E.
    + destruct (IH Ht) as (e & t' & -> & He & Ht' & E'). exists (c :: e), t'.
      repeat split; [constructor; [by apply Z.eqb_neq|done]|done|]. cbn.
      rewrite E, (proj2 (Z.eqb_neq _ _) Hc). cbn. cbn in E'. rewrite E'. cbn. do 2 f_equal. lia.
Qed.

Lemma cstrncpy_text n t r : text t → (n ≤ length t)%nat → cstrncpy n (t ++ r) = Some (take n t).
Proof.
  revert t. induction n as [|n IH]; intros [|c t] Ht Hn; simpl in *; try done; [lia|].
  apply text_cons in Ht as [Hc Ht]. unfold nz. rewrite (proj2 (Z.eqb_neq _ _) Hc). simpl.
  rewrite IH; [done..|lia].
Qed.

Lemma pieces_tail acc t : acc ≠ [] → t = [] ∨ s8 (hd 0 t) = SLASH → pieces acc t = acc :: elements t.
Proof.
  intros Ha. destruct t as [|c t]; intros Ht.
  - destruct acc; done.
  - destruct Ht as [|Ht]; [done|]. cbn in Ht. unfold elements. cbn. rewrite Ht. by destruct acc.
Qed.

Lemma cut_length e : let k := if Z.of_nat (length e) >=? DIRSIZ then DIRSIZ - 1 else Z.of_nat (length e) in
  take (Z.to_nat k) e = cut e ∧ (Z.to_nat k ≤ length e)%nat.
Proof.
  unfold cut, DIRSIZ. cbv zeta. destruct (Z.geb_spec (Z.of_nat (length e)) 14).
  - split; [done|lia].
  - split; [rewrite !take_ge; [done|lia..]|lia].
Qed.

Lemma pieces_acc acc t : acc ≠ [] → pieces acc t ≠ [].
Proof.
  revert acc. induction t as [|c t IH]; intros acc Ha; simpl; [by destruct acc|].
  destruct (s8 c =? SLASH); [by destruct acc|]. apply IH. by destruct acc.
Qed.

Lemma elements_nil t : s8 (hd 0 t) ≠ SLASH → t = [] ↔ elements t = [].
Proof.
  intros Hs. split; [by intros ->|]. destruct t as [|c t]; [done|]. unfold elements. cbn in *.
  rewrite (proj2 (Z.eqb_neq _ _) Hs). intros E. by apply pieces_acc in E.
Qed.

(** One call: the first element, cut to what fits, with a zero byte behind it, and the
    text from the next element on. *)
Lemma skipelem_spec {St} t rest name (s : St) : text t →
  match elements t with
  | [] => skipelem (t ++ 0 :: rest) name s = Ret ((None, name), s)
  | e :: es => ∃ t', skipelem (t ++ 0 :: rest) name s =
      Ret ((Some (t' ++ 0 :: rest), overlay (cut e ++ [0]) name), s) ∧
      elements t' = es ∧ text t' ∧ (length t' < length t)%nat ∧ (t' = [] ↔ es = [])
  end.
Proof.
  intros Ht. destruct (skip_slashes_spec t rest Ht) as (t1 & E1 & He1 & Ht1 & Hl1 & Hs1). rewrite <- He1.
  destruct t1 as [|c1 t1].
  - unfold elements. simpl. unfold skipelem. destruct t as [|c t]; [done|]. cbn [app].
    apply text_cons in Ht as [Hc _]. rewrite (proj2 (Z.eqb_neq _ _) Hc). cbn [app] in E1. by rewrite E1.
  - destruct t as [|c t]; [simpl in Hl1; lia|]. apply text_cons in Ht as [Hc Ht].
    assert (s8 c1 ≠ 0) as Hc1 by (by apply text_cons in Ht1 as [? _]).
    unfold skipelem. cbn [app]. rewrite (proj2 (Z.eqb_neq _ _) Hc). cbn [app] in E1. rewrite E1.
    erewrite bind_Ret by done. cbn [hd]. rewrite (proj2 (Z.eqb_neq _ _) Hc1).
    destruct (skip_name_spec (c1 :: t1) rest Ht1) as (e & t2 & Eq & He & Ht2 & E2). cbn [app] in E2. rewrite E2.
    assert (e ≠ []) as Hne by (intros ->; simpl in Eq; destruct Ht2 as [->|Ht2]; [done|subst t2; done]).
    rewrite Eq in Ht1. apply text_app in Ht1 as [Hte Htt2].
    assert (elements (c1 :: t1) = e :: elements t2) as Ee.
    { rewrite Eq. unfold elements at 1. rewrite pieces_app by done. by apply pieces_tail. }
    destruct (skip_slashes_spec t2 rest Htt2) as (t3 & E3 & He3 & Ht3 & Hl3 & Hs3).
    erewrite bind_Ret by done. cbv beta iota zeta. destruct (cut_length e) as [Hcut Hcl].
    rewrite Ee. exists t3. split; [|split; [done|split; [done|split]]].
    + change (c1 :: t1 ++ 0 :: rest) with ((c1 :: t1) ++ 0 :: rest). rewrite Eq, <- app_assoc.
      rewrite cstrncpy_text by done. rewrite Hcut. erewrite bind_Ret by done. rewrite E3.
      by erewrite bind_Ret by done.
    + assert (length e ≠ 0%nat) by (by destruct e). apply (f_equal length) in Eq. rewrite length_app in Eq.
      simpl in *. lia.
    + rewrite <- He3. by apply elements_nil.
Qed.

(** ** All elements *)

(** The calls of [skipelem] in [namex], with its number of rounds: the names that it gets,
    as strings. *)
Definition c_string (l : list Z) : list Z := take (Z.to_nat (default 0 (cstrnlen (length l) l))) l.

Definition path_names {St} (path name : list Z) : M St (list (list Z)) :=
  loop (S (length path)) (λ '(path, name, acc),
    let! r := skipelem path name in
    match r with
    | (None, _) => ret (inr acc)
    | (Some q, name) => ret (inl (q, name, acc ++ [c_string name]))
    end) (path, name, []).

Lemma cstrnlen_text t r n : text t → (length t < n)%nat → cstrnlen n (t ++ 0 :: r) = Some (Z.of_nat (length t)).
Proof.
  revert n. induction t as [|c t IH]; intros [|n] Ht Hn; simpl in *; try lia; [done|].
  apply text_cons in Ht as [Hc Ht]. unfold nz. rewrite (proj2 (Z.eqb_neq _ _) Hc). simpl.
  rewrite IH; [simpl; f_equal; lia|done|lia].
Qed.

Lemma c_string_overlay e name : text e → c_string (overlay (e ++ [0]) name) = e.
Proof.
  intros He. unfold c_string, overlay. rewrite <- app_assoc. cbn [app].
  rewrite cstrnlen_text; [|done|rewrite length_app; simpl; lia]. cbn. rewrite Nat2Z.id. by rewrite take_app_length.
Qed.

Lemma text_pieces acc t e : text acc → text t → e ∈ pieces acc t → text e.
Proof.
  revert acc. induction t as [|c t IH]; intros acc Ha Ht He; simpl in He.
  - destruct acc; [by apply not_elem_of_nil in He|]. apply list_elem_of_singleton in He. by subst.
  - apply text_cons in Ht as [Hc Ht]. assert (text []) by (intros d Hd; by apply not_elem_of_nil in Hd).
    destruct (s8 c =? SLASH).
    + destruct acc as [|a acc]; [eauto|]. apply elem_of_cons in He as [->|He]; eauto.
    + apply (IH (acc ++ [c])); [|done..]. intros d [Hd|Hd%list_elem_of_singleton]%elem_of_app; [auto|by subst].
Qed.

(** C26: A path is gone through piece by piece: the calls of [skipelem], as [namex] makes
    them, come to an end within one round more than the path has bytes, and the names are
    the pieces of the path between the slashes, repeated, leading and trailing slashes
    left out, in their order and cut to the 13 bytes that a name of a directory entry may
    have; no byte behind the end of the string is read. *)
Theorem path_names_elements {St} t rest name (s : St) : text t →
  path_names (t ++ 0 :: rest) name s = Ret (cut <$> elements t, s).
Proof.
  intros Ht. unfold path_names. rewrite length_app.
  assert (∀ n t name acc, text t → (length t < n)%nat →
    loop n (λ '(path, name, acc), let! r := skipelem path name in
      match r with
      | (None, _) => ret (inr acc)
      | (Some q, name) => ret (inl (q, name, acc ++ [c_string name]))
      end) (t ++ 0 :: rest, name, acc) s = Ret (acc ++ (cut <$> elements t), s)) as Hloop.
  { clear t Ht name. induction n as [|n IH]; intros t name acc Ht Hn; [lia|]. cbn [loop].
    pose proof (skipelem_spec t rest name s Ht) as Hs. destruct (elements t) as [|e es] eqn:Ee.
    - erewrite bind_Ret by (erewrite bind_Ret by exact Hs; reflexivity). cbn. by rewrite app_nil_r.
    - destruct Hs as (t' & Hs & He & Ht' & Hl & _).
      erewrite bind_Ret by (erewrite bind_Ret by exact Hs; reflexivity). cbv beta iota.
      rewrite IH; [|done|lia]. rewrite He, <- app_assoc, c_string_overlay; [done|].
      assert (text e) as Hte.
      { apply (text_pieces [] t); [intros d Hd; by apply not_elem_of_nil in Hd|done|].
        unfold elements in Ee. rewrite Ee. left. }
      by apply text_cut. }
  apply Hloop; [done|simpl; lia].
Qed.

(** ["//usr/a_long_file_name/b/"] *)
Lemma path_names_elements_witness :
  path_names [47; 47; 117; 115; 114; 47; 97; 95; 108; 111; 110; 103; 95; 102; 105; 108; 101; 95; 110; 97; 109; 101;
              47; 98; 47; 0; 120] (repeat 7 14) tt =
  Ret ([[117; 115; 114]; [97; 95; 108; 111; 110; 103; 95; 102; 105; 108; 101; 95; 110]; [98]], tt).
Proof.
  apply (path_names_elements [47; 47; 117; 115; 114; 47; 97; 95; 108; 111; 110; 103; 95; 102; 105; 108; 101; 95; 110;
    97; 109; 101; 47; 98; 47] [120] (repeat 7 14) tt).
  intros c Hc. apply list_elem_of_In in Hc.
  repeat (destruct Hc as [<-|Hc]; [discriminate|]). destruct Hc.
Defined.
