(* ===== verification/File.v ===== *)
(** * Open files

    kern/fs/file.c: the table of open files.  A pointer to a file is a number from 1 to
    [NFILE], its place in the table; 0 is the null pointer. *)

From S2P Require Import Prelude Spinlock Pmmap MAT Container Mem Vmm Thread UserCopy DList Bufcache Log Inode Dir.

Definition NFILE : Z := 100.
Definition FD_NONE : Z := 0.
Definition FD_PIPE : Z := 1.
Definition FD_INODE : Z := 2.
Definition O_RDONLY : Z := 0.
Definition O_WRONLY : Z := 1.
Definition O_RDWR : Z := 2.
Definition O_CREATE : Z := 512.

Definition set_f_type (v : Z) (f : file) : file := {| f_type := v; f_ref := f_ref f;
  f_readable := f_readable f; f_writable := f_writable f; f_ip := f_ip f; f_off := f_off f |}.
Definition set_f_ref (v : Z) (f : file) : file := {| f_type := f_type f; f_ref := v;
  f_readable := f_readable f; f_writable := f_writable f; f_ip := f_ip f; f_off := f_off f |}.
Definition set_f_off (v : Z) (f : file) : file := {| f_type := f_type f; f_ref := f_ref f;
  f_readable := f_readable f; f_writable := f_writable f; f_ip := f_ip f; f_off := v |}.

Section ops.
Context `{KEnv}.

(** ** file.c *)

Definition fget {A} (f : Z) (g : file → A) : M fs A :=
  let! x := aread NFILE files (f - 1) in ret (g x).
Definition fmod (f : Z) (g : file → file) : M fs unit := amod NFILE files set_files (f - 1) g.

Definition ftable_acquire : M fs unit := fzoom ftable_lock set_ftable_lock Spinlock.spinlock_acquire.
Definition ftable_release : M fs unit := fzoom ftable_lock set_ftable_lock Spinlock.spinlock_release.

Definition file_init : M fs unit := fzoom ftable_lock set_ftable_lock Spinlock.spinlock_init.

Definition file_alloc : M fs Z :=
  ftable_acquire ;;;
  let! r := for_exit 0 NFILE (λ i,
    let! x := aread NFILE files i in
    if f_ref x =? 0 then
      fmod (i + 1) (set_f_ref 1) ;;;
      ftable_release ;;;
      ret (Some (i + 1))
    else ret None) in
  match r with
  | Some f => ret f
  | None => ftable_release ;;; ret 0
  end.

Definition file_dup (f : Z) : M fs Z :=
  ftable_acquire ;;;
  let! r := fget f f_ref in
  when (r <? 1) KERN_PANIC ;;;
  fmod f (λ x, set_f_ref (f_ref x + 1) x) ;;;
  ftable_release ;;;
  ret f.

Definition file_close (f : Z) : M fs unit :=
  ftable_acquire ;;;
  let! r := fget f f_ref in
  when (r <? 1) KERN_PANIC ;;;
  fmod f (λ x, set_f_ref (f_ref x - 1) x) ;;;
  let! r := fget f f_ref in
  if r >? 0 then ftable_release
  else
    let! ff := fget f id in
    fmod f (set_f_ref 0) ;;;
    fmod f (set_f_type FD_NONE) ;;;
    ftable_release ;;;
    when (f_type ff =? FD_INODE)
      (zoom begin_trans ;;;
       inode_put (f_ip ff) ;;;
       zoom commit_trans).

(** The metadata, on success. *)
Definition file_stat (f : Z) : M fs (option Inode.file_stat) :=
  let! x := fget f id in
  if f_type x =? FD_INODE then
    inode_lock (f_ip x) ;;;
    let! st := inode_stat (f_ip x) in
    inode_unlock (f_ip x) ;;;
    ret (Some st)
  else ret None.

(** The result and the bytes for [addr]. *)
Definition file_read (f n : Z) : M fs (Z * list Z) :=
  let! x := fget f id in
  if f_readable x =? 0 then ret (-1, [])
  else if f_type x =? FD_INODE then
    inode_lock (f_ip x) ;;;
    let! off := fget f f_off in
    let! r := inode_read (f_ip x) off (u32 n) in
    when (r.1 >? 0) (fmod f (λ x, set_f_off (u32 (f_off x + r.1)) x)) ;;;
    inode_unlock (f_ip x) ;;;
    ret r
  else KERN_PANIC ;;; ret (-1, []).

(** [((LOGSIZE - 1 - 1 - 2) / 2) * 512] *)
Definition write_max : Z := (LOGSIZE - 1 - 1 - 2) / 2 * 512.

Definition file_write (f : Z) (addr : list Z) (n : Z) : M fs Z :=
  let! x := fget f id in
  if f_writable x =? 0 then ret (-1)
  else if f_type x =? FD_INODE then
    let! i := loop (Z.to_nat (Z.max 0 n / write_max + 2)) (λ i,
      if i <? n then
        let n1 := if n - i >? write_max then write_max else n - i in
        zoom begin_trans ;;;
        inode_lock (f_ip x) ;;;
        let! off := fget f f_off in
        let! r := inode_write (f_ip x) (drop (Z.to_nat i) addr) off n1 in
        when (r >? 0) (fmod f (λ x, set_f_off (u32 (f_off x + r)) x)) ;;;
        inode_unlock (f_ip x) ;;;
        zoom commit_trans ;;;
        if r <? 0 then ret (inr i)
        else
          when (negb (r =? n1)) KERN_PANIC ;;;
          ret (inl (i + r))
      else ret (inr i)) 0 in
    ret (if i =? n then n else -1)
  else KERN_PANIC ;;; ret (-1).

End ops.
