(* ===== verification/InodeSpec.v ===== *)
(** * The inode cache, verified

    An inode of the disk has at most one entry in the cache: all operations of inodes,
    directories and files keep this, and [inode_get] finds the entry. *)

From S2P Require Import Prelude Spinlock Pmmap MAT Container Mem Vmm Thread UserCopy DList Bufcache Log Inode Dir File Crash.

(** The entry [i] of the cache. *)
Abbreviation slot s i := (inodes s !!! i).

(** No two entries in use are of the same inode. *)
Definition unique_cache (s : fs) : Prop :=
  ∀ i j, 0 ≤ i < NINODE → 0 ≤ j < NINODE → 0 < i_ref (slot s i) → 0 < i_ref (slot s j) →
    i_dev (slot s i) = i_dev (slot s j) → i_inum (slot s i) = i_inum (slot s j) → i = j.

(** It depends on the entries only. *)
Lemma unique_same s s' : inodes s' = inodes s → unique_cache s → unique_cache s'.
Proof. unfold unique_cache. by intros ->. Qed.

Lemma unique_zoom_lg {A} (m : M lg A) : keeps unique_cache (zoom m).
Proof. apply keeps_zoom. intros t s. by apply unique_same. Qed.

Lemma unique_zoom_bc {A} (m : M bc A) : keeps unique_cache (zoom m).
Proof. apply keeps_zoom. intros t s. by apply unique_same. Qed.

Lemma unique_icache {A} (m : M spinlock_t A) : keeps unique_cache (fzoom icache_lock set_icache_lock m).
Proof. apply keeps_fzoom. intros t s. by apply unique_same. Qed.

Lemma unique_ftable {A} (m : M spinlock_t A) : keeps unique_cache (fzoom ftable_lock set_ftable_lock m).
Proof. apply keeps_fzoom. intros t s. by apply unique_same. Qed.

Lemma unique_iget {A} ip (f : inode → A) : keeps unique_cache (iget ip f).
Proof. unfold iget. keep. Qed.

Lemma unique_fget {A} f (g : file → A) : keeps unique_cache (fget f g).
Proof. unfold fget. keep. Qed.

Lemma unique_fmod f g : keeps unique_cache (fmod f g).
Proof.
  unfold fmod, amod. destruct (inb NFILE (f - 1)); [|apply keeps_fault]. apply keeps_modify. intros s. by apply unique_same.
Qed.

(** A change of the entry [k] that does not make it an entry in use of another inode. *)
Lemma unique_insert s k x : unique_cache s →
  (0 < i_ref x → ∀ j, 0 ≤ j < NINODE → j ≠ k → 0 < i_ref (slot s j) →
    ¬ (i_dev (slot s j) = i_dev x ∧ i_inum (slot s j) = i_inum x)) →
  unique_cache (set_inodes (<[k := x]> (inodes s)) s).
Proof.
  intros Hu Hx i j Hi Hj. cbn [inodes set_inodes].
  destruct (decide (i = k)) as [->|Hik], (decide (j = k)) as [->|Hjk]; rewrite ?lookup_total_insert_eq;
    rewrite ?(lookup_total_insert_ne (inodes s) k i), ?(lookup_total_insert_ne (inodes s) k j) by done; intros Hri Hrj Hd Hn.
  - done.
  - destruct (Hx Hri j); auto.
  - destruct (Hx Hrj i); auto.
  - by apply Hu.
Qed.

(** The same device and number, and not in use if it was not. *)
Lemma unique_imod ip f :
  (∀ x, i_dev (f x) = i_dev x ∧ i_inum (f x) = i_inum x ∧ (0 < i_ref (f x) → 0 < i_ref x)) →
  keeps unique_cache (imod ip f).
Proof.
  intros Hf. unfold imod, amod. destruct (inb NINODE (ip - 1)) eqn:E; [|apply keeps_fault].
  apply inb_spec in E. apply keeps_modify. intros s Hu. destruct (Hf (slot s (ip - 1))) as (Hd & Hn & Hr).
  apply unique_insert; [done|]. intros Hx j Hj Hne Hj' [E1 E2]. apply Hne. apply Hu; [done..|auto| |]; congruence.
Qed.

#[export] Hint Resolve unique_zoom_lg unique_zoom_bc unique_icache unique_ftable unique_iget unique_fget unique_fmod : kern.
#[export] Hint Extern 1 (keeps unique_cache (imod _ _)) =>
  apply unique_imod; intros; repeat split; solve [done | cbn; lia] : kern.

(** ** The scan *)

(** The entry [i] is in use for the inode. *)
Definition cached (s : fs) (dev inum i : Z) : Prop :=
  0 ≤ i < NINODE ∧ 0 < i_ref (slot s i) ∧ i_dev (slot s i) = dev ∧ i_inum (slot s i) = inum.

(** What the scan answers: the first entry of the inode, or the first free one, if any. *)
Definition scan_post (dev inum : Z) (s : fs) (r : Z + Z) : Prop :=
  match r with
  | inl ip => cached s dev inum (ip - 1)
  | inr e => (∀ i, ¬ cached s dev inum i) ∧
      (e = 0 ∧ (∀ i, 0 ≤ i < NINODE → i_ref (slot s i) ≠ 0) ∨ 0 ≤ e - 1 < NINODE ∧ i_ref (slot s (e - 1)) = 0)
  end.

Lemma icache_scan_from dev inum s n i e : 0 ≤ i ≤ NINODE → (Z.to_nat (NINODE - i) < n)%nat →
  (∀ k, k < i → ¬ cached s dev inum k) →
  (e = 0 ∧ (∀ k, 0 ≤ k < i → i_ref (slot s k) ≠ 0) ∨ 0 ≤ e - 1 < NINODE ∧ i_ref (slot s (e - 1)) = 0) →
  runs (icache_scan dev inum n (i, e)) s (λ r s', s' = s ∧ scan_post dev inum s r).
Proof.
  revert i e. induction n as [|n IH]; intros i e Hi Hn Hno He; [lia|]. unfold icache_scan. cbn [loop].
  destruct (Z.ltb_spec i NINODE) as [Hlt|Hge].
  - assert (aread NINODE inodes i s = Ret (slot s i, s)) as Er by (unfold aread; by rewrite inb_true_2 by lia).
    apply runs_bind. eapply runs_bind_eq; [exact Er|]. set (x := slot s i).
    destruct ((i_ref x >? 0) && (i_dev x =? dev) && (i_inum x =? inum)) eqn:Em.
    + apply runs_ret, runs_ret. split; [done|]. cbn [scan_post]. rewrite Z.add_simpl_r. unfold cached. fold x. lia.
    + apply runs_ret. apply IH; [lia|lia| |].
      * intros k Hk. destruct (decide (k = i)) as [->|]; [|apply Hno; lia]. unfold cached. fold x. lia.
      * destruct He as [[-> He]|[He1 He2]].
        -- destruct (Z.eqb_spec (i_ref x) 0) as [Hz|Hz]; cbn.
           ++ right. rewrite Z.add_simpl_r. split; [lia|done].
           ++ left. split; [done|]. intros k Hk. destruct (decide (k = i)) as [->|]; [done|apply He; lia].
        -- rewrite (proj2 (Z.eqb_neq e 0)) by lia. cbn. by right.
  - apply runs_ret, runs_ret. split; [done|]. cbn [scan_post]. split.
    + intros k Hk. destruct (decide (k < i)) as [|Hki]; [by apply (Hno k)|]. destruct Hk. lia.
    + destruct He as [[-> He]|He]; [left|by right]. split; [done|]. intros k Hk. apply He. lia.
Qed.

Lemma icache_scan_runs dev inum s :
  runs (icache_scan dev inum (Z.to_nat NINODE + 1) (0, 0)) s (λ r s', s' = s ∧ scan_post dev inum s r).
Proof.
  apply icache_scan_from; [unfold NINODE; lia|unfold NINODE; lia| |].
  - intros k Hk [? _]. lia.
  - left. split; [done|lia].
Qed.

Section ops.
Context `{KEnv}.

Lemma imod_inv ip f s a s' : imod ip f s = Ret (a, s') →
  0 ≤ ip - 1 < NINODE ∧ s' = set_inodes (<[ip - 1 := f (slot s (ip - 1))]> (inodes s)) s.
Proof.
  unfold imod, amod. destruct (inb NINODE (ip - 1)) eqn:E; [|done]. intros [= _ <-]. by apply inb_spec in E.
Qed.

Lemma unique_acquire : keeps unique_cache icache_acquire.
Proof. apply unique_icache. Qed.

Lemma unique_release : keeps unique_cache icache_release.
Proof. apply unique_icache. Qed.

(** One more reference to an entry in use. *)
Lemma unique_ref ip s a s' : unique_cache s → 0 < i_ref (slot s (ip - 1)) →
  imod ip (λ x, set_i_ref (i_ref x + 1) x) s = Ret (a, s') → unique_cache s'.
Proof.
  intros Hu Hr [Hi ->]%imod_inv. apply unique_insert; [done|]. cbn. intros _ j Hj Hne Hj' [E1 E2].
  apply Hne. by apply Hu.
Qed.

Lemma unique_inode_get dev inum : keeps unique_cache (inode_get dev inum).
Proof.
  intros s ip s' Hu ([] & s1 & E1 & (r & s2 & E2 & E)%bind_inv)%bind_inv.
  assert (unique_cache s1) as Hu1 by (by eapply unique_acquire). clear E1 Hu s.
  destruct (runs_elim _ _ _ _ _ (icache_scan_runs dev inum s1) E2) as [-> Hr]. clear E2. destruct r as [i|e]; cbn in Hr.
  - apply bind_inv in E as ([] & s2 & E2 & E). assert (unique_cache s2) as Hu2 by (eapply unique_ref, E2; [done|apply Hr]).
    eapply (keeps_bind unique_cache icache_release); [apply unique_release|intros; apply keeps_ret|exact Hu2|exact E].
  - destruct Hr as [Hno He]. apply bind_inv in E as ([] & s2 & E2 & E).
    assert (unique_cache s2 ∧ (∀ i, ¬ cached s2 dev inum i)) as [Hu2 Hno2].
    { destruct (e =? 0); cbn [when] in E2; [|by injection E2 as <-]. unfold KERN_PANIC in E2.
      destruct DEBUG_MSG; [done|]. by injection E2 as <-. }
    apply bind_inv in E as ([] & s3 & E3 & E). apply imod_inv in E3 as [Hi ->].
    eapply (keeps_bind unique_cache icache_release); [apply unique_release|intros; apply keeps_ret| |exact E].
    apply unique_insert; [done|]. cbn. intros _ j Hj Hne Hj' [E1' E2']. exact (Hno2 j (conj Hj (conj Hj' (conj E1' E2')))).
Qed.

Lemma unique_inode_dup ip s a s' : unique_cache s → 0 < i_ref (slot s (ip - 1)) →
  inode_dup ip s = Ret (a, s') → unique_cache s'.
Proof.
  intros Hu Hr ([] & s1 & E1 & ([] & s2 & E2 & E)%bind_inv)%bind_inv.
  assert (inodes s1 = inodes s) as Ei.
  { unfold icache_acquire, fzoom in E1. destruct (Spinlock.spinlock_acquire _) as [[? t]| | |]; [|done..].
    by injection E1 as _ <-. }
  assert (unique_cache s2) as Hu2.
  { eapply unique_ref, E2; [by eapply unique_same|by rewrite Ei]. }
  eapply (keeps_bind unique_cache icache_release); [apply unique_release|intros; apply keeps_ret|exact Hu2|exact E].
Qed.

End ops.

#[export] Hint Resolve unique_acquire unique_release unique_inode_get : kern.

Section fs_ops.
Context `{KEnv, Stack}.

Lemma unique_inode_alloc dev type : keeps unique_cache (inode_alloc dev type).
Proof. unfold inode_alloc. keep. Qed.

Lemma unique_inode_update ip : keeps unique_cache (inode_update ip).
Proof. unfold inode_update. keep. Qed.
Hint Resolve unique_inode_update : kern.

Lemma unique_inode_lock ip : keeps unique_cache (inode_lock ip).
Proof. unfold inode_lock. keep. Qed.

Lemma unique_inode_unlock ip : keeps unique_cache (inode_unlock ip).
Proof. unfold inode_unlock. keep. Qed.
Hint Resolve unique_inode_lock unique_inode_unlock : kern.

Lemma unique_inode_trunc ip : keeps unique_cache (inode_trunc ip).
Proof. unfold inode_trunc, addr_get, addr_set. keep. Qed.
Hint Resolve unique_inode_trunc : kern.

Lemma unique_inode_put ip : keeps unique_cache (inode_put ip).
Proof. unfold inode_put. keep. Qed.
Hint Resolve unique_inode_put : kern.

Lemma unique_inode_unlockput ip : keeps unique_cache (inode_unlockput ip).
Proof. unfold inode_unlockput. keep. Qed.

Lemma unique_addr_or_alloc ip i : keeps unique_cache (addr_or_alloc ip i).
Proof. unfold addr_or_alloc, addr_get, addr_set. keep. Qed.
Hint Resolve unique_addr_or_alloc : kern.

Lemma unique_bmap ip bn : keeps unique_cache (bmap ip bn).
Proof. unfold bmap. keep. Qed.
Hint Resolve unique_bmap : kern.

Lemma unique_inode_read ip off n : keeps unique_cache (inode_read ip off n).
Proof. unfold inode_read, devsw_call. keep. Qed.

Lemma unique_inode_write ip src off n : keeps unique_cache (inode_write ip src off n).
Proof. unfold inode_write, devsw_call. keep. Qed.
Hint Resolve unique_inode_read unique_inode_write : kern.

Lemma unique_dir_lookup dp name poff : keeps unique_cache (dir_lookup dp name poff).
Proof. unfold dir_lookup, dir_namecmp, lift. keep. Qed.
Hint Resolve unique_dir_lookup : kern.

Lemma unique_dir_link dp name inum : keeps unique_cache (dir_link dp name inum).
Proof. unfold dir_link, lift. keep. Qed.

Lemma unique_ftable_ops : keeps unique_cache ftable_acquire ∧ keeps unique_cache ftable_release.
Proof. split; apply unique_ftable. Qed.

Lemma unique_file_close f : keeps unique_cache (file_close f).
Proof. destruct unique_ftable_ops. unfold file_close. keep. Qed.

Lemma unique_file_read f n : keeps unique_cache (file_read f n).
Proof. unfold file_read. keep. Qed.

Lemma unique_file_write f addr n : keeps unique_cache (file_write f addr n).
Proof. unfold file_write. keep. Qed.

(** ** Sequences of operations *)

(** One operation of inodes, directories or files that returned, with any arguments;
    only [inode_dup] has to be given an entry in use. *)
Inductive fs_step : fs → fs → Prop :=
| step_get dev inum s a s' : inode_get dev inum s = Ret (a, s') → fs_step s s'
| step_alloc dev type s a s' : inode_alloc dev type s = Ret (a, s') → fs_step s s'
| step_dup ip s a s' : 0 < i_ref (slot s (ip - 1)) → inode_dup ip s = Ret (a, s') → fs_step s s'
| step_lock ip s a s' : inode_lock ip s = Ret (a, s') → fs_step s s'
| step_unlock ip s a s' : inode_unlock ip s = Ret (a, s') → fs_step s s'
| step_put ip s a s' : inode_put ip s = Ret (a, s') → fs_step s s'
| step_unlockput ip s a s' : inode_unlockput ip s = Ret (a, s') → fs_step s s'
| step_update ip s a s' : inode_update ip s = Ret (a, s') → fs_step s s'
| step_read ip off n s a s' : inode_read ip off n s = Ret (a, s') → fs_step s s'
| step_write ip src off n s a s' : inode_write ip src off n s = Ret (a, s') → fs_step s s'
| step_lookup dp name poff s a s' : dir_lookup dp name poff s = Ret (a, s') → fs_step s s'
| step_link dp name inum s a s' : dir_link dp name inum s = Ret (a, s') → fs_step s s'
| step_close f s a s' : file_close f s = Ret (a, s') → fs_step s s'
| step_file_read f n s a s' : file_read f n s = Ret (a, s') → fs_step s s'
| step_file_write f addr n s a s' : file_write f addr n s = Ret (a, s') → fs_step s s'.

Lemma fs_step_unique s s' : fs_step s s' → unique_cache s → unique_cache s'.
Proof.
  intros Hs Hu. destruct Hs.
  - by eapply unique_inode_get.
  - by eapply unique_inode_alloc.
  - by eapply unique_inode_dup.
  - by eapply unique_inode_lock.
  - by eapply unique_inode_unlock.
  - by eapply unique_inode_put.
  - by eapply unique_inode_unlockput.
  - by eapply unique_inode_update.
  - by eapply unique_inode_read.
  - by eapply unique_inode_write.
  - by eapply unique_dir_lookup.
  - by eapply unique_dir_link.
  - by eapply unique_file_close.
  - by eapply unique_file_read.
  - by eapply unique_file_write.
Qed.

(** [inode_get], when the inode has an entry or some entry is free: the entry of the inode
    with one more reference, or a free one that is now the entry of the inode. *)
Lemma inode_get_entry dev inum s :
  ks_magic = KSTACK_MAGIC → lock (icache_lock s) = 0 →
  (∃ i, cached s dev inum i) ∨ (∃ i, 0 ≤ i < NINODE ∧ i_ref (slot s i) = 0) →
  runs (inode_get dev inum) s (λ ip s',
    f_lg s' = f_lg s ∧ lock (icache_lock s') = 0 ∧ 0 ≤ ip - 1 < NINODE ∧
    (cached s dev inum (ip - 1) ∧ slot s' (ip - 1) = set_i_ref (i_ref (slot s (ip - 1)) + 1) (slot s (ip - 1)) ∨
     (∀ i, ¬ cached s dev inum i) ∧ i_ref (slot s (ip - 1)) = 0 ∧
       slot s' (ip - 1) = set_i_flags 0 (set_i_ref 1 (set_i_id dev inum (slot s (ip - 1))))) ∧
    ∀ j, j ≠ ip - 1 → slot s' j = slot s j).
Proof.
  intros Hm Hl Hor. unfold inode_get.
  eapply runs_bind_eq; [by apply fzoom_Ret, Spinlock.acquire_free|].
  set (s1 := set_icache_lock _ s). eapply runs_bind_mono; [apply icache_scan_runs|]. intros r s2 [-> Hr].
  assert (∀ x ip, 0 ≤ ip - 1 < NINODE →
    runs (imod ip x ;;; icache_release ;;; ret ip) s1 (λ r s', r = ip ∧ f_lg s' = f_lg s ∧ lock (icache_lock s') = 0 ∧
      slot s' (ip - 1) = x (slot s (ip - 1)) ∧ ∀ j, j ≠ ip - 1 → slot s' j = slot s j)) as Hrun.
  { intros x ip Hip. eapply runs_bind_eq.
    - unfold imod, amod. rewrite inb_true_2 by done. reflexivity.
    - eapply runs_bind_eq; [by apply fzoom_Ret, Spinlock.release_run|]. apply runs_ret. split; [done|]. split; [done|].
      split; [done|]. cbn [inodes set_inodes set_icache_lock]. split; [by rewrite lookup_total_insert_eq|].
      intros j Hj. by rewrite lookup_total_insert_ne. }
  destruct r as [ip|e].
  - eapply runs_mono; [apply Hrun, Hr|]. intros r s2 (-> & E1 & E2 & E3 & E4). split; [done|]. split; [done|].
    split; [apply Hr|]. split; [by left|done].
  - destruct Hr as [Hno He]. change (∀ i, ¬ cached s dev inum i) in Hno.
    destruct He as [[-> Hfull]|[Hi Hz]].
    + exfalso. destruct Hor as [[i Hi]|(i & Hi & Hz)]; [by apply (Hno i)|]. by apply (Hfull i).
    + rewrite (proj2 (Z.eqb_neq e 0)) by lia. cbn [when]. eapply runs_bind_eq; [reflexivity|].
      eapply runs_mono; [by apply Hrun|]. intros r s2 (-> & E1 & E2 & E3 & E4). split; [done|]. split; [done|].
      split; [done|]. split; [by right|done].
Qed.

Lemma inode_get_runs dev inum s :
  ks_magic = KSTACK_MAGIC → lock (icache_lock s) = 0 → unique_cache s →
  (∃ i, cached s dev inum i) ∨ (∃ i, 0 ≤ i < NINODE ∧ i_ref (slot s i) = 0) →
  runs (inode_get dev inum) s (λ ip s',
    f_lg s' = f_lg s ∧ lock (icache_lock s') = 0 ∧ cached s' dev inum (ip - 1) ∧
    i_ref (slot s' (ip - 1)) = i_ref (slot s (ip - 1)) + 1 ∧
    (∀ i, cached s dev inum i → ip = i + 1) ∧
    ((∀ i, ¬ cached s dev inum i) → i_flags (slot s' (ip - 1)) = 0) ∧
    ∀ j, j ≠ ip - 1 → slot s' j = slot s j).
Proof.
  intros Hm Hl Hu Hor. eapply runs_mono; [by apply inode_get_entry|].
  intros ip s' (E1 & E2 & Hi & Hc & E4). split; [done|]. split; [done|].
  destruct Hc as [[(_ & Hr & Hd & Hn) E3]|(Hno & Hz & E3)]; unfold cached; rewrite E3; cbn.
  - split; [lia|]. split; [done|]. split; [|split; [|done]].
    + intros i (Hi' & Hr' & Hd' & Hn'). assert (i = ip - 1); [|lia]. apply Hu; try done; congruence.
    + intros Hno. by destruct (Hno (ip - 1)).
  - split; [lia|]. split; [lia|]. split; [|done]. intros i Hc. by destruct (Hno i).
Qed.

(** C22: The inode cache shares the inodes.  From an empty cache on, through every sequence
    of operations of inodes, directories and files that return, no inode has two entries
    in use.  So [inode_get], when the inode has an entry or some entry is free, returns the
    entry of the inode with one more reference, or takes a free one, whose contents are to
    be read from the disk; no other entry and nothing on the disk changes. *)
Theorem inode_cache_shared s0 s dev inum :
  ks_magic = KSTACK_MAGIC → (∀ i, 0 ≤ i < NINODE → i_ref (slot s0 i) = 0) → rtc fs_step s0 s →
  lock (icache_lock s) = 0 →
  (∃ i, cached s dev inum i) ∨ (∃ i, 0 ≤ i < NINODE ∧ i_ref (slot s i) = 0) →
  unique_cache s ∧
  runs (inode_get dev inum) s (λ ip s',
    f_lg s' = f_lg s ∧ lock (icache_lock s') = 0 ∧ cached s' dev inum (ip - 1) ∧
    i_ref (slot s' (ip - 1)) = i_ref (slot s (ip - 1)) + 1 ∧
    (∀ i, cached s dev inum i → ip = i + 1) ∧
    ((∀ i, ¬ cached s dev inum i) → i_flags (slot s' (ip - 1)) = 0) ∧
    ∀ j, j ≠ ip - 1 → slot s' j = slot s j).
Proof.
  intros Hm Hz Hrtc Hl Hor. assert (unique_cache s) as Hu.
  { assert (unique_cache s0) as Hu0 by (intros i j Hi Hj Hri; rewrite (Hz i Hi) in Hri; lia).
    clear -Hrtc Hu0. induction Hrtc as [|a b c Hs _ IH]; [done|]. by apply IH, (fs_step_unique _ _ Hs). }
  split; [done|]. by apply inode_get_runs.
Qed.

End fs_ops.

(** The cache after the first [inode_get(1, 1)]: its second call returns the same entry. *)
Definition demo_fs (m : gmap Z inode) : fs := {|
  f_lg := demo_lg; icache_lock := Spinlock.free_lk; inodes := m; ftable_lock := Spinlock.free_lk; files := ∅ |}.
Definition demo_root : inode := {| i_dev := 1; i_inum := 1; i_ref := 1; i_flags := 0; i_type := 0; i_major := 0;
  i_minor := 0; i_nlink := 0; i_size := 0; i_addrs := ∅ |}.

#[local] Instance inode_stack : Stack := {| stack_bytes := λ _, 165 |}.

Lemma inode_cache_shared_witness :
  runs (@inode_get demo_env 1 1) (demo_fs {[0 := demo_root]}) (λ ip s', ip = 1 ∧ i_ref (slot s' 0) = 2).
Proof.
  assert (@inode_get demo_env 1 1 (demo_fs ∅) = Ret (1, demo_fs {[0 := demo_root]})) as E by reflexivity.
  assert (@cached (demo_fs {[0 := demo_root]}) 1 1 0) as Hc
    by (split; [split; [discriminate|reflexivity]|split; [reflexivity|split; reflexivity]]).
  assert (∀ i, 0 ≤ i < NINODE → i_ref (slot (demo_fs ∅) i) = 0) as Hz
    by (intros i _; cbn [inodes demo_fs]; rewrite lookup_total_empty; reflexivity).
  destruct (@inode_cache_shared demo_env inode_stack (demo_fs ∅) (demo_fs {[0 := demo_root]}) 1 1 eq_refl
    Hz (rtc_once _ _ (step_get 1 1 _ _ _ E)) eq_refl (or_introl (ex_intro _ 0 Hc))) as [_ Hr].
  eapply runs_mono; [exact Hr|]. intros ip s' (_ & _ & _ & Href & Hsame & _). assert (ip = 1) as -> by exact (Hsame 0 Hc).
  split; [reflexivity|exact Href].
Defined.
