(* ===== verification/BlockSpec.v ===== *)
(** * Disk blocks in a transaction

    The blocks of the disk as the code of the file system sees them inside a transaction:
    a function from block numbers to contents, which reads and writes through the buffer
    cache and the log act on.  On this view, what the operations of kern/fs/block.c do to
    the bitmap of the free blocks. *)

From stdpp Require Import functions.
From S2P Require Import Prelude Spinlock Mem DList Bufcache BufSpec Log LogSpec Crash Inode.

(** ** The view of a transaction *)

(** A buffer that the caller holds: its place, its block, and whether its content was
    changed since it was read or logged. *)
Record held := Held { h_buf : Z; h_blk : Z; h_new : bool }.

Definition h_bufs (K : list held) : list Z := h_buf <$> K.
Definition h_blks (K : list held) : list Z := h_blk <$> K.

(** The blocks that the code may change. *)
Definition blk_ok (st x : Z) : Prop := 0 ≤ x < 2 ^ 28 ∧ ¬ in_log st x.

Record held_ok (c : bc) (st : Z) (V : Z → memory) (T : gmap Z memory) (h : held) : Prop := {
  he_buf : is_buf (h_buf h);
  he_blk : blk_ok st (h_blk h);
  he_flags : b_flags (bufx c (h_buf h)) = fl true true (bool_decide (is_Some (T !! h_blk h)));
  he_dev : b_dev (bufx c (h_buf h)) = 1;
  he_sector : b_sector (bufx c (h_buf h)) = h_blk h;
  he_data : b_data (bufx c (h_buf h)) = V (h_blk h);
  he_old : h_new h = false → V (h_blk h) = view c T (h_blk h);
}.

(** Outside of a transaction, or inside of one that began with the disk [D] after the writes
    [W]; since then only slots of the log were written. *)
Definition txid : Type := option (gmap (Z * Z) memory * list (Z * Z * memory)).

Definition traced (B : txid) (st : Z) (c : bc) : Prop :=
  match B with
  | None => True
  | Some (D, W) => ∃ sls, slots st sls ∧ d_disk c = apply_writes sls D ∧ d_writes c = W ++ sls
  end.

Lemma traced_same B st c c' : d_disk c' = d_disk c → d_writes c' = d_writes c → traced B st c → traced B st c'.
Proof. destruct B as [[D W]|]; simpl; [|done]. by intros -> ->. Qed.

Section rules.
Context `{KEnv} (B : txid).
Hypothesis Hmagic : ks_magic = KSTACK_MAGIC.

(** The blocks [L] are logged, the caller holds the buffers [K], and the blocks have the
    contents [V]. *)
Record tx_with (s : lg) (st : Z) (V : Z → memory) (L : gset Z) (K : list held)
  (secs : list Z) (T T' : gmap Z memory) : Prop := {
  tx_logged : logged s st secs T;
  tx_pins : pins (l_bc s) T' (h_bufs K);
  tx_rest : ∀ x, T' !! x = if decide (x ∈ h_blks K) then None else T !! x;
  tx_dom : dom T = L;
  tx_busy : log_busy s = match B with Some _ => 1 | None => 0 end;
  tx_lock : lock (log_lock s) = 0;
  tx_nodup : NoDup (h_blks K);
  tx_held : Forall (held_ok (l_bc s) st V T) K;
  tx_view : ∀ x, ¬ in_log st x → x ∉ h_blks K → V x = view (l_bc s) T x;
  tx_trace : traced B st (l_bc s);
  tx_one : 1 ∉ L;
}.
Definition tx (s : lg) (st : Z) (V : Z → memory) (L : gset Z) (K : list held) : Prop :=
  ∃ secs T T', tx_with s st V L K secs T T'.

Lemma tx_sub s st V L K secs T T' : tx_with s st V L K secs T T' → T' ⊆ T.
Proof.
  intros Htx. apply map_subseteq_spec. intros x d. rewrite (tx_rest _ _ _ _ _ _ _ _ Htx). by case_decide.
Qed.

Lemma tx_size s st V L K secs T T' : tx_with s st V L K secs T T' →
  length secs = size L ∧ (size T' ≤ size L)%nat.
Proof.
  intros Htx. rewrite <- (tx_dom _ _ _ _ _ _ _ _ Htx), size_dom.
  split; [by rewrite (lo_len _ _ _ _ (tx_logged _ _ _ _ _ _ _ _ Htx))|].
  by apply map_subseteq_size, (tx_sub _ _ _ _ _ _ _ _ Htx).
Qed.

Lemma tx_in s st V L K secs T T' h : tx_with s st V L K secs T T' → h ∈ K → held_ok (l_bc s) st V T h.
Proof. intros Htx Hh. by apply (proj1 (Forall_forall _ _) (tx_held _ _ _ _ _ _ _ _ Htx)). Qed.

Lemma held_pinned c st V T h : held_ok c st V T h → evictable c (h_buf h) = false.
Proof. intros []. by rewrite (evictable_fl _ _ _ _ _ he_flags0). Qed.

(** A held buffer that kept its core is still held, when the rest that matters stays. *)
Lemma held_core c c' st V V' T T1 h :
  held_ok c st V T h → same_core (bufx c' (h_buf h)) (bufx c (h_buf h)) → V' (h_blk h) = V (h_blk h) →
  T1 !! h_blk h = T !! h_blk h → view c' T1 (h_blk h) = view c T (h_blk h) → held_ok c' st V' T1 h.
Proof.
  intros [] (E1 & E2 & E3 & E4) EV ET Ew. constructor; rewrite ?E1, ?E2, ?E3, ?E4, ?EV, ?ET, ?Ew; done.
Qed.

(** The buffer of another block is another buffer. *)
Lemma held_ne s st V L b x m K secs T T' h :
  tx_with s st V L (Held b x m :: K) secs T T' → h ∈ K → h_buf h ≠ b ∧ h_blk h ≠ x.
Proof.
  intros Htx Hh. pose proof (tx_nodup _ _ _ _ _ _ _ _ Htx) as [Hx _]%NoDup_cons. simpl in Hx.
  assert (h_blk h ≠ x) as Hn by (intros <-; by apply Hx, list_elem_of_fmap_2).
  split; [|done]. intros E. apply Hn. pose proof (tx_in _ _ _ _ _ _ _ _ (Held b x m) Htx ltac:(by left)) as [].
  pose proof (tx_in _ _ _ _ _ _ _ _ h Htx ltac:(by right)) as []. simpl in *. congruence.
Qed.

Lemma tx_ext s st V V' L K : tx s st V L K → (∀ x, V' x = V x) → tx s st V' L K.
Proof.
  intros (secs & T & T' & Htx) E. exists secs, T, T'. pose proof Htx as []. constructor; try done.
  - apply Forall_forall. intros h Hh. eapply held_core; [by eapply tx_in| |by rewrite E|done|done]. done.
  - intros x Hx Hk. rewrite E. auto.
Qed.

(** Reading a block. *)
Lemma tx_read s st V L K x :
  tx s st V L K → blk_ok st x → x ∉ h_blks K → Z.of_nat (size L + length K) < NBUF →
  runs (zoom (bufcache_read 1 x)) s (λ b s', tx s' st V L (Held b x false :: K)).
Proof.
  intros (secs & T & T' & Htx) [Hx Hxl] HxK Hsz. pose proof (tx_size _ _ _ _ _ _ _ _ Htx) as [_ Hs'].
  pose proof Htx as [Hlg Hp Hr Hd Hb Hl Hn Hh Hv Htr Hone].
  assert (T' !! x = T !! x) as ET by (rewrite Hr; by case_decide).
  eapply runs_mono.
  { apply runs_bc, (read_pins Hmagic _ T' (h_bufs K) x Hp); [|done|].
    - intros c (h & -> & Hin)%list_elem_of_fmap. pose proof (tx_in _ _ _ _ _ _ _ _ _ Htx Hin) as Ho.
      split; [|by eapply held_pinned]. rewrite (he_sector _ _ _ _ _ Ho). intros <-.
      by apply HxK, list_elem_of_fmap_2.
    - unfold h_bufs. rewrite length_fmap. lia. }
  intros b s' (c & -> & Hg & Hp' & HbK). rewrite ET in Hg. pose proof Hg as [Hok Hbb F D S Dt O Dk W].
  assert (∀ y, view c T y = view (l_bc s) T y) as Ev by (intros y; unfold view; by rewrite Dk).
  exists secs, T, (delete x T'). constructor; [|done| |done|done|done| | | |by eapply traced_same|done].
  - destruct Hlg as [[] ? [] ? ? ? Hs]. constructor; [done..|]. intros i y Hi. simpl. rewrite Dk. auto.
  - intros y. destruct (decide (y = x)) as [->|Hy].
    + rewrite lookup_delete_eq, decide_True; [done|by left].
    + rewrite lookup_delete_ne by done. rewrite Hr. simpl. apply decide_ext. rewrite elem_of_cons. naive_solver.
  - simpl. by apply NoDup_cons.
  - simpl. apply Forall_cons. split.
    + constructor; simpl; try done; [rewrite Dt; unfold view; rewrite ET; symmetry; by apply Hv|].
      intros _. rewrite Ev. by apply Hv.
    + apply Forall_forall. intros h Hin. pose proof (tx_in _ _ _ _ _ _ _ _ _ Htx Hin) as Ho.
      eapply held_core; [exact Ho| |done|done|apply Ev]. apply O; [apply Ho|].
      intros <-. by apply HbK, list_elem_of_fmap_2.
  - simpl. intros y Hy [_ HyK]%not_elem_of_cons. rewrite Ev. by apply Hv.
Qed.

(** Looking at a block that is held. *)
Lemma tx_data s st V L K b x m :
  tx s st V L K → Held b x m ∈ K → zoom (bget b b_data) s = Ret (V x, s).
Proof.
  intros (secs & T & T' & Htx) Hin. pose proof (tx_in _ _ _ _ _ _ _ _ _ Htx Hin) as []. simpl in *.
  unfold is_buf in he_buf0. apply zoom_read. rewrite bget_run by lia.
  change (lget s) with (l_bc s). by rewrite he_data0.
Qed.

(** Changing a block that is held. *)
Lemma tx_mod s st V L K b x m g :
  tx s st V L (Held b x m :: K) →
  runs (zoom (bmod b (λ y, set_b_data (g (b_data y)) y))) s
    (λ _ s', tx s' st (<[x := g (V x)]> V) L (Held b x true :: K)).
Proof.
  intros (secs & T & T' & Htx). pose proof Htx as [Hlg Hp Hr Hd Hb Hl Hn Hh Hv Htr Hone].
  pose proof (tx_in _ _ _ _ _ _ _ _ (Held b x m) Htx ltac:(by left)) as Ho. pose proof Ho as []. simpl in *.
  eapply runs_of_eq; [by apply zoom_bmod_data|]. rewrite he_data0. set (c := with_data b (g (V x)) (l_bc s)).
  assert (∀ y, view c T y = view (l_bc s) T y) as Ev by done.
  exists secs, T, T'. constructor; [|  |done|done|done|done|done| | |done|done].
  - by destruct Hlg as [[] ? [] ? ? ? Hs].
  - simpl. apply (pins_change (l_bc s) _ _ _ b); [done|by left| |by intros; apply with_data_ne].
    eapply with_data_ok; [apply Hp|done|exact he_flags0|done].
  - simpl. apply Forall_cons. split.
    + constructor; simpl; unfold c; rewrite ?with_data_at; simpl; try done. by rewrite fn_lookup_insert.
    + apply Forall_forall. intros h Hin. pose proof (held_ne _ _ _ _ _ _ _ _ _ _ _ _ Htx Hin) as [Hnb Hnx].
      eapply held_core; [eapply (tx_in _ _ _ _ _ _ _ _ h Htx); by right| | |done|apply Ev].
      * unfold c. by rewrite with_data_ne.
      * by rewrite fn_lookup_insert_ne.
  - simpl. intros y Hy Hk. rewrite Ev, fn_lookup_insert_ne by (apply not_elem_of_cons in Hk as [? _]; congruence). by apply Hv.
Qed.

(** Giving a block back that was only read, or logged after its last change. *)
Lemma tx_release s st V L K b x :
  tx s st V L (Held b x false :: K) → runs (zoom (bufcache_release b)) s (λ _ s', tx s' st V L K).
Proof.
  intros (secs & T & T' & Htx). pose proof Htx as [Hlg Hp Hr Hd Hb Hl Hn Hh Hv Htr Hone].
  pose proof (tx_in _ _ _ _ _ _ _ _ (Held b x false) Htx ltac:(by left)) as []. simpl in *.
  apply NoDup_cons in Hn as [HxK Hn].
  assert (b ∉ h_bufs K) as HbK.
  { intros (h & -> & Hin)%list_elem_of_fmap. by destruct (held_ne _ _ _ _ _ _ _ _ _ _ _ _ Htx Hin). }
  assert (∀ c, d_disk c = d_disk (l_bc s) → d_writes c = d_writes (l_bc s) → (∀ a, is_buf a → a ≠ b → same_core (bufx c a) (bufx (l_bc s) a)) →
    (∃ T1, pins c T1 (h_bufs K) ∧ ∀ y, T1 !! y = if decide (y ∈ h_blks K) then None else T !! y) →
    tx (set_l_bc c s) st V L K) as Hpost.
  { intros c Dk Wk O (T1 & Hp1 & HT1). assert (∀ y, view c T y = view (l_bc s) T y) as Ev by (intros y; unfold view; by rewrite Dk).
    exists secs, T, T1. constructor; try done; [..|by eapply traced_same].
    - destruct Hlg as [[] ? [] ? ? ? Hs]. constructor; [done..|]. intros i y Hi. simpl. rewrite Dk. auto.
    - apply Forall_forall. intros h Hin. pose proof (held_ne _ _ _ _ _ _ _ _ _ _ _ _ Htx Hin) as [Hnb Hnx].
      pose proof (tx_in _ _ _ _ _ _ _ _ h Htx ltac:(by right)) as Ho.
      eapply held_core; [exact Ho| |done|done|apply Ev]. apply O; [apply Ho|done].
    - intros y Hy Hk. simpl. rewrite Ev. destruct (decide (y = x)) as [->|Hyx]; [auto|].
      apply Hv; [done|]. by apply not_elem_of_cons. }
  assert (∀ y, y ≠ x → T' !! y = if decide (y ∈ h_blks K) then None else T !! y) as HT'.
  { intros y Hy. rewrite Hr. simpl. apply decide_ext. rewrite elem_of_cons. naive_solver. }
  assert (T' !! x = None) as HT'x by (rewrite Hr, decide_True by (by left); done).
  specialize (he_old0 eq_refl). destruct (T !! x) as [d|] eqn:ET.
  - eapply runs_mono.
    { apply runs_bc, (release_pins Hmagic (l_bc s) T' (h_bufs K) x b (V x)); try done. by rewrite delete_id. }
    intros [] s' (c & -> & Hp' & Dk & Wk & O). apply Hpost; [done|done|done|]. eexists. split; [exact Hp'|].
    intros y. destruct (decide (y = x)) as [->|Hy].
    + rewrite lookup_insert_eq, decide_False by done. rewrite ET. unfold view in he_old0. by rewrite ET in he_old0; rewrite he_old0.
    + rewrite lookup_insert_ne by done. by apply HT'.
  - eapply runs_mono.
    { apply runs_bc, (release_clean Hmagic (l_bc s) T' (h_bufs K) b); try done.
      rewrite he_data0, he_sector0, he_old0. unfold view. by rewrite ET. }
    intros [] s' (c & -> & Hp' & Dk & Wk & O). apply Hpost; [done|done|done|]. exists T'. split; [done|].
    intros y. destruct (decide (y = x)) as [->|Hy]; [by rewrite HT'x, decide_False|by apply HT'].
Qed.

(** The super block. *)
Lemma tx_superblock s st V L K :
  tx s st V L K → 1 ∉ h_blks K → Z.of_nat (size L + length K) < NBUF →
  runs (zoom (read_superblock 1)) s (λ sb s', tx s' st V L K ∧
    sb_size sb = load32 (V 1) 0 ∧ sb_ninodes sb = load32 (V 1) 8).
Proof.
  intros Htx Hk Hsz. assert (blk_ok st 1) as H1.
  { destruct Htx as (secs & T & T' & []). destruct (lo_log _ _ _ _ tx_logged0) as [_ _ ?].
    split; [done|]. apply out_log. lia. }
  unfold read_superblock. eapply runs_rw; [apply zoom_bind|]. eapply runs_bind_mono; [by apply tx_read|].
  intros b s1 Htx1. eapply runs_rw; [apply zoom_bind|].
  eapply runs_bind_eq; [eapply tx_data; [exact Htx1|by left]|].
  eapply runs_rw; [apply zoom_bind|]. eapply runs_bind_mono; [by apply (tx_release _ _ _ _ _ _ _ Htx1)|].
  intros [] s2 Htx2. eapply runs_of_eq; [by apply zoom_Ret|]. rewrite lset_lget. done.
Qed.

(** The rest is about code in a transaction. *)
Hypothesis Hopen : B ≠ None.

(** Logging it. *)
Lemma tx_log s st V L K b x m :
  tx s st V L (Held b x m :: K) → x ≠ 1 → Z.of_nat (size L) < LOGSIZE - 1 → Z.of_nat (size L + length K) < NBUF - 1 →
  runs (log_write b) s (λ _ s', tx s' st V (L ∪ {[x]}) (Held b x false :: K)).
Proof.
  intros (secs & T & T' & Htx) Hx1 Hsz Hsz2. pose proof Htx as [Hlg Hp Hr Hd Hb Hl Hn Hh Hv Htr Hone].
  assert (log_busy s ≠ 0) by (rewrite Hb; by destruct B). pose proof (tx_size _ _ _ _ _ _ _ _ Htx) as [Hlen Hs'].
  pose proof (tx_in _ _ _ _ _ _ _ _ (Held b x m) Htx ltac:(by left)) as []. simpl in *. destruct he_blk0 as [Hx Hxl].
  assert (Z.of_nat (length secs) < LOGSIZE - 1) as Hlen' by lia.
  eapply runs_mono.
  { eapply (log_write_runs Hmagic s st secs T T' (b :: h_bufs K) x b _ (V x)); try done.
    - by eapply tx_sub.
    - simpl. unfold h_bufs. rewrite length_fmap. lia.
    - intros c [->|(h & -> & Hin)%list_elem_of_fmap]%elem_of_cons; [by rewrite he_sector0|].
      pose proof (tx_in _ _ _ _ _ _ _ _ h Htx ltac:(by right)) as []. rewrite he_sector1. apply he_blk0.
    - by left. }
  intros [] s' Hw. destruct (logged_wrote _ _ _ _ _ _ _ _ _ _ Hlg Hx Hxl Hlen' Hw)
    as (secs' & sl & Hlg' & _ & Hsl & Hdk & Hwk).
  destruct Hw as [_ Hp' Hbuf Hheld (L1 & _ & _ & L2 & _)].
  assert (∀ y, y ≠ x → ¬ in_log st y → view (l_bc s') (<[x := V x]> T) y = view (l_bc s) T y) as Ev.
  { intros y Hy Hyl. unfold view. rewrite lookup_insert_ne by done. rewrite Hdk. simpl.
    rewrite lookup_total_insert_ne; [done|]. intros [= <-]. apply Hyl. unfold in_log. lia. }
  exists secs', (<[x := V x]> T), T'. constructor; [done|done| | |congruence|congruence|done| | | |set_solver].
  - intros y. rewrite Hr. simpl. case_decide as Ein; [done|]. rewrite lookup_insert_ne; [done|].
    intros ->. apply Ein. by left.
  - rewrite dom_insert_L, Hd. set_solver.
  - apply Forall_cons. destruct Hbuf as (F & D & S & Dt). simpl in *. split.
    + constructor; simpl; rewrite ?F, ?D, ?S, ?Dt; try done.
      * rewrite lookup_insert_eq. done.
      * intros _. unfold view. by rewrite lookup_insert_eq.
    + apply Forall_forall. intros h Hin. pose proof (held_ne _ _ _ _ _ _ _ _ _ _ _ _ Htx Hin) as [Hnb Hnx].
      pose proof (tx_in _ _ _ _ _ _ _ _ h Htx ltac:(by right)) as Ho.
      eapply held_core; [exact Ho| |done|by rewrite lookup_insert_ne|apply Ev; [done|apply Ho]].
      apply Hheld; [apply Ho|done|by eapply held_pinned].
  - simpl. intros y Hy Hk. pose proof Hk as [? _]%not_elem_of_cons. rewrite Ev by done. by apply Hv.
  - unfold traced in *. destruct B as [[D W]|]; [|done]. destruct Htr as (sls & Hs & E1 & E2). exists (sls ++ [(1, sl, V x)]).
    split; [apply Forall_app; split; [done|]; constructor; [by exists sl|constructor]|].
    by rewrite apply_writes_app, <- E1, Hdk, Hwk, E2, app_assoc.
Qed.

(** ** Zeroing a block *)

Definition zeroed (d : memory) : memory := fill (Z.to_nat BSIZE) 0 0 d.

Lemma tx_block_zero s st V L K x :
  tx s st V L K → blk_ok st x → x ≠ 1 → x ∉ h_blks K → Z.of_nat (size L) < LOGSIZE - 1 →
  Z.of_nat (size L + length K) < NBUF - 1 →
  runs (block_zero 1 x) s (λ _ s', tx s' st (<[x := zeroed (V x)]> V) (L ∪ {[x]}) K).
Proof.
  intros Htx Hx Hx1 Hk Hsz Hsz2. unfold block_zero. eapply runs_bind_mono; [apply (tx_read _ _ _ _ _ _ Htx); [done|done|lia]|].
  intros b s1 Htx1. eapply runs_bind_mono; [apply (tx_mod _ _ _ _ _ _ _ _ zeroed Htx1)|].
  intros [] s2 Htx2. eapply runs_bind_mono; [by apply (tx_log _ _ _ _ _ _ _ _ Htx2)|].
  intros [] s3 Htx3. by apply (tx_release _ _ _ _ _ _ _ Htx3).
Qed.

(** ** The bitmap *)

(** Where the parts of the disk are: the number of blocks, the number of inodes, and the
    start of the log. *)
Record geom := { g_size : Z; g_ninodes : Z; g_st : Z }.

(** The block of the bitmap that has the bit of a block; the first block that is not
    reserved for the super block, the inodes and the bitmap. *)
Definition bm (g : geom) (b : Z) : Z := BBLOCK b (g_ninodes g).
Definition data_start (g : geom) : Z := g_ninodes g / IPB + 3 + bitmap_blocks (g_size g).

Record geom_ok (g : geom) : Prop := {
  go_ninodes : 0 ≤ g_ninodes g;
  go_log : data_start g ≤ g_st g;
  go_size : 0 < g_size g < 2 ^ 28;
  go_range : g_st g + LOGSIZE + 1 < 2 ^ 28;
}.

(** Block [b] is marked as used. *)
Definition bit_of (d : memory) (bi : Z) : bool := Z.testbit (load8 d (bi / 8)) (bi mod 8).
Definition used (g : geom) (V : Z → memory) (b : Z) : bool := bit_of (V (bm g b)) (b mod BPB).

(** The blocks that no file may get. *)
Definition reserved (g : geom) (b : Z) : Prop := b < data_start g ∨ in_log (g_st g) b.

(** The super block is right and the reserved blocks are marked as used. *)
Record disk_ok (g : geom) (V : Z → memory) : Prop := {
  di_size : load32 (V 1) 0 = g_size g;
  di_ninodes : load32 (V 1) 8 = g_ninodes g;
  di_meta : ∀ b, 0 ≤ b < g_size g → reserved g b → used g V b = true;
}.

Lemma bm_range g b : geom_ok g → 0 ≤ b < g_size g →
  bm g b = b / BPB + g_ninodes g / IPB + 3 ∧ 3 ≤ bm g b < data_start g.
Proof.
  intros [Hn Hl Hs Hr] Hb. unfold data_start, bitmap_blocks, bm, BBLOCK, LOGSIZE, BPB, IPB, DINODE_SIZE, BSIZE in *.
  change (512 * 8) with 4096 in *. change (512 / 64) with 8 in *. change (2 ^ 28) with 268435456 in *.
  rewrite u32_small by (unfold W32; divlia). divlia.
Qed.

Lemma bm_ok g b : geom_ok g → 0 ≤ b < g_size g → blk_ok (g_st g) (bm g b).
Proof.
  intros Hg Hb. destruct (bm_range g b Hg Hb) as [_ ?]. destruct Hg as [Hn Hl Hs Hr].
  change (2 ^ 28) with 268435456 in *. unfold LOGSIZE in *. split; [lia|]. apply out_log. lia.
Qed.

Lemma free_ok g V b : geom_ok g → disk_ok g V → 0 ≤ b < g_size g → used g V b = false →
  blk_ok (g_st g) b ∧ data_start g ≤ b.
Proof.
  intros Hg Hd Hb Hu. assert (¬ reserved g b) as Hn by (intros Hr%(di_meta g V Hd b Hb); congruence).
  unfold reserved in Hn. split; [split; [pose proof (go_size g Hg); lia|tauto]|lia].
Qed.

Definition set_bit (d : memory) (bi : Z) : memory :=
  store8 (bi / 8) (Z.lor (load8 d (bi / 8)) (Z.shiftl 1 (bi mod 8))) d.
Definition clear_bit (d : memory) (bi : Z) : memory :=
  store8 (bi / 8) (Z.land (load8 d (bi / 8)) (Z.lnot (Z.shiftl 1 (bi mod 8)))) d.

Lemma testbit_u8 v i : 0 ≤ i < 8 → Z.testbit (u8 v) i = Z.testbit v i.
Proof. intros Hi. unfold u8. change 256 with (2 ^ 8). apply Z.mod_pow2_bits_low. lia. Qed.

Lemma bit_change d bi j f : 0 ≤ bi < BPB → 0 ≤ j < BPB →
  bit_of (store8 (bi / 8) f d) j =
    if bool_decide (bi / 8 = j / 8) then Z.testbit f (j mod 8) else bit_of d j.
Proof.
  unfold BPB, BSIZE. intros Hb Hj. unfold bit_of. rewrite load8_store8 by (unfold W32; divlia).
  case_bool_decide; [|done]. apply testbit_u8. divlia.
Qed.

Lemma set_bit_spec d bi j : 0 ≤ bi < BPB → 0 ≤ j < BPB →
  bit_of (set_bit d bi) j = bool_decide (j = bi) || bit_of d j.
Proof.
  intros Hb Hj. unfold set_bit. rewrite bit_change by done. case_bool_decide as E.
  - rewrite Z.lor_spec, Z.shiftl_1_l, Z.pow2_bits_eqb by divlia. unfold bit_of. rewrite E, orb_comm. f_equal.
    apply eq_true_iff_eq. rewrite Z.eqb_eq, bool_decide_eq_true. divlia.
  - by rewrite bool_decide_eq_false_2 by congruence.
Qed.

Lemma clear_bit_spec d bi j : 0 ≤ bi < BPB → 0 ≤ j < BPB →
  bit_of (clear_bit d bi) j = bool_decide (j ≠ bi) && bit_of d j.
Proof.
  intros Hb Hj. unfold clear_bit. rewrite bit_change by done. case_bool_decide as E.
  - rewrite Z.land_spec, Z.lnot_spec, Z.shiftl_1_l, Z.pow2_bits_eqb by divlia. unfold bit_of. rewrite E, andb_comm. f_equal.
    apply eq_true_iff_eq. rewrite negb_true_iff, Z.eqb_neq, bool_decide_eq_true. divlia.
  - by rewrite bool_decide_eq_true_2 by congruence.
Qed.

Lemma bm_eq g b b' : geom_ok g → 0 ≤ b < g_size g → 0 ≤ b' < g_size g → bm g b' = bm g b ↔ b' / BPB = b / BPB.
Proof. intros Hg Hb Hb'. rewrite (proj1 (bm_range g b Hg Hb)), (proj1 (bm_range g b' Hg Hb')). lia. Qed.

Lemma used_set g V b b' : geom_ok g → 0 ≤ b < g_size g → 0 ≤ b' < g_size g →
  used g (<[bm g b := set_bit (V (bm g b)) (b mod BPB)]> V) b' = bool_decide (b' = b) || used g V b'.
Proof.
  intros Hg Hb Hb'. pose proof (bm_eq g b b' Hg Hb Hb') as Hbm. unfold used.
  assert (BPB = 4096) as EB by done.
  destruct (decide (bm g b' = bm g b)) as [E|E].
  - rewrite E, fn_lookup_insert, set_bit_spec by (rewrite EB; apply Z.mod_pos_bound; lia). f_equal.
    apply bool_decide_ext. apply Hbm in E. rewrite EB in *. divlia.
  - rewrite fn_lookup_insert_ne by done. rewrite bool_decide_eq_false_2; [done|]. by intros ->.
Qed.

Lemma used_clear g V b b' : geom_ok g → 0 ≤ b < g_size g → 0 ≤ b' < g_size g →
  used g (<[bm g b := clear_bit (V (bm g b)) (b mod BPB)]> V) b' = bool_decide (b' ≠ b) && used g V b'.
Proof.
  intros Hg Hb Hb'. pose proof (bm_eq g b b' Hg Hb Hb') as Hbm. unfold used.
  assert (BPB = 4096) as EB by done.
  destruct (decide (bm g b' = bm g b)) as [E|E].
  - rewrite E, fn_lookup_insert, clear_bit_spec by (rewrite EB; apply Z.mod_pos_bound; lia). f_equal.
    apply bool_decide_ext. apply Hbm in E. rewrite EB in *. divlia.
  - rewrite fn_lookup_insert_ne by done. rewrite bool_decide_eq_true_2; [done|]. by intros ->.
Qed.

(** Writing a block that is neither the super block nor in the bitmap. *)
Lemma used_other g V x d b : geom_ok g → 0 ≤ b < g_size g → data_start g ≤ x → used g (<[x := d]> V) b = used g V b.
Proof.
  intros Hg Hb Hx. unfold used. destruct (bm_range g b Hg Hb). by rewrite fn_lookup_insert_ne by lia.
Qed.

(** ** Allocation *)

(** The contents after block [b] was allocated, or freed. *)
Definition alloc_view (g : geom) (V : Z → memory) (b : Z) : Z → memory :=
  <[b := zeroed (V b)]> (<[bm g b := set_bit (V (bm g b)) (b mod BPB)]> V).
Definition free_view (g : geom) (V : Z → memory) (b : Z) : Z → memory :=
  <[bm g b := clear_bit (V (bm g b)) (b mod BPB)]> V.

Lemma used_alloc g V b b' : geom_ok g → 0 ≤ b < g_size g → data_start g ≤ b → 0 ≤ b' < g_size g →
  used g (alloc_view g V b) b' = bool_decide (b' = b) || used g V b'.
Proof. intros Hg Hb Hd Hb'. unfold alloc_view. rewrite used_other by done. by apply used_set. Qed.

Lemma geom_start g : geom_ok g → 3 ≤ data_start g.
Proof.
  intros [Hn _ Hs _]. unfold data_start, bitmap_blocks, IPB, BPB, BSIZE, DINODE_SIZE.
  change (512 / 64) with 8. change (512 * 8) with 4096. divlia.
Qed.

Lemma alloc_disk_ok g V b : geom_ok g → disk_ok g V → 0 ≤ b < g_size g → data_start g ≤ b →
  disk_ok g (alloc_view g V b).
Proof.
  intros Hg [H1 H8 Hm] Hb Hd. pose proof (geom_start g Hg). destruct (bm_range g b Hg Hb) as [_ ?].
  assert (alloc_view g V b 1 = V 1) as E1 by (unfold alloc_view; by rewrite !fn_lookup_insert_ne by lia).
  constructor; rewrite ?E1; [done|done|]. intros b' Hb' Hr. rewrite used_alloc by done. by rewrite Hm, orb_true_r.
Qed.

Lemma free_disk_ok g V b : geom_ok g → disk_ok g V → 0 ≤ b < g_size g → ¬ reserved g b → disk_ok g (free_view g V b).
Proof.
  intros Hg [H1 H8 Hm] Hb Hd. destruct (bm_range g b Hg Hb) as [_ ?].
  assert (free_view g V b 1 = V 1) as E1 by (unfold free_view; by rewrite fn_lookup_insert_ne by lia).
  constructor; rewrite ?E1; [done|done|]. intros b' Hb' Hr. unfold free_view. rewrite used_clear by done.
  rewrite Hm by done. rewrite bool_decide_eq_true_2; [done|]. by intros ->.
Qed.

(** The first free block. *)
Definition first_free (g : geom) (V : Z → memory) (b : Z) : Prop :=
  0 ≤ b < g_size g ∧ used g V b = false ∧ ∀ b', 0 ≤ b' < b → used g V b' = true.

(** The caller holds blocks of files only. *)
Definition holds_files (g : geom) (V : Z → memory) (K : list held) : Prop :=
  Forall (λ x, data_start g ≤ x ∧ used g V x = true) (h_blks K).

Lemma holds_files_not g V K x : holds_files g V K → x < data_start g ∨ used g V x = false → x ∉ h_blks K.
Proof. intros Hf Hx Hin. apply (proj1 (Forall_forall _ _) Hf) in Hin as [? ?]. destruct Hx; [lia|congruence]. Qed.

(** Marking the free block [b] and zeroing it. *)
Lemma tx_take {A} s g V L K bp b (r : A) :
  geom_ok g → disk_ok g V → 0 ≤ b < g_size g → used g V b = false → holds_files g V K →
  tx s (g_st g) V L (Held bp (bm g b) false :: K) →
  Z.of_nat (size (L ∪ {[bm g b]})) < LOGSIZE - 1 → Z.of_nat (size (L ∪ {[bm g b]}) + length K) < NBUF - 1 →
  runs (zoom (bmod bp (λ x, set_b_data (set_bit (b_data x) (b mod BPB)) x)) ;;;
        log_write bp ;;;
        zoom (bufcache_release bp) ;;;
        block_zero 1 b ;;;
        ret r) s
    (λ v s', v = r ∧ tx s' (g_st g) (alloc_view g V b) (L ∪ {[bm g b]} ∪ {[b]}) K).
Proof.
  intros Hg Hd Hb Hu HK Htx Hsz Hsz2. destruct (free_ok g V b Hg Hd Hb Hu) as [Hbo Hds].
  destruct (bm_range g b Hg Hb) as [_ Hbm].
  assert (size L ≤ size (L ∪ {[bm g b]}))%nat as Hle by (apply subseteq_size; set_solver).
  eapply runs_bind_mono; [apply (tx_mod _ _ _ _ _ _ _ _ (λ d, set_bit d (b mod BPB)) Htx)|].
  intros [] s1 Htx1. eapply runs_bind_mono; [apply (tx_log _ _ _ _ _ _ _ _ Htx1); lia|].
  intros [] s2 Htx2. eapply runs_bind_mono; [apply (tx_release _ _ _ _ _ _ _ Htx2)|].
  intros [] s3 Htx3. eapply runs_bind_mono.
  { apply (tx_block_zero _ _ _ _ _ b Htx3); [done|lia| |done|done]. apply (holds_files_not g V); [done|by right]. }
  intros [] s4 Htx4. apply runs_ret. split; [done|]. eapply tx_ext; [exact Htx4|]. intros x. unfold alloc_view.
  by rewrite (fn_lookup_insert_ne _ (bm g b) b) by lia.
Qed.

(** There is room in the log and in the cache for the blocks that an allocation changes. *)
Definition alloc_room (g : geom) (L : gset Z) (K : list held) (b : Z) : Prop :=
  Z.of_nat (size (L ∪ {[bm g b]})) < LOGSIZE - 1 ∧ Z.of_nat (size (L ∪ {[bm g b]}) + length K) < NBUF - 1.

(** What the scan of [block_alloc] ends with. *)
Definition alloc_post (g : geom) (V : Z → memory) (L : gset Z) (K : list held) (r : option Z) (s : lg) : Prop :=
  match r with
  | Some b => first_free g V b ∧ tx s (g_st g) (alloc_view g V b) (L ∪ {[bm g b]} ∪ {[b]}) K
  | None => (∀ b, 0 ≤ b < g_size g → used g V b = true) ∧ tx s (g_st g) V L K
  end.

(** The scan of one block of the bitmap. *)
Lemma tx_scan_block s g V L K bp k :
  geom_ok g → disk_ok g V → holds_files g V K → (∀ b, first_free g V b → alloc_room g L K b) →
  0 ≤ k → BPB * k < g_size g → (∀ b, 0 ≤ b < BPB * k → used g V b = true) →
  tx s (g_st g) V L (Held bp (bm g (BPB * k)) false :: K) →
  runs (for_exit 0 (min BPB (g_size g - BPB * k)) (λ bi,
      let m := Z.shiftl 1 (bi mod 8) in
      let! d := zoom (bget bp b_data) in
      if Z.land (load8 d (bi / 8)) m =? 0 then
        zoom (bmod bp (λ x, set_b_data (store8 (bi / 8) (Z.lor (load8 (b_data x) (bi / 8)) m) (b_data x)) x)) ;;;
        log_write bp ;;;
        zoom (bufcache_release bp) ;;;
        block_zero 1 (u32 (BPB * k + bi)) ;;;
        ret (Some (BPB * k + bi))
      else ret None)) s
    (λ r s', match r with
      | Some b => alloc_post g V L K (Some b) s'
      | None => (∀ b, 0 ≤ b < g_size g → b < BPB * (k + 1) → used g V b = true) ∧
          tx s' (g_st g) V L (Held bp (bm g (BPB * k)) false :: K)
      end).
Proof.
  intros Hg Hd HK Hroom Hk Hks Hprev Htx. pose proof (go_size g Hg) as [_ Hsz]. change (2 ^ 28) with 268435456 in Hsz.
  assert (BPB = 4096) as EB by done. unfold min in *. set (hi := if _ <? _ then _ else _).
  assert (hi = Z.min BPB (g_size g - BPB * k)) as Ehi by (unfold hi; destruct (Z.ltb_spec BPB (g_size g - BPB * k)); lia).
  apply (for_exit_runs (λ bi t, (∀ b, 0 ≤ b < BPB * k + bi → used g V b = true) ∧
    tx t (g_st g) V L (Held bp (bm g (BPB * k)) false :: K))); [lia|by rewrite Z.add_0_r| |].
  - intros bi t Hbi [Hp Ht]. set (b := BPB * k + bi).
    assert (0 ≤ b < g_size g ∧ b mod BPB = bi ∧ bm g (BPB * k) = bm g b) as (Hb & Emod & Ebm).
    { unfold b. rewrite bm_eq by (done || lia). rewrite EB in *. split; [lia|]. divlia. }
    rewrite Ebm in *. eapply runs_bind_eq; [eapply tx_data; [exact Ht|by left]|].
    rewrite land_pow2 by (apply Z.mod_pos_bound; lia).
    assert (Z.testbit (load8 (V (bm g b)) (bi / 8)) (bi mod 8) = used g V b) as ->
      by (unfold used, bit_of; by rewrite Emod).
    destruct (used g V b) eqn:Eu; simpl.
    + apply runs_ret. split; [|done]. intros b' Hb'. destruct (decide (b' = b)) as [->|]; [done|]. apply Hp. lia.
    + assert (first_free g V b) as Hff by (split; [done|]; split; [done|]; intros b' Hb'; apply Hp; lia).
      rewrite (u32_small b) by (unfold W32; lia). rewrite <- Emod.
      destruct (Hroom b Hff) as [Hr1 Hr2].
      eapply runs_mono; [by apply (tx_take t g V L K bp b (Some b))|]. by intros v t' [-> Htx'].
  - intros t [Hp Ht]. split; [|done]. intros b Hb Hb'. apply Hp. lia.
Qed.

(** The scan of the whole bitmap. *)
Lemma tx_scan s g V L K :
  geom_ok g → disk_ok g V → holds_files g V K → (∀ b, first_free g V b → alloc_room g L K b) →
  Z.of_nat (size L + length K) < NBUF → tx s (g_st g) V L K →
  runs (for_exit 0 (bitmap_blocks (g_size g)) (λ k,
    let b := BPB * k in
    let! bp := zoom (bufcache_read 1 (BBLOCK b (g_ninodes g))) in
    let! r := for_exit 0 (min BPB (g_size g - b)) (λ bi,
      let m := Z.shiftl 1 (bi mod 8) in
      let! d := zoom (bget bp b_data) in
      if Z.land (load8 d (bi / 8)) m =? 0 then
        zoom (bmod bp (λ x, set_b_data (store8 (bi / 8) (Z.lor (load8 (b_data x) (bi / 8)) m) (b_data x)) x)) ;;;
        log_write bp ;;;
        zoom (bufcache_release bp) ;;;
        block_zero 1 (u32 (b + bi)) ;;;
        ret (Some (b + bi))
      else ret None) in
    match r with
    | Some v => ret (Some v)
    | None => zoom (bufcache_release bp) ;;; ret None
    end)) s (alloc_post g V L K).
Proof.
  intros Hg Hd HK Hroom Hsz Htx. pose proof (go_size g Hg) as [Hs0 _]. assert (BPB = 4096) as EB by done.
  assert (bitmap_blocks (g_size g) = (g_size g + 4095) / 4096) as Ebb by (unfold bitmap_blocks; rewrite EB; f_equal; lia).
  apply (for_exit_runs (λ k t, (∀ b, 0 ≤ b < g_size g → b < BPB * k → used g V b = true) ∧ tx t (g_st g) V L K)).
  - rewrite Ebb. divlia.
  - split; [|done]. lia.
  - intros k t Hk [Hp Ht]. rewrite Ebb in Hk.
    assert (0 ≤ BPB * k < g_size g) as Hkb by (rewrite EB; divlia). change (BBLOCK (BPB * k) (g_ninodes g)) with (bm g (BPB * k)).
    destruct (bm_range g _ Hg Hkb) as [_ Hbm].
    eapply runs_bind_mono; [apply (tx_read _ _ _ _ _ (bm g (BPB * k)) Ht); [by apply bm_ok|apply (holds_files_not g V); [done|left; lia]|done]|].
    intros bp t1 Ht1. eapply runs_bind_mono.
    { apply (tx_scan_block t1 g V L K bp k); try done; [lia|lia|]. intros b Hb. apply Hp; lia. }
    intros [b|] t2 Hpost; [by apply runs_ret|]. destruct Hpost as [Hu Ht2].
    eapply runs_bind_mono; [apply (tx_release _ _ _ _ _ _ _ Ht2)|]. intros [] t3 Ht3. by apply runs_ret.
  - intros t [Hp Ht]. split; [|done]. intros b Hb. apply Hp; [done|]. rewrite Ebb, EB. divlia.
Qed.

(** Allocation: the first free block, or no more blocks. *)
Lemma block_alloc_runs s g V L K :
  geom_ok g → disk_ok g V → holds_files g V K → (∀ b, first_free g V b → alloc_room g L K b) →
  Z.of_nat (size L + length K) < NBUF → tx s (g_st g) V L K →
  (∃ b s', block_alloc 1 s = Ret (b, s') ∧ alloc_post g V L K (Some b) s') ∨
  (∃ s', block_alloc 1 s = (if DEBUG_MSG then Panic else Ret (0, s')) ∧ alloc_post g V L K None s').
Proof.
  intros Hg Hd HK Hroom Hsz Htx. pose proof (geom_start g Hg) as Hds.
  assert (1 ∉ h_blks K) as H1 by (apply (holds_files_not g V); [done|left; lia]).
  destruct (proj1 (runs_eq _ _ _) (tx_superblock s (g_st g) V L K Htx H1 Hsz)) as (sb & s1 & E1 & Htx1 & Es & En).
  rewrite (di_size g V Hd) in Es. rewrite (di_ninodes g V Hd) in En.
  destruct (proj1 (runs_eq _ _ _) (tx_scan s1 g V L K Hg Hd HK Hroom Hsz Htx1)) as (r & s2 & E2 & Hpost).
  unfold block_alloc. rewrite (bind_Ret _ _ _ _ _ E1), Es, En, (bind_Ret _ _ _ _ _ E2).
  destruct r as [b|]; [left|right].
  - exists b, s2. split; [|done]. destruct Hpost as [(Hb & _) _]. pose proof (go_size g Hg) as [_ Hs].
    change (2 ^ 28) with 268435456 in Hs. unfold ret. by rewrite u32_small by (unfold W32; lia).
  - exists s2. split; [|done]. unfold KERN_PANIC, bind. by destruct DEBUG_MSG.
Qed.

(** Freeing a used block; freeing a free one is a panic. *)
Lemma block_free_runs s g V L K b :
  geom_ok g → disk_ok g V → holds_files g V K → 0 ≤ b < g_size g → used g V b = true →
  Z.of_nat (size L) < LOGSIZE - 1 → Z.of_nat (size L + length K) < NBUF - 1 → tx s (g_st g) V L K →
  runs (block_free 1 b) s (λ _ s', tx s' (g_st g) (free_view g V b) (L ∪ {[bm g b]}) K).
Proof.
  intros Hg Hd HK Hb Hu Hl Hsz Htx. pose proof (geom_start g Hg) as Hds. destruct (bm_range g b Hg Hb) as [_ Hbm].
  unfold block_free. eapply runs_bind_mono.
  { apply (tx_superblock s (g_st g) V L K Htx); [apply (holds_files_not g V); [done|left; lia]|lia]. }
  intros sb s1 (Htx1 & _ & En). rewrite (di_ninodes g V Hd) in En. rewrite En. change (BBLOCK b (g_ninodes g)) with (bm g b).
  eapply runs_bind_mono.
  { apply (tx_read _ _ _ _ _ (bm g b) Htx1); [by apply bm_ok|apply (holds_files_not g V); [done|left; lia]|lia]. }
  intros bp s2 Htx2. eapply runs_bind_eq; [eapply tx_data; [exact Htx2|by left]|].
  rewrite land_pow2 by (apply Z.mod_pos_bound; lia). change (Z.testbit _ _) with (used g V b). rewrite Hu.
  eapply runs_bind_eq; [reflexivity|].
  eapply runs_bind_mono; [apply (tx_mod _ _ _ _ _ _ _ _ (λ d, clear_bit d (b mod BPB)) Htx2)|].
  intros [] s3 Htx3. eapply runs_bind_mono; [apply (tx_log _ _ _ _ _ _ _ _ Htx3); [lia|done|lia]|].
  intros [] s4 Htx4. apply (tx_release _ _ _ _ _ _ _ Htx4).
Qed.

End rules.

(** ** Begin and end of a transaction *)

Section bounds.
Context `{KEnv}.
Hypothesis Hmagic : ks_magic = KSTACK_MAGIC.

(** The transaction that begins in a state. *)
Definition inside (s : lg) : txid := Some (d_disk (l_bc s), d_writes (l_bc s)).

Lemma tx_begin s st V : tx None s st V ∅ [] → runs begin_trans s (λ _ s', tx (inside s) s' st V ∅ []).
Proof.
  intros (secs & T & T' & [Hlg Hp Hr Hd Hb Hl Hn Hh Hv Htr Hone]). unfold begin_trans.
  eapply runs_bind_eq; [by apply fzoom_Ret, Spinlock.acquire_free|]. eapply runs_bind_eq; [reflexivity|].
  change (log_busy (set_log_lock _ s)) with (log_busy s). rewrite Hb. kif.
  eapply runs_of_eq; [reflexivity|]. exists secs, T, T'. constructor; try done.
  - destruct Hlg as [[] ? [] ? ? ? ?]. by constructor.
  - exists []. split; [constructor|]. simpl. by rewrite app_nil_r.
Qed.

(** A disk on which no transaction is to be recovered. *)
Definition settled (D : gmap (Z * Z) memory) (st : Z) : Prop := sb_at D st ∧ hdr_n (D !!! (1, st)) = 0.

(** From [c] to [c'] the disk was written such that a crash at any write leaves, after the
    recovery, the blocks of the one or of the other. *)
Definition crash_safe (st : Z) (c c' : bc) : Prop :=
  ∃ ws, d_writes c' = d_writes c ++ ws ∧ d_disk c' = apply_writes ws (d_disk c) ∧
    ∀ k, recovers_to st (apply_writes (take k ws) (d_disk c)) (d_disk c) ∨
         recovers_to st (apply_writes (take k ws) (d_disk c)) (d_disk c').

Lemma slots_recover st sls D k : settled D st → slots st sls → recovers_to st (apply_writes (take k sls) D) D.
Proof.
  intros [Hsb Hh] Hs. pose proof Hsb as (_ & Hst & _). assert (slots st (take k sls)) as Hs' by (by apply Forall_take).
  assert (∀ x, ¬ st < x ≤ st + LOGSIZE → apply_writes (take k sls) D !!! (1, x) = D !!! (1, x)) as E
    by (intros x Hx; by apply (slots_keep st)).
  apply recovers_none; [eapply sb_at_ext; [symmetry; apply E; lia|done]|rewrite E by lia; done|].
  intros x Hx. apply E. intros ?. apply Hx. unfold in_log. lia.
Qed.

(** The state of the log after a commit. *)
Lemma tx_committed s st V c : log_at s st → LOGSIZE ≤ log_size s → pins c ∅ [] →
  (∀ x, ¬ in_log st x → V x = d_disk c !!! (1, x)) →
  tx None (set_log_lock Spinlock.free_lk (set_log_busy 0 (set_lh_n 0 (set_l_bc c s)))) st V ∅ [].
Proof.
  intros [] Hls Hpc HV. exists [], ∅, ∅. constructor; try done.
  - constructor; try done; [split; [constructor|by intros x ?%elem_of_nil]|]. by intros x [? ?%lookup_empty_Some].
  - constructor.
  - intros x Hx _. by apply HV.
Qed.

(** The end of a transaction that began with the disk [D] after the writes [W]. *)
Lemma tx_commit D W s st V L :
  tx (Some (D, W)) s st V L [] → Z.of_nat (size L) < NBUF →
  runs commit_trans s (λ _ s', tx None s' st V ∅ [] ∧
    (settled D st → settled (d_disk (l_bc s')) st ∧ ∀ c, d_disk c = D → d_writes c = W → crash_safe st c (l_bc s'))).
Proof.
  intros (secs & T & T' & Htx) Hsz. destruct (tx_size _ _ _ _ _ _ _ _ _ Htx) as [Hlen _].
  destruct Htx as [Hlg Hp Hr Hd Hb Hl Hn Hh Hv Htr Hone]. assert (T' = T) as -> by (apply map_eq; intros x; by rewrite Hr).
  assert (∀ x, ¬ in_log st x → V x = view (l_bc s) T x) as HV by (intros x Hx; apply Hv; [done|apply not_elem_of_nil]).
  destruct Htr as (sls & Hsl & Ed & Ew). pose proof Hlg as [Hlog Hls Hhdr _ Hdom Hlsz Hslot].
  assert (1 ∉ secs) as H1.
  { intros [i Hi]%list_elem_of_lookup. apply Hone. rewrite <- Hd. apply elem_of_dom. eexists. by apply (Hslot i). }
  assert (∀ x, ¬ st < x ≤ st + LOGSIZE → d_disk (l_bc s) !!! (1, x) = D !!! (1, x)) as Hout
    by (intros x Hx; rewrite Ed; by apply (slots_keep st)).
  destruct (decide (secs = [])) as [->|Hne].
  - assert (T = ∅) as -> by (apply map_size_empty_inv; by rewrite Hlsz).
    unfold commit_trans. eapply runs_bind_eq; [reflexivity|]. pose proof Hhdr as [Hn0 _ _]. rewrite Hn0.
    eapply runs_bind_eq; [reflexivity|]. eapply runs_bind_eq; [by apply fzoom_Ret, Spinlock.acquire_free|].
    eapply runs_bind_eq; [reflexivity|]. eapply runs_of_eq; [reflexivity|].
    assert (s = set_lh_n 0 (set_l_bc (l_bc s) s)) as Es by (change 0 with (Z.of_nat (@length Z [])); rewrite <- Hn0; by destruct s).
    split; [rewrite Es; apply tx_committed; [done|done|done|]; intros x Hx; by rewrite HV|]. simpl. intros Hset.
    pose proof Hset as [Hsb Hhn]. pose proof Hsb as (_ & Hst & _). split.
    + split; [eapply sb_at_ext; [symmetry; apply Hout; lia|done]|rewrite Hout by lia; done].
    + intros c <- <-. exists sls. split; [done|]. split; [done|]. intros k. left. by apply slots_recover.
  - eapply runs_mono; [apply (commit_runs Hmagic s st secs T); [|done|lia]|].
    { constructor; [done|done|rewrite Hb; done|done]. }
    intros [] s' (c & -> & Hpc & Hdk & Hwk). split.
    { apply tx_committed; [done|done|done|]. intros x Hx. rewrite HV, Hdk by done. symmetry. by apply commit_disk. }
    simpl. intros Hset. pose proof Hset as [Hsb Hhn]. pose proof Hsb as (_ & Hst & _).
    assert (∀ k, (0 < k)%nat → recovers_to st (apply_writes (take k (commit_writes (d_disk (l_bc s)) st secs)) (d_disk (l_bc s))) (d_disk c)) as Hrec.
    { apply (committed_view s st secs T D); try done. intros x Hx. rewrite Hdk. by apply commit_disk. }
    split.
    + split.
      * destruct (Hrec (length (commit_writes (d_disk (l_bc s)) st secs))) as (? & Hsb' & _); [simpl; lia|].
        by rewrite firstn_all, <- Hdk in Hsb'.
      * rewrite Hdk. unfold commit_writes. simpl. rewrite apply_writes_app. simpl. rewrite lookup_total_insert_eq.
        by apply (head_data_n []).
    + intros c0 <- <-. exists (sls ++ commit_writes (d_disk (l_bc s)) st secs).
      split; [by rewrite Hwk, Ew, app_assoc|]. split; [by rewrite apply_writes_app, <- Ed|]. intros k.
      destruct (decide (k ≤ length sls)%nat) as [Hk|Hk]; [left; rewrite take_app_le by done; by apply slots_recover|right].
      rewrite take_app_ge by lia. rewrite apply_writes_app, <- Ed. apply Hrec. lia.
Qed.

Lemma quiet_tx s st : quiet s st → tx None s st (λ x, d_disk (l_bc s) !!! (1, x)) ∅ [].
Proof. intros [Hlg Hp Hb Hl _ _]. exists [], ∅, ∅. constructor; try done. constructor. Qed.

End bounds.

(** ** Allocation and release *)

Section claims.
Context `{KEnv}.
Hypothesis Hmagic : ks_magic = KSTACK_MAGIC.

Lemma set_size_add (L : gset Z) b : (size (L ∪ {[ b ]}) ≤ S (size L))%nat.
Proof.
  clear Hmagic.
  rewrite size_union_alt. transitivity (size L + size ({[ b ]} : gset Z))%nat; [|rewrite size_singleton; lia].
  apply Nat.add_le_mono_l, subseteq_size. set_solver.
Qed.

(** C17: in a transaction with room in the log, [block_alloc] marks the first free block of the
    bitmap as used, fills it with zeros and returns it; no other block changes, and the super
    block and the marks of the reserved blocks stay.  [block_free] of it makes the bitmap as
    free as it was.  When no block is free, [block_alloc] panics, and a build without debug
    messages returns block 0. *)
Theorem block_alloc_spec s g V L B :
  geom_ok g → disk_ok g V → tx B s (g_st g) V L [] → B ≠ None → (size L ≤ 6)%nat →
  (∀ b, first_free g V b → runs (block_alloc 1) s (λ r s', r = b ∧ disk_ok g (alloc_view g V b) ∧
    tx B s' (g_st g) (alloc_view g V b) (L ∪ {[ bm g b ]} ∪ {[ b ]}) [] ∧ ¬ reserved g b ∧
    (∀ c, 0 ≤ c < g_size g → used g (alloc_view g V b) c = bool_decide (c = b) || used g V c) ∧
    (∀ c, c ≠ b → c ≠ bm g b → alloc_view g V b c = V c) ∧ alloc_view g V b b = zeroed (V b) ∧
    runs (block_free 1 b) s' (λ _ s'', ∃ V' L', tx B s'' (g_st g) V' L' [] ∧ disk_ok g V' ∧
      ∀ c, 0 ≤ c < g_size g → used g V' c = used g V c))) ∧
  ((∀ b, 0 ≤ b < g_size g → used g V b = true) →
    ∃ s', block_alloc 1 s = (if DEBUG_MSG then Panic else Ret (0, s')) ∧ tx B s' (g_st g) V L []).
Proof.
  intros Hg Hd Htx HB Hsz.
  assert (∀ b, first_free g V b → alloc_room g L [] b) as Hroom.
  { intros b _. pose proof (set_size_add L (bm g b)). unfold alloc_room, LOGSIZE, NBUF. simpl. lia. }
  pose proof (block_alloc_runs B Hmagic HB s g V L [] Hg Hd ltac:(constructor) Hroom ltac:(unfold NBUF; simpl; lia) Htx) as Hrun.
  split.
  - intros b Hff. destruct Hrun as [(r & s' & E & Hff' & Htx')|(s' & _ & Hall & _)].
    2:{ destruct Hff as (Hb & Hu & _). by rewrite Hall in Hu. }
    assert (r = b) as ->.
    { destruct Hff as (Hb & Hu & Hp), Hff' as (Hr & Hru & Hrp). destruct (Z.lt_trichotomy r b) as [Hlt|[->|Hlt]]; [|done|];
        [rewrite Hp in Hru by lia|rewrite Hrp in Hu by lia]; done. }
    destruct Hff as (Hb & Hu & _). destruct (free_ok g V b Hg Hd Hb Hu) as [[_ Hl] Hds].
    assert (¬ reserved g b) as Hres by (unfold reserved; intros [?|?]; [lia|done]).
    pose proof (alloc_disk_ok g V b Hg Hd Hb Hds) as Hd'. pose proof (used_alloc g V b b Hg Hb Hds Hb) as Hub.
    rewrite bool_decide_eq_true_2 in Hub by done.
    eapply runs_of_eq; [exact E|]. split; [done|]. split; [done|]. split; [done|]. split; [done|].
    split; [intros c Hc; by apply used_alloc|]. split; [intros c H1 H2; unfold alloc_view; by rewrite !fn_lookup_insert_ne|].
    split; [unfold alloc_view; by rewrite fn_lookup_insert|].
    pose proof (set_size_add L (bm g b)). pose proof (set_size_add (L ∪ {[ bm g b ]}) b).
    eapply runs_mono.
    { apply (block_free_runs B Hmagic HB s' g _ (L ∪ {[ bm g b ]} ∪ {[ b ]}) [] b Hg Hd'); try done;
        [constructor|unfold LOGSIZE; lia|unfold NBUF; simpl; lia]. }
    intros [] s'' Htx''. do 2 eexists. split; [exact Htx''|]. split; [by apply free_disk_ok|].
    intros c Hc. unfold free_view. rewrite used_clear, used_alloc by done. repeat case_bool_decide; try done. by subst.
  - intros Hall. destruct Hrun as [(r & s' & _ & (Hr & Hu & _) & _)|(s' & E & _ & Htx')]; [by rewrite Hall in Hu|].
    exists s'. by split.
Qed.

End claims.

(** ** An example disk *)

(** A disk of 1000 blocks, 200 inodes and the log at 990; inode 5 is an empty file,
    inode 6 an empty directory. *)
Definition demo_geom : geom := {| g_size := 1000; g_ninodes := 200; g_st := 990 |}.
Definition demo_bits : memory :=
  foldl set_bit ∅ (seqZ 0 29 ++ seqZ 990 10).
Definition demo_files_bc : bc := {| d_disk := <[(1, 28) := demo_bits]> (<[(1, 2) := store16 384 1 (store16 320 2 ∅)]> {[ (1, 1) := demo_sb ]});
  d_writes := []; d_regs := ∅; d_fail := false;
  ide_lk := zero_lk; fs_lock := zero_lk; idequeue := NULL; havedisk1 := 0; bcache_lock := zero_lk; bufs := ∅ |}.
Definition demo_files_lg : lg := {| l_bc := demo_files_bc; log_lock := zero_lk; log_start := 0; log_size := 0;
  log_busy := 0; log_dev := 0; lh_n := 0; lh_sector := ∅ |}.
Definition demo_view (x : Z) : memory :=
  apply_writes (recovery_writes (d_disk demo_files_bc) 990 []) (d_disk demo_files_bc) !!! (1, x).

Lemma demo_files_settled : ∃ l, tx None l 990 demo_view ∅ [] ∧ settled (d_disk (l_bc l)) 990.
Proof.
  assert (runs (@boot demo_env) demo_files_lg (λ _ l, tx None l 990 demo_view ∅ [] ∧ settled (d_disk (l_bc l)) 990)) as Hr.
  { eapply runs_mono; [apply (@boot_runs demo_env eq_refl demo_files_lg 990 [])|].
    - done.
    - vm_compute. split; [reflexivity|]. split; [reflexivity|]. split; [reflexivity|]. discriminate.
    - constructor; [reflexivity|vm_compute; discriminate|done].
    - split; [constructor|by intros x ?%elem_of_nil].
    - intros [] l (Hlg & Hp & Hb & Hl & Hd & _). split.
      + exists [], ∅, ∅. constructor; try done; [constructor|]. intros x Hx _. unfold view. simpl. rewrite Hd. done.
      + rewrite Hd. vm_compute. split; [|reflexivity]. split; [reflexivity|]. split; [reflexivity|]. split; [reflexivity|]. discriminate. }
  destruct (proj1 (runs_eq _ _ _) Hr) as (_ & l & _ & Hl). by exists l.
Qed.

Lemma demo_files_boot : ∃ l, tx None l 990 demo_view ∅ [].
Proof. destruct demo_files_settled as (l & Hl & _). by exists l. Qed.

Lemma demo_geom_ok : geom_ok demo_geom.
Proof. constructor; vm_compute; done. Qed.

Lemma demo_disk_ok : disk_ok demo_geom demo_view.
Proof.
  constructor; [by vm_compute|by vm_compute|].
  assert (Forall (λ b, (b < 29 ∨ 990 ≤ b) → used demo_geom demo_view b = true) (seqZ 0 1000)) as Hall.
  { apply (bool_decide_unpack _). by vm_compute. }
  intros b Hb Hr. apply (proj1 (Forall_forall _ _) Hall); [by apply elem_of_seqZ|].
  destruct Hr as [Hr|[Hr _]]; [left; exact Hr|right; exact Hr].
Qed.

Lemma block_alloc_spec_witness : ∃ B s, tx B s 990 demo_view ∅ [] ∧
  runs (@block_alloc demo_env 1) s (λ r _, r = 29).
Proof.
  destruct demo_files_boot as [l Hl].
  destruct (proj1 (runs_eq _ _ _) (@tx_begin demo_env eq_refl l 990 demo_view Hl)) as (_ & s & _ & Hs).
  exists (inside l), s. split; [done|]. eapply runs_mono.
  - apply (proj1 (@block_alloc_spec demo_env eq_refl s demo_geom demo_view ∅ (inside l) demo_geom_ok demo_disk_ok Hs ltac:(done) ltac:(vm_compute; lia)) 29).
    split; [simpl; lia|]. split; [by vm_compute|]. intros b Hb. apply (di_meta _ _ demo_disk_ok); [simpl; lia|left; change (data_start demo_geom) with 29; lia].
  - by intros r s' [-> _].
Defined.
