(* ===== verification/FileSpec.v ===== *)
(** * The contents of files

    A file as a sequence of bytes: the blocks that an inode names, directly and through its
    indirect block.  [bmap] gives a file a block without changing its contents, [inode_write]
    replaces a range of bytes, [inode_read] returns one; other files stay as they are. *)

From stdpp Require Import functions.
From S2P Require Import Prelude Spinlock Mem DList Bufcache BufSpec Log LogSpec Crash Inode InodeSpec BlockSpec.

(** ** The blocks of a file *)

(** The block with the part [n] of a file, and, for [n = MAXFILE], its indirect block; 0 when
    there is none. *)
Definition fblk (V : Z → memory) (x : inode) (n : Z) : Z :=
  if n =? MAXFILE then i_addrs x !!! NDIRECT
  else if n <? NDIRECT then i_addrs x !!! n
  else if i_addrs x !!! NDIRECT =? 0 then 0
  else load32 (V (i_addrs x !!! NDIRECT)) (4 * (n - NDIRECT)).

(** The byte at the offset [o]; a missing block counts as zeros. *)
Definition fbyte (V : Z → memory) (x : inode) (o : Z) : Z :=
  if fblk V x (o / BSIZE) =? 0 then 0 else load8 (V (fblk V x (o / BSIZE))) (o mod BSIZE).

(** The first block of the bitmap; before it are the super block and the inodes. *)
Definition bmz (g : geom) : Z := g_ninodes g / IPB + 3.

(** A block that belongs to a file. *)
Definition dblk (g : geom) (V : Z → memory) (b : Z) : Prop := 0 ≤ b < g_size g ∧ ¬ reserved g b ∧ used g V b = true.

(** The blocks of a file are marked as used, and no block serves twice. *)
Record file_ok (g : geom) (V : Z → memory) (x : inode) : Prop := {
  fo_dev : i_dev x = 1;
  fo_blk : ∀ n, 0 ≤ n ≤ MAXFILE → fblk V x n ≠ 0 → dblk g V (fblk V x n);
  fo_inj : ∀ n m, 0 ≤ n ≤ MAXFILE → 0 ≤ m ≤ MAXFILE → fblk V x n ≠ 0 → fblk V x n = fblk V x m → n = m;
}.

(** Two files have no block in common. *)
Definition apart (V : Z → memory) (x y : inode) : Prop :=
  ∀ n m, 0 ≤ n ≤ MAXFILE → 0 ≤ m ≤ MAXFILE → fblk V x n ≠ 0 → fblk V x n ≠ fblk V y m.

Lemma dblk_start g V b : dblk g V b → data_start g ≤ b ∧ ¬ in_log (g_st g) b.
Proof. intros (_ & Hr & _). unfold reserved in Hr. split; [lia|tauto]. Qed.

Lemma dblk_ok g V b : geom_ok g → dblk g V b → blk_ok (g_st g) b.
Proof. intros Hg Hb. split; [|by eapply dblk_start]. destruct Hb as (Hb & _). pose proof (go_size g Hg). lia. Qed.

Lemma bmz_low g : geom_ok g → 0 ≤ 1 < bmz g.
Proof. intros [Hn _ _ _]. unfold bmz, IPB, BSIZE, DINODE_SIZE. change (512 / 64) with 8. divlia. Qed.

Lemma bmz_start g : geom_ok g → bmz g < data_start g.
Proof.
  intros Hg. unfold bmz, data_start, bitmap_blocks, BPB, BSIZE. pose proof (go_size g Hg). change (512 * 8) with 4096. divlia.
Qed.

Lemma bmz_bm g b : geom_ok g → 0 ≤ b < g_size g → bmz g ≤ bm g b.
Proof.
  intros Hg Hb. rewrite (proj1 (bm_range g b Hg Hb)). unfold bmz. assert (0 ≤ b / BPB) by (apply Z.div_pos; [lia|done]). lia.
Qed.

(** ** Giving a file a block *)

(** Block [b] was free and is now the block [k] of the file. *)
Record grows (g : geom) (V : Z → memory) (x : inode) (V' : Z → memory) (x' : inode) (k b : Z) : Prop := {
  gr_free : 0 ≤ b < g_size g ∧ used g V b = false;
  gr_range : 0 ≤ k ≤ MAXFILE;
  gr_none : fblk V x k = 0;
  gr_inode : ∃ a, x' = set_i_addrs a x;
  gr_blk : ∀ m, 0 ≤ m ≤ MAXFILE → fblk V' x' m = if decide (m = k) then b else fblk V x m;
  gr_used : ∀ c, 0 ≤ c < g_size g → used g V' c = bool_decide (c = b) || used g V c;
  gr_meta : ∀ y, 0 ≤ y < bmz g → V' y = V y;
  gr_keep : ∀ y, dblk g V y → y ≠ fblk V x MAXFILE → V' y = V y;
  gr_zero : k ≠ MAXFILE → ∀ o, 0 ≤ o < BSIZE → load8 (V' b) o = 0;
}.

Lemma dblk_grows g V x V' x' k b y : grows g V x V' x' k b → dblk g V y → dblk g V' y ∧ y ≠ b.
Proof.
  intros [[Hb Hu] _ _ _ _ Hg _ _ _] (Hy & Hr & Huy). split; [|intros ->; congruence].
  split; [done|]. split; [done|]. rewrite Hg by done. by rewrite Huy, orb_true_r.
Qed.

Lemma grows_new g V x V' x' k b : geom_ok g → disk_ok g V → grows g V x V' x' k b → dblk g V' b ∧ b ≠ 0.
Proof.
  intros Hg Hd [[Hb Hu] _ _ _ _ Hgu _ _ _]. destruct (free_ok g V b Hg Hd Hb Hu) as [[_ Hl] Hs].
  pose proof (geom_start g Hg). split; [|lia]. split; [done|]. split; [unfold reserved; lia || (intros [?|?]; [lia|done])|].
  rewrite Hgu by done. by rewrite bool_decide_eq_true_2.
Qed.

Lemma grows_disk_ok g V x V' x' k b : geom_ok g → disk_ok g V → grows g V x V' x' k b → disk_ok g V'.
Proof.
  intros Hgo [H1 H8 Hm] [_ _ _ _ _ Hg Hs _ _]. assert (V' 1 = V 1) as E1 by (apply Hs; by apply bmz_low).
  constructor; rewrite ?E1; [done|done|].
  intros c Hc Hr. by rewrite Hg, Hm, orb_true_r.
Qed.

Lemma grows_file_ok g V x V' x' k b : geom_ok g → disk_ok g V → file_ok g V x → grows g V x V' x' k b → file_ok g V' x'.
Proof.
  intros Hg Hd [Hdev Hblk Hinj] Hgr. destruct (grows_new _ _ _ _ _ _ _ Hg Hd Hgr) as [Hb Hb0].
  pose proof Hgr as [_ _ Hno [a ->] HB _ _ _ _]. constructor; [done|..].
  - intros n Hn. rewrite HB by done. case_decide; [done|]. intros Hnz. by apply (dblk_grows _ _ _ _ _ _ _ _ Hgr), Hblk.
  - intros n m Hn Hm. rewrite !HB by done. repeat case_decide; subst; try done.
    + intros _ E. assert (dblk g V b) as Hb' by (rewrite E; apply Hblk; [done|congruence]).
      by destruct (dblk_grows _ _ _ _ _ _ _ _ Hgr Hb').
    + intros Hnz E. destruct (dblk_grows _ _ _ _ _ _ _ _ Hgr (Hblk n Hn Hnz)). congruence.
    + by apply Hinj.
Qed.

(** The contents stay. *)
Lemma grows_fbyte g V x V' x' k b o : geom_ok g → disk_ok g V → file_ok g V x → grows g V x V' x' k b →
  0 ≤ o < MAXFILE * BSIZE → fbyte V' x' o = fbyte V x o.
Proof.
  intros Hg Hd [Hdev Hblk Hinj] Hgr Ho. destruct (grows_new _ _ _ _ _ _ _ Hg Hd Hgr) as [_ Hb0].
  pose proof Hgr as [_ _ Hno _ HB _ _ Hkeep Hz].
  assert (0 ≤ o / BSIZE < MAXFILE ∧ 0 ≤ o mod BSIZE < BSIZE) as [Hn Hr] by (unfold BSIZE in *; divlia).
  unfold fbyte. rewrite HB by lia. case_decide as E.
  - rewrite E, Hno. rewrite (proj2 (Z.eqb_neq _ _)) by done. apply Hz; lia.
  - destruct (Z.eqb_spec (fblk V x (o / BSIZE)) 0) as [|Hnz]; [done|]. rewrite Hkeep; [done|apply Hblk; [lia|done]|].
    intros E'. apply Hinj in E'; [lia|lia| |done]. unfold MAXFILE, NDIRECT, NINDIRECT. vm_compute. done.
Qed.

(** Another file stays as it is. *)
Lemma grows_other g V x V' x' k b y : geom_ok g → disk_ok g V → file_ok g V x → file_ok g V y → apart V x y →
  grows g V x V' x' k b → (∀ n, 0 ≤ n ≤ MAXFILE → fblk V' y n = fblk V y n) ∧ file_ok g V' y ∧ apart V' x' y ∧
    ∀ o, 0 ≤ o < MAXFILE * BSIZE → fbyte V' y o = fbyte V y o.
Proof.
  intros Hg Hd Hx Hy Hap Hgr. destruct (grows_new _ _ _ _ _ _ _ Hg Hd Hgr) as [_ Hb0].
  assert (0 ≤ MAXFILE) as HM by done.
  pose proof Hgr as [_ _ Hno _ HB _ _ Hkeep Hz]. pose proof Hy as [Hdev Hblk Hinj].
  assert (∀ n, 0 ≤ n ≤ MAXFILE → fblk V y n ≠ 0 → V' (fblk V y n) = V (fblk V y n)) as Hv.
  { intros n Hn Hnz. apply Hkeep; [by apply Hblk|]. intros E. apply (Hap MAXFILE n); [lia|done|congruence|done]. }
  assert (∀ n, 0 ≤ n ≤ MAXFILE → fblk V' y n = fblk V y n) as Hf.
  { intros n Hn. specialize (Hv MAXFILE). unfold fblk in Hv |- *. rewrite Z.eqb_refl in Hv.
    destruct (n =? MAXFILE), (n <? NDIRECT); try done. destruct (Z.eqb_spec (i_addrs y !!! NDIRECT) 0); [done|].
    by rewrite Hv. }
  split; [done|]. split; [|split].
  - constructor; [done|..].
    + intros n Hn. rewrite Hf by done. intros Hnz. by apply (dblk_grows _ _ _ _ _ _ _ _ Hgr), Hblk.
    + intros n m Hn Hm. rewrite !Hf by done. by apply Hinj.
  - intros n m Hn Hm. rewrite HB, Hf by done. case_decide; [|by apply Hap]. intros _ E.
    assert (dblk g V b) as Hb' by (rewrite E; apply Hblk; [done|congruence]).
    by destruct (dblk_grows _ _ _ _ _ _ _ _ Hgr Hb').
  - intros o Ho. assert (0 ≤ o / BSIZE < MAXFILE) as Hn by (unfold BSIZE in *; divlia).
    unfold fbyte. rewrite Hf by lia. destruct (Z.eqb_spec (fblk V y (o / BSIZE)) 0); [done|]. rewrite Hv by (done || lia). done.
Qed.

(** *** Bytes of blocks *)

Lemma fill_filled n a v d : 0 ≤ a → a + Z.of_nat n ≤ W32 → filled d (fill n a v d) a (Z.of_nat n) (λ _, u8 v).
Proof.
  revert a d. induction n as [|n IH]; intros a d Ha Hn o Ho; cbn [fill].
  - by rewrite bool_decide_false by lia.
  - rewrite (IH (a + 1)) by lia. rewrite load8_store8 by lia. repeat (case_bool_decide; try lia; try done).
Qed.

Lemma put_bytes_filled l a d : 0 ≤ a → a + Z.of_nat (length l) ≤ W32 →
  filled d (put_bytes a l d) a (Z.of_nat (length l)) (λ i, u8 (l !!! Z.to_nat i)).
Proof.
  revert a d. induction l as [|v l IH]; intros a d Ha Hn o Ho; cbn [put_bytes]; simpl length in *.
  - by rewrite bool_decide_false by lia.
  - rewrite (IH (a + 1)) by lia. rewrite load8_store8 by lia.
    repeat (case_bool_decide; try lia; try done).
    + by replace (Z.to_nat (o - a)) with (S (Z.to_nat (o - (a + 1)))) by lia.
    + by replace (Z.to_nat (o - a)) with 0%nat by lia.
Qed.

Lemma zeroed_byte d o : 0 ≤ o < BSIZE → load8 (zeroed d) o = 0.
Proof.
  intros Ho. unfold zeroed, BSIZE in *. rewrite (fill_filled (Z.to_nat 512) 0 0 d) by (unfold W32; lia).
  rewrite bool_decide_true by lia. done.
Qed.

Lemma zeroed_word d j : 0 ≤ j < NINDIRECT → load32 (zeroed d) (4 * j) = 0.
Proof. change NINDIRECT with 128. intros Hj. unfold load32. by rewrite !zeroed_byte by (unfold BSIZE; lia). Qed.

(** *** The three places of a block number *)

Section places.
Context (g : geom) (V : Z → memory) (x : inode) (b : Z).
Hypothesis (Hg : geom_ok g) (Hd : disk_ok g V) (Hx : file_ok g V x).
Hypothesis (Hb : 0 ≤ b < g_size g) (Hfree : used g V b = false).

Lemma alloc_keep y : dblk g V y → alloc_view g V b y = V y.
Proof.
  intros Hy. destruct (dblk_start _ _ _ Hy) as [Hs _]. destruct Hy as (_ & _ & Hu). destruct (bm_range g b Hg Hb).
  unfold alloc_view. rewrite !fn_lookup_insert_ne; [done|lia|]. intros ->. congruence.
Qed.

Lemma alloc_new : alloc_view g V b b = zeroed (V b).
Proof. unfold alloc_view. by rewrite fn_lookup_insert. Qed.

Lemma alloc_meta y : 0 ≤ y < bmz g → alloc_view g V b y = V y.
Proof.
  intros Hy. destruct (free_ok g V b Hg Hd Hb Hfree) as [_ Hs]. pose proof (bmz_start g Hg). pose proof (bmz_bm g b Hg Hb).
  unfold alloc_view. by rewrite !fn_lookup_insert_ne by lia.
Qed.

Lemma alloc_start : data_start g ≤ b ∧ 0 < b.
Proof. destruct (free_ok g V b Hg Hd Hb Hfree) as [_ Hs]. pose proof (geom_start g Hg). lia. Qed.

Lemma fo_indirect : i_addrs x !!! NDIRECT ≠ 0 → dblk g V (i_addrs x !!! NDIRECT).
Proof. intros Hnz. apply (fo_blk g V x Hx MAXFILE); done. Qed.

(** An entry of the inode: a direct block, or the indirect one. *)
Lemma grows_addr i : 0 ≤ i ≤ NDIRECT → i_addrs x !!! i = 0 →
  grows g V x (alloc_view g V b) (set_i_addrs (<[i := b]> (i_addrs x)) x) (if i =? NDIRECT then MAXFILE else i) b.
Proof.
  intros Hi Hz. set (x' := set_i_addrs _ x). set (k := if i =? NDIRECT then MAXFILE else i). destruct alloc_start as [Hs H0].
  unfold NDIRECT in Hi. change NDIRECT with 12 in *. assert (MAXFILE = 140) as EM by done.
  assert (∀ j, i_addrs x' !!! j = if decide (i = j) then b else i_addrs x !!! j) as Ea.
  { intros j. simpl. rewrite lookup_total_insert_dec. by repeat case_decide || case_bool_decide. }
  assert (k = if decide (i = 12) then 140 else i) as Ek by (unfold k; case_decide; [by rewrite (proj2 (Z.eqb_eq _ _))|by rewrite (proj2 (Z.eqb_neq _ _))]).
  constructor; [done|case_decide; lia| |by eexists| |by intros; apply used_alloc|apply alloc_meta|by intros; apply alloc_keep|].
  - rewrite Ek. unfold fblk. change NDIRECT with 12. case_decide as E; [by rewrite EM, <- E|].
    rewrite (proj2 (Z.eqb_neq _ _)), (proj2 (Z.ltb_lt _ _)) by lia. done.
  - intros m Hm. rewrite EM in Hm. unfold fblk. change NDIRECT with 12. rewrite !Ea, Ek, EM.
    destruct (Z.eqb_spec m 140) as [->|Hm']; [repeat case_decide; lia || done|].
    destruct (Z.ltb_spec m 12); [repeat case_decide; lia || done|]. rewrite (decide_False (P := m = _)) by (case_decide; lia).
    case_decide as E.
    + subst i. rewrite Hz, (proj2 (Z.eqb_neq b 0)), alloc_new by lia. apply zeroed_word. change NINDIRECT with 128. lia.
    + destruct (Z.eqb_spec (i_addrs x !!! 12) 0); [done|]. by rewrite alloc_keep by by apply fo_indirect.
  - intros _ o Ho. rewrite alloc_new. by apply zeroed_byte.
Qed.

(** An entry of the indirect block. *)
Lemma grows_indirect n : NDIRECT ≤ n < MAXFILE → i_addrs x !!! NDIRECT ≠ 0 → fblk V x n = 0 →
  let ind := i_addrs x !!! NDIRECT in
  grows g V x (<[ind := store32 (4 * (n - NDIRECT)) b (alloc_view g V b ind)]> (alloc_view g V b)) x n b.
Proof.
  intros Hn Hnz Hz ind. set (V' := <[ind := _]> _). destruct alloc_start as [Hs H0]. pose proof (fo_indirect Hnz) as Hi.
  fold ind in Hi, Hnz. destruct (dblk_start _ _ _ Hi) as [His _]. pose proof (geom_start g Hg).
  assert (ind ≠ b) as Hib by (intros E; destruct Hi as (_ & _ & Hu); congruence).
  pose proof (go_size g Hg) as [_ Hsz]. change (2 ^ 28) with 268435456 in Hsz.
  assert (MAXFILE = 140) as EM by done. change NDIRECT with 12 in *. rewrite EM in Hn.
  constructor; [done|lia|done|exists (i_addrs x); by destruct x| | | | |].
  - intros m Hm. unfold fblk in Hz |- *. rewrite EM in *. change NDIRECT with 12 in *. fold ind in Hz |- *.
    destruct (Z.eqb_spec m 140) as [->|Hm']; [by rewrite decide_False by lia|].
    destruct (Z.ltb_spec m 12); [by rewrite decide_False by lia|]. rewrite (proj2 (Z.eqb_neq _ _) Hnz).
    unfold V'. rewrite fn_lookup_insert, alloc_keep by done. case_decide as E.
    + subst m. apply load32_store32_eq; unfold W32; lia.
    + apply load32_store32_ne; unfold W32; lia.
  - intros c Hc. unfold V'. rewrite used_other by done. by apply used_alloc.
  - intros y Hy. unfold V'. pose proof (bmz_start g Hg). rewrite fn_lookup_insert_ne by lia. by apply alloc_meta.
  - intros y Hy Hne. unfold V'. rewrite fn_lookup_insert_ne; [by apply alloc_keep|]. intros <-. apply Hne. done.
  - intros _ o Ho. unfold V'. rewrite fn_lookup_insert_ne by done. rewrite alloc_new. by apply zeroed_byte.
Qed.

End places.

(** *** Growing step by step *)

Definition grow1 (g : geom) (p q : (Z → memory) * inode) : Prop := ∃ k b, grows g p.1 p.2 q.1 q.2 k b.
(** The file got some blocks. *)
Definition ext (g : geom) (V : Z → memory) (x : inode) (V' : Z → memory) (x' : inode) : Prop :=
  rtc (grow1 g) (V, x) (V', x').

(** The number of free blocks, and what is left of it when the file gets its indirect block. *)
Definition nfree (g : geom) (V : Z → memory) : Z :=
  zsum (λ b, b2z (negb (used g V b))) (Z.to_nat (g_size g)).
Definition pot (g : geom) (V : Z → memory) (x : inode) : Z :=
  nfree g V - b2z (i_addrs x !!! NDIRECT =? 0).

Lemma grows_nfree g V x V' x' k b : grows g V x V' x' k b → nfree g V' = nfree g V - 1.
Proof.
  intros [[Hb Hu] _ _ _ _ Hg _ _ _]. unfold nfree.
  rewrite (zsum_change (λ b, b2z (negb (used g V b))) _ _ b); [|lia|].
  - rewrite Hg, Hu by done. rewrite bool_decide_eq_true_2 by done. simpl. lia.
  - intros j Hj Hne. rewrite Hg by lia. by rewrite bool_decide_eq_false_2.
Qed.

(** What growing keeps for a property of the file is proved for one step. *)
Lemma ext_ind g (Hg : geom_ok g) (P : (Z → memory) → inode → Prop) V x :
  disk_ok g V → file_ok g V x → P V x →
  (∀ V1 x1 V2 x2 k b, disk_ok g V1 → file_ok g V1 x1 → P V1 x1 → grows g V1 x1 V2 x2 k b → P V2 x2) →
  ∀ V' x', ext g V x V' x' → P V' x'.
Proof.
  intros Hd Hf HP Hstep V' x' He. unfold ext in He.
  assert (∀ p q, rtc (grow1 g) p q → disk_ok g p.1 → file_ok g p.1 p.2 → P p.1 p.2 → P q.1 q.2) as Hr.
  { intros p q Hpq. induction Hpq as [p|p p1 q (k & b & Hgr) _ IH]; [done|]. intros Hd1 Hf1 HP1.
    apply IH; [by eapply grows_disk_ok|by eapply grows_file_ok|by eapply Hstep]. }
  by apply (Hr _ _ He).
Qed.

Section ext.
Context (g : geom) (V : Z → memory) (x : inode).
Hypothesis (Hg : geom_ok g).

Lemma ext_ok V' x' : disk_ok g V → file_ok g V x → ext g V x V' x' → disk_ok g V' ∧ file_ok g V' x'.
Proof.
  intros Hd Hf. revert V' x'. apply (ext_ind g Hg (λ V' x', disk_ok g V' ∧ file_ok g V' x')); [done|done|done|].
  intros V1 x1 V2 x2 k b Hd1 Hf1 _ Hgr. split; [by eapply grows_disk_ok|by eapply grows_file_ok].
Qed.

Lemma ext_mono V' x' : disk_ok g V → file_ok g V x → ext g V x V' x' →
  (∃ a, x' = set_i_addrs a x) ∧ ∀ m, 0 ≤ m ≤ MAXFILE → fblk V x m ≠ 0 → fblk V' x' m = fblk V x m.
Proof.
  intros Hd Hf. revert V' x'. apply (ext_ind g Hg (λ V' x', (∃ a, x' = set_i_addrs a x) ∧
    ∀ m, 0 ≤ m ≤ MAXFILE → fblk V x m ≠ 0 → fblk V' x' m = fblk V x m)); [done|done| |].
  - split; [exists (i_addrs x); by destruct x|done].
  - intros V1 x1 V2 x2 k b Hd1 Hf1 [[a ->] Hm] [_ _ Hno [a' ->] HB _ _ _ _]. split; [by exists a'|].
    intros m Hr Hnz. rewrite HB by done. case_decide as E; [subst; rewrite Hm in Hno by done; done|]. by apply Hm.
Qed.

Lemma ext_fbyte V' x' : disk_ok g V → file_ok g V x → ext g V x V' x' →
  ∀ o, 0 ≤ o < MAXFILE * BSIZE → fbyte V' x' o = fbyte V x o.
Proof.
  intros Hd Hf. revert V' x'. apply (ext_ind g Hg (λ V' x', ∀ o, 0 ≤ o < MAXFILE * BSIZE → fbyte V' x' o = fbyte V x o)); [done|done|done|].
  intros V1 x1 V2 x2 k b Hd1 Hf1 HP Hgr o Ho. rewrite <- HP by done. by eapply grows_fbyte.
Qed.

Lemma ext_other V' x' y : disk_ok g V → file_ok g V x → file_ok g V y → apart V x y → ext g V x V' x' →
  file_ok g V' y ∧ apart V' x' y ∧ (∀ m, 0 ≤ m ≤ MAXFILE → fblk V' y m = fblk V y m) ∧
  ∀ o, 0 ≤ o < MAXFILE * BSIZE → fbyte V' y o = fbyte V y o.
Proof.
  intros Hd Hf Hy Hap. revert V' x'. apply (ext_ind g Hg (λ V' x', file_ok g V' y ∧ apart V' x' y ∧
    (∀ m, 0 ≤ m ≤ MAXFILE → fblk V' y m = fblk V y m) ∧
    ∀ o, 0 ≤ o < MAXFILE * BSIZE → fbyte V' y o = fbyte V y o)); [done|done|done|].
  intros V1 x1 V2 x2 k b Hd1 Hf1 (Hy1 & Ha1 & HB & HP) Hgr.
  destruct (grows_other _ _ _ _ _ _ _ y Hg Hd1 Hf1 Hy1 Ha1 Hgr) as (EB & ? & ? & E). split; [done|]. split; [done|].
  split; [intros m Hm; rewrite <- HB by done; by apply EB|]. intros o Ho. rewrite <- HP by done. by apply E.
Qed.

Lemma ext_meta V' x' : disk_ok g V → file_ok g V x → ext g V x V' x' → ∀ y, 0 ≤ y < bmz g → V' y = V y.
Proof.
  intros Hd Hf. revert V' x'. apply (ext_ind g Hg (λ V' x', ∀ y, 0 ≤ y < bmz g → V' y = V y)); [done|done|done|].
  intros V1 x1 V2 x2 k b _ _ HP Hgr y Hy. rewrite (gr_meta _ _ _ _ _ _ _ Hgr) by done. by apply HP.
Qed.

Lemma ext_refl : ext g V x V x.
Proof. apply rtc_refl. Qed.

Lemma ext_once V' x' k b : grows g V x V' x' k b → ext g V x V' x'.
Proof. intros Hgr. apply rtc_once. by exists k, b. Qed.

Lemma ext_trans V' x' V'' x'' : ext g V x V' x' → ext g V' x' V'' x'' → ext g V x V'' x''.
Proof. unfold ext. intros. by etrans. Qed.

End ext.

(** *** The log *)

(** The indirect block, if the file has one. *)
Definition indset (x : inode) : gset Z := if i_addrs x !!! NDIRECT =? 0 then ∅ else {[ i_addrs x !!! NDIRECT ]}.

(** The log has the blocks [S] and those of the metadata. *)
Definition budget (g : geom) (S : gset Z) (x : inode) : gset Z := S ∪ {[ bmz g ]} ∪ indset x.

Lemma size_union_le (X Y : gset Z) : (size (X ∪ Y) ≤ size X + size Y)%nat.
Proof. rewrite size_union_alt. apply Nat.add_le_mono_l, subseteq_size. set_solver. Qed.

Lemma budget_size g S x : (size (budget g S x) ≤ size S + 2)%nat.
Proof.
  unfold budget, indset. etrans; [apply size_union_le|]. etrans; [apply Nat.add_le_mono_r, size_union_le|].
  case_match; rewrite ?size_empty, !size_singleton; lia.
Qed.

Lemma sub_size (L S : gset Z) n : L ⊆ S → (size S ≤ n)%nat → (size L ≤ n)%nat.
Proof. intros Hs%subseteq_size ?. lia. Qed.

(** ** The inode in the cache *)

Section fx.
Context `{KEnv} (B : txid) (s0 : fs) (g : geom) (ip : Z).
Hypothesis Hmagic : ks_magic = KSTACK_MAGIC.
Hypothesis Hip : 1 ≤ ip ≤ NINODE.

(** Everything but the disk and the inode is as at the start. *)
Definition same_rest (s : fs) : Prop :=
  icache_lock s = icache_lock s0 ∧ ftable_lock s = ftable_lock s0 ∧ files s = files s0 ∧
  ∀ j, j ≠ ip - 1 → slot s j = slot s0 j.

Record fx (s : fs) (V : Z → memory) (L : gset Z) (K : list held) (x : inode) : Prop := {
  fx_tx : tx B (f_lg s) (g_st g) V L K;
  fx_slot : slot s (ip - 1) = x;
  fx_rest : same_rest s;
}.

Lemma fx_iget {A} s V L K x (f : inode → A) : fx s V L K x → iget ip f s = Ret (f x, s).
Proof. intros [_ Hs _]. unfold iget. rewrite (bind_Ret _ _ _ _ _ (aread_in NINODE inodes (ip - 1) s ltac:(lia))). by rewrite Hs. Qed.

Lemma fx_imod s V L K x f : fx s V L K x → runs (imod ip f) s (λ _ s', fx s' V L K (f x)).
Proof.
  intros [Ht Hs (R1 & R2 & R3 & R4)]. unfold imod. eapply runs_of_eq; [apply amod_in; lia|]. rewrite Hs. constructor; simpl.
  - done.
  - by rewrite lookup_total_insert_eq.
  - split; [done|]. split; [done|]. split; [done|]. intros j Hj. simpl. rewrite lookup_total_insert_ne by done. by apply R4.
Qed.

Lemma fx_set s V L K x l V' L' K' : fx s V L K x → tx B l (g_st g) V' L' K' → fx (set_f_lg l s) V' L' K' x.
Proof. by intros [_ Hs Hr] Ht. Qed.

(** Code of the log and of the cache, on the state of the file system. *)
Lemma fx_lg {A} (m : M lg A) s V L K x Q P :
  fx s V L K x → runs m (f_lg s) Q → (∀ a l, Q a l → P a (set_f_lg l s)) → runs (zoom m) s P.
Proof. intros _ Hm HQ. apply runs_zoom. by eapply runs_mono; [exact Hm|]. Qed.

Lemma zoom_bc_lg {A} (m : M bc A) s P : runs (zoom m) (f_lg s) (λ a l, P a (set_f_lg l s)) → runs (zoom m) s P.
Proof. unfold zoom, fzoom, runs. simpl. destruct (m (l_bc (f_lg s))) as [[a c]| | |]; done. Qed.

Lemma fx_bc {A} (m : M bc A) s V L K x Q P :
  fx s V L K x → runs (zoom m) (f_lg s) Q → (∀ a l, Q a l → P a (set_f_lg l s)) → runs (zoom m) s P.
Proof. intros _ Hm HQ. apply zoom_bc_lg. by eapply runs_mono; [exact Hm|]. Qed.

Lemma fx_read s V L K x y :
  fx s V L K x → blk_ok (g_st g) y → y ∉ h_blks K → Z.of_nat (size L + length K) < NBUF →
  runs (zoom (bufcache_read 1 y)) s (λ b s', fx s' V L (Held b y false :: K) x).
Proof.
  intros Hf Hy Hk Hsz. eapply fx_bc; [done|by apply (tx_read B Hmagic (f_lg s) (g_st g) V L K y (fx_tx _ _ _ _ _ Hf))|].
  intros b l Ht. by eapply fx_set.
Qed.

Lemma fx_data s V L K x b y m : fx s V L K x → Held b y m ∈ K → zoom (bget b b_data) s = Ret (V y, s).
Proof.
  intros [Ht _ _] Hin. apply zoom_read. change (lget s) with (l_bc (f_lg s)).
  destruct Ht as (secs & T & T' & Htx). pose proof (tx_in _ _ _ _ _ _ _ _ _ _ Htx Hin) as [Hbuf _ _ _ _ Hdata _].
  simpl in Hbuf, Hdata. unfold is_buf in Hbuf. rewrite bget_run by lia. by rewrite Hdata.
Qed.

Lemma fx_mod s V L K x b y m f :
  fx s V L (Held b y m :: K) x →
  runs (zoom (bmod b (λ z, set_b_data (f (b_data z)) z))) s (λ _ s', fx s' (<[y := f (V y)]> V) L (Held b y true :: K) x).
Proof.
  intros Hf. eapply fx_bc; [done|apply (tx_mod B _ _ _ _ _ _ _ _ f (fx_tx _ _ _ _ _ Hf))|].
  intros a l Ht. by eapply fx_set.
Qed.

Lemma fx_release s V L K x b y :
  fx s V L (Held b y false :: K) x → runs (zoom (bufcache_release b)) s (λ _ s', fx s' V L K x).
Proof.
  intros Hf. eapply fx_bc; [done|apply (tx_release B Hmagic _ _ _ _ _ _ _ (fx_tx _ _ _ _ _ Hf))|].
  intros a l Ht. by eapply fx_set.
Qed.

Lemma fx_addr_get s V L K x i : fx s V L K x → 0 ≤ i ≤ NDIRECT → addr_get ip i s = Ret (i_addrs x !!! i, s).
Proof.
  intros Hf Hi. unfold addr_get. rewrite (bind_Ret _ _ _ _ _ (fx_iget _ _ _ _ _ i_addrs Hf)).
  by rewrite inb_true_2 by (unfold NDIRECT in *; lia).
Qed.

Hypothesis Hg : geom_ok g.

(** A block that the file has. *)
Lemma bmap_hit s V L x n :
  fx s V L [] x → file_ok g V x → 0 ≤ n < MAXFILE → fblk V x n ≠ 0 → Z.of_nat (size L) < NBUF →
  runs (bmap ip n) s (λ r s', r = fblk V x n ∧ fx s' V L [] x).
Proof.
  intros Hf Ho Hn Hnz Hsz. unfold bmap, addr_or_alloc. unfold fblk in Hnz |- *.
  assert (MAXFILE = 140 ∧ NDIRECT = 12 ∧ NINDIRECT = 128) as (EM & ED & EI) by done.
  rewrite (proj2 (Z.eqb_neq n MAXFILE)) in * by lia. destruct (Z.ltb_spec n NDIRECT).
  - eapply runs_bind_eq; [apply (fx_addr_get _ _ _ _ _ n Hf); lia|]. rewrite (proj2 (Z.eqb_neq _ _) Hnz).
    by apply runs_ret.
  - destruct (Z.eqb_spec (i_addrs x !!! NDIRECT) 0) as [E|E]; [done|].
    rewrite (proj2 (Z.ltb_lt (n - NDIRECT) NINDIRECT)) by lia.
    eapply (runs_bind_eq _ _ _ (i_addrs x !!! NDIRECT) s).
    { erewrite bind_Ret by (apply (fx_addr_get _ _ _ _ _ NDIRECT Hf); lia). by rewrite (proj2 (Z.eqb_neq _ _) E). }
    eapply runs_bind_eq; [apply (fx_iget _ _ _ _ _ i_dev Hf)|]. rewrite (fo_dev _ _ _ Ho).
    eapply runs_bind_mono; [apply (fx_read _ _ _ _ _ (i_addrs x !!! NDIRECT) Hf)|].
    { eapply dblk_ok; [done|]. by apply (fo_blk g V x Ho MAXFILE). } { apply not_elem_of_nil. } { simpl. lia. }
    intros bp s1 Hf1. eapply runs_bind_eq; [eapply fx_data; [exact Hf1|by left]|].
    rewrite (proj2 (Z.eqb_neq _ _) Hnz). eapply runs_bind_eq; [reflexivity|].
    eapply runs_bind_mono; [apply (fx_release _ _ _ _ _ _ _ Hf1)|]. intros [] s2 Hf2. by apply runs_ret.
Qed.

(** The rest is about code in a transaction. *)
Hypothesis Hopen : B ≠ None.

Lemma fx_log s V L K x b y m :
  fx s V L (Held b y m :: K) x → y ≠ 1 → Z.of_nat (size L) < LOGSIZE - 1 → Z.of_nat (size L + length K) < NBUF - 1 →
  runs (zoom (log_write b)) s (λ _ s', fx s' V (L ∪ {[y]}) (Held b y false :: K) x).
Proof.
  intros Hf Hy H1 H2. eapply fx_lg; [done|by apply (tx_log B Hmagic Hopen _ _ _ _ _ _ _ _ (fx_tx _ _ _ _ _ Hf))|].
  intros a l Ht. by eapply fx_set.
Qed.

(** A free block, when there is one. *)
Lemma fx_alloc s V L K x :
  fx s V L K x → disk_ok g V → holds_files g V K → 0 < nfree g V →
  (∀ b, first_free g V b → alloc_room g L K b) → Z.of_nat (size L + length K) < NBUF →
  runs (zoom (block_alloc 1)) s (λ b s', 0 ≤ b < g_size g ∧ used g V b = false ∧
    fx s' (alloc_view g V b) (L ∪ {[bm g b]} ∪ {[b]}) K x).
Proof.
  intros Hf Hd HK Hn Hroom Hsz.
  destruct (block_alloc_runs B Hmagic Hopen (f_lg s) g V L K Hg Hd HK Hroom Hsz (fx_tx _ _ _ _ _ Hf))
    as [(b & l & E & Hff & Ht)|(l & _ & Hall & _)].
  - eapply fx_lg; [done|by apply (runs_of_eq _ _ _ _ (λ a l', a = b ∧ l' = l) E)|].
    intros a l' [-> ->]. destruct Hff as (? & ? & _). split; [done|]. split; [done|]. by eapply fx_set.
  - destruct (zsum_b2z_pos (λ b, negb (used g V b)) (Z.to_nat (g_size g)) Hn) as (b & Hb & Hu).
    rewrite Hall in Hu by lia. done.
Qed.

(** The bitmap has one block. *)
Hypothesis Hsingle : g_size g ≤ BPB.

Lemma bm_single b : 0 ≤ b < g_size g → bm g b = bmz g.
Proof.
  intros Hb. rewrite (proj1 (bm_range g b Hg Hb)). unfold bmz. rewrite Z.div_small; [lia|].
  change BPB with 4096 in *. lia.
Qed.

(** An entry of the inode, with a new block if it has none. *)
Lemma addr_or_alloc_runs s V L x i :
  fx s V L [] x → disk_ok g V → file_ok g V x → 0 ≤ i ≤ NDIRECT → i_addrs x !!! i = 0 → 0 < nfree g V →
  (size (L ∪ {[ bmz g ]}) ≤ 8)%nat →
  runs (addr_or_alloc ip i) s (λ r s', ∃ V' x', fx s' V' (L ∪ {[ bmz g ]} ∪ {[ r ]}) [] x' ∧ i_addrs x' !!! i = r ∧
    x' = set_i_addrs (<[i := r]> (i_addrs x)) x ∧
    grows g V x V' x' (if i =? NDIRECT then MAXFILE else i) r).
Proof.
  intros Hf Hd Ho Hi Hz Hn Hsz. unfold addr_or_alloc.
  eapply runs_bind_eq; [by apply (fx_addr_get _ _ _ _ _ i Hf)|]. rewrite Hz. kif. simpl.
  eapply runs_bind_eq; [apply (fx_iget _ _ _ _ _ i_dev Hf)|]. rewrite (fo_dev _ _ _ Ho).
  assert (size L ≤ 8)%nat as HszL by (eapply sub_size; [|exact Hsz]; set_solver).
  eapply runs_bind_mono; [apply (fx_alloc _ _ _ _ _ Hf Hd); [constructor|done| |unfold NBUF; simpl; lia]|].
  { intros b (Hb & _). unfold alloc_room. rewrite bm_single by done. unfold LOGSIZE, NBUF. simpl. lia. }
  intros b s1 (Hb & Hu & Hf1). rewrite bm_single in Hf1 by done. unfold addr_set.
  rewrite inb_true_2 by (unfold NDIRECT in *; lia).
  eapply runs_bind_mono; [apply (fx_imod _ _ _ _ _ (λ x, set_i_addrs (<[i := b]> (i_addrs x)) x) Hf1)|].
  intros [] s2 Hf2. apply runs_ret. do 2 eexists. split; [exact Hf2|]. split; [simpl; by rewrite lookup_total_insert_eq|].
  split; [done|]. by apply grows_addr.
Qed.

(** The indirect block of a file that may not have it yet. *)
Lemma indirect_runs s V L x n S :
  fx s V L [] x → disk_ok g V → file_ok g V x → NDIRECT ≤ n < MAXFILE → fblk V x n = 0 → 1 ≤ pot g V x →
  L ⊆ budget g S x → (size S ≤ 5)%nat →
  runs (addr_or_alloc ip NDIRECT) s (λ r s', ∃ V' x' L', fx s' V' L' [] x' ∧ r = i_addrs x' !!! NDIRECT ∧ r ≠ 0 ∧
    ext g V x V' x' ∧ fblk V' x' n = 0 ∧ 0 < nfree g V' ∧ pot g V' x' = pot g V x ∧ L' ⊆ budget g S x').
Proof.
  intros Hf Hd Ho Hn Hz Hpot HL HS. assert (MAXFILE = 140 ∧ NDIRECT = 12) as (EM & ED) by done.
  destruct (decide (i_addrs x !!! NDIRECT = 0)) as [E|E].
  - assert (size (L ∪ {[ bmz g ]}) ≤ 8)%nat as Hsz.
    { pose proof (budget_size g S x). eapply (sub_size _ (budget g S x)); [|lia]. unfold budget in *. set_solver. }
    unfold pot in *. rewrite E in Hpot |- *. simpl b2z in *.
    eapply runs_mono; [apply (addr_or_alloc_runs s V L x NDIRECT Hf Hd Ho); [done|done|lia|done]|].
    intros r s' (V' & x' & Hf' & Ha & Ex & Hgr). rewrite Z.eqb_refl in Hgr.
    destruct (grows_new _ _ _ _ _ _ _ Hg Hd Hgr) as [_ Hr].
    exists V', x', (L ∪ {[ bmz g ]} ∪ {[ r ]}). rewrite Ha, (proj2 (Z.eqb_neq r 0) Hr). simpl b2z.
    split; [done|]. split; [done|]. split; [done|]. split; [by eapply ext_once|].
    split; [by rewrite (gr_blk _ _ _ _ _ _ _ Hgr), decide_False by lia|]. rewrite (grows_nfree _ _ _ _ _ _ _ Hgr).
    split; [lia|]. split; [lia|]. unfold budget, indset in *. rewrite E in HL. rewrite Ha, (proj2 (Z.eqb_neq r 0) Hr).
    simpl in HL. set_solver.
  - unfold addr_or_alloc. eapply runs_bind_eq; [by apply (fx_addr_get _ _ _ _ _ NDIRECT Hf)|].
    rewrite (proj2 (Z.eqb_neq _ _) E). apply runs_ret. exists V, x, L. split; [done|]. split; [done|]. split; [done|].
    split; [apply ext_refl|]. split; [done|]. split; [|done]. unfold pot in Hpot. rewrite (proj2 (Z.eqb_neq _ _) E) in Hpot.
    simpl in Hpot. lia.
Qed.

(** A new block for an entry of the indirect block. *)
Lemma fill_entry s V L x n bp :
  let ind := i_addrs x !!! NDIRECT in
  fx s V L [Held bp ind false] x → disk_ok g V → file_ok g V x → NDIRECT ≤ n < MAXFILE → ind ≠ 0 → fblk V x n = 0 →
  0 < nfree g V → (size (L ∪ {[ bmz g ]}) ≤ 7)%nat →
  runs (let! dev := iget ip i_dev in
        let! addr := zoom (block_alloc dev) in
        zoom (bmod bp (λ z, set_b_data (store32 (4 * (n - NDIRECT)) addr (b_data z)) z)) ;;;
        zoom (log_write bp) ;;;
        ret addr) s
    (λ r s', ∃ V' L', fx s' V' L' [Held bp ind false] x ∧ grows g V x V' x n r ∧ L' = L ∪ {[ bmz g ]} ∪ {[ r ]} ∪ {[ ind ]}).
Proof.
  intros ind Hf Hd Ho Hn Hnz Hz Hfree Hsz. pose proof (fo_indirect g V x Ho Hnz) as Hid. fold ind in Hid.
  destruct (dblk_start _ _ _ Hid) as [His _]. pose proof (proj2 (proj2 Hid)) as Hiu. pose proof (geom_start g Hg).
  assert (size L ≤ 7)%nat as HszL by (eapply sub_size; [|exact Hsz]; set_solver).
  eapply runs_bind_eq; [apply (fx_iget _ _ _ _ _ i_dev Hf)|]. rewrite (fo_dev _ _ _ Ho).
  eapply runs_bind_mono; [apply (fx_alloc _ _ _ _ _ Hf Hd); [by repeat constructor|done| |unfold NBUF; simpl; lia]|].
  { intros b (Hb & _). unfold alloc_room. rewrite bm_single by done. unfold LOGSIZE, NBUF. simpl. lia. }
  intros b s1 (Hb & Hu & Hf1). rewrite bm_single in Hf1 by done.
  assert (size (L ∪ {[ bmz g ]} ∪ {[ b ]}) ≤ 8)%nat as Hsz2.
  { etrans; [apply size_union_le|]. rewrite size_singleton. lia. }
  eapply runs_bind_mono; [apply (fx_mod _ _ _ _ _ _ _ _ (λ d, store32 (4 * (n - NDIRECT)) b d) Hf1)|].
  intros [] s2 Hf2. eapply runs_bind_mono; [apply (fx_log _ _ _ _ _ _ _ _ Hf2); unfold LOGSIZE, NBUF; simpl; lia|].
  intros [] s3 Hf3. apply runs_ret. do 2 eexists. split; [exact Hf3|]. split; [by apply grows_indirect|done].
Qed.

(** A block that the file gets. *)
Lemma bmap_miss s V L x n S :
  fx s V L [] x → disk_ok g V → file_ok g V x → 0 ≤ n < MAXFILE → fblk V x n = 0 → 1 ≤ pot g V x →
  L ⊆ budget g S x → (size S ≤ 5)%nat →
  runs (bmap ip n) s (λ r s', ∃ V' x' L', fx s' V' L' [] x' ∧ r = fblk V' x' n ∧ r ≠ 0 ∧ ext g V x V' x' ∧
    pot g V x - 1 ≤ pot g V' x' ∧ L' ⊆ budget g (S ∪ {[ r ]}) x').
Proof.
  intros Hf Hd Ho Hn Hz Hpot HL HS.
  assert (MAXFILE = 140 ∧ NDIRECT = 12 ∧ NINDIRECT = 128) as (EM & ED & EI) by done.
  assert (size (L ∪ {[ bmz g ]}) ≤ 7)%nat as Hsz1.
  { pose proof (budget_size g S x). eapply (sub_size _ (budget g S x)); [|lia]. unfold budget in *. set_solver. }
  unfold bmap. destruct (Z.ltb_spec n NDIRECT) as [Hlt|Hge].
  - assert (i_addrs x !!! n = 0) as Hz'.
    { unfold fblk in Hz. rewrite (proj2 (Z.eqb_neq n MAXFILE)), (proj2 (Z.ltb_lt n NDIRECT)) in Hz by lia. done. }
    eapply runs_mono; [apply (addr_or_alloc_runs s V L x n Hf Hd Ho); [lia|done| |lia]|].
    { unfold pot in Hpot. destruct (_ =? 0); simpl in Hpot; lia. }
    intros r s' (V' & x' & Hf' & Ha & Ex & Hgr). rewrite (proj2 (Z.eqb_neq n NDIRECT)) in Hgr by lia.
    exists V', x', (L ∪ {[ bmz g ]} ∪ {[ r ]}). split; [done|].
    split; [by rewrite (gr_blk _ _ _ _ _ _ _ Hgr), decide_True by lia|].
    split; [by apply (grows_new _ _ _ _ _ _ _ Hg Hd Hgr)|]. split; [by eapply ext_once|].
    assert (i_addrs x' !!! NDIRECT = i_addrs x !!! NDIRECT) as E12 by (rewrite Ex; simpl; rewrite lookup_total_insert_ne by lia; done).
    split; [unfold pot; rewrite (grows_nfree _ _ _ _ _ _ _ Hgr), E12; lia|].
    unfold budget, indset in *. rewrite E12. set_solver.
  - rewrite (proj2 (Z.ltb_lt (n - NDIRECT) NINDIRECT)) by lia.
    eapply runs_bind_mono; [by apply (indirect_runs s V L x n S); [..|lia| | | |]|].
    intros ind s1 (V1 & x1 & L1 & Hf1 & Ei & Hnz & Hext & Hz1 & Hn1 & Hp1 & HL1).
    destruct (ext_ok g V x Hg V1 x1 Hd Ho Hext) as [Hd1 Ho1].
    pose proof (fo_indirect g V1 x1 Ho1 ltac:(by rewrite <- Ei)) as Hid. rewrite <- Ei in Hid.
    assert (size (L1 ∪ {[ bmz g ]}) ≤ 7)%nat as Hsz2.
    { pose proof (budget_size g S x1). eapply (sub_size _ (budget g S x1)); [|lia]. unfold budget in *. set_solver. }
    assert (size L1 ≤ 7)%nat as Hsz3 by (eapply sub_size; [|exact Hsz2]; set_solver).
    eapply runs_bind_eq; [apply (fx_iget _ _ _ _ _ i_dev Hf1)|]. rewrite (fo_dev _ _ _ Ho1).
    eapply runs_bind_mono; [apply (fx_read _ _ _ _ _ ind Hf1); [by eapply dblk_ok|apply not_elem_of_nil|unfold NBUF; simpl; lia]|].
    intros bp s2 Hf2. eapply runs_bind_eq; [eapply fx_data; [exact Hf2|by left]|].
    assert (load32 (V1 ind) (4 * (n - NDIRECT)) = 0) as ->.
    { unfold fblk in Hz1. rewrite <- Ei, (proj2 (Z.eqb_neq n MAXFILE)), (proj2 (Z.ltb_ge n NDIRECT)) in Hz1 by lia.
      by rewrite (proj2 (Z.eqb_neq _ _) Hnz) in Hz1. }
    kif. simpl Z.eqb. cbv iota.
    eapply runs_bind_mono; [apply (fill_entry s2 V1 L1 x1 n bp); rewrite <- ?Ei; done || lia|].
    intros r s3 (V' & L' & Hf3 & Hgr & EL). eapply runs_bind_mono; [apply (fx_release _ _ _ _ _ _ _ Hf3)|].
    intros [] s4 Hf4. apply runs_ret. exists V', x1, L'. split; [done|].
    split; [by rewrite (gr_blk _ _ _ _ _ _ _ Hgr), decide_True by lia|].
    split; [by apply (grows_new _ _ _ _ _ _ _ Hg Hd1 Hgr)|].
    split; [eapply ext_trans; [exact Hext|by eapply ext_once]|].
    split; [unfold pot in *; rewrite (grows_nfree _ _ _ _ _ _ _ Hgr); lia|].
    subst L'. unfold budget, indset in *. rewrite <- Ei in *. rewrite (proj2 (Z.eqb_neq _ _) Hnz) in *. set_solver.
Qed.

End fx.

(** ** Changing the contents *)

(** The contents of the file are [f] now; its metadata and the other files are as before. *)
Record upto (g : geom) (V0 : Z → memory) (x0 : inode) (V : Z → memory) (x : inode) (f : Z → Z) : Prop := {
  up_disk : disk_ok g V;
  up_file : file_ok g V x;
  up_inode : ∃ a, x = set_i_addrs a x0;
  up_nz : ∀ m, 0 ≤ m ≤ MAXFILE → fblk V0 x0 m ≠ 0 → fblk V x m ≠ 0;
  up_bytes : ∀ o, 0 ≤ o < MAXFILE * BSIZE → fbyte V x o = f o;
  up_other : ∀ y, file_ok g V0 y → apart V0 x0 y →
    file_ok g V y ∧ apart V x y ∧ (∀ m, 0 ≤ m ≤ MAXFILE → fblk V y m = fblk V0 y m) ∧
    ∀ o, 0 ≤ o < MAXFILE * BSIZE → fbyte V y o = fbyte V0 y o;
}.

Section upto.
Context (g : geom) (V0 : Z → memory) (x0 : inode).
Hypothesis (Hg : geom_ok g).

Lemma upto_refl : disk_ok g V0 → file_ok g V0 x0 → upto g V0 x0 V0 x0 (fbyte V0 x0).
Proof. intros Hd Hf. constructor; try done. exists (i_addrs x0). by destruct x0. Qed.

Lemma upto_ext V x V' x' f : upto g V0 x0 V x f → ext g V x V' x' → upto g V0 x0 V' x' f.
Proof.
  intros [Hd Hf [a ->] Hnz Hb Hy] He. destruct (ext_ok g V _ Hg V' x' Hd Hf He) as [Hd' Hf'].
  destruct (ext_mono g V _ Hg V' x' Hd Hf He) as [[a' ->] Hm]. constructor; [done|done|by exists a'| | |].
  - intros m Hr Hz. rewrite Hm by auto. auto.
  - intros o Ho. rewrite (ext_fbyte g V _ Hg V' _ Hd Hf He) by done. auto.
  - intros y Hy1 Hy2. destruct (Hy y Hy1 Hy2) as (Hy3 & Hy4 & HyB & Hy5).
    destruct (ext_other g V _ Hg V' _ y Hd Hf Hy3 Hy4 He) as (? & ? & EB & E). split; [done|]. split; [done|].
    split; [intros m Hr; rewrite EB by done; by apply HyB|]. intros o Ho. rewrite E by done. auto.
Qed.

Lemma fblk_ext V V' x : (i_addrs x !!! NDIRECT ≠ 0 → V' (i_addrs x !!! NDIRECT) = V (i_addrs x !!! NDIRECT)) →
  ∀ m, fblk V' x m = fblk V x m.
Proof.
  intros E m. unfold fblk. destruct (m =? MAXFILE), (m <? NDIRECT); try done.
  destruct (Z.eqb_spec (i_addrs x !!! NDIRECT) 0); [done|]. by rewrite E.
Qed.

Lemma fbyte_ext V V' x : (∀ m, fblk V' x m = fblk V x m) → ∀ o,
  (fblk V x (o / BSIZE) ≠ 0 → V' (fblk V x (o / BSIZE)) = V (fblk V x (o / BSIZE))) → fbyte V' x o = fbyte V x o.
Proof. intros E o Ho. unfold fbyte. rewrite E. destruct (Z.eqb_spec (fblk V x (o / BSIZE)) 0); [done|]. by rewrite Ho. Qed.

(** The state of a file that is neither hit by the change of a block nor by that of the bitmap. *)
Lemma file_ok_ext V V' x : file_ok g V x → (∀ m, fblk V' x m = fblk V x m) →
  (∀ b, 0 ≤ b < g_size g → used g V' b = used g V b) → file_ok g V' x.
Proof.
  intros [Hdev Hblk Hinj] E Hu. constructor; [done| |].
  - intros n Hn. rewrite E. intros Hnz. destruct (Hblk n Hn Hnz) as (? & ? & ?). split; [done|]. split; [done|].
    by rewrite Hu.
  - intros n m Hn Hm. rewrite !E. by apply Hinj.
Qed.

(** Writing a block of the file. *)
Lemma upto_put V x f n d :
  upto g V0 x0 V x f → 0 ≤ n < MAXFILE → fblk V x n ≠ 0 →
  upto g V0 x0 (<[fblk V x n := d]> V) x (λ o, if decide (o / BSIZE = n) then load8 d (o mod BSIZE) else f o).
Proof.
  intros [Hd Hf Ha Hnz Hb Hy] Hn Hz. set (b := fblk V x n) in *. set (V' := <[b := d]> V).
  assert (0 ≤ MAXFILE) as HM by done. pose proof Hf as [Hdev Hblk Hinj].
  destruct (dblk_start _ _ _ (Hblk n ltac:(lia) Hz)) as [Hs _]. fold b in Hs. pose proof (geom_start g Hg).
  assert (∀ c, 0 ≤ c < g_size g → used g V' c = used g V c) as Hu by (intros c Hc; by apply used_other).
  assert (∀ y, y ≠ b → V' y = V y) as Hv by (intros y Hne; unfold V'; by rewrite fn_lookup_insert_ne).
  assert (∀ m, fblk V' x m = fblk V x m) as Ef.
  { apply fblk_ext. intros Hi. apply Hv. intros E. unfold b in E. change (i_addrs x !!! NDIRECT) with (fblk V x MAXFILE) in E.
    apply Hinj in E; [lia|lia|lia|done]. }
  constructor.
  - destruct Hd as [H1 H8 Hm]. constructor; [rewrite Hv by lia; done|rewrite Hv by lia; done|].
    intros c Hc Hr. rewrite Hu by done. by apply Hm.
  - by apply (file_ok_ext V).
  - done.
  - intros m Hm Hmz. rewrite Ef. by apply Hnz.
  - intros o Ho. assert (0 ≤ o / BSIZE < MAXFILE) as Hr by (unfold BSIZE in *; divlia). case_decide as E.
    + unfold fbyte. rewrite Ef, E. fold b. rewrite (proj2 (Z.eqb_neq b 0) Hz). unfold V'. by rewrite fn_lookup_insert.
    + rewrite <- Hb by done. apply fbyte_ext; [done|]. intros Hoz. apply Hv. intros Eb. apply E.
      apply Hinj; [lia|lia|done|done].
  - intros y Hy1 Hy2. destruct (Hy y Hy1 Hy2) as (Hy3 & Hy4 & HyB & Hy5).
    assert (∀ m, 0 ≤ m ≤ MAXFILE → V' (fblk V y m) = V (fblk V y m)) as Hvy.
    { intros m Hm. apply Hv. intros E. by apply (Hy4 n m); [lia|lia|done|]. }
    assert (∀ m, fblk V' y m = fblk V y m) as Efy by (apply fblk_ext; intros _; by apply (Hvy MAXFILE)).
    split; [by apply (file_ok_ext V)|]. split; [intros m k Hm Hk; rewrite Ef, Efy; by apply Hy4|].
    split; [intros m Hm; rewrite Efy; by apply HyB|]. intros o Ho. rewrite <- Hy5 by done. apply fbyte_ext; [done|]. intros _. apply Hvy. unfold BSIZE in *. divlia.
Qed.

(** Writing a block of inodes. *)
Lemma upto_meta V x f y d :
  upto g V0 x0 V x f → 1 < y < bmz g → upto g V0 x0 (<[y := d]> V) x f.
Proof.
  intros [Hd Hf Ha Hnz Hb Hy] Hry. set (V' := <[y := d]> V).
  assert (∀ z, z ≠ y → V' z = V z) as Hv by (intros z Hne; unfold V'; by rewrite fn_lookup_insert_ne).
  assert (∀ c, 0 ≤ c < g_size g → used g V' c = used g V c) as Hu.
  { intros c Hc. unfold used. rewrite Hv; [done|]. pose proof (bmz_bm g c Hg Hc). lia. }
  pose proof (bmz_start g Hg).
  assert (∀ z, dblk g V z → V' z = V z) as Hvd by (intros z Hz; apply Hv; destruct (dblk_start _ _ _ Hz); lia).
  assert (∀ z, file_ok g V z → (∀ m, fblk V' z m = fblk V z m) ∧ file_ok g V' z ∧
    ∀ o, 0 ≤ o < MAXFILE * BSIZE → fbyte V' z o = fbyte V z o) as Hz.
  { intros z Hz. assert (∀ m, fblk V' z m = fblk V z m) as E
      by (apply fblk_ext; intros Hi; apply Hvd; by apply (fo_indirect g V z)).
    split; [done|]. split; [by apply (file_ok_ext V)|]. intros o Ho. apply fbyte_ext; [done|]. intros Hnz'. apply Hvd.
    apply (fo_blk g V z Hz); [unfold BSIZE in *; divlia|done]. }
  destruct (Hz x Hf) as (Ex & Hfx & Ebx). constructor.
  - destruct Hd as [H1 H8 Hm]. constructor; [rewrite Hv by lia; done|rewrite Hv by lia; done|].
    intros c Hc Hr. rewrite Hu by done. by apply Hm.
  - done.
  - done.
  - intros m Hm Hmz. rewrite Ex. by apply Hnz.
  - intros o Ho. rewrite Ebx by done. by apply Hb.
  - intros z Hz1 Hz2. destruct (Hy z Hz1 Hz2) as (Hz3 & Hz4 & HzB & Hz5). destruct (Hz z Hz3) as (Ez & Hfz & Ebz).
    split; [done|]. split; [intros m k Hm Hk; rewrite Ex, Ez; by apply Hz4|].
    split; [intros m Hm; rewrite Ez; by apply HzB|]. intros o Ho. by rewrite Ebz, Hz5.
Qed.

End upto.
