(* ===== verification/FileRW.v ===== *)
(** * Reading and writing files

    [inode_read] and [inode_write] against the contents of files (FileSpec): a read returns
    the bytes of a range, a write replaces them, grows the file and changes nothing else. *)

From stdpp Require Import functions.
From S2P Require Import Prelude Spinlock Mem DList Bufcache BufSpec Log LogSpec Crash Inode InodeSpec BlockSpec FileSpec.

(** The parts of a file up to its size have blocks. *)
Definition solid (V : Z → memory) (x : inode) : Prop :=
  0 ≤ i_size x ≤ MAXFILE * BSIZE ∧ ∀ m, 0 ≤ m → m * BSIZE < i_size x → fblk V x m ≠ 0.

(** The number of blocks that a range of bytes touches. *)
Definition nblocks (off n : Z) : Z := if n <=? 0 then 0 else (off + n - 1) / BSIZE - off / BSIZE + 1.

Lemma nblocks_step off n : 0 ≤ off → 0 < n →
  let m := Z.min n (BSIZE - off mod BSIZE) in
  0 < m ≤ n ∧ off / BSIZE = (off + m - 1) / BSIZE ∧ nblocks (off + m) (n - m) = nblocks off n - 1 ∧ 1 ≤ nblocks off n.
Proof.
  intros Ho Hn m. unfold nblocks. rewrite (proj2 (Z.leb_gt n 0)) by lia. unfold BSIZE in *.
  assert (0 < m ≤ n ∧ (m = n ∨ m = 512 - off mod 512)) as (Hm & Hc) by (unfold m; divlia).
  split; [done|]. split; [unfold m; divlia|]. destruct (Z.leb_spec (n - m) 0); unfold m in *; split; divlia.
Qed.

Lemma nblocks_fuel off n : 0 ≤ off → 0 ≤ n → Z.of_nat (io_fuel n) = n / BSIZE + 3 ∧ 0 ≤ nblocks off n < n / BSIZE + 3.
Proof.
  intros Ho Hn. unfold io_fuel, nblocks, BSIZE in *. destruct (Z.leb_spec n 0); split; divlia.
Qed.

(** The chunk of one round. *)
Lemma io_min n tot off : 0 ≤ tot < n → n < W32 → 0 ≤ off →
  min (u32 (n - tot)) (u32 (BSIZE - off mod BSIZE)) = Z.min (n - tot) (BSIZE - off mod BSIZE).
Proof.
  intros Ht Hn Ho. unfold BSIZE. rewrite !u32_small by (unfold W32 in *; divlia). unfold min.
  destruct (Z.ltb_spec (n - tot) (512 - off mod 512)); lia.
Qed.

Lemma get_bytes_fbyte V x off m :
  0 ≤ off → 0 < m → off / BSIZE = (off + m - 1) / BSIZE → fblk V x (off / BSIZE) ≠ 0 →
  get_bytes (V (fblk V x (off / BSIZE))) (off mod BSIZE) m = fbyte V x <$> seqZ off m.
Proof.
  intros Ho Hm Hb Hnz. unfold get_bytes. replace (seqZ off m) with (Z.add off <$> seqZ 0 m) by (by rewrite fmap_add_seqZ, Z.add_0_r).
  rewrite <- list_fmap_compose.
  apply list_fmap_ext. intros i j Hj. apply lookup_seqZ in Hj as [-> Hi]. rewrite Z.add_0_l. unfold compose, fbyte.
  assert ((off + Z.of_nat i) / BSIZE = off / BSIZE ∧ (off + Z.of_nat i) mod BSIZE = off mod BSIZE + Z.of_nat i) as [-> ->]
    by (unfold BSIZE in *; divlia).
  by rewrite (proj2 (Z.eqb_neq _ _) Hnz).
Qed.

(** [f] with the first [n] bytes of [data] at [off]. *)
Definition put_range (off n : Z) (data : list Z) (f : Z → Z) (o : Z) : Z :=
  if decide (off ≤ o < off + n) then u8 (data !!! Z.to_nat (o - off)) else f o.

Lemma upto_bytes g V0 x0 V x f f' :
  upto g V0 x0 V x f → (∀ o, 0 ≤ o < MAXFILE * BSIZE → f' o = f o) → upto g V0 x0 V x f'.
Proof. intros [] E. constructor; try done. intros o Ho. rewrite E by done. auto. Qed.

(** One round: the chunk goes into its block. *)
Lemma put_chunk g V0 x0 V x f off tot m data :
  geom_ok g → upto g V0 x0 V x (put_range off tot data f) → 0 ≤ off → 0 ≤ tot → 0 < m → off + tot + m ≤ MAXFILE * BSIZE →
  tot + m ≤ Z.of_nat (length data) →
  let o := off + tot in
  o / BSIZE = (o + m - 1) / BSIZE → fblk V x (o / BSIZE) ≠ 0 →
  upto g V0 x0 (<[fblk V x (o / BSIZE) := put_bytes (o mod BSIZE) (take (Z.to_nat m) (drop (Z.to_nat tot) data))
    (V (fblk V x (o / BSIZE)))]> V) x (put_range off (tot + m) data f).
Proof.
  intros Hg Hu Hoff Htot Hm Hmax Hlen o Hblk Hnz. change (MAXFILE * BSIZE) with 71680 in *.
  assert (0 ≤ o / BSIZE < MAXFILE) as Hbr by (change MAXFILE with 140; unfold BSIZE, o; divlia).
  set (l := take _ _). assert (length l = Z.to_nat m) as Hll by (unfold l; rewrite length_take, length_drop; lia).
  eapply upto_bytes; [apply (upto_put g V0 x0 Hg V x _ (o / BSIZE) _ Hu Hbr Hnz)|].
  intros a Ha. simpl. change (MAXFILE * BSIZE) with 71680 in Ha. case_decide as E.
  - rewrite (put_bytes_filled l (o mod BSIZE)) by (rewrite ?Hll; unfold BSIZE, W32 in *; divlia). rewrite Hll.
    assert (a mod BSIZE - o mod BSIZE = a - o ∧ 0 ≤ o mod BSIZE ∧ 0 ≤ a mod BSIZE < BSIZE) as (Eam & _) by (unfold BSIZE in *; divlia).
    unfold put_range. case_bool_decide as Ei.
    + rewrite decide_True by lia. rewrite Eam. f_equal. symmetry. rewrite list_lookup_total_alt. unfold l.
      rewrite lookup_take_lt by lia. rewrite lookup_drop, <- list_lookup_total_alt. f_equal. unfold o. lia.
    + pose proof (up_bytes _ _ _ _ _ _ Hu a ltac:(change (MAXFILE * BSIZE) with 71680; lia)) as Hb. unfold fbyte in Hb.
      rewrite E, (proj2 (Z.eqb_neq _ _) Hnz) in Hb. rewrite Hb. unfold put_range. unfold o in *.
      repeat case_decide; lia || done.
  - unfold put_range. repeat case_decide; try done; exfalso; apply E; unfold o, BSIZE in *; divlia.
Qed.

(** ** The inode on the disk *)

Lemma load8_store16 m a b v : 0 ≤ a → a + 2 ≤ W32 → 0 ≤ b < W32 → ¬ (a ≤ b < a + 2) → load8 (store16 a v m) b = load8 m b.
Proof. intros Ha Ha' Hb Hn. unfold store16. rewrite !load8_store8 by lia. by rewrite !bool_decide_false by lia. Qed.

Lemma load16_store16 m a v : 0 ≤ a → a + 2 ≤ W32 → -32768 ≤ v < 32768 → s16 (load16 (store16 a v m) a) = v.
Proof.
  intros Ha Ha' Hv. unfold load16, store16. rewrite !load8_store8 by lia.
  rewrite bool_decide_false, !bool_decide_true by lia. unfold s16, u8. divlia.
Qed.

Lemma load16_ext m m' a : load8 m' a = load8 m a → load8 m' (a + 1) = load8 m (a + 1) → load16 m' a = load16 m a.
Proof. unfold load16. by intros -> ->. Qed.

Lemma load16_store16_ne m a b v : 0 ≤ a → a + 2 ≤ W32 → 0 ≤ b → b + 2 ≤ W32 → a + 2 ≤ b ∨ b + 2 ≤ a →
  load16 (store16 a v m) b = load16 m b.
Proof. intros. apply load16_ext; apply load8_store16; lia. Qed.

Lemma load16_store32_ne m a b v : 0 ≤ a → a + 4 ≤ W32 → 0 ≤ b → b + 2 ≤ W32 → a + 4 ≤ b ∨ b + 2 ≤ a →
  load16 (store32 a v m) b = load16 m b.
Proof. intros. apply load16_ext; apply load8_store32_ne; lia. Qed.

(** An array of words. *)
Lemma store_words c f n d : 0 ≤ c → c + 4 * Z.of_nat n ≤ W32 →
  let F := foldl (λ d i, store32 (c + 4 * i) (f i) d) d (seqZ 0 (Z.of_nat n)) in
  (∀ b, 0 ≤ b < W32 → ¬ (c ≤ b < c + 4 * Z.of_nat n) → load8 F b = load8 d b) ∧
  (∀ j, 0 ≤ j < Z.of_nat n → 0 ≤ f j < W32 → load32 F (c + 4 * j) = f j).
Proof.
  intros Hc. induction n as [|n IH]; intros Hn; [by split; [|lia]|].
  replace (Z.of_nat (S n)) with (Z.of_nat n + 1) in * by lia. rewrite seqZ_app by lia.
  replace (seqZ (0 + Z.of_nat n) 1) with [Z.of_nat n] by (rewrite seqZ_cons by lia; by rewrite seqZ_nil).
  rewrite foldl_app. destruct (IH ltac:(lia)) as [IH1 IH2]. simpl. split.
  - intros b Hb Hout. rewrite load8_store32_ne by lia. apply IH1; lia.
  - intros j Hj Hf. destruct (decide (j = Z.of_nat n)) as [->|Hne].
    + apply load32_store32_eq; lia.
    + rewrite load32_store32_ne by lia. apply IH2; [lia|done].
Qed.

Definition dino (V : Z → memory) (x : inode) : memory := V (IBLOCK (i_inum x)).

(** The disk has the inode. *)
Record on_disk (V : Z → memory) (x : inode) : Prop := {
  od_type : s16 (load16 (dino V x) (dip (i_inum x))) = i_type x;
  od_major : s16 (load16 (dino V x) (dip (i_inum x) + 2)) = i_major x;
  od_minor : s16 (load16 (dino V x) (dip (i_inum x) + 4)) = i_minor x;
  od_nlink : s16 (load16 (dino V x) (dip (i_inum x) + 6)) = i_nlink x;
  od_size : load32 (dino V x) (dip (i_inum x) + 8) = i_size x;
  od_addrs : ∀ i, 0 ≤ i ≤ NDIRECT → load32 (dino V x) (dip (i_inum x) + 12 + 4 * i) = i_addrs x !!! i;
}.

(** The fields of an inode have their types. *)
Record inode_typed (x : inode) : Prop := {
  it_short : Forall (λ v, -32768 ≤ v < 32768) [i_type x; i_major x; i_minor x; i_nlink x];
  it_size : 0 ≤ i_size x < W32;
  it_addrs : ∀ i, 0 ≤ i ≤ NDIRECT → 0 ≤ i_addrs x !!! i < W32;
}.

Lemma dip_range i : 0 ≤ dip i ∧ dip i + 64 ≤ 512.
Proof. unfold dip, IPB, BSIZE, DINODE_SIZE. change (512 / 64) with 8. divlia. Qed.

Lemma put_dinode_words x d :
  let a := dip (i_inum x) in
  let F := put_dinode x d in
  (∀ b, 0 ≤ b < a + 12 → load8 F b = load8 (store32 (a + 8) (i_size x) (store16 (a + 6) (i_nlink x)
    (store16 (a + 4) (i_minor x) (store16 (a + 2) (i_major x) (store16 a (i_type x) d))))) b) ∧
  (∀ b, 0 ≤ b < W32 → ¬ (a ≤ b < a + 64) → load8 F b = load8 d b) ∧
  (∀ i, 0 ≤ i ≤ NDIRECT → 0 ≤ i_addrs x !!! i < W32 → load32 F (a + 12 + 4 * i) = i_addrs x !!! i).
Proof.
  intros a F. pose proof (dip_range (i_inum x)) as Ha. fold a in Ha. unfold F, put_dinode. fold a.
  set (d1 := store32 (a + 8) _ _). change (NDIRECT + 1) with (Z.of_nat 13).
  destruct (store_words (a + 12) (λ i, i_addrs x !!! i) 13 d1) as [H1 H2]; [lia|unfold W32; lia|].
  split; [|split].
  - intros b Hb. apply H1; unfold W32; lia.
  - intros b Hb Hout. rewrite H1 by lia. unfold d1. rewrite load8_store32_ne by (unfold W32 in *; lia).
    by rewrite !load8_store16 by (unfold W32 in *; lia).
  - intros i Hi Hr. apply H2; [unfold NDIRECT in *; lia|done].
Qed.

Lemma put_dinode_on_disk V x : inode_typed x → on_disk (<[IBLOCK (i_inum x) := put_dinode x (dino V x)]> V) x.
Proof.
  intros [Hs Hz Ha]. destruct (put_dinode_words x (dino V x)) as (Hlo & _ & Hw).
  pose proof (dip_range (i_inum x)) as Hr. set (a := dip (i_inum x)) in *.
  apply Forall_cons in Hs as [H1 Hs]. apply Forall_cons in Hs as [H2 Hs]. apply Forall_cons in Hs as [H3 Hs].
  apply Forall_cons in Hs as [H4 _].
  constructor; unfold dino at 1; rewrite fn_lookup_insert; fold a; [..|intros i Hi; by apply Hw, Ha].
  5:{ erewrite load32_ext by (intros i Hi; apply Hlo; lia). apply load32_store32_eq; unfold W32 in *; lia. }
  all: erewrite load16_ext by (apply Hlo; lia); rewrite load16_store32_ne by (unfold W32; lia).
  all: rewrite ?load16_store16_ne by (unfold W32; lia); apply load16_store16; unfold W32; lia.
Qed.

(** The disk has the inode also when others of its block change. *)
Lemma on_disk_ext V V' x :
  (∀ o, dip (i_inum x) ≤ o < dip (i_inum x) + 64 → load8 (dino V' x) o = load8 (dino V x) o) → on_disk V x → on_disk V' x.
Proof.
  intros E []. pose proof (dip_range (i_inum x)) as Hr. set (a := dip (i_inum x)) in *.
  constructor; fold a; rewrite ?(load16_ext (dino V x) (dino V' x)) by (apply E; lia); try done.
  - rewrite (load32_ext (dino V x)); [done|]. intros i Hi. apply E. lia.
  - intros i Hi. unfold NDIRECT in Hi. rewrite (load32_ext (dino V x)); [by apply od_addrs0|]. intros j Hj. apply E. lia.
Qed.

Lemma iblock_range g i : geom_ok g → 0 ≤ i < g_ninodes g → IBLOCK i = i / IPB + 2 ∧ 1 < IBLOCK i < bmz g.
Proof.
  intros Hg Hi. pose proof (bmz_start g Hg). destruct Hg as [Hn Hl _ Hr]. unfold IBLOCK, bmz, IPB, BSIZE, DINODE_SIZE, LOGSIZE in *.
  change (512 / 64) with 8 in *. change (2 ^ 28) with 268435456 in *.
  rewrite u32_small by (unfold W32; divlia). divlia.
Qed.

Lemma on_disk_other g V x y : geom_ok g → 0 ≤ i_inum x < g_ninodes g → 0 ≤ i_inum y < g_ninodes g →
  i_inum x ≠ i_inum y → on_disk V y → on_disk (<[IBLOCK (i_inum x) := put_dinode x (dino V x)]> V) y.
Proof.
  intros Hg Hx Hy Hne. destruct (iblock_range g _ Hg Hx) as [Ex _], (iblock_range g _ Hg Hy) as [Ey _].
  pose proof (dip_range (i_inum y)). apply on_disk_ext. intros o Ho. unfold dino at 1.
  destruct (decide (IBLOCK (i_inum y) = IBLOCK (i_inum x))) as [E|E]; [|by rewrite fn_lookup_insert_ne].
  rewrite E, fn_lookup_insert. destruct (put_dinode_words x (dino V x)) as (_ & Hout & _).
  rewrite Hout; [unfold dino; by rewrite E|unfold W32; lia|]. rewrite Ex, Ey in E.
  unfold dip, IPB, BSIZE, DINODE_SIZE in *. change (512 / 64) with 8 in *. divlia.
Qed.

(** A regular file or directory in the cache, whose blocks and inode are in order. *)
Record ifile (g : geom) (V : Z → memory) (x : inode) : Prop := {
  if_file : file_ok g V x;
  if_solid : solid V x;
  if_disk : on_disk V x;
  if_typed : inode_typed x;
  if_inum : 0 ≤ i_inum x < g_ninodes g;
  if_type : i_type x ≠ T_DEV;
}.

(** The contents of a file became [f], its size [z]; all other files are as before. *)
Record written (g : geom) (V : Z → memory) (x : inode) (V' : Z → memory) (x' : inode) (z : Z) (f : Z → Z) : Prop := {
  wn_disk : disk_ok g V';
  wn_file : ifile g V' x';
  wn_inode : ∃ a, x' = set_i_size z (set_i_addrs a x);
  wn_bytes : ∀ o, 0 ≤ o < MAXFILE * BSIZE → fbyte V' x' o = f o;
  wn_other : ∀ y, ifile g V y → apart V x y → i_inum y ≠ i_inum x →
    ifile g V' y ∧ apart V' x' y ∧ ∀ o, 0 ≤ o < MAXFILE * BSIZE → fbyte V' y o = fbyte V y o;
}.

Lemma typed_addrs g V x : geom_ok g → file_ok g V x → ∀ i, 0 ≤ i ≤ NDIRECT → 0 ≤ i_addrs x !!! i < W32.
Proof.
  intros Hg Ho i Hi. pose proof (go_size g Hg) as [_ Hs]. change (2 ^ 28) with 268435456 in Hs. unfold NDIRECT in Hi.
  assert (i_addrs x !!! i = fblk V x (if i =? 12 then MAXFILE else i)) as ->.
  { unfold fblk. change NDIRECT with 12. change MAXFILE with 140. destruct (Z.eqb_spec i 12) as [->|]; [done|].
    by rewrite (proj2 (Z.eqb_neq i 140)), (proj2 (Z.ltb_lt i 12)) by lia. }
  set (m := if i =? 12 then MAXFILE else i). assert (0 ≤ m ≤ MAXFILE) as Hm.
  { unfold m. change MAXFILE with 140. destruct (i =? 12); lia. }
  destruct (decide (fblk V x m = 0)) as [->|Hnz]; [done|]. destruct (fo_blk g V x Ho m Hm Hnz) as (? & _). unfold W32. lia.
Qed.

Section io.
Context `{KEnv} (B : txid) (s0 : fs) (g : geom) (ip : Z).
Hypothesis Hmagic : ks_magic = KSTACK_MAGIC.
Hypothesis Hip : 1 ≤ ip ≤ NINODE.
Hypothesis Hg : geom_ok g.

Abbreviation fx := (fx B s0 g ip).

(** ** Reading *)

Lemma read_loop V L x off n :
  file_ok g V x → Z.of_nat (size L) < NBUF → 0 ≤ off → off + n ≤ MAXFILE * BSIZE →
  (∀ m, 0 ≤ m → m * BSIZE < off + n → fblk V x m ≠ 0) →
  ∀ fuel tot s, 0 ≤ tot ≤ n → nblocks (off + tot) (n - tot) < Z.of_nat fuel → fx s V L [] x →
  runs (loop fuel (λ '(tot, off, l),
      if tot <? n then
        let! bn := bmap ip (off / BSIZE) in
        let! dev := iget ip i_dev in
        let! bp := zoom (bufcache_read dev bn) in
        let m := min (u32 (n - tot)) (u32 (BSIZE - off mod BSIZE)) in
        let! d := zoom (bget bp b_data) in
        zoom (bufcache_release bp) ;;;
        ret (inl (u32 (tot + m), u32 (off + m), l ++ get_bytes d (off mod BSIZE) m))
      else ret (inr (s32 n, l))) (tot, off + tot, fbyte V x <$> seqZ off tot)) s
    (λ r s', r = (s32 n, fbyte V x <$> seqZ off n) ∧ fx s' V L [] x).
Proof.
  intros Ho Hsz Hoff Hmax Hsol. change (MAXFILE * BSIZE) with 71680 in Hmax.
  induction fuel as [|fuel IH]; intros tot s Ht Hfuel Hf.
  { unfold nblocks in Hfuel. destruct (_ <=? _) eqn:E; [lia|]. unfold BSIZE in Hfuel. divlia. }
  apply loop_S. destruct (Z.ltb_spec tot n) as [Hlt|Hge].
  2:{ apply runs_ret. by replace tot with n by lia. }
  destruct (nblocks_step (off + tot) (n - tot)) as (Hm & Hblk & Hnb & Hpos); [lia|lia|].
  rewrite io_min by (unfold W32; lia). set (m := Z.min _ _) in *. set (o := off + tot) in *.
  assert (fblk V x (o / BSIZE) ≠ 0 ∧ 0 ≤ o / BSIZE < MAXFILE) as [Hnz Hbr].
  { split; [apply Hsol|change MAXFILE with 140]; unfold BSIZE; divlia. }
  eapply runs_bind_mono; [by apply (bmap_hit B s0 g ip Hmagic Hip Hg s V L x (o / BSIZE) Hf Ho)|].
  intros bn s1 [-> Hf1]. eapply runs_bind_eq; [by apply (fx_iget _ _ _ _ Hip _ _ _ _ _ i_dev Hf1)|]. rewrite (fo_dev _ _ _ Ho).
  eapply runs_bind_mono; [apply (fx_read B s0 g ip Hmagic _ _ _ _ _ (fblk V x (o / BSIZE)) Hf1)|].
  { eapply dblk_ok; [done|]. apply (fo_blk g V x Ho); [lia|done]. } { apply not_elem_of_nil. } { simpl. lia. }
  intros bp s2 Hf2. eapply runs_bind_eq; [eapply fx_data; [exact Hf2|by left]|].
  eapply runs_bind_mono; [apply (fx_release B s0 g ip Hmagic _ _ _ _ _ _ _ Hf2)|]. intros [] s3 Hf3. apply runs_ret.
  rewrite get_bytes_fbyte by (done || lia). rewrite <- fmap_app. unfold o at 2. rewrite <- seqZ_app by lia.
  rewrite !u32_small by (unfold W32; lia). replace (o + m) with (off + (tot + m)) by lia.
  apply IH; [lia| |done]. replace (off + (tot + m)) with (o + m) by lia. replace (n - (tot + m)) with (n - tot - m) by lia. lia.
Qed.

Lemma inode_read_runs s V L x off n :
  fx s V L [] x → file_ok g V x → solid V x → i_type x ≠ T_DEV → Z.of_nat (size L) < NBUF →
  0 ≤ off ≤ i_size x → 0 ≤ n → off + n < W32 →
  let c := Z.min n (i_size x - off) in
  runs (inode_read ip off n) s (λ r s', r = (c, fbyte V x <$> seqZ off c) ∧ fx s' V L [] x).
Proof.
  intros Hf Ho [Hmax Hsol] Hty Hsz Hoff Hn Hw c. unfold inode_read.
  eapply runs_bind_eq; [apply (fx_iget _ _ _ _ Hip _ _ _ _ _ id Hf)|]. unfold id. rewrite (proj2 (Z.eqb_neq _ _) Hty).
  change (MAXFILE * BSIZE) with 71680 in Hmax. rewrite (u32_small (off + n)) by lia.
  rewrite Z.gtb_ltb, (proj2 (Z.ltb_ge _ _)), (proj2 (Z.ltb_ge (off + n) off)) by lia. cbv beta iota. simpl orb. cbv iota.
  rewrite (u32_small (i_size x - off)) by (unfold W32; lia). rewrite Z.gtb_ltb.
  assert ((if i_size x <? off + n then i_size x - off else n) = c) as -> by (unfold c; destruct (Z.ltb_spec (i_size x) (off + n)); lia).
  destruct (nblocks_fuel off c) as [Ef Hfu]; [lia|lia|].
  pose proof (read_loop V L x off c Ho Hsz ltac:(lia) ltac:(change (MAXFILE * BSIZE) with 71680; lia)
    ltac:(intros m Hm1 Hm2; apply Hsol; lia) (io_fuel c) 0 s ltac:(lia)) as Hl. rewrite Z.add_0_r, Z.sub_0_r in Hl.
  eapply runs_mono; [apply Hl; [lia|done]|]. intros r s' [-> Hf']. split; [|done]. rewrite s32_small; [done|].
  unfold is_s32. lia.
Qed.

(** ** Writing *)

Hypothesis Hopen : B ≠ None.
Hypothesis Hsingle : g_size g ≤ BPB.

Abbreviation budget := (budget g).

(** The block of the file at some place, with a new block if it has none. *)
Lemma bmap_runs s V L x n S :
  fx s V L [] x → disk_ok g V → file_ok g V x → 0 ≤ n < MAXFILE → 1 ≤ pot g V x → L ⊆ budget S x → (size S ≤ 5)%nat →
  runs (bmap ip n) s (λ r s', ∃ V' x' L', fx s' V' L' [] x' ∧ r = fblk V' x' n ∧ r ≠ 0 ∧ ext g V x V' x' ∧
    pot g V x - 1 ≤ pot g V' x' ∧ L' ⊆ budget (S ∪ {[ r ]}) x' ∧ (fblk V x n ≠ 0 → x' = x)).
Proof.
  intros Hf Hd Ho Hn Hp HL HS. destruct (decide (fblk V x n = 0)) as [Hz|Hz].
  { eapply runs_mono; [by apply (bmap_miss B s0 g ip Hmagic Hip Hg Hopen Hsingle s V L x n S)|].
    intros r s' (V' & x' & L' & ? & ? & ? & ? & ? & ?). by exists V', x', L'. }
  pose proof (budget_size g S x). assert (size L ≤ 7)%nat by (eapply sub_size; [exact HL|lia]).
  eapply runs_mono; [apply (bmap_hit B s0 g ip Hmagic Hip Hg s V L x n Hf Ho Hn Hz); unfold NBUF; lia|].
  intros r s' [-> Hf']. exists V, x, L. split; [done|]. split; [done|]. split; [done|]. split; [apply ext_refl|].
  split; [lia|]. split; [unfold FileSpec.budget in *; set_solver|done].
Qed.

Lemma pot_put V x y d : data_start g ≤ y → pot g (<[y := d]> V) x = pot g V x.
Proof.
  intros Hy. unfold pot, nfree. f_equal. apply zsum_ext. intros b Hb. by rewrite used_other by (done || lia).
Qed.

Lemma pot_meta V x x' y d : i_addrs x' = i_addrs x → 1 < y < bmz g → pot g (<[y := d]> V) x' = pot g V x.
Proof.
  intros Ex Hy. unfold pot, nfree. rewrite Ex. f_equal. apply zsum_ext. intros b Hb. unfold used.
  pose proof (bmz_bm g b Hg ltac:(lia)). by rewrite fn_lookup_insert_ne by lia.
Qed.

(** What is true between two rounds of a write. *)
Record writing (V0 : Z → memory) (x0 : inode) (off n tot : Z) (data : list Z) (s : fs) (V : Z → memory)
  (L : gset Z) (x : inode) (S : gset Z) : Prop := {
  wg_fx : fx s V L [] x;
  wg_upto : upto g V0 x0 V x (put_range off tot data (fbyte V0 x0));
  wg_log : L ⊆ budget S x;
  wg_size : Z.of_nat (size S) + nblocks (off + tot) (n - tot) ≤ 6;
  wg_pot : nblocks off n ≤ pot g V0 x0 ∧
    pot g V0 x0 - nblocks off n + nblocks (off + tot) (n - tot) ≤ pot g V x;
  wg_meta : ∀ y, 0 ≤ y < bmz g → V y = V0 y;
  wg_keep : (∀ m, off / BSIZE ≤ m → m * BSIZE < off + n → fblk V0 x0 m ≠ 0) → x = x0;
  wg_solid : ∀ m, off / BSIZE ≤ m → m * BSIZE < off + tot → fblk V x m ≠ 0;
}.

Lemma write_round V0 x0 off n tot data s V L x S :
  let o := off + tot in
  let m := Z.min (n - tot) (BSIZE - o mod BSIZE) in ∀ (A : Type) (v : A),
  writing V0 x0 off n tot data s V L x S → 0 ≤ off → 0 ≤ tot < n → off + n ≤ MAXFILE * BSIZE →
  n ≤ Z.of_nat (length data) →
  runs (let! bn := bmap ip (o / BSIZE) in
        let! dev := iget ip i_dev in
        let! bp := zoom (bufcache_read dev bn) in
        zoom (bmod bp (λ b, set_b_data (put_bytes (o mod BSIZE) (take (Z.to_nat m) (drop (Z.to_nat tot) data)) (b_data b)) b)) ;;;
        zoom (log_write bp) ;;;
        zoom (bufcache_release bp) ;;;
        ret v) s
    (λ r s', r = v ∧ ∃ V' L' x' S', writing V0 x0 off n (tot + m) data s' V' L' x' S').
Proof.
  intros o m A v [Hf Hu HL HS Hp Hmeta Hkeep Hsol] Hoff Ht Hmax Hlen.
  destruct (nblocks_step o (n - tot)) as (Hm & Hblk & Hnb & Hpos); [lia|lia|]. fold m in Hm, Hblk, Hnb.
  change (MAXFILE * BSIZE) with 71680 in Hmax. fold o in HS, Hp, Hsol.
  assert (0 ≤ o / BSIZE < MAXFILE) as Hbr by (change MAXFILE with 140; unfold BSIZE, o; divlia).
  eapply runs_bind_mono; [apply (bmap_runs s V L x (o / BSIZE) S Hf); [apply Hu|apply Hu|done|lia|done|lia]|].
  intros r s1 (V1 & x1 & L1 & Hf1 & Er & Hnz & He & Hp1 & HL1 & Hsame).
  pose proof (upto_ext g V0 x0 Hg V x V1 x1 _ Hu He) as Hu1. pose proof (up_file _ _ _ _ _ _ Hu1) as Ho1.
  destruct (ext_mono g V x Hg V1 x1 (up_disk _ _ _ _ _ _ Hu) (up_file _ _ _ _ _ _ Hu) He) as [_ Hmono].
  assert (dblk g V1 r) as Hdr by (rewrite Er; apply (fo_blk g V1 x1 Ho1); [lia|congruence]).
  destruct (dblk_start _ _ _ Hdr) as [Hrs _]. pose proof (geom_start g Hg).
  pose proof (budget_size g (S ∪ {[r]}) x1) as Hbs. pose proof (size_union_le S {[r]}) as Hus. rewrite size_singleton in Hus.
  assert (size L1 ≤ 8)%nat as Hsz by (eapply sub_size; [exact HL1|lia]).
  eapply runs_bind_eq; [by apply (fx_iget _ _ _ _ Hip _ _ _ _ _ i_dev Hf1)|]. rewrite (fo_dev _ _ _ Ho1).
  eapply runs_bind_mono.
  { apply (fx_read B s0 g ip Hmagic _ _ _ _ _ r Hf1); [by eapply dblk_ok|apply not_elem_of_nil|unfold NBUF; simpl; lia]. }
  intros bp s2 Hf2. set (l := take _ _). eapply runs_bind_mono.
  { apply (fx_mod B s0 g ip _ _ _ _ _ _ _ _ (λ d, put_bytes (o mod BSIZE) l d) Hf2). }
  intros [] s3 Hf3. eapply runs_bind_mono; [apply (fx_log B s0 g ip Hmagic Hopen _ _ _ _ _ _ _ _ Hf3); unfold LOGSIZE, NBUF; simpl; lia|].
  intros [] s4 Hf4. eapply runs_bind_mono; [apply (fx_release B s0 g ip Hmagic _ _ _ _ _ _ _ Hf4)|]. intros [] s5 Hf5.
  apply runs_ret. split; [done|].
  do 3 eexists. exists (S ∪ {[r]}).
  assert (off + (tot + m) = o + m ∧ n - (tot + m) = n - tot - m) as [E1 E2] by (unfold o; lia).
  pose proof (put_chunk g V0 x0 V1 x1 (fbyte V0 x0) off tot m data Hg Hu1 Hoff ltac:(lia) ltac:(lia)
    ltac:(change (MAXFILE * BSIZE) with 71680; lia) ltac:(lia) Hblk ltac:(fold o; congruence)) as Hu2.
  fold o in Hu2. rewrite <- Er in Hu2. fold l in Hu2.
  constructor; rewrite ?E1, ?E2; [exact Hf5|exact Hu2| |lia|split; [lia|]; rewrite pot_put by (by apply (dblk_start g V1)); lia| | |].
  - unfold FileSpec.budget in *. set_solver.
  - intros y Hy. pose proof (bmz_start g Hg).
    rewrite fn_lookup_insert_ne by lia. rewrite (ext_meta g V x Hg V1 x1) by (done || apply Hu). by apply Hmeta.
  - intros Hall. rewrite Hsame; [by apply Hkeep|]. apply (up_nz _ _ _ _ _ _ Hu); [lia|].
    apply Hall; unfold o, BSIZE in *; divlia.
  - intros k Hk1 Hk2. assert (0 ≤ off / BSIZE) by (apply Z.div_pos; [lia|done]).
    assert (0 ≤ k ≤ MAXFILE) as Hkr by (change MAXFILE with 140; unfold BSIZE in *; divlia).
    assert (∀ j, fblk (<[r := put_bytes (o mod BSIZE) l (V1 r)]> V1) x1 j = fblk V1 x1 j) as ->.
    { apply fblk_ext. intros _. apply fn_lookup_insert_ne. intros E. rewrite Er in E.
      change (i_addrs x1 !!! NDIRECT) with (fblk V1 x1 MAXFILE) in E.
      apply (fo_inj g V1 x1 Ho1) in E; [lia|lia|done|congruence]. }
    destruct (decide (k = o / BSIZE)) as [->|Hne]; [congruence|].
    rewrite Hmono; [|done|]; apply Hsol; [done| |done|]; unfold BSIZE in *; divlia.
Qed.

(** All rounds. *)
Lemma write_loop V0 x0 off n data : 0 ≤ off → off + n ≤ MAXFILE * BSIZE → n ≤ Z.of_nat (length data) →
  ∀ fuel tot s V L x S, 0 ≤ tot ≤ n → nblocks (off + tot) (n - tot) < Z.of_nat fuel →
  writing V0 x0 off n tot data s V L x S →
  runs (loop fuel (λ '(tot, off, src),
      if tot <? n then
        let! bn := bmap ip (off / BSIZE) in
        let! dev := iget ip i_dev in
        let! bp := zoom (bufcache_read dev bn) in
        let m := min (u32 (n - tot)) (u32 (BSIZE - off mod BSIZE)) in
        zoom (bmod bp (λ b, set_b_data (put_bytes (off mod BSIZE) (take (Z.to_nat m) src) (b_data b)) b)) ;;;
        zoom (log_write bp) ;;;
        zoom (bufcache_release bp) ;;;
        ret (inl (u32 (tot + m), u32 (off + m), drop (Z.to_nat m) src))
      else ret (inr off)) (tot, off + tot, drop (Z.to_nat tot) data)) s
    (λ r s', r = off + n ∧ ∃ V' L' x' S', writing V0 x0 off n n data s' V' L' x' S').
Proof.
  intros Hoff Hmax Hlen. induction fuel as [|fuel IH]; intros tot s V L x S Ht Hfuel Hw.
  { unfold nblocks in Hfuel. destruct (_ <=? _) eqn:E; [lia|]. unfold BSIZE in Hfuel. divlia. }
  apply loop_S. destruct (Z.ltb_spec tot n) as [Hlt|Hge].
  2:{ apply runs_ret. replace tot with n in * by lia. split; [done|]. by exists V, L, x, S. }
  destruct (nblocks_step (off + tot) (n - tot)) as (Hm & _ & Hnb & Hpos); [lia|lia|]. pose proof Hmax as Hmax'.
  change (MAXFILE * BSIZE) with 71680 in Hmax'. rewrite io_min by (unfold W32; lia). set (m := Z.min _ _) in *.
  eapply runs_mono; [apply (write_round V0 x0 off n tot data s V L x S _ _ Hw); [done|lia|done|done]|].
  intros r s' [-> (V' & L' & x' & S' & Hw')]. rewrite !u32_small by (unfold W32; lia). rewrite drop_drop.
  replace (off + tot + m) with (off + (tot + m)) by lia.
  replace (Z.to_nat tot + Z.to_nat m)%nat with (Z.to_nat (tot + m)) by lia.
  eapply IH; [lia| |exact Hw']. replace (off + (tot + m)) with (off + tot + m) by lia.
  replace (n - (tot + m)) with (n - tot - m) by lia. lia.
Qed.

Lemma inode_update_runs s V L x :
  fx s V L [] x → i_dev x = 1 → 0 ≤ i_inum x < g_ninodes g → (size L ≤ 8)%nat →
  runs (inode_update ip) s (λ _ s', fx s' (<[IBLOCK (i_inum x) := put_dinode x (dino V x)]> V) (L ∪ {[ IBLOCK (i_inum x) ]}) [] x).
Proof.
  intros Hf Hdev Hi Hsz. destruct (iblock_range g _ Hg Hi) as [_ Hib]. pose proof (bmz_start g Hg). pose proof Hg as [_ Hgl _ Hgr].
  assert (blk_ok (g_st g) (IBLOCK (i_inum x))) as Hbo.
  { unfold LOGSIZE in Hgr. split; [lia|]. apply out_log. lia. }
  unfold inode_update. eapply runs_bind_eq; [apply (fx_iget _ _ _ _ Hip _ _ _ _ _ id Hf)|]. unfold id. rewrite Hdev.
  eapply runs_bind_mono; [apply (fx_read B s0 g ip Hmagic _ _ _ _ _ _ Hf Hbo); [apply not_elem_of_nil|unfold NBUF; simpl; lia]|].
  intros bp s1 Hf1. eapply runs_bind_mono; [apply (fx_mod B s0 g ip _ _ _ _ _ _ _ _ (put_dinode x) Hf1)|].
  intros [] s2 Hf2. eapply runs_bind_mono; [apply (fx_log B s0 g ip Hmagic Hopen _ _ _ _ _ _ _ _ Hf2); unfold LOGSIZE, NBUF; simpl; lia|].
  intros [] s3 Hf3. apply (fx_release B s0 g ip Hmagic _ _ _ _ _ _ _ Hf3).
Qed.

(** What the end of [inode_write] does with the inode: it is written when the file grew. *)
Definition size_step (x0 : inode) (off n : Z) (x : inode) (V : Z → memory) (x' : inode) (V' : Z → memory) : Prop :=
  if decide (0 < n ∧ i_size x0 < off + n)
  then x' = set_i_size (off + n) x ∧ V' = <[IBLOCK (i_inum x') := put_dinode x' (dino V x')]> V
  else x' = x ∧ V' = V.

(** A write inside of the file leaves the inode alone. *)
Lemma writing_keep V0 x0 off n data s V L x S :
  writing V0 x0 off n n data s V L x S → solid V0 x0 → 0 ≤ off → off + n ≤ i_size x0 → x = x0.
Proof.
  intros Hw [_ Hs] Hoff Hle. apply (wg_keep _ _ _ _ _ _ _ _ _ _ _ Hw). intros m Hm1 Hm2. apply Hs; [|lia].
  unfold BSIZE in *. assert (0 ≤ off / 512) by (apply Z.div_pos; lia). lia.
Qed.

(** After a write all parts of the file have blocks. *)
Lemma writing_solid V0 x0 off n data s V L x S m :
  writing V0 x0 off n n data s V L x S → solid V0 x0 → 0 ≤ off ≤ i_size x0 → off + n ≤ MAXFILE * BSIZE →
  0 ≤ m → m * BSIZE < Z.max (i_size x0) (off + n) → fblk V x m ≠ 0.
Proof.
  intros Hw [Hsz Hs0] Hoff Hmax Hm Hz. assert (MAXFILE * BSIZE = 71680 ∧ MAXFILE = 140) as [EM1 EM2] by done.
  destruct (decide (m * BSIZE < i_size x0)) as [Hlt|Hge].
  - apply (up_nz _ _ _ _ _ _ (wg_upto _ _ _ _ _ _ _ _ _ _ _ Hw)); [unfold BSIZE in *; lia|]. by apply Hs0.
  - apply (wg_solid _ _ _ _ _ _ _ _ _ _ _ Hw); [|lia]. unfold BSIZE in *. divlia.
Qed.

(** The inodes on the disk after a write. *)
Lemma writing_disk V0 x0 off n data s V L x S x' V' :
  writing V0 x0 off n n data s V L x S → ifile g V0 x0 → 0 ≤ off ≤ i_size x0 → off + n ≤ MAXFILE * BSIZE →
  size_step x0 off n x V x' V' → inode_typed x' → i_inum x' = i_inum x0 →
  upto g V0 x0 V' x (put_range off n data (fbyte V0 x0)) ∧ (∀ m, fblk V' x m = fblk V x m) ∧ on_disk V' x' ∧
  ∀ y, 0 ≤ i_inum y < g_ninodes g → i_inum y ≠ i_inum x0 → on_disk V0 y → on_disk V' y.
Proof.
  intros Hw [_ Hs Hod _ Hin _] Hoff Hmax Hx Hty Einum. pose proof (wg_upto _ _ _ _ _ _ _ _ _ _ _ Hw) as Hu.
  destruct (iblock_range g _ Hg Hin) as [_ Hib]. pose proof (bmz_start g Hg).
  assert (∀ y, 0 ≤ i_inum y < g_ninodes g → on_disk V0 y → on_disk V y) as Hsame.
  { intros y Hy. apply on_disk_ext. intros o _. unfold dino. rewrite (wg_meta _ _ _ _ _ _ _ _ _ _ _ Hw); [done|].
    destruct (iblock_range g _ Hg Hy). lia. }
  unfold size_step in Hx. case_decide as Ed; destruct Hx as [Hx ->].
  - split; [by apply upto_meta; rewrite ?Einum|]. split; [|split; [by apply put_dinode_on_disk|]].
    + apply fblk_ext. intros Hi. apply fn_lookup_insert_ne. rewrite Einum.
      destruct (dblk_start _ _ _ (fo_indirect g V x (up_file _ _ _ _ _ _ Hu) Hi)). lia.
    + intros y Hy Hne Hody. apply (on_disk_other g); [done|by rewrite Einum|done|by rewrite Einum|by apply Hsame].
  - split; [done|]. split; [done|]. split; [|by auto]. rewrite Hx.
    rewrite (writing_keep _ _ _ _ _ _ _ _ _ _ Hw Hs) by lia. by apply Hsame.
Qed.

(** From the last round to the end. *)
Lemma writing_done V0 x0 off n data s V L x S x' V' :
  writing V0 x0 off n n data s V L x S → ifile g V0 x0 → 0 ≤ off ≤ i_size x0 → 0 ≤ n → off + n ≤ MAXFILE * BSIZE →
  size_step x0 off n x V x' V' →
  written g V0 x0 V' x' (Z.max (i_size x0) (off + n)) (put_range off n data (fbyte V0 x0)).
Proof.
  intros Hw Hif Hoff Hn Hmax Hx. pose proof Hif as [Ho Hs Hod Hty Hin Htype]. pose proof Hs as [Hsz _].
  pose proof (wg_upto _ _ _ _ _ _ _ _ _ _ _ Hw) as Hu. destruct (up_inode _ _ _ _ _ _ Hu) as [a Ea].
  set (z := Z.max (i_size x0) (off + n)).
  assert (x' = set_i_size z x) as Ex'.
  { unfold size_step in Hx. case_decide as Ed; destruct Hx as [-> _]; [f_equal; lia|].
    rewrite (writing_keep _ _ _ _ _ _ _ _ _ _ Hw Hs) by lia. replace z with (i_size x0) by lia. by destruct x0. }
  assert (inode_typed x') as Hty'.
  { rewrite Ex', Ea. destruct Hty as [T1 T2 T3]. constructor; [done|simpl; change (MAXFILE * BSIZE) with 71680 in *; unfold W32; lia|].
    intros i Hi. pose proof (typed_addrs g V x Hg (up_file _ _ _ _ _ _ Hu) i Hi) as T. by rewrite Ea in T. }
  assert (i_inum x' = i_inum x0) as Einum by (by rewrite Ex', Ea).
  destruct (writing_disk _ _ _ _ _ _ _ _ _ _ _ _ Hw Hif Hoff Hmax Hx Hty' Einum) as (Hu' & Ef & Hod' & Hody).
  assert (solid V' x') as Hsol.
  { rewrite Ex'. split; [simpl; lia|]. intros m Hm Hmz. change (fblk V' x m ≠ 0). rewrite Ef.
    by apply (writing_solid _ _ _ _ _ _ _ _ _ _ m Hw Hs). }
  constructor.
  - apply Hu'.
  - constructor; try done; [rewrite Ex'; destruct (up_file _ _ _ _ _ _ Hu'); by constructor|by rewrite Einum|].
    rewrite Ex', Ea. done.
  - exists a. by rewrite Ex', Ea.
  - rewrite Ex'. apply Hu'.
  - intros y [Yo [Ysz Ys] Yod Yty Yin Yt] Hap Hne. destruct (up_other _ _ _ _ _ _ Hu' y Yo Hap) as (Yo' & Ya' & Yb & Yf).
    split; [|split; [rewrite Ex'; exact Ya'|done]]. constructor; try done; [|by apply Hody].
    split; [done|]. intros m Hm Hmz. rewrite Yb; [by apply Ys|]. change (MAXFILE * BSIZE) with 71680 in Ysz. change MAXFILE with 140.
    unfold BSIZE in *. lia.
Qed.

Lemma inode_write_runs s V L x S data off n :
  fx s V L [] x → disk_ok g V → ifile g V x → 0 ≤ off ≤ i_size x → 0 ≤ n → off + n ≤ MAXFILE * BSIZE →
  n ≤ Z.of_nat (length data) → L ⊆ budget S x → Z.of_nat (size S) + nblocks off n ≤ 6 → nblocks off n ≤ pot g V x →
  runs (inode_write ip data off n) s (λ r s', r = n ∧ ∃ V' L' x', fx s' V' L' [] x' ∧ (size L' ≤ 9)%nat ∧
    pot g V x - nblocks off n ≤ pot g V' x' ∧
    written g V x V' x' (Z.max (i_size x) (off + n)) (put_range off n data (fbyte V x))).
Proof.
  intros Hf Hd Hif Hoff Hn Hmax Hlen HL HS Hp. pose proof Hif as [Ho [Hsz _] _ _ Hin Hty]. unfold inode_write.
  pose proof Hmax as Hm. change (MAXFILE * BSIZE) with 71680 in Hm.
  eapply runs_bind_eq; [apply (fx_iget _ _ _ _ Hip _ _ _ _ _ id Hf)|]. unfold id. rewrite (proj2 (Z.eqb_neq _ _) Hty).
  rewrite (u32_small (off + n)) by (unfold W32; lia).
  rewrite !Z.gtb_ltb, (proj2 (Z.ltb_ge (i_size x) off)), (proj2 (Z.ltb_ge (off + n) off)), (proj2 (Z.ltb_ge (MAXFILE * BSIZE) _)) by lia.
  simpl orb. cbv iota. destruct (nblocks_fuel off n) as [Efu Hfu]; [lia|lia|].
  eapply runs_bind_mono.
  { pose proof (write_loop V x off n data ltac:(lia) Hmax Hlen (io_fuel n) 0 s V L x S ltac:(lia)) as Hl.
    rewrite Z.add_0_r, Z.sub_0_r in Hl. apply Hl; [lia|]. constructor; rewrite ?Z.add_0_r, ?Z.sub_0_r; try done; [|lia|].
    - eapply upto_bytes; [by apply upto_refl|]. intros o _. unfold put_range. by rewrite decide_False by lia.
    - intros m Hm1 Hm2. apply Hif; [|lia]. unfold BSIZE in *. assert (0 ≤ off / 512) by (apply Z.div_pos; lia). lia. }
  intros off' s1 [-> (V1 & L1 & x1 & S1 & Hw)]. pose proof Hw as [Hf1 Hu1 HL1 HS1 [_ Hp1] _ _ _].
  rewrite Z.sub_diag in HS1, Hp1. change (nblocks (off + n) 0) with 0 in HS1, Hp1.
  pose proof (budget_size g S1 x1). assert (size L1 ≤ 8)%nat as Hsz1 by (eapply sub_size; [exact HL1|lia]).
  destruct (up_inode _ _ _ _ _ _ Hu1) as [a Ea]. assert (i_size x1 = i_size x) as Es by (by rewrite Ea).
  eapply runs_bind_eq; [apply (fx_iget _ _ _ _ Hip _ _ _ _ _ i_size Hf1)|]. rewrite Es, !Z.gtb_ltb.
  assert (∀ s' V' L' x', fx s' V' L' [] x' → (size L' ≤ 9)%nat → pot g V' x' = pot g V1 x1 → size_step x off n x1 V1 x' V' →
    runs (ret (s32 n)) s' (λ r s', r = n ∧ ∃ V' L' x', fx s' V' L' [] x' ∧ (size L' ≤ 9)%nat ∧
      pot g V x - nblocks off n ≤ pot g V' x' ∧
      written g V x V' x' (Z.max (i_size x) (off + n)) (put_range off n data (fbyte V x)))) as Hend.
  { intros s' V' L' x' Hf' HL' Hp' Hst. apply runs_ret. split; [apply s32_small; unfold is_s32; lia|].
    exists V', L', x'. split; [done|]. split; [done|]. split; [lia|]. by eapply writing_done. }
  destruct (decide (0 < n ∧ i_size x < off + n)) as [[D1 D2]|Dn].
  - rewrite (proj2 (Z.ltb_lt 0 n)), (proj2 (Z.ltb_lt _ _) D2) by lia. simpl when.
    assert (i_inum x1 = i_inum x ∧ i_dev x1 = 1) as [Ei Edv] by (rewrite Ea; split; [done|apply Ho]).
    eapply runs_bind_mono.
    { eapply runs_bind_mono; [apply (fx_imod B s0 g ip Hip _ _ _ _ _ (set_i_size (off + n)) Hf1)|]. intros [] s2 Hf2.
      apply (inode_update_runs s2 V1 L1 _ Hf2); [done|simpl; by rewrite Ei|done]. }
    intros [] s3 Hf3. eapply Hend; [exact Hf3| | |].
    + pose proof (size_union_le L1 {[IBLOCK (i_inum (set_i_size (off + n) x1))]}) as Hle. rewrite size_singleton in Hle. lia.
    + apply pot_meta; [done|]. simpl. rewrite Ei. by apply (iblock_range g).
    + unfold size_step. by rewrite decide_True.
  - assert ((0 <? n) && (i_size x <? off + n) = false) as -> by (apply andb_false_iff; rewrite !Z.ltb_ge; lia).
    eapply runs_bind_eq; [reflexivity|]. eapply Hend; [exact Hf1|lia|done|]. unfold size_step. by rewrite decide_False.
Qed.

End io.
