(* ===== verification/FileOps.v ===== *)
(** * Open files

    [file_read] and [file_write] of kern/fs/file.c: a write is split into transactions, and
    what one descriptor writes another one reads. *)

From stdpp Require Import functions.
From S2P Require Import Prelude Spinlock Pmmap MAT Container Mem Vmm Thread UserCopy DList Bufcache BufSpec Log LogSpec Crash Inode InodeSpec Dir File BlockSpec FileSpec FileRW.

(** ** An inode in the cache *)

(** The inode [x] is in the cache, the disk has the contents [V], of which [L] are logged. *)
Record cachedi (B : txid) (g : geom) (ip : Z) (s : fs) (V : Z → memory) (L : gset Z) (x : inode) : Prop := {
  ca_tx : tx B (f_lg s) (g_st g) V L [];
  ca_slot : slot s (ip - 1) = x;
  ca_lock : lock (icache_lock s) = 0;
}.

(** All that does not belong to the inode stays. *)
Definition same_cache (ip : Z) (s s' : fs) : Prop :=
  files s' = files s ∧ ftable_lock s' = ftable_lock s ∧ ∀ j, j ≠ ip - 1 → slot s' j = slot s j.

Lemma same_cache_refl ip s : same_cache ip s s.
Proof. done. Qed.

Lemma same_cache_trans ip s s1 s2 : same_cache ip s s1 → same_cache ip s1 s2 → same_cache ip s s2.
Proof. intros (E1 & E2 & E3) (F1 & F2 & F3). split; [congruence|]. split; [congruence|]. intros j Hj. by rewrite F3, E3. Qed.

Lemma cachedi_fx B g ip s V L x : cachedi B g ip s V L x → fx B s g ip s V L [] x.
Proof. intros [Ht Hs _]. constructor; [done|done|]. by split. Qed.

Lemma fx_cachedi B B' g ip s V L x s' V' L' x' : cachedi B' g ip s V L x → fx B s g ip s' V' L' [] x' →
  cachedi B g ip s' V' L' x' ∧ same_cache ip s s'.
Proof.
  intros [_ _ Hl] [Ht' Hs' (E1 & E2 & E3 & E4)]. split; [|done]. constructor; [done|done|congruence].
Qed.

(** The lock of an inode is not part of the file. *)
Lemma ifile_flags g V x v : ifile g V x → ifile g V (set_i_flags v x).
Proof.
  intros [Ho Hs Hd Ht Hi Hy]. constructor; [destruct Ho|done|destruct Hd|destruct Ht|done|done]; by constructor.
Qed.

Lemma written_flags g V x V' x' z f v : written g V (set_i_flags v x) V' x' z f →
  written g V x V' (set_i_flags (i_flags x) x') z f.
Proof.
  intros [Hd Hf [a ->] Hb Ho]. constructor; [done|by apply ifile_flags|exists a; by destruct x|done|exact Ho].
Qed.

Lemma written_trans g V x V1 x1 z1 f1 V2 x2 z2 f2 :
  written g V x V1 x1 z1 f1 → written g V1 x1 V2 x2 z2 f2 → written g V x V2 x2 z2 f2.
Proof.
  intros [_ _ [a1 ->] _ Ho1] [Hd2 Hf2 [a2 ->] Hb2 Ho2]. constructor; [done|done|by exists a2|done|].
  intros y Hy Ha Hn. destruct (Ho1 y Hy Ha Hn) as (Hy1 & Ha1 & Hb1). destruct (Ho2 y Hy1 Ha1 Hn) as (Hy2 & Ha2 & E).
  split; [done|]. split; [done|]. intros o Hr. rewrite E by done. by apply Hb1.
Qed.

Lemma written_bytes g V x V' x' z f f' :
  written g V x V' x' z f → (∀ o, 0 ≤ o < MAXFILE * BSIZE → f' o = f o) → written g V x V' x' z f'.
Proof. intros [] E. constructor; try done. intros o Ho. rewrite E by done. auto. Qed.

Section ops.
Context `{KEnv} (g : geom) (ip : Z).
Hypothesis Hmagic : ks_magic = KSTACK_MAGIC.
Hypothesis Hip : 1 ≤ ip ≤ NINODE.
Hypothesis Hg : geom_ok g.

(** ** The lock of an inode *)

Lemma iget_run {A} (f : inode → A) s : iget ip f s = Ret (f (slot s (ip - 1)), s).
Proof. unfold iget. by rewrite (bind_Ret _ _ _ _ _ (aread_in NINODE inodes (ip - 1) s ltac:(lia))). Qed.

Lemma imod_run f s : imod ip f s = Ret (tt, set_inodes (<[ip - 1 := f (slot s (ip - 1))]> (inodes s)) s).
Proof. unfold imod. by rewrite amod_in by lia. Qed.

(** Changing the flags under the lock of the cache. *)
Lemma flags_runs B s V L x f :
  cachedi B g ip s V L x → f x = set_i_flags (i_flags (f x)) x →
  runs (imod ip f ;;; icache_release) (set_icache_lock {| lock_holder := ks_cpu_idx; lock := 1 |} s)
    (λ _ s', cachedi B g ip s' V L (f x) ∧ same_cache ip s s').
Proof.
  intros [Ht Hs Hl] Hf. eapply runs_bind_eq; [apply imod_run|]. simpl. rewrite Hs.
  eapply runs_of_eq; [by apply fzoom_Ret, Spinlock.release_run|]. split.
  - constructor; [done|simpl; by rewrite lookup_total_insert_eq|done].
  - split; [done|]. split; [done|]. intros j Hj. simpl. by rewrite lookup_total_insert_ne.
Qed.

(** An inode that is loaded and not in use. *)
Definition idle_inode (x : inode) : Prop := i_flags x = I_VALID ∧ 1 ≤ i_ref x.

Lemma inode_lock_runs B s V L x :
  cachedi B g ip s V L x → idle_inode x →
  runs (inode_lock ip) s (λ _ s', cachedi B g ip s' V L (set_i_flags (Z.lor I_BUSY I_VALID) x) ∧ same_cache ip s s').
Proof.
  intros Hc [Hfl Hr]. pose proof Hc as [_ Hs Hl]. unfold inode_lock. rewrite (proj2 (Z.eqb_neq ip 0)) by lia.
  eapply (runs_bind_eq _ _ _ tt s).
  { rewrite (bind_Ret _ _ _ _ _ (iget_run i_ref s)), Hs. by rewrite (proj2 (Z.ltb_ge _ _)) by lia. }
  eapply runs_bind_eq; [by apply fzoom_Ret, Spinlock.acquire_free|]. eapply runs_bind_eq; [apply iget_run|].
  simpl slot. rewrite Hs, Hfl. kif. simpl nz. cbv iota.
  eapply runs_rw; [symmetry; apply bind_assoc|].
  eapply runs_bind_mono; [by apply (flags_runs B s V L x (λ x, set_i_flags (Z.lor (i_flags x) I_BUSY) x) Hc)|].
  intros [] s1 [Hc1 Hsame]. eapply runs_bind_eq; [apply iget_run|]. rewrite (ca_slot _ _ _ _ _ _ _ Hc1).
  unfold id. simpl. rewrite Hfl. apply runs_ret. rewrite Hfl in Hc1. done.
Qed.

Lemma inode_unlock_runs B s V L x :
  cachedi B g ip s V L x → i_flags x = Z.lor I_BUSY I_VALID → 1 ≤ i_ref x →
  runs (inode_unlock ip) s (λ _ s', cachedi B g ip s' V L (set_i_flags I_VALID x) ∧ same_cache ip s s').
Proof.
  intros Hc Hfl Hr. pose proof Hc as [_ Hs Hl]. unfold inode_unlock. rewrite (proj2 (Z.eqb_neq ip 0)) by lia.
  eapply (runs_bind_eq _ _ _ tt s).
  { rewrite (bind_Ret _ _ _ _ _ (iget_run id s)), Hs. unfold id. rewrite Hfl, (proj2 (Z.ltb_ge _ _)) by lia. done. }
  eapply runs_bind_eq; [by apply fzoom_Ret, Spinlock.acquire_free|].
  eapply runs_mono; [by apply (flags_runs B s V L x (λ x, set_i_flags (Z.land (i_flags x) (Z.lnot I_BUSY)) x) Hc)|].
  intros [] s1 [Hc1 Hsame]. rewrite Hfl in Hc1. done.
Qed.

(** ** Reading *)

Lemma fget_run {A} f (h : file → A) s : 1 ≤ f ≤ NFILE → fget f h s = Ret (h (files s !!! (f - 1)), s).
Proof. intros Hf. unfold fget. by rewrite (bind_Ret _ _ _ _ _ (aread_in NFILE files (f - 1) s ltac:(lia))). Qed.

Lemma fmod_run f h s : 1 ≤ f ≤ NFILE →
  fmod f h s = Ret (tt, set_files (<[f - 1 := h (files s !!! (f - 1))]> (files s)) s).
Proof. intros Hf. unfold fmod. by rewrite amod_in by lia. Qed.

(** Only the offset of the descriptor [f] changed. *)
Definition moved_to (f off : Z) (s s' : fs) : Prop :=
  files s' !!! (f - 1) = set_f_off off (files s !!! (f - 1)) ∧ (∀ j, j ≠ f - 1 → files s' !!! j = files s !!! j) ∧
  ftable_lock s' = ftable_lock s ∧ ∀ j, j ≠ ip - 1 → slot s' j = slot s j.

(** The descriptor is open on the inode. *)
Definition opened (f off : Z) (s : fs) : Prop :=
  1 ≤ f ≤ NFILE ∧ f_type (files s !!! (f - 1)) = FD_INODE ∧ f_ip (files s !!! (f - 1)) = ip ∧
  f_off (files s !!! (f - 1)) = off.

(** The offset is advanced after a transfer of [n] bytes. *)
Lemma advance_runs B s V L x f off n :
  cachedi B g ip s V L x → opened f off s → 0 ≤ off → 0 ≤ n → off + n < W32 →
  runs (when (n >? 0) (fmod f (λ y, set_f_off (u32 (f_off y + n)) y))) s
    (λ _ s', cachedi B g ip s' V L x ∧ moved_to f (off + n) s s').
Proof.
  intros Hc (Hf & _ & _ & Ho) Hoff Hn Hw. rewrite Z.gtb_ltb. destruct (Z.ltb_spec 0 n); simpl when.
  - eapply runs_of_eq; [by apply fmod_run|]. cbv beta. rewrite Ho, u32_small by lia. split; [by destruct Hc|].
    split; [simpl; by rewrite lookup_total_insert_eq|]. split; [|done]. intros j Hj. simpl. by rewrite lookup_total_insert_ne.
  - apply runs_ret. split; [done|]. split; [|done]. replace (off + n) with off by lia. rewrite <- Ho.
    by destruct (files s !!! (f - 1)).
Qed.

Lemma moved_same f off s s1 s2 : moved_to f off s s1 → same_cache ip s1 s2 → moved_to f off s s2.
Proof.
  intros (E1 & E2 & E3 & E4) (F1 & F2 & F3). split; [by rewrite F1|]. split; [intros j Hj; rewrite F1; by apply E2|].
  split; [congruence|]. intros j Hj. rewrite F3 by done. by apply E4.
Qed.

Lemma same_moved f off s s1 s2 : same_cache ip s s1 → moved_to f off s1 s2 → moved_to f off s s2.
Proof.
  intros (F1 & F2 & F3) (E1 & E2 & E3 & E4). rewrite F1 in E1. split; [done|].
  split; [intros j Hj; rewrite E2 by done; by rewrite F1|]. split; [congruence|]. intros j Hj. rewrite E4 by done. by apply F3.
Qed.

Lemma same_opened f off s s' : same_cache ip s s' → opened f off s → opened f off s'.
Proof. intros (E & _). unfold opened. by rewrite E. Qed.

Lemma file_read_runs B s V L x f off n :
  cachedi B g ip s V L x → idle_inode x → ifile g V x → Z.of_nat (size L) < NBUF → opened f off s →
  f_readable (files s !!! (f - 1)) ≠ 0 → 0 ≤ off ≤ i_size x → 0 ≤ n → off + n < W32 →
  let c := Z.min n (i_size x - off) in
  runs (file_read f n) s (λ r s', r = (c, fbyte V x <$> seqZ off c) ∧ cachedi B g ip s' V L x ∧ moved_to f (off + c) s s').
Proof.
  intros Hc Hid Hif Hsz Hop Hrd Hoff Hn Hw c. pose proof Hop as (Hf & Hty & Eip & Eoff). unfold file_read.
  eapply runs_bind_eq; [by apply fget_run|]. unfold id. rewrite (proj2 (Z.eqb_neq _ _) Hrd), Hty, Eip. kif. simpl Z.eqb. cbv iota.
  eapply runs_bind_mono; [by apply (inode_lock_runs B s V L x)|]. intros [] s1 [Hc1 Hs1].
  pose proof (same_opened _ _ _ _ Hs1 Hop) as Hop1. eapply runs_bind_eq; [by apply fget_run|].
  rewrite (proj2 (proj2 (proj2 Hop1))). rewrite (u32_small n) by lia.
  eapply runs_bind_mono.
  { apply (inode_read_runs B s1 g ip Hmagic Hip Hg s1 V L _ off n (cachedi_fx _ _ _ _ _ _ _ Hc1));
      [by apply (ifile_flags g V x)|by apply (ifile_flags g V x)|by apply Hif|done..]. }
  change (i_size (set_i_flags _ x)) with (i_size x). fold c. intros r s2 [-> Hf2].
  destruct (fx_cachedi _ _ _ _ _ _ _ _ _ _ _ _ Hc1 Hf2) as [Hc2 Hs2].
  pose proof (same_opened _ _ _ _ Hs2 Hop1) as Hop2. simpl fst.
  eapply runs_bind_mono; [apply (advance_runs B s2 V L _ f off c Hc2 Hop2); lia|]. intros [] s3 [Hc3 Hm3].
  eapply runs_bind_mono; [apply (inode_unlock_runs B s3 V L _ Hc3); [done|apply Hid]|]. intros [] s4 [Hc4 Hs4].
  apply runs_ret. split; [done|]. split.
  - destruct Hid as [Hfl _]. assert (set_i_flags I_VALID (set_i_flags (Z.lor I_BUSY I_VALID) x) = x) as E by (rewrite <- Hfl; by destruct x).
    by rewrite E in Hc4.
  - eapply moved_same; [|done]. eapply same_moved; [|done]. by eapply same_cache_trans.
Qed.

(** ** Writing *)

Hypothesis Hsingle : g_size g ≤ BPB.

Lemma begin_cached s V x : cachedi None g ip s V ∅ x →
  runs (zoom begin_trans) s (λ _ s', cachedi (inside (f_lg s)) g ip s' V ∅ x ∧ same_cache ip s s').
Proof.
  intros [Ht Hs Hl]. apply runs_zoom. eapply runs_mono; [by apply (tx_begin Hmagic (f_lg s) (g_st g) V)|].
  intros [] l Ht'. by split.
Qed.

(** The disk of a state. *)
Definition fdisk (s : fs) : gmap (Z * Z) memory := d_disk (l_bc (f_lg s)).

Lemma commit_cached D W s V L x : cachedi (Some (D, W)) g ip s V L x → (size L ≤ 9)%nat →
  runs (zoom commit_trans) s (λ _ s', cachedi None g ip s' V ∅ x ∧ same_cache ip s s' ∧
    (settled D (g_st g) → settled (fdisk s') (g_st g) ∧
      ∀ c, d_disk c = D → d_writes c = W → crash_safe (g_st g) c (l_bc (f_lg s')))).
Proof.
  intros [Ht Hs Hl] Hsz. apply runs_zoom. eapply runs_mono.
  { apply (tx_commit Hmagic D W (f_lg s) (g_st g) V L); [done|unfold NBUF; lia]. }
  intros [] l [Ht' Hcr]. by split.
Qed.

(** A chunk of a write touches at most four blocks. *)
Lemma chunk_blocks off n : 0 ≤ off → 0 ≤ n ≤ write_max → 0 ≤ nblocks off n ≤ 4.
Proof.
  change write_max with 1536. intros Ho Hn. unfold nblocks, BSIZE. destruct (Z.leb_spec n 0); [lia|]. divlia.
Qed.

(** The transaction of a chunk. *)
Lemma chunk_runs {A} s V x f off n data (k : Z → M fs A) P :
  cachedi None g ip s V ∅ x → idle_inode x → disk_ok g V → ifile g V x → opened f off s →
  0 ≤ off ≤ i_size x → 0 ≤ n ≤ write_max → off + n ≤ MAXFILE * BSIZE → n ≤ Z.of_nat (length data) → 4 ≤ pot g V x →
  (∀ s' V' x', cachedi None g ip s' V' ∅ x' → idle_inode x' → pot g V x - 4 ≤ pot g V' x' → moved_to f (off + n) s s' →
    written g V x V' x' (Z.max (i_size x) (off + n)) (put_range off n data (fbyte V x)) →
    (settled (fdisk s) (g_st g) → settled (fdisk s') (g_st g) ∧ crash_safe (g_st g) (l_bc (f_lg s)) (l_bc (f_lg s'))) →
    runs (k n) s' P) →
  runs (zoom begin_trans ;;;
        inode_lock ip ;;;
        let! off := fget f f_off in
        let! r := inode_write ip data off n in
        when (r >? 0) (fmod f (λ x, set_f_off (u32 (f_off x + r)) x)) ;;;
        inode_unlock ip ;;;
        zoom commit_trans ;;;
        k r) s P.
Proof.
  intros Hc Hid Hd Hif Hop Hoff Hn Hmax Hlen Hpot Hk. pose proof (chunk_blocks off n ltac:(lia) Hn) as Hnb.
  pose proof Hmax as Hm. change (MAXFILE * BSIZE) with 71680 in Hm. set (B := inside (f_lg s)).
  eapply runs_bind_mono; [by apply begin_cached|]. intros [] s1 [Hc1 Hs1].
  eapply runs_bind_mono; [by apply (inode_lock_runs B s1 V ∅ x)|]. intros [] s2 [Hc2 Hs2].
  pose proof (same_opened _ _ _ _ (same_cache_trans _ _ _ _ Hs1 Hs2) Hop) as Hop2.
  eapply runs_bind_eq; [apply fget_run; apply Hop|]. rewrite (proj2 (proj2 (proj2 Hop2))). set (y := set_i_flags _ x) in *.
  eapply runs_bind_mono.
  { apply (inode_write_runs B s2 g ip Hmagic Hip Hg ltac:(done) Hsingle s2 V ∅ y ∅ data off n (cachedi_fx _ _ _ _ _ _ _ Hc2));
      [done|by apply ifile_flags|done|lia|done|done|set_solver|rewrite size_empty; lia|].
    change (pot g V y) with (pot g V x). lia. }
  intros r s3 [-> (V' & L' & x' & Hf3 & HL' & Hp' & Hw)]. destruct (fx_cachedi _ _ _ _ _ _ _ _ _ _ _ _ Hc2 Hf3) as [Hc3 Hs3].
  pose proof (same_opened _ _ _ _ Hs3 Hop2) as Hop3.
  eapply runs_bind_mono; [apply (advance_runs B s3 V' L' x' f off n Hc3 Hop3); unfold W32; lia|]. intros [] s4 [Hc4 Hm4].
  destruct (wn_inode _ _ _ _ _ _ _ Hw) as [a Ex'].
  eapply runs_bind_mono; [apply (inode_unlock_runs B s4 V' L' x' Hc4); rewrite Ex'; [done|apply Hid]|]. intros [] s5 [Hc5 Hs5].
  eapply runs_bind_mono; [by apply (commit_cached _ _ s5 V' L' _ Hc5)|]. intros [] s6 (Hc6 & Hs6 & Hcr).
  rewrite <- (proj1 Hid) in Hc6. eapply Hk; [exact Hc6| | | | |].
  - rewrite Ex'. destruct Hid. by split.
  - unfold pot in *. simpl. change (i_addrs y) with (i_addrs x) in Hp'. lia.
  - eapply moved_same; [|done]. eapply moved_same; [|done]. eapply same_moved; [|done].
    eapply same_cache_trans; [|done]. by eapply same_cache_trans.
  - by apply (written_flags g V x V' x' _ _ (Z.lor I_BUSY I_VALID)).
  - intros Hset. destruct (Hcr Hset) as [Hset' Hsafe]. split; [done|]. by apply Hsafe.
Qed.

(** The number of transactions. *)
Definition nchunks (n : Z) : Z := (n + write_max - 1) / write_max.

Lemma put_range_app off i n data f o : 0 ≤ i → 0 ≤ n →
  put_range off (i + n) data f o = put_range (off + i) n (drop (Z.to_nat i) data) (put_range off i data f) o.
Proof.
  intros Hi Hn. unfold put_range. repeat case_decide; try lia; try done.
  f_equal. rewrite !list_lookup_total_alt, lookup_drop. do 2 f_equal. lia.
Qed.

Lemma moved_trans f a b s s1 s2 : moved_to f a s s1 → moved_to f b s1 s2 → moved_to f b s s2.
Proof.
  intros (E1 & E2 & E3 & E4) (F1 & F2 & F3 & F4). split; [by rewrite F1, E1|].
  split; [intros j Hj; by rewrite F2, E2|]. split; [congruence|]. intros j Hj. by rewrite F4, E4.
Qed.

Lemma moved_opened f a b s s' : opened f a s → moved_to f b s s' → opened f b s'.
Proof. intros (Hf & Ht & Hi & _) (E & _). unfold opened. by rewrite E. Qed.

Lemma written_refl V x : disk_ok g V → ifile g V x → written g V x V x (i_size x) (fbyte V x).
Proof. intros Hd Hif. constructor; try done. exists (i_addrs x). by destruct x. Qed.

(** The disk has the file with the first [i] bytes of the data written. *)
Definition prefix_on (data : list Z) (off n : Z) (V0 : Z → memory) (x0 : inode) (D : gmap (Z * Z) memory) : Prop :=
  ∃ i V x, 0 ≤ i ≤ n ∧ (∀ b, ¬ in_log (g_st g) b → D !!! (1, b) = V b) ∧
    written g V0 x0 V x (Z.max (i_size x0) (off + i)) (put_range off i data (fbyte V0 x0)).

(** A crash between [s0] and [s] leaves a prefix of the data. *)
Definition crash_prefix (data : list Z) (off n : Z) (V0 : Z → memory) (x0 : inode) (s0 s : fs) : Prop :=
  ∃ ws, d_writes (l_bc (f_lg s)) = d_writes (l_bc (f_lg s0)) ++ ws ∧ fdisk s = apply_writes ws (fdisk s0) ∧
    ∀ k, ∃ D, recovers_to (g_st g) (apply_writes (take k ws) (fdisk s0)) D ∧ prefix_on data off n V0 x0 D.

Lemma crash_prefix_step data off n V0 x0 s0 s s' :
  crash_prefix data off n V0 x0 s0 s → crash_safe (g_st g) (l_bc (f_lg s)) (l_bc (f_lg s')) →
  prefix_on data off n V0 x0 (fdisk s) → prefix_on data off n V0 x0 (fdisk s') → crash_prefix data off n V0 x0 s0 s'.
Proof.
  intros (ws & Ew & Ed & Hk) (ws' & Ew' & Ed' & Hk') Hs Hs'. exists (ws ++ ws').
  split; [by rewrite Ew', Ew, app_assoc|]. unfold fdisk in *. split; [by rewrite Ed', Ed, apply_writes_app|].
  intros k. destruct (decide (k ≤ length ws)%nat) as [Hle|Hgt]; [rewrite take_app_le by done; apply Hk|].
  rewrite take_app_ge by lia. rewrite apply_writes_app, <- Ed.
  destruct (Hk' (k - length ws)%nat) as [Hr|Hr]; eexists; split; [exact Hr|done|exact Hr|done].
Qed.

(** Outside of a transaction the contents are on the disk. *)
Lemma cachedi_disk s V x b : cachedi None g ip s V ∅ x → ¬ in_log (g_st g) b → fdisk s !!! (1, b) = V b.
Proof.
  intros [(secs & T & T' & Ht) _ _] Hb. rewrite (tx_view _ _ _ _ _ _ _ _ _ Ht) by (done || apply not_elem_of_nil).
  pose proof (tx_dom _ _ _ _ _ _ _ _ _ Ht) as HT%dom_empty_inv_L. rewrite HT. unfold view. by rewrite lookup_empty.
Qed.

(** What is true between two transactions of a write that began in [s0]. *)
Record filing (f : Z) (data : list Z) (off n : Z) (s0 : fs) (V0 : Z → memory) (x0 : inode) (i : Z) (s : fs)
  (V : Z → memory) (x : inode) : Prop := {
  fi_cached : cachedi None g ip s V ∅ x;
  fi_idle : idle_inode x;
  fi_written : written g V0 x0 V x (Z.max (i_size x0) (off + i)) (put_range off i data (fbyte V0 x0));
  fi_moved : moved_to f (off + i) s0 s;
  fi_pot : 4 * nchunks (n - i) ≤ pot g V x;
  fi_crash : settled (fdisk s0) (g_st g) → settled (fdisk s) (g_st g) ∧ crash_prefix data off n V0 x0 s0 s;
}.

Lemma filing_prefix f data off n s0 V0 x0 i s V x :
  filing f data off n s0 V0 x0 i s V x → 0 ≤ i ≤ n → prefix_on data off n V0 x0 (fdisk s).
Proof. intros [Hc _ Hw _ _ _] Hi. exists i, V, x. split; [done|]. split; [|done]. intros b Hb. by eapply cachedi_disk. Qed.

Lemma file_write_loop f data off n s0 V0 x0 :
  opened f off s0 → 0 ≤ off ≤ i_size x0 → off + n ≤ MAXFILE * BSIZE → n ≤ Z.of_nat (length data) →
  ∀ fuel i s V x, 0 ≤ i ≤ n → nchunks (n - i) < Z.of_nat fuel → filing f data off n s0 V0 x0 i s V x →
  runs (loop fuel (λ i,
      if i <? n then
        let n1 := if n - i >? write_max then write_max else n - i in
        zoom begin_trans ;;;
        inode_lock ip ;;;
        let! off := fget f f_off in
        let! r := inode_write ip (drop (Z.to_nat i) data) off n1 in
        when (r >? 0) (fmod f (λ x, set_f_off (u32 (f_off x + r)) x)) ;;;
        inode_unlock ip ;;;
        zoom commit_trans ;;;
        if r <? 0 then ret (inr i)
        else
          when (negb (r =? n1)) KERN_PANIC ;;;
          ret (inl (i + r))
      else ret (inr i)) i) s
    (λ r s', r = n ∧ ∃ V' x', filing f data off n s0 V0 x0 n s' V' x').
Proof.
  intros Hop Hoff Hmax Hlen. pose proof Hmax as Hm. change (MAXFILE * BSIZE) with 71680 in Hm.
  induction fuel as [|fuel IH]; intros i s V x Hi Hfuel Hfl.
  { unfold nchunks in Hfuel. change write_max with 1536 in Hfuel. divlia. }
  apply loop_S. destruct (Z.ltb_spec i n) as [Hlt|Hge].
  2:{ apply runs_ret. replace i with n in * by lia. split; [done|]. by exists V, x. }
  pose proof Hfl as [Hc Hid Hw Hmv Hp Hcr]. rewrite Z.gtb_ltb. set (n1 := if _ <? _ then _ else _).
  assert (n1 = Z.min write_max (n - i)) as En1 by (unfold n1; destruct (Z.ltb_spec write_max (n - i)); lia).
  assert (nchunks (n - (i + n1)) = nchunks (n - i) - 1 ∧ 1 ≤ nchunks (n - i) ∧ 0 < n1) as (Hnc & Hnc1 & Hn1).
  { rewrite En1. unfold nchunks. change write_max with 1536. divlia. }
  destruct (wn_inode _ _ _ _ _ _ _ Hw) as [a Ex]. assert (i_size x = Z.max (i_size x0) (off + i)) as Esz by (by rewrite Ex).
  pose proof (moved_opened _ _ _ _ _ Hop Hmv) as Hop'.
  apply (chunk_runs s V x f (off + i) n1); try done; [apply Hw|apply Hw|lia|lia| |rewrite length_drop; lia|lia|].
  { change (MAXFILE * BSIZE) with 71680. lia. }
  intros s' V' x' Hc' Hid' Hp' Hmv' Hw' Hcr'. rewrite (proj2 (Z.ltb_ge n1 0)) by lia. rewrite Z.eqb_refl. simpl when.
  eapply runs_bind_eq; [reflexivity|]. apply runs_ret. apply (IH (i + n1) s' V' x'); [lia|lia|].
  assert (written g V0 x0 V' x' (Z.max (i_size x0) (off + (i + n1))) (put_range off (i + n1) data (fbyte V0 x0))) as Hw''.
  { eapply written_bytes; [|intros o _; by apply put_range_app; lia].
    eapply written_bytes; [eapply written_trans; [exact Hw|]|].
    + replace (Z.max (i_size x0) (off + (i + n1))) with (Z.max (i_size x) (off + i + n1)) by lia. exact Hw'.
    + intros o Ho. unfold put_range at 1 3. case_decide; [done|]. symmetry. by apply (wn_bytes _ _ _ _ _ _ _ Hw). }
  constructor; [done|done|done| |lia|].
  - replace (off + (i + n1)) with (off + i + n1) by lia. by eapply moved_trans.
  - intros Hset. destruct (Hcr Hset) as [Hset1 Hpre]. destruct (Hcr' Hset1) as [Hset2 Hsafe]. split; [done|].
    apply (crash_prefix_step _ _ _ _ _ _ s); [done|done|by apply (filing_prefix _ _ _ _ _ _ _ _ _ _ _ Hfl)|].
    exists (i + n1), V', x'. split; [lia|]. split; [|done]. intros b Hb. by eapply cachedi_disk.
Qed.

(** The whole write. *)
Lemma file_write_runs s V x f off n data :
  cachedi None g ip s V ∅ x → idle_inode x → disk_ok g V → ifile g V x → opened f off s →
  f_writable (files s !!! (f - 1)) ≠ 0 → 0 ≤ off ≤ i_size x → 0 ≤ n → off + n ≤ MAXFILE * BSIZE →
  n ≤ Z.of_nat (length data) → 4 * nchunks n ≤ pot g V x →
  runs (file_write f data n) s (λ r s', r = n ∧ ∃ V' x', filing f data off n s V x n s' V' x').
Proof.
  intros Hc Hid Hd Hif Hop Hwr Hoff Hn Hmax Hlen Hp. pose proof Hop as (Hf & Hty & Eip & Eoff). unfold file_write.
  eapply runs_bind_eq; [by apply fget_run|]. unfold id. rewrite (proj2 (Z.eqb_neq _ _) Hwr), Hty, Eip. kif. simpl Z.eqb. cbv iota.
  eapply runs_bind_mono.
  { apply (file_write_loop f data off n s V x Hop Hoff Hmax Hlen _ 0 s V x); [lia| |].
    - rewrite Z.sub_0_r. unfold nchunks. change write_max with 1536. divlia.
    - constructor; rewrite ?Z.sub_0_r, ?Z.add_0_r; try done.
      + rewrite Z.max_l by lia. eapply written_bytes; [by apply written_refl|]. intros o _. unfold put_range. by rewrite decide_False by lia.
      + split; [|done]. rewrite <- Eoff. by destruct (files s !!! (f - 1)).
      + intros Hset. split; [done|]. exists []. rewrite app_nil_r. split; [done|]. split; [done|]. intros k. exists (fdisk s).
        rewrite take_nil. split; [apply (slots_recover _ [] _ 0); [done|constructor]|]. exists 0, V, x. split; [lia|].
        split; [intros b Hb; by eapply cachedi_disk|]. rewrite Z.add_0_r, Z.max_l by lia.
        eapply written_bytes; [by apply written_refl|]. intros o _. unfold put_range. by rewrite decide_False by lia. }
  intros r s' [-> Hfin]. apply runs_ret. by rewrite Z.eqb_refl.
Qed.

(** C5: what is written to a file is read from it.  When a descriptor is open for writing on
    a file, in which the offset lies, and the disk has room, [file_write] of [n] bytes, which
    it splits into transactions, returns [n]; the file on the disk then has these bytes at
    the offset, the same others, and the size of the old end or the new one; all other files
    are unchanged.  [file_read] of another descriptor at the offset returns the bytes. *)
Theorem file_write_read s V x f1 f2 off n data :
  cachedi None g ip s V ∅ x → idle_inode x → disk_ok g V → ifile g V x →
  opened f1 off s → opened f2 off s → f1 ≠ f2 →
  f_writable (files s !!! (f1 - 1)) ≠ 0 → f_readable (files s !!! (f2 - 1)) ≠ 0 →
  0 ≤ off ≤ i_size x → 0 ≤ n → off + n ≤ MAXFILE * BSIZE → n ≤ Z.of_nat (length data) → 4 * nchunks n ≤ pot g V x →
  runs (let! r := file_write f1 data n in
        let! b := file_read f2 n in
        ret (r, b)) s
    (λ r s', r = (n, (n, u8 <$> take (Z.to_nat n) data)) ∧
      ∃ V' x', cachedi None g ip s' V' ∅ x' ∧ (∀ b, ¬ in_log (g_st g) b → fdisk s' !!! (1, b) = V' b) ∧
        written g V x V' x' (Z.max (i_size x) (off + n)) (put_range off n data (fbyte V x))).
Proof.
  intros Hc Hid Hd Hif Hop1 Hop2 Hne Hwr Hrd Hoff Hn Hmax Hlen Hp. pose proof Hmax as Hm. change (MAXFILE * BSIZE) with 71680 in Hm.
  eapply runs_bind_mono; [by apply (file_write_runs s V x f1 off n data)|].
  intros r s1 [-> (V' & x' & [Hc1 Hid1 Hw (_ & Hm1 & _) _ _])]. pose proof (Hm1 (f2 - 1) ltac:(lia)) as E2.
  destruct (wn_inode _ _ _ _ _ _ _ Hw) as [a Ex]. assert (i_size x' = Z.max (i_size x) (off + n)) as Esz by (by rewrite Ex).
  eapply runs_bind_mono.
  { apply (file_read_runs None s1 V' ∅ x' f2 off n Hc1 Hid1); [apply Hw|done|unfold opened; by rewrite E2|by rewrite E2|lia|done|unfold W32; lia]. }
  intros b s2 (-> & Hc2 & _). apply runs_ret. rewrite Z.min_l by lia. split.
  - do 2 f_equal. apply list_eq. intros i. rewrite !list_lookup_fmap. destruct (decide (Z.of_nat i < n)) as [Hi|Hi].
    + rewrite lookup_seqZ_lt, lookup_take_lt by lia. destruct (lookup_lt_is_Some_2 data i) as [d Ed]; [lia|]. rewrite Ed. simpl.
      rewrite (wn_bytes _ _ _ _ _ _ _ Hw) by (change (MAXFILE * BSIZE) with 71680; lia). unfold put_range.
      rewrite decide_True by lia. replace (Z.to_nat (off + Z.of_nat i - off)) with i by lia.
      by rewrite (list_lookup_total_correct _ _ _ Ed).
    + rewrite lookup_seqZ_ge, lookup_take_ge by lia. done.
  - exists V', x'. split; [done|]. split; [|done]. intros b Hb. by eapply cachedi_disk.
Qed.

(** C2: a crash during a write to a file leaves a prefix of the data.  Wherever the disk
    writes of [file_write] stop, and however often the recovery of the next boots is stopped
    as well, the boot that completes finds on the disk the file with the first [i] bytes of
    the data written, for some [i], its inode to match, and all other files unchanged. *)
Theorem file_write_crash s V x f off n data :
  cachedi None g ip s V ∅ x → idle_inode x → disk_ok g V → ifile g V x → opened f off s →
  f_writable (files s !!! (f - 1)) ≠ 0 → 0 ≤ off ≤ i_size x → 0 ≤ n → off + n ≤ MAXFILE * BSIZE →
  n ≤ Z.of_nat (length data) → 4 * nchunks n ≤ pot g V x → settled (fdisk s) (g_st g) →
  runs (file_write f data n) s (λ r s', r = n ∧
    ∃ ws, d_writes (l_bc (f_lg s')) = d_writes (l_bc (f_lg s)) ++ ws ∧
    ∀ k D t, rtc stopped_boot (apply_writes (take k ws) (fdisk s)) D → disk_boot (l_bc t) → d_disk (l_bc t) = D →
      runs boot t (λ _ t', pins (l_bc t') ∅ [] ∧ ∃ i V' x', 0 ≤ i ≤ n ∧
        (∀ b, ¬ in_log (g_st g) b → d_disk (l_bc t') !!! (1, b) = V' b) ∧
        written g V x V' x' (Z.max (i_size x) (off + i)) (put_range off i data (fbyte V x)))).
Proof.
  intros Hc Hid Hd Hif Hop Hwr Hoff Hn Hmax Hlen Hp Hset.
  eapply runs_mono; [by apply (file_write_runs s V x f off n data)|].
  intros r s' [-> (V' & x' & Hfl)]. split; [done|]. destruct (fi_crash _ _ _ _ _ _ _ _ _ _ _ Hfl Hset) as [_ (ws & Ew & _ & Hk)].
  exists ws. split; [done|]. intros k D t Hst Hb Ht. destruct (Hk k) as (F & Hr & i & Vi & xi & Hi & HV & Hw).
  eapply runs_mono; [apply (recovers_boot Hmagic (g_st g) D F t); [by eapply (recovers_stopped Hmagic)|done|done]|].
  intros [] t' (_ & Hpins & Hsame & _). split; [done|]. exists i, Vi, xi. split; [done|]. split; [|done].
  intros b Hbl. rewrite Hsame by done. by apply HV.
Qed.

End ops.

(** ** An example file system *)

Definition demo_node (inum type : Z) : inode := {| i_dev := 1; i_inum := inum; i_ref := 1; i_flags := 2; i_type := type;
  i_major := 0; i_minor := 0; i_nlink := 0; i_size := 0; i_addrs := ∅ |}.
Definition demo_inode : inode := demo_node 5 T_FILE.
Definition demo_file (r w : Z) : file := {| f_type := FD_INODE; f_ref := 1; f_readable := r; f_writable := w; f_ip := 1; f_off := 0 |}.
Definition demo_files (l : lg) : fs := {| f_lg := l; icache_lock := zero_lk; inodes := {[ 0 := demo_inode ]};
  ftable_lock := zero_lk; files := <[1 := demo_file 1 0]> {[ 0 := demo_file 0 1 ]} |}.

Lemma demo_empty inum type : on_disk demo_view (demo_node inum type) → 0 ≤ inum < 200 → type = T_FILE ∨ type = T_DIR →
  ifile demo_geom demo_view (demo_node inum type).
Proof.
  intros Hod Hin Hty. assert (∀ i, i_addrs (demo_node inum type) !!! i = 0) as Ha by (intros i; simpl; by rewrite lookup_total_empty).
  assert (∀ n, fblk demo_view (demo_node inum type) n = 0) as Hf.
  { intros n. unfold fblk. rewrite !Ha. by destruct (n =? MAXFILE), (n <? NDIRECT). }
  constructor; [constructor| |exact Hod|constructor|exact Hin|].
  - done.
  - intros n _. by rewrite Hf.
  - intros n m _ _. by rewrite Hf.
  - split; [done|]. simpl. unfold BSIZE. lia.
  - repeat constructor; simpl; destruct Hty as [-> | ->]; unfold T_FILE, T_DIR; lia.
  - done.
  - intros i _. by rewrite Ha.
  - simpl. by destruct Hty as [-> | ->].
Qed.

Lemma demo_ifile : ifile demo_geom demo_view demo_inode.
Proof.
  apply demo_empty; [|lia|by left]. constructor; [by vm_compute|by vm_compute|by vm_compute|by vm_compute|by vm_compute|].
  assert (Forall (λ i, load32 (demo_view 2) (320 + 12 + 4 * i) = i_addrs demo_inode !!! i) (seqZ 0 13)) as Hall.
  { apply (bool_decide_unpack _). by vm_compute. }
  intros i Hi. apply (proj1 (Forall_forall _ _) Hall). apply elem_of_seqZ. unfold NDIRECT in Hi. lia.
Qed.

Lemma demo_cached l : tx None l 990 demo_view ∅ [] → cachedi None demo_geom 1 (demo_files l) demo_view ∅ demo_inode.
Proof. intros Hl. by constructor. Qed.

Lemma demo_idle : idle_inode demo_inode.
Proof. split; [reflexivity|simpl; lia]. Qed.

Lemma demo_opened f l : f = 1 ∨ f = 2 → opened 1 f 0 (demo_files l).
Proof. intros [-> | ->]; (split; [unfold NFILE; lia|by split]). Qed.

Lemma file_write_read_witness : ∃ l, runs (let! r := @file_write demo_env 1 [104; 105; 33] 3 in
      let! b := @file_read demo_env 2 3 in
      ret (r, b)) (demo_files l) (λ r s', r = (3, (3, [104; 105; 33])) ∧
    ∃ V' x', written demo_geom demo_view demo_inode V' x' 3 (put_range 0 3 [104; 105; 33] (fbyte demo_view demo_inode))).
Proof.
  destruct demo_files_boot as [l Hl]. exists l. eapply runs_mono.
  - apply (@file_write_read demo_env demo_geom 1 eq_refl ltac:(unfold NINODE; lia) demo_geom_ok ltac:(vm_compute; discriminate)
      (demo_files l) demo_view demo_inode 1 2 0 3 [104; 105; 33]).
    + by apply demo_cached.
    + apply demo_idle.
    + apply demo_disk_ok.
    + apply demo_ifile.
    + apply demo_opened. by left.
    + apply demo_opened. by right.
    + lia.
    + discriminate.
    + discriminate.
    + simpl; lia.
    + lia.
    + vm_compute. discriminate.
    + vm_compute. discriminate.
    + vm_compute. discriminate.
  - intros r s' (-> & V' & x' & _ & _ & Hw). split; [done|]. by exists V', x'.
Defined.

Lemma file_write_crash_witness : ∃ l, settled (d_disk (l_bc l)) 990 ∧
  runs (@file_write demo_env 1 [104; 105; 33] 3) (demo_files l) (λ r _, r = 3).
Proof.
  destruct demo_files_settled as (l & Hl & Hset). exists l. split; [done|]. eapply runs_mono.
  - apply (@file_write_crash demo_env demo_geom 1 eq_refl ltac:(unfold NINODE; lia) demo_geom_ok ltac:(vm_compute; discriminate)
      (demo_files l) demo_view demo_inode 1 0 3 [104; 105; 33]).
    + by apply demo_cached.
    + apply demo_idle.
    + apply demo_disk_ok.
    + apply demo_ifile.
    + apply demo_opened. by left.
    + discriminate.
    + simpl; lia.
    + lia.
    + vm_compute. discriminate.
    + vm_compute. discriminate.
    + vm_compute. discriminate.
    + exact Hset.
  - by intros r s' [-> _].
Defined.
