(* ===== verification/DirSpec.v ===== *)
(** * Directories

    A directory as a sequence of entries in the contents of its file: [dir_lookup] finds the
    first entry with a name, [dir_link] adds an entry for a name that has none, and nothing
    changes for the other names. *)

From stdpp Require Import functions.
From S2P Require Import Prelude Spinlock Pmmap MAT Container Mem Vmm Thread UserCopy DList Bufcache BufSpec Log LogSpec Crash Inode InodeSpec Dir File BlockSpec FileSpec FileRW FileOps.

(** ** Entries and names *)

(** The entry [k] of a directory. *)
Definition dent (V : Z → memory) (x : inode) (k : Z) : list Z := fbyte V x <$> seqZ (DIRENT_SIZE * k) DIRENT_SIZE.
Definition nents (x : inode) : Z := i_size x / DIRENT_SIZE.
Definition dir_inode (x : inode) : Prop := i_type x = T_DIR ∧ i_size x mod DIRENT_SIZE = 0.

(** The name ends, or has at least [DIRSIZ] characters. *)
Definition name_ok (name : list Z) : Prop :=
  is_Some (cstrncpy (Z.to_nat DIRSIZ) name) ∧ Forall (λ c, 0 ≤ c < 256) name.

(** An entry is in use and has the name. *)
Definition dmatch (name de : list Z) : Prop :=
  de_inum de ≠ 0 ∧ cstrncmp (Z.to_nat DIRSIZ) (de_name de) name = Some 0.
#[global] Instance dmatch_dec name de : Decision (dmatch name de).
Proof. unfold dmatch. apply _. Defined.

(** The name leads to the inode. *)
Definition names (V : Z → memory) (x : inode) (name : list Z) (inum : Z) : Prop :=
  ∃ j, 0 ≤ j < nents x ∧ dmatch name (dent V x j) ∧ (∀ i, 0 ≤ i < j → ¬ dmatch name (dent V x i)) ∧
    de_inum (dent V x j) = inum.

Lemma dent_length V x k : length (dent V x k) = 16%nat.
Proof. unfold dent. by rewrite length_fmap, length_seqZ. Qed.

Lemma cstrncmp_some n name de : is_Some (cstrncpy n name) → (n ≤ length de)%nat → is_Some (cstrncmp n de name).
Proof.
  revert name de. induction n as [|n IH]; intros name de Hn Hl; [done|].
  destruct name as [|c name]; [by destruct Hn|]. destruct de as [|d de]; [simpl in Hl; lia|]. cbn [cstrncmp cstrncpy] in *.
  destruct (nz (s8 d) && (s8 d =? s8 c)) eqn:E; [|done].
  apply andb_true_iff in E as [E1 E2%Z.eqb_eq]. rewrite <- E2, E1 in Hn. apply IH; [|simpl in Hl; lia].
  by destruct (cstrncpy n name); [|destruct Hn].
Qed.

(** The copy of a name is equal to it. *)
Lemma cstrncmp_copy n name nm : cstrncpy n name = Some nm → cstrncmp n nm name = Some 0.
Proof.
  revert name nm. induction n as [|n IH]; intros name nm E; [done|]. destruct name as [|c name]; [done|].
  cbn [cstrncpy] in E. destruct (nz (s8 c)) eqn:Ec.
  - destruct (cstrncpy n name) as [l|] eqn:E1; [|done]. injection E as <-. cbn [cstrncmp]. rewrite Ec, Z.eqb_refl. by apply IH.
  - injection E as <-. cbn [cstrncmp]. rewrite Ec. simpl. f_equal. lia.
Qed.

Lemma cstrncpy_length n name nm : cstrncpy n name = Some nm → length nm = n.
Proof.
  revert name nm. induction n as [|n IH]; intros name nm E; [by injection E as <-|]. destruct name as [|c name]; [done|].
  cbn [cstrncpy] in E. destruct (nz (s8 c)).
  - destruct (cstrncpy n name) as [l|] eqn:E1; [|done]. injection E as <-. simpl. f_equal. by eapply IH.
  - injection E as <-. simpl. by rewrite repeat_length.
Qed.

Lemma cstrncpy_bytes n name nm : cstrncpy n name = Some nm → Forall (λ c, 0 ≤ c < 256) name → Forall (λ c, 0 ≤ c < 256) nm.
Proof.
  revert name nm. induction n as [|n IH]; intros name nm E Hb; [by injection E as <-|]. destruct name as [|c name]; [done|].
  apply Forall_cons in Hb as [Hc Hb]. cbn [cstrncpy] in E. destruct (nz (s8 c)).
  - destruct (cstrncpy n name) as [l|] eqn:E1; [|done]. injection E as <-. constructor; [done|]. by eapply IH.
  - injection E as <-. constructor; [done|]. apply Forall_forall. intros y Hy%list_elem_of_In%repeat_spec. lia.
Qed.

Lemma overlay_full l a : length a = length l → overlay l a = l.
Proof. intros E. unfold overlay. rewrite <- E, drop_all. apply app_nil_r. Qed.

(** The entry that [dir_link] makes. *)
Definition new_dent (nm : list Z) (inum : Z) : list Z := u8 inum :: u8 (inum / 256) :: nm.

Lemma new_dent_eq nm inum de : length nm = 14%nat → length de = 16%nat →
  set_de_name nm (set_de_inum inum de) = new_dent nm inum.
Proof.
  intros Hn Hd. unfold set_de_name, set_de_inum, new_dent. simpl. rewrite overlay_full; [done|].
  rewrite ?drop_0, length_drop, Hd, Hn. done.
Qed.

Lemma new_dent_inum nm inum : 0 ≤ inum < 65536 → de_inum (new_dent nm inum) = inum.
Proof. intros Hi. unfold de_inum, new_dent, u8. simpl. divlia. Qed.

Section dir.
Context `{KEnv, Stack} (B : txid) (g : geom) (dp : Z).
Hypothesis Hmagic : ks_magic = KSTACK_MAGIC.
Hypothesis Hdp : 1 ≤ dp ≤ NINODE.
Hypothesis Hg : geom_ok g.

(** ** Looking up a name *)

Lemma nents_size x : dir_inode x → 0 ≤ i_size x → i_size x = 16 * nents x ∧ 0 ≤ nents x.
Proof. unfold dir_inode, nents, DIRENT_SIZE. intros [_ Hm] Hs. divlia. Qed.

(** Reading an entry. *)
Lemma read_dent s0 s V L x k :
  fx B s0 g dp s V L [] x → ifile g V x → dir_inode x → Z.of_nat (size L) < NBUF → 0 ≤ k < nents x →
  runs (inode_read dp (16 * k) DIRENT_SIZE) s (λ r s', r = (16, dent V x k) ∧ fx B s0 g dp s' V L [] x).
Proof.
  intros Hf Hif Hdir Hsz Hk. pose proof Hif as [Ho Hs _ _ _ Hty]. pose proof Hs as [Hsize _].
  change (MAXFILE * BSIZE) with 71680 in Hsize. destruct (nents_size x Hdir ltac:(lia)) as [En _].
  eapply runs_mono; [apply (inode_read_runs B s0 g dp Hmagic Hdp Hg s V L x (16 * k) DIRENT_SIZE Hf Ho Hs Hty Hsz);
    unfold DIRENT_SIZE, W32; lia|].
  intros r s' [-> Hf']. split; [|done]. unfold dent, DIRENT_SIZE. by rewrite Z.min_l by lia.
Qed.

Lemma lookup_loop name poff s0 V L x P :
  ifile g V x → dir_inode x → Z.of_nat (size L) < NBUF → is_Some (cstrncpy (Z.to_nat DIRSIZ) name) →
  (∀ s, fx B s0 g dp s V L [] x → (∀ j, 0 ≤ j < nents x → ¬ dmatch name (dent V x j)) → P (0, poff) s) →
  (∀ s j, fx B s0 g dp s V L [] x → 0 ≤ j < nents x → dmatch name (dent V x j) →
    (∀ i, 0 ≤ i < j → ¬ dmatch name (dent V x i)) →
    runs (inode_get 1 (de_inum (dent V x j))) s (λ ip s', P (ip, 16 * j) s')) →
  ∀ fuel k de s, 0 ≤ k ≤ nents x → nents x - k < Z.of_nat fuel → length de = 16%nat → fx B s0 g dp s V L [] x →
  (∀ j, 0 ≤ j < k → ¬ dmatch name (dent V x j)) →
  runs (loop fuel (λ '(off, de),
    let! size := iget dp i_size in
    if off <? size then
      let! rd := inode_read dp off DIRENT_SIZE in
      let de := overlay rd.2 de in
      when (negb (u32 rd.1 =? DIRENT_SIZE)) KERN_PANIC ;;;
      if de_inum de =? 0 then ret (inl (u32 (off + DIRENT_SIZE), de))
      else
        let! c := dir_namecmp (de_name de) name in
        if c =? 0 then
          let! dev := iget dp i_dev in
          let! ip := inode_get dev (de_inum de) in
          ret (inr (ip, off))
        else ret (inl (u32 (off + DIRENT_SIZE), de))
    else ret (inr (0, poff))) (16 * k, de)) s P.
Proof.
  intros Hif Hdir Hsz Hnm Hnone Hsome. pose proof Hif as [Ho [Hsize _] _ _ _ _]. change (MAXFILE * BSIZE) with 71680 in Hsize.
  destruct (nents_size x Hdir ltac:(lia)) as [En Hn0].
  match goal with |- context [loop _ ?f _] => set (body := f) end.
  induction fuel as [|fuel IH]; intros k de s Hk Hfuel Hlen Hf Hprev; [lia|]. apply loop_S. unfold body at 1.
  eapply runs_bind_eq; [by apply (fx_iget _ _ _ _ Hdp _ _ _ _ _ i_size Hf)|].
  destruct (Z.ltb_spec (16 * k) (i_size x)) as [Hlt|Hge].
  2:{ apply runs_ret, Hnone; [done|]. intros j Hj. apply Hprev. lia. }
  eapply runs_bind_mono; [apply (read_dent s0 s V L x k Hf Hif Hdir Hsz); lia|]. intros r s1 [-> Hf1]. simpl fst. simpl snd.
  pose proof (dent_length V x k) as Hdl. rewrite overlay_full by (by rewrite Hdl). eapply runs_bind_eq; [reflexivity|].
  assert (∀ s2, fx B s0 g dp s2 V L [] x → ¬ dmatch name (dent V x k) →
    runs (loop fuel body (u32 (16 * k + DIRENT_SIZE), dent V x k)) s2 P) as Hnext.
  { intros s2 Hf2 Hno. unfold DIRENT_SIZE at 1. rewrite u32_small by (unfold W32; lia).
    replace (16 * k + 16) with (16 * (k + 1)) by lia. apply IH; [lia|lia|done|done|].
    intros j Hj. destruct (decide (j = k)) as [->|]; [done|]. apply Hprev. lia. }
  destruct (Z.eqb_spec (de_inum (dent V x k)) 0) as [E0|E0].
  { apply runs_ret. apply Hnext; [done|]. by intros [? _]. }
  destruct (cstrncmp_some (Z.to_nat DIRSIZ) name (de_name (dent V x k)) Hnm) as [c Ec].
  { unfold de_name. rewrite length_drop, Hdl. change (Z.to_nat DIRSIZ) with 14%nat. lia. }
  eapply runs_bind_eq; [unfold dir_namecmp; rewrite Ec; reflexivity|]. destruct (Z.eqb_spec c 0) as [->|Hc].
  - eapply runs_bind_eq; [by apply (fx_iget _ _ _ _ Hdp _ _ _ _ _ i_dev Hf1)|]. rewrite (fo_dev _ _ _ Ho).
    eapply runs_bind_mono; [apply (Hsome s1 k Hf1); [lia|by split|done]|]. intros ip s2 HP. by apply runs_ret.
  - apply runs_ret. apply Hnext; [done|]. intros [_ E]. congruence.
Qed.

(** Either the first entry with the name is taken, or there is none. *)
Lemma dir_lookup_runs s0 s V L x name poff P :
  fx B s0 g dp s V L [] x → ifile g V x → dir_inode x → Z.of_nat (size L) < NBUF → is_Some (cstrncpy (Z.to_nat DIRSIZ) name) →
  (∀ s, fx B s0 g dp s V L [] x → (∀ j, 0 ≤ j < nents x → ¬ dmatch name (dent V x j)) → P (0, poff) s) →
  (∀ s j, fx B s0 g dp s V L [] x → 0 ≤ j < nents x → dmatch name (dent V x j) →
    (∀ i, 0 ≤ i < j → ¬ dmatch name (dent V x i)) →
    runs (inode_get 1 (de_inum (dent V x j))) s (λ ip s', P (ip, 16 * j) s')) →
  runs (dir_lookup dp name poff) s P.
Proof.
  intros Hf Hif Hdir Hsz Hnm Hnone Hsome. unfold dir_lookup.
  eapply runs_bind_eq; [apply (fx_iget _ _ _ _ Hdp _ _ _ _ _ id Hf)|]. unfold id. rewrite (proj1 Hdir).
  eapply runs_bind_eq; [reflexivity|]. pose proof Hif as [_ [Hsize _] _ _ _ _].
  destruct (nents_size x Hdir ltac:(lia)) as [En Hn0].
  apply (lookup_loop name poff s0 V L x P Hif Hdir Hsz Hnm Hnone Hsome _ 0); [lia| |by unfold junk; rewrite length_fmap, length_seqZ|done|lia].
  unfold dir_fuel. fold (nents x). lia.
Qed.

(** ** Adding a name *)

(** The first entry that is not in use, or the end. *)
Lemma free_loop s0 V L x :
  ifile g V x → dir_inode x → Z.of_nat (size L) < NBUF →
  ∀ fuel k de s, 0 ≤ k ≤ nents x → nents x - k < Z.of_nat fuel → length de = 16%nat → fx B s0 g dp s V L [] x →
  runs (loop fuel (λ '(off, de),
      let! size := iget dp i_size in
      if off <? size then
        let! rd := inode_read dp off DIRENT_SIZE in
        let de := overlay rd.2 de in
        when (negb (u32 rd.1 =? DIRENT_SIZE)) KERN_PANIC ;;;
        if de_inum de =? 0 then ret (inr (off, de))
        else ret (inl (u32 (off + DIRENT_SIZE), de))
      else ret (inr (off, de))) (16 * k, de)) s
    (λ r s', ∃ j, r.1 = 16 * j ∧ length r.2 = 16%nat ∧ 0 ≤ j ≤ nents x ∧ (j < nents x → de_inum (dent V x j) = 0) ∧
      fx B s0 g dp s' V L [] x).
Proof.
  intros Hif Hdir Hsz. pose proof Hif as [Ho [Hsize _] _ _ _ _]. change (MAXFILE * BSIZE) with 71680 in Hsize.
  destruct (nents_size x Hdir ltac:(lia)) as [En Hn0].
  match goal with |- context [loop _ ?f _] => set (body := f) end.
  induction fuel as [|fuel IH]; intros k de s Hk Hfuel Hlen Hf; [lia|]. apply loop_S. unfold body at 1.
  eapply runs_bind_eq; [by apply (fx_iget _ _ _ _ Hdp _ _ _ _ _ i_size Hf)|].
  destruct (Z.ltb_spec (16 * k) (i_size x)) as [Hlt|Hge].
  2:{ apply runs_ret. exists k. split; [done|]. split; [done|]. split; [done|]. split; [lia|done]. }
  eapply runs_bind_mono; [apply (read_dent s0 s V L x k Hf Hif Hdir Hsz); lia|]. intros r s1 [-> Hf1]. simpl fst. simpl snd.
  pose proof (dent_length V x k) as Hdl. rewrite overlay_full by (by rewrite Hdl). eapply runs_bind_eq; [reflexivity|].
  destruct (Z.eqb_spec (de_inum (dent V x k)) 0) as [E0|E0]; apply runs_ret.
  - by exists k.
  - unfold DIRENT_SIZE at 1. rewrite u32_small by (unfold W32; lia). replace (16 * k + 16) with (16 * (k + 1)) by lia.
    apply IH; [lia|lia|done|done].
Qed.

(** The contents of the directory after the entry [k] was written. *)
Record linked (V : Z → memory) (x : inode) (name : list Z) (inum : Z) (V' : Z → memory) (x' : inode) : Prop := {
  ld_names : names V' x' name inum;
  ld_other : ∀ name' inum', (∀ nm, cstrncpy (Z.to_nat DIRSIZ) name = Some nm → ¬ dmatch name' (new_dent nm inum)) →
    names V' x' name' inum' ↔ names V x name' inum';
}.

(** The entries after the entry [k] was written. *)
Lemma link_dents V x name nm inum V' x' k :
  cstrncpy (Z.to_nat DIRSIZ) name = Some nm → Forall (λ c, 0 ≤ c < 256) name → ifile g V x → dir_inode x →
  0 ≤ k ≤ nents x → 16 * k + 16 ≤ MAXFILE * BSIZE →
  written g V x V' x' (Z.max (i_size x) (16 * k + 16)) (put_range (16 * k) 16 (new_dent nm inum) (fbyte V x)) →
  nents x' = Z.max (nents x) (k + 1) ∧
  ∀ j, 0 ≤ j < nents x' → dent V' x' j = if decide (j = k) then new_dent nm inum else dent V x j.
Proof.
  intros Enm Hby Hif Hdir Hk Hmax Hw. pose proof Hif as [_ [Hsize _] _ _ _ _].
  change (MAXFILE * BSIZE) with 71680 in *. destruct (nents_size x Hdir ltac:(lia)) as [En Hn0].
  assert (length (new_dent nm inum) = 16%nat) as Hnl by (simpl; by rewrite (cstrncpy_length _ _ _ Enm)).
  assert (Forall (λ c, 0 ≤ c < 256) (new_dent nm inum)) as Hall.
  { unfold new_dent, u8. constructor; [divlia|]. constructor; [divlia|]. by eapply cstrncpy_bytes. }
  destruct (wn_inode _ _ _ _ _ _ _ Hw) as [a Ex]. assert (nents x' = Z.max (nents x) (k + 1)) as En'.
  { unfold nents. rewrite Ex. simpl. fold (nents x). unfold DIRENT_SIZE. divlia. }
  split; [done|]. intros j Hj. apply list_eq. intros i. destruct (decide (i < 16)%nat) as [Hi|Hi].
  2:{ rewrite lookup_ge_None_2 by (rewrite dent_length; lia). symmetry. apply lookup_ge_None_2.
      case_decide; [|rewrite dent_length]; lia. }
  unfold dent at 1. rewrite list_lookup_fmap, lookup_seqZ_lt by (unfold DIRENT_SIZE; lia). simpl. unfold DIRENT_SIZE at 1.
  rewrite (wn_bytes _ _ _ _ _ _ _ Hw) by (change (MAXFILE * BSIZE) with 71680; lia). unfold put_range.
  destruct (decide (j = k)) as [Ej|Ej].
  - subst j. rewrite decide_True by lia. replace (Z.to_nat (16 * k + Z.of_nat i - 16 * k)) with i by lia.
    destruct (lookup_lt_is_Some_2 (new_dent nm inum) i) as [c Ec]; [lia|].
    rewrite Ec, (list_lookup_total_correct _ _ _ Ec). f_equal. unfold u8. apply Z.mod_small.
    by apply (Forall_lookup_1 _ _ _ _ Hall Ec).
  - rewrite decide_False by lia. unfold dent. rewrite list_lookup_fmap, lookup_seqZ_lt by (unfold DIRENT_SIZE; lia). done.
Qed.

Lemma linked_intro V x name nm inum V' x' k :
  cstrncpy (Z.to_nat DIRSIZ) name = Some nm → name_ok name → 0 < inum < 65536 → ifile g V x → dir_inode x →
  (∀ j, 0 ≤ j < nents x → ¬ dmatch name (dent V x j)) →
  0 ≤ k ≤ nents x → (k < nents x → de_inum (dent V x k) = 0) → 16 * k + 16 ≤ MAXFILE * BSIZE →
  written g V x V' x' (Z.max (i_size x) (16 * k + 16)) (put_range (16 * k) 16 (new_dent nm inum) (fbyte V x)) →
  linked V x name inum V' x'.
Proof.
  intros Enm [_ Hby] Hin Hif Hdir Hno Hk Hfree Hmax Hw.
  destruct (link_dents _ _ _ _ _ _ _ _ Enm Hby Hif Hdir Hk Hmax Hw) as [En' Ed].
  pose proof (new_dent_inum nm inum ltac:(lia)) as Ei. constructor.
  - exists k. split; [lia|]. rewrite Ed, decide_True by lia.
    split; [split; [lia|change (de_name (new_dent nm inum)) with nm; by apply cstrncmp_copy]|]. split; [|done].
    intros i Hi. rewrite Ed, decide_False by lia. apply Hno. lia.
  - intros name' inum' Hnm. specialize (Hnm nm Enm). split; intros (j & Hj & Hm & Hp & E).
    + rewrite Ed in Hm, E by lia. case_decide as Ej; [done|]. exists j. split; [lia|]. split; [done|]. split; [|done].
      intros i Hi. specialize (Hp i Hi). rewrite Ed in Hp by lia. case_decide as Eik; [|done]. subst i.
      intros [Hz _]. apply Hz, Hfree. lia.
    + exists j. assert (j ≠ k) as Hjk by (intros ->; destruct Hm as [Hz _]; apply Hz, Hfree; lia).
      rewrite Ed, decide_False by lia. split; [lia|]. split; [done|]. split; [|done].
      intros i Hi. rewrite Ed by lia. case_decide; [done|by apply Hp].
Qed.

Hypothesis Hopen : B ≠ None.
Hypothesis Hsingle : g_size g ≤ BPB.

Lemma dir_link_runs s0 s V L x S name inum :
  fx B s0 g dp s V L [] x → disk_ok g V → ifile g V x → dir_inode x → name_ok name → 0 < inum < 65536 →
  (∀ j, 0 ≤ j < nents x → ¬ dmatch name (dent V x j)) → i_size x + 16 ≤ MAXFILE * BSIZE →
  L ⊆ budget g S x → (size S ≤ 5)%nat → 1 ≤ pot g V x →
  runs (dir_link dp name inum) s (λ r s', r = 0 ∧ ∃ V' L' x' z f, fx B s0 g dp s' V' L' [] x' ∧ (size L' ≤ 9)%nat ∧
    dir_inode x' ∧ written g V x V' x' z f ∧ linked V x name inum V' x').
Proof.
  intros Hf Hd Hif Hdir Hnm Hin Hno Hmax HL HS Hp. pose proof Hif as [_ [Hsize _] _ _ _ _]. pose proof Hmax as Hm.
  change (MAXFILE * BSIZE) with 71680 in Hsize, Hm. destruct (nents_size x Hdir ltac:(lia)) as [En Hn0].
  pose proof (budget_size g S x). assert (size L ≤ 7)%nat as HszL by (eapply sub_size; [exact HL|lia]).
  assert (Z.of_nat (size L) < NBUF) as Hsz by (unfold NBUF; lia). unfold dir_link.
  eapply (runs_bind_mono _ _ _ (λ r s', r = (0, 0) ∧ fx B s0 g dp s' V L [] x)).
  { apply (dir_lookup_runs s0 s V L x name 0 _ Hf Hif Hdir Hsz (proj1 Hnm)); [done|]. intros s1 j _ Hj Hdm. by destruct (Hno j Hj). }
  intros r s1 [-> Hf1]. change (negb ((0, 0).1 =? 0)) with false. cbv iota.
  eapply runs_bind_eq; [by apply (fx_iget _ _ _ _ Hdp _ _ _ _ _ i_size Hf1)|].
  eapply runs_bind_mono.
  { apply (free_loop s0 V L x Hif Hdir Hsz _ 0 (junk DIRENT_SIZE) s1); [lia| |by unfold junk; rewrite length_fmap, length_seqZ|done].
    unfold dir_fuel. fold (nents x). lia. }
  intros [off de] s2 (k & Ek & Hlen & Hk & Hfree & Hf2). simpl in Ek, Hlen. subst off.
  destruct (proj1 Hnm) as [nm Enm]. eapply runs_bind_eq; [rewrite Enm; reflexivity|]. cbv beta.
  rewrite new_dent_eq by (done || by rewrite (cstrncpy_length _ _ _ Enm)).
  assert (nblocks (16 * k) DIRENT_SIZE = 1) as Hnb by (unfold nblocks, DIRENT_SIZE, BSIZE; simpl; divlia).
  eapply runs_bind_mono.
  { apply (inode_write_runs B s0 g dp Hmagic Hdp Hg Hopen Hsingle s2 V L x S (new_dent nm inum) (16 * k) DIRENT_SIZE Hf2 Hd Hif);
      rewrite ?Hnb; try done; [lia|change (MAXFILE * BSIZE) with 71680; unfold DIRENT_SIZE; lia| |lia].
    simpl. rewrite (cstrncpy_length _ _ _ Enm). done. }
  intros w s3 [-> (V' & L' & x' & Hf3 & HL' & _ & Hw)]. eapply runs_bind_eq; [reflexivity|]. apply runs_ret. split; [done|].
  exists V', L', x'. do 2 eexists. split; [done|]. split; [done|]. change DIRENT_SIZE with 16 in Hw. split; [|split; [exact Hw|]].
  - destruct (wn_inode _ _ _ _ _ _ _ Hw) as [a ->]. split; [apply Hdir|]. simpl. unfold DIRENT_SIZE. divlia.
  - by apply (linked_intro V x name nm inum V' x' k); [..|lia|].
Qed.

(** C10: in a transaction with room, [dir_link] of a name that the directory does not have
    returns 0; the name then leads to the inode, every other name leads where it did, no other
    file changes, and [dir_lookup] of the name returns the entry of the inode cache for that
    inode. *)
Theorem dir_link_lookup s V L x S name inum poff :
  cachedi B g dp s V L x → disk_ok g V → ifile g V x → dir_inode x → name_ok name → 0 < inum < 65536 →
  (∀ j, 0 ≤ j < nents x → ¬ dmatch name (dent V x j)) → i_size x + 16 ≤ MAXFILE * BSIZE →
  L ⊆ budget g S x → (size S ≤ 5)%nat → 1 ≤ pot g V x →
  unique_cache s → (∃ i, cached s 1 inum i) ∨ (∃ i, 0 ≤ i < NINODE ∧ i_ref (slot s i) = 0) →
  runs (let! r := dir_link dp name inum in
        let! q := dir_lookup dp name poff in
        ret (r, q.1)) s
    (λ r s', r.1 = 0 ∧ cached s' 1 inum (r.2 - 1) ∧
      ∃ V' L' x' z f, tx B (f_lg s') (g_st g) V' L' [] ∧ written g V x V' x' z f ∧ linked V x name inum V' x').
Proof.
  intros Hc Hd Hif Hdir Hnm Hin Hno Hmax HL HS Hp Hu Hav. pose proof (cachedi_fx _ _ _ _ _ _ _ Hc) as Hf.
  pose proof Hc as [_ Hs Hl].
  eapply runs_bind_mono; [by apply (dir_link_runs s s V L x S name inum)|].
  intros r s1 [-> (V' & L' & x' & z & f & Hf1 & HL' & Hdir' & Hw & Hld)].
  destruct (wn_inode _ _ _ _ _ _ _ Hw) as [a Ex]. pose proof Hld as [(k & Hk & Hkm & Hkp & Hki) _].
  eapply (runs_bind_mono _ _ _ (λ q s', cached s' 1 inum (q.1 - 1) ∧ tx B (f_lg s') (g_st g) V' L' [])).
  2:{ intros q s2 [Hq Ht]. apply runs_ret. split; [done|]. split; [done|]. by exists V', L', x', z, f. }
  apply (dir_lookup_runs s s1 V' L' x' name poff _ Hf1 (wn_file _ _ _ _ _ _ _ Hw) Hdir' ltac:(unfold NBUF; lia) (proj1 Hnm)).
  { intros s2 _ Hnone. by destruct (Hnone k Hk). }
  intros s2 j Hf2 Hj Hjm Hjp. assert (j = k) as ->.
  { destruct (Z.lt_trichotomy j k) as [Hlt|[->|Hlt]]; [|done|]; exfalso; [apply (Hkp j)|apply (Hjp k)]; done || lia. }
  rewrite Hki. pose proof Hf2 as [Ht2 Hs2 (E1 & _ & _ & E4)].
  assert (∀ i, i_ref (slot s2 i) = i_ref (slot s i) ∧ i_dev (slot s2 i) = i_dev (slot s i) ∧ i_inum (slot s2 i) = i_inum (slot s i)) as Hids.
  { intros i. destruct (decide (i = dp - 1)) as [->|Hne]; [by rewrite Hs2, Hs, Ex|by rewrite E4]. }
  eapply runs_mono; [apply (inode_get_runs 1 inum s2 Hmagic); [by rewrite E1| |]|].
  - intros i i' Hi Hi'. destruct (Hids i) as (-> & -> & ->), (Hids i') as (-> & -> & ->). by apply Hu.
  - destruct Hav as [[i (Hi & Hr & Hdv & Hn)]|(i & Hi & Hr)]; [left|right]; exists i; destruct (Hids i) as (R1 & R2 & R3).
    + unfold cached. by rewrite R1, R2, R3.
    + by rewrite R1.
  - intros ip s3 (Elg & _ & Hca & _). simpl. rewrite Elg. by split.
Qed.

End dir.

(** ** An example *)

Definition demo_dir : inode := demo_node 6 T_DIR.
Definition demo_dir_fs (l : lg) : fs := {| f_lg := l; icache_lock := zero_lk; inodes := {[ 0 := demo_dir ]};
  ftable_lock := zero_lk; files := ∅ |}.
#[local] Instance demo_stack : Stack := {| stack_bytes := λ _, 0 |}.

Lemma demo_dir_ifile : ifile demo_geom demo_view demo_dir.
Proof.
  apply demo_empty; [|lia|by right]. constructor; [by vm_compute|by vm_compute|by vm_compute|by vm_compute|by vm_compute|].
  assert (Forall (λ i, load32 (demo_view 2) (384 + 12 + 4 * i) = i_addrs demo_dir !!! i) (seqZ 0 13)) as Hall.
  { apply (bool_decide_unpack _). by vm_compute. }
  intros i Hi. apply (proj1 (Forall_forall _ _) Hall). apply elem_of_seqZ. unfold NDIRECT in Hi. lia.
Qed.

Lemma demo_dir_unique l : unique_cache (demo_dir_fs l).
Proof.
  assert (∀ i, 0 < i_ref (slot (demo_dir_fs l) i) → i = 0) as E.
  { intros i. simpl. destruct (decide (i = 0)) as [->|Hn]; [done|]. by rewrite lookup_total_singleton_ne by done. }
  intros i j _ _ Hi%E Hj%E _ _. congruence.
Qed.

Lemma dir_link_lookup_witness : ∃ l, runs (let! r := @dir_link demo_env demo_stack 1 [97; 98; 0] 5 in
      let! q := @dir_lookup demo_env demo_stack 1 [97; 98; 0] 0 in
      ret (r, q.1)) (demo_dir_fs l) (λ r s', r.1 = 0 ∧ cached s' 1 5 (r.2 - 1)).
Proof.
  destruct demo_files_boot as [l0 Hl0].
  destruct (proj1 (runs_eq _ _ _) (@tx_begin demo_env eq_refl l0 990 demo_view Hl0)) as (_ & l & _ & Hl).
  exists l. eapply runs_mono.
  - apply (@dir_link_lookup demo_env demo_stack (inside l0) demo_geom 1 eq_refl ltac:(unfold NINODE; lia) demo_geom_ok ltac:(done)
      ltac:(vm_compute; discriminate) (demo_dir_fs l) demo_view ∅ demo_dir ∅ [97; 98; 0] 5 0).
    + constructor; [exact Hl|reflexivity|reflexivity].
    + apply demo_disk_ok.
    + apply demo_dir_ifile.
    + by split.
    + split; [by eexists|]. repeat constructor; lia.
    + lia.
    + change (nents demo_dir) with 0. lia.
    + vm_compute. discriminate.
    + apply empty_subseteq.
    + rewrite size_empty. lia.
    + vm_compute. discriminate.
    + apply demo_dir_unique.
    + right. exists 1. split; [unfold NINODE; lia|]. simpl. by rewrite lookup_total_singleton_ne by lia.
  - intros r s' (H1 & H2 & _). by split.
Defined.
