(* ===== verification/TruncSpec.v ===== *)
(** * Deleting a file

    [inode_trunc] and [inode_put] of kern/fs/inode.c and [file_close] of kern/fs/file.c: when
    the last descriptor of a file without links is closed, its blocks and its inode become
    free in one transaction, and no other file changes. *)

From stdpp Require Import functions.
From S2P Require Import Prelude Spinlock Pmmap MAT Container Mem Vmm Thread UserCopy DList Bufcache BufSpec Log LogSpec Crash Inode InodeSpec Dir File BlockSpec FileSpec FileRW FileOps.

(** ** Blocks that become free *)

(** From [V] to [V'] the blocks in [P] became free; only the bitmap changed. *)
Record freed (g : geom) (V V' : Z → memory) (P : Z → Prop) : Prop := {
  fr_used : ∀ c, 0 ≤ c < g_size g → used g V' c = true ↔ used g V c = true ∧ ¬ P c;
  fr_keep : ∀ y, y ≠ bmz g → V' y = V y;
}.

(** The first [n] blocks of a file. *)
Definition blocks_below (V : Z → memory) (x : inode) (n c : Z) : Prop := ∃ m, 0 ≤ m < n ∧ fblk V x m ≠ 0 ∧ c = fblk V x m.

Lemma freed_ext g V V' P P' : (∀ c, P c ↔ P' c) → freed g V V' P → freed g V V' P'.
Proof. intros E [Hu Hk]. constructor; [|done]. intros c Hc. by rewrite Hu, E. Qed.

Lemma freed_none g V P : (∀ c, ¬ P c) → freed g V V P.
Proof. intros HP. constructor; [|done]. intros c _. naive_solver. Qed.

(** The next block of a file. *)
Lemma blocks_skip V x n c : fblk V x n = 0 → blocks_below V x n c ↔ blocks_below V x (n + 1) c.
Proof.
  intros Hz. split; intros (m & Hm & Hnz & ->); exists m; (split; [|done]); [lia|].
  destruct (decide (m = n)) as [->|]; [done|lia].
Qed.

Lemma freed_next g V V' x n : geom_ok g → g_size g ≤ BPB → file_ok g V x → 0 ≤ n ≤ MAXFILE → fblk V x n ≠ 0 →
  freed g V V' (blocks_below V x n) → freed g V (free_view g V' (fblk V x n)) (blocks_below V x (n + 1)).
Proof.
  intros Hg Hs Hf Hn Hnz [Hu Hk]. destruct (fo_blk g V x Hf n Hn Hnz) as (Hb & _ & _). constructor.
  - intros c Hc. unfold free_view. rewrite used_clear, andb_true_iff, bool_decide_eq_true, Hu by done. split.
    + intros (Hne & Hc1 & HP). split; [done|]. intros (m & Hm & Hmz & ->). destruct (decide (m = n)) as [->|]; [done|].
      apply HP. exists m. split; [lia|done].
    + intros [Hc1 HP]. split; [intros ->; apply HP; exists n; split; [lia|done]|]. split; [done|].
      intros (m & Hm & Hmz & ->). apply HP. exists m. split; [lia|done].
  - intros y Hy. unfold free_view. rewrite (bm_single g Hg Hs) by done. rewrite fn_lookup_insert_ne by done. by apply Hk.
Qed.

(** A block that is not freed yet. *)
Lemma freed_next_used g V V' x n : file_ok g V x → 0 ≤ n ≤ MAXFILE → fblk V x n ≠ 0 →
  freed g V V' (blocks_below V x n) → used g V' (fblk V x n) = true.
Proof.
  intros Hf Hn Hnz [Hu _]. destruct (fo_blk g V x Hf n Hn Hnz) as (Hb & _ & Hus). apply Hu; [done|]. split; [done|].
  intros (m & Hm & Hmz & E). pose proof (fo_inj g V x Hf n m Hn ltac:(lia) Hnz E). lia.
Qed.

Lemma freed_disk_ok g V V' x n : geom_ok g → disk_ok g V → file_ok g V x → 0 ≤ n ≤ MAXFILE + 1 →
  freed g V V' (blocks_below V x n) → disk_ok g V'.
Proof.
  intros Hg [H1 H8 Hm] Hf Hn [Hu Hk]. pose proof (bmz_low g Hg). constructor; [by rewrite Hk by lia|by rewrite Hk by lia|].
  intros b Hb Hr. apply Hu; [done|]. split; [by apply Hm|]. intros (m & Hmn & Hmz & ->).
  by destruct (fo_blk g V x Hf m ltac:(lia) Hmz) as (_ & Hnr & _).
Qed.

Section trunc.
Context `{KEnv} (B : txid) (s0 : fs) (g : geom) (ip : Z).
Hypothesis Hmagic : ks_magic = KSTACK_MAGIC.
Hypothesis Hip : 1 ≤ ip ≤ NINODE.
Hypothesis Hg : geom_ok g.
Hypothesis Hopen : B ≠ None.
Hypothesis Hsingle : g_size g ≤ BPB.

Abbreviation fx := (fx B s0 g ip).

Lemma fx_free s V L K x b :
  fx s V L K x → disk_ok g V → holds_files g V K → 0 ≤ b < g_size g → used g V b = true →
  (size L + length K ≤ 8)%nat →
  runs (zoom (block_free 1 b)) s (λ _ s', fx s' (free_view g V b) (L ∪ {[ bmz g ]}) K x).
Proof.
  intros Hf Hd HK Hb Hu Hsz. rewrite <- (bm_single g Hg Hsingle b Hb). eapply fx_lg; [done| |].
  - apply (block_free_runs B Hmagic Hopen (f_lg s) g V L K b Hg Hd HK Hb Hu); [..|apply (fx_tx _ _ _ _ _ _ _ _ _ Hf)];
      unfold LOGSIZE, NBUF; lia.
  - intros [] l Ht. by eapply fx_set.
Qed.

(** ** [inode_trunc] *)

Section file.
Context (V : Z → memory) (L : gset Z) (x : inode).
Hypothesis Hd : disk_ok g V.
Hypothesis Hf : file_ok g V x.
Hypothesis Hsz : (size (L ∪ {[ bmz g ]}) ≤ 7)%nat.

(** The state after the first [n] blocks were freed: [K] are the buffers held. *)
Definition trunc_at (n : Z) (K : list held) (y : inode) (s : fs) : Prop :=
  ∃ V' L', fx s V' L' K y ∧ L' ⊆ L ∪ {[ bmz g ]} ∧ freed g V V' (blocks_below V x n).

(** One block. *)
Lemma trunc_block n K y s :
  0 ≤ n ≤ MAXFILE → (∀ V', freed g V V' (blocks_below V x n) → holds_files g V' K) → (length K ≤ 1)%nat → trunc_at n K y s →
  runs (when (nz (fblk V x n)) (zoom (block_free 1 (fblk V x n)))) s (λ _, trunc_at (n + 1) K y).
Proof.
  intros Hn HK Hlen (V' & L' & Hfx & HL & Hfr). unfold nz. destruct (Z.eqb_spec (fblk V x n) 0) as [Hz|Hnz].
  - apply runs_ret. exists V', L'. split; [done|]. split; [done|]. eapply freed_ext; [|done]. intros c. by apply blocks_skip.
  - destruct (fo_blk g V x Hf n Hn Hnz) as (Hb & _). eapply runs_mono.
    + apply (fx_free s V' L' K y _ Hfx); [by apply (freed_disk_ok g V V' x n); [..|lia|]|by apply HK|done|by apply (freed_next_used g V V')|].
      pose proof (sub_size _ _ _ HL Hsz). lia.
    + intros [] s' Hs'. exists (free_view g V' (fblk V x n)), (L' ∪ {[ bmz g ]}). split; [done|]. split; [set_solver|].
      by apply freed_next.
Qed.

Lemma fblk_direct n : 0 ≤ n < NDIRECT → fblk V x n = i_addrs x !!! n.
Proof.
  intros Hn. unfold fblk. change MAXFILE with 140. change NDIRECT with 12 in *.
  by rewrite (proj2 (Z.eqb_neq n 140)), (proj2 (Z.ltb_lt n 12)) by lia.
Qed.

Lemma fblk_entry j : 0 ≤ j < NINDIRECT → i_addrs x !!! NDIRECT ≠ 0 →
  fblk V x (NDIRECT + j) = load32 (V (i_addrs x !!! NDIRECT)) (4 * j).
Proof.
  intros Hj Hnz. unfold fblk. change MAXFILE with 140. change NINDIRECT with 128 in *. apply Z.eqb_neq in Hnz. rewrite Hnz.
  change NDIRECT with 12 in *. rewrite (proj2 (Z.eqb_neq _ 140)), (proj2 (Z.ltb_ge _ 12)) by lia. do 2 f_equal. lia.
Qed.

(** The inode with its first [n] addresses cleared. *)
Definition cleared (n : Z) (y : inode) : Prop :=
  ∃ a, y = set_i_addrs a x ∧ ∀ i, 0 ≤ i ≤ NDIRECT → a !!! i = if decide (i < n) then 0 else i_addrs x !!! i.

Lemma trunc_mod n K y s f : trunc_at n K y s → runs (imod ip f) s (λ _, trunc_at n K (f y)).
Proof.
  intros (V' & L' & Hfx & HL & Hfr). eapply runs_mono; [apply (fx_imod B s0 g ip Hip _ _ _ _ _ f Hfx)|].
  intros [] s' Hs'. by exists V', L'.
Qed.

Lemma trunc_iget {A} n K y s (f : inode → A) : trunc_at n K y s → iget ip f s = Ret (f y, s).
Proof. intros (V' & L' & Hfx & _). by apply (fx_iget B s0 g ip Hip _ _ _ _ _ f Hfx). Qed.

Lemma trunc_addr n K y s i : trunc_at n K y s → 0 ≤ i ≤ NDIRECT → addr_get ip i s = Ret (i_addrs y !!! i, s).
Proof. intros (V' & L' & Hfx & _). by apply (fx_addr_get B s0 g ip Hip _ _ _ _ _ i Hfx). Qed.

(** Clearing an address. *)
Lemma trunc_clear n K y s i :
  0 ≤ i ≤ NDIRECT → trunc_at n K y s → runs (addr_set ip i 0) s (λ _, trunc_at n K (set_i_addrs (<[i := 0]> (i_addrs y)) y)).
Proof.
  intros Hi Ht. unfold addr_set. rewrite inb_true_2 by (unfold NDIRECT in *; lia).
  apply (trunc_mod n K y s (λ x, set_i_addrs (<[i := 0]> (i_addrs x)) x) Ht).
Qed.

Lemma cleared_next n y : cleared n y → 0 ≤ n ≤ NDIRECT → cleared (n + 1) (set_i_addrs (<[n := 0]> (i_addrs y)) y).
Proof.
  intros (a & -> & Ha) Hn. exists (<[n := 0]> a). split; [done|]. intros i Hi. rewrite lookup_total_insert_dec, Ha by done.
  case_bool_decide; repeat case_decide; try lia; done.
Qed.

Lemma cleared_skip n y : cleared n y → 0 ≤ n ≤ NDIRECT → i_addrs x !!! n = 0 → cleared (n + 1) y.
Proof.
  intros (a & -> & Ha) Hn Hz. exists a. split; [done|]. intros i Hi. rewrite Ha by done.
  repeat case_decide; try lia; try done. by replace i with n by lia.
Qed.

Lemma cleared_get n y i : cleared n y → n ≤ i ≤ NDIRECT → 0 ≤ n → i_addrs y !!! i = i_addrs x !!! i ∧ i_dev y = 1.
Proof. intros (a & -> & Ha) Hi Hn. split; [|apply Hf]. simpl. rewrite Ha by lia. by rewrite decide_False by lia. Qed.

(** The blocks that the inode names. *)
Lemma trunc_direct s :
  trunc_at 0 [] x s →
  runs (for_ 0 NDIRECT (λ i,
    let! a := addr_get ip i in
    when (nz a)
      (let! dev := iget ip i_dev in
       zoom (block_free dev a) ;;;
       addr_set ip i 0))) s (λ _ s', ∃ y, trunc_at NDIRECT [] y s' ∧ cleared NDIRECT y).
Proof.
  intros Ht. apply (for_runs (λ i s, ∃ y, trunc_at i [] y s ∧ cleared i y)); [done| |].
  { exists x. split; [done|]. exists (i_addrs x). split; [by destruct x|]. intros i Hi. by rewrite decide_False by lia. }
  intros i t Hi (y & Hy & Hcl). destruct (cleared_get i y i Hcl ltac:(lia) ltac:(lia)) as [Ea Edev].
  eapply runs_bind_eq; [apply (trunc_addr i [] y t i Hy); lia|]. rewrite Ea, <- (fblk_direct i Hi).
  assert (0 ≤ i ≤ MAXFILE) as Hmax by (change MAXFILE with 140; unfold NDIRECT in Hi; lia).
  pose proof (trunc_block i [] y t Hmax ltac:(constructor) ltac:(simpl; lia) Hy) as Hb.
  unfold nz in *. destruct (Z.eqb_spec (fblk V x i) 0) as [Hz|Hnz].
  - eapply runs_mono; [exact Hb|]. intros [] t' Ht'. exists y. split; [done|]. apply cleared_skip; [done|lia|by rewrite <- fblk_direct].
  - eapply runs_bind_eq; [apply (trunc_iget i [] y t i_dev Hy)|]. rewrite Edev. eapply runs_bind_mono; [exact Hb|].
    intros [] t' Ht'. eapply runs_mono; [apply (trunc_clear (i + 1) [] y t' i); [lia|done]|].
    intros [] t'' Ht''. eexists. split; [exact Ht''|]. apply cleared_next; [done|lia].
Qed.

(** The blocks that the indirect block names, and that block. *)
Lemma trunc_indirect y s :
  trunc_at NDIRECT [] y s → cleared NDIRECT y → i_addrs x !!! NDIRECT ≠ 0 →
  runs (let! bp := zoom (bufcache_read 1 (i_addrs x !!! NDIRECT)) in
        for_ 0 NINDIRECT (λ j,
          let! d := zoom (bget bp b_data) in
          when (nz (load32 d (4 * j))) (zoom (block_free 1 (load32 d (4 * j))))) ;;;
        zoom (bufcache_release bp) ;;;
        zoom (block_free 1 (i_addrs x !!! NDIRECT)) ;;;
        addr_set ip NDIRECT 0) s (λ _ s', ∃ y, trunc_at (MAXFILE + 1) [] y s' ∧ cleared (NDIRECT + 1) y).
Proof.
  intros (V1 & L1 & Hfx & HL & Hfr) Hcl Hnz. set (a := i_addrs x !!! NDIRECT) in *.
  assert (fblk V x MAXFILE = a) as Ea by done. pose proof (sub_size _ _ _ HL Hsz) as HszL.
  assert (dblk g V a) as Hda by (rewrite <- Ea; apply (fo_blk g V x Hf MAXFILE); [done|by rewrite Ea]).
  assert (a ≠ bmz g) as Hab.
  { destruct (dblk_start g V a Hda) as [Hs _]. pose proof (bmz_start g Hg). lia. }
  eapply runs_bind_mono.
  { apply (fx_read B s0 g ip Hmagic s V1 L1 [] y a Hfx); [by apply (dblk_ok g V)|apply not_elem_of_nil|unfold NBUF; simpl; lia]. }
  intros bp s1 Hf1. set (K := [Held bp a false]) in *.
  eapply runs_bind_mono.
  { apply (for_runs (λ j s, trunc_at (NDIRECT + j) K y s)); [done|rewrite Z.add_0_r; by exists V1, L1|].
    intros j t Hj (V2 & L2 & Hf2 & HL2 & Hfr2). eapply runs_bind_eq; [apply (fx_data B s0 g ip t V2 L2 K y bp a false Hf2); by left|].
    rewrite (fr_keep _ _ _ _ Hfr2) by done. subst a. rewrite <- fblk_entry by done. rewrite Z.add_assoc.
    apply trunc_block; [change MAXFILE with 140; change NINDIRECT with 128 in Hj; unfold NDIRECT; lia| |simpl; lia|by exists V2, L2].
    intros V3 Hfr3. apply Forall_singleton. simpl. split; [apply (dblk_start g V _ Hda)|].
    apply (fr_used _ _ _ _ Hfr3); [apply Hda|]. split; [apply Hda|]. intros (m & Hm & Hmz & E).
    rewrite <- Ea in E. assert (m = MAXFILE) as ->.
    { symmetry. apply (fo_inj g V x Hf); [done|change MAXFILE with 140; change NINDIRECT with 128 in Hj; unfold NDIRECT in Hm; lia|by rewrite Ea|done]. }
    change MAXFILE with 140 in Hm. change NINDIRECT with 128 in Hj. unfold NDIRECT in Hm. lia. }
  intros [] s2 (V2 & L2 & Hf2 & HL2 & Hfr2).
  eapply runs_bind_mono; [apply (fx_release B s0 g ip Hmagic _ _ _ _ _ _ _ Hf2)|]. intros [] s3 Hf3.
  change (NDIRECT + NINDIRECT) with MAXFILE in Hfr2.
  pose proof (trunc_block MAXFILE [] y s3 ltac:(done) ltac:(constructor) ltac:(simpl; lia) ltac:(by exists V2, L2)) as Hb.
  rewrite Ea in Hb. unfold nz in Hb. rewrite (proj2 (Z.eqb_neq _ _) Hnz) in Hb.
  eapply runs_bind_mono; [exact Hb|]. intros [] s4 Hs4.
  eapply runs_mono; [apply (trunc_clear (MAXFILE + 1) [] y s4 NDIRECT); [done|exact Hs4]|]. intros [] s5 Hs5.
  eexists. split; [exact Hs5|]. by apply cleared_next.
Qed.

(** A file without an indirect block has no blocks behind the direct ones. *)
Lemma no_indirect c : i_addrs x !!! NDIRECT = 0 → blocks_below V x NDIRECT c ↔ blocks_below V x (MAXFILE + 1) c.
Proof.
  intros Hz. change MAXFILE with 140. split; intros (m & Hm & Hmz & ->); exists m; (split; [|done]); unfold NDIRECT in Hm |- *; [lia|].
  split; [lia|]. apply Z.nle_gt. intros Hle. apply Hmz. unfold fblk. change MAXFILE with 140. rewrite Hz. change NDIRECT with 12.
  destruct (m =? 140); [done|]. by rewrite (proj2 (Z.ltb_ge m 12)) by lia.
Qed.

(** The file without blocks. *)
Definition empty_inode (y : inode) : Prop :=
  ∃ a, y = set_i_size 0 (set_i_addrs a x) ∧ ∀ i, 0 ≤ i ≤ NDIRECT → a !!! i = 0.

Lemma cleared_empty y : cleared (NDIRECT + 1) y → empty_inode (set_i_size 0 y).
Proof. intros (a & -> & Ha). exists a. split; [done|]. intros i Hi. rewrite Ha by done. by rewrite decide_True by lia. Qed.

Lemma inode_trunc_runs s :
  fx s V L [] x → 0 ≤ i_inum x < g_ninodes g →
  runs (inode_trunc ip) s (λ _ s', ∃ V1 L' y, empty_inode y ∧ freed g V V1 (blocks_below V x (MAXFILE + 1)) ∧
    fx s' (<[IBLOCK (i_inum x) := put_dinode y (dino V1 y)]> V1) L' [] y ∧ L' ⊆ L ∪ {[ bmz g ]} ∪ {[ IBLOCK (i_inum x) ]}).
Proof.
  intros Hfx Hi. unfold inode_trunc. eapply runs_bind_mono.
  { apply trunc_direct. exists V, L. split; [done|]. split; [set_solver|]. apply freed_none. intros c (m & Hm & _). lia. }
  intros [] s1 (y & Hy & Hcl). destruct (cleared_get NDIRECT y NDIRECT Hcl ltac:(done) ltac:(done)) as [Ea Edev].
  eapply runs_bind_eq; [by apply (trunc_addr NDIRECT [] y s1 NDIRECT Hy)|]. rewrite Ea.
  apply (runs_bind_mono _ _ _ (λ _ s', ∃ y, trunc_at (MAXFILE + 1) [] y s' ∧ cleared (NDIRECT + 1) y)).
  { unfold nz. destruct (Z.eqb_spec (i_addrs x !!! NDIRECT) 0) as [Hz|Hnz].
    - apply runs_ret. exists y. split; [|by apply cleared_skip]. destruct Hy as (V' & L' & Hy & HL & Hfr). exists V', L'.
      split; [done|]. split; [done|]. eapply freed_ext; [|done]. intros c. by apply no_indirect.
    - eapply runs_bind_eq; [apply (trunc_iget NDIRECT [] y s1 i_dev Hy)|]. rewrite Edev. by apply (trunc_indirect y s1). }
  intros [] s2 (z & Hz & Hcz%cleared_empty).
  eapply runs_bind_mono; [apply (trunc_mod (MAXFILE + 1) [] z s2 (set_i_size 0) Hz)|].
  intros [] s3 (V1 & L1 & Hf3 & HL & Hfr). pose proof Hcz as (a & Ey & _). pose proof (sub_size _ _ _ HL Hsz).
  eapply runs_mono; [apply (inode_update_runs B s0 g ip Hmagic Hip Hg Hopen s3 V1 L1 _ Hf3); rewrite ?Ey; [apply Hf|done|lia]|].
  intros [] s4 Hf4. exists V1, (L1 ∪ {[ IBLOCK (i_inum x) ]}), (set_i_size 0 z). split; [done|]. split; [done|].
  assert (i_inum (set_i_size 0 z) = i_inum x) as Ei by (by rewrite Ey). rewrite Ei in Hf4. split; [done|set_solver].
Qed.

End file.
End trunc.

(** ** Files that are not deleted *)

(** A file is unhurt when its blocks, its inode and its bytes are as before. *)
Definition unhurt (g : geom) (V V' : Z → memory) (y : inode) : Prop :=
  ifile g V' y ∧ ∀ o, 0 ≤ o < MAXFILE * BSIZE → fbyte V' y o = fbyte V y o.

Lemma unhurt_trans g V V1 V2 y : unhurt g V V1 y → unhurt g V1 V2 y → unhurt g V V2 y.
Proof. intros [_ E1] [H2 E2]. split; [done|]. intros o Ho. by rewrite E2, E1. Qed.

(** Changes that spare the blocks of the file, its inode, and the marks of its blocks. *)
Lemma unhurt_intro g V V' y :
  geom_ok g → ifile g V y → (∀ b, dblk g V b → V' b = V b) →
  (∀ n, 0 ≤ n ≤ MAXFILE → fblk V y n ≠ 0 → used g V' (fblk V y n) = true) → on_disk V' y → unhurt g V V' y.
Proof.
  intros Hg [[Hdev Hblk Hinj] [Hsz Hsol] _ Ht Hin Hty] Hk Hu Hod.
  assert (∀ m, fblk V' y m = fblk V y m) as EB.
  { apply fblk_ext. intros Hnz. apply Hk. by apply (Hblk MAXFILE). }
  split.
  - constructor; try done.
    + constructor; [done| |].
      * intros n Hn. rewrite EB. intros Hnz. destruct (Hblk n Hn Hnz) as (? & ? & _). split; [done|]. split; [done|]. by apply Hu.
      * intros n m Hn Hm. rewrite !EB. by apply Hinj.
    + split; [done|]. intros m Hm Hlt. rewrite EB. by apply Hsol.
  - intros o Ho. apply fbyte_ext; [done|]. intros Hnz. apply Hk, Hblk; [|done]. change (MAXFILE * BSIZE) with 71680 in Ho.
    change MAXFILE with 140. unfold BSIZE. divlia.
Qed.

Lemma unhurt_freed g V V' x y :
  geom_ok g → freed g V V' (blocks_below V x (MAXFILE + 1)) → ifile g V y → apart V x y → unhurt g V V' y.
Proof.
  intros Hg [Hu Hk] Hy Hap. apply unhurt_intro; [done|done| | |].
  - intros b Hb. apply Hk. destruct (dblk_start g V b Hb) as [Hs _]. pose proof (bmz_start g Hg). lia.
  - intros n Hn Hnz. destruct (fo_blk g V y (if_file _ _ _ Hy) n Hn Hnz) as (Hb & _ & Hus). apply Hu; [done|]. split; [done|].
    intros (m & Hm & Hmz & E). by apply (Hap m n ltac:(lia) Hn Hmz).
  - eapply on_disk_ext; [|apply Hy]. intros o _. unfold dino. destruct (iblock_range g _ Hg (if_inum _ _ _ Hy)) as [_ Hib].
    by rewrite Hk by lia.
Qed.

(** Writing the inode of another file. *)
Definition put_inode (x : inode) (V : Z → memory) : Z → memory := <[IBLOCK (i_inum x) := put_dinode x (dino V x)]> V.

Lemma put_inode_used g V x c : geom_ok g → 0 ≤ i_inum x < g_ninodes g → 0 ≤ c < g_size g → used g (put_inode x V) c = used g V c.
Proof.
  intros Hg Hx Hc. destruct (iblock_range g _ Hg Hx) as [_ Hib]. pose proof (bmz_bm g c Hg Hc). unfold used, put_inode.
  by rewrite fn_lookup_insert_ne by lia.
Qed.

Lemma put_inode_disk_ok g V x : geom_ok g → 0 ≤ i_inum x < g_ninodes g → disk_ok g V → disk_ok g (put_inode x V).
Proof.
  intros Hg Hx [H1 H8 Hm]. destruct (iblock_range g _ Hg Hx) as [_ Hib].
  assert (put_inode x V 1 = V 1) as E by (unfold put_inode; by rewrite fn_lookup_insert_ne by lia).
  constructor; rewrite ?E; [done|done|]. intros b Hb Hr. rewrite put_inode_used by done. by apply Hm.
Qed.

Lemma unhurt_put_inode g V x y :
  geom_ok g → 0 ≤ i_inum x < g_ninodes g → ifile g V y → i_inum y ≠ i_inum x → unhurt g V (put_inode x V) y.
Proof.
  intros Hg Hx Hy Hne. destruct (iblock_range g _ Hg Hx) as [_ Hib]. apply unhurt_intro; [done|done| | |].
  - intros b Hb. destruct (dblk_start g V b Hb) as [Hs _]. pose proof (bmz_start g Hg). unfold put_inode.
    by rewrite fn_lookup_insert_ne by lia.
  - intros n Hn Hnz. destruct (fo_blk g V y (if_file _ _ _ Hy) n Hn Hnz) as (Hb & _ & Hus). by rewrite put_inode_used.
  - apply (on_disk_other g); [done|done|apply Hy|congruence|apply Hy].
Qed.

(** From [V] to [V'] the file [x] was deleted: its blocks are free, its inode is free on the
    disk, and all other files are as before. *)
Record deleted (g : geom) (V : Z → memory) (x : inode) (V' : Z → memory) : Prop := {
  dl_disk : disk_ok g V';
  dl_used : ∀ c, 0 ≤ c < g_size g → used g V' c = true ↔ used g V c = true ∧ ¬ blocks_below V x (MAXFILE + 1) c;
  dl_inode : s16 (load16 (dino V' x) (dip (i_inum x))) = 0;
  dl_other : ∀ y, ifile g V y → apart V x y → i_inum y ≠ i_inum x → unhurt g V V' y;
}.

Lemma deleted_intro g V x V1 y :
  geom_ok g → disk_ok g V → ifile g V x → freed g V V1 (blocks_below V x (MAXFILE + 1)) → empty_inode x y →
  deleted g V x (put_inode (set_i_type 0 y) (put_inode y V1)).
Proof.
  intros Hg Hd Hx Hfr (a & Ey & Ha). pose proof (if_inum _ _ _ Hx) as Hin.
  assert (i_inum y = i_inum x ∧ i_inum (set_i_type 0 y) = i_inum x) as [Ei Ei'] by (by rewrite Ey).
  assert (0 ≤ i_inum y < g_ninodes g) as Hy by (by rewrite Ei). assert (0 ≤ i_inum (set_i_type 0 y) < g_ninodes g) as Hy' by (by rewrite Ei').
  assert (disk_ok g V1) as Hd1 by (apply (freed_disk_ok g V V1 x (MAXFILE + 1)); [done|done|apply Hx|done|done]).
  constructor.
  - by apply put_inode_disk_ok; [..|apply put_inode_disk_ok].
  - intros c Hc. rewrite (put_inode_used g _ (set_i_type 0 y)), (put_inode_used g _ y) by done. by apply (fr_used _ _ _ _ Hfr).
  - pose proof (put_dinode_on_disk (put_inode y V1) (set_i_type 0 y)) as Hod. destruct Hx as [_ _ _ [Hsh Hs Hadr] _ _].
    assert (inode_typed (set_i_type 0 y)) as Hty.
    { rewrite Ey. constructor; simpl; [|done|intros i Hi; by rewrite Ha].
      apply Forall_cons in Hsh as [_ Hsh]. by apply Forall_cons. }
    specialize (Hod Hty). apply od_type in Hod. unfold dino in Hod |- *. rewrite <- Ei'. exact Hod.
  - intros z Hz Hap Hne. pose proof (unhurt_freed g V V1 x z Hg Hfr Hz Hap) as H1.
    assert (unhurt g V1 (put_inode y V1) z) as H2 by (apply unhurt_put_inode; [done|done|apply H1|congruence]).
    eapply unhurt_trans; [exact H1|]. eapply unhurt_trans; [exact H2|].
    apply unhurt_put_inode; [done|done|apply H2|congruence].
Qed.

(** ** [inode_put] *)

Section put.
Context `{KEnv} (g : geom) (ip : Z).
Hypothesis Hmagic : ks_magic = KSTACK_MAGIC.
Hypothesis Hip : 1 ≤ ip ≤ NINODE.
Hypothesis Hg : geom_ok g.
Hypothesis Hsingle : g_size g ≤ BPB.

(** The inode [x] is in the cache, whose lock is held. *)
Record lockedi (B : txid) (s : fs) (V : Z → memory) (L : gset Z) (x : inode) : Prop := {
  lk_tx : tx B (f_lg s) (g_st g) V L [];
  lk_slot : slot s (ip - 1) = x;
  lk_held : icache_lock s = {| lock_holder := ks_cpu_idx; lock := 1 |};
}.

Lemma put_acquire B s V L x :
  cachedi B g ip s V L x → runs icache_acquire s (λ _ s', lockedi B s' V L x ∧ same_cache ip s s').
Proof. intros [Ht Hs Hl]. eapply runs_of_eq; [by apply fzoom_Ret, Spinlock.acquire_free|]. by split. Qed.

Lemma put_release B s V L x :
  lockedi B s V L x → runs icache_release s (λ _ s', cachedi B g ip s' V L x ∧ same_cache ip s s').
Proof. intros [Ht Hs Hl]. eapply runs_of_eq; [apply fzoom_Ret; rewrite Hl; by apply Spinlock.release_run|]. by split. Qed.

Lemma imod_same f s : runs (imod ip f) s (λ _ s', f_lg s' = f_lg s ∧ icache_lock s' = icache_lock s ∧
  slot s' (ip - 1) = f (slot s (ip - 1)) ∧ same_cache ip s s').
Proof.
  eapply runs_of_eq; [by apply imod_run|]. split; [done|]. split; [done|]. split; [simpl; by rewrite lookup_total_insert_eq|].
  split; [done|]. split; [done|]. intros j Hj. simpl. by rewrite lookup_total_insert_ne.
Qed.

Lemma put_mod B s V L x f :
  lockedi B s V L x → runs (imod ip f) s (λ _ s', lockedi B s' V L (f x) ∧ same_cache ip s s').
Proof.
  intros [Ht <- Hl]. eapply runs_mono; [apply imod_same|]. intros [] s' (E1 & E2 & E3 & Hs). split; [|done].
  constructor; [by rewrite E1|done|by rewrite E2].
Qed.

Lemma cached_mod B s V L x f :
  cachedi B g ip s V L x → runs (imod ip f) s (λ _ s', cachedi B g ip s' V L (f x) ∧ same_cache ip s s').
Proof.
  intros [Ht <- Hl]. eapply runs_mono; [apply imod_same|]. intros [] s' (E1 & E2 & E3 & Hs). split; [|done].
  constructor; [by rewrite E1|done|by rewrite E2].
Qed.

(** The end of [inode_put]. *)
Lemma put_drop B s V L x :
  lockedi B s V L x →
  runs (imod ip (λ x, set_i_ref (i_ref x - 1) x) ;;; icache_release) s
    (λ _ s', cachedi B g ip s' V L (set_i_ref (i_ref x - 1) x) ∧ same_cache ip s s').
Proof.
  intros Hl. eapply runs_bind_mono; [apply (put_mod B s V L x (λ x, set_i_ref (i_ref x - 1) x) Hl)|]. intros [] s1 [Hl1 Hs1].
  eapply runs_mono; [apply (put_release _ _ _ _ _ Hl1)|]. intros [] s2 [Hc Hs2]. split; [done|]. by eapply same_cache_trans.
Qed.

(** A reference that is not the last one, or a file with a name. *)
Lemma inode_put_keeps B s V L x :
  cachedi B g ip s V L x → i_ref x ≠ 1 ∨ i_nlink x ≠ 0 ∨ i_flags x = 0 →
  runs (inode_put ip) s (λ _ s', cachedi B g ip s' V L (set_i_ref (i_ref x - 1) x) ∧ same_cache ip s s').
Proof.
  intros Hc Hx. unfold inode_put. eapply runs_bind_mono; [by apply put_acquire|]. intros [] s1 [Hl Hs1].
  eapply runs_bind_eq; [by apply iget_run|]. rewrite (lk_slot _ _ _ _ _ Hl). unfold id.
  assert ((i_ref x =? 1) && nz (Z.land (i_flags x) I_VALID) && (i_nlink x =? 0) = false) as ->.
  { destruct Hx as [E|[E|E]]; [apply Z.eqb_neq in E; by rewrite E|apply Z.eqb_neq in E; rewrite E; apply andb_false_r|].
    rewrite E. by destruct (_ =? 1). }
  eapply runs_bind_eq; [reflexivity|]. eapply runs_mono; [by apply put_drop|]. intros [] s2 [Hc2 Hs2].
  split; [done|]. by eapply same_cache_trans.
Qed.

Lemma deleted_flags v V x V' : deleted g V (set_i_flags v x) V' → deleted g V x V'.
Proof. intros [H1 H2 H3 H4]. by constructor. Qed.

(** The truncation of the inode, its release on the disk, and what follows. *)
Lemma put_delete B s V L x (k : M fs unit) P :
  B ≠ None → cachedi B g ip s V L x → disk_ok g V → ifile g V x → (size (L ∪ {[ bmz g ]}) ≤ 7)%nat →
  (∀ s' V' L' y, cachedi B g ip s' V' L' y → same_cache ip s s' → deleted g V x V' → i_ref y = i_ref x →
    L' ⊆ L ∪ {[ bmz g ]} ∪ {[ IBLOCK (i_inum x) ]} → runs k s' P) →
  runs (inode_trunc ip ;;; imod ip (set_i_type 0) ;;; inode_update ip ;;; k) s P.
Proof.
  intros HB Hc Hd Hx Hsz Hk. pose proof (if_inum _ _ _ Hx) as Hin. eapply runs_bind_mono.
  { by apply (inode_trunc_runs B s g ip Hmagic Hip Hg HB Hsingle V L x Hd (if_file _ _ _ Hx) Hsz s (cachedi_fx _ _ _ _ _ _ _ Hc)). }
  intros [] s1 (V1 & L1 & y & Hey & Hfr & Hf1 & HL1). destruct (fx_cachedi _ _ _ _ _ _ _ _ _ _ _ _ Hc Hf1) as [Hc1 Hs1].
  pose proof Hey as (a & Ey & _). eapply runs_bind_mono; [apply (cached_mod B s1 _ L1 y (set_i_type 0) Hc1)|]. intros [] s2 [Hc2 Hs2].
  assert (size L1 ≤ 8)%nat as HszL.
  { pose proof (size_union_le (L ∪ {[ bmz g ]}) {[ IBLOCK (i_inum x) ]}) as Hu. rewrite size_singleton in Hu. apply (sub_size _ _ _ HL1). lia. }
  eapply runs_bind_mono.
  { apply (inode_update_runs B s2 g ip Hmagic Hip Hg HB s2 _ L1 (set_i_type 0 y) (cachedi_fx _ _ _ _ _ _ _ Hc2));
      rewrite ?Ey; [apply (if_file _ _ _ Hx)|done|done]. }
  intros [] s3 Hf3. destruct (fx_cachedi _ _ _ _ _ _ _ _ _ _ _ _ Hc2 Hf3) as [Hc3 Hs3].
  assert (i_inum (set_i_type 0 y) = i_inum x ∧ i_inum y = i_inum x) as [Ei Ei'] by (by rewrite Ey).
  pose proof (deleted_intro g V x V1 y Hg Hd Hx Hfr Hey) as Hdel. unfold put_inode in Hdel. rewrite Ei' in Hdel.
  eapply Hk; [exact Hc3|eapply same_cache_trans; [done|]; by eapply same_cache_trans|done|by rewrite Ey|rewrite Ei; set_solver].
Qed.

(** The last reference to a file without links. *)
Lemma inode_put_last B s V L x :
  B ≠ None → cachedi B g ip s V L x → disk_ok g V → ifile g V x → (size (L ∪ {[ bmz g ]}) ≤ 7)%nat →
  i_flags x = I_VALID → i_ref x = 1 → i_nlink x = 0 →
  runs (inode_put ip) s (λ _ s', ∃ V' L' y, cachedi B g ip s' V' L' y ∧ same_cache ip s s' ∧ deleted g V x V' ∧
    i_ref y = 0 ∧ i_flags y = 0 ∧ L' ⊆ L ∪ {[ bmz g ]} ∪ {[ IBLOCK (i_inum x) ]}).
Proof.
  intros HB Hc Hd Hx Hsz Hfl Hr Hn. unfold inode_put. eapply runs_bind_mono; [by apply put_acquire|]. intros [] s1 [Hl1 Hs1].
  eapply runs_bind_eq; [by apply iget_run|]. rewrite (lk_slot _ _ _ _ _ Hl1). unfold id. rewrite Hfl, Hr, Hn. simpl andb. cbv iota.
  apply (runs_bind_mono _ _ _ (λ _ s', ∃ V' L' y, lockedi B s' V' L' y ∧ same_cache ip s s' ∧ deleted g V x V' ∧
    i_ref y = 1 ∧ i_flags y = 0 ∧ L' ⊆ L ∪ {[ bmz g ]} ∪ {[ IBLOCK (i_inum x) ]})).
  - eapply runs_bind_eq; [reflexivity|].
    eapply runs_bind_mono; [apply (put_mod B s1 V L x (λ x, set_i_flags (Z.lor (i_flags x) I_BUSY) x) Hl1)|].
    intros [] s2 [Hl2 Hs2]. eapply runs_bind_mono; [apply (put_release _ _ _ _ _ Hl2)|]. intros [] s3 [Hc3 Hs3].
    apply (put_delete B s3 V L _ _ _ HB Hc3 Hd (ifile_flags g V x _ Hx) Hsz). intros s4 V' L' y Hc4 Hs4 Hdel%deleted_flags Hry HL.
    eapply runs_bind_mono; [by apply put_acquire|]. intros [] s5 [Hl5 Hs5].
    eapply runs_mono; [apply (put_mod B s5 V' L' y (set_i_flags 0) Hl5)|]. intros [] s6 [Hl6 Hs6].
    exists V', L', (set_i_flags 0 y). split; [done|]. split; [|split; [done|split; [by etransitivity|done]]].
    do 5 (eapply same_cache_trans; [eassumption|]). done.
  - intros [] s2 (V' & L' & y & Hl2 & Hs2 & Hdel & Hry & Hfy & HL). eapply runs_mono; [apply (put_drop B s2 V' L' y Hl2)|].
    intros [] s3 [Hc3 Hs3]. exists V', L', (set_i_ref (i_ref y - 1) y). split; [done|].
    split; [by eapply same_cache_trans|]. split; [done|]. split; [simpl; lia|]. split; [done|done].
Qed.

(** ** [file_close] *)

(** The descriptor [f] is the only one of the inode and has no other user. *)
Definition sole (f : Z) (s : fs) : Prop :=
  1 ≤ f ≤ NFILE ∧ f_ref (files s !!! (f - 1)) = 1 ∧ f_type (files s !!! (f - 1)) = FD_INODE ∧ f_ip (files s !!! (f - 1)) = ip ∧
  lock (ftable_lock s) = 0.

(** The descriptor [f] is free, the others are as before. *)
Definition closed (f : Z) (s s' : fs) : Prop :=
  f_ref (files s' !!! (f - 1)) = 0 ∧ f_type (files s' !!! (f - 1)) = FD_NONE ∧
  (∀ j, j ≠ f - 1 → files s' !!! j = files s !!! j) ∧ lock (ftable_lock s') = 0.

(** The part of [file_close] on the table of files. *)
Lemma close_table f s V x P :
  cachedi None g ip s V ∅ x → sole f s →
  (∀ s1, cachedi None g ip s1 V ∅ x → f_lg s1 = f_lg s → inodes s1 = inodes s → closed f s s1 →
    runs (zoom begin_trans ;;; inode_put ip ;;; zoom commit_trans) s1 P) →
  runs (file_close f) s P.
Proof.
  intros [Ht Hs Hl] (Hf & Hr & Hty & Hfi & Hlk) Hk. unfold file_close.
  eapply runs_bind_eq; [by apply fzoom_Ret, Spinlock.acquire_free|]. eapply runs_bind_eq; [by apply fget_run|]. simpl. rewrite Hr.
  eapply runs_bind_eq; [reflexivity|]. eapply runs_bind_eq; [by apply fmod_run|]. eapply runs_bind_eq; [by apply fget_run|].
  simpl. rewrite lookup_total_insert_eq. simpl. rewrite Hr. kif. simpl.
  eapply runs_bind_eq; [by apply fget_run|]. eapply runs_bind_eq; [by apply fmod_run|]. eapply runs_bind_eq; [by apply fmod_run|].
  eapply runs_bind_eq; [by apply fzoom_Ret, Spinlock.release_run|]. simpl. rewrite !lookup_total_insert_eq. unfold id. simpl.
  rewrite Hty, Hfi. simpl. apply Hk; [by constructor|done|done|]. split; [simpl; by rewrite lookup_total_insert_eq|].
  split; [simpl; by rewrite lookup_total_insert_eq|]. split; [|done]. intros j Hj. simpl. by rewrite !lookup_total_insert_ne.
Qed.

Lemma closed_same f s s1 s2 : closed f s s1 → same_cache ip s1 s2 → closed f s s2.
Proof. intros (E1 & E2 & E3 & E4) (F1 & F2 & _). unfold closed. by rewrite F1, F2. Qed.

(** C3: closing the last descriptor of a file without links deletes the file, and a crash
    leaves it whole or deletes it whole.  [file_close] returns with the descriptor and the
    entry of the inode cache free; on the disk the blocks of the file are free, its inode is
    free, and all other files are unchanged.  Wherever the disk writes stop, and however often
    the recovery of the next boots is stopped as well, the boot that completes finds the disk
    as it was, or with the file deleted. *)
Theorem file_close_deletes s V x f :
  cachedi None g ip s V ∅ x → i_flags x = I_VALID → i_ref x = 1 → i_nlink x = 0 → disk_ok g V → ifile g V x →
  sole f s → settled (fdisk s) (g_st g) →
  runs (file_close f) s (λ _ s', closed f s s' ∧ i_ref (slot s' (ip - 1)) = 0 ∧ ∃ V', deleted g V x V' ∧
    (∀ b, ¬ in_log (g_st g) b → fdisk s' !!! (1, b) = V' b) ∧
    ∃ ws, d_writes (l_bc (f_lg s')) = d_writes (l_bc (f_lg s)) ++ ws ∧
    ∀ k D t, rtc stopped_boot (apply_writes (take k ws) (fdisk s)) D → disk_boot (l_bc t) → d_disk (l_bc t) = D →
      runs boot t (λ _ t', pins (l_bc t') ∅ [] ∧
        ((∀ b, ¬ in_log (g_st g) b → d_disk (l_bc t') !!! (1, b) = V b) ∨
         (∀ b, ¬ in_log (g_st g) b → d_disk (l_bc t') !!! (1, b) = V' b)))).
Proof.
  intros Hc Hfl Hr Hn Hd Hx Hsole Hset. apply (close_table f s V x _ Hc Hsole). intros s1 Hc1 El Ei Hcl.
  eapply runs_bind_mono; [by apply (begin_cached g ip Hmagic)|]. intros [] s2 [Hc2 Hs2].
  assert (size (∅ ∪ {[ bmz g ]} : gset Z) ≤ 7)%nat as Hsz by (rewrite union_empty_l_L, size_singleton; lia).
  eapply runs_bind_mono; [by apply (inode_put_last (inside (f_lg s1)) s2 V ∅ x)|].
  intros [] s3 (V' & L' & y & Hc3 & Hs3 & Hdel & Hry & _ & HL').
  assert (size L' ≤ 9)%nat as HszL.
  { pose proof (size_union_le (∅ ∪ {[ bmz g ]}) {[ IBLOCK (i_inum x) ]}) as Hu. rewrite size_singleton in Hu.
    apply (sub_size _ _ _ HL'). lia. }
  eapply runs_mono; [by apply (commit_cached g ip Hmagic _ _ s3 V' L' y Hc3)|]. intros [] s4 (Hc4 & Hs4 & Hcr).
  split; [eapply closed_same; [|exact Hs4]; eapply closed_same; [|exact Hs3]; by eapply closed_same|].
  split; [by rewrite (ca_slot _ _ _ _ _ _ _ Hc4)|]. exists V'. split; [done|].
  split; [intros b Hb; by apply (cachedi_disk g ip s4 V' y)|]. rewrite El in Hcr.
  destruct (Hcr Hset) as [_ Hsafe]. destruct (Hsafe (l_bc (f_lg s)) eq_refl eq_refl) as (ws & Ew & _ & Hk). exists ws.
  split; [done|]. intros k D t Hst Hb Ht.
  assert (∀ F W, recovers_to (g_st g) (apply_writes (take k ws) (fdisk s)) F → (∀ b, ¬ in_log (g_st g) b → F !!! (1, b) = W b) →
    runs boot t (λ _ t', pins (l_bc t') ∅ [] ∧ ∀ b, ¬ in_log (g_st g) b → d_disk (l_bc t') !!! (1, b) = W b)) as Hboot.
  { intros F W Hrec HF. eapply runs_mono; [apply (recovers_boot Hmagic (g_st g) D F t); [by eapply (recovers_stopped Hmagic)|done|done]|].
    intros [] t' (_ & Hp & Hsame & _). split; [done|]. intros b Hbl. rewrite Hsame by done. by apply HF. }
  destruct (Hk k) as [Hrec|Hrec].
  - eapply runs_mono; [apply (Hboot _ V Hrec); intros b Hbl; by apply (cachedi_disk g ip s V x)|].
    intros [] t' [Hp HV]. split; [done|by left].
  - eapply runs_mono; [apply (Hboot _ V' Hrec); intros b Hbl; by apply (cachedi_disk g ip s4 V' y)|].
    intros [] t' [Hp HV]. split; [done|by right].
Qed.

End put.

(** A file of three bytes is written and closed. *)
Lemma file_close_deletes_witness : ∃ l, settled (d_disk (l_bc l)) 990 ∧
  runs (@file_write demo_env 1 [104; 105; 33] 3 ;;; @file_close demo_env 1) (demo_files l)
    (λ _ s', i_ref (slot s' 0) = 0 ∧ f_type (files s' !!! 0) = FD_NONE ∧
      ∃ V x V', fbyte V x 1 = 105 ∧ used demo_geom V (fblk V x 0) = true ∧ deleted demo_geom V x V' ∧
        used demo_geom V' (fblk V x 0) = false).
Proof.
  destruct demo_files_settled as (l & Hl & Hset). exists l. split; [done|].
  assert (1 ≤ 1 ≤ NINODE) as Hip by (unfold NINODE; lia).
  assert (g_size demo_geom ≤ BPB) as Hsingle by (vm_compute; discriminate).
  eapply runs_bind_mono.
  { apply (@file_write_runs demo_env demo_geom 1 eq_refl Hip demo_geom_ok Hsingle (demo_files l) demo_view demo_inode 1 0 3 [104; 105; 33]).
    - by apply demo_cached.
    - apply demo_idle.
    - apply demo_disk_ok.
    - apply demo_ifile.
    - apply demo_opened. by left.
    - discriminate.
    - simpl; lia.
    - lia.
    - vm_compute. discriminate.
    - vm_compute. discriminate.
    - vm_compute. discriminate. }
  intros r s [_ (V & x & [Hc Hid Hw (Hm1 & Hm2 & Hm3 & _) _ Hcr])]. destruct (Hcr Hset) as [Hset' _]. destruct (wn_inode _ _ _ _ _ _ _ Hw) as [a Ex].
  pose proof (wn_file _ _ _ _ _ _ _ Hw) as Hif. change (1 - 1) with 0 in Hm1.
  assert (fblk V x 0 ≠ 0) as Hnz by (apply (if_solid _ _ _ Hif); [lia|rewrite Ex; simpl; lia]).
  destruct (fo_blk _ _ _ (if_file _ _ _ Hif) 0 ltac:(done) Hnz) as (Hb & _ & Hu).
  eapply runs_mono.
  - apply (@file_close_deletes demo_env demo_geom 1 eq_refl Hip demo_geom_ok Hsingle s V x 1 Hc).
    + apply Hid.
    + by rewrite Ex.
    + by rewrite Ex.
    + apply Hw.
    + exact Hif.
    + unfold sole. change (1 - 1) with 0. rewrite Hm1, Hm3. repeat split; unfold NFILE; lia.
    + exact Hset'.
  - intros [] s' ((_ & Ht & _) & Hr & V' & Hdel & _). split; [exact Hr|]. split; [exact Ht|]. exists V, x, V'.
    split; [by rewrite (wn_bytes _ _ _ _ _ _ _ Hw) by (change (MAXFILE * BSIZE) with 71680; lia)|]. split; [done|]. split; [done|].
    apply not_true_is_false. intros Hu'. apply (dl_used _ _ _ _ Hdel) in Hu' as [_ Hno]; [|done].
    apply Hno. exists 0. split; [done|]. done.
Defined.
