(* ===== verification/Console.v ===== *)
(** * The console

    kern/dev/serial.c, video.c, keyboard.c and console.c: the serial line, the text
    screen, the keyboard, and the ring buffer of the input with [readline]. *)

From S2P Require Import Prelude Spinlock.

Definition CONSOLE_BUFFER_SIZE : Z := 512.
Definition BUFLEN : Z := 1024.
Definition CRT_COLS : Z := 80.
Definition CRT_SIZE : Z := 25 * 80.

(** The bytes that wait at the serial line and at the keyboard, and the bytes that were
    sent to the serial line; whether the line and the color screen exist; the cells of
    the screen and the cursor registers of its controller; the variables of the files. *)
Record con := {
  com_in : list Z;
  com_out : list Z;
  com_regs : gmap Z Z;
  com_there : bool;
  kbd_in : list Z;
  sys_ctl : Z;                 (* port 0x92 *)
  crt_color : bool;
  crt_regs : gmap Z Z;
  serial_exists : Z;
  kbd_shift : Z;
  addr_6845 : Z;
  crt_buf : gmap Z Z;
  crt_pos : Z;
  cons_lk : spinlock_t;
  cons_buf : gmap Z Z;
  rpos : Z;
  wpos : Z;
  linebuf : gmap Z Z;
}.

Definition set_com_in (v : list Z) (s : con) : con := {| com_in := v; com_out := com_out s;
  com_regs := com_regs s; com_there := com_there s; kbd_in := kbd_in s; sys_ctl := sys_ctl s;
  crt_color := crt_color s; crt_regs := crt_regs s; serial_exists := serial_exists s; kbd_shift := kbd_shift s;
  addr_6845 := addr_6845 s; crt_buf := crt_buf s; crt_pos := crt_pos s; cons_lk := cons_lk s;
  cons_buf := cons_buf s; rpos := rpos s; wpos := wpos s; linebuf := linebuf s |}.
Definition set_com_out (v : list Z) (s : con) : con := {| com_in := com_in s; com_out := v;
  com_regs := com_regs s; com_there := com_there s; kbd_in := kbd_in s; sys_ctl := sys_ctl s;
  crt_color := crt_color s; crt_regs := crt_regs s; serial_exists := serial_exists s; kbd_shift := kbd_shift s;
  addr_6845 := addr_6845 s; crt_buf := crt_buf s; crt_pos := crt_pos s; cons_lk := cons_lk s;
  cons_buf := cons_buf s; rpos := rpos s; wpos := wpos s; linebuf := linebuf s |}.
Definition set_com_regs (v : gmap Z Z) (s : con) : con := {| com_in := com_in s; com_out := com_out s;
  com_regs := v; com_there := com_there s; kbd_in := kbd_in s; sys_ctl := sys_ctl s;
  crt_color := crt_color s; crt_regs := crt_regs s; serial_exists := serial_exists s; kbd_shift := kbd_shift s;
  addr_6845 := addr_6845 s; crt_buf := crt_buf s; crt_pos := crt_pos s; cons_lk := cons_lk s;
  cons_buf := cons_buf s; rpos := rpos s; wpos := wpos s; linebuf := linebuf s |}.
Definition set_kbd_in (v : list Z) (s : con) : con := {| com_in := com_in s; com_out := com_out s;
  com_regs := com_regs s; com_there := com_there s; kbd_in := v; sys_ctl := sys_ctl s;
  crt_color := crt_color s; crt_regs := crt_regs s; serial_exists := serial_exists s; kbd_shift := kbd_shift s;
  addr_6845 := addr_6845 s; crt_buf := crt_buf s; crt_pos := crt_pos s; cons_lk := cons_lk s;
  cons_buf := cons_buf s; rpos := rpos s; wpos := wpos s; linebuf := linebuf s |}.
Definition set_sys_ctl (v : Z) (s : con) : con := {| com_in := com_in s; com_out := com_out s;
  com_regs := com_regs s; com_there := com_there s; kbd_in := kbd_in s; sys_ctl := v;
  crt_color := crt_color s; crt_regs := crt_regs s; serial_exists := serial_exists s; kbd_shift := kbd_shift s;
  addr_6845 := addr_6845 s; crt_buf := crt_buf s; crt_pos := crt_pos s; cons_lk := cons_lk s;
  cons_buf := cons_buf s; rpos := rpos s; wpos := wpos s; linebuf := linebuf s |}.
Definition set_crt_regs (v : gmap Z Z) (s : con) : con := {| com_in := com_in s; com_out := com_out s;
  com_regs := com_regs s; com_there := com_there s; kbd_in := kbd_in s; sys_ctl := sys_ctl s;
  crt_color := crt_color s; crt_regs := v; serial_exists := serial_exists s; kbd_shift := kbd_shift s;
  addr_6845 := addr_6845 s; crt_buf := crt_buf s; crt_pos := crt_pos s; cons_lk := cons_lk s;
  cons_buf := cons_buf s; rpos := rpos s; wpos := wpos s; linebuf := linebuf s |}.
Definition set_serial_exists (v : Z) (s : con) : con := {| com_in := com_in s; com_out := com_out s;
  com_regs := com_regs s; com_there := com_there s; kbd_in := kbd_in s; sys_ctl := sys_ctl s;
  crt_color := crt_color s; crt_regs := crt_regs s; serial_exists := v; kbd_shift := kbd_shift s;
  addr_6845 := addr_6845 s; crt_buf := crt_buf s; crt_pos := crt_pos s; cons_lk := cons_lk s;
  cons_buf := cons_buf s; rpos := rpos s; wpos := wpos s; linebuf := linebuf s |}.
Definition set_kbd_shift (v : Z) (s : con) : con := {| com_in := com_in s; com_out := com_out s;
  com_regs := com_regs s; com_there := com_there s; kbd_in := kbd_in s; sys_ctl := sys_ctl s;
  crt_color := crt_color s; crt_regs := crt_regs s; serial_exists := serial_exists s; kbd_shift := v;
  addr_6845 := addr_6845 s; crt_buf := crt_buf s; crt_pos := crt_pos s; cons_lk := cons_lk s;
  cons_buf := cons_buf s; rpos := rpos s; wpos := wpos s; linebuf := linebuf s |}.
Definition set_addr_6845 (v : Z) (s : con) : con := {| com_in := com_in s; com_out := com_out s;
  com_regs := com_regs s; com_there := com_there s; kbd_in := kbd_in s; sys_ctl := sys_ctl s;
  crt_color := crt_color s; crt_regs := crt_regs s; serial_exists := serial_exists s; kbd_shift := kbd_shift s;
  addr_6845 := v; crt_buf := crt_buf s; crt_pos := crt_pos s; cons_lk := cons_lk s;
  cons_buf := cons_buf s; rpos := rpos s; wpos := wpos s; linebuf := linebuf s |}.
Definition set_crt (b : gmap Z Z) (p : Z) (s : con) : con := {| com_in := com_in s; com_out := com_out s;
  com_regs := com_regs s; com_there := com_there s; kbd_in := kbd_in s; sys_ctl := sys_ctl s;
  crt_color := crt_color s; crt_regs := crt_regs s; serial_exists := serial_exists s; kbd_shift := kbd_shift s;
  addr_6845 := addr_6845 s; crt_buf := b; crt_pos := p; cons_lk := cons_lk s;
  cons_buf := cons_buf s; rpos := rpos s; wpos := wpos s; linebuf := linebuf s |}.
Definition set_cons_lk (v : spinlock_t) (s : con) : con := {| com_in := com_in s; com_out := com_out s;
  com_regs := com_regs s; com_there := com_there s; kbd_in := kbd_in s; sys_ctl := sys_ctl s;
  crt_color := crt_color s; crt_regs := crt_regs s; serial_exists := serial_exists s; kbd_shift := kbd_shift s;
  addr_6845 := addr_6845 s; crt_buf := crt_buf s; crt_pos := crt_pos s; cons_lk := v;
  cons_buf := cons_buf s; rpos := rpos s; wpos := wpos s; linebuf := linebuf s |}.
Definition set_cons (b : gmap Z Z) (r w : Z) (s : con) : con := {| com_in := com_in s; com_out := com_out s;
  com_regs := com_regs s; com_there := com_there s; kbd_in := kbd_in s; sys_ctl := sys_ctl s;
  crt_color := crt_color s; crt_regs := crt_regs s; serial_exists := serial_exists s; kbd_shift := kbd_shift s;
  addr_6845 := addr_6845 s; crt_buf := crt_buf s; crt_pos := crt_pos s; cons_lk := cons_lk s;
  cons_buf := b; rpos := r; wpos := w; linebuf := linebuf s |}.
Definition set_linebuf (v : gmap Z Z) (s : con) : con := {| com_in := com_in s; com_out := com_out s;
  com_regs := com_regs s; com_there := com_there s; kbd_in := kbd_in s; sys_ctl := sys_ctl s;
  crt_color := crt_color s; crt_regs := crt_regs s; serial_exists := serial_exists s; kbd_shift := kbd_shift s;
  addr_6845 := addr_6845 s; crt_buf := crt_buf s; crt_pos := crt_pos s; cons_lk := cons_lk s;
  cons_buf := cons_buf s; rpos := rpos s; wpos := wpos s; linebuf := v |}.

Section ops.
Context `{KEnv}.

(** ** serial.c *)

(** The line status register: the transmitter is ready, and there may be a byte; 0xFF
    without a line. *)
Definition com_status : M con Z :=
  gets (λ s, if com_there s then match com_in s with [] => 32 | _ => 33 end else 255).

(** A byte received, or the last one again. *)
Definition com_rx : M con Z := λ s,
  match com_in s with
  | c :: r => Ret (u8 c, set_com_in r s)
  | [] => Ret (0, s)
  end.

Definition serial_proc_data : M con Z :=
  let! st := com_status in
  if negb (nz (Z.land st 1)) then ret (-1) else com_rx.

Definition com_tx (c : Z) : M con unit := modify (λ s, set_com_out (com_out s ++ [u8 c]) s).

Definition serial_reformatnewline (c : Z) : M con Z :=
  if c =? 10 then com_tx 13 ;;; com_tx 10 ;;; ret 1 else ret 0.

(** Wait for the transmitter, at most 12800 rounds.  The line of the model has it ready
    whenever the status is read. *)
Definition serial_wait : M con unit :=
  loop (Z.to_nat 12801) (λ i,
    let! st := com_status in
    if negb (nz (Z.land st 32)) && (i <? 12800) then ret (inl (i + 1)) else ret (inr tt)) 0.

Definition serial_putc (c : Z) : M con unit :=
  let! e := gets serial_exists in
  if negb (nz e) then ret tt
  else
    serial_wait ;;;
    let! r := serial_reformatnewline c in
    when (negb (nz r)) (com_tx c).

Definition com_out_reg (r v : Z) : M con unit := modify (λ s, set_com_regs (<[r := v]> (com_regs s)) s).

Definition serial_init : M con unit :=
  com_out_reg 1 0 ;;;
  com_out_reg 3 128 ;;;
  com_out_reg 0 1 ;;;
  com_out_reg 1 0 ;;;
  com_out_reg 3 3 ;;;
  com_out_reg 2 199 ;;;
  com_out_reg 4 11 ;;;
  let! st := com_status in
  modify (set_serial_exists (b2z (negb (st =? 255)))) ;;;
  com_rx ;;;
  ret tt.

(** ** video.c *)

Definition CGA_BASE : Z := 980.
Definition MONO_BASE : Z := 948.

Definition crt_out (r v : Z) : M con unit := modify (λ s, set_crt_regs (<[r := u8 v]> (crt_regs s)) s).

(** The test value at the color screen is read back when there is one; the cursor is
    where the controller has it. *)
Definition video_init : M con unit :=
  let! color := gets crt_color in
  modify (set_addr_6845 (if color then CGA_BASE else MONO_BASE)) ;;;
  let! r := gets crt_regs in
  modify (λ s, set_crt (crt_buf s) (u16 (Z.lor (Z.shiftl (r !!! 14) 8) (r !!! 15))) s).

(** A scrolled screen. *)
Definition scrolled (b : gmap Z Z) : gmap Z Z :=
  let up := foldl (λ m i, <[i := b !!! (i + CRT_COLS)]> m) b (seqZ 0 (CRT_SIZE - CRT_COLS)) in
  foldl (λ m i, <[i := 1824]> m) up (seqZ (CRT_SIZE - CRT_COLS) CRT_COLS).

(** The end of [video_putc]. *)
Definition video_finish : M con unit :=
  let! p := gets crt_pos in
  when (p >=? CRT_SIZE) (modify (λ s, set_crt (scrolled (crt_buf s)) (u16 (crt_pos s - CRT_COLS)) s)) ;;;
  let! p := gets crt_pos in
  crt_out 14 (Z.shiftr p 8) ;;;
  crt_out 15 p.

(** [tab] is what a tabulator prints. *)
Definition video_put (tab : M con unit) (c : Z) : M con unit :=
  let c := if Z.land c (Z.lnot 255) =? 0 then Z.lor c 1792 else c in
  let ch := Z.land c 255 in
  (if ch =? 8 then
     let! p := gets crt_pos in
     when (p >? 0)
       (modify (λ s, set_crt (<[p - 1 := u16 (Z.lor (Z.land c (Z.lnot 255)) 32)]> (crt_buf s)) (p - 1) s))
   else if (ch =? 10) || (ch =? 13) then
     when (ch =? 10) (modify (λ s, set_crt (crt_buf s) (u16 (crt_pos s + CRT_COLS)) s)) ;;;
     modify (λ s, set_crt (crt_buf s) (u16 (crt_pos s - crt_pos s mod CRT_COLS)) s)
   else if ch =? 9 then tab
   else modify (λ s, set_crt (<[crt_pos s := u16 c]> (crt_buf s)) (u16 (crt_pos s + 1)) s)) ;;;
  video_finish.

(** A tabulator is five spaces. *)
Definition video_putc (c : Z) : M con unit :=
  let sp := video_put (ret tt) 32 in video_put (sp ;;; sp ;;; sp ;;; sp ;;; sp) c.

Definition video_set_cursor (x y : Z) : M con unit := modify (λ s, set_crt (crt_buf s) (u16 (x * CRT_COLS + y)) s).

Definition video_clear_screen : M con unit :=
  modify (λ s, set_crt (foldl (λ m i, <[i := 32]> m) (crt_buf s) (seqZ 0 CRT_SIZE)) (crt_pos s) s).

(** ** keyboard.c *)

Definition SHIFT : Z := 1.
Definition CTL : Z := 2.
Definition ALT : Z := 4.
Definition CAPSLOCK : Z := 8.
Definition NUMLOCK : Z := 16.
Definition SCROLLLOCK : Z := 32.
Definition E0ESC : Z := 64.
Definition KEY_DEL : Z := 233.

(** An array initialised by its first elements and by designators. *)
Definition table (l : list Z) (d : list (Z * Z)) : gmap Z Z :=
  list_to_map (rev d) ∪ list_to_map (zip (seqZ 0 (Z.of_nat (length l))) l).

Definition shiftcode : gmap Z Z := table [] [(29, CTL); (42, SHIFT); (54, SHIFT); (56, ALT); (157, CTL); (184, ALT)].
Definition togglecode : gmap Z Z := table [] [(58, CAPSLOCK); (69, NUMLOCK); (70, SCROLLLOCK)].

(** [KEY_HOME] to [KEY_DEL] are 0xE0 to 0xE9. *)
Definition keypad : list (Z * Z) :=
  [(199, 224); (156, 10); (181, 47); (200, 226); (201, 230); (203, 228); (205, 229); (207, 225);
   (208, 227); (209, 231); (210, 232); (211, KEY_DEL)].

Definition normalmap : gmap Z Z := table
  [0; 27; 49; 50; 51; 52; 53; 54; 55; 56; 57; 48; 45; 61; 8; 9;
   113; 119; 101; 114; 116; 121; 117; 105; 111; 112; 91; 93; 10; 0; 97; 115;
   100; 102; 103; 104; 106; 107; 108; 59; 39; 96; 0; 92; 122; 120; 99; 118;
   98; 110; 109; 44; 46; 47; 0; 42; 0; 32; 0; 0; 0; 0; 0; 0;
   0; 0; 0; 0; 0; 0; 0; 55; 56; 57; 45; 52; 53; 54; 43; 49;
   50; 51; 48; 46; 0; 0; 0; 0] keypad.
Definition shiftmap : gmap Z Z := table
  [0; 27; 33; 64; 35; 36; 37; 94; 38; 42; 40; 41; 95; 43; 8; 9;
   81; 87; 69; 82; 84; 89; 85; 73; 79; 80; 123; 125; 10; 0; 65; 83;
   68; 70; 71; 72; 74; 75; 76; 58; 34; 126; 0; 124; 90; 88; 67; 86;
   66; 78; 77; 60; 62; 63; 0; 42; 0; 32; 0; 0; 0; 0; 0; 0;
   0; 0; 0; 0; 0; 0; 0; 55; 56; 57; 45; 52; 53; 54; 43; 49;
   50; 51; 48; 46; 0; 0; 0; 0] keypad.
(** [C(x)] is [x - '@'], in an unsigned byte. *)
Definition C (x : Z) : Z := u8 (x - 64).
Definition ctlmap : gmap Z Z := table
  ([0; 0; 0; 0; 0; 0; 0; 0; 0; 0; 0; 0; 0; 0; 0; 0] ++
   [C 81; C 87; C 69; C 82; C 84; C 89; C 85; C 73; C 79; C 80; 0; 0; 13; 0; C 65; C 83;
    C 68; C 70; C 71; C 72; C 74; C 75; C 76; 0; 0; 0; 0; C 92; C 90; C 88; C 67; C 86;
    C 66; C 78; C 77; 0; 0; C 47; 0; 0])
  [(151, 224); (181, C 47); (200, 226); (201, 230); (203, 228); (205, 229); (207, 225);
   (208, 227); (209, 231); (210, 232); (211, KEY_DEL)].

Definition charcode (i : Z) : gmap Z Z := if i =? 0 then normalmap else if i =? 1 then shiftmap else ctlmap.

(** The byte [data] with the modifiers [shift]: the new modifiers and the character, 0 for
    none.  [~(shiftcode[data] | E0ESC)] is a 32-bit mask. *)
Definition kbd_decode (shift data : Z) : Z * Z :=
  if data =? 224 then (Z.lor shift E0ESC, 0)
  else if nz (Z.land data 128) then
    let data := if nz (Z.land shift E0ESC) then data else Z.land data 127 in
    (Z.land shift (u32 (Z.lnot (Z.lor (shiftcode !!! data) E0ESC))), 0)
  else
    let '(data, shift) := (if nz (Z.land shift E0ESC)
      then (Z.lor data 128, Z.land shift (u32 (Z.lnot E0ESC))) else (data, shift)) in
    let shift := Z.lxor (Z.lor shift (shiftcode !!! data)) (togglecode !!! data) in
    let c := charcode (Z.land shift (Z.lor CTL SHIFT)) !!! data in
    (shift, if nz (Z.land shift CAPSLOCK) then
              if (97 <=? c) && (c <=? 122) then c - 32
              else if (65 <=? c) && (c <=? 90) then c + 32 else c
            else c).

Definition kbd_proc_data : M con Z :=
  let! inp := gets kbd_in in
  match inp with
  | [] => ret (-1)
  | d :: r =>
    modify (set_kbd_in r) ;;;
    let! shift := gets kbd_shift in
    let '(shift, c) := kbd_decode shift (u8 d) in
    modify (set_kbd_shift shift) ;;;
    when ((Z.land (u32 (Z.lnot shift)) (Z.lor CTL ALT) =? 0) && (c =? KEY_DEL)) (modify (set_sys_ctl 3)) ;;;
    ret c
  end.

(** ** console.c *)

Definition cons_acquire : M con unit := fzoom cons_lk set_cons_lk Spinlock.spinlock_acquire.
Definition cons_release : M con unit := fzoom cons_lk set_cons_lk Spinlock.spinlock_release.

Definition cons_init : M con unit :=
  modify (set_cons ∅ 0 0) ;;;
  serial_init ;;;
  video_init ;;;
  fzoom cons_lk set_cons_lk Spinlock.spinlock_init.

(** [cons.buf[cons.wpos++] = c], cyclic. *)
Definition cons_put (c : Z) : M con unit :=
  let! w := gets wpos in
  if inb CONSOLE_BUFFER_SIZE w then
    modify (λ s, set_cons (<[w := s8 c]> (cons_buf s)) (rpos s)
      (if w + 1 =? CONSOLE_BUFFER_SIZE then 0 else w + 1) s)
  else fault.

(** Every round takes a waiting byte. *)
Definition cons_intr (proc : M con Z) : M con unit :=
  cons_acquire ;;;
  let! n := gets (λ s, length (com_in s) + length (kbd_in s))%nat in
  loop (S n) (λ _ : unit,
    let! c := proc in
    if c =? -1 then ret (inr tt)
    else if c =? 0 then ret (inl tt)
    else cons_put c ;;; ret (inl tt)) tt ;;;
  cons_release.

Definition serial_intr : M con unit :=
  let! e := gets serial_exists in
  when (nz e) (cons_intr serial_proc_data).

Definition serial_intenable : M con unit :=
  let! e := gets serial_exists in
  when (nz e) (com_out_reg 1 1 ;;; serial_intr).

Definition keyboard_intr : M con unit := cons_intr kbd_proc_data.

Definition cons_getc : M con Z :=
  serial_intr ;;;
  keyboard_intr ;;;
  cons_acquire ;;;
  let! r := gets rpos in
  let! w := gets wpos in
  if negb (r =? w) then
    let! c := aread CONSOLE_BUFFER_SIZE cons_buf r in
    modify (λ s, set_cons (cons_buf s) (if r + 1 =? CONSOLE_BUFFER_SIZE then 0 else r + 1) (wpos s) s) ;;;
    cons_release ;;;
    ret c
  else
    cons_release ;;;
    ret 0.

Definition cons_putc (c : Z) : M con unit := serial_putc c ;;; video_putc c.

(** Without input the loop waits. *)
Definition getchar : M con Z :=
  let! c := cons_getc in
  if c =? 0 then hang else ret c.

Definition putchar (c : Z) : M con unit := cons_putc c.

(** The characters of a line are at most those that wait.  The prompt is printed by
    [dprintf] in a build with [DEBUG_MSG] only, and is not part of the model. *)
Definition readline : M con bool :=
  let! n := gets (λ s, length (com_in s) + length (kbd_in s))%nat in
  loop (n + Z.to_nat CONSOLE_BUFFER_SIZE + 1) (λ i,
    let! c := getchar in
    if c <? 0 then ret (inr false)
    else if ((c =? 8) || (c =? 127)) && (i >? 0) then
      putchar 8 ;;;
      ret (inl (i - 1))
    else if (c >=? 32) && (i <? BUFLEN - 1) then
      putchar c ;;;
      awrite BUFLEN linebuf set_linebuf i c ;;;
      ret (inl (i + 1))
    else if (c =? 10) || (c =? 13) then
      putchar 10 ;;;
      awrite BUFLEN linebuf set_linebuf i 0 ;;;
      ret (inr true)
    else ret (inl i)) 0.

End ops.
