(* ===== verification/ConsoleSpec.v ===== *)
(** * The console, verified

    The cursor stays on the screen, and nothing outside of the screen is written; the
    input buffer is a queue. *)

From S2P Require Import Prelude Spinlock Console.

(** ** The screen *)

Record screen_ok (s : con) : Prop := { so_pos : 0 ≤ crt_pos s < CRT_SIZE }.

(** The cells behind the screen are not touched. *)
Definition off_screen (b b' : gmap Z Z) : Prop := ∀ i, ¬ 0 ≤ i < CRT_SIZE → b' !!! i = b !!! i.

#[global] Instance off_screen_refl : Reflexive off_screen.
Proof. by intros b i. Qed.
#[global] Instance off_screen_trans : Transitive off_screen.
Proof. intros a b c H1 H2 i Hi. by rewrite H2, H1. Qed.

Lemma off_screen_insert b i v : 0 ≤ i < CRT_SIZE → off_screen b (<[i := v]> b).
Proof. intros Hi j Hj. rewrite lookup_total_insert_ne; [done|]. by intros ->. Qed.

Lemma off_screen_foldl (f : Z → Z) l b :
  Forall (λ i, 0 ≤ i < CRT_SIZE) l → off_screen b (foldl (λ m i, <[i := f i]> m) b l).
Proof.
  revert b. induction l as [|i l IH]; intros b Hl; simpl; [done|]. apply Forall_cons in Hl as [Hi Hl].
  etrans; [by apply (off_screen_insert b i (f i))|]. by apply IH.
Qed.

Lemma scrolled_off b : off_screen b (scrolled b).
Proof.
  unfold scrolled. etrans; [apply (off_screen_foldl (λ i, b !!! (i + CRT_COLS)))|apply (off_screen_foldl (λ _, 1824))];
    apply Forall_forall; intros i Hi%elem_of_seqZ; unfold CRT_SIZE, CRT_COLS in *; lia.
Qed.

(** The screen moves up by a line. *)
Lemma foldl_insert_at (f : Z → Z) n m (b : gmap Z Z) i :
  foldl (λ m i, <[i := f i]> m) b (seqZ m n) !!! i = if bool_decide (m ≤ i < m + n) then f i else b !!! i.
Proof.
  destruct (decide (0 ≤ n)) as [Hn|Hn].
  2:{ rewrite seqZ_nil by lia. simpl. by rewrite bool_decide_false by lia. }
  revert b m. pattern n. apply natlike_ind; [|intros k Hk IH|done]; intros b m.
  - rewrite seqZ_nil by lia. simpl. by rewrite bool_decide_false by lia.
  - rewrite seqZ_cons by lia. simpl. replace (Z.pred (Z.succ k)) with k by lia. rewrite IH.
    rewrite lookup_total_insert_dec. repeat case_bool_decide; try lia; congruence.
Qed.

Lemma scrolled_at b i :
  0 ≤ i < CRT_SIZE →
  scrolled b !!! i = if i <? CRT_SIZE - CRT_COLS then b !!! (i + CRT_COLS) else 1824.
Proof.
  intros Hi. unfold scrolled. rewrite (foldl_insert_at (λ _, 1824)).
  rewrite (foldl_insert_at (λ i, b !!! (i + CRT_COLS))). unfold CRT_SIZE, CRT_COLS in *.
  destruct (Z.ltb_spec i (25 * 80 - 80)); repeat case_bool_decide; try lia; done.
Qed.

(** All but the screen is as it was. *)
Record off_line (s s' : con) : Prop := {
  ol_out : com_out s' = com_out s;
  ol_there : com_there s' = com_there s;
  ol_exists : serial_exists s' = serial_exists s;
}.

#[global] Instance off_line_trans : Transitive off_line.
Proof. intros a b c [] []. constructor; congruence. Qed.

(** The screen after some code. *)
Definition screen_post (s s' : con) : Prop := screen_ok s' ∧ off_screen (crt_buf s) (crt_buf s') ∧ off_line s s'.

Lemma finish_screen s b p :
  0 ≤ p ≤ CRT_SIZE + CRT_COLS - 1 →
  runs video_finish (set_crt b p s) (λ _ s', screen_ok s' ∧ off_screen b (crt_buf s') ∧ off_line s s').
Proof.
  intros Hp. unfold video_finish. eapply runs_bind_eq; [reflexivity|]. simpl crt_pos.
  rewrite Z.geb_leb. destruct (Z.leb_spec CRT_SIZE p); simpl when.
  - eapply runs_bind_eq; [reflexivity|]. eapply runs_of_eq; [reflexivity|]. simpl. split.
    + constructor. simpl. unfold CRT_SIZE, CRT_COLS, u16 in *. rewrite Z.mod_small by lia. lia.
    + split; [apply scrolled_off|done].
  - eapply runs_bind_eq; [reflexivity|]. eapply runs_of_eq; [reflexivity|]. split; [constructor; simpl; lia|]. by split; [|constructor].
Qed.

Lemma video_put_screen (tab : M con unit) c s :
  screen_ok s → runs tab s (λ _ s', screen_post s s') → runs (video_put tab c) s (λ _ s', screen_post s s').
Proof.
  intros [Hp] Htab. unfold video_put. set (c' := if Z.land c (Z.lnot 255) =? 0 then Z.lor c 1792 else c). set (ch := Z.land c' 255).
  assert (∀ b p, 0 ≤ p ≤ CRT_SIZE + CRT_COLS - 1 → off_screen (crt_buf s) b →
    runs video_finish (set_crt b p s) (λ _ s', screen_post s s')) as Hfin.
  { intros b p Hr Hb. eapply runs_mono; [by apply finish_screen|]. intros [] s' (Hok & Hoff & Hl). split; [done|]. split; [by etrans|done]. }
  unfold CRT_SIZE, CRT_COLS in *. destruct (ch =? 8).
  { eapply runs_bind_mono.
    - eapply runs_bind_eq; [reflexivity|]. apply (proj2 (runs_eq _ _ (λ _ s', ∃ b p, s' = set_crt b p s ∧
        0 ≤ p < 25 * 80 ∧ off_screen (crt_buf s) b))).
      destruct (Z.gtb_spec (crt_pos s) 0); simpl when; eexists _, _; (split; [reflexivity|]).
      + eexists _, _. split; [reflexivity|]. split; [lia|]. apply off_screen_insert. unfold CRT_SIZE. lia.
      + exists (crt_buf s), (crt_pos s). split; [by destruct s|]. done.
    - intros [] s' (b & p & -> & Hr & Hb). apply Hfin; [lia|done]. }
  destruct ((ch =? 10) || (ch =? 13)) eqn:E.
  { assert (∀ q, 0 ≤ q < 25 * 80 + 80 → 0 ≤ u16 (q - q mod 80) ≤ 25 * 80 + 80 - 1) as Hq.
    { intros q Hq. unfold u16. rewrite Z.mod_small by (Z.div_mod_to_equations; lia). Z.div_mod_to_equations; lia. }
    destruct (ch =? 10); simpl when; (eapply runs_bind_eq; [erewrite bind_Ret; [|reflexivity]; reflexivity|]);
      apply (Hfin (crt_buf s)); try done; simpl; apply Hq; [unfold u16; rewrite Z.mod_small by lia|]; lia. }
  destruct (ch =? 9).
  - eapply runs_bind_mono; [exact Htab|]. intros [] s' ([Hp'] & Hoff & Hl).
    replace s' with (set_crt (crt_buf s') (crt_pos s') s') by by destruct s'.
    eapply runs_mono; [apply finish_screen; unfold CRT_SIZE, CRT_COLS in *; lia|].
    intros [] s'' (Hok & Hoff' & Hl'). split; [done|]. split; by etrans.
  - eapply runs_bind_eq; [reflexivity|]. apply Hfin.
    + unfold u16. rewrite Z.mod_small by lia. lia.
    + apply off_screen_insert. unfold CRT_SIZE. lia.
Qed.

Lemma screen_seq (m k : M con unit) s :
  runs m s (λ _ s', screen_post s s') → (∀ s', screen_ok s' → runs k s' (λ _ s'', screen_post s' s'')) →
  runs (m ;;; k) s (λ _ s', screen_post s s').
Proof.
  intros Hm Hk. eapply runs_bind_mono; [exact Hm|]. intros [] s' (Hok & Hoff & Hl).
  eapply runs_mono; [by apply Hk|]. intros [] s'' (Hok' & Hoff' & Hl'). split; [done|]. split; by etrans.
Qed.

Lemma video_putc_screen c s : screen_ok s → runs (video_putc c) s (λ _ s', screen_post s s').
Proof.
  intros Hok.
  assert (∀ t, screen_ok t → runs (video_put (ret tt) 32) t (λ _ t', screen_post t t')) as Hsp
    by (intros t Ht; by apply video_put_screen).
  apply video_put_screen; [done|]. repeat (apply screen_seq; [by apply Hsp|clear s Hok; intros s Hok]). by apply Hsp.
Qed.

(** C38: writing any character to the screen, a tabulator, a new line or a scroll
    included, terminates, keeps the cursor on the screen and writes no cell outside of
    it. *)
Theorem video_putc_in_screen c s :
  screen_ok s → runs (video_putc c) s (λ _ s', screen_ok s' ∧ off_screen (crt_buf s) (crt_buf s')).
Proof. intros Hok. eapply runs_mono; [by apply video_putc_screen|]. by intros r s' (? & ? & _). Qed.

(** ** The input buffer *)

(** The characters from [rpos] to [wpos]. *)
Record queue_is (s : con) (q : list Z) : Prop := {
  qi_rpos : 0 ≤ rpos s < CONSOLE_BUFFER_SIZE;
  qi_len : Z.of_nat (length q) < CONSOLE_BUFFER_SIZE;
  qi_wpos : wpos s = (rpos s + Z.of_nat (length q)) mod CONSOLE_BUFFER_SIZE;
  qi_at : ∀ i c, q !! i = Some c → cons_buf s !!! ((rpos s + Z.of_nat i) mod CONSOLE_BUFFER_SIZE) = c;
}.

Lemma mod_inj i j k n : 0 < n → 0 ≤ i < n → 0 ≤ j < n → (k + i) mod n = (k + j) mod n → i = j.
Proof.
  intros Hn Hi Hj E. pose proof (Z.div_mod (k + i) n ltac:(lia)). pose proof (Z.div_mod (k + j) n ltac:(lia)).
  rewrite E in *. destruct (Z.lt_trichotomy ((k + i) / n) ((k + j) / n)) as [?|[?|?]]; nia.
Qed.

Lemma cyc_succ x n : 0 ≤ x < n → (if x + 1 =? n then 0 else x + 1) = (x + 1) mod n.
Proof.
  intros Hx. destruct (Z.eqb_spec (x + 1) n) as [E|]; [rewrite E; symmetry; apply Z.mod_same; lia|].
  symmetry. apply Z.mod_small. lia.
Qed.

(** A character behind the others.  The buffer has no test for being full: the character
    that would be number [CONSOLE_BUFFER_SIZE] makes it look empty. *)
Definition push (q : list Z) (c : Z) : list Z :=
  if Z.of_nat (length q) + 1 <? CONSOLE_BUFFER_SIZE then q ++ [c] else [].

Abbreviation pushes := (foldl push).

Lemma pushes_app q cs : Z.of_nat (length (q ++ cs)) < CONSOLE_BUFFER_SIZE → pushes q cs = q ++ cs.
Proof.
  revert q. induction cs as [|c cs IH]; intros q Hl; simpl; [by rewrite app_nil_r|].
  rewrite length_app in Hl. simpl in Hl. assert (push q c = q ++ [c]) as -> by (unfold push; by rewrite (proj2 (Z.ltb_lt _ _)) by lia).
  rewrite IH; [by rewrite <- app_assoc|]. rewrite !length_app. simpl. lia.
Qed.

Lemma cons_put_run s q c :
  queue_is s q →
  ∃ b w, cons_put c s = Ret (tt, set_cons b (rpos s) w s) ∧ queue_is (set_cons b (rpos s) w s) (push q (s8 c)).
Proof.
  intros [Hr Hl Hw Ha]. unfold cons_put. erewrite bind_Ret; [|reflexivity].
  assert (0 ≤ wpos s < CONSOLE_BUFFER_SIZE) as Hwr by (rewrite Hw; apply Z.mod_pos_bound; done).
  rewrite inb_true_2 by done. rewrite cyc_succ by done. eexists _, _. split; [reflexivity|].
  unfold push. destruct (Z.ltb_spec (Z.of_nat (length q) + 1) CONSOLE_BUFFER_SIZE) as [Hlt|Hge].
  - constructor; simpl; [done|rewrite length_app; simpl; lia| |].
    + rewrite Hw, length_app. simpl. rewrite Zplus_mod_idemp_l. f_equal. lia.
    + intros i x Hi. apply lookup_app_Some in Hi as [Hi|[Hi1 Hi2]].
      * rewrite lookup_total_insert_ne; [by apply Ha|]. rewrite Hw. intros E. pose proof (lookup_lt_Some _ _ _ Hi).
        apply mod_inj in E; lia.
      * pose proof (lookup_lt_Some _ _ _ Hi2) as Hlt2. simpl in Hlt2. assert (i = length q) as -> by lia.
        rewrite Nat.sub_diag in Hi2. injection Hi2 as <-. rewrite Hw. by rewrite lookup_total_insert_eq.
  - constructor; simpl; [done|done| |done]. rewrite Hw, Zplus_mod_idemp_l, Z.add_0_r, (Z.mod_small (rpos s)) by done.
    replace (rpos s + Z.of_nat (length q) + 1) with (rpos s + 1 * CONSOLE_BUFFER_SIZE) by lia.
    rewrite Z_mod_plus_full. by apply Z.mod_small.
Qed.

Section input.
Context `{KEnv}.
Hypothesis Hmagic : ks_magic = KSTACK_MAGIC.

(** The characters among the results of a device, as the buffer keeps them. *)
Definition chars (cs : list Z) : list Z := s8 <$> filter (λ c, c ≠ 0) cs.

Lemma chars_cons c cs : chars (c :: cs) = if c =? 0 then chars cs else s8 c :: chars cs.
Proof. unfold chars. rewrite filter_cons. destruct (Z.eqb_spec c 0) as [E|E]; by destruct (decide _). Qed.

(** A device: in the states of [dev cs] it has the results [cs] for the kernel, in this
    order.  It does not touch the buffer, nor the buffer the device. *)
Record device (proc : M con Z) (dev : list Z → con → Prop) : Prop := {
  dv_end : ∀ s, dev [] s → proc s = Ret (-1, s);
  dv_next : ∀ c cs s, dev (c :: cs) s → c ≠ -1 ∧ ∃ s1, proc s = Ret (c, s1) ∧ dev cs s1 ∧
    cons_buf s1 = cons_buf s ∧ rpos s1 = rpos s ∧ wpos s1 = wpos s ∧ cons_lk s1 = cons_lk s;
  dv_cons : ∀ cs b r w s, dev cs s → dev cs (set_cons b r w s);
  dv_lock : ∀ cs l s, dev cs s → dev cs (set_cons_lk l s);
  dv_length : ∀ cs s, dev cs s → (length cs ≤ length (com_in s) + length (kbd_in s))%nat;
}.

Lemma queue_is_keep s s1 q :
  cons_buf s1 = cons_buf s → rpos s1 = rpos s → wpos s1 = wpos s → queue_is s q → queue_is s1 q.
Proof. intros Eb Er Ew [Q1 Q2 Q3 Q4]. by constructor; rewrite ?Er, ?Ew, ?Eb. Qed.

Section device.
Context (proc : M con Z) (dev : list Z → con → Prop) (Hdev : device proc dev).

Definition intr_round (_ : unit) : M con (unit + unit) :=
  let! c := proc in
  if c =? -1 then ret (inr tt)
  else if c =? 0 then ret (inl tt)
  else cons_put c ;;; ret (inl tt).

Lemma intr_loop_runs n cs q s :
  dev cs s → queue_is s q → (length cs < n)%nat →
  runs (loop n intr_round tt) s (λ _ s', dev [] s' ∧ queue_is s' (pushes q (chars cs)) ∧ cons_lk s' = cons_lk s).
Proof.
  revert n q s. induction cs as [|c cs IH]; intros n q s Hd Hq Hn; (destruct n as [|n]; [simpl in Hn; lia|]).
  - eapply runs_of_eq; [|done]. apply loop_inr. unfold intr_round. pose proof (dv_end _ _ Hdev s Hd) as E. by kstep E.
  - destruct (dv_next _ _ Hdev c cs s Hd) as (Hc & s1 & E & Hd1 & Eb & Er & Ew & El). rewrite chars_cons.
    apply Z.eqb_neq in Hc. simpl in Hn. pose proof (queue_is_keep _ _ _ Eb Er Ew Hq) as Hq1. destruct (c =? 0) eqn:E0.
    + eapply runs_rw; [apply loop_inl; unfold intr_round; kstep E; by rewrite Hc, E0|].
      rewrite <- El. apply IH; [done|done|lia].
    + destruct (cons_put_run s1 q c Hq1) as (b & w & Eput & Hq2). eapply runs_rw.
      { apply loop_inl. unfold intr_round. kstep E. rewrite Hc, E0. by kstep Eput. }
      rewrite <- El. apply (IH n (push q (s8 c)) (set_cons b (rpos s1) w s1)); [by apply Hdev|done|lia].
Qed.

(** An interrupt of the device takes all it has into the buffer. *)
Lemma cons_intr_runs cs q s :
  lock (cons_lk s) = 0 → dev cs s → queue_is s q →
  runs (cons_intr proc) s (λ _ s', dev [] s' ∧ queue_is s' (pushes q (chars cs)) ∧ lock (cons_lk s') = 0).
Proof.
  intros Hl Hd Hq. unfold cons_intr.
  eapply runs_bind_eq; [by apply fzoom_Ret, Spinlock.acquire_free|]. eapply runs_bind_eq; [reflexivity|].
  set (s0 := set_cons_lk _ s). assert (dev cs s0) as Hd0 by by apply Hdev. eapply runs_bind_mono.
  - apply (intr_loop_runs _ cs q s0 Hd0); [by destruct Hq|]. pose proof (dv_length _ _ Hdev _ _ Hd0). simpl in *. lia.
  - intros [] s' (Hd' & Hq' & El). eapply runs_of_eq; [by apply fzoom_Ret, Spinlock.release_run|].
    split; [by apply Hdev|]. split; [by destruct Hq'|done].
Qed.

End device.

(** *** The serial line and the keyboard *)

(** The results of the keyboard for the bytes [ks] with the modifiers [sh], and the
    modifiers after them. *)
Fixpoint keys (sh : Z) (ks : list Z) : list Z :=
  match ks with [] => [] | d :: ks => let r := kbd_decode sh (u8 d) in r.2 :: keys r.1 ks end.
Fixpoint mods (sh : Z) (ks : list Z) : Z :=
  match ks with [] => sh | d :: ks => mods (kbd_decode sh (u8 d)).1 ks end.

Definition serial_dev (ks : list Z) (sh : Z) (cs : list Z) (s : con) : Prop :=
  com_there s = true ∧ u8 <$> com_in s = cs ∧ kbd_in s = ks ∧ kbd_shift s = sh.
Definition kbd_dev (xs : list Z) (sh : Z) (cs : list Z) (s : con) : Prop :=
  com_in s = xs ∧ keys (kbd_shift s) (kbd_in s) = cs ∧ mods (kbd_shift s) (kbd_in s) = sh.

Lemma serial_device ks sh : device serial_proc_data (serial_dev ks sh).
Proof.
  constructor.
  - intros s (Ht & Hi & _). apply fmap_nil_inv in Hi. unfold serial_proc_data, com_status. erewrite bind_Ret; [|reflexivity].
    by rewrite Ht, Hi.
  - intros c cs s (Ht & Hi & Hk & Hs). destruct (com_in s) as [|x xs] eqn:Ei; [done|]. injection Hi as <- <-.
    split; [unfold u8; pose proof (Z.mod_pos_bound x 256); lia|]. exists (set_com_in xs s). split; [|done].
    unfold serial_proc_data, com_status. erewrite bind_Ret; [|reflexivity]. rewrite Ht, Ei.
    unfold com_rx. change (negb (nz (Z.land 33 1))) with false. cbv beta iota. simpl. by rewrite Ei.
  - done.
  - done.
  - intros cs s (_ & <- & _). rewrite length_fmap. lia.
Qed.

(** All tables hold bytes. *)
Lemma charcode_byte i d : 0 ≤ charcode i !!! d.
Proof.
  assert (∀ m : gmap Z Z, bool_decide (map_Forall (λ _ c, 0 ≤ c) m) = true → 0 ≤ m !!! d) as Hm.
  { intros m Hb%bool_decide_eq_true. destruct (m !! d) as [c|] eqn:E; [rewrite (lookup_total_correct _ _ _ E); exact (Hb d c E)|].
    by rewrite lookup_total_alt, E. }
  unfold charcode. destruct (i =? 0); [|destruct (i =? 1)]; apply Hm; vm_compute; reflexivity.
Qed.

Lemma kbd_decode_byte sh d : (kbd_decode sh d).2 ≠ -1.
Proof.
  unfold kbd_decode. destruct (d =? 224); [done|]. destruct (nz (Z.land d 128)); [done|].
  destruct (if nz (Z.land sh E0ESC) then _ else _) as [d' sh']. simpl.
  match goal with |- context [charcode ?i !!! d'] => pose proof (charcode_byte i d') end.
  destruct (nz _); [|lia]. destruct (_ && _) eqn:E; [lia|]. destruct ((65 <=? _) && _); lia.
Qed.

Lemma kbd_device xs sh : device kbd_proc_data (kbd_dev xs sh).
Proof.
  constructor.
  - intros s (_ & Hk & _). unfold kbd_proc_data. erewrite bind_Ret; [|reflexivity]. by destruct (kbd_in s).
  - intros c cs s (Hx & Hk & Hs). destruct (kbd_in s) as [|d ks] eqn:Ei; [done|]. simpl in Hk, Hs. injection Hk as <- <-.
    split; [apply kbd_decode_byte|]. set (s1 := set_kbd_shift (kbd_decode (kbd_shift s) (u8 d)).1 (set_kbd_in ks s)).
    destruct (kbd_decode (kbd_shift s) (u8 d)) as [sh1 c] eqn:Ed. simpl in s1.
    exists (if (Z.land (u32 (Z.lnot sh1)) (Z.lor CTL ALT) =? 0) && (c =? KEY_DEL) then set_sys_ctl 3 s1 else s1).
    split; [|by destruct (_ && _)]. unfold kbd_proc_data. erewrite bind_Ret; [|reflexivity]. rewrite Ei.
    cbv beta iota. do 2 (erewrite bind_Ret; [|reflexivity]). change (kbd_shift (set_kbd_in ks s)) with (kbd_shift s). rewrite Ed. by destruct (_ && _).
  - done.
  - done.
  - intros cs s (_ & <- & _). generalize (kbd_shift s). induction (kbd_in s) as [|d ks IH]; intros sh'; simpl; [lia|].
    specialize (IH (kbd_decode sh' (u8 d)).1). lia.
Qed.

(** The characters that wait at the devices: those of the line, if there is one, then those
    of the keyboard. *)
Definition waiting (s : con) : list Z :=
  (if serial_exists s =? 0 then [] else chars (u8 <$> com_in s)) ++ chars (keys (kbd_shift s) (kbd_in s)).

Lemma serial_intr_runs q s :
  lock (cons_lk s) = 0 → (serial_exists s ≠ 0 → com_there s = true) → queue_is s q →
  runs serial_intr s (λ _ s', (serial_exists s ≠ 0 → com_in s' = []) ∧ kbd_in s' = kbd_in s ∧ kbd_shift s' = kbd_shift s ∧ lock (cons_lk s') = 0 ∧
    queue_is s' (pushes q (if serial_exists s =? 0 then [] else chars (u8 <$> com_in s)))).
Proof.
  intros Hl Ht Hq. unfold serial_intr. eapply runs_bind_eq; [reflexivity|]. destruct (Z.eqb_spec (serial_exists s) 0) as [E|E].
  - rewrite E. by apply runs_ret.
  - rewrite (proj2 (nz_spec _) E). simpl when.
    eapply runs_mono; [apply (cons_intr_runs _ _ (serial_device (kbd_in s) (kbd_shift s)) (u8 <$> com_in s) q s Hl); [|done]|].
    { split; [by apply Ht|done]. }
    intros _ s' ((_ & Hi & Hk & Hs) & Hq' & Hl'). apply fmap_nil_inv in Hi. done.
Qed.

(** C28: the input of the console is a queue: [cons_getc] takes over all that waits at the
    serial line and then all that waits at the keyboard, the bytes of the keyboard decoded
    with the modifiers, bytes that are no character left out, behind the characters that
    it has, and returns the first one, or 0 when there is none.  No character is lost and
    none changes its place while fewer than [CONSOLE_BUFFER_SIZE] are unread; the
    character that reaches this number empties the buffer. *)
Theorem cons_getc_fifo s q :
  lock (cons_lk s) = 0 → (serial_exists s ≠ 0 → com_there s = true) → queue_is s q →
  let q' := foldl push q (waiting s) in
  runs cons_getc s (λ c s',
    (serial_exists s ≠ 0 → com_in s' = []) ∧ kbd_in s' = [] ∧ kbd_shift s' = mods (kbd_shift s) (kbd_in s) ∧ lock (cons_lk s') = 0 ∧
    c = hd 0 q' ∧ queue_is s' (tail q')) ∧
  (Z.of_nat (length (q ++ waiting s)) < CONSOLE_BUFFER_SIZE → q' = q ++ waiting s).
Proof.
  intros Hl Ht Hq. cbv zeta. split; [|apply pushes_app]. unfold waiting. rewrite foldl_app. unfold cons_getc.
  eapply runs_bind_mono; [by apply serial_intr_runs|]. intros [] s1 (Hi1 & Hk1 & Hs1 & Hl1 & Hq1).
  set (q1 := foldl push q _) in *. clearbody q1. eapply runs_bind_mono.
  { apply (cons_intr_runs _ _ (kbd_device (com_in s1) (mods (kbd_shift s) (kbd_in s))) (keys (kbd_shift s) (kbd_in s)) q1 s1 Hl1); [|done].
    by rewrite <- Hs1, <- Hk1. }
  intros [] s2 ((Hi2 & Hk2 & Hs2) & Hq2 & Hl2). rewrite <- Hi2 in Hi1.
  assert (kbd_in s2 = []) as Hk by (destruct (kbd_in s2); done). rewrite Hk in Hs2. simpl in Hs2.
  set (qq := foldl push q1 _) in *. clearbody qq. pose proof Hq2 as [Hr Hl3 Hw Ha].
  eapply runs_bind_eq; [by apply fzoom_Ret, Spinlock.acquire_free|].
  set (s3 := set_cons_lk _ _). eapply runs_bind_eq; [reflexivity|]. eapply runs_bind_eq; [reflexivity|].
  change (rpos s3) with (rpos s2). change (wpos s3) with (wpos s2). rewrite Hw.
  destruct qq as [|c q'].
  - rewrite Z.add_0_r, Z.mod_small by done. rewrite Z.eqb_refl. eapply runs_bind_eq; [reflexivity|].
    apply runs_ret. do 5 (split; [done|]). by destruct Hq2.
  - assert ((rpos s2 =? (rpos s2 + Z.of_nat (length (c :: q'))) mod CONSOLE_BUFFER_SIZE) = false) as ->.
    { apply Z.eqb_neq. intros E. rewrite <- (Z.mod_small (rpos s2) CONSOLE_BUFFER_SIZE) in E at 1 by done.
      rewrite <- (Z.add_0_r (rpos s2)) in E at 1. apply mod_inj in E; simpl in *; lia. }
    eapply runs_bind_eq; [apply aread_in; by simpl|]. eapply runs_bind_eq; [reflexivity|].
    eapply runs_bind_eq; [reflexivity|]. apply runs_ret. do 4 (split; [done|]). split.
    + pose proof (Ha 0%nat c eq_refl) as Hc. rewrite Z.add_0_r, Z.mod_small in Hc by done. exact Hc.
    + rewrite cyc_succ by done. constructor; simpl.
      * apply Z.mod_pos_bound. done.
      * simpl in Hl3. lia.
      * rewrite Hw, Zplus_mod_idemp_l. f_equal. simpl. lia.
      * intros i x Hx. rewrite Zplus_mod_idemp_l. rewrite <- (Ha (S i) x Hx). do 2 f_equal. lia.
Qed.

End input.

(** ** Examples *)

Definition demo_con : con := {| com_in := [108; 0; 115]; com_out := []; com_regs := ∅; com_there := true;
  kbd_in := [42; 30; 158; 170]; sys_ctl := 0; crt_color := true; crt_regs := ∅; serial_exists := 1; kbd_shift := 0;
  addr_6845 := 980; crt_buf := ∅; crt_pos := 1999; cons_lk := Spinlock.free_lk; cons_buf := ∅; rpos := 511;
  wpos := 511; linebuf := ∅ |}.

Lemma video_putc_in_screen_witness :
  screen_ok demo_con ∧ runs (video_putc 97) demo_con (λ _ s', screen_ok s').
Proof.
  assert (screen_ok demo_con) as Hok by (constructor; vm_compute; split; [discriminate|reflexivity]).
  split; [exact Hok|]. eapply runs_mono; [apply (video_putc_in_screen 97 demo_con Hok)|].
  intros r s' Hs. exact (proj1 Hs).
Defined.

(** "l" and "s" wait at the line, with a zero byte, and "A", typed with the shift key, at the
    keyboard. *)
Lemma cons_getc_fifo_witness :
  runs (@cons_getc demo_env) demo_con (λ c s', c = 108 ∧ queue_is s' [115; 65]).
Proof.
  eapply runs_mono.
  - apply (@cons_getc_fifo demo_env eq_refl demo_con []); [reflexivity|reflexivity|].
    constructor; [vm_compute; split; [discriminate|reflexivity]|reflexivity|reflexivity|discriminate].
  - intros c s' (_ & _ & _ & _ & Hc & Hq). split; [exact Hc|exact Hq].
Defined.
