(* ===== verification/Seg.v ===== *)
(** * Segments

    kern/lib/seg.c: the descriptor tables and task state segments of the kernel stacks,
    one per processor and one per process.  A [struct kstack] has [KSTACK_SIZE] bytes and
    begins with its table; it is known by its address. *)

From S2P Require Import Prelude Spinlock Pmmap MAT Container Mem Vmm Thread.

Record segdesc := {
  sd_lim_15_0 : Z; sd_base_15_0 : Z; sd_base_23_16 : Z; sd_type : Z; sd_s : Z; sd_dpl : Z; sd_p : Z;
  sd_lim_19_16 : Z; sd_avl : Z; sd_rsv1 : Z; sd_db : Z; sd_g : Z; sd_base_31_24 : Z;
}.
Definition SEGDESC_NULL : segdesc := {| sd_lim_15_0 := 0; sd_base_15_0 := 0; sd_base_23_16 := 0; sd_type := 0;
  sd_s := 0; sd_dpl := 0; sd_p := 0; sd_lim_19_16 := 0; sd_avl := 0; sd_rsv1 := 0; sd_db := 0; sd_g := 0;
  sd_base_31_24 := 0 |}.
#[global] Instance segdesc_inhabited : Inhabited segdesc := populate SEGDESC_NULL.

Definition SEGDESC32 (type base lim dpl : Z) : segdesc := {|
  sd_lim_15_0 := Z.land (Z.shiftr lim 12) 65535; sd_base_15_0 := Z.land base 65535;
  sd_base_23_16 := Z.land (Z.shiftr base 16) 255; sd_type := type; sd_s := 1; sd_dpl := dpl; sd_p := 1;
  sd_lim_19_16 := Z.land (Z.shiftr lim 28) 15; sd_avl := 0; sd_rsv1 := 0; sd_db := 1; sd_g := 1;
  sd_base_31_24 := Z.land (Z.shiftr base 24) 255 |}.
Definition SEGDESC16 (type base lim dpl : Z) : segdesc := {|
  sd_lim_15_0 := Z.land lim 65535; sd_base_15_0 := Z.land base 65535;
  sd_base_23_16 := Z.land (Z.shiftr base 16) 255; sd_type := type; sd_s := 1; sd_dpl := dpl; sd_p := 1;
  sd_lim_19_16 := Z.land (Z.shiftr lim 16) 15; sd_avl := 0; sd_rsv1 := 0; sd_db := 1; sd_g := 0;
  sd_base_31_24 := Z.land (Z.shiftr base 24) 255 |}.
(** [SEGDESC16], then [sd_s = 0]: a system segment. *)
Definition tss_desc (base : Z) (lim : Z) : segdesc :=
  let d := SEGDESC16 9 base lim 0 in
  {| sd_lim_15_0 := sd_lim_15_0 d; sd_base_15_0 := sd_base_15_0 d; sd_base_23_16 := sd_base_23_16 d;
     sd_type := sd_type d; sd_s := 0; sd_dpl := sd_dpl d; sd_p := sd_p d; sd_lim_19_16 := sd_lim_19_16 d;
     sd_avl := sd_avl d; sd_rsv1 := sd_rsv1 d; sd_db := sd_db d; sd_g := sd_g d;
     sd_base_31_24 := sd_base_31_24 d |}.

Definition STA_X : Z := 8.
Definition STA_W : Z := 2.
Definition STA_R : Z := 2.
Definition CPU_GDT_KCODE : Z := 8.
Definition CPU_GDT_KDATA : Z := 16.
Definition CPU_GDT_UCODE : Z := 24.
Definition CPU_GDT_UDATA : Z := 32.
Definition CPU_GDT_TSS : Z := 40.
(** The task state segment follows the 6 descriptors; it has 104 bytes and the 129 bytes
    of the I/O permission map, with 3 bytes of padding. *)
Definition TSS_OFFSET : Z := 48.
Definition TSS_SIZE : Z := 236.
Definition IOPM_OFFSET : Z := 104.

Record kstack_t := {
  gdt : gmap Z segdesc;
  ts_esp0 : Z;
  ts_ss0 : Z;
  ts_iomb : Z;
  ts_iopm : gmap Z Z;
  ks_cpu : Z;
  ks_mag : Z;
}.
Definition zero_kstack : kstack_t := {| gdt := ∅; ts_esp0 := 0; ts_ss0 := 0; ts_iomb := 0; ts_iopm := ∅;
  ks_cpu := 0; ks_mag := 0 |}.
#[global] Instance kstack_inhabited : Inhabited kstack_t := populate zero_kstack.

(** The kernel stacks; the base of the descriptor table and the task register of this
    processor. *)
Record seg := { kstacks : gmap Z kstack_t; GDTR : Z; TR : Z }.
Definition set_kstacks (v : gmap Z kstack_t) (s : seg) : seg := {| kstacks := v; GDTR := GDTR s; TR := TR s |}.
Definition set_GDTR (v : Z) (s : seg) : seg := {| kstacks := kstacks s; GDTR := v; TR := TR s |}.
Definition set_TR (v : Z) (s : seg) : seg := {| kstacks := kstacks s; GDTR := GDTR s; TR := v |}.

Definition set_gdt (i : Z) (d : segdesc) (k : kstack_t) : kstack_t := {| gdt := <[i := d]> (gdt k);
  ts_esp0 := ts_esp0 k; ts_ss0 := ts_ss0 k; ts_iomb := ts_iomb k; ts_iopm := ts_iopm k; ks_cpu := ks_cpu k;
  ks_mag := ks_mag k |}.
Definition set_esp0 (v ss : Z) (k : kstack_t) : kstack_t := {| gdt := gdt k; ts_esp0 := v; ts_ss0 := ss;
  ts_iomb := ts_iomb k; ts_iopm := ts_iopm k; ks_cpu := ks_cpu k; ks_mag := ks_mag k |}.
Definition set_iopm (iomb : Z) (m : gmap Z Z) (k : kstack_t) : kstack_t := {| gdt := gdt k; ts_esp0 := ts_esp0 k;
  ts_ss0 := ts_ss0 k; ts_iomb := iomb; ts_iopm := m; ks_cpu := ks_cpu k; ks_mag := ks_mag k |}.
Definition set_ks_cpu (v : Z) (k : kstack_t) : kstack_t := {| gdt := gdt k; ts_esp0 := ts_esp0 k;
  ts_ss0 := ts_ss0 k; ts_iomb := ts_iomb k; ts_iopm := ts_iopm k; ks_cpu := v; ks_mag := ks_mag k |}.
Definition set_ks_mag (v : Z) (k : kstack_t) : kstack_t := {| gdt := gdt k; ts_esp0 := ts_esp0 k;
  ts_ss0 := ts_ss0 k; ts_iomb := ts_iomb k; ts_iopm := ts_iopm k; ks_cpu := ks_cpu k; ks_mag := v |}.

(** The address of [bsp_kstack]. *)
Class SegLayout := { bsp_kstack_addr : Z }.

Section ops.
Context `{KernelLayout, SegLayout}.

Definition bsp_ks (i : Z) : Z := bsp_kstack_addr + i * KSTACK_SIZE.
Definition proc_ks (pid : Z) : Z := proc_kstack_addr + pid * KSTACK_SIZE.

Definition ks_mod (a : Z) (f : kstack_t → kstack_t) : M seg unit :=
  modify (λ s, set_kstacks (<[a := f (kstacks s !!! a)]> (kstacks s)) s).

(** The four flat segments, of the kernel and of user code. *)
Definition flat_segments (a : Z) : M seg unit :=
  ks_mod a (set_gdt 0 SEGDESC_NULL) ;;;
  ks_mod a (set_gdt (CPU_GDT_KCODE / 8) (SEGDESC32 (Z.lor STA_X STA_R) 0 4294967295 0)) ;;;
  ks_mod a (set_gdt (CPU_GDT_KDATA / 8) (SEGDESC32 STA_W 0 4294967295 0)) ;;;
  ks_mod a (set_gdt (CPU_GDT_UCODE / 8) (SEGDESC32 (Z.lor STA_X STA_R) 0 4294967295 3)) ;;;
  ks_mod a (set_gdt (CPU_GDT_UDATA / 8) (SEGDESC32 STA_W 0 4294967295 3)).

(** The clearing of the BSS is not part of this state; the segment registers are loaded
    with the flat kernel segments. *)
Definition seg_init (cpu_idx : Z) : M seg unit :=
  let a := bsp_ks cpu_idx in
  flat_segments a ;;;
  ks_mod a (set_esp0 (a + KSTACK_SIZE) CPU_GDT_KDATA) ;;;
  ks_mod a (set_gdt (CPU_GDT_TSS / 8) (tss_desc (a + TSS_OFFSET) (TSS_SIZE - 1))) ;;;
  ks_mod a (set_ks_mag KSTACK_MAGIC) ;;;
  modify (set_GDTR a) ;;;
  modify (set_TR CPU_GDT_TSS) ;;;
  when (cpu_idx =? 0)
    (for_ 1 NUM_CPUS (λ i, ks_mod (bsp_ks i) (λ _, zero_kstack)) ;;;
     for_ 0 NUM_IDS (λ i, ks_mod (proc_ks i) (λ _, zero_kstack))).

(** The permission map of the ports: 128 zero bytes, then [0xff]. *)
Definition proc_iopm : gmap Z Z := <[128 := 255]> (foldl (λ m i, <[i := 0]> m) ∅ (seqZ 0 128)).

Definition seg_init_proc (cpu_idx pid : Z) : M seg unit :=
  let a := proc_ks pid in
  flat_segments a ;;;
  ks_mod a (set_esp0 (a + KSTACK_SIZE) CPU_GDT_KDATA) ;;;
  ks_mod a (set_iopm IOPM_OFFSET proc_iopm) ;;;
  ks_mod a (set_gdt (CPU_GDT_TSS / 8) (tss_desc (a + TSS_OFFSET) (TSS_SIZE - 1))) ;;;
  ks_mod a (set_ks_mag KSTACK_MAGIC) ;;;
  ks_mod a (set_ks_cpu cpu_idx).

(** [ks] is the kernel stack of this processor. *)
Definition kstack_switch_to (ks pid : Z) : M seg unit :=
  ks_mod ks (set_esp0 (proc_ks pid + KSTACK_SIZE) CPU_GDT_KDATA) ;;;
  ks_mod ks (set_gdt (CPU_GDT_TSS / 8) (tss_desc (proc_ks pid + TSS_OFFSET) (TSS_SIZE - 1))) ;;;
  modify (set_TR CPU_GDT_TSS).

(** The processor lets user code use a port whose bit in the map is clear. *)
Definition port_allowed (k : kstack_t) (port : Z) : bool := negb (Z.testbit (ts_iopm k !!! (port / 8)) (port mod 8)).

(** Every process may use all of the first 1024 ports, those of the disk (0x1F0 to 0x1F7)
    and of the console among them. *)
Lemma seg_init_proc_ports cpu_idx pid port s : 0 ≤ port < 1024 →
  runs (seg_init_proc cpu_idx pid) s (λ _ s', port_allowed (kstacks s' !!! proc_ks pid) port = true).
Proof.
  intros Hp. unfold runs, seg_init_proc, flat_segments, ks_mod, modify, bind. cbv beta iota.
  cbn [kstacks set_kstacks]. rewrite !lookup_total_insert_eq. unfold port_allowed. cbn [ts_iopm set_ks_cpu set_ks_mag set_gdt set_iopm].
  unfold proc_iopm. rewrite lookup_total_insert_ne by (Z.div_mod_to_equations; lia).
  assert (∀ l (m : gmap Z Z), m !!! (port / 8) = 0 →
    foldl (λ m i, <[i := 0]> m) m l !!! (port / 8) = 0) as Hf; [|by rewrite Hf, ?Z.testbit_0_l].
  clear. intros l. induction l as [|i l IH]; intros m Hm; [done|]. cbn [foldl]. apply IH. destruct (decide (i = port / 8)) as [->|].
  - by rewrite lookup_total_insert_eq.
  - by rewrite lookup_total_insert_ne.
Qed.

End ops.
