(* ===== verification/Sysfile.v ===== *)
(** * System calls of the file system

    kern/trap/TSyscallArg: arguments and results of a system call, in the trap frame.
    kern/fs/path.c: the lookup of a path.  kern/fs/sysfile.c: the system calls on files,
    over the threads (the open files and the working directory of a process), the user
    memory and the file system.  A trap frame lies on the kernel stack of its thread: a
    pointer to it is the number of the thread. *)

From S2P Require Import Prelude Spinlock Pmmap MAT Container Mem Vmm Thread UserCopy DList Bufcache Log Inode Dir File Console Seg.

(** Where the arrays of the kernel are that the system calls copy to and from:
    [kernel_buf] (sysfile.c), and the arrays [path], [old] and [new] and the variable
    [stat] on the kernel stack of a thread. *)
Class SysLayout := {
  kernel_buf : Z;
  path_buf : Z → Z;
  old_buf : Z → Z;
  new_buf : Z → Z;
  stat_buf : Z → Z;
}.
Definition KERNEL_BUF_SIZE : Z := 50000.
Definition PATH_SIZE : Z := 128.
Definition FILE_STAT_SIZE : Z := 20.

Definition E_SUCC : Z := 0.
Definition E_MEM : Z := 1.
Definition E_INVAL_CALLNR : Z := 3.
Definition E_INVAL_ADDR : Z := 4.
Definition E_INVAL_PID : Z := 5.
Definition E_DISK_OP : Z := 13.
Definition E_EXCEEDS_QUOTA : Z := 23.
Definition E_MAX_NUM_CHILDEN_REACHED : Z := 24.
Definition E_INVAL_CHILD_ID : Z := 25.
Definition E_NEXIST : Z := 26.
Definition E_CREATE : Z := 27.
Definition E_BADF : Z := 29.

(** kern/lib/trap.h; the paddings are left out. *)
Record tf_t := {
  t_edi : Z; t_esi : Z; t_ebp : Z; t_oesp : Z; t_ebx : Z; t_edx : Z; t_ecx : Z; t_eax : Z;
  t_es : Z; t_ds : Z; t_trapno : Z; t_err : Z; t_eip : Z; t_cs : Z; t_eflags : Z; t_esp : Z; t_ss : Z;
}.
#[global] Instance tf_inhabited : Inhabited tf_t := populate
  {| t_edi := 0; t_esi := 0; t_ebp := 0; t_oesp := 0; t_ebx := 0; t_edx := 0; t_ecx := 0; t_eax := 0;
     t_es := 0; t_ds := 0; t_trapno := 0; t_err := 0; t_eip := 0; t_cs := 0; t_eflags := 0; t_esp := 0;
     t_ss := 0 |}.

Definition set_gpr (edi esi ebx edx ecx eax : Z) (t : tf_t) : tf_t := {|
  t_edi := edi; t_esi := esi; t_ebp := t_ebp t; t_oesp := t_oesp t; t_ebx := ebx; t_edx := edx;
  t_ecx := ecx; t_eax := eax; t_es := t_es t; t_ds := t_ds t; t_trapno := t_trapno t; t_err := t_err t;
  t_eip := t_eip t; t_cs := t_cs t; t_eflags := t_eflags t; t_esp := t_esp t; t_ss := t_ss t |}.

(** The kernel: the threads with the memory, the file system, the console, the segments,
    and the trap frames on the kernel stacks; [uctx_pool] (kern/proc), [last_active], [TRAP_HANDLER] and [inited]
    (kern/trap), [started] (kern/proc) and the page fault register of the processor. *)
Record ksys := {
  k_thr : thr;
  k_fs : fs;
  k_con : con;
  k_seg : seg;
  k_tf : gmap Z tf_t;
  uctx_pool : gmap Z tf_t;
  last_active : gmap Z Z;
  TRAP_HANDLER : gmap (Z * Z) Z;
  trap_inited : Z;
  started : Z;
  CR2 : Z;
}.
Definition set_k_thr (v : thr) (s : ksys) : ksys := {| k_thr := v; k_fs := k_fs s; k_con := k_con s; k_seg := k_seg s; k_tf := k_tf s;
  uctx_pool := uctx_pool s; last_active := last_active s; TRAP_HANDLER := TRAP_HANDLER s;
  trap_inited := trap_inited s; started := started s; CR2 := CR2 s |}.
Definition set_k_fs (v : fs) (s : ksys) : ksys := {| k_thr := k_thr s; k_fs := v; k_con := k_con s; k_seg := k_seg s; k_tf := k_tf s;
  uctx_pool := uctx_pool s; last_active := last_active s; TRAP_HANDLER := TRAP_HANDLER s;
  trap_inited := trap_inited s; started := started s; CR2 := CR2 s |}.
Definition set_k_tf (v : gmap Z tf_t) (s : ksys) : ksys := {| k_thr := k_thr s; k_fs := k_fs s; k_con := k_con s; k_seg := k_seg s; k_tf := v;
  uctx_pool := uctx_pool s; last_active := last_active s; TRAP_HANDLER := TRAP_HANDLER s;
  trap_inited := trap_inited s; started := started s; CR2 := CR2 s |}.
Definition set_uctx_pool (v : gmap Z tf_t) (s : ksys) : ksys := {| k_thr := k_thr s; k_fs := k_fs s; k_con := k_con s; k_seg := k_seg s;
  k_tf := k_tf s; uctx_pool := v; last_active := last_active s; TRAP_HANDLER := TRAP_HANDLER s;
  trap_inited := trap_inited s; started := started s; CR2 := CR2 s |}.
Definition set_last_active (v : gmap Z Z) (s : ksys) : ksys := {| k_thr := k_thr s; k_fs := k_fs s; k_con := k_con s; k_seg := k_seg s;
  k_tf := k_tf s; uctx_pool := uctx_pool s; last_active := v; TRAP_HANDLER := TRAP_HANDLER s;
  trap_inited := trap_inited s; started := started s; CR2 := CR2 s |}.
Definition set_TRAP_HANDLER (v : gmap (Z * Z) Z) (s : ksys) : ksys := {| k_thr := k_thr s; k_fs := k_fs s; k_con := k_con s; k_seg := k_seg s;
  k_tf := k_tf s; uctx_pool := uctx_pool s; last_active := last_active s; TRAP_HANDLER := v;
  trap_inited := trap_inited s; started := started s; CR2 := CR2 s |}.
Definition set_trap_inited (v : Z) (s : ksys) : ksys := {| k_thr := k_thr s; k_fs := k_fs s; k_con := k_con s; k_seg := k_seg s;
  k_tf := k_tf s; uctx_pool := uctx_pool s; last_active := last_active s; TRAP_HANDLER := TRAP_HANDLER s;
  trap_inited := v; started := started s; CR2 := CR2 s |}.
Definition set_started (v : Z) (s : ksys) : ksys := {| k_thr := k_thr s; k_fs := k_fs s; k_con := k_con s; k_seg := k_seg s;
  k_tf := k_tf s; uctx_pool := uctx_pool s; last_active := last_active s; TRAP_HANDLER := TRAP_HANDLER s;
  trap_inited := trap_inited s; started := v; CR2 := CR2 s |}.

Definition set_k_con (v : con) (s : ksys) : ksys := {| k_thr := k_thr s; k_fs := k_fs s; k_con := v; k_seg := k_seg s;
  k_tf := k_tf s; uctx_pool := uctx_pool s; last_active := last_active s; TRAP_HANDLER := TRAP_HANDLER s;
  trap_inited := trap_inited s; started := started s; CR2 := CR2 s |}.

Definition set_k_seg (v : seg) (s : ksys) : ksys := {| k_thr := k_thr s; k_fs := k_fs s; k_con := k_con s;
  k_seg := v; k_tf := k_tf s; uctx_pool := uctx_pool s; last_active := last_active s;
  TRAP_HANDLER := TRAP_HANDLER s; trap_inited := trap_inited s; started := started s; CR2 := CR2 s |}.

#[global] Program Instance ksys_thr_lens : Lens ksys thr := {| lget := k_thr; lset := set_k_thr |}.
Next Obligation. done. Qed.
Next Obligation. by intros []. Qed.
Next Obligation. done. Qed.
#[global] Program Instance ksys_fs_lens : Lens ksys fs := {| lget := k_fs; lset := set_k_fs |}.
Next Obligation. done. Qed.
Next Obligation. by intros []. Qed.
Next Obligation. done. Qed.
#[global] Program Instance ksys_con_lens : Lens ksys con := {| lget := k_con; lset := set_k_con |}.
Next Obligation. done. Qed.
Next Obligation. by intros []. Qed.
Next Obligation. done. Qed.
#[global] Program Instance ksys_seg_lens : Lens ksys seg := {| lget := k_seg; lset := set_k_seg |}.
Next Obligation. done. Qed.
Next Obligation. by intros []. Qed.
Next Obligation. done. Qed.
#[global] Program Instance ksys_lg_lens : Lens ksys lg :=
  {| lget := λ s, f_lg (k_fs s); lset := λ v s, set_k_fs (set_f_lg v (k_fs s)) s |}.
Next Obligation. done. Qed.
Next Obligation. by intros [? [] ? ? ? ? ? ? ? ? ?]. Qed.
Next Obligation. done. Qed.
#[global] Program Instance ksys_vmm_lens : Lens ksys vmm :=
  {| lget := λ s, t_vmm (k_thr s); lset := λ v s, set_k_thr (set_t_vmm v (k_thr s)) s |}.
Next Obligation. done. Qed.
Next Obligation. by intros [[] ? ? ? ? ? ? ? ? ? ?]. Qed.
Next Obligation. done. Qed.

Section ops.
Context `{KEnv, KernelLayout, Stack, SysLayout}.

(** ** TSyscallArg *)

Definition tf_get (tf : Z) : M ksys tf_t := aread NUM_IDS k_tf tf.
Definition tf_mod (tf : Z) (f : tf_t → tf_t) : M ksys unit := amod NUM_IDS k_tf set_k_tf tf f.

Definition syscall_get_arg1 (tf : Z) : M ksys Z := let! t := tf_get tf in ret (t_eax t).
Definition syscall_get_arg2 (tf : Z) : M ksys Z := let! t := tf_get tf in ret (t_ebx t).
Definition syscall_get_arg3 (tf : Z) : M ksys Z := let! t := tf_get tf in ret (t_ecx t).
Definition syscall_get_arg4 (tf : Z) : M ksys Z := let! t := tf_get tf in ret (t_edx t).
Definition syscall_get_arg5 (tf : Z) : M ksys Z := let! t := tf_get tf in ret (t_esi t).
Definition syscall_get_arg6 (tf : Z) : M ksys Z := let! t := tf_get tf in ret (t_edi t).

Definition syscall_set_errno (tf errno : Z) : M ksys unit :=
  tf_mod tf (λ t, set_gpr (t_edi t) (t_esi t) (t_ebx t) (t_edx t) (t_ecx t) (u32 errno) t).
Definition syscall_set_retval1 (tf retval : Z) : M ksys unit :=
  tf_mod tf (λ t, set_gpr (t_edi t) (t_esi t) (u32 retval) (t_edx t) (t_ecx t) (t_eax t) t).
Definition syscall_set_retval2 (tf retval : Z) : M ksys unit :=
  tf_mod tf (λ t, set_gpr (t_edi t) (t_esi t) (t_ebx t) (t_edx t) (u32 retval) (t_eax t) t).
Definition syscall_set_retval3 (tf retval : Z) : M ksys unit :=
  tf_mod tf (λ t, set_gpr (t_edi t) (t_esi t) (t_ebx t) (u32 retval) (t_ecx t) (t_eax t) t).
Definition syscall_set_retval4 (tf retval : Z) : M ksys unit :=
  tf_mod tf (λ t, set_gpr (t_edi t) (u32 retval) (t_ebx t) (t_edx t) (t_ecx t) (t_eax t) t).
Definition syscall_set_retval5 (tf retval : Z) : M ksys unit :=
  tf_mod tf (λ t, set_gpr (u32 retval) (t_esi t) (t_ebx t) (t_edx t) (t_ecx t) (t_eax t) t).

Definition curid : M ksys Z := zoom get_curid.

(** ** path.c *)

(** Every element takes a character of the path. *)
Definition namex (path : list Z) (nameiparent : bool) (name : list Z) : M ksys (Z * list Z) :=
  let! c := lift (path !! 0%nat) in
  let! ip := (if s8 c =? SLASH then zoom (inode_get ROOTDEV ROOTINO)
              else
                let! pid := curid in
                let! d := zoom (tcb_get_cwd pid) in
                zoom (inode_dup d)) in
  loop (S (length path)) (λ '(path, name, ip),
    let! r := skipelem path name in
    let '(p, name) := r in
    match p with
    | None =>
      if nameiparent then
        zoom (inode_put ip) ;;;
        ret (inr (0, name))
      else ret (inr (ip, name))
    | Some path =>
      zoom (inode_lock ip) ;;;
      let! ty := zoom (iget ip i_type) in
      if negb (ty =? T_DIR) then
        zoom (inode_unlockput ip) ;;;
        ret (inr (0, name))
      else if nameiparent && (s8 (hd 0 path) =? 0) then
        zoom (inode_unlock ip) ;;;
        ret (inr (ip, name))
      else
        let! d := zoom (dir_lookup ip name 0) in
        zoom (inode_unlockput ip) ;;;
        if d.1 =? 0 then ret (inr (0, name))
        else ret (inl (path, name, d.1))
    end) (path, name, ip).

Definition namei (path : list Z) : M ksys Z :=
  let! r := namex path false (junk DIRSIZ) in ret r.1.
(** The final element is put into [name]. *)
Definition nameiparent (path name : list Z) : M ksys (Z * list Z) := namex path true name.

(** ** sysfile.c *)

Definition kmem : M ksys memory := gets (λ s, mem (t_vmm (k_thr s))).
Definition set_kmem (f : memory → memory) : M ksys unit :=
  modify (λ s, set_k_thr (set_t_vmm (set_mem (f (mem (t_vmm (k_thr s)))) (t_vmm (k_thr s))) (k_thr s)) s).

Definition fs_acquire : M ksys unit := zoom (Sub := lg) (zoom (fzoom fs_lock set_fs_lock Spinlock.spinlock_acquire)).
Definition fs_release : M ksys unit := zoom (Sub := lg) (zoom (fzoom fs_lock set_fs_lock Spinlock.spinlock_release)).

(** [pt_copyin(get_curid(), uva, buf, len)], then what the array contains. *)
Definition copyin_path (uva buf : Z) : M ksys (list Z) :=
  let! pid := curid in
  zoom (pt_copyin pid uva buf PATH_SIZE) ;;;
  let! m := kmem in
  ret (get_bytes m buf PATH_SIZE).

Definition fdalloc (f : Z) : M ksys Z :=
  let! pid := curid in
  let! r := for_exit 0 NOFILE (λ i,
    let! fds := zoom (tcb_get_openfiles pid) in
    if fds !!! i =? 0 then
      zoom (tcb_set_openfiles pid i f) ;;;
      ret (Some i)
    else ret None) in
  ret (default (-1) r).

(** [tcb_get_openfiles(pid)[fd]] *)
Definition open_file (pid fd : Z) : M ksys Z :=
  let! fds := zoom (tcb_get_openfiles pid) in
  if inb NOFILE fd then ret (fds !!! fd) else fault.

(** [syscall_set_errno] and [syscall_set_retval1(tf, -1)] *)
Definition sys_fail (tf errno : Z) : M ksys unit :=
  syscall_set_errno tf errno ;;;
  syscall_set_retval1 tf (-1).

(** The checks that [sys_read] and [sys_write] begin with, with the lock of the file
    system taken on success: the file. *)
Definition sys_rw_file (tf fd user_buf n : Z) : M ksys (option Z) :=
  if n >? KERNEL_BUF_SIZE then sys_fail tf E_BADF ;;; ret None
  else
    fs_acquire ;;;
    if (fd <? 0) || (fd >=? NOFILE) then sys_fail tf E_BADF ;;; fs_release ;;; ret None
    else if (user_buf <? VM_USERLO) || (u32 (user_buf + n) >? VM_USERHI) then
      sys_fail tf E_INVAL_ADDR ;;; fs_release ;;; ret None
    else
      let! pid := curid in
      let! fp := open_file pid fd in
      let! bad := (if fp =? 0 then ret true else let! ip := zoom (fget fp f_ip) in ret (ip =? 0)) in
      if bad then sys_fail tf E_BADF ;;; fs_release ;;; ret None
      else ret (Some fp).

Definition sys_read (tf : Z) : M ksys unit :=
  let! a2 := syscall_get_arg2 tf in
  let! user_buf := syscall_get_arg3 tf in
  let! n := syscall_get_arg4 tf in
  let! r := sys_rw_file tf (s32 a2) user_buf n in
  match r with
  | None => ret tt
  | Some fp =>
    let! rd := zoom (file_read fp (s32 n)) in
    set_kmem (put_bytes kernel_buf rd.2) ;;;
    when (rd.1 >? 0)
      (let! pid := curid in
       zoom (pt_copyout kernel_buf pid user_buf rd.1) ;;; ret tt) ;;;
    syscall_set_retval1 tf rd.1 ;;;
    syscall_set_errno tf E_SUCC ;;;
    fs_release
  end.

Definition sys_write (tf : Z) : M ksys unit :=
  let! a2 := syscall_get_arg2 tf in
  let! user_buf := syscall_get_arg3 tf in
  let! n := syscall_get_arg4 tf in
  let! r := sys_rw_file tf (s32 a2) user_buf n in
  match r with
  | None => ret tt
  | Some fp =>
    let! pid := curid in
    zoom (pt_copyin pid user_buf kernel_buf n) ;;;
    let! m := kmem in
    let! w := zoom (file_write fp (get_bytes m kernel_buf n) (s32 n)) in
    syscall_set_retval1 tf w ;;;
    syscall_set_errno tf E_SUCC ;;;
    fs_release
  end.

Definition sys_close (tf : Z) : M ksys unit :=
  let! fd := syscall_get_arg2 tf in
  let! pid := curid in
  if fd >=? NOFILE then syscall_set_retval1 tf (-1) ;;; syscall_set_errno tf E_BADF
  else
    let! fp := open_file pid fd in
    if fp =? 0 then syscall_set_retval1 tf (-1) ;;; syscall_set_errno tf E_BADF
    else
      zoom (file_close fp) ;;;
      zoom (tcb_set_openfiles pid fd 0) ;;;
      syscall_set_retval1 tf 0 ;;;
      syscall_set_errno tf E_SUCC.

(** [struct file_stat] in memory: the fields at 0, 4, 8, 12 and 16. *)
Definition put_stat (a : Z) (v : Inode.file_stat) (m : memory) : memory :=
  store32 (a + 16) (st_size v) (store16 (a + 12) (st_nlink v) (store32 (a + 8) (st_ino v)
    (store32 (a + 4) (st_dev v) (store16 a (st_type v) m)))).

(** The metadata stays in the variable of the kernel. *)
Definition sys_fstat (tf : Z) : M ksys unit :=
  let! fd := syscall_get_arg2 tf in
  if fd >=? NOFILE then syscall_set_retval1 tf (-1) ;;; syscall_set_errno tf E_BADF
  else
    let! user_stat := syscall_get_arg3 tf in
    if (user_stat <? VM_USERLO) || (u32 (user_stat + FILE_STAT_SIZE) >? VM_USERHI) then
      syscall_set_retval1 tf (-1) ;;; syscall_set_errno tf E_INVAL_ADDR
    else
      let! pid := curid in
      let! fp := open_file pid fd in
      if fp =? 0 then syscall_set_retval1 tf (-1) ;;; syscall_set_errno tf E_BADF
      else
        zoom (pt_copyin pid user_stat (stat_buf pid) FILE_STAT_SIZE) ;;;
        let! st := zoom (file_stat fp) in
        match st with
        | Some v => set_kmem (put_stat (stat_buf pid) v) ;;; syscall_set_retval1 tf 0 ;;; syscall_set_errno tf E_SUCC
        | None => syscall_set_retval1 tf (-1) ;;; syscall_set_errno tf E_BADF
        end.

Definition sys_link (tf : Z) : M ksys unit :=
  let! pid := curid in
  let! a2 := syscall_get_arg2 tf in
  let! old := copyin_path a2 (old_buf pid) in
  let! a3 := syscall_get_arg3 tf in
  let! new := copyin_path a3 (new_buf pid) in
  let! ip := namei old in
  if ip =? 0 then syscall_set_errno tf E_NEXIST
  else
    zoom begin_trans ;;;
    zoom (inode_lock ip) ;;;
    let! ty := zoom (iget ip i_type) in
    if ty =? T_DIR then
      zoom (inode_unlockput ip) ;;;
      zoom commit_trans ;;;
      syscall_set_errno tf E_DISK_OP
    else
      zoom (imod ip (λ x, set_i_nlink (s16 (i_nlink x + 1)) x)) ;;;
      zoom (inode_update ip) ;;;
      zoom (inode_unlock ip) ;;;
      let! r := nameiparent new (junk DIRSIZ) in
      let '(dp, name) := r in
      let! ok :=
        (if dp =? 0 then ret false
         else
           zoom (inode_lock dp) ;;;
           let! ddev := zoom (iget dp i_dev) in
           let! x := zoom (iget ip id) in
           let! l := (if negb (ddev =? i_dev x) then ret (-1) else zoom (dir_link dp name (i_inum x))) in
           zoom (inode_unlockput dp) ;;;
           ret (negb (l <? 0))) in
      if ok : bool then
        zoom (inode_put ip) ;;;
        zoom commit_trans ;;;
        syscall_set_errno tf E_SUCC
      else
        zoom (inode_lock ip) ;;;
        zoom (imod ip (λ x, set_i_nlink (s16 (i_nlink x - 1)) x)) ;;;
        zoom (inode_update ip) ;;;
        zoom (inode_unlockput ip) ;;;
        zoom commit_trans ;;;
        syscall_set_errno tf E_DISK_OP.

Definition isdirempty (dp : Z) : M fs Z :=
  let! size := iget dp i_size in
  loop (dir_fuel size) (λ '(off, de),
    let! size := iget dp i_size in
    if off <? size then
      let! rd := inode_read dp off DIRENT_SIZE in
      let de := overlay rd.2 de in
      when (negb (u32 rd.1 =? DIRENT_SIZE)) KERN_PANIC ;;;
      if negb (de_inum de =? 0) then ret (inr 0) else ret (inl (off + DIRENT_SIZE, de))
    else ret (inr 1)) (2 * DIRENT_SIZE, junk DIRENT_SIZE).

Definition sys_unlink (tf : Z) : M ksys unit :=
  let! pid := curid in
  let! a2 := syscall_get_arg2 tf in
  let! path := copyin_path a2 (path_buf pid) in
  let! r := nameiparent path (junk DIRSIZ) in
  let '(dp, name) := r in
  if dp =? 0 then syscall_set_errno tf E_DISK_OP
  else
    zoom begin_trans ;;;
    zoom (inode_lock dp) ;;;
    let! ok :=
      (let! c1 := zoom (dir_namecmp name [DOT; 0]) in
       let! c2 := (if c1 =? 0 then ret 0 else zoom (dir_namecmp name [DOT; DOT; 0])) in
       if (c1 =? 0) || (c2 =? 0) then ret false
       else
         let! d := zoom (dir_lookup dp name 0) in
         let '(ip, off) := d in
         if ip =? 0 then ret false
         else
           zoom (inode_lock ip) ;;;
           let! x := zoom (iget ip id) in
           when (i_nlink x <? 1) KERN_PANIC ;;;
           let! full := (if i_type x =? T_DIR then let! e := zoom (isdirempty ip) in ret (e =? 0)
                         else ret false) in
           if full : bool then
             zoom (inode_unlockput ip) ;;;
             ret false
           else
             let! w := zoom (inode_write dp (repeat 0 (Z.to_nat DIRENT_SIZE)) off DIRENT_SIZE) in
             when (negb (u32 w =? DIRENT_SIZE)) KERN_PANIC ;;;
             let! ty := zoom (iget ip i_type) in
             when (ty =? T_DIR)
               (zoom (imod dp (λ x, set_i_nlink (s16 (i_nlink x - 1)) x)) ;;;
                zoom (inode_update dp)) ;;;
             zoom (inode_unlockput dp) ;;;
             zoom (imod ip (λ x, set_i_nlink (s16 (i_nlink x - 1)) x)) ;;;
             zoom (inode_update ip) ;;;
             zoom (inode_unlockput ip) ;;;
             zoom commit_trans ;;;
             syscall_set_errno tf E_SUCC ;;;
             ret true) in
    if ok : bool then ret tt
    else
      zoom (inode_unlockput dp) ;;;
      zoom commit_trans ;;;
      syscall_set_errno tf E_DISK_OP.

Definition create (path : list Z) (type major minor : Z) : M ksys Z :=
  let! r := nameiparent path (junk DIRSIZ) in
  let '(dp, name) := r in
  if dp =? 0 then ret 0
  else
    zoom (inode_lock dp) ;;;
    let! d := zoom (dir_lookup dp name 0) in
    let ip := d.1 in
    if negb (ip =? 0) then
      zoom (inode_unlockput dp) ;;;
      zoom (inode_lock ip) ;;;
      let! ty := zoom (iget ip i_type) in
      if (type =? T_FILE) && (ty =? T_FILE) then ret ip
      else
        zoom (inode_unlockput ip) ;;;
        ret 0
    else
      let! dev := zoom (iget dp i_dev) in
      let! ip := zoom (inode_alloc dev type) in
      when (ip =? 0) KERN_PANIC ;;;
      zoom (inode_lock ip) ;;;
      zoom (imod ip (λ x, set_i_nlink 1 (set_i_majmin major minor x))) ;;;
      zoom (inode_update ip) ;;;
      when (type =? T_DIR)
        (zoom (imod dp (λ x, set_i_nlink (s16 (i_nlink x + 1)) x)) ;;;
         zoom (inode_update dp) ;;;
         let! inum := zoom (iget ip i_inum) in
         let! l := zoom (dir_link ip [DOT; 0] inum) in
         let! l2 := (if l <? 0 then ret l
                     else let! dinum := zoom (iget dp i_inum) in zoom (dir_link ip [DOT; DOT; 0] dinum)) in
         when (l2 <? 0) KERN_PANIC) ;;;
      let! inum := zoom (iget ip i_inum) in
      let! l := zoom (dir_link dp name inum) in
      when (l <? 0) KERN_PANIC ;;;
      zoom (inode_unlockput dp) ;;;
      ret ip.

(** The first half of [sys_open]: the locked inode, or 0 after an error. *)
Definition open_inode (tf omode : Z) (path : list Z) : M ksys Z :=
  if nz (Z.land omode O_CREATE) then
    zoom begin_trans ;;;
    let! ip := create path T_FILE 0 0 in
    zoom commit_trans ;;;
    when (ip =? 0) (syscall_set_retval1 tf (-1) ;;; syscall_set_errno tf E_CREATE) ;;;
    ret ip
  else
    let! ip := namei path in
    if ip =? 0 then syscall_set_retval1 tf (-1) ;;; syscall_set_errno tf E_NEXIST ;;; ret 0
    else
      zoom (inode_lock ip) ;;;
      let! ty := zoom (iget ip i_type) in
      if (ty =? T_DIR) && negb (omode =? O_RDONLY) then
        zoom (inode_unlockput ip) ;;;
        syscall_set_retval1 tf (-1) ;;;
        syscall_set_errno tf E_DISK_OP ;;;
        ret 0
      else ret ip.

Definition sys_open (tf : Z) : M ksys unit :=
  let! pid := curid in
  let! a2 := syscall_get_arg2 tf in
  let! path := copyin_path a2 (path_buf pid) in
  let! a3 := syscall_get_arg3 tf in
  let omode := s32 a3 in
  let! ip := open_inode tf omode path in
  if ip =? 0 then ret tt
  else
    let! f := zoom file_alloc in
    let! fd := (if f =? 0 then ret (-1) else fdalloc f) in
    if (f =? 0) || (fd <? 0) then
      when (negb (f =? 0)) (zoom (file_close f)) ;;;
      zoom (inode_unlockput ip) ;;;
      syscall_set_retval1 tf (-1) ;;;
      syscall_set_errno tf E_DISK_OP
    else
      zoom (inode_unlock ip) ;;;
      zoom (fmod f (λ x, {| f_type := FD_INODE; f_ref := f_ref x;
        f_readable := b2z (negb (nz (Z.land omode O_WRONLY)));
        f_writable := b2z (nz (Z.land omode O_WRONLY) || nz (Z.land omode O_RDWR));
        f_ip := ip; f_off := 0 |})) ;;;
      syscall_set_retval1 tf fd ;;;
      syscall_set_errno tf E_SUCC.

Definition sys_mkdir (tf : Z) : M ksys unit :=
  let! pid := curid in
  let! a2 := syscall_get_arg2 tf in
  let! path := copyin_path a2 (path_buf pid) in
  zoom begin_trans ;;;
  let! ip := create path T_DIR 0 0 in
  if ip =? 0 then
    zoom commit_trans ;;;
    syscall_set_errno tf E_DISK_OP
  else
    zoom (inode_unlockput ip) ;;;
    zoom commit_trans ;;;
    syscall_set_errno tf E_SUCC.

Definition sys_chdir (tf : Z) : M ksys unit :=
  let! pid := curid in
  let! a2 := syscall_get_arg2 tf in
  let! path := copyin_path a2 (path_buf pid) in
  let! ip := namei path in
  if ip =? 0 then syscall_set_errno tf E_DISK_OP
  else
    zoom (inode_lock ip) ;;;
    let! ty := zoom (iget ip i_type) in
    if negb (ty =? T_DIR) then
      zoom (inode_unlockput ip) ;;;
      syscall_set_errno tf E_DISK_OP
    else
      zoom (inode_unlock ip) ;;;
      let! d := zoom (tcb_get_cwd pid) in
      zoom (inode_put d) ;;;
      zoom (tcb_set_cwd pid ip) ;;;
      syscall_set_errno tf E_SUCC.

End ops.
