(* ===== verification/WalkSpec.v ===== *)
(** * Walking through directories

    [namex] of kern/fs/path.c: the inode that a path leads to in the directories of the disk,
    with the inode cache and its counts of references in order at every step. *)

From stdpp Require Import functions.
From S2P Require Import Prelude Spinlock Pmmap MAT Container Mem Vmm Thread UserCopy DList Bufcache BufSpec Log LogSpec Crash Inode InodeSpec Dir PathSpec File BlockSpec FileSpec FileRW FileOps DirSpec TruncSpec Console ConsoleSpec Seg Mmu RoundRobin Sysfile.

(** ** Inodes of the disk *)

(** The inode [inum] as the disk has it. *)
Definition node (V : Z → memory) (inum : Z) : inode :=
  get_dinode (V (IBLOCK inum)) {| i_dev := 1; i_inum := inum; i_ref := 0; i_flags := 0; i_type := 0; i_major := 0;
    i_minor := 0; i_nlink := 0; i_size := 0; i_addrs := ∅ |}.

Lemma foldl_insert_lookup (f : Z → Z) (m : gmap Z Z) n i :
  foldl (λ m i, <[i := f i]> m) m (seqZ 0 (Z.of_nat n)) !!! i = if decide (0 ≤ i < Z.of_nat n) then f i else m !!! i.
Proof.
  induction n as [|n IH]; [by rewrite decide_False by lia|].
  replace (seqZ 0 (Z.of_nat (S n))) with (seqZ 0 (Z.of_nat n) ++ [Z.of_nat n]).
  2:{ rewrite Nat2Z.inj_succ, <- Z.add_1_r, seqZ_app by lia. by rewrite Z.add_0_l. }
  rewrite foldl_app. simpl. rewrite lookup_total_insert_dec, IH. case_bool_decide; repeat case_decide; try lia; by subst.
Qed.

Lemma get_dinode_on_disk V x : on_disk V (get_dinode (dino V x) x).
Proof.
  constructor; try done. intros i Hi. unfold get_dinode. cbn [i_addrs i_inum]. change (seqZ 0 (NDIRECT + 1)) with (seqZ 0 (Z.of_nat 13)).
  unfold NDIRECT in Hi. rewrite (foldl_insert_lookup (λ i, load32 (dino V x) (dip (i_inum x) + 12 + 4 * i))), decide_True by lia. done.
Qed.

Lemma node_on_disk V inum : on_disk V (node V inum).
Proof. apply (get_dinode_on_disk V {| i_dev := 1; i_inum := inum; i_ref := 0; i_flags := 0; i_type := 0; i_major := 0;
    i_minor := 0; i_nlink := 0; i_size := 0; i_addrs := ∅ |}). Qed.

(** Two copies of an inode of the disk. *)
Definition alike (x y : inode) : Prop :=
  i_dev x = i_dev y ∧ i_inum x = i_inum y ∧ i_type x = i_type y ∧ i_major x = i_major y ∧ i_minor x = i_minor y ∧
  i_nlink x = i_nlink y ∧ i_size x = i_size y ∧ ∀ i, 0 ≤ i ≤ NDIRECT → i_addrs x !!! i = i_addrs y !!! i.

Lemma on_disk_alike V x y : i_dev x = i_dev y → i_inum x = i_inum y → on_disk V x → on_disk V y → alike x y.
Proof.
  intros Ed Ei [H1 H2 H3 H4 H5 H6] [K1 K2 K3 K4 K5 K6]. unfold dino in *. rewrite Ei in *.
  repeat (split; [congruence|]). intros i Hi. rewrite <- H6, <- K6 by done. done.
Qed.

Section alike.
Context (V : Z → memory) (x y : inode).
Hypothesis Ha : alike x y.

Lemma alike_fblk n : 0 ≤ n → fblk V x n = fblk V y n.
Proof.
  destruct Ha as (_ & _ & _ & _ & _ & _ & _ & E). intros Hn. unfold fblk. rewrite (E NDIRECT) by done.
  destruct (n =? MAXFILE); [done|]. destruct (Z.ltb_spec n NDIRECT); [|done]. apply E. lia.
Qed.

Lemma alike_fbyte o : 0 ≤ o → fbyte V x o = fbyte V y o.
Proof. intros Ho. unfold fbyte. rewrite alike_fblk; [done|]. apply Z.div_pos; [done|done]. Qed.

Lemma alike_ifile g : on_disk V y → ifile g V x → ifile g V y.
Proof.
  intros Hod [[Hdev Hblk Hinj] [Hsz Hsol] _ [Hsh Hs Hadr] Hin Hty]. pose proof Ha as (Ed & Ei & Et & Ema & Emi & En & Es & E).
  constructor; try done.
  - constructor; [congruence| |].
    + intros n Hn. rewrite <- alike_fblk by lia. by apply Hblk.
    + intros n m Hn Hm. rewrite <- !alike_fblk by lia. by apply Hinj.
  - split; [by rewrite <- Es|]. intros m Hm. rewrite <- Es, <- alike_fblk by done. by apply Hsol.
  - constructor; [by rewrite <- Et, <- Ema, <- Emi, <- En|by rewrite <- Es|]. intros i Hi. rewrite <- E by done. by apply Hadr.
  - by rewrite <- Ei.
  - by rewrite <- Et.
Qed.

Lemma alike_dir : dir_inode x → dir_inode y.
Proof. destruct Ha as (_ & _ & Et & _ & _ & _ & Es & _). unfold dir_inode. by rewrite Et, Es. Qed.

Lemma alike_dent k : 0 ≤ k → dent V x k = dent V y k.
Proof.
  intros Hk. unfold dent. apply list_fmap_ext. intros i o Ho. apply alike_fbyte. apply lookup_seqZ in Ho as [-> _].
  unfold DIRENT_SIZE. lia.
Qed.

Lemma alike_nents : nents x = nents y.
Proof. destruct Ha as (_ & _ & _ & _ & _ & _ & Es & _). unfold nents. by rewrite Es. Qed.

End alike.

(** ** The cache between two operations *)

(** An entry in use is not locked, and if it is loaded it is as on the disk. *)
Definition entry_ok (V : Z → memory) (x : inode) : Prop :=
  i_dev x = 1 ∧ (i_flags x = 0 ∨ i_flags x = I_VALID ∧ on_disk V x).

Lemma on_disk_alias V x y : i_inum y = i_inum x → i_type y = i_type x → i_major y = i_major x → i_minor y = i_minor x →
  i_nlink y = i_nlink x → i_size y = i_size x → i_addrs y = i_addrs x → on_disk V x → on_disk V y.
Proof.
  intros Ei E1 E2 E3 E4 E5 E6 []. constructor; unfold dino in *; rewrite Ei; rewrite ?E1, ?E2, ?E3, ?E4, ?E5; try done.
  intros i Hi. rewrite E6. auto.
Qed.

Lemma entry_ref V x r : entry_ok V x → entry_ok V (set_i_ref r x).
Proof. intros [Hd [Hf|[Hf Ho]]]; (split; [done|]); [by left|right]. split; [done|]. by apply (on_disk_alias V x). Qed.

(** A name is what is before the zero. *)
Lemma cstrncmp_tail n p e r : text e → cstrncmp n p (e ++ 0 :: r) = cstrncmp n p (e ++ [0]).
Proof.
  revert n p. induction e as [|c e IH]; intros n p Ht; destruct n as [|n]; try done; destruct p as [|a p]; try done; cbn [cstrncmp app].
  - change (s8 0) with 0. unfold nz. by destruct (s8 a =? 0).
  - apply text_cons in Ht as [_ Ht]. by rewrite IH.
Qed.

Lemma cstrncpy_ends n e r : text e → is_Some (cstrncpy n (e ++ 0 :: r)).
Proof.
  revert n. induction e as [|c e IH]; intros n Ht; destruct n as [|n]; try done. cbn [cstrncpy app].
  apply text_cons in Ht as [_ Ht]. destruct (nz (s8 c)); [|done]. by destruct (IH n Ht) as [l ->].
Qed.

Lemma names_tail V x e r inum : text e → names V x (e ++ 0 :: r) inum ↔ names V x (e ++ [0]) inum.
Proof.
  intros Ht. unfold names, dmatch. setoid_rewrite (cstrncmp_tail (Z.to_nat DIRSIZ) _ e r Ht). done.
Qed.

(** One reference more, or less, to the entry [k]. *)
Definition more (R : Z → Z) (k j : Z) : Z := R j + b2z (j =? k).
Definition less (R : Z → Z) (k j : Z) : Z := R j - b2z (j =? k).

Lemma less_more R k j : less (more R k) k j = R j.
Proof. unfold less, more. lia. Qed.

Lemma more_ne R k j : j ≠ k → more R k j = R j.
Proof. intros Hj. unfold more. rewrite (proj2 (Z.eqb_neq j k)) by done. simpl. lia. Qed.

Lemma more_eq R k : more R k k = R k + 1.
Proof. unfold more. by rewrite Z.eqb_refl. Qed.

(** The entries in use are still for the same inodes. *)
Definition kept (R : Z → Z) (s s' : fs) : Prop :=
  ∀ j, 0 ≤ j < NINODE → 0 < R j → i_inum (slot s' j) = i_inum (slot s j).

Lemma kept_trans R s1 s2 s3 : kept R s1 s2 → kept R s2 s3 → kept R s1 s3.
Proof. intros H12 H23 j Hj Hr. by rewrite H23, H12. Qed.

Lemma kept_more R k s s' : kept (more R k) s s' → kept R s s'.
Proof. intros Hk j Hj Hr. apply Hk; [done|]. unfold more. destruct (j =? k); simpl; lia. Qed.

Lemma kept_all R s s' : (∀ j, i_inum (slot s' j) = i_inum (slot s j)) → kept R s s'.
Proof. intros E j _ _. apply E. Qed.

Section cache.
Context `{KEnv, Stack} (B : txid) (g : geom) (V : Z → memory) (L : gset Z).
Hypothesis Hmagic : ks_magic = KSTACK_MAGIC.
Hypothesis Hg : geom_ok g.
Hypothesis Hsz : Z.of_nat (size L) < NBUF.

(** [R] gives the references to each entry; the entry [b] is locked (none if it is outside of
    the cache). *)
Record icache (b : Z) (R : Z → Z) (s : fs) : Prop := {
  ic_tx : tx B (f_lg s) (g_st g) V L [];
  ic_lock : lock (icache_lock s) = 0;
  ic_unique : unique_cache s;
  ic_refs : ∀ j, 0 ≤ j < NINODE → i_ref (slot s j) = R j;
  ic_entries : ∀ j, 0 ≤ j < NINODE → j ≠ b → 0 < R j → entry_ok V (slot s j);
}.

Lemma icache_ext b R R' s : (∀ j, R j = R' j) → icache b R s → icache b R' s.
Proof. intros E []. constructor; try done; intros j Hj; rewrite <- E; auto. Qed.

(** The same entries. *)
Lemma icache_same b R s s' :
  tx B (f_lg s') (g_st g) V L [] → lock (icache_lock s') = 0 → (∀ j, slot s' j = slot s j) → icache b R s → icache b R s'.
Proof.
  intros Ht Hl E [_ _ Hu Hr He]. constructor; [done|done| | |].
  - intros i j. rewrite !E. apply Hu.
  - intros j. rewrite E. apply Hr.
  - intros j. rewrite E. apply He.
Qed.

(** A free entry or one of the inode. *)
Definition room (R : Z → Z) (s : fs) (inum : Z) : Prop :=
  (∃ i, cached s 1 inum i) ∨ ∃ i, 0 ≤ i < NINODE ∧ R i = 0.

Lemma get_runs b R s inum :
  icache b R s → room R s inum →
  runs (inode_get 1 inum) s (λ ip s', 1 ≤ ip ≤ NINODE ∧ icache b (more R (ip - 1)) s' ∧ i_inum (slot s' (ip - 1)) = inum ∧
    kept R s s' ∧ (0 ≤ b < NINODE → 0 < R b → slot s' b = set_i_ref (more R (ip - 1) b) (slot s b))).
Proof.
  intros Hc Hroom. pose proof Hc as [Ht Hl Hu Hr He].
  destruct (proj1 (runs_eq _ _ _) (inode_get_entry 1 inum s Hmagic Hl ltac:(destruct Hroom as [?|(i & Hi & Hz)];
    [by left|right; exists i; split; [done|by rewrite Hr]]))) as (ip & s' & E & E1 & E2 & Hi & Hent & Hoth).
  apply (runs_of_eq _ _ _ _ _ E). apply unique_inode_get in E; [|done].
  assert (i_ref (slot s' (ip - 1)) = R (ip - 1) + 1 ∧ i_inum (slot s' (ip - 1)) = inum ∧
    (ip - 1 ≠ b → entry_ok V (slot s' (ip - 1))) ∧
    (0 < R (ip - 1) → slot s' (ip - 1) = set_i_ref (R (ip - 1) + 1) (slot s (ip - 1)))) as (Hr' & Hn' & He' & Hb').
  { rewrite <- (Hr (ip - 1) Hi). destruct Hent as [[(_ & Hp & Hd & Hn) ->]|(_ & Hz & ->)].
    - split; [done|]. split; [done|]. split; [|done]. intros Hne. apply entry_ref, (He (ip - 1) Hi Hne). by rewrite <- Hr.
    - rewrite Hz. split; [done|]. split; [done|]. split; [|lia]. intros _. split; [done|by left]. }
  split; [lia|]. split; [constructor|split; [done|split]].
  - by rewrite E1.
  - done.
  - done.
  - intros j Hj. destruct (decide (j = ip - 1)) as [->|Hne]; [by rewrite more_eq|]. rewrite Hoth, more_ne by done. by apply Hr.
  - intros j Hj Hjb. destruct (decide (j = ip - 1)) as [->|Hne]; [intros _; by apply He'|].
    rewrite Hoth, more_ne by done. by apply He.
  - intros j Hj Hpos. destruct (decide (j = ip - 1)) as [->|Hne]; [by rewrite Hb'|by rewrite Hoth].
  - intros Hb Hpos. destruct (decide (b = ip - 1)) as [->|Hne]; [rewrite more_eq; by apply Hb'|].
    rewrite Hoth, more_ne, <- Hr by done. by destruct (slot s b).
Qed.

(** ** Locking an inode that may have to be loaded *)

Section lock.
Context (ip : Z).
Hypothesis Hip : 1 ≤ ip ≤ NINODE.

(** The entry [ip] is locked and loaded: its inode is [x]. *)
Record locked (R : Z → Z) (x : inode) (s : fs) : Prop := {
  lo_cache : icache (ip - 1) R s;
  lo_slot : slot s (ip - 1) = x;
  lo_flags : i_flags x = Z.lor I_BUSY I_VALID;
  lo_dev : i_dev x = 1;
  lo_disk : on_disk V x;
}.

Lemma icache_cached b R s : icache b R s → cachedi B g ip s V L (slot s (ip - 1)).
Proof. intros []. by constructor. Qed.

(** After an operation on the entry [ip] that keeps the number and the references. *)
Lemma icache_entry b b' R R' s s' x :
  icache b R s → cachedi B g ip s' V L x → same_cache ip s s' → i_ref x = R' (ip - 1) → i_dev x = i_dev (slot s (ip - 1)) →
  i_inum x = i_inum (slot s (ip - 1)) → (0 < R' (ip - 1) → 0 < R (ip - 1)) → (∀ j, j ≠ ip - 1 → R' j = R j) →
  (∀ j, 0 ≤ j < NINODE → j ≠ ip - 1 → j ≠ b' → j ≠ b) →
  (b' ≠ ip - 1 → 0 < R' (ip - 1) → entry_ok V x) → icache b' R' s'.
Proof.
  intros [Ht Hl Hu Hr He] [Ht' Hs' Hl'] (_ & _ & Hoth) Er Ed Ei Hpos Hne Hb Hent.
  constructor; [done|done| | |].
  - intros i j Hi Hj. destruct (decide (i = ip - 1)) as [->|Hni], (decide (j = ip - 1)) as [->|Hnj];
      rewrite ?Hs', ?(Hoth i), ?(Hoth j) by done; try done; rewrite ?Er, ?Ed, ?Ei; intros H1 H2; apply Hu; try done;
      rewrite Hr by lia; auto.
  - intros j Hj. destruct (decide (j = ip - 1)) as [->|Hnj]; [by rewrite Hs'|]. rewrite Hoth, Hne by done. by apply Hr.
  - intros j Hj Hjb. destruct (decide (j = ip - 1)) as [->|Hnj].
    + rewrite Hs'. intros ?. apply Hent; [congruence|done].
    + rewrite Hoth, Hne by done. by apply He; [|apply Hb].
Qed.

Lemma same_inum s s' x j : cachedi B g ip s' V L x → same_cache ip s s' → i_inum x = i_inum (slot s (ip - 1)) →
  i_inum (slot s' j) = i_inum (slot s j).
Proof.
  intros [_ Hs _] (_ & _ & Hoth) E. destruct (decide (j = ip - 1)) as [->|Hne]; [by rewrite Hs|by rewrite Hoth].
Qed.

(** An inode that is read from the disk. *)
Lemma inode_load_runs s x :
  cachedi B g ip s V L x → i_flags x = 0 → 1 ≤ i_ref x → i_dev x = 1 → 0 ≤ i_inum x < g_ninodes g →
  i_type (node V (i_inum x)) ≠ 0 →
  runs (inode_lock ip) s (λ _ s', cachedi B g ip s' V L (set_i_flags (Z.lor I_BUSY I_VALID) (get_dinode (dino V x) x)) ∧ same_cache ip s s').
Proof.
  intros Hc Hfl Hr Hdev Hin Hty. pose proof Hc as [_ Hs Hl]. unfold inode_lock. rewrite (proj2 (Z.eqb_neq ip 0)) by lia.
  destruct (iblock_range g _ Hg Hin) as [_ Hib]. pose proof (bmz_start g Hg). pose proof Hg as [_ Hgl _ Hgr].
  assert (blk_ok (g_st g) (IBLOCK (i_inum x))) as Hbo by (unfold LOGSIZE in Hgr; split; [lia|apply out_log; lia]).
  eapply (runs_bind_eq _ _ _ tt s).
  { rewrite (bind_Ret _ _ _ _ _ (iget_run ip Hip i_ref s)), Hs. by rewrite (proj2 (Z.ltb_ge _ _)) by lia. }
  eapply runs_bind_eq; [by apply fzoom_Ret, Spinlock.acquire_free|]. eapply runs_bind_eq; [by apply iget_run|].
  simpl slot. rewrite Hs, Hfl. kif. simpl nz. cbv iota.
  eapply runs_rw; [symmetry; apply bind_assoc|].
  eapply runs_bind_mono; [by apply (flags_runs g ip Hip B s V L x (λ x, set_i_flags (Z.lor (i_flags x) I_BUSY) x) Hc)|].
  intros [] s1 [Hc1 Hs1]. eapply runs_bind_eq; [by apply iget_run|]. rewrite (ca_slot _ _ _ _ _ _ _ Hc1). unfold id. simpl.
  rewrite Hfl. simpl. rewrite Hdev. set (y := set_i_flags _ x) in *. pose proof (cachedi_fx _ _ _ _ _ _ _ Hc1) as Hf1.
  eapply runs_bind_mono; [apply (fx_read B s1 g ip Hmagic _ _ _ _ _ _ Hf1 Hbo); [apply not_elem_of_nil|simpl; lia]|].
  intros bp s2 Hf2. eapply runs_bind_eq; [apply (fx_data B s1 g ip s2 V L _ y bp (IBLOCK (i_inum x)) false Hf2); by left|].
  eapply runs_bind_mono; [apply (fx_imod B s1 g ip Hip _ _ _ _ _ (get_dinode (V (IBLOCK (i_inum x)))) Hf2)|]. intros [] s3 Hf3.
  eapply runs_bind_mono; [apply (fx_release B s1 g ip Hmagic _ _ _ _ _ _ _ Hf3)|]. intros [] s4 Hf4.
  eapply runs_bind_mono; [apply (fx_imod B s1 g ip Hip _ _ _ _ _ (λ x, set_i_flags (Z.lor (i_flags x) I_VALID) x) Hf4)|].
  intros [] s5 Hf5. eapply runs_bind_eq; [apply (fx_iget B s1 g ip Hip _ _ _ _ _ i_type Hf5)|].
  apply Z.eqb_neq in Hty. change (i_type (node V (i_inum x))) with (s16 (load16 (V (IBLOCK (i_inum x))) (dip (i_inum x)))) in Hty.
  cbn [i_type set_i_flags get_dinode]. change (i_inum y) with (i_inum x). rewrite Hty. apply runs_ret.
  destruct (fx_cachedi _ _ _ _ _ _ _ _ _ _ _ _ Hc1 Hf5) as [Hc5 Hs5]. split; [|by eapply same_cache_trans].
  unfold y in Hc5. by rewrite Hfl in Hc5.
Qed.

(** An inode of the disk that a walk may pass: in use, with a name, and in order. *)
Record node_ok (inum : Z) : Prop := {
  nd_inum : 0 ≤ inum < g_ninodes g;
  nd_type : i_type (node V inum) ≠ 0;
  nd_nlink : i_nlink (node V inum) ≠ 0;
  nd_file : i_type (node V inum) = T_DIR → ifile g V (node V inum) ∧ dir_inode (node V inum);
}.

Lemma node_alike x : i_dev x = 1 → on_disk V x → alike (node V (i_inum x)) x.
Proof. intros Hd Ho. apply (on_disk_alike V); [by rewrite Hd|done|apply node_on_disk|done]. Qed.

Lemma lock_runs R s :
  icache (-1) R s → 0 < R (ip - 1) → node_ok (i_inum (slot s (ip - 1))) →
  runs (inode_lock ip) s (λ _ s', ∃ x, locked R x s' ∧ i_inum x = i_inum (slot s (ip - 1)) ∧ ∀ j, i_inum (slot s' j) = i_inum (slot s j)).
Proof.
  intros Hc Hpos Hn. pose proof Hc as [_ _ _ Hr He]. pose proof (icache_cached _ _ _ Hc) as Hci. set (x := slot s (ip - 1)) in *.
  destruct (He (ip - 1)) as [Hd Hf]; [lia|lia|done|]. fold x in Hd, Hf. pose proof (Hr (ip - 1) ltac:(lia)) as Erx. fold x in Erx.
  assert (∀ s' y, cachedi B g ip s' V L y → same_cache ip s s' → i_ref y = i_ref x → i_dev y = i_dev x → i_inum y = i_inum x →
    i_flags y = Z.lor I_BUSY I_VALID → on_disk V y →
    ∃ x', locked R x' s' ∧ i_inum x' = i_inum x ∧ ∀ j, i_inum (slot s' j) = i_inum (slot s j)) as Hfin.
  { intros s' y Hy Hs E1 E2 E3 E4 Ho. exists y. split; [|split; [done|intros j; by apply (same_inum s s' y j Hy Hs)]]. constructor; [|apply Hy|done|congruence|done].
    apply (icache_entry (-1) (ip - 1) R R s s' y Hc Hy Hs); fold x; try done; congruence || lia. }
  destruct Hf as [Hf|[Hf Ho]].
  - eapply runs_mono; [apply (inode_load_runs s x Hci Hf); [lia|done|apply Hn|apply Hn]|]. intros [] s' [Hy Hs].
    eapply Hfin; [exact Hy|exact Hs|done|done|done|done|]. eapply on_disk_alias, get_dinode_on_disk; done.
  - eapply runs_mono; [apply (inode_lock_runs g ip Hmagic Hip B s V L x Hci); split; [done|lia]|]. intros [] s' [Hy Hs].
    eapply Hfin; [exact Hy|exact Hs|done|done|done|done|]. by apply (on_disk_alias V x).
Qed.

Lemma unlock_runs R x s :
  locked R x s → 0 < R (ip - 1) →
  runs (inode_unlock ip) s (λ _ s', icache (-1) R s' ∧ slot s' (ip - 1) = set_i_flags I_VALID x ∧ ∀ j, i_inum (slot s' j) = i_inum (slot s j)).
Proof.
  intros [Hc Hs Hf Hd Ho] Hpos. pose proof Hc as [_ _ _ Hr _]. pose proof (Hr (ip - 1) ltac:(lia)) as Erx. rewrite Hs in Erx.
  pose proof (icache_cached _ _ _ Hc) as Hci. rewrite Hs in Hci.
  eapply runs_mono; [apply (inode_unlock_runs g ip Hmagic Hip B s V L x Hci Hf); lia|]. intros [] s' [Hy Hsm].
  split; [|split; [apply Hy|intros j; rewrite (same_inum s s' _ j Hy Hsm) by (by rewrite Hs); done]].
  apply (icache_entry (ip - 1) (-1) R R s s' _ Hc Hy Hsm); rewrite ?Hs; try done.
  intros _ _. split; [done|]. right. split; [done|]. by apply (on_disk_alias V x).
Qed.

(** Giving up an entry with a name. *)
Lemma put_runs R s :
  icache (-1) R s → 0 < R (ip - 1) → i_nlink (node V (i_inum (slot s (ip - 1)))) ≠ 0 →
  runs (inode_put ip) s (λ _ s', icache (-1) (less R (ip - 1)) s' ∧ ∀ j, i_inum (slot s' j) = i_inum (slot s j)).
Proof.
  intros Hc Hpos Hn. pose proof (icache_cached _ _ _ Hc) as Hci. pose proof (ic_refs _ _ _ Hc (ip - 1) ltac:(lia)) as Er.
  pose proof (ic_entries _ _ _ Hc (ip - 1) ltac:(lia) ltac:(lia) Hpos) as He.
  eapply runs_mono; [apply (inode_put_keeps g ip Hmagic Hip B s V L _ Hci)|].
  { right. destruct He as [Hd [Hf|[_ Ho]]]; [by right|left].
    destruct (node_alike _ Hd Ho) as (_ & _ & _ & _ & _ & <- & _). done. }
  intros [] s2 [Hc2 Hs2]. split; [|intros j; by apply (same_inum s s2 _ j Hc2 Hs2)].
  apply (icache_entry (-1) (-1) R (less R (ip - 1)) s s2 _ Hc Hc2 Hs2); try done.
  - unfold less. rewrite Z.eqb_refl. simpl in *. lia.
  - unfold less. intros j Hj. rewrite (proj2 (Z.eqb_neq j (ip - 1))) by done. simpl. lia.
  - intros _ _. by apply entry_ref.
Qed.

(** One reference more to an entry. *)
Lemma dup_runs R s :
  icache (-1) R s → 0 < R (ip - 1) →
  runs (inode_dup ip) s (λ d s', d = ip ∧ icache (-1) (more R (ip - 1)) s' ∧ ∀ j, i_inum (slot s' j) = i_inum (slot s j)).
Proof.
  intros Hc Hpos. pose proof (icache_cached _ _ _ Hc) as Hci. pose proof (ic_refs _ _ _ Hc (ip - 1) ltac:(lia)) as Er.
  pose proof (ic_entries _ _ _ Hc (ip - 1) ltac:(lia) ltac:(lia) Hpos) as He. pose proof (ic_lock _ _ _ Hc) as Hlk.
  unfold inode_dup. eapply runs_bind_eq; [by apply fzoom_Ret, Spinlock.acquire_free|].
  eapply runs_bind_eq; [by apply imod_run|]. eapply runs_bind_eq; [by apply fzoom_Ret, Spinlock.release_run|]. apply runs_ret.
  split; [done|]. set (x := slot s (ip - 1)) in *. simpl inodes. fold x.
  match goal with |- icache _ _ ?t ∧ _ => set (s' := t) end.
  assert (cachedi B g ip s' V L (set_i_ref (i_ref x + 1) x)) as Hc2.
  { constructor; [apply Hc|simpl; by rewrite lookup_total_insert_eq|done]. }
  assert (same_cache ip s s') as Hs2. { split; [done|]. split; [done|]. intros j Hj. simpl. by rewrite lookup_total_insert_ne. }
  split; [|intros j; by apply (same_inum s s' _ j Hc2 Hs2)].
  apply (icache_entry (-1) (-1) R (more R (ip - 1)) s s' _ Hc Hc2 Hs2); try done.
  - rewrite more_eq. simpl. lia.
  - intros j Hj. by apply more_ne.
  - intros _ _. by apply entry_ref.
Qed.

(** Giving up a locked entry with a name. *)
Lemma unlockput_runs R x s :
  locked R x s → 0 < R (ip - 1) → i_nlink x ≠ 0 → runs (inode_unlockput ip) s (λ _ s', icache (-1) (less R (ip - 1)) s' ∧ ∀ j, i_inum (slot s' j) = i_inum (slot s j)).
Proof.
  intros Hl Hpos Hn. pose proof Hl as [_ _ _ Hd Ho]. unfold inode_unlockput. eapply runs_bind_mono; [by apply unlock_runs|].
  intros [] s1 (Hc1 & Hs1 & Hi1). eapply runs_mono; [apply (put_runs _ _ Hc1 Hpos)|].
  - rewrite Hs1. cbn [i_inum set_i_flags]. by destruct (node_alike _ Hd Ho) as (_ & _ & _ & _ & _ & -> & _).
  - intros [] s2 [Hc2 Hi2]. split; [done|]. intros j. by rewrite Hi2.
Qed.

(** The state of [fx] is that of [icache]. *)
Lemma fx_locked R x s s1 : locked R x s → fx B s g ip s1 V L [] x → locked R x s1.
Proof.
  intros [Hc Hs Hf Hd Ho] [Ht Hs1 (El & _ & _ & Hoth)]. constructor; try done.
  apply (icache_same _ _ s); [done|rewrite El; apply Hc| |done]. intros j. destruct (decide (j = ip - 1)) as [->|Hne]; [congruence|auto].
Qed.

Lemma fx_inums x s s1 : slot s (ip - 1) = x → fx B s g ip s1 V L [] x → ∀ j, i_inum (slot s1 j) = i_inum (slot s j).
Proof.
  intros Hs [_ Hs1 (_ & _ & _ & Hoth)] j. destruct (decide (j = ip - 1)) as [->|Hne]; [by rewrite Hs1, Hs|by rewrite Hoth].
Qed.

Lemma lookup_runs R x name s :
  locked R x s → 0 < R (ip - 1) → ifile g V x → dir_inode x → is_Some (cstrncpy (Z.to_nat DIRSIZ) name) →
  (∃ i, 0 ≤ i < NINODE ∧ R i = 0) →
  runs (dir_lookup ip name 0) s (λ d s',
    kept R s s' ∧
    ((d.1 = 0 ∧ (∀ j, ¬ names V x name j) ∧ locked R x s') ∨
     (1 ≤ d.1 ≤ NINODE ∧ names V x name (i_inum (slot s' (d.1 - 1))) ∧
      locked (more R (d.1 - 1)) (set_i_ref (more R (d.1 - 1) (ip - 1)) x) s'))).
Proof.
  intros Hl Hpos Hif Hdir Hnm Hfree. pose proof Hl as [Hc Hs Hf Hd Ho].
  pose proof (cachedi_fx _ _ _ _ _ _ _ (icache_cached _ _ _ Hc)) as Hfx. rewrite Hs in Hfx.
  apply (dir_lookup_runs B g ip Hmagic Hip Hg s s V L x name 0 _ Hfx Hif Hdir Hsz Hnm).
  - intros s1 Hf1 Hno. split; [by apply kept_all, (fx_inums x)|]. left. split; [done|]. split; [|by apply (fx_locked R x s)]. intros j (i & Hi & Hm & _). by apply (Hno i).
  - intros s1 j Hf1 Hj Hm Hp. pose proof (fx_locked R x s s1 Hl Hf1) as [Hc1 Hs1 _ _ _].
    eapply runs_mono; [apply (get_runs (ip - 1) R s1 _ Hc1); right; done|]. intros ip' s2 (Hip' & Hc2 & Hn & Hk & Hb).
    split; [apply (kept_trans R s s1 s2); [by apply kept_all, (fx_inums x)|done]|]. right.
    split; [done|]. split; [exists j; simpl; by rewrite Hn|]. simpl. constructor; [done| |done|done|].
    + rewrite <- Hs1. apply Hb; [lia|done].
    + by apply (on_disk_alias V x).
Qed.

End lock.
End cache.

(** ** The walk *)

(** From the inode [i], the names lead to an inode, or not: a name is missing, or something
    on the way is not a directory. With [p] the walk ends in the directory in which the last
    name is, and it does not matter if the name is there. *)
Inductive walk (g : geom) (V : Z → memory) (p : bool) : Z → list (list Z) → option Z → Prop :=
| walk_end i : p = false → walk g V p i [] (Some i)
| walk_nothing i : p = true → i_nlink (node V i) ≠ 0 → walk g V p i [] None
| walk_file i e es : node_ok g V i → i_type (node V i) ≠ T_DIR → walk g V p i (e :: es) None
| walk_parent i e : p = true → node_ok g V i → i_type (node V i) = T_DIR → walk g V p i [e] (Some i)
| walk_missing i e es : p = false ∨ es ≠ [] → node_ok g V i → i_type (node V i) = T_DIR →
    (∀ j, ¬ names V (node V i) (e ++ [0]) j) → walk g V p i (e :: es) None
| walk_step i e es j r : p = false ∨ es ≠ [] → node_ok g V i → i_type (node V i) = T_DIR →
    names V (node V i) (e ++ [0]) j → walk g V p j es r → walk g V p i (e :: es) r.

(** A name leads to one inode only. *)
Lemma names_unique V x name i j : names V x name i → names V x name j → i = j.
Proof.
  intros (a & Ha & Hma & Hpa & <-) (b & Hb & Hmb & Hpb & <-). destruct (Z.lt_trichotomy a b) as [Hlt|[->|Hlt]]; [|done|].
  - by destruct (Hpb a ltac:(lia)).
  - by destruct (Hpa b ltac:(lia)).
Qed.

(** What a walk makes of the first name. *)
Lemma walk_cases g V p i e es r : walk g V p i (e :: es) r →
  node_ok g V i ∧ (i_type (node V i) ≠ T_DIR ∧ r = None ∨ i_type (node V i) = T_DIR ∧
    (p = true ∧ es = [] ∧ r = Some i ∨ (p = false ∨ es ≠ []) ∧
      ((∀ j, ¬ names V (node V i) (e ++ [0]) j) → r = None) ∧ ∀ j, names V (node V i) (e ++ [0]) j → walk g V p j es r)).
Proof.
  inversion 1 as [| |? ? ? Hok Hn|? ? Hp Hok Hd|? ? ? Hp Hok Hd Hno|? ? ? j' ? Hp Hok Hd Hj' Hw']; subst; (split; [done|]).
  - by left.
  - right. split; [done|]. by left.
  - right. split; [done|]. right. split; [done|]. split; [done|]. intros j Hj. by destruct (Hno j).
  - right. split; [done|]. right. split; [done|]. split; [intros Hno; by destruct (Hno j')|].
    intros j Hj. by rewrite (names_unique _ _ _ _ _ Hj Hj').
Qed.

Lemma alike_names V x y name j : alike x y → names V x name j → names V y name j.
Proof.
  intros Ha (k & Hk & Hm & Hp & E). exists k. rewrite <- (alike_nents x y Ha), <- (alike_dent V x y Ha) by lia.
  split; [done|]. split; [done|]. split; [|done]. intros i Hi. rewrite <- (alike_dent V x y Ha) by lia. by apply Hp.
Qed.

Lemma alike_sym x y : alike x y → alike y x.
Proof. intros (E1 & E2 & E3 & E4 & E5 & E6 & E7 & E8). repeat (split; [done|]). intros i Hi. by rewrite E8. Qed.

Section namex.
Context `{KEnv, Stack} (B : txid) (g : geom) (V : Z → memory) (L : gset Z) (R : Z → Z).
Hypothesis Hmagic : ks_magic = KSTACK_MAGIC.
Hypothesis Hg : geom_ok g.
Hypothesis Hsz : Z.of_nat (size L) < NBUF.
Hypothesis Hnonneg : ∀ j, 0 ≤ R j.

(** Two entries are free: one for an inode and one for the next. *)
Hypothesis Hfree : ∃ a b, 0 ≤ a < NINODE ∧ 0 ≤ b < NINODE ∧ a ≠ b ∧ R a = 0 ∧ R b = 0.

Abbreviation icache := (icache B g V L (-1)).

Lemma free_one k : ∃ i, 0 ≤ i < NINODE ∧ more R k i = 0.
Proof.
  destruct Hfree as (a & b & Ha & Hb & Hab & Ea & Eb). destruct (decide (a = k)) as [->|Hne]; [exists b|exists a];
    (split; [done|]); by rewrite more_ne.
Qed.

Lemma more_pos k : 0 < more R k k.
Proof. rewrite more_eq. specialize (Hnonneg k). lia. Qed.

(** What a walk ends with: the inode [j] with one reference more, or no inode. *)
Definition arrived (r : option Z) (ip : Z) (s : fs) : Prop :=
  match r with
  | Some j => 1 ≤ ip ≤ NINODE ∧ icache (more R (ip - 1)) s ∧ i_inum (slot s (ip - 1)) = j
  | None => ip = 0 ∧ icache R s
  end.

(** One round of [namex]. *)
Definition namex_round (p : bool) : list Z * list Z * Z → M ksys (list Z * list Z * Z + Z * list Z) :=
  λ '(path, name, ip),
    let! r := skipelem path name in
    let '(q, name) := r in
    match q with
    | None =>
      if p then
        zoom (inode_put ip) ;;;
        ret (inr (0, name))
      else ret (inr (ip, name))
    | Some path =>
      zoom (inode_lock ip) ;;;
      let! ty := zoom (iget ip i_type) in
      if negb (ty =? T_DIR) then
        zoom (inode_unlockput ip) ;;;
        ret (inr (0, name))
      else if p && (s8 (hd 0 path) =? 0) then
        zoom (inode_unlock ip) ;;;
        ret (inr (ip, name))
      else
        let! d := zoom (dir_lookup ip name 0) in
        zoom (inode_unlockput ip) ;;;
        if d.1 =? 0 then ret (inr (0, name))
        else ret (inl (path, name, d.1))
    end.

(** The file system inside of the kernel. *)
Lemma fs_bind {A C} (m : M fs A) (k : A → M ksys C) s Q (P : C → ksys → Prop) :
  runs m (k_fs s) Q → (∀ a f, Q a f → runs (k a) (set_k_fs f s) P) → runs (bind (zoom m) k) s P.
Proof.
  intros Hm Hk. apply runs_bind, (runs_zoom (Sub := fs)). by eapply runs_mono; [exact Hm|].
Qed.

(** The entry [ip] is given up; the others are as before. *)
Lemma put_less (ip : Z) R' s : icache (less (more R' (ip - 1)) (ip - 1)) s → icache R' s.
Proof. intros Hc. eapply icache_ext; [|exact Hc]. intros j. apply less_more. Qed.

(** An inode is locked, and its type looked at. *)
Lemma enter_runs {C} ip s (k : Z → M ksys C) P :
  1 ≤ ip ≤ NINODE → icache (more R (ip - 1)) (k_fs s) → node_ok g V (i_inum (slot (k_fs s) (ip - 1))) →
  (∀ x f, locked B g V L ip (more R (ip - 1)) x f → i_inum x = i_inum (slot (k_fs s) (ip - 1)) →
    i_type (node V (i_inum x)) = i_type x → i_nlink x ≠ 0 → kept R (k_fs s) f → runs (k (i_type x)) (set_k_fs f s) P) →
  runs (zoom (inode_lock ip) ;;; let! ty := zoom (iget ip i_type) in k ty) s P.
Proof.
  intros Hip Hc Hok Hk. pose proof (more_pos (ip - 1)) as Hpos.
  eapply fs_bind; [by apply (lock_runs B g V L Hmagic Hg Hsz ip Hip (more R (ip - 1)))|]. intros [] f1 (x & Hl & Ex & Hk1).
  pose proof Hl as [_ Hs1 _ Hd Ho]. pose proof (node_alike V x Hd Ho) as Hal.
  eapply (fs_bind _ _ _ (λ v f, v = i_type (slot f1 (ip - 1)) ∧ f = f1)); [by eapply runs_of_eq; [apply (iget_run ip Hip i_type)|]|].
  intros ty f [-> ->]. rewrite Hs1. apply Hk; [done|done|apply Hal| |by apply kept_all].
  destruct Hal as (_ & _ & _ & _ & _ & <- & _). rewrite Ex. apply Hok.
Qed.

(** A directory is searched, and its entry given up for the one that is found. *)
Lemma search_runs {C} ip x name e s (k : Z → M ksys C) P :
  1 ≤ ip ≤ NINODE → locked B g V L ip (more R (ip - 1)) x (k_fs s) → text e → i_type x = T_DIR → node_ok g V (i_inum x) →
  (∀ f, icache R f → kept R (k_fs s) f → (∀ j, ¬ names V (node V (i_inum x)) (e ++ [0]) j) → runs (k 0) (set_k_fs f s) P) →
  (∀ d f, 1 ≤ d ≤ NINODE → icache (more R (d - 1)) f → kept R (k_fs s) f →
    names V (node V (i_inum x)) (e ++ [0]) (i_inum (slot f (d - 1))) → runs (k d) (set_k_fs f s) P) →
  runs (let! d := zoom (dir_lookup ip (overlay (e ++ [0]) name) 0) in zoom (inode_unlockput ip) ;;; k d.1) s P.
Proof.
  intros Hip Hl Hte Edir Hok Hno Hyes. pose proof Hl as [_ _ _ Hd Ho]. pose proof (node_alike V x Hd Ho) as Hal.
  assert (i_nlink x ≠ 0) as Hnl by (destruct Hal as (_ & _ & _ & _ & _ & <- & _); apply Hok).
  assert (i_type (node V (i_inum x)) = i_type x) as Ety by apply Hal. pose proof (more_pos (ip - 1)) as Hpos.
  destruct (nd_file _ _ _ Hok ltac:(congruence)) as [Hif Hdi]. apply (alike_ifile V _ _ Hal g Ho) in Hif. apply (alike_dir _ _ Hal) in Hdi.
  set (nm := overlay (e ++ [0]) name). assert (nm = e ++ 0 :: drop (length (e ++ [0])) name) as Enm
    by (unfold nm, overlay; by rewrite <- app_assoc).
  assert (∀ j, names V x nm j ↔ names V (node V (i_inum x)) (e ++ [0]) j) as Hnm.
  { intros j. rewrite Enm, names_tail by done. split; apply alike_names; [by apply alike_sym|done]. }
  eapply fs_bind.
  { apply (lookup_runs B g V L Hmagic Hg Hsz ip Hip (more R (ip - 1)) x nm (k_fs s) Hl Hpos Hif Hdi); [|apply free_one].
    rewrite Enm. by apply cstrncpy_ends. }
  intros [d o] f2 (Hk2%kept_more & [(Hd0 & Hn2 & Hl2)|(Hd2 & Hnj & Hl2)]); simpl in *.
  - subst d. eapply fs_bind; [by eapply unlockput_runs|]. intros [] f3 [Hc3 Hi3].
    apply Hno; [by apply (put_less ip)|by eapply kept_trans, kept_all|].
    intros j Hj. by eapply Hn2, Hnm.
  - eapply fs_bind; [apply (unlockput_runs B g V L Hmagic ip Hip _ _ _ Hl2); [|done]|].
    { unfold more at 1. destruct (_ =? d - 1); cbn [b2z]; lia. }
    intros [] f3 [Hc3 Hi3]. rewrite <- Hi3 in Hnj. apply Hnm in Hnj. apply Hyes; [done| |by eapply kept_trans, kept_all|done].
    simpl. eapply icache_ext; [|exact Hc3]. intros j. unfold less, more. lia.
Qed.

(** The result of [namex]: only the file system changes; the last name goes into [name]. *)
Definition namex_result (p : bool) (t : list Z) (r : option Z) (s : ksys) (v : Z * list Z) (s' : ksys) : Prop :=
  s' = set_k_fs (k_fs s') s ∧ arrived r v.1 (k_fs s') ∧ kept R (k_fs s) (k_fs s') ∧
  (p = true → is_Some r → ∃ e, last (elements t) = Some e ∧ c_string v.2 = cut e).

Lemma last_cons_nonempty {A} (x : A) l : l ≠ [] → last (x :: l) = last l.
Proof. by destruct l. Qed.

Lemma namex_loop p n t rest name ip s r :
  text t → (length t < n)%nat → 1 ≤ ip ≤ NINODE → icache (more R (ip - 1)) (k_fs s) →
  walk g V p (i_inum (slot (k_fs s) (ip - 1))) (cut <$> elements t) r →
  runs (loop n (namex_round p) (t ++ 0 :: rest, name, ip)) s (namex_result p t r s).
Proof.
  revert t name ip s. induction n as [|n IH]; intros t name ip s Ht Hn Hip Hc Hw; [lia|]. apply loop_S. unfold namex_round at 1.
  pose proof (skipelem_spec t rest name s Ht) as Hsk. pose proof (more_pos (ip - 1)) as Hpos. destruct (elements t) as [|e es] eqn:Ee.
  { eapply runs_bind_eq; [exact Hsk|]. simpl fmap in Hw. inversion Hw as [? Hp|? Hp Hnl| | | |]; subst.
    - apply runs_ret. by split; [destruct s|split].
    - eapply fs_bind; [by eapply put_runs|]. intros [] f [Hf Hi]. apply runs_ret. split; [done|].
      split; [|split; [by apply kept_all|by intros _ []]]. split; [done|]. by apply (put_less ip). }
  destruct Hsk as (t' & Esk & Ees & Ht' & Hlen & Hnil). eapply runs_bind_eq; [exact Esk|]. cbv beta iota.
  assert (text (cut e)) as Hte.
  { apply text_cut, (text_pieces [] t); [intros d Hd; by apply not_elem_of_nil in Hd|done|]. unfold elements in Ee. rewrite Ee. left. }
  set (i := i_inum (slot (k_fs s) (ip - 1))) in *. simpl fmap in Hw. apply walk_cases in Hw as [Hok Hcases].
  apply enter_runs; [done|done|done|]. intros x f1 Hl Ex Ety Hnl Hk1. pose proof (lo_slot _ _ _ _ _ _ _ _ Hl) as Hs1.
  fold i in Ex. rewrite <- Ety, Ex. destruct Hcases as [[Hnd ->]|[Edir Hcases]].
  { rewrite (proj2 (Z.eqb_neq _ _) Hnd). simpl negb. cbv iota. eapply fs_bind; [by eapply unlockput_runs|]. intros [] f2 [Hc2 Hi2].
    apply runs_ret. split; [done|]. split; [|split; [by eapply kept_trans, kept_all|by intros _ []]]. split; [done|].
    by apply (put_less ip). }
  rewrite Edir. simpl negb. cbv iota. destruct Hcases as [(-> & Hes & ->)|(Hp & Hno & Hyes)].
  { apply fmap_nil_inv in Hes as ->. rewrite (proj2 Hnil eq_refl). simpl. eapply fs_bind; [by eapply unlock_runs|].
    intros [] f2 (Hc2 & _ & Hi2). apply runs_ret. split; [done|]. split; [|split; [by eapply kept_trans, kept_all|]].
    - split; [done|]. split; [done|]. simpl. rewrite Hi2. simpl. congruence.
    - intros _ _. exists e. split; [by rewrite Ee|]. by apply c_string_overlay. }
  assert (p && (s8 (hd 0 (t' ++ 0 :: rest)) =? 0) = false) as ->.
  { destruct Hp as [->|Hp]; [done|]. destruct t' as [|c t']; [by rewrite (proj1 Hnil eq_refl) in Hp|].
    apply text_cons in Ht' as [Hc0 _]. simpl. rewrite (proj2 (Z.eqb_neq _ _) Hc0). apply andb_false_r. }
  apply (search_runs ip x name (cut e) (set_k_fs f1 s) (λ d, if d =? 0 then ret (inr (0, overlay (cut e ++ [0]) name))
    else ret (inl (t' ++ 0 :: rest, overlay (cut e ++ [0]) name, d)))); [done|done|done|congruence|congruence|rewrite Ex|rewrite Ex].
  - intros f Hf Hk2 Hnn. rewrite (Hno Hnn). apply runs_ret. split; [done|]. split; [done|].
    split; [by eapply kept_trans|by intros _ []].
  - intros d f Hd Hf Hk2 Hnj. rewrite (proj2 (Z.eqb_neq d 0)) by lia. apply runs_ret.
    eapply runs_mono; [apply IH; [done|lia|done|done|]|].
    + rewrite Ees. by apply Hyes.
    + intros v s' (E & Ha & Hk3 & Hlast). split; [by rewrite E; destruct s|]. split; [done|].
      split; [apply (kept_trans R _ f1); [done|]; by eapply kept_trans|]. intros Hp1 Hr.
      destruct (Hlast Hp1 Hr) as (e' & El & Ec). exists e'. split; [|done]. rewrite Ee, <- Ees, last_cons_nonempty; [done|].
      by intros E0; rewrite E0 in El.
Qed.

(** Where a path begins: at the root, or at the current directory of the process. *)
Definition starts (t : list Z) (s : ksys) (i : Z) : Prop :=
  if s8 (hd 0 t) =? SLASH then i = ROOTINO
  else ∃ pid d, curid s = Ret (pid, s) ∧ tcb_get_cwd pid (k_thr s) = Ret (d, k_thr s) ∧ 1 ≤ d ≤ NINODE ∧ 0 < R (d - 1) ∧
    i = i_inum (slot (k_fs s) (d - 1)).

Lemma starts_runs {C} t rest s i (k : Z → M ksys C) P :
  icache R (k_fs s) → starts t s i →
  (∀ ip f, 1 ≤ ip ≤ NINODE → icache (more R (ip - 1)) f → i_inum (slot f (ip - 1)) = i → kept R (k_fs s) f → runs (k ip) (set_k_fs f s) P) →
  runs (let! c := lift ((t ++ 0 :: rest) !! 0%nat) in
    let! ip := (if s8 c =? SLASH then zoom (inode_get ROOTDEV ROOTINO)
                else
                  let! pid := curid in
                  let! d := zoom (tcb_get_cwd pid) in
                  zoom (inode_dup d)) in k ip) s P.
Proof.
  intros Hc Hst Hk. eapply (runs_bind_eq _ _ _ (hd 0 t) s); [by destruct t|]. unfold starts in Hst.
  destruct (s8 (hd 0 t) =? SLASH).
  - subst i. eapply fs_bind; [apply (get_runs B g V L Hmagic (-1) R (k_fs s) ROOTINO Hc)|].
    + right. destruct Hfree as (a & _ & Ha & _ & _ & Ea & _). by exists a.
    + intros ip f (Hip & Hf & Ei & Hkf & _). by apply Hk.
  - destruct Hst as (pid & d & E1 & E2 & Hd & Hpos & ->). apply runs_bind. eapply runs_bind_eq; [exact E1|].
    eapply runs_bind_eq; [exact (zoom_read (Sub := thr) _ s _ E2)|]. apply (runs_zoom (Sub := fs)).
    eapply runs_mono; [by apply (dup_runs B g V L Hmagic d Hd R)|]. intros ip f (-> & Hf & Hi). apply Hk; try done. by apply kept_all.
Qed.

Lemma namex_runs p t rest name s i r :
  text t → icache R (k_fs s) → starts t s i → walk g V p i (cut <$> elements t) r →
  runs (namex (t ++ 0 :: rest) p name) s (namex_result p t r s).
Proof.
  intros Ht Hc Hst Hw. unfold namex. apply (starts_runs t rest s i _ _ Hc Hst). intros ip f Hip Hf Ei Hkf.
  eapply runs_mono; [apply (namex_loop p _ t rest name ip (set_k_fs f s) r Ht); [|done|done|by simpl; rewrite Ei]|].
  - rewrite length_app. simpl. lia.
  - intros v s' (E & Ha & Hkl & Hl). split; [by rewrite E; destruct s|]. split; [done|]. split; [by eapply kept_trans|done].
Qed.

(** C11: A path leads to the inode that the directories of the disk give for it. [namex]
    starts at the root or at the current directory of the process, takes the names of the
    path one after the other, each cut to 13 bytes, and looks each of them up in the
    directory that the names before it lead to. If there is such an inode, its entry of the
    cache is returned, not locked, with one reference more; if a name is missing, or
    something on the way is no directory, 0 is returned. All other counts of references are
    as before in either case, so none is leaked, the entries in use keep their inodes, and
    nothing else changes in the kernel. For
    [nameiparent] the walk ends in the directory of the last name, and this name is left in
    the buffer of the caller. *)
Theorem namex_walks p t rest name s i r :
  text t → icache R (k_fs s) → starts t s i → walk g V p i (cut <$> elements t) r →
  runs (namex (t ++ 0 :: rest) p name) s (namex_result p t r s).
Proof. apply namex_runs. Qed.

End namex.

(** ** An example disk *)

(** The root directory has two entries: the file [a], inode 5, and the empty directory [d],
    inode 6. *)
Definition walk_disk : gmap (Z * Z) memory :=
  <[(1, 29) := store8 18 100 (store16 16 6 (store8 2 97 (store16 0 5 ∅)))]>
  (<[(1, 28) := foldl set_bit ∅ (seqZ 0 30 ++ seqZ 990 10)]>
  (<[(1, 2) := store16 390 1 (store16 384 1 (store16 326 1 (store16 320 2
    (store32 76 29 (store32 72 32 (store16 70 1 (store16 64 1 ∅)))))))]>
  {[ (1, 1) := demo_sb ]})).
Definition walk_bc : bc := {| d_disk := walk_disk; d_writes := []; d_regs := ∅; d_fail := false;
  ide_lk := zero_lk; fs_lock := zero_lk; idequeue := NULL; havedisk1 := 0; bcache_lock := zero_lk; bufs := ∅ |}.
Definition walk_lg : lg := {| l_bc := walk_bc; log_lock := zero_lk; log_start := 0; log_size := 0;
  log_busy := 0; log_dev := 0; lh_n := 0; lh_sector := ∅ |}.
Definition walk_view (x : Z) : memory := apply_writes (recovery_writes walk_disk 990 []) walk_disk !!! (1, x).

Lemma walk_boot : ∃ l, tx None l 990 walk_view ∅ [].
Proof.
  assert (runs (@boot demo_env) walk_lg (λ _ l, tx None l 990 walk_view ∅ [])) as Hr.
  { eapply runs_mono; [apply (@boot_runs demo_env eq_refl walk_lg 990 [])|].
    - done.
    - vm_compute. split; [reflexivity|]. split; [reflexivity|]. split; [reflexivity|]. discriminate.
    - constructor; [reflexivity|vm_compute; discriminate|done].
    - split; [constructor|by intros x ?%elem_of_nil].
    - intros [] l (Hlg & Hp & Hb & Hl & Hd & _).
      exists [], ∅, ∅. constructor; try done; [constructor|]. intros x Hx _. unfold view. simpl. rewrite Hd. done. }
  destruct (proj1 (runs_eq _ _ _) Hr) as (_ & l & _ & Hl). by exists l.
Qed.

Lemma walk_root_fblk n : 0 ≤ n ≤ MAXFILE → fblk walk_view (node walk_view 1) n = if n =? 0 then 29 else 0.
Proof.
  assert (Forall (λ i, i_addrs (node walk_view 1) !!! i = if i =? 0 then 29 else 0) (seqZ 0 13)) as Hall.
  { apply (bool_decide_unpack _). by vm_compute. }
  assert (∀ i, 0 ≤ i ≤ NDIRECT → i_addrs (node walk_view 1) !!! i = if i =? 0 then 29 else 0) as Ha.
  { intros i Hi. apply (proj1 (Forall_forall _ _) Hall). apply elem_of_seqZ. unfold NDIRECT in Hi. lia. }
  intros Hn. unfold fblk. rewrite (Ha NDIRECT) by done. simpl. destruct (Z.eqb_spec n MAXFILE) as [->|Hm]; [done|].
  destruct (Z.ltb_spec n NDIRECT) as [Hlt|Hge]; [apply Ha; lia|]. unfold NDIRECT in Hge. by rewrite (proj2 (Z.eqb_neq n 0)) by lia.
Qed.

Lemma walk_root_ok : node_ok demo_geom walk_view 1.
Proof.
  constructor; [done|by vm_compute|by vm_compute|]. intros _. split; [|by vm_compute].
  constructor; [constructor| |apply node_on_disk|constructor|done|by vm_compute].
  - done.
  - intros n Hn. rewrite walk_root_fblk by done. destruct (n =? 0); [|done]. intros _. split; [done|]. split; [|by vm_compute].
    vm_compute. intuition discriminate.
  - intros n m Hn Hm. rewrite !walk_root_fblk by done. destruct (Z.eqb_spec n 0), (Z.eqb_spec m 0); try done. lia.
  - split; [by vm_compute|]. change (i_size (node walk_view 1)) with 32. intros m H1 H2. unfold BSIZE in H2.
    rewrite walk_root_fblk by (change MAXFILE with 140; lia). by rewrite (proj2 (Z.eqb_eq m 0)) by lia.
  - repeat constructor; by vm_compute.
  - by vm_compute.
  - assert (Forall (λ i, 0 ≤ i_addrs (node walk_view 1) !!! i < W32) (seqZ 0 13)) as Hall by (apply (bool_decide_unpack _); by vm_compute).
    intros i Hi. apply (proj1 (Forall_forall _ _) Hall). apply elem_of_seqZ. unfold NDIRECT in Hi. lia.
Qed.

Lemma walk_sub_fblk n : 0 ≤ n ≤ MAXFILE → fblk walk_view (node walk_view 6) n = 0.
Proof.
  assert (Forall (λ i, i_addrs (node walk_view 6) !!! i = 0) (seqZ 0 13)) as Hall.
  { apply (bool_decide_unpack _). by vm_compute. }
  assert (∀ i, 0 ≤ i ≤ NDIRECT → i_addrs (node walk_view 6) !!! i = 0) as Ha.
  { intros i Hi. apply (proj1 (Forall_forall _ _) Hall). apply elem_of_seqZ. unfold NDIRECT in Hi. lia. }
  intros Hn. unfold fblk. rewrite (Ha NDIRECT) by done. simpl. destruct (n =? MAXFILE); [done|].
  destruct (Z.ltb_spec n NDIRECT) as [Hlt|Hge]; [apply Ha; lia|done].
Qed.

Lemma walk_sub_ok : node_ok demo_geom walk_view 6.
Proof.
  constructor; [done|by vm_compute|by vm_compute|]. intros _. split; [|by vm_compute].
  constructor; [constructor| |apply node_on_disk|constructor|done|by vm_compute].
  - done.
  - intros n Hn. by rewrite walk_sub_fblk.
  - intros n m Hn _. by rewrite walk_sub_fblk.
  - split; [by vm_compute|]. change (i_size (node walk_view 6)) with 0. intros m H1 H2. unfold BSIZE in H2. lia.
  - repeat constructor; by vm_compute.
  - by vm_compute.
  - assert (Forall (λ i, 0 ≤ i_addrs (node walk_view 6) !!! i < W32) (seqZ 0 13)) as Hall by (apply (bool_decide_unpack _); by vm_compute).
    intros i Hi. apply (proj1 (Forall_forall _ _) Hall). apply elem_of_seqZ. unfold NDIRECT in Hi. lia.
Qed.

(** ["/a"] *)
Lemma namex_walks_witness : ∃ l,
  let s := {| k_thr := demo_thr0; k_fs := {| f_lg := l; icache_lock := zero_lk; inodes := ∅; ftable_lock := zero_lk; files := ∅ |};
     k_con := demo_con; k_seg := {| kstacks := ∅; GDTR := 0; TR := 0 |}; k_tf := ∅; uctx_pool := ∅; last_active := ∅;
     TRAP_HANDLER := ∅; trap_inited := 1; started := 1; CR2 := 0 |} in
  runs (@namex demo_env demo_stack [47; 97; 0] false []) s (λ v s', 1 ≤ v.1 ≤ NINODE ∧ i_ref (slot (k_fs s') (v.1 - 1)) = 1 ∧ i_inum (slot (k_fs s') (v.1 - 1)) = 5).
Proof.
  destruct walk_boot as [l Hl]. exists l. cbv zeta. eapply runs_mono.
  - apply (@namex_walks demo_env demo_stack None demo_geom walk_view ∅ (λ _, 0) eq_refl demo_geom_ok ltac:(by vm_compute) ltac:(done)
      ltac:(by exists 0, 1; unfold NINODE; repeat split; lia) false [47; 97] [] [] _ 1 (Some 5)).
    + intros c Hc. apply list_elem_of_In in Hc. repeat (destruct Hc as [<-|Hc]; [discriminate|]). destruct Hc.
    + by constructor.
    + reflexivity.
    + eapply (walk_step _ _ _ _ _ _ 5); [by left|apply walk_root_ok|by vm_compute| |by constructor].
      exists 0. split; [by vm_compute|]. split; [by vm_compute|]. split; [lia|by vm_compute].
  - intros v s' (_ & (Hv & Hc & Hi) & _ & _). split; [done|]. split; [|done]. rewrite (ic_refs _ _ _ _ _ _ _ Hc) by lia.
    by rewrite more_eq.
Defined.
