(* ===== verification/Printf.v ===== *)
(** * Formatted output

    kern/lib/printfmt.c and its copy user/lib/printfmt.c: [vprintfmt]; user/lib/atoi.c.
    The arguments are the 32-bit words that [va_arg] takes from the stack; a string
    argument is an address in the memory. *)

From S2P Require Import Prelude Mem.

(** The characters printed, and the arguments left. *)
Record pst := { out : list Z; ap : list Z }.
Definition set_out (v : list Z) (s : pst) : pst := {| out := v; ap := ap s |}.
Definition set_ap (v : list Z) (s : pst) : pst := {| out := out s; ap := v |}.

Definition putch (c : Z) : M pst unit := modify (λ s, set_out (out s ++ [c]) s).
Fixpoint putn (n : nat) (c : Z) : M pst unit :=
  match n with O => ret tt | S n' => putch c ;;; putn n' c end.

(** A missing argument is undefined behaviour. *)
Definition va_word : M pst Z := λ s,
  match ap s with [] => Fault | w :: r => Ret (u32 w, set_ap r s) end.

Definition W64 : Z := 18446744073709551616.
Definition u64 (z : Z) : Z := z mod W64.
Definition s64 (z : Z) : Z := (z + 9223372036854775808) mod W64 - 9223372036854775808.

(** ["0123456789abcdef"[d]] *)
Definition digit (d : Z) : Z := if d <? 10 then 48 + d else 87 + d.

(** The recursion goes down with the digits of [num], which are at most 64. *)
Fixpoint printnum (fuel : nat) (num base width padc : Z) : M pst unit :=
  match fuel with
  | O => hang
  | S f =>
    (if num >=? base then printnum f (num / base) base (width - 1) padc
     else putn (Z.to_nat (width - 1)) padc) ;;;
    putch (digit (num mod base))
  end.

Definition getuint (lflag : Z) : M pst Z :=
  if lflag >=? 2 then
    let! lo := va_word in
    let! hi := va_word in
    ret (lo + W32 * hi)
  else va_word.

Definition getint (lflag : Z) : M pst Z :=
  if lflag >=? 2 then
    let! lo := va_word in
    let! hi := va_word in
    ret (s64 (lo + W32 * hi))
  else let! w := va_word in ret (s32 w).

Section fmt.
(** The memory for the string arguments; [user] chooses the copy of the user library,
    which differs in the octal conversion. *)
Context (m : memory) (user : bool).

(** The characters of a string argument. *)
Definition NULL_STRING : list Z := [40; 110; 117; 108; 108; 41].
Definition str_char (p i : Z) : Z :=
  if p =? 0 then nth (Z.to_nat i) NULL_STRING 0 else loadc m (p + i).

Fixpoint str_len (n : nat) (p i : Z) : Z :=
  match n with
  | O => i
  | S n' => if nz (str_char p i) then str_len n' p (i + 1) else i
  end.

(** The loop over the characters of a string; the result is the width left. *)
Fixpoint put_str (fuel : nat) (p i precision width altflag : Z) : M pst Z :=
  match fuel with
  | O => hang
  | S f =>
    let ch := str_char p i in
    if nz ch && ((precision <? 0) || (0 <=? precision - 1)) then
      (if nz altflag && ((ch <? 32) || (ch >? 126)) then putch 63 else putch ch) ;;;
      put_str f p (i + 1) (if precision <? 0 then precision else precision - 1) (width - 1) altflag
    else ret width
  end.

(** The digits of a width: the value, and the rest from the first other character; the
    overflow of the [int] is undefined. *)
Fixpoint get_width (fmt : list Z) (acc : Z) : M pst (Z * list Z) :=
  match fmt with
  | ch :: r =>
      if (ch <? 48) || (ch >? 57) then ret (acc, fmt)
      else if acc * 10 + ch <? 2147483648 then get_width r (acc * 10 + ch - 48) else fault
  | [] => fault
  end.

(** A byte that was never written is zero, so that a string is at most as long as the
    number of written bytes (or it goes round the whole memory, without an end). *)
Definition str_fuel : nat := size m + 7.

Record flags := { padc : Z; width : Z; precision : Z; lflag : Z; altflag : Z }.
Definition no_flags : flags := {| padc := 32; width := -1; precision := -1; lflag := 0; altflag := 0 |}.

Definition set_padc (v : Z) (f : flags) : flags := {| padc := v; width := width f; precision := precision f;
  lflag := lflag f; altflag := altflag f |}.
Definition set_width (v : Z) (f : flags) : flags := {| padc := padc f; width := v; precision := precision f;
  lflag := lflag f; altflag := altflag f |}.
Definition set_prec (v : Z) (f : flags) : flags := {| padc := padc f; width := width f; precision := v;
  lflag := lflag f; altflag := altflag f |}.
Definition set_lflag (v : Z) (f : flags) : flags := {| padc := padc f; width := width f; precision := precision f;
  lflag := v; altflag := altflag f |}.
Definition set_altflag (v : Z) (f : flags) : flags := {| padc := padc f; width := width f;
  precision := precision f; lflag := lflag f; altflag := v |}.

(** [process_precision] *)
Definition process_precision (f : flags) : flags :=
  if width f <? 0 then set_prec (-1) (set_width (precision f) f) else f.

Definition number (f : flags) (num base : Z) : M pst unit := printnum 64 (u64 num) base (width f) (padc f).

(** [%s] *)
Definition put_string (f : flags) (p : Z) : M pst unit :=
  let! w :=
    (if (width f >? 0) && negb (padc f =? 45) then
       let w := width f - str_len (Z.to_nat (Z.min (u32 (precision f)) (Z.of_nat str_fuel))) p 0 in
       putn (Z.to_nat w) (padc f) ;;;
       ret (if w >? 0 then 0 else w)
     else ret (width f)) in
  let! w := put_str str_fuel p 0 (precision f) w (altflag f) in
  putn (Z.to_nat w) 32.

(** [%p] *)
Definition put_pointer (f : flags) : M pst unit :=
  putch 48 ;;;
  putch 120 ;;;
  let! w := va_word in
  number f w 16.

(** The conversion [ch]: [Some f] for a flag, which is followed by more; [fmt] is behind
    [ch] and [esc] behind the ['%'].  The other result is the format that is left. *)
Definition convert (ch : Z) (fmt esc : list Z) (f : flags) : M pst (list Z * option flags) :=
  if ch =? 45 then ret (fmt, Some (set_padc 45 f))
  else if ch =? 48 then ret (fmt, Some (set_padc 48 f))
  else if (49 <=? ch) && (ch <=? 57) then
    let! w := get_width fmt (ch - 48) in
    ret (w.2, Some (process_precision (set_prec w.1 f)))
  else if ch =? 42 then
    let! w := va_word in ret (fmt, Some (process_precision (set_prec (s32 w) f)))
  else if ch =? 46 then ret (fmt, Some (if width f <? 0 then set_width 0 f else f))
  else if ch =? 35 then ret (fmt, Some (set_altflag 1 f))
  else if ch =? 108 then ret (fmt, Some (set_lflag (lflag f + 1) f))
  else if ch =? 99 then let! w := va_word in putch (s32 w) ;;; ret (fmt, None)
  else if ch =? 115 then let! p := va_word in put_string f p ;;; ret (fmt, None)
  else if ch =? 100 then
    let! num := getint (lflag f) in
    (if num <? 0 then putch 45 ;;; number f (- num) 10 else number f num 10) ;;;
    ret (fmt, None)
  else if ch =? 117 then let! num := getuint (lflag f) in number f num 10 ;;; ret (fmt, None)
  else if ch =? 111 then
    (if user then putch 88 ;;; putch 88 ;;; putch 88 else put_pointer f) ;;; ret (fmt, None)
  else if ch =? 112 then put_pointer f ;;; ret (fmt, None)
  else if ch =? 120 then let! num := getuint (lflag f) in number f num 16 ;;; ret (fmt, None)
  else if ch =? 37 then putch 37 ;;; ret (fmt, None)
  else putch 37 ;;; ret (esc, None).

(** The characters after a ['%'], up to the conversion. *)
Fixpoint escape (fuel : nat) (fmt esc : list Z) (f : flags) : M pst (list Z) :=
  match fuel with
  | O => hang
  | S n =>
    match fmt with
    | [] => fault
    | ch :: r =>
      let! x := convert ch r esc f in
      match x with
      | (rest, Some f') => escape n rest esc f'
      | (rest, None) => ret rest
      end
    end
  end.

(** The format is an array that ends with a zero byte. *)
Fixpoint vprintfmt (fuel : nat) (fmt : list Z) : M pst unit :=
  match fuel with
  | O => hang
  | S n =>
    match fmt with
    | [] => fault
    | ch :: r =>
      if ch =? 37 then
        let! rest := escape (S (length r)) r r no_flags in vprintfmt n rest
      else if ch =? 0 then ret tt
      else putch ch ;;; vprintfmt n r
    end
  end.

End fmt.

(** ** atoi.c *)

(** The digits: the position behind them and their value; [int] may overflow. *)
Fixpoint atoi_digits (buf : list Z) (loc acc : Z) : option (Z * Z) :=
  match buf with
  | [] => None
  | c :: r =>
    if (48 <=? s8 c) && (s8 c <=? 57) then
      let acc := acc * 10 + (s8 c - 48) in
      if acc <? 2147483648 then atoi_digits r (loc + 1) acc else None
    else Some (loc, acc)
  end.

(** The result, and what is stored in [*i]; [None] is undefined behaviour. *)
Definition atoi (buf : list Z) : option (Z * option Z) :=
  match buf with
  | [] => None
  | c :: r =>
    let '(start, negative, digits) :=
      (if s8 c =? 43 then (1, false, r) else if s8 c =? 45 then (1, true, r) else (0, false, buf)) in
    match atoi_digits digits start 0 with
    | None => None
    | Some (loc, acc) =>
      if loc =? start then Some (0, None) else Some (loc, Some (if negative : bool then - acc else acc))
    end
  end.
