(* ===== verification/PrintfSpec.v ===== *)
(** * Formatted output, verified

    The numbers that [vprintfmt] prints: the canonical numeral, padded to the width; a
    decimal number is read back by [atoi]. *)

From S2P Require Import Prelude Mem Printf.

(** The value of a digit, and of a numeral. *)
Definition digit_value (c : Z) : Z := if c <? 58 then c - 48 else c - 87.
Definition value (base : Z) (ds : list Z) : Z := foldl (λ a c, a * base + digit_value c) 0 ds.

Lemma digit_value_digit d : 0 ≤ d < 16 → digit_value (digit d) = d.
Proof. intros Hd. unfold digit, digit_value. destruct (Z.ltb_spec d 10); [destruct (Z.ltb_spec (48 + d) 58)|destruct (Z.ltb_spec (87 + d) 58)]; lia. Qed.

Definition is_digit (base c : Z) : Prop := ∃ d, 0 ≤ d < base ∧ c = digit d.

(** The numeral of [num]: without leading zeros. *)
Record numeral (base num : Z) (ds : list Z) : Prop := {
  nu_value : value base ds = num;
  nu_digits : Forall (is_digit base) ds;
  nu_head : ds ≠ [] ∧ (num = 0 ∧ ds = [48] ∨ hd 0 ds ≠ 48);
}.

Lemma putn_run n c s : putn n c s = Ret (tt, set_out (out s ++ repeat c n) s).
Proof.
  revert s. induction n as [|n IH]; intros s; simpl; [rewrite app_nil_r; by destruct s|].
  erewrite bind_Ret; [|reflexivity]. rewrite IH. simpl. by rewrite <- app_assoc.
Qed.

Lemma digit_inj d : 0 ≤ d < 16 → digit d = 48 → d = 0.
Proof. unfold digit. intros Hd. destruct (Z.ltb_spec d 10); lia. Qed.

(** The numeral of a digit, and that of a number from the one of its quotient. *)
Lemma numeral_digit base d : 2 ≤ base ≤ 16 → 0 ≤ d < base → numeral base d [digit d].
Proof.
  intros Hb Hd. constructor.
  - unfold value. simpl. rewrite digit_value_digit by lia. lia.
  - apply Forall_singleton. exists d. split; [lia|done].
  - split; [done|]. simpl. destruct (decide (d = 0)) as [->|Hnz]; [by left|right]. intros E.
    apply Hnz, digit_inj; [lia|done].
Qed.

Lemma numeral_step base num ds :
  2 ≤ base ≤ 16 → base ≤ num → numeral base (num / base) ds → numeral base num (ds ++ [digit (num mod base)]).
Proof.
  intros Hb Hn [Hv Hd [Hne Hh]]. pose proof (Z.mod_pos_bound num base ltac:(lia)). constructor.
  - unfold value. rewrite foldl_app. simpl. fold (value base ds). rewrite Hv, digit_value_digit by lia.
    pose proof (Z.div_mod num base). lia.
  - apply Forall_app. split; [done|]. apply Forall_singleton. by exists (num mod base).
  - split; [by destruct ds|]. right. assert (0 < num / base) by (apply Z.div_str_pos; lia).
    destruct Hh as [[E0 _]|Hh]; [lia|]. by destruct ds.
Qed.

Lemma printnum_run fuel num base width padc s :
  2 ≤ base ≤ 16 → 0 ≤ num < base ^ Z.of_nat fuel → (0 < fuel)%nat →
  ∃ ds, numeral base num ds ∧ printnum fuel num base width padc s =
    Ret (tt, set_out (out s ++ repeat padc (Z.to_nat (width - Z.of_nat (length ds))) ++ ds) s).
Proof.
  intros Hb. revert num width s. induction fuel as [|fuel IH]; intros num width s Hn Hf; [lia|]. simpl printnum.
  rewrite Z.geb_leb. destruct (Z.leb_spec base num) as [Hge|Hlt].
  - rewrite Nat2Z.inj_succ, Z.pow_succ_r in Hn by lia.
    assert (0 < num / base < base ^ Z.of_nat fuel) as Hq.
    { split; [apply Z.div_str_pos; lia|apply Z.div_lt_upper_bound; lia]. }
    destruct fuel as [|fuel]; [change (base ^ Z.of_nat 0) with 1 in Hq; lia|].
    destruct (IH (num / base) (width - 1) s) as (ds & Hds & E); [lia|lia|].
    exists (ds ++ [digit (num mod base)]). split; [by apply numeral_step|].
    kstep E. unfold putch, modify. simpl. do 2 f_equal. unfold set_out. simpl. f_equal.
    rewrite <- !app_assoc. do 2 f_equal. f_equal. rewrite length_app. simpl. lia.
  - exists [digit num]. split; [apply numeral_digit; lia|]. rewrite Z.mod_small by lia.
    kstep (putn_run (Z.to_nat (width - 1)) padc s). unfold putch, modify. simpl. rewrite <- app_assoc. done.
Qed.

(** C29: [printnum] terminates and prints the one numeral of the number in its base,
    without leading zeros, padded on the left to the width. *)
Theorem printnum_numeral num base width padc s :
  2 ≤ base ≤ 16 → 0 ≤ num < W64 →
  ∃ ds, numeral base num ds ∧ printnum 64 num base width padc s =
    Ret (tt, set_out (out s ++ repeat padc (Z.to_nat (width - Z.of_nat (length ds))) ++ ds) s).
Proof.
  intros Hb Hn. apply printnum_run; [done| |lia]. split; [lia|]. apply (Z.lt_le_trans _ (2 ^ 64)); [apply Hn|].
  apply Z.pow_le_mono_l. lia.
Qed.

Lemma s8_digit d : 0 ≤ d < 10 → s8 (digit d) = digit d ∧ digit d = 48 + d.
Proof.
  intros Hd. unfold digit. rewrite (proj2 (Z.ltb_lt _ _)) by lia. split; [|done]. unfold s8.
  rewrite Z.mod_small by lia. lia.
Qed.

Lemma atoi_digits_run ds loc acc rest :
  Forall (is_digit 10) ds → 0 ≤ acc → foldl (λ a c, a * 10 + digit_value c) acc ds < 2147483648 →
  atoi_digits (ds ++ 0 :: rest) loc acc = Some (loc + Z.of_nat (length ds), foldl (λ a c, a * 10 + digit_value c) acc ds).
Proof.
  revert loc acc. induction ds as [|c ds IH]; intros loc acc Hd Hacc Hlt; simpl.
  - do 2 f_equal. lia.
  - apply Forall_cons in Hd as [(d & Hd & ->) Hds]. destruct (s8_digit d Hd) as [E1 E2]. rewrite E1.
    simpl in Hlt. rewrite digit_value_digit in * by lia.
    assert (∀ l a, 0 ≤ a → Forall (is_digit 10) l → a ≤ foldl (λ a c, a * 10 + digit_value c) a l) as Hmono.
    { clear. intros l. induction l as [|c l IH]; intros a Ha Hl; simpl; [lia|].
      apply Forall_cons in Hl as [(d & Hd & ->) Hl]. rewrite digit_value_digit by lia.
      specialize (IH (a * 10 + d) ltac:(lia) Hl). lia. }
    specialize (Hmono ds (acc * 10 + d) ltac:(lia) Hds).
    rewrite E2. rewrite !(proj2 (Z.leb_le _ _)) by lia. simpl. replace (48 + d - 48) with d by lia.
    rewrite (proj2 (Z.ltb_lt _ _)) by lia. rewrite IH by (done || lia). do 2 f_equal. lia.
Qed.

Lemma numeral_pos base num ds : numeral base num ds → ∃ c r, ds = c :: r ∧ is_digit base c.
Proof.
  intros [_ Hd [Hne _]]. destruct ds as [|c r]; [done|]. apply Forall_cons in Hd as [Hc _]. by exists c, r.
Qed.

(** Reading a numeral back, with and without a sign. *)
Lemma atoi_numeral num ds rest :
  numeral 10 num ds → num < 2147483648 →
  atoi (ds ++ 0 :: rest) = Some (Z.of_nat (length ds), Some num) ∧
  atoi (45 :: ds ++ 0 :: rest) = Some (Z.of_nat (length ds) + 1, Some (- num)).
Proof.
  intros Hnu Hlt. destruct (numeral_pos _ _ _ Hnu) as (c & r & -> & d & Hd & ->). destruct (s8_digit d Hd) as [E1 E2].
  destruct Hnu as [Hv Hds _]. unfold value in Hv. split.
  - unfold atoi. change ((digit d :: r) ++ 0 :: rest) with (digit d :: (r ++ 0 :: rest)). cbv beta iota. rewrite E1.
    rewrite !(proj2 (Z.eqb_neq _ _)) by lia.
    change (digit d :: (r ++ 0 :: rest)) with ((digit d :: r) ++ 0 :: rest).
    rewrite atoi_digits_run by (done || lia). rewrite Hv. by rewrite (proj2 (Z.eqb_neq _ _)) by (simpl; lia).
  - unfold atoi. change (s8 45 =? 43) with false. change (s8 45 =? 45) with true. cbv iota.
    rewrite atoi_digits_run by (done || lia). rewrite Hv. rewrite (proj2 (Z.eqb_neq _ _)) by (simpl; lia).
    do 2 f_equal. lia.
Qed.

(** [%d] without flags. *)
Lemma convert_d m user fmt esc f s :
  convert m user 100 fmt esc f s =
  (let! num := getint (lflag f) in
   (if num <? 0 then putch 45 ;;; number f (- num) 10 else number f num 10) ;;;
   ret (fmt, None)) s.
Proof. unfold convert. reflexivity. Qed.

Lemma vprintfmt_d m user n w s s' :
  (if s32 (u32 w) <? 0 then putch 45 ;;; number no_flags (- s32 (u32 w)) 10 else number no_flags (s32 (u32 w)) 10) s =
    Ret (tt, s') →
  vprintfmt m user (S (S n)) [37; 100; 0] {| out := out s; ap := w :: ap s |} = Ret (tt, s').
Proof.
  intros E. cbn [vprintfmt]. change (37 =? 37) with true. cbv iota.
  assert (convert m user 100 [0] [100; 0] no_flags {| out := out s; ap := w :: ap s |} = Ret (([0], None), s')) as Ec.
  { rewrite convert_d. unfold getint. change (lflag no_flags >=? 2) with false. cbv iota.
    rewrite bind_assoc. erewrite bind_Ret; [|reflexivity]. rewrite bind_ret_l.
    change (set_ap (ap s) _) with {| out := out s; ap := ap s |}. destruct s as [o a]. simpl out in *. simpl ap in *.
    kstep E. done. }
  erewrite (bind_Ret _ _ _ [0] s'); [|cbn [escape length]; kstep Ec; done].
  cbn [vprintfmt]. done.
Qed.

(** What [%d] prints for an [int] is read back by [atoi] as the same number, up to
    its last character (the least [int], which [atoi] cannot read, excepted). *)
Theorem printf_atoi m user x rest :
  -2147483648 < x < 2147483648 →
  ∃ ds, vprintfmt m user 3 [37; 100; 0] {| out := []; ap := [u32 x] |} = Ret (tt, {| out := ds; ap := [] |}) ∧
    atoi (ds ++ 0 :: rest) = Some (Z.of_nat (length ds), Some x).
Proof.
  intros Hx. set (s0 := {| out := []; ap := [] |}).
  assert (s32 (u32 (u32 x)) = x) as Ex.
  { rewrite (u32_small (u32 x)) by auto with kern. unfold u32, s32. rewrite Zplus_mod_idemp_l.
    apply (s32_small x). unfold is_s32. lia. }
  assert (∀ n s, 0 ≤ n < 2147483648 → ∃ ds, numeral 10 n ds ∧
    number no_flags n 10 s = Ret (tt, set_out (out s ++ ds) s)) as Hnum.
  { intros n s Hn. unfold number, u64. rewrite Z.mod_small by (unfold W64; lia).
    destruct (printnum_run 64 n 10 (-1) 32 s) as (ds & Hnu & E); [lia| |lia|].
    - split; [lia|]. apply (Z.lt_le_trans _ (2 ^ 32)); [lia|]. vm_compute. discriminate.
    - exists ds. split; [done|]. unfold no_flags. cbn [width padc]. rewrite E. do 3 f_equal.
      replace (Z.to_nat (-1 - Z.of_nat (length ds))) with 0%nat by lia. done. }
  destruct (Z.ltb_spec x 0) as [Hneg|Hpos].
  - destruct (Hnum (- x) {| out := [45]; ap := [] |}) as (ds & Hnu & E); [lia|]. exists (45 :: ds). split.
    + apply (vprintfmt_d m user 1 (u32 x) s0). rewrite Ex, (proj2 (Z.ltb_lt _ _)) by lia.
      erewrite bind_Ret; [exact E|done].
    + destruct (atoi_numeral (- x) ds rest Hnu) as [_ Ea]; [lia|]. rewrite Z.opp_involutive in Ea.
      change ((45 :: ds) ++ 0 :: rest) with (45 :: ds ++ 0 :: rest). rewrite Ea. do 2 f_equal. simpl. lia.
  - destruct (Hnum x s0) as (ds & Hnu & E); [lia|]. exists ds. split.
    + apply (vprintfmt_d m user 1 (u32 x) s0). rewrite Ex, (proj2 (Z.ltb_ge _ _)) by lia. exact E.
    + by apply atoi_numeral; [|lia].
Qed.

(** ** Examples *)

Lemma printnum_numeral_witness : ∃ ds, numeral 16 48879 ds ∧
  printnum 64 48879 16 8 48 {| out := []; ap := [] |} =
    Ret (tt, {| out := repeat 48 (Z.to_nat (8 - Z.of_nat (length ds))) ++ ds; ap := [] |}).
Proof.
  apply (printnum_numeral 48879 16 8 48 {| out := []; ap := [] |}); [lia|]. split; [lia|reflexivity].
Defined.

Lemma printf_atoi_witness : ∃ ds,
  vprintfmt ∅ true 3 [37; 100; 0] {| out := []; ap := [u32 (-42)] |} = Ret (tt, {| out := ds; ap := [] |}) ∧
  atoi (ds ++ [0]) = Some (Z.of_nat (length ds), Some (-42)).
Proof. apply (printf_atoi ∅ true (-42) []). lia. Defined.

(** The flag ['-'] of [vprintfmt] does not pad a number on the right: [%-5d] prints 5 as
    ["----5"], where [%5d] prints ["    5"]. *)
Example printf_minus_flag m user :
  vprintfmt m user 5 [37; 45; 53; 100; 0] {| out := []; ap := [5] |} =
    Ret (tt, {| out := [45; 45; 45; 45; 53]; ap := [] |}) ∧
  vprintfmt m user 5 [37; 53; 100; 0] {| out := []; ap := [5] |} =
    Ret (tt, {| out := [32; 32; 32; 32; 53]; ap := [] |}).
Proof. split; vm_compute; reflexivity. Qed.
