(* ===== verification/Trap.v ===== *)
(** * Traps, system calls and processes

    kern/lib/dprintf.c and [debug_info] of kern/lib/debug.c: output on the console.
    kern/lib/elf.c: the loader of the program images.  kern/proc/PProc: the creation and
    the start of a process.  kern/trap: the system calls of TSyscall, their dispatch
    (TDispatch), the handlers of exceptions and interrupts and the entry of all traps
    (TTrapHandler), and the table of the handlers (TTrapInit).

    Left out of this state: the informational messages of the kernel itself, the lock
    around the output (which one processor takes and gives back) and the end-of-interrupt
    signal to the controller. *)

From S2P Require Import Prelude Spinlock Pmmap MAT Container Mem Vmm Thread UserCopy DList Bufcache Log Inode Dir File Console Seg Sysfile Printf.

(** The line buffer of the console, the buffers of the disk, the program images that are
    linked into the kernel, and the functions whose addresses are stored. *)
Class TrapLayout := {
  linebuf_addr : Z;
  buf_addr : Z → Z;
  ping_start : Z;
  pong_start : Z;
  ding_start : Z;
  fstest_start : Z;
  shell_start : Z;
  idle_start : Z;
  proc_start_user_addr : Z;
  exception_handler_addr : Z;
  interrupt_handler_addr : Z;
  syscall_dispatch_addr : Z;
  handlers_distinct : NoDup [0; exception_handler_addr; interrupt_handler_addr; syscall_dispatch_addr];
}.

Definition T_DIVIDE : Z := 0.
Definition T_PGFLT : Z := 14.
Definition T_SIMD : Z := 19.
Definition T_SECEV : Z := 30.
Definition T_IRQ0 : Z := 32.
Definition IRQ_TIMER : Z := 0.
Definition IRQ_SPURIOUS : Z := 7.
Definition IRQ_RTC : Z := 8.
Definition IRQ_MOUSE : Z := 12.
Definition IRQ_IDE1 : Z := 14.
Definition IRQ_IDE2 : Z := 15.
Definition IRQ_ERROR : Z := 19.
Definition IRQ_EHCI_2 : Z := 23.
Definition T_SYSCALL : Z := 48.
Definition T_LTIMER : Z := 49.
Definition T_PERFCTR : Z := 51.
Definition PFE_PR : Z := 1.
Definition FL_IF : Z := 512.

Definition SYS_puts : Z := 0.
Definition SYS_spawn : Z := 1.
Definition SYS_yield : Z := 2.
Definition SYS_open : Z := 3.
Definition SYS_close : Z := 4.
Definition SYS_read : Z := 5.
Definition SYS_write : Z := 6.
Definition SYS_mkdir : Z := 7.
Definition SYS_chdir : Z := 8.
Definition SYS_link : Z := 9.
Definition SYS_unlink : Z := 10.
Definition SYS_stat : Z := 11.
Definition SYS_is_dir : Z := 12.
Definition SYS_ls : Z := 13.
Definition SYS_pwd : Z := 14.
Definition SYS_readline : Z := 15.

Definition ELF_MAGIC : Z := 1179403647.
Definition ELF_SHT_STRTAB : Z := 3.
Definition ELF_SHN_UNDEF : Z := 0.
Definition ELF_PROG_LOAD : Z := 1.
Definition ELF_PROG_FLAG_WRITE : Z := 2.
Definition SECHDR_SIZE : Z := 40.
Definition PROGHDR_SIZE : Z := 32.

(** ** dprintf.c *)

Section print.
Context `{KEnv}.

Fixpoint cputs (str : list Z) : M con unit :=
  match str with
  | [] => ret tt
  | c :: r => if nz (s8 c) then cons_putc (s8 c) ;;; cputs r else ret tt
  end.

(** The characters of [vprintfmt] come in parts of [CONSOLE_BUFFER_SIZE - 1]. *)
Fixpoint flush (fuel : nat) (l : list Z) : M con unit :=
  let n := Z.to_nat (CONSOLE_BUFFER_SIZE - 1) in
  match fuel with
  | O => hang
  | S f => if Z.of_nat (length l) >=? CONSOLE_BUFFER_SIZE - 1 then cputs (take n l) ;;; flush f (drop n l)
           else cputs l
  end.

Definition vdprintf (m : memory) (fmt ap : list Z) : M con unit := λ s,
  match vprintfmt m false (S (length fmt)) fmt {| out := []; Printf.ap := ap |} with
  | Ret (_, p) => flush (S (length (out p))) (out p) s
  | Panic => Panic
  | Hang => Hang
  | Fault => Fault
  end.

(** [debug_info], which is [KERN_INFO] *)
Definition debug_info (m : memory) (fmt ap : list Z) : M con unit :=
  if DEBUG_MSG then vdprintf m fmt ap else ret tt.

End print.

(** ** elf.c *)

Section elf.
Context `{KEnv, KernelLayout}.

Definition ld16 (a : Z) : M vmm Z := gets (λ s, load16 (mem s) (u32 a)).
Definition ld32 (a : Z) : M vmm Z := gets (λ s, load32 (mem s) (u32 a)).

(** The pages of a segment from [va] to [eva]. *)
Definition load_pages (pid perm filesz zva eva fa va : Z) : M vmm unit :=
  loop (Z.to_nat ((eva - va) / PAGESIZE + 2)) (λ '(va, fa),
    if va <? eva then
      alloc_page pid va perm ;;;
      (if va <? rounddown zva PAGESIZE then
         pt_copyout fa pid va PAGESIZE
       else if (va <? zva) && nz filesz then
         pt_memset pid va 0 PAGESIZE ;;;
         pt_copyout fa pid va (u32 (zva - va))
       else pt_memset pid va 0 PAGESIZE) ;;;
      ret (inl (u32 (va + PAGESIZE), u32 (fa + PAGESIZE)))
    else ret (inr tt)) (va, fa).

(** One program header. *)
Definition load_segment (eh pid ph : Z) : M vmm unit :=
  let! p_type := ld32 ph in
  if negb (p_type =? ELF_PROG_LOAD) then ret tt
  else
    let! p_offset := ld32 (ph + 4) in
    let! p_va := ld32 (ph + 8) in
    let! p_filesz := ld32 (ph + 16) in
    let! p_memsz := ld32 (ph + 20) in
    let! p_flags := ld32 (ph + 24) in
    let fa := u32 (eh + rounddown p_offset PAGESIZE) in
    let va := rounddown p_va PAGESIZE in
    let zva := u32 (p_va + p_filesz) in
    let eva := roundup (u32 (p_va + p_memsz)) PAGESIZE in
    let perm := Z.lor PTE_U PTE_P in
    let perm := if nz (Z.land p_flags ELF_PROG_FLAG_WRITE) then Z.lor perm PTE_W else perm in
    load_pages pid perm p_filesz zva eva fa va.

Definition elf_load (exe pid : Z) : M vmm unit :=
  let! e_magic := ld32 exe in
  KERN_ASSERT (e_magic =? ELF_MAGIC) ;;;
  let! e_shstrndx := ld16 (exe + 50) in
  KERN_ASSERT (negb (e_shstrndx =? ELF_SHN_UNDEF)) ;;;
  let! e_shoff := ld32 (exe + 32) in
  let! sh_type := ld32 (exe + e_shoff + SECHDR_SIZE * e_shstrndx + 4) in
  KERN_ASSERT (sh_type =? ELF_SHT_STRTAB) ;;;
  let! e_phoff := ld32 (exe + 28) in
  let! e_phnum := ld16 (exe + 44) in
  let ph := u32 (exe + e_phoff) in
  let eph := u32 (ph + PROGHDR_SIZE * e_phnum) in
  loop (S (Z.to_nat e_phnum)) (λ ph,
    if ph <? eph then
      load_segment exe pid ph ;;;
      ret (inl (u32 (ph + PROGHDR_SIZE)))
    else ret (inr tt)) ph.

Definition elf_entry (exe : Z) : M vmm Z :=
  let! e_magic := ld32 exe in
  KERN_ASSERT (e_magic =? ELF_MAGIC) ;;;
  ld32 (exe + 24).

End elf.

Section ops.
Context `{KEnv, KernelLayout, Stack, SysLayout, TrapLayout}.

(** ** kern/lib/seg.c, over the whole kernel *)

Definition kstack_switch (pid : Z) : M ksys unit :=
  let! cpu_idx := zoom get_pcpu_idx in
  let! ks := zoom (get_pcpu_kstack_pointer cpu_idx) in
  if inb NUM_IDS pid then zoom (kstack_switch_to ks pid) else fault.

(** ** PProc *)

Definition set_last_active_at (i v : Z) : M ksys unit := awrite NUM_CPUS last_active set_last_active i v.

(** The frame that [trap_return] loads into the registers. *)
Definition proc_start_user : M ksys tf_t :=
  let! cur_pid := curid in
  let! cpu_idx := zoom get_pcpu_idx in
  let! st := gets started in
  when (negb (cur_pid =? 1) && (st =? 0))
    (modify (set_started 1) ;;;
     zoom log_init) ;;;
  kstack_switch cur_pid ;;;
  zoom (set_pdir_base cur_pid) ;;;
  set_last_active_at cpu_idx cur_pid ;;;
  aread NUM_IDS uctx_pool cur_pid.

(** The first frame of a process. *)
Definition user_frame (entry : Z) (t : tf_t) : tf_t := {|
  t_edi := t_edi t; t_esi := t_esi t; t_ebp := t_ebp t; t_oesp := t_oesp t; t_ebx := t_ebx t;
  t_edx := t_edx t; t_ecx := t_ecx t; t_eax := t_eax t;
  t_es := Z.lor CPU_GDT_UDATA 3; t_ds := Z.lor CPU_GDT_UDATA 3; t_trapno := t_trapno t; t_err := t_err t;
  t_eip := entry; t_cs := Z.lor CPU_GDT_UCODE 3; t_eflags := FL_IF; t_esp := VM_USERHI;
  t_ss := Z.lor CPU_GDT_UDATA 3 |}.

Definition proc_create (elf_addr quota : Z) : M ksys Z :=
  let! id := curid in
  let! pid := zoom (thread_spawn proc_start_user_addr id quota) in
  when (negb (pid =? NUM_IDS))
    (zoom (elf_load elf_addr pid) ;;;
     let! entry := zoom (elf_entry elf_addr) in
     amod NUM_IDS uctx_pool set_uctx_pool pid (user_frame entry) ;;;
     let! cpu_idx := zoom get_pcpu_idx in
     zoom (seg_init_proc cpu_idx pid)) ;;;
  ret pid.

(** kern/init/init.c, up to the switch to the shell *)
Definition kern_main : M ksys unit :=
  proc_create idle_start 10000 ;;;
  let! pid := proc_create shell_start 10000 in
  zoom (tqueue_remove NUM_IDS pid) ;;;
  zoom (tcb_set_state pid TSTATE_RUN) ;;;
  zoom (set_curid pid) ;;;
  zoom (kctx_switch 0 pid).

(** ** TSyscall *)

Definition sys_buf (pid : Z) : Z := sys_buf_addr + pid * PAGESIZE.

(** Every round prints [PAGESIZE - 1] bytes, but the last one. *)
Definition puts_fuel (len : Z) : nat := Z.to_nat (len / (PAGESIZE - 1) + 2).

Definition sys_puts (tf : Z) : M ksys unit :=
  let! cur_pid := curid in
  let! str_uva := syscall_get_arg2 tf in
  let! str_len := syscall_get_arg3 tf in
  if negb ((VM_USERLO <=? str_uva) && (u32 (str_uva + str_len) <=? VM_USERHI)) then
    syscall_set_errno tf E_INVAL_ADDR
  else
    loop (puts_fuel str_len) (λ '(remain, cur_pos),
      if nz remain then
        let nbytes := if remain <? PAGESIZE - 1 then remain else PAGESIZE - 1 in
        let! n := zoom (pt_copyin cur_pid cur_pos (sys_buf cur_pid) nbytes) in
        if negb (n =? nbytes) then syscall_set_errno tf E_MEM ;;; ret (inr tt)
        else
          set_kmem (store8 (sys_buf cur_pid + nbytes) 0) ;;;
          let! m := kmem in
          zoom (debug_info m [37; 115; 0] [sys_buf cur_pid]) ;;;
          ret (inl (u32 (remain - nbytes), u32 (cur_pos + nbytes)))
      else syscall_set_errno tf E_SUCC ;;; ret (inr tt)) (str_len, str_uva).

(** [syscall_set_errno] and [syscall_set_retval1(tf, NUM_IDS)] *)
Definition spawn_fail (tf errno : Z) : M ksys unit :=
  syscall_set_errno tf errno ;;;
  syscall_set_retval1 tf NUM_IDS.

(** The image of a program number. *)
Definition elf_image (elf_id : Z) : option Z :=
  if elf_id =? 1 then Some ping_start
  else if elf_id =? 2 then Some pong_start
  else if elf_id =? 3 then Some ding_start
  else if elf_id =? 4 then Some fstest_start
  else if elf_id =? 5 then Some shell_start
  else None.

Definition sys_spawn (tf : Z) : M ksys unit :=
  let! cur := curid in
  let! elf_id := syscall_get_arg2 tf in
  let! quota := syscall_get_arg3 tf in
  let! can := zoom (Sub := vmm) (zoom (container_can_consume cur quota)) in
  if negb (nz can) then spawn_fail tf E_EXCEEDS_QUOTA
  else if NUM_IDS <? u32 (cur * MAX_CHILDREN + 1 + MAX_CHILDREN) then spawn_fail tf E_MAX_NUM_CHILDEN_REACHED
  else
    let! nch := zoom (Sub := vmm) (zoom (container_get_nchildren cur)) in
    if nch =? MAX_CHILDREN then spawn_fail tf E_INVAL_CHILD_ID
    else
      match elf_image elf_id with
      | None => spawn_fail tf E_INVAL_PID
      | Some elf_addr =>
        let! new_pid := proc_create elf_addr quota in
        if new_pid =? NUM_IDS then spawn_fail tf E_INVAL_PID
        else
          syscall_set_errno tf E_SUCC ;;;
          syscall_set_retval1 tf new_pid
      end.

(** The result is stored when the thread runs again; its frame is its own. *)
Definition sys_yield (tf : Z) : M ksys unit :=
  zoom thread_yield ;;;
  syscall_set_errno tf E_SUCC.

(** No check of the descriptor. *)
Definition sys_dir (tf : Z) : M ksys unit :=
  let! a2 := syscall_get_arg2 tf in
  let! pid := curid in
  let! fp := open_file pid (s32 a2) in
  let! ip := (if fp =? 0 then ret 0 else zoom (fget fp f_ip)) in
  if ip =? 0 then
    syscall_set_retval1 tf (-1) ;;;
    syscall_set_errno tf E_BADF
  else
    let! ty := zoom (iget ip i_type) in
    syscall_set_errno tf E_SUCC ;;;
    syscall_set_retval1 tf (b2z (ty =? T_DIR)).

(** The names in the working directory, each with a space behind it, in the buffer of the
    process; the result is the end of the text. *)
Definition ls_names (dp buf : Z) : M ksys Z :=
  let! size := zoom (iget dp i_size) in
  loop (dir_fuel size) (λ '(off, de, buf_p),
    let! size := zoom (iget dp i_size) in
    if off <? size then
      let! rd := zoom (inode_read dp off DIRENT_SIZE) in
      let de := overlay rd.2 de in
      when (negb (u32 rd.1 =? DIRENT_SIZE)) KERN_PANIC ;;;
      if de_inum de =? 0 then ret (inl (u32 (off + DIRENT_SIZE), de, buf_p))
      else
        let! n := lift (cstrnlen 255 (de_name de)) in
        let! nm := lift (cstrncpy (Z.to_nat n) (de_name de)) in
        set_kmem (put_bytes buf_p nm) ;;;
        set_kmem (store8 (buf_p + n) 32) ;;;
        ret (inl (u32 (off + DIRENT_SIZE), de, u32 (buf_p + n + 1)))
    else ret (inr buf_p)) (0, junk DIRENT_SIZE, buf).

Definition sys_ls (tf : Z) : M ksys unit :=
  let! user_buf := syscall_get_arg2 tf in
  let! a3 := syscall_get_arg3 tf in
  let buf_len := s32 a3 in
  let! cur := curid in
  let! dp := zoom (tcb_get_cwd cur) in
  let! buf_p := ls_names dp (sys_buf cur) in
  set_kmem (store8 (buf_p - 1) 0) ;;;
  let used := s32 (buf_p - sys_buf cur) in
  let len := if used <? buf_len then used else buf_len in
  zoom (pt_copyout (sys_buf cur) cur user_buf (u32 len)) ;;;
  syscall_set_errno tf E_SUCC ;;;
  syscall_set_retval1 tf len.

(** The search of [inum] in the directory [dp]: its entry. *)
Definition pwd_find (dp inum : Z) (de : list Z) : M fs (option (list Z) * list Z) :=
  let! size := iget dp i_size in
  loop (dir_fuel size) (λ '(off, de),
    let! size := iget dp i_size in
    if off <? size then
      let! rd := inode_read dp off DIRENT_SIZE in
      let de := overlay rd.2 de in
      when (negb (u32 rd.1 =? DIRENT_SIZE)) KERN_PANIC ;;;
      if de_inum de =? inum then ret (inr (Some (de_name de), de))
      else ret (inl (u32 (off + DIRENT_SIZE), de))
    else ret (inr (None, de))) (0, de).

(** The names from the working directory up, in [arr]; a parent that is read twice with
    no end between them is read for ever, and there are 65536 inode numbers. *)
Definition pwd_up (dir : Z) : M fs (list (list Z)) :=
  let! p := dir_lookup dir [DOT; DOT; 0] 0 in
  loop (Z.to_nat 65537) (λ '(cur, parent, arr, de),
    let! pi := iget parent i_inum in
    let! ci := iget cur i_inum in
    if negb (pi =? ci) then
      let! r := pwd_find parent ci de in
      let! arr := match r.1 with
                  | None => ret arr
                  | Some name =>
                    if Z.of_nat (length arr) <? 20 then
                      let! l := lift (cstrncpy 20 name) in ret (arr ++ [l])
                    else fault
                  end in
      let! p := dir_lookup parent [DOT; DOT; 0] 0 in
      ret (inl (parent, p.1, arr, r.2))
    else ret (inr arr)) (dir, p.1, [], junk DIRENT_SIZE).

(** The names in the buffer, the last one first: the end of the text. *)
Fixpoint pwd_text (arr : list (list Z)) (p : Z) : M ksys Z :=
  match arr with
  | [] => ret p
  | row :: r =>
    let! l := lift (cstrncpy 255 row) in
    set_kmem (put_bytes p l) ;;;
    let! n := lift (cstrnlen 255 row) in
    set_kmem (store8 (p + n) SLASH) ;;;
    pwd_text r (p + n + 1)
  end.

Definition sys_pwd (tf : Z) : M ksys unit :=
  let! cur := curid in
  let! dir := zoom (tcb_get_cwd cur) in
  let! arr := zoom (pwd_up dir) in
  let! user_buf := syscall_get_arg2 tf in
  if Z.of_nat (length arr) <? 20 then
    let! root := lift (cstrncpy 8 [SLASH; 0]) in
    let! p := pwd_text (overlay root (junk 20) :: rev arr) (sys_buf cur) in
    set_kmem (store8 (p - 1) 0) ;;;
    zoom (pt_copyout (sys_buf cur) cur user_buf (u32 (p - 1 - sys_buf cur + 1))) ;;;
    syscall_set_errno tf E_SUCC ;;;
    syscall_set_retval1 tf 0
  else fault.

(** [linebuf] is where the console left the line. *)
Definition sys_readline (tf : Z) : M ksys unit :=
  let! ok := zoom readline in
  let! lb := gets (λ s, linebuf (k_con s)) in
  set_kmem (put_bytes linebuf_addr ((λ i, lb !!! i) <$> seqZ 0 BUFLEN)) ;;;
  let kernbuf := if ok : bool then linebuf_addr else 0 in
  let! userbuf := syscall_get_arg2 tf in
  let! m := kmem in
  let! n := lift (cstrnlen 100 (get_bytes m kernbuf 100)) in
  let len := n + 1 in
  let! pid := curid in
  let! r := zoom (pt_copyout kernbuf pid userbuf len) in
  when (negb (r =? len))
    (KERN_PANIC ;;;
     syscall_set_errno tf E_MEM ;;;
     syscall_set_retval1 tf (-1)) ;;;
  syscall_set_errno tf E_SUCC ;;;
  syscall_set_retval1 tf 0.

(** ** TDispatch *)

Definition syscall_dispatch (tf : Z) : M ksys unit :=
  let! nr := syscall_get_arg1 tf in
  if nr =? SYS_puts then sys_puts tf
  else if nr =? SYS_spawn then sys_spawn tf
  else if nr =? SYS_yield then sys_yield tf
  else if nr =? SYS_open then sys_open tf
  else if nr =? SYS_close then sys_close tf
  else if nr =? SYS_read then sys_read tf
  else if nr =? SYS_write then sys_write tf
  else if nr =? SYS_mkdir then sys_mkdir tf
  else if nr =? SYS_chdir then sys_chdir tf
  else if nr =? SYS_link then sys_link tf
  else if nr =? SYS_unlink then sys_unlink tf
  else if nr =? SYS_stat then sys_fstat tf
  else if nr =? SYS_is_dir then sys_dir tf
  else if nr =? SYS_ls then sys_ls tf
  else if nr =? SYS_pwd then sys_pwd tf
  else if nr =? SYS_readline then sys_readline tf
  else syscall_set_errno tf E_INVAL_CALLNR.

(** ** TTrapHandler *)

Definition default_exception_handler (tf : Z) : M ksys unit := KERN_PANIC.

Definition pgflt_handler (tf : Z) : M ksys unit :=
  let! cur_pid := curid in
  let! t := tf_get tf in
  let! fault_va := gets CR2 in
  if nz (Z.land (t_err t) PFE_PR) then KERN_PANIC
  else
    let! r := zoom (alloc_page cur_pid fault_va (Z.lor (Z.lor PTE_W PTE_U) PTE_P)) in
    when (r =? MagicNumber) KERN_PANIC.

Definition exception_handler (tf : Z) : M ksys unit :=
  let! t := tf_get tf in
  if t_trapno t =? T_PGFLT then pgflt_handler tf else default_exception_handler tf.

Definition spurious_intr_handler : M ksys unit := ret tt.
Definition timer_intr_handler : M ksys unit := zoom sched_update.
Definition default_intr_handler : M ksys unit := ret tt.

(** [ide_intr], with the wake-up of the threads that wait for the buffer. *)
Definition ide_intr_wakeup : M ksys unit :=
  let! b := zoom (Sub := lg) (zoom (gets idequeue)) in
  zoom (Sub := lg) (zoom ide_intr) ;;;
  when (negb (b =? NULL)) (zoom (thread_wakeup (buf_addr b))).

Definition interrupt_handler (tf : Z) : M ksys unit :=
  let! t := tf_get tf in
  if t_trapno t =? T_IRQ0 + IRQ_SPURIOUS then spurious_intr_handler
  else if t_trapno t =? T_IRQ0 + IRQ_TIMER then timer_intr_handler
  else if t_trapno t =? T_IRQ0 + IRQ_IDE1 then ide_intr_wakeup
  else if t_trapno t =? T_IRQ0 + IRQ_IDE2 then ret tt
  else default_intr_handler.

(** The call of a handler by its address. *)
Definition call_handler (handler tf : Z) : M ksys unit :=
  if handler =? 0 then ret tt
  else if handler =? exception_handler_addr then exception_handler tf
  else if handler =? interrupt_handler_addr then interrupt_handler tf
  else if handler =? syscall_dispatch_addr then syscall_dispatch tf
  else fault.

(** [trap] up to the call of the handler: the process, the processor, the process whose
    address space was active, and the handler. *)
Definition trap_enter (tf : Z) : M ksys (Z * Z * Z * Z) :=
  let! cur_pid := curid in
  let! cpu_idx := zoom get_pcpu_idx in
  let! last_pid := aread NUM_CPUS last_active cpu_idx in
  when (negb (last_pid =? 0))
    (zoom (set_pdir_base 0) ;;;
     set_last_active_at cpu_idx 0) ;;;
  let! t := tf_get tf in
  let! handler := (if inb 256 (t_trapno t) then gets (λ s, TRAP_HANDLER s !!! (cpu_idx, t_trapno t)) else fault) in
  ret (cur_pid, cpu_idx, last_pid, handler).

(** [trap] behind the call. *)
Definition trap_exit (cur_pid cpu_idx last_pid : Z) : M ksys unit :=
  when (negb (last_pid =? 0))
    (kstack_switch cur_pid ;;;
     zoom (set_pdir_base cur_pid) ;;;
     set_last_active_at cpu_idx last_pid).

(** The whole trap.  When the handler switched to another thread, the rest is what this
    thread does once it runs again, and it is returned; otherwise it is done, and the
    registers are loaded from the frame. *)
Definition trap (tf : Z) : M ksys (option (M ksys unit)) :=
  let! e := trap_enter tf in
  let '(cur_pid, cpu_idx, last_pid, handler) := e in
  call_handler handler tf ;;;
  let! now := curid in
  if now =? cur_pid then trap_exit cur_pid cpu_idx last_pid ;;; ret None
  else ret (Some (trap_exit cur_pid cpu_idx last_pid)).

(** ** TTrapInit *)

Definition trap_init_array : M ksys unit :=
  let! i := gets trap_inited in
  KERN_ASSERT (i =? 0) ;;;
  modify (set_TRAP_HANDLER ∅) ;;;
  modify (set_trap_inited 1).

Definition trap_handler_register (cpu_idx trapno cb : Z) : M ksys unit :=
  KERN_ASSERT (inb 8 cpu_idx) ;;;
  KERN_ASSERT (inb 256 trapno) ;;;
  KERN_ASSERT (nz cb) ;;;
  if inb NUM_CPUS cpu_idx && inb 256 trapno then
    modify (λ s, set_TRAP_HANDLER (<[(cpu_idx, trapno) := cb]> (TRAP_HANDLER s)) s)
  else fault.

(** The interrupt controller that is told to deliver the interrupts is not part of this
    state. *)
Definition trap_init (cpu_idx : Z) : M ksys unit :=
  when (cpu_idx =? 0) trap_init_array ;;;
  for_ 0 256 (λ trapno,
    if ((T_DIVIDE <=? trapno) && (trapno <=? T_SIMD)) || (trapno =? T_SECEV) then
      trap_handler_register cpu_idx trapno exception_handler_addr
    else if ((T_IRQ0 + IRQ_TIMER <=? trapno) && (trapno <=? T_IRQ0 + IRQ_RTC))
         || ((T_IRQ0 + IRQ_MOUSE <=? trapno) && (trapno <=? T_IRQ0 + IRQ_IDE2))
         || (trapno =? T_IRQ0 + IRQ_ERROR) || (trapno =? T_IRQ0 + IRQ_EHCI_2)
         || ((T_LTIMER <=? trapno) && (trapno <=? T_PERFCTR)) then
      trap_handler_register cpu_idx trapno interrupt_handler_addr
    else when (trapno =? T_SYSCALL) (trap_handler_register cpu_idx trapno syscall_dispatch_addr)).

End ops.
