(* ===== verification/TrapSpec.v ===== *)
(** * Traps

    A trap of a user process enters the kernel, runs the handler of the table and goes
    back to the process: page faults, system calls that do not exist, and the table. *)

From S2P Require Import Prelude Spinlock Pmmap MAT Container Mem Vmm Isolation Mmu Thread UserCopy DList Bufcache Log Inode Dir File Console Seg Sysfile Printf Trap Crash ConsoleSpec.

Section spec.
Context `{KEnv, KernelLayout, Stack, SysLayout, TrapLayout}.
Hypothesis Hmagic : ks_magic = KSTACK_MAGIC.

Abbreviation cpu := ks_cpu_idx.
Abbreviation vm s := (t_vmm (k_thr s)).

(** The process [p] runs on this processor, in user mode, in its address space. *)
Record user_running (s : ksys) (p : Z) : Prop := {
  ur_cpu : 0 ≤ cpu < NUM_CPUS;
  ur_pcpu : pcpu_cpu_idx (pcpu (k_thr s) !!! cpu) = cpu;
  ur_pid : 1 ≤ p < NUM_IDS;
  ur_cur : CURID (k_thr s) !!! cpu = p;
  ur_last : last_active s !!! cpu = p;
  ur_base : CR3 (vm s) = PDirPool p 0;
}.

Definition with_base (p : Z) (s : ksys) : ksys := set_k_thr (set_t_vmm (set_CR3 (PDirPool p 0) (vm s)) (k_thr s)) s.
Definition with_last (p : Z) (s : ksys) : ksys := set_last_active (<[cpu := p]> (last_active s)) s.

(** The state in which a handler runs. *)
Definition in_kernel (s : ksys) : ksys := with_last 0 (with_base 0 s).

(** The task state segment of the processor after [kstack_switch]. *)
Definition tss_of (s : ksys) (p : Z) : seg :=
  let ks := kstack (pcpu (k_thr s) !!! cpu) in
  set_TR CPU_GDT_TSS (set_kstacks (<[ks := set_gdt (CPU_GDT_TSS / 8) (tss_desc (proc_ks p + TSS_OFFSET) (TSS_SIZE - 1))
    (set_esp0 (proc_ks p + KSTACK_SIZE) CPU_GDT_KDATA (kstacks (k_seg s) !!! ks))]> (kstacks (k_seg s))) (k_seg s)).

(** The state in which the process [p] goes on. *)
Definition back_to (p : Z) (s : ksys) : ksys := with_last p (with_base p (set_k_seg (tss_of s p) s)).

(** The same process on the same processor. *)
Definition same_thread (s s' : ksys) : Prop :=
  pcpu (k_thr s') = pcpu (k_thr s) ∧ CURID (k_thr s') = CURID (k_thr s).

Local Ltac unfold_sys := unfold SYS_puts, SYS_spawn, SYS_yield, SYS_open, SYS_close, SYS_read, SYS_write, SYS_mkdir,
  SYS_chdir, SYS_link, SYS_unlink, SYS_stat, SYS_is_dir, SYS_ls, SYS_pwd, SYS_readline.

(** ** The parts of trap *)

Lemma get_pcpu_idx_user s : 0 ≤ cpu < NUM_CPUS → pcpu_cpu_idx (pcpu (k_thr s) !!! cpu) = cpu →
  zoom get_pcpu_idx s = Ret (cpu, s).
Proof.
  intros Hc Hp. apply zoom_read. unfold get_pcpu_idx, pcpu_cur, get_kstack_cpu_idx. rewrite bind_ret_l.
  unfold aread. rewrite inb_true_2 by done. erewrite bind_Ret by reflexivity. cbn. by rewrite Hp.
Qed.

Lemma curid_user s p : 0 ≤ cpu < NUM_CPUS → pcpu_cpu_idx (pcpu (k_thr s) !!! cpu) = cpu →
  CURID (k_thr s) !!! cpu = p → curid s = Ret (p, s).
Proof.
  intros Hc Hp Hcur. apply zoom_read. unfold get_curid, get_pcpu_idx, pcpu_cur, get_kstack_cpu_idx.
  erewrite bind_Ret.
  2: { rewrite bind_ret_l. unfold aread. rewrite inb_true_2 by done. reflexivity. }
  cbn [lget ksys_thr_lens]. rewrite Hp. unfold aread. rewrite inb_true_2 by done. by rewrite <- Hcur.
Qed.

Lemma set_base_run p s : 0 ≤ p < NUM_IDS → zoom (set_pdir_base p) s = Ret (tt, with_base p s).
Proof.
  intros Hp. rewrite (zoom_Ret _ _ tt (set_CR3 (PDirPool p 0) (vm s))); [done|].
  unfold set_pdir_base. by rewrite inb_true_2.
Qed.

Lemma kstack_switch_run p s : 0 ≤ cpu < NUM_CPUS → pcpu_cpu_idx (pcpu (k_thr s) !!! cpu) = cpu →
  0 ≤ p < NUM_IDS → kstack_switch p s = Ret (tt, set_k_seg (tss_of s p) s).
Proof.
  intros Hc Hi Hp. unfold kstack_switch. erewrite bind_Ret by (by apply get_pcpu_idx_user).
  erewrite bind_Ret.
  2: { apply zoom_read. unfold get_pcpu_kstack_pointer, aread. rewrite inb_true_2 by done. reflexivity. }
  rewrite inb_true_2 by done. rewrite (zoom_Ret _ _ tt (tss_of s p)); [done|]. unfold kstack_switch_to, ks_mod, modify, bind. cbv beta iota.
  do 3 f_equal. unfold tss_of. cbn. by rewrite lookup_total_insert_eq, insert_insert_eq.
Qed.

Lemma trap_exit_run p s : 1 ≤ p < NUM_IDS → 0 ≤ cpu < NUM_CPUS → pcpu_cpu_idx (pcpu (k_thr s) !!! cpu) = cpu →
  trap_exit p cpu p s = Ret (tt, back_to p s).
Proof.
  intros Hp Hc Hi. unfold trap_exit. rewrite (proj2 (Z.eqb_neq p 0)) by lia. cbn [negb when].
  erewrite bind_Ret by (apply kstack_switch_run; [done|done|lia]).
  erewrite bind_Ret by (apply set_base_run; lia). unfold set_last_active_at, awrite. by rewrite inb_true_2.
Qed.

Lemma trap_enter_run p s t : user_running s p → k_tf s !!! p = t → 0 ≤ t_trapno t < 256 →
  trap_enter p s = Ret ((p, cpu, p, TRAP_HANDLER s !!! (cpu, t_trapno t)), in_kernel s).
Proof.
  intros [Hc Hi Hp Hcur Hl _] Ht Hn. unfold trap_enter. erewrite bind_Ret by (by apply curid_user).
  erewrite bind_Ret by (by apply get_pcpu_idx_user).
  erewrite bind_Ret by (unfold aread; rewrite inb_true_2 by done; by rewrite Hl).
  rewrite (proj2 (Z.eqb_neq p 0)) by lia. cbn [negb when].
  erewrite bind_Ret.
  2: { erewrite bind_Ret by (apply set_base_run; unfold NUM_IDS; lia). unfold set_last_active_at, awrite.
       rewrite inb_true_2 by done. reflexivity. }
  erewrite bind_Ret.
  2: { unfold tf_get, aread. rewrite inb_true_2 by lia. cbn. by rewrite Ht. }
  rewrite inb_true_2 by done. reflexivity.
Qed.

(** A trap whose handler does not switch to another thread. *)
Lemma trap_runs p s t Q : user_running s p → k_tf s !!! p = t → 0 ≤ t_trapno t < 256 →
  runs (call_handler (TRAP_HANDLER s !!! (cpu, t_trapno t)) p) (in_kernel s)
    (λ _ s1, same_thread s s1 ∧ Q s1) →
  runs (trap p) s (λ r s', r = None ∧ ∃ s1, same_thread s s1 ∧ Q s1 ∧ s' = back_to p s1).
Proof.
  intros Hu Ht Hn Hh. unfold trap. eapply runs_bind_eq; [by eapply trap_enter_run|]. cbv beta iota.
  eapply runs_bind_mono; [exact Hh|]. intros [] s1 [[Hp1 Hc1] HQ]. destruct Hu as [Hc Hi Hp Hcur Hl _].
  eapply runs_bind_eq; [apply curid_user; [done|by rewrite Hp1|by rewrite Hc1]|].
  rewrite Z.eqb_refl. eapply runs_bind_eq; [apply trap_exit_run; [done|done|by rewrite Hp1]|].
  apply runs_ret. split; [done|]. exists s1. done.
Qed.

(** The process goes on as it was. *)
Lemma back_to_running p s s1 : user_running s p → same_thread s s1 → user_running (back_to p s1) p.
Proof.
  intros [Hc Hi Hp Hcur Hl _] [Hp1 Hc1]. constructor; cbn; rewrite ?Hp1, ?Hc1; try done.
  by rewrite lookup_total_insert_eq.
Qed.

Lemma in_kernel_same s : same_thread s (in_kernel s).
Proof. done. Qed.

Lemma last_insert (s : ksys) p : last_active s !!! cpu = p → p ≠ 0 →
  <[cpu := p]> (<[cpu := 0]> (last_active s)) = last_active s.
Proof.
  intros Hl Hp. rewrite insert_insert_eq. apply insert_id. rewrite lookup_total_alt in Hl.
  destruct (last_active s !! cpu); simpl in Hl; congruence.
Qed.

(** Only the frame changed: the process goes on in the same state. *)
Lemma back_to_frame p s tfs : user_running s p →
  ∃ g, back_to p (set_k_tf tfs (in_kernel s)) = set_k_seg g (set_k_tf tfs s) ∧
    ts_esp0 (kstacks g !!! kstack (pcpu (k_thr s) !!! cpu)) = proc_ks p + KSTACK_SIZE.
Proof.
  intros [Hc Hi Hp Hcur Hl Hb]. exists (tss_of s p). split.
  - unfold back_to, in_kernel, with_last, with_base, set_last_active, set_k_seg, set_k_tf, set_k_thr. cbn.
    f_equal; [|by apply last_insert; [|lia]].
    destruct (k_thr s) as [v ? ? ? ? ? ? ? ?]. cbn in *. unfold set_t_vmm, set_CR3. cbn. rewrite <- Hb. by destruct v.
  - cbn. by rewrite lookup_total_insert_eq.
Qed.

(** ** Handlers *)

Lemma exception_handler_ne : exception_handler_addr ≠ 0.
Proof. pose proof handlers_distinct as Hd. apply NoDup_cons in Hd as [Hd _]. intros E. apply Hd. rewrite E. left. Qed.

Lemma handlers_ne : interrupt_handler_addr ≠ 0 ∧ syscall_dispatch_addr ≠ 0.
Proof.
  pose proof handlers_distinct as Hd. apply NoDup_cons in Hd as [Hd _]. rewrite !not_elem_of_cons in Hd.
  destruct Hd as (_ & ? & ? & _). by split; apply not_eq_sym.
Qed.

Lemma bool_decide_switch {A} (P Q : Prop) `{Decision P, Decision Q} (a b : A) :
  (P ↔ Q) → (if bool_decide P then a else b) = (if bool_decide Q then a else b).
Proof. intros E. by rewrite (bool_decide_ext P Q). Qed.

Lemma call_exception p s : call_handler exception_handler_addr p s = exception_handler p s.
Proof. unfold call_handler. by rewrite (proj2 (Z.eqb_neq _ _) exception_handler_ne), Z.eqb_refl. Qed.

Lemma call_syscall p s : call_handler syscall_dispatch_addr p s = syscall_dispatch p s.
Proof.
  pose proof handlers_distinct as Hd. unfold call_handler.
  rewrite !NoDup_cons, !not_elem_of_cons in Hd. destruct Hd as ((_&_&Hd0&_)&(_&Hd1&_)&(Hd2&_)&_).
  by rewrite (proj2 (Z.eqb_neq _ 0)), (proj2 (Z.eqb_neq _ exception_handler_addr)),
    (proj2 (Z.eqb_neq _ interrupt_handler_addr)), Z.eqb_refl by congruence.
Qed.

(** ** Page faults *)

Lemma pgflt_runs p va t s : vmm_ok (vm s) → user_pde p (PDE_ADDR va) → CR2 s = va →
  0 ≤ cpu < NUM_CPUS → pcpu_cpu_idx (pcpu (k_thr s) !!! cpu) = cpu → CURID (k_thr s) !!! cpu = p →
  k_tf s !!! p = t → t_trapno t = T_PGFLT → Z.land (t_err t) PFE_PR = 0 →
  exists v' r, alloc_page_post p (PDE_ADDR va) (PTE_ADDR va) PT_PERM_PTU (vm s) r v' /\
    exception_handler p s = when (r =? MagicNumber) KERN_PANIC (set_k_thr (set_t_vmm v' (k_thr s)) s).
Proof.
  intros Hok Hu Hva Hc Hi Hcur Ht Hn He.
  destruct (proj1 (runs_eq _ _ _) (alloc_page_runs Hmagic p va PT_PERM_PTU (vm s) Hok Hu ltac:(unfold PT_PERM_PTU; lia)))
    as (r & v' & Ea & Hpost).
  exists v', r. split; [done|]. destruct (user_pde_range _ _ Hu) as [Hp _].
  assert (tf_get p s = Ret (t, s)) as Etf by (unfold tf_get, aread; rewrite inb_true_2 by done; by rewrite Ht).
  unfold exception_handler. erewrite bind_Ret by done. rewrite Hn. change (T_PGFLT =? T_PGFLT) with true. cbv iota.
  unfold pgflt_handler. erewrite bind_Ret by (by apply curid_user). erewrite bind_Ret by done.
  erewrite bind_Ret by reflexivity. rewrite He. change (nz 0) with false. cbv iota. rewrite Hva.
  change (Z.lor (Z.lor PTE_W PTE_U) PTE_P) with PT_PERM_PTU.
  by rewrite (bind_Ret _ _ _ _ _ (zoom_Ret _ s _ _ Ea)).
Qed.

(** The frame of a page fault, with the handler of the table. *)
Record page_fault (s : ksys) (p va : Z) (t : tf_t) : Prop := {
  pf_va : CR2 s = va ∧ 0 ≤ va < W32 ∧ user_pde p (PDE_ADDR va);
  pf_frame : k_tf s !!! p = t;
  pf_trapno : t_trapno t = T_PGFLT;
  pf_handler : TRAP_HANDLER s !!! (cpu, T_PGFLT) = exception_handler_addr;
}.

Lemma mapped_walk p va f s : vmm_ok s → user_pde p (PDE_ADDR va) → 0 ≤ va < W32 →
  pte s p (PDE_ADDR va) (PTE_ADDR va) = f * 4096 + PT_PERM_PTU →
  mmu (mem s) (PDirPool p 0) va true = Some (f * 4096 + va mod 4096).
Proof.
  intros Hok Hu Hva Hpte. change (PDirPool p 0) with (pdir_base p). destruct (user_pde_range _ _ Hu) as [Hp Hk].
  rewrite mmu_pte by done. rewrite decide_True by done. cbv zeta. rewrite Hpte, access_PTU.
  do 2 f_equal. unfold_vm. divlia.
Qed.

Lemma page_fault_panics p va t s : DEBUG_MSG = true → user_running s p → vmm_ok (vm s) → page_fault s p va t →
  Z.land (t_err t) PFE_PR ≠ 0 ∨ avail (ctr (v_cont (vm s)) p) < 1 + tables_needed (vm s) p (PDE_ADDR va) →
  trap p s = Panic.
Proof.
  intros HD Hr Hok [(Hcr & Hva & Hu) Ht Hn Hh] Hbad. unfold trap.
  assert (0 ≤ t_trapno t < 256) as Ht2 by (rewrite Hn; unfold T_PGFLT; lia).
  erewrite bind_Ret by (by eapply trap_enter_run). cbv beta iota. apply bind_Panic. rewrite Hn, Hh, call_exception.
  destruct Hr as [Hc Hi Hp Hcur Hl Hb].
  destruct (decide (Z.land (t_err t) PFE_PR = 0)) as [He|He].
  - destruct Hbad as [|Hbad]; [done|].
    destruct (pgflt_runs p va t (in_kernel s)) as (v' & r & (_ & _ & Hpost) & ->); try done; [by apply set_CR3_ok|].
    change (ctr (v_cont (vm (in_kernel s))) p) with (ctr (v_cont (vm s)) p) in Hpost.
    change (tables_needed (vm (in_kernel s)) p (PDE_ADDR va)) with (tables_needed (vm s) p (PDE_ADDR va)) in Hpost.
    rewrite (proj2 (Z.leb_gt _ _)) in Hpost by lia. destruct Hpost as (-> & _). rewrite Z.eqb_refl. unfold when, KERN_PANIC.
    by rewrite HD.
  - unfold exception_handler. assert (tf_get p (in_kernel s) = Ret (t, in_kernel s)) as Etf
      by (unfold tf_get, aread; rewrite inb_true_2 by lia; cbn; by rewrite Ht).
    erewrite bind_Ret by done. rewrite Hn. change (T_PGFLT =? T_PGFLT) with true. cbv iota. unfold pgflt_handler.
    erewrite bind_Ret by (by apply curid_user). erewrite bind_Ret by done. erewrite bind_Ret by reflexivity.
    unfold nz. rewrite (proj2 (Z.eqb_neq _ _) He). cbn. unfold KERN_PANIC. by rewrite HD.
Qed.

(** What the handler of a page fault leaves: the memory [v'] with the new page [f]. *)
Definition demand_paged (p va : Z) (s s1 : ksys) : Prop :=
  ∃ v' f, s1 = set_k_thr (set_t_vmm v' (k_thr s)) (in_kernel s) ∧ vmm_ok v' ∧
    page_free (c_mat (v_cont (vm s))) f = true ∧
    pte_set p (PDE_ADDR va) (PTE_ADDR va) (f * 4096 + PT_PERM_PTU) (vm s) v' ∧
    charged p (1 + tables_needed (vm s) p (PDE_ADDR va)) (vm s) v'.

Lemma page_fault_handled p va t s : user_running s p → vmm_ok (vm s) → page_fault s p va t →
  Z.land (t_err t) PFE_PR = 0 → 1 + tables_needed (vm s) p (PDE_ADDR va) ≤ avail (ctr (v_cont (vm s)) p) →
  runs (exception_handler p) (in_kernel s) (λ _ s1, same_thread s s1 ∧ demand_paged p va s s1).
Proof.
  intros [Hc Hi Hp Hcur Hl Hb] Hok [(Hcr & Hva & Hu) Ht Hn Hh] He Hav. unfold runs.
  destruct (pgflt_runs p va t (in_kernel s)) as (v' & r & (Hok' & _ & Hpost) & ->); try done; [by apply set_CR3_ok|].
  change (ctr (v_cont (vm (in_kernel s))) p) with (ctr (v_cont (vm s)) p) in Hpost.
  change (tables_needed (vm (in_kernel s)) p (PDE_ADDR va)) with (tables_needed (vm s) p (PDE_ADDR va)) in Hpost.
  rewrite (proj2 (Z.leb_le _ _)) in Hpost by lia. destruct Hpost as (f & Hf & Hset & Hr' & _ & Hch).
  rewrite (proj2 (Z.eqb_neq _ _)) by (unfold MagicNumber; unfold_vm; lia). cbn [when ret].
  split; [done|]. by exists v', f.
Qed.

(** C9: Demand paging.  When user code faults at an address of user space that is not
    mapped, and the quota covers the page and the page table that may be missing, the
    trap returns to the process with the same frame, so that the access is repeated: the
    address translates to a page that was free, writable for user code, no other entry of
    any address space changes, the pages are charged to the process, the processor has its
    address space and its kernel stack again, and the file system and the console are
    untouched.  After a violation of protection, or without quota, the kernel of a debug
    build panics. *)
Theorem page_fault_trap p va t s : user_running s p → vmm_ok (vm s) → page_fault s p va t →
  if nz (Z.land (t_err t) PFE_PR) || (avail (ctr (v_cont (vm s)) p) <? 1 + tables_needed (vm s) p (PDE_ADDR va))
  then DEBUG_MSG = true → trap p s = Panic
  else runs (trap p) s (λ r s', r = None ∧ user_running s' p ∧ vmm_ok (vm s') ∧
    ∃ f, page_free (c_mat (v_cont (vm s))) f = true ∧
      mmu (mem (vm s')) (CR3 (vm s')) va true = Some (f * 4096 + va mod 4096) ∧
      pte_set p (PDE_ADDR va) (PTE_ADDR va) (f * 4096 + PT_PERM_PTU) (vm s) (vm s') ∧
      charged p (1 + tables_needed (vm s) p (PDE_ADDR va)) (vm s) (vm s') ∧
      ts_esp0 (kstacks (k_seg s') !!! kstack (pcpu (k_thr s) !!! cpu)) = proc_ks p + KSTACK_SIZE ∧
      k_tf s' = k_tf s ∧ k_fs s' = k_fs s ∧ k_con s' = k_con s).
Proof.
  intros Hr Hok Hpf. destruct (nz _ || _) eqn:E.
  - intros HD. apply (page_fault_panics p va t); try done. apply orb_prop in E as [E|E]; [left|right; lia].
    intros Hz. rewrite Hz in E. done.
  - apply orb_false_elim in E as [He Hav]. apply Z.ltb_ge in Hav. pose proof Hpf as [(Hcr & Hva & Hu) Ht Hn Hh].
    assert (Z.land (t_err t) PFE_PR = 0) as He' by (unfold nz in He; lia). pose proof Hr as [Hc Hi Hp Hcur Hl Hb].
    assert (0 ≤ t_trapno t < 256) as Ht2 by (rewrite Hn; unfold T_PGFLT; lia).
    eapply runs_mono.
    + apply (trap_runs p s t (demand_paged p va s)); try done. rewrite Hn, Hh. unfold runs. rewrite call_exception.
      by eapply page_fault_handled.
    + intros r s' (-> & s1 & Hsame & (v' & f & -> & Hok' & Hf & Hset & Hch) & ->). split; [done|].
      split; [by eapply back_to_running|]. split; [by apply set_CR3_ok|]. exists f. split; [done|].
      split; [|split; [done|split; [done|split; [|done]]]].
      * apply mapped_walk; [by apply set_CR3_ok|done..|]. destruct (user_pde_range _ _ Hu) as [Hp2 Hk].
        pose proof (Hset p (PDE_ADDR va) (PTE_ADDR va) Hp2 Hk ltac:(rewrite PTE_ADDR_mod; divlia)) as Hpte.
        rewrite bool_decide_true in Hpte by done. exact Hpte.
      * cbn. by rewrite lookup_total_insert_eq.
Qed.

(** ** System calls *)

(** A system call number that does not exist is answered with [E_INVAL_CALLNR] in
    the register [eax] of the frame; nothing else of the process or of the kernel changes,
    but for the task state segment, which is set up for the next trap of the process. *)
Theorem unknown_syscall_trap p t s : user_running s p → k_tf s !!! p = t → t_trapno t = T_SYSCALL →
  TRAP_HANDLER s !!! (cpu, T_SYSCALL) = syscall_dispatch_addr → SYS_readline < t_eax t →
  ∃ g, trap p s = Ret (None, set_k_seg g
      (set_k_tf (<[p := set_gpr (t_edi t) (t_esi t) (t_ebx t) (t_edx t) (t_ecx t) E_INVAL_CALLNR t]> (k_tf s)) s)) ∧
    ts_esp0 (kstacks g !!! kstack (pcpu (k_thr s) !!! cpu)) = proc_ks p + KSTACK_SIZE.
Proof.
  intros Hr Ht Hn Hh Hnr. pose proof Hr as [Hc Hi Hp _ _ _].
  set (tfs := <[p := set_gpr (t_edi t) (t_esi t) (t_ebx t) (t_edx t) (t_ecx t) E_INVAL_CALLNR t]> (k_tf s)).
  destruct (back_to_frame p s tfs Hr) as (g & Eg & Hg). exists g. split; [|done].
  assert (runs (trap p) s (λ r s', r = None ∧ ∃ s1, same_thread s s1 ∧ s1 = set_k_tf tfs (in_kernel s) ∧
    s' = back_to p s1)) as Hrun.
  { apply (trap_runs p s t); [done..|rewrite Hn; unfold T_SYSCALL; lia|]. rewrite Hn, Hh. unfold runs.
    rewrite call_syscall. unfold syscall_dispatch, syscall_get_arg1, tf_get, aread. rewrite inb_true_2 by lia.
    erewrite bind_Ret by reflexivity. change (k_tf (in_kernel s)) with (k_tf s). rewrite Ht.
    unfold SYS_readline in Hnr. rewrite !(proj2 (Z.eqb_neq (t_eax t) _)) by (unfold_sys; lia).
    unfold syscall_set_errno, tf_mod, amod. rewrite inb_true_2 by lia. cbn. rewrite Ht. done. }
  apply runs_eq in Hrun as (r & s' & E & -> & s1 & _ & -> & ->). by rewrite E, Eg.
Qed.

(** ** The table of the handlers *)

(** The numbers of the exceptions and of the interrupts that the kernel handles. *)
Definition exceptions : list Z := seqZ 0 20 ++ [30].
Definition interrupts : list Z := seqZ 32 9 ++ seqZ 44 4 ++ [49; 50; 51; 55].
Definition handler_of (t : Z) : Z :=
  if bool_decide (t ∈ exceptions) then exception_handler_addr
  else if bool_decide (t ∈ interrupts) then interrupt_handler_addr
  else if t =? T_SYSCALL then syscall_dispatch_addr else 0.

Lemma handler_of_code t :
  handler_of t = if ((T_DIVIDE <=? t) && (t <=? T_SIMD)) || (t =? T_SECEV) then exception_handler_addr
    else if ((T_IRQ0 + IRQ_TIMER <=? t) && (t <=? T_IRQ0 + IRQ_RTC))
         || ((T_IRQ0 + IRQ_MOUSE <=? t) && (t <=? T_IRQ0 + IRQ_IDE2))
         || (t =? T_IRQ0 + IRQ_ERROR) || (t =? T_IRQ0 + IRQ_EHCI_2)
         || ((T_LTIMER <=? t) && (t <=? T_PERFCTR)) then interrupt_handler_addr
    else if t =? T_SYSCALL then syscall_dispatch_addr else 0.
Proof.
  unfold handler_of, exceptions, interrupts, T_DIVIDE, T_SIMD, T_SECEV, T_IRQ0, IRQ_TIMER, IRQ_RTC, IRQ_MOUSE, IRQ_IDE2,
    IRQ_ERROR, IRQ_EHCI_2, T_LTIMER, T_PERFCTR.
  repeat case_bool_decide; rewrite ?elem_of_app, ?elem_of_cons, ?elem_of_nil, ?elem_of_seqZ in *;
    repeat match goal with |- context [if ?b then _ else _] => destruct b eqn:? end; done || lia.
Qed.

(** One round of the loop of [trap_init], with the handler [h]. *)
Lemma register_runs (c n h : Z) (tbl : gmap (Z * Z) Z) (s0 : ksys) : 0 ≤ c < NUM_CPUS → 0 ≤ n < 256 → h ≠ 0 →
  trap_handler_register c n h (set_TRAP_HANDLER tbl s0) = Ret (tt, set_TRAP_HANDLER (<[(c, n) := h]> tbl) s0).
Proof.
  intros Hc Hn Hh. unfold trap_handler_register, KERN_ASSERT, nz. rewrite (inb_true_2 8), (inb_true_2 256), (inb_true_2 NUM_CPUS) by done.
  by rewrite (proj2 (Z.eqb_neq _ _) Hh).
Qed.

Lemma register_step (c n : Z) (tbl0 tbl : gmap (Z * Z) Z) (s0 : ksys) (b1 b2 b3 : bool) :
  0 ≤ c < NUM_CPUS → 0 ≤ n < 256 →
  handler_of n = (if b1 then exception_handler_addr else if b2 then interrupt_handler_addr
                  else if b3 then syscall_dispatch_addr else 0) →
  (∀ c' t, tbl !!! (c', t) =
    if bool_decide (c' = c ∧ 0 ≤ t < n ∧ handler_of t ≠ 0) then handler_of t else tbl0 !!! (c', t)) →
  runs (if b1 then trap_handler_register c n exception_handler_addr
        else if b2 then trap_handler_register c n interrupt_handler_addr
        else when b3 (trap_handler_register c n syscall_dispatch_addr)) (set_TRAP_HANDLER tbl s0)
    (λ _ s', ∃ tbl', s' = set_TRAP_HANDLER tbl' s0 ∧ ∀ c' t, tbl' !!! (c', t) =
      if bool_decide (c' = c ∧ 0 ≤ t < n + 1 ∧ handler_of t ≠ 0) then handler_of t else tbl0 !!! (c', t)).
Proof.
  intros Hc Hn Hof Htbl.
  assert (handler_of n ≠ 0 → ∃ tbl', <[(c, n) := handler_of n]> tbl = tbl' ∧ ∀ c' t, tbl' !!! (c', t) =
    if bool_decide (c' = c ∧ 0 ≤ t < n + 1 ∧ handler_of t ≠ 0) then handler_of t else tbl0 !!! (c', t)) as Hins.
  { intros Hne. eexists. split; [done|]. intros c' t. destruct (decide ((c, n) = (c', t))) as [E|E].
    - injection E as <- <-. rewrite lookup_total_insert_eq, bool_decide_true by (repeat split; try done; lia). done.
    - rewrite lookup_total_insert_ne, Htbl by done. apply bool_decide_switch.
      split; intros (-> & ? & ?); repeat split; try done; try lia.
      destruct (decide (t = n)) as [->|]; [done|lia]. }
  pose proof exception_handler_ne. pose proof handlers_ne as [Hi Hs].
  destruct b1; [|destruct b2; [|destruct b3]]; cbn [when].
  1-3: unfold runs; rewrite register_runs by done; rewrite <- Hof; destruct Hins as (tbl' & -> & ?); [by rewrite Hof|by exists tbl'].
  apply runs_ret. exists tbl. split; [done|]. intros c' t. rewrite Htbl. apply bool_decide_switch.
  split; intros (-> & ? & ?); repeat split; try done; try lia. destruct (decide (t = n)) as [->|]; [done|lia].
Qed.

(** [trap_init] terminates and fills the row of the processor in the table: the
    exceptions 0 to 19 and 30, the interrupts 32 to 40, 44 to 47, 49 to 51 and 55, and the
    system call 48 have their handlers; no other entry of the row is set, no other row is
    touched but that the first processor clears the table before. *)
Theorem trap_init_table c s : 0 ≤ c < NUM_CPUS → (c = 0 → trap_inited s = 0) →
  runs (trap_init c) s (λ _ s', ∃ tbl i, s' = set_TRAP_HANDLER tbl (set_trap_inited i s) ∧
    ∀ c' t, tbl !!! (c', t) =
      if bool_decide (c' = c ∧ 0 ≤ t < 256 ∧ handler_of t ≠ 0) then handler_of t
      else if c =? 0 then 0 else TRAP_HANDLER s !!! (c', t)).
Proof.
  intros Hc Hi. unfold trap_init.
  set (tbl0 := if c =? 0 then ∅ else TRAP_HANDLER s). set (i := if c =? 0 then 1 else trap_inited s).
  eapply (runs_bind_eq _ _ _ tt (set_TRAP_HANDLER tbl0 (set_trap_inited i s))).
  { unfold tbl0, i. destruct (Z.eqb_spec c 0) as [E|E]; cbn [when]; [|by destruct s].
    unfold trap_init_array. erewrite bind_Ret by reflexivity. rewrite (Hi E). reflexivity. }
  eapply runs_mono.
  - apply (for_runs (λ n s', ∃ tbl, s' = set_TRAP_HANDLER tbl (set_trap_inited i s) ∧ ∀ c' t, tbl !!! (c', t) =
      if bool_decide (c' = c ∧ 0 ≤ t < n ∧ handler_of t ≠ 0) then handler_of t else tbl0 !!! (c', t))); [lia| |].
    + exists tbl0. split; [done|]. intros c' t. by rewrite bool_decide_false by lia.
    + intros n s1 Hn (tbl & -> & Htbl). apply (register_step c n); try done. apply handler_of_code.
  - intros [] s' (tbl & -> & Htbl). exists tbl, i. split; [done|]. intros c' t. rewrite Htbl. unfold tbl0.
    by destruct (c =? 0).
Qed.

End spec.

(** ** Instances *)

#[local] Program Instance demo_traps : TrapLayout := {|
  linebuf_addr := 2097152; buf_addr := λ b, 2101248 + 600 * b; ping_start := 3145728; pong_start := 3149824;
  ding_start := 3153920; fstest_start := 3158016; shell_start := 3162112; idle_start := 3166208;
  proc_start_user_addr := 1048576; exception_handler_addr := 1052672; interrupt_handler_addr := 1056768;
  syscall_dispatch_addr := 1060864 |}.
Next Obligation. repeat constructor; rewrite ?not_elem_of_cons; repeat split; try discriminate; apply not_elem_of_nil. Qed.
#[local] Instance demo_stack : Stack := {| stack_bytes := λ _, 165 |}.
#[local] Instance demo_sys : SysLayout :=
  {| kernel_buf := 4194304; path_buf := λ _, 4250000; old_buf := λ _, 4250200; new_buf := λ _, 4250400;
     stat_buf := λ _, 4250600 |}.

(** Process 1 on processor 0, with the frame [t]. *)
Definition demo_ksys (v : vmm) (t : tf_t) : ksys := {|
  k_thr := {| t_vmm := set_CR3 (@PDirPool demo_layout 1 0) v;
              pcpu := {[0 := {| inited := 1; booted := 1; kstack := 5242880; arch_info := inhabitant; pcpu_cpu_idx := 0 |}]};
              CURID := {[0 := 1]}; kctx_pool := ∅; regs := inhabitant; TCBPool := ∅; TQueuePool := ∅;
              sched_lk := Spinlock.free_lk; sched_ticks := ∅ |};
  k_fs := {| f_lg := demo_lg; icache_lock := Spinlock.free_lk; inodes := ∅; ftable_lock := Spinlock.free_lk; files := ∅ |};
  k_con := demo_con; k_seg := {| kstacks := ∅; GDTR := 0; TR := 0 |};
  k_tf := {[1 := t]}; uctx_pool := ∅; last_active := {[0 := 1]};
  TRAP_HANDLER := {[(0, T_PGFLT) := exception_handler_addr; (0, T_SYSCALL) := syscall_dispatch_addr]};
  trap_inited := 1; started := 1; CR2 := 1073745920 |}.

Lemma demo_running v t : @user_running demo_env demo_layout (demo_ksys v t) 1.
Proof. constructor; try reflexivity; vm_compute; split; discriminate || reflexivity. Qed.

(** A frame with the trap number and [eax]; the error code says that the page is not
    present, and was written by user code. *)
Definition demo_frame (n eax : Z) : tf_t := {|
  t_edi := 0; t_esi := 0; t_ebp := 0; t_oesp := 0; t_ebx := 0; t_edx := 0; t_ecx := 0; t_eax := eax; t_es := 35; t_ds := 35;
  t_trapno := n; t_err := 6; t_eip := 1073741824; t_cs := 27; t_eflags := FL_IF; t_esp := VM_USERHI; t_ss := 35 |}.

Lemma page_fault_trap_witness :
  ∃ v, let s := demo_ksys v (demo_frame T_PGFLT 0) in
    avail (ctr (v_cont (t_vmm (k_thr s))) 1) = 8 ∧
    runs (@trap demo_env demo_layout demo_stack demo_sys demo_traps 1) s (λ r s', r = None ∧
      ∃ f, mmu (mem (t_vmm (k_thr s'))) (CR3 (t_vmm (k_thr s'))) 1073745920 true = Some (f * 4096)).
Proof.
  destruct demo_vm as (s0 & v & _ & _ & _ & Hok & Hc & Hz & _). exists v. cbv zeta.
  assert (avail (ctr (v_cont v) 1) = 8) as Hav by (rewrite Hc; reflexivity). split; [exact Hav|].
  set (t := demo_frame T_PGFLT 0).
  pose proof (@page_fault_trap demo_env demo_layout demo_stack demo_sys demo_traps eq_refl 1 1073745920 t
    (demo_ksys v t) (demo_running v t) (set_CR3_ok v _ Hok)) as Ht.
  assert (@page_fault demo_env demo_traps (demo_ksys v t) 1 1073745920 t) as Hpf.
  { constructor; [|reflexivity..]. split; [reflexivity|]. split; [split; [discriminate|reflexivity]|].
    vm_compute. intuition discriminate. }
  specialize (Ht Hpf).
  assert ((avail (ctr (v_cont v) 1) <? 1 + @tables_needed demo_layout v 1 (PDE_ADDR 1073745920)) = false) as Hlt.
  { rewrite Hav. apply Z.ltb_ge. unfold tables_needed. destruct (_ =? 0); lia. }
  change (nz (Z.land (t_err t) PFE_PR)) with false in Ht.
  change (avail (ctr (v_cont (t_vmm (k_thr (demo_ksys v t)))) 1)) with (avail (ctr (v_cont v) 1)) in Ht.
  change (@tables_needed demo_layout (t_vmm (k_thr (demo_ksys v t))) 1) with (@tables_needed demo_layout v 1) in Ht.
  rewrite Hlt in Ht. eapply runs_mono; [exact Ht|]. intros r s' (Hr & _ & _ & f & _ & Hm & _). split; [exact Hr|].
  exists f. rewrite Hm. f_equal. change (1073745920 mod 4096) with 0. lia.
Defined.

Lemma unknown_syscall_trap_witness :
  ∃ g, @trap demo_env demo_layout demo_stack demo_sys demo_traps 1 (demo_ksys demo_vm0 (demo_frame T_SYSCALL 16)) =
    Ret (None, set_k_seg g (set_k_tf (<[1 := demo_frame T_SYSCALL 3]> {[1 := demo_frame T_SYSCALL 16]})
      (demo_ksys demo_vm0 (demo_frame T_SYSCALL 16)))).
Proof.
  destruct (@unknown_syscall_trap demo_env demo_layout demo_stack demo_sys demo_traps 1
    (demo_frame T_SYSCALL 16) (demo_ksys demo_vm0 (demo_frame T_SYSCALL 16)) (demo_running _ _) eq_refl eq_refl
    eq_refl eq_refl) as (g & Hg & _).
  exists g. exact Hg.
Defined.

Lemma trap_init_table_witness :
  runs (@trap_init demo_env demo_traps 1) (demo_ksys demo_vm0 (demo_frame T_SYSCALL 16))
    (λ _ s', TRAP_HANDLER s' !!! (1, 14) = exception_handler_addr).
Proof.
  eapply runs_mono.
  - apply (@trap_init_table demo_env demo_traps 1); [split; [discriminate|reflexivity]|discriminate].
  - intros r s' (tbl & i & E & Htbl). rewrite E. cbn [TRAP_HANDLER set_TRAP_HANDLER]. rewrite Htbl.
    vm_compute. reflexivity.
Defined.
