(* ===== verification/ChdirSpec.v ===== *)
(** * A system call on a path, from end to end

    The trap of [chdir]: the path is copied from user memory, walked through the directories
    of the disk, and the current directory of the process replaced, with the references of
    the inode cache in order. *)

From S2P Require Import Prelude Spinlock Pmmap MAT Container Mem Vmm Isolation Mmu Thread Sched UserCopy DList Bufcache BufSpec Log LogSpec Crash Inode InodeSpec Dir PathSpec File BlockSpec FileSpec FileRW FileOps DirSpec TruncSpec Console ConsoleSpec Seg Sysfile WalkSpec Printf Trap TrapSpec.

(** A string in a range of bytes. *)
Lemma get_bytes_string m a n t :
  (length t < Z.to_nat n)%nat → (∀ i c, (t ++ [0]) !! i = Some c → load8 m (a + Z.of_nat i) = c) →
  ∃ rest, get_bytes m a n = t ++ 0 :: rest.
Proof.
  intros Hn Hb. exists (drop (S (length t)) (get_bytes m a n)). rewrite cons_middle, app_assoc.
  rewrite <- (take_drop (S (length t)) (get_bytes m a n)) at 1. f_equal. unfold get_bytes. apply list_eq. intros i.
  destruct (decide (i < S (length t))%nat) as [Hi|Hi].
  - destruct ((t ++ [0]) !! i) as [c|] eqn:E.
    + rewrite lookup_take_lt by done. rewrite list_lookup_fmap, lookup_seqZ_lt by lia. simpl. rewrite Z.add_0_l. by rewrite (Hb i c E).
    + apply lookup_ge_None in E. rewrite length_app in E. simpl in E. lia.
  - rewrite lookup_take_ge by lia. symmetry. apply lookup_ge_None. rewrite length_app. simpl. lia.
Qed.

Section chdir.
Context `{KEnv, KernelLayout, Stack, SysLayout, TrapLayout} (B : txid) (g : geom) (V : Z → memory) (L : gset Z) (R : Z → Z).
Hypothesis Hmagic : ks_magic = KSTACK_MAGIC.
Hypothesis Hg : geom_ok g.
Hypothesis Hsz : Z.of_nat (size L) < NBUF.
Hypothesis Hnonneg : ∀ j, 0 ≤ R j.
Hypothesis Hfree : ∃ a b, 0 ≤ a < NINODE ∧ 0 ≤ b < NINODE ∧ a ≠ b ∧ R a = 0 ∧ R b = 0.

Abbreviation icache := (icache B g V L (-1)).
Abbreviation cpu := ks_cpu_idx.
Abbreviation vm s := (t_vmm (k_thr s)).

(** ** The path *)

(** The string [t] at the address [uva] of the process [p], in pages that are there. *)
Record user_path (v : vmm) (p uva : Z) (t : list Z) : Prop := {
  up_text : text t;
  up_bytes : ∀ i c, (t ++ [0]) !! i = Some c → present v p (uva + Z.of_nat i) ∧ ubyte v p (uva + Z.of_nat i) = c;
  up_length : (length t < Z.to_nat PATH_SIZE)%nat;
  up_range : user_range p uva PATH_SIZE;
  up_fund : fundable v p uva PATH_SIZE;
  up_buf : kern_range (path_buf p) PATH_SIZE ∧ 0 ≤ path_buf p ∧ path_buf p + PATH_SIZE ≤ VM_USERLO;
}.

(** Only the memory of the kernel state changed. *)
Definition remem (v : vmm) (s : ksys) : ksys := set_k_thr (set_t_vmm v (k_thr s)) s.

Lemma copyin_path_runs p uva t s :
  curid s = Ret (p, s) → vmm_ok (vm s) → user_path (vm s) p uva t →
  runs (copyin_path uva (path_buf p)) s (λ l s', ∃ v rest, s' = remem v s ∧ uread p uva PATH_SIZE (path_buf p) (vm s) v ∧ l = t ++ 0 :: rest).
Proof.
  intros Hcur Hok [Ht Hb Hlen Hr Hfu (Hk & Hk0 & Hkl)]. unfold copyin_path. eapply runs_bind_eq; [exact Hcur|].
  apply runs_bind, (runs_zoom (Sub := vmm)). eapply runs_mono; [by apply copyin_runs|]. intros r v [_ Hrd].
  eapply runs_bind_eq; [reflexivity|]. apply runs_ret.
  destruct (get_bytes_string (mem v) (path_buf p) PATH_SIZE t Hlen) as [rest E].
  { intros i c Hi. destruct (Hb i c Hi) as [Hpr <-]. pose proof (lookup_lt_Some _ _ _ Hi) as Hl. rewrite length_app in Hl. simpl in Hl.
    destruct Hr as (Hp & Hlo & Hhi & _). destruct (ur_new _ _ _ _ _ _ Hrd (Z.of_nat i)) as [_ ->]; [lia|].
    apply Hrd; [|done]. split; [done|]. lia. }
  by exists v, rest.
Qed.

(** ** The system call *)

(** The process [p] runs on this processor. *)
Definition current (s : ksys) (p : Z) : Prop :=
  0 ≤ cpu < NUM_CPUS ∧ pcpu_cpu_idx (pcpu (k_thr s) !!! cpu) = cpu ∧ CURID (k_thr s) !!! cpu = p ∧ 1 ≤ p < NUM_IDS.

Lemma current_curid s p : current s p → curid s = Ret (p, s).
Proof. intros (Hc & Hi & Hcur & _). by apply curid_user. Qed.

(** The current directory of [p] is the entry [d], which the process holds, with a name. *)
Definition cwd_ok (s : ksys) (p d : Z) : Prop :=
  cwd (TCBPool (k_thr s) !!! p) = d ∧ 1 ≤ d ≤ NINODE ∧ 0 < R (d - 1) ∧
  i_nlink (node V (i_inum (slot (k_fs s) (d - 1)))) ≠ 0.

(** Where the path [t] begins. *)
Definition origin (t : list Z) (d : Z) (s : fs) : Z :=
  if s8 (hd 0 t) =? SLASH then ROOTINO else i_inum (slot s (d - 1)).

(** What a walk has found, if it is a directory. *)
Definition dir_only (r : option Z) : option Z :=
  match r with
  | Some j => if i_type (node V j) =? T_DIR then Some j else None
  | None => None
  end.

(** What the call leaves: with [Some j] the process is in the directory [j], the reference to
    its old directory [d] given up; with [None] it is where it was.  Of the memory only the
    buffer of the path and pages that the process did not have yet may change: [mv_mem] has
    the page table entries of all other processes, and the contents of all pages that any
    process had, as they were. *)
Record moved (p d : Z) (r : option Z) (s s' : ksys) : Prop := {
  mv_thread : same_thread s s';
  mv_mem : uread p (t_ebx (k_tf s !!! p)) PATH_SIZE (path_buf p) (vm s) (vm s');
  mv_con : k_con s' = k_con s;
  mv_others : ∀ q, q ≠ p → TCBPool (k_thr s') !!! q = TCBPool (k_thr s) !!! q ∧ k_tf s' !!! q = k_tf s !!! q;
  mv_cwd : let d' := cwd (TCBPool (k_thr s') !!! p) in
    match r with
    | Some j => t_eax (k_tf s' !!! p) = E_SUCC ∧ 1 ≤ d' ≤ NINODE ∧ i_inum (slot (k_fs s') (d' - 1)) = j ∧
        icache (less (more R (d' - 1)) (d - 1)) (k_fs s')
    | None => t_eax (k_tf s' !!! p) = E_DISK_OP ∧ d' = d ∧ icache R (k_fs s')
    end;
}.

Lemma errno_run p e s : 0 ≤ p < NUM_IDS →
  ∃ f, syscall_set_errno p e s = Ret (tt, set_k_tf (<[p := f]> (k_tf s)) s) ∧ t_eax f = u32 e.
Proof. intros Hp. eexists. split; [by apply amod_in|done]. Qed.

(** The end of a call that fails. *)
Lemma chdir_fails p d s v f :
  1 ≤ p < NUM_IDS → uread p (t_ebx (k_tf s !!! p)) PATH_SIZE (path_buf p) (vm s) v → cwd_ok s p d → icache R f →
  runs (syscall_set_errno p E_DISK_OP) (set_k_fs f (remem v s)) (λ _ s', moved p d None s s').
Proof.
  intros Hp Hok (Hcwd & _) Hf. destruct (errno_run p E_DISK_OP (set_k_fs f (remem v s)) ltac:(lia)) as (fr & E & Ee).
  eapply runs_of_eq; [exact E|]. constructor; [done|done|done| |].
  - intros q Hq. simpl. by rewrite lookup_total_insert_ne.
  - simpl. by rewrite lookup_total_insert_eq.
Qed.

(** The end of a call that succeeds: the old directory is given up. *)
Lemma chdir_enters p d s v f ip j :
  1 ≤ p < NUM_IDS → uread p (t_ebx (k_tf s !!! p)) PATH_SIZE (path_buf p) (vm s) v → cwd_ok s p d → kept R (k_fs s) f → 1 ≤ ip ≤ NINODE → icache (more R (ip - 1)) f →
  i_inum (slot f (ip - 1)) = j →
  runs (let! d := zoom (tcb_get_cwd p) in
        zoom (inode_put d) ;;;
        zoom (tcb_set_cwd p ip) ;;;
        syscall_set_errno p E_SUCC) (set_k_fs f (remem v s)) (λ _ s', moved p d (Some j) s s').
Proof.
  intros Hp Hok (Hcwd & Hd & Hpos & Hnl) Hk Hip Hf Hj.
  eapply (runs_bind_eq _ _ _ d); [rewrite <- Hcwd; apply (zoom_read (Sub := thr)), tcb_get_run; lia|].
  eapply fs_bind; [apply (put_runs B g V L Hmagic d Hd (more R (ip - 1)) f Hf)|].
  { unfold more. destruct (_ =? _); simpl; lia. }
  { by rewrite Hk by lia. }
  intros [] f2 [Hf2 Hi2]. eapply runs_bind_eq; [apply (zoom_Ret (Sub := thr)), tcb_mod_run; lia|].
  match goal with |- runs _ ?s1 _ => destruct (errno_run p E_SUCC s1 ltac:(lia)) as (fr & E & Ee) end.
  eapply runs_of_eq; [exact E|]. constructor; [done|done|done| |].
  - intros q Hq. simpl. by rewrite !lookup_total_insert_ne.
  - simpl. rewrite !lookup_total_insert_eq. simpl. by rewrite Hi2.
Qed.

Lemma sys_chdir_runs p d t s r :
  current s p → vmm_ok (vm s) → user_path (vm s) p (t_ebx (k_tf s !!! p)) t → cwd_ok s p d → icache R (k_fs s) →
  walk g V false (origin t d (k_fs s)) (cut <$> elements t) r → (∀ j, r = Some j → node_ok g V j) →
  runs (sys_chdir p) s (λ _ s', moved p d (dir_only r) s s').
Proof.
  intros Hcur Hok Hpath Hcwd Hc Hw Hnode. pose proof Hcur as (_ & _ & _ & Hp). unfold sys_chdir.
  eapply runs_bind_eq; [by apply current_curid|].
  eapply (runs_bind_eq _ _ _ (t_ebx (k_tf s !!! p)) s).
  { unfold syscall_get_arg2, tf_get. by rewrite (bind_Ret _ _ _ _ _ (aread_in NUM_IDS k_tf p s ltac:(lia))). }
  eapply runs_bind_mono; [apply (copyin_path_runs p _ t s); [by apply current_curid|done|done]|].
  intros l s1 (v & rest & -> & Hv & ->). unfold namei. eapply runs_rw; [apply bind_assoc|].
  eapply runs_bind_mono.
  { apply (namex_runs B g V L R Hmagic Hg Hsz Hnonneg Hfree false t rest (junk DIRSIZ) (remem v s) (origin t d (k_fs s)) r); [apply Hpath|exact Hc| |exact Hw].
    unfold starts, origin. destruct (s8 (hd 0 t) =? SLASH); [done|]. destruct Hcwd as (Ed & Hd & Hpos & _). exists p, d.
    split; [by apply current_curid|]. split; [rewrite <- Ed; apply tcb_get_run; lia|]. done. }
  intros [ip nm] s2 (E & Harr & Hk & _). simpl fst in Harr. rewrite E. set (f := k_fs s2) in *. clearbody f. clear E s2.
  eapply runs_bind_eq; [reflexivity|]. simpl fst. destruct r as [j|].
  2:{ destruct Harr as [-> Hf]. simpl dir_only. by apply chdir_fails. }
  destruct Harr as (Hip & Hf & Hj). rewrite (proj2 (Z.eqb_neq ip 0)) by lia.
  apply (enter_runs B g V L R Hmagic Hg Hsz Hnonneg ip (set_k_fs f (remem v s))); [done|done|simpl; rewrite Hj; by apply Hnode|].
  intros x f1 Hl Ex Ety Hnl Hk1. simpl k_fs in Ex. rewrite Hj in Ex. rewrite <- Ety, Ex. unfold dir_only.
  assert (0 < more R (ip - 1) (ip - 1)) as Hpos by (rewrite more_eq; specialize (Hnonneg (ip - 1)); lia). destruct (i_type (node V j) =? T_DIR); simpl negb; cbv iota.
  - eapply fs_bind; [by eapply unlock_runs|]. intros [] f2 (Hf2 & _ & Hi2).
    apply (chdir_enters p d s v f2 ip j); try done.
    + eapply kept_trans; [exact Hk|]. eapply kept_trans; [exact Hk1|]. by apply kept_all.
    + rewrite Hi2. simpl. by rewrite (lo_slot _ _ _ _ _ _ _ _ Hl).
  - eapply fs_bind; [by eapply unlockput_runs|]. intros [] f2 [Hf2 _]. apply chdir_fails; try done.
    eapply icache_ext; [|exact Hf2]. intros k. apply less_more.
Qed.

Lemma dispatch_chdir p s : 1 ≤ p < NUM_IDS → t_eax (k_tf s !!! p) = SYS_chdir → syscall_dispatch p (in_kernel s) = sys_chdir p (in_kernel s).
Proof.
  intros Hp E. unfold syscall_dispatch, syscall_get_arg1, tf_get.
  erewrite bind_Ret by (by rewrite (bind_Ret _ _ _ _ _ (aread_in NUM_IDS k_tf p (in_kernel s) ltac:(lia)))).
  change (k_tf (in_kernel s)) with (k_tf s). by rewrite E.
Qed.

(** C12: Changing the current directory, from the trap of the process back to it: the path is
    copied from the memory of the process and walked from the root or from its current
    directory. If it leads to a directory, this is the current directory of the process
    after the call, with a reference of its own, and the reference to the old one is given
    up; if it leads nowhere or to a file, the call fails, and the directory and all counts of
    references are as before.  The old directory must still have a name ([cwd_ok]): the
    call would delete one that has none, outside of a transaction.  The thread block, the
    registers and the page table entries of every other process are as before, and so is
    the memory of all pages that any process had, and the kernel memory outside of the page
    tables and of the buffer of the path. *)
Theorem chdir_trap p d t s r :
  user_running s p → t_trapno (k_tf s !!! p) = T_SYSCALL → t_eax (k_tf s !!! p) = SYS_chdir →
  TRAP_HANDLER s !!! (cpu, T_SYSCALL) = syscall_dispatch_addr →
  vmm_ok (vm s) → user_path (vm s) p (t_ebx (k_tf s !!! p)) t → cwd_ok s p d → icache R (k_fs s) →
  walk g V false (origin t d (k_fs s)) (cut <$> elements t) r → (∀ j, r = Some j → node_ok g V j) →
  runs (trap p) s (λ res s', res = None ∧ user_running s' p ∧ moved p d (dir_only r) s s').
Proof.
  intros Hr Hn Hnr Hh Hok Hpath Hcwd Hc Hw Hnode. pose proof Hr as [Hcpu Hi Hp Hcur _ _].
  eapply runs_mono.
  - apply (trap_runs p s (k_tf s !!! p) (moved p d (dir_only r) (in_kernel s)) Hr eq_refl); [rewrite Hn; unfold T_SYSCALL; lia|].
    rewrite Hn, Hh. unfold runs. rewrite call_syscall, dispatch_chdir by done.
    apply (runs_mono _ _ (λ _ s1, moved p d (dir_only r) (in_kernel s) s1)).
    + apply (sys_chdir_runs p d t (in_kernel s) r); [|by apply set_CR3_ok| |done..].
      * split; [done|]. split; [exact Hi|]. split; [exact Hcur|]. exact Hp.
      * by destruct Hpath.
    + intros _ s1 Hm. split; [apply Hm|done].
  - intros res s' (-> & s1 & Hsame & Hm & ->). split; [done|]. split; [by eapply back_to_running|].
    destruct Hm as [M1 [U1 U2 U3 U4 U5] M3 M4 M5]. by constructor; [|constructor; [apply set_CR3_ok|..]|..].
Qed.

End chdir.

(** ** An example *)

(** The path ["/d"] at 0x40001000 of process 1. *)
Definition demo_uva : Z := 1073745920.
Definition demo_char (i : Z) : Z := if i =? 0 then 47 else if i =? 1 then 100 else 0.

(** One character of the path. *)
Lemma demo_put v i c (f : Z → Z) :
  @vmm_ok demo_layout v → 0 ≤ i < 128 →
  (∀ j, 0 ≤ j < 128 → @present demo_layout v 1 (demo_uva + j) ∧ @ubyte demo_layout v 1 (demo_uva + j) = f j) →
  ∃ v', @vmm_ok demo_layout v' ∧ ∀ j, 0 ≤ j < 128 →
    @present demo_layout v' 1 (demo_uva + j) ∧ @ubyte demo_layout v' 1 (demo_uva + j) = if j =? i then u8 c else f j.
Proof.
  intros Hok Hi Hf.
  assert (∀ j, 0 ≤ j < 128 → user_va 1 (demo_uva + j)) as Hva
    by (intros j Hj; split; [by vm_compute|]; unfold demo_uva, VM_USERLO, VM_USERHI; lia).
  destruct (proj1 (runs_eq _ _ _) (@pt_memset_runs demo_env demo_layout eq_refl 1 (demo_uva + i) c 1 v Hok
    ltac:(unfold user_range, demo_uva, NUM_IDS, VM_USERLO, VM_USERHI; lia)
    ltac:(left; intros k Hk; replace (demo_uva + i + k) with (demo_uva + i) by lia; by apply Hf)))
    as (_ & v' & _ & _ & Hw).
  exists v'. split; [apply Hw|]. intros j Hj. destruct (Hf j Hj) as [Hp Hb]. destruct (Z.eqb_spec j i) as [->|Hne].
  - rewrite <- (Z.add_0_r (demo_uva + i)). apply (uw_new _ _ _ _ _ _ Hw 0). lia.
  - split; [exact (present_keep _ _ _ _ (uw_keep _ _ _ _ _ _ Hw _ _ (Hva j Hj) Hp) Hp)|].
    rewrite <- Hb. apply (uw_data _ _ _ _ _ _ Hw _ _ (Hva j Hj) Hp). clear -Hne. lia.
Qed.

Lemma demo_path : ∃ v, @vmm_ok demo_layout v ∧ ∀ i, 0 ≤ i < 128 →
  @present demo_layout v 1 (demo_uva + i) ∧ @ubyte demo_layout v 1 (demo_uva + i) = demo_char i.
Proof.
  destruct demo_vm as (_ & v0 & _ & _ & _ & Hok0 & Hc & _).
  destruct (proj1 (runs_eq _ _ _) (@pt_memset_runs demo_env demo_layout eq_refl 1 demo_uva 0 128 v0 Hok0
    ltac:(by vm_compute) ltac:(right; rewrite Hc; vm_compute; discriminate))) as (_ & v1 & _ & _ & Hw1).
  destruct (demo_put v1 1 100 (λ _, 0)) as (v2 & Hok2 & H2); [apply Hw1|done|intros j Hj; exact (uw_new _ _ _ _ _ _ Hw1 j Hj)|].
  destruct (demo_put v2 0 47 _ Hok2 ltac:(done) H2) as (v3 & Hok3 & H3). exists v3. split; [done|]. intros i Hi. exact (H3 i Hi).
Qed.

#[local] Instance chdir_sys : SysLayout :=
  {| kernel_buf := 33562624; path_buf := λ _, 33554432; old_buf := λ _, 33554688; new_buf := λ _, 33554944; stat_buf := λ _, 33555200 |}.
Definition chdir_refs (j : Z) : Z := b2z (j =? 0).
Definition chdir_frame : tf_t := set_gpr 0 0 demo_uva 0 0 SYS_chdir (demo_frame T_SYSCALL 0).
Definition chdir_ksys (v : vmm) (l : lg) : ksys :=
  let s := demo_ksys v chdir_frame in
  set_k_fs {| f_lg := l; icache_lock := zero_lk; inodes := {[0 := {| i_dev := 1; i_inum := 1; i_ref := 1; i_flags := 0; i_type := 0;
      i_major := 0; i_minor := 0; i_nlink := 0; i_size := 0; i_addrs := ∅ |}]}; ftable_lock := zero_lk; files := ∅ |}
    (set_k_thr (set_TCBPool {[1 := set_cwd 1 inhabitant]} (k_thr s)) s).

Lemma chdir_cache v l : tx None l 990 walk_view ∅ [] → icache None demo_geom walk_view ∅ (-1) chdir_refs (k_fs (chdir_ksys v l)).
Proof.
  intros Hl. assert (∀ j, j ≠ 0 → i_ref (slot (k_fs (chdir_ksys v l)) j) = 0) as Hz
    by (intros j Hj; simpl; by rewrite lookup_total_singleton_ne by done).
  constructor; [done|done| | |].
  - intros i j _ _ Hi Hj _ _. destruct (decide (i = 0)) as [->|Hi0]; [|rewrite Hz in Hi by done; lia].
    destruct (decide (j = 0)) as [->|Hj0]; [done|rewrite Hz in Hj by done; lia].
  - intros j _. unfold chdir_refs. destruct (Z.eqb_spec j 0) as [->|Hj]; [done|by apply Hz].
  - intros j _ _. unfold chdir_refs. destruct (Z.eqb_spec j 0) as [->|Hj]; [|done]. intros _. split; [done|by left].
Qed.

Lemma chdir_path v l : (∀ i, 0 ≤ i < 128 → @present demo_layout v 1 (demo_uva + i) ∧ @ubyte demo_layout v 1 (demo_uva + i) = demo_char i) →
  @user_path demo_layout chdir_sys (t_vmm (k_thr (chdir_ksys v l))) 1 demo_uva [47; 100].
Proof.
  intros Hb. constructor.
  - intros c Hc. apply list_elem_of_In in Hc. repeat (destruct Hc as [<-|Hc]; [discriminate|]). destruct Hc.
  - intros i c Hi. destruct (Hb (Z.of_nat i)) as [Hp Hu]; [apply lookup_lt_Some in Hi; simpl in Hi; lia|]. split; [exact Hp|].
    transitivity (demo_char (Z.of_nat i)); [exact Hu|]. do 3 (destruct i as [|i]; [by injection Hi as <-|]). done.
  - by apply Nat.ltb_lt.
  - vm_compute. intuition discriminate.
  - left. intros i Hi. apply Hb. exact Hi.
  - split; [apply demo_buffer; vm_compute; discriminate|by vm_compute].
Qed.

Lemma chdir_trap_witness : ∃ v l, let s := chdir_ksys v l in
  runs (@trap demo_env demo_layout TrapSpec.demo_stack chdir_sys demo_traps 1) s (λ res s', res = None ∧
    t_eax (k_tf s' !!! 1) = E_SUCC ∧ i_inum (slot (k_fs s') (cwd (TCBPool (k_thr s') !!! 1) - 1)) = 6).
Proof.
  destruct demo_path as (v & Hok & Hb), walk_boot as (l & Hl). exists v, l. cbv zeta. set (s := chdir_ksys v l).
  assert (@user_running demo_env demo_layout s 1) as Hrun by (by destruct (demo_running v chdir_frame)).
  pose proof (chdir_cache v l Hl) as Hc. pose proof (chdir_path v l Hb) as Hpath.
  eapply runs_mono.
  - apply (@chdir_trap demo_env demo_layout TrapSpec.demo_stack chdir_sys demo_traps None demo_geom walk_view ∅ chdir_refs eq_refl
      demo_geom_ok ltac:(by vm_compute) ltac:(intros j; unfold chdir_refs; by destruct (j =? 0))
      ltac:(exists 1, 2; unfold NINODE; repeat split; (lia || done)) 1 1 [47; 100] s (Some 6) Hrun); try reflexivity.
    + by apply set_CR3_ok.
    + exact Hpath.
    + split; [reflexivity|]. split; [by vm_compute|]. by vm_compute.
    + exact Hc.
    + eapply (walk_step _ _ _ _ _ _ 6); [by left|apply walk_root_ok|by vm_compute| |by constructor].
      exists 1. split; [by vm_compute|]. split; [by vm_compute|]. split; [|by vm_compute].
      intros i Hi. replace i with 0 by lia. vm_compute. intuition discriminate.
    + intros j [= <-]. apply walk_sub_ok.
  - intros res s' (-> & _ & Hm). split; [done|].
    change (dir_only walk_view (Some 6)) with (Some 6) in Hm. destruct (mv_cwd _ _ _ _ _ _ _ _ _ _ Hm) as (He & Hd & Hi & Hic).
    by split.
Defined.
