(* ===== verification/PutsSpec.v ===== *)
(** * Printing, from the system call to the devices

    The trap of [puts]: the string is copied from the memory of the process in parts of a
    page, printed by [dprintf] with the format "%s", and sent to the serial line and to the
    screen. *)

From S2P Require Import Prelude Spinlock Pmmap MAT Container Mem Vmm Isolation Mmu Thread UserCopy DList Bufcache Log Inode Dir File Console ConsoleSpec Seg Sysfile Printf Trap TrapSpec ChdirSpec.

(** ** The devices *)

(** What the serial line gets for the bytes [bs]: a new line is sent as two characters. *)
Definition line_text (bs : list Z) : list Z := mjoin ((λ c, if c =? 10 then [13; 10] else [c]) <$> bs).

Lemma line_text_app l r : line_text (l ++ r) = line_text l ++ line_text r.
Proof. unfold line_text. by rewrite fmap_app, join_app. Qed.

(** The bytes of a string: none of them is zero. *)
Definition is_char (c : Z) : Prop := 0 < c < 256.

Lemma s8_idem c : s8 (s8 c) = s8 c.
Proof. unfold s8. divlia. Qed.

Lemma char_signed c : is_char c → s8 c ≠ 0 ∧ u8 (s8 c) = c ∧ (s8 c =? 10) = (c =? 10).
Proof.
  unfold is_char, s8, u8. intros Hc. split; [divlia|]. split; [divlia|].
  destruct (Z.eqb_spec c 10); [subst; done|]. apply Z.eqb_neq. divlia.
Qed.

(** The console after the bytes [bs]. *)
Record said (bs : list Z) (c c' : con) : Prop := {
  sd_screen : screen_ok c';
  sd_out : com_out c' = com_out c ++ if serial_exists c =? 0 then [] else line_text bs;
  sd_exists : serial_exists c' = serial_exists c;
}.

Lemma said_app l r a b c : said l a b → said r b c → said (l ++ r) a c.
Proof.
  intros [S1 O1 E1] [S2 O2 E2]. constructor; [done| |congruence]. rewrite O2, O1, E1, <- app_assoc. f_equal.
  destruct (serial_exists a =? 0); [done|]. by rewrite line_text_app.
Qed.

Lemma said_nil c : screen_ok c → said [] c c.
Proof. intros Hs. constructor; [done| |done]. destruct (_ =? 0); by rewrite app_nil_r. Qed.

Lemma serial_wait_run c : serial_wait c = Ret (tt, c).
Proof.
  unfold serial_wait. change (Z.to_nat 12801) with (S (Z.to_nat 12800)). apply loop_inr.
  unfold com_status. erewrite bind_Ret; [|reflexivity]. by destruct (com_there c), (com_in c).
Qed.

Lemma serial_putc_run x c : is_char x →
  ∃ c', serial_putc (s8 x) c = Ret (tt, c') ∧ (screen_ok c → screen_ok c') ∧ serial_exists c' = serial_exists c ∧
    com_out c' = com_out c ++ if serial_exists c =? 0 then [] else line_text [x].
Proof.
  intros Hx. destruct (char_signed x Hx) as (_ & Eu & En). unfold serial_putc. erewrite bind_Ret; [|reflexivity].
  destruct (Z.eqb_spec (serial_exists c) 0) as [E|E].
  - rewrite E. exists c. rewrite app_nil_r. done.
  - rewrite (proj2 (nz_spec _) E). cbn [negb]. rewrite (bind_Ret _ _ _ _ _ (serial_wait_run c)).
    unfold serial_reformatnewline, line_text. cbn [fmap list_fmap]. rewrite <- En. destruct (s8 x =? 10); eexists; (split; [reflexivity|]);
      (split; [by intros []|]); (split; [done|]); simpl; [by rewrite <- app_assoc|by rewrite Eu].
Qed.

Section print.
Context `{KEnv}.

Lemma cons_putc_runs x c : is_char x → screen_ok c → runs (cons_putc (s8 x)) c (λ _ c', said [x] c c').
Proof.
  intros Hx Hs. destruct (serial_putc_run x c Hx) as (c1 & E & Hs1 & Ee & Eo). unfold cons_putc.
  eapply runs_bind_eq; [exact E|]. eapply runs_mono; [by apply video_putc_screen, Hs1|].
  intros [] c2 (Hs2 & _ & [O2 _ E2]). constructor; [done| |congruence]. by rewrite O2, Eo.
Qed.

Lemma cputs_runs bs c : Forall is_char bs → screen_ok c → runs (cputs (s8 <$> bs)) c (λ _ c', said bs c c').
Proof.
  intros Hb. revert c. induction Hb as [|x bs Hx Hb IH]; intros c Hs; cbn [fmap list_fmap cputs].
  - apply runs_ret. by apply said_nil.
  - destruct (char_signed x Hx) as (Hz & _ & _). rewrite s8_idem, (proj2 (nz_spec _) Hz).
    eapply runs_bind_mono; [by apply cons_putc_runs|]. intros [] c1 H1.
    eapply runs_mono; [apply IH, H1|]. intros [] c2 H2. by apply (said_app [x] bs c c1).
Qed.

Lemma flush_runs fuel bs c :
  Forall is_char bs → screen_ok c → (length bs < fuel)%nat → runs (flush fuel (s8 <$> bs)) c (λ _ c', said bs c c').
Proof.
  revert bs c. induction fuel as [|fuel IH]; intros bs c Hb Hs Hl; [lia|]. cbn [flush].
  set (n := Z.to_nat (CONSOLE_BUFFER_SIZE - 1)). assert (0 < n)%nat as Hn by (by apply Nat.ltb_lt).
  destruct (_ >=? _) eqn:E; [|by apply cputs_runs]. rewrite <- fmap_take, <- fmap_drop.
  assert (n ≤ length bs)%nat as Hle.
  { rewrite Z.geb_leb in E. apply Z.leb_le in E. rewrite length_fmap in E. unfold n, CONSOLE_BUFFER_SIZE in *. lia. }
  eapply runs_bind_mono; [apply cputs_runs; [by apply Forall_take|done]|]. intros [] c1 H1.
  eapply runs_mono; [apply IH; [by apply Forall_drop|apply H1|rewrite length_drop; lia]|].
  intros [] c2 H2. rewrite <- (take_drop n bs). by apply (said_app _ _ c c1).
Qed.

(** ** The format "%s" *)

(** The string [bs] is at [p]. *)
Record string_is (m : memory) (p : Z) (bs : list Z) : Prop := {
  si_range : 0 < p ∧ p + Z.of_nat (length bs) < W32;
  si_chars : Forall is_char bs;
  si_bytes : ∀ i c, bs !! i = Some c → load8 m (p + Z.of_nat i) = c;
  si_end : load8 m (p + Z.of_nat (length bs)) = 0;
}.

Lemma string_written m p bs : string_is m p bs → (length bs ≤ size m)%nat.
Proof.
  intros [[Hp Hw] Hc Hb _].
  assert (list_to_set (seqZ p (Z.of_nat (length bs))) ⊆ dom m) as Hsub.
  { intros a Ha. apply elem_of_list_to_set, elem_of_seqZ in Ha. destruct (lookup_lt_is_Some_2 bs (Z.to_nat (a - p))) as [c Ei]; [lia|].
    pose proof (Hb _ _ Ei) as E. rewrite Z2Nat.id in E by lia. replace (p + (a - p)) with a in E by lia.
    pose proof (proj1 (Forall_lookup _ _) Hc _ _ Ei) as Hcc. apply elem_of_dom. destruct (m !! a) as [v|] eqn:Em; [by eexists|].
    unfold load8 in E. rewrite u32_small, lookup_total_alt, Em in E by lia. unfold is_char in Hcc. rewrite <- E in Hcc. change (u8 (default inhabitant None)) with 0 in Hcc. lia. }
  apply subseteq_size in Hsub. rewrite size_dom, size_list_to_set, length_seqZ in Hsub by apply NoDup_seqZ. lia.
Qed.

Lemma put_str_runs m p bs k fuel w s :
  string_is m p bs → (k ≤ length bs)%nat → (length bs - k < fuel)%nat →
  put_str m fuel p (Z.of_nat k) (-1) w 0 s =
    Ret (w - Z.of_nat (length bs - k), set_out (out s ++ (s8 <$> drop k bs)) s).
Proof.
  intros Hs. pose proof Hs as [[Hp _] Hc Hb He]. revert k w s. induction fuel as [|fuel IH]; intros k w s Hk Hf; [lia|]. cbn [put_str].
  unfold str_char, loadc. rewrite (proj2 (Z.eqb_neq p 0)) by lia. destruct (decide (k = length bs)) as [->|Hne].
  - rewrite He. rewrite Nat.sub_diag, Z.sub_0_r, drop_all, app_nil_r. by destruct s.
  - destruct (lookup_lt_is_Some_2 bs k) as [x Ei]; [lia|]. rewrite (Hb _ _ Ei).
    destruct (char_signed x (proj1 (Forall_lookup _ _) Hc _ _ Ei)) as (Hz & _ & _). rewrite (proj2 (nz_spec _) Hz).
    change (nz 0) with false. cbn [andb orb negb]. change (-1 <? 0) with true. cbn [orb].
    erewrite bind_Ret; [|reflexivity]. replace (Z.of_nat k + 1) with (Z.of_nat (S k)) by lia. rewrite IH by lia.
    rewrite (drop_S _ _ _ Ei). simpl. rewrite <- app_assoc. do 2 f_equal. lia.
Qed.

Lemma vprintfmt_string m p bs :
  string_is m p bs →
  vprintfmt m false 4 [37; 115; 0] {| out := []; ap := [p] |} = Ret (tt, {| out := s8 <$> bs; ap := [] |}).
Proof.
  intros Hs. pose proof (string_written m p bs Hs) as Hl. pose proof Hs as [[Hp Hw] _ _ _].
  cbn [vprintfmt]. change (37 =? 37) with true. cbv iota.
  set (s1 := {| out := s8 <$> bs; ap := [] |}). rewrite (bind_Ret _ _ _ [0] s1); [reflexivity|].
  cbn [escape length]. rewrite (bind_Ret _ _ _ ([0], None) s1); [reflexivity|].
  change (convert m false 115 [0] [115; 0] no_flags)
    with (let! p := va_word in put_string m no_flags p ;;; ret ([0], @None flags)).
  erewrite bind_Ret; [|reflexivity]. rewrite u32_small by lia. rewrite (bind_Ret _ _ _ tt s1); [reflexivity|].
  unfold put_string. cbn [width padc precision altflag no_flags]. change ((-1 >? 0) && negb (32 =? 45)) with false. cbv iota.
  erewrite bind_Ret; [|reflexivity]. erewrite bind_Ret; [|apply (put_str_runs m p bs 0); [done|lia|unfold str_fuel; lia]].
  replace (Z.to_nat _) with 0%nat by lia. done.
Qed.

Lemma debug_info_runs m p bs c :
  string_is m p bs → screen_ok c →
  runs (debug_info m [37; 115; 0] [p]) c (λ _ c', said (if DEBUG_MSG then bs else []) c c').
Proof.
  intros Hs Hc. unfold debug_info. destruct DEBUG_MSG; [|by apply runs_ret, said_nil].
  unfold runs, vdprintf. simpl length. rewrite (vprintfmt_string m p bs Hs). cbn [out].
  apply flush_runs; [apply Hs|done|rewrite length_fmap; lia].
Qed.

End print.

(** ** The system call *)

Section puts.
Context `{KEnv, KernelLayout, Stack, SysLayout, TrapLayout}.
Hypothesis Hmagic : ks_magic = KSTACK_MAGIC.

Abbreviation cpu := ks_cpu_idx.
Abbreviation vm s := (t_vmm (k_thr s)).

(** Of the pages that processes have and of the kernel memory outside of the page tables,
    only the buffer of [p] changes. *)
Record buffered (p : Z) (v v' : vmm) : Prop := {
  bu_ok : vmm_ok v';
  bu_keep : ∀ q va, user_va q va → present v q va → upte v' q va = upte v q va ∧ ubyte v' q va = ubyte v q va;
  bu_other : ∀ q va, user_va q va → q ≠ p → upte v' q va = upte v q va;
  bu_kern : ∀ a, kern_addr a → ¬ (sys_buf p ≤ a < sys_buf p + PAGESIZE) → load8 (mem v') a = load8 (mem v) a;
}.

Lemma buffered_refl p v : vmm_ok v → buffered p v v.
Proof. by constructor. Qed.

Lemma buffered_trans p a b c : buffered p a b → buffered p b c → buffered p a c.
Proof.
  intros [O1 K1 T1 B1] [O2 K2 T2 B2]. constructor; [done|..].
  - intros q va Hu Hp. destruct (K1 q va Hu Hp) as [E1 E1']. destruct (K2 q va Hu) as [E2 E2']; [by apply (present_keep a)|].
    split; congruence.
  - intros q va Hu Hq. by rewrite T2, T1.
  - intros x Hx Hn. by rewrite B2, B1.
Qed.

Lemma sys_buf_range p : 0 ≤ p < NUM_IDS →
  0 < sys_buf p ∧ sys_buf p + PAGESIZE ≤ VM_USERLO ∧ kern_range (sys_buf p) PAGESIZE.
Proof.
  intros Hp. pose proof sys_buf_low as Hl. pose proof sys_buf_disjoint as Hd. unfold sys_buf, kern_range, kern_addr, PAGESIZE, NUM_IDS in *.
  split; [lia|]. split; [lia|]. intros i Hi. lia.
Qed.

(** The zero behind a part of the string. *)
Lemma put_zero p v i :
  0 ≤ p < NUM_IDS → vmm_ok v → 0 ≤ i < PAGESIZE → buffered p v (set_mem (store8 (sys_buf p + i) 0 (mem v)) v).
Proof.
  intros Hp Hok Hi. destruct (sys_buf_range p Hp) as (Hb & Hb' & Hk). set (m' := store8 _ _ _).
  assert (∀ a, 0 ≤ a < W32 → a ≠ sys_buf p + i → load8 m' a = load8 (mem v) a) as Ho.
  { intros a Ha Hne. unfold m'. rewrite load8_store8 by (unfold VM_USERLO, W32 in *; lia). by rewrite bool_decide_false by done. }
  assert (∀ a, 0 ≤ a < W32 → ¬ kern_addr a → load8 m' a = load8 (mem v) a) as Ha.
  { intros a Ha Hka. apply Ho; [done|]. intros ->. by apply Hka, Hk. }
  destruct (kern_change_ok v m' Hok Ha) as [Hok' Hsame].
  assert (∀ q va, user_va q va → upte (set_mem m' v) q va = upte v q va) as Hup.
  { intros q va Hu. destruct (user_va_pde q va Hu) as [Hk' Hj]. destruct (user_pde_range _ _ Hk'). by apply Hsame. }
  constructor; [done|..].
  - intros q va Hu Hpr. split; [by apply Hup|]. unfold ubyte. rewrite (phys_keep v (set_mem m' v)) by by apply Hup.
    destruct (present_frame v q va) as (_ & _ & [Hin _] & Hr & _); [done..|].
    apply Ha; [done|]. intros (Hc & _). unfold VM_USERHI, VM_USERLO in *; unfold_vm. divlia.
  - intros q va Hu _. by apply Hup.
  - intros a (Ha0 & _) Hn. apply Ho; [unfold VM_USERLO, W32 in *; lia|]. intros ->. lia.
Qed.

(** The bytes of the process from [uva] on. *)
Definition ubytes (v : vmm) (p uva n : Z) : list Z := (λ i, ubyte v p (uva + i)) <$> seqZ 0 n.

Lemma ubytes_split v p uva n k : 0 ≤ k ≤ n → ubytes v p uva n = ubytes v p uva k ++ ubytes v p (uva + k) (n - k).
Proof.
  intros Hk. unfold ubytes. replace n with (k + (n - k)) at 1 by lia. rewrite seqZ_app, fmap_app by lia. f_equal.
  rewrite Z.add_0_l. rewrite <- (Z.add_0_r k) at 1. rewrite <- fmap_add_seqZ, <- list_fmap_compose.
  apply list_fmap_ext. intros i x _. simpl. f_equal. lia.
Qed.

Lemma ubytes_lookup v p uva n i c : ubytes v p uva n !! i = Some c → ubyte v p (uva + Z.of_nat i) = c ∧ Z.of_nat i < n.
Proof.
  unfold ubytes. rewrite list_lookup_fmap. intros (x & Hx & ->)%fmap_Some. apply lookup_seqZ in Hx as [-> Hi]. by rewrite Z.add_0_l.
Qed.

(** A string of [n] bytes at [uva], in pages that are there. *)
Record user_string (v : vmm) (p uva n : Z) : Prop := {
  us_range : user_range p uva n;
  us_there : ∀ i, 0 ≤ i < n → present v p (uva + i);
  us_chars : Forall is_char (ubytes v p uva n);
}.

Lemma user_string_drop v p uva n k : 0 ≤ k ≤ n → user_string v p uva n → user_string v p (uva + k) (n - k).
Proof.
  intros Hk [(Hp & Hlo & Hhi & Hn) Ht Hc]. rewrite (ubytes_split _ _ _ n k) in Hc by done. apply Forall_app in Hc as [_ Hc].
  constructor; [unfold user_range; lia| |done]. intros i Hi. rewrite <- Z.add_assoc. apply Ht. lia.
Qed.

Lemma ubytes_keep p v v' uva n : buffered p v v' → user_string v p uva n → ubytes v' p uva n = ubytes v p uva n.
Proof.
  intros Hb [(Hp & Hlo & Hhi & Hn) Ht _]. apply list_fmap_ext. intros i x Hx. apply lookup_seqZ in Hx as [-> Hi].
  apply (bu_keep _ _ _ Hb); [split; lia|]. apply Ht. lia.
Qed.

Lemma user_string_keep p v v' uva n : buffered p v v' → user_string v p uva n → user_string v' p uva n.
Proof.
  intros Hb Hs. pose proof Hs as [Hr Ht Hc]. constructor; [done| |by rewrite (ubytes_keep p v)].
  intros i Hi. specialize (Ht i Hi). destruct Hr as (Hp & Hlo & Hhi & Hn).
  apply (present_keep v); [|done]. apply (bu_keep _ _ _ Hb); [split; lia|done].
Qed.

(** What the call leaves. *)
Record puts_done (p : Z) (bs : list Z) (s s' : ksys) : Prop := {
  pd_thread : same_thread s s';
  pd_mem : buffered p (vm s) (vm s');
  pd_con : said (if DEBUG_MSG then bs else []) (k_con s) (k_con s');
  pd_fs : k_fs s' = k_fs s;
  pd_tcb : TCBPool (k_thr s') = TCBPool (k_thr s);
  pd_frames : ∀ q, q ≠ p → k_tf s' !!! q = k_tf s !!! q;
}.

Lemma puts_done_trans p l r a b c : puts_done p l a b → puts_done p r b c → puts_done p (l ++ r) a c.
Proof.
  intros [[T1 T1'] M1 C1 F1 B1 K1] [[T2 T2'] M2 C2 F2 B2 K2].
  constructor; [split; congruence|by eapply buffered_trans| |congruence|congruence|].
  - pose proof (said_app _ _ _ _ _ C1 C2) as Hc. by destruct DEBUG_MSG.
  - intros q Hq. by rewrite K2, K1.
Qed.

(** A part of the string goes through the buffer. *)
Lemma buffer_string p v v' uva n k :
  user_string v p uva n → 0 ≤ k ≤ n → k < PAGESIZE → uread p uva k (sys_buf p) v v' →
  buffered p v (set_mem (store8 (sys_buf p + k) 0 (mem v')) v') ∧
  string_is (store8 (sys_buf p + k) 0 (mem v')) (sys_buf p) (ubytes v p uva k).
Proof.
  intros [(Hp & Hlo & Hhi & Hn) Ht Hc] Hk Hkp [O Hnew Hkeep Hother Hkern].
  destruct (sys_buf_range p ltac:(lia)) as (Hb & Hb' & _).
  rewrite (ubytes_split _ _ _ n k) in Hc by done. apply Forall_app in Hc as [Hc _].
  assert (length (ubytes v p uva k) = Z.to_nat k) as El by (unfold ubytes; by rewrite length_fmap, length_seqZ).
  split.
  - eapply buffered_trans; [|apply put_zero; [lia|done|lia]]. constructor; [done|done|done|].
    intros a Ha Hna. apply Hkern; [done|]. lia.
  - constructor; [rewrite El; unfold VM_USERLO, PAGESIZE, W32 in *; lia|done| |].
    + intros i c Hi. destruct (ubytes_lookup _ _ _ _ _ _ Hi) as [<- Hik].
      rewrite load8_store8 by (unfold VM_USERLO, PAGESIZE, W32 in *; lia). rewrite bool_decide_false by lia.
      destruct (Hnew (Z.of_nat i)) as [_ ->]; [lia|]. apply Hkeep; [split; lia|]. apply Ht. lia.
    + rewrite El, Z2Nat.id by lia. rewrite load8_store8 by (unfold VM_USERLO, PAGESIZE, W32 in *; lia). by rewrite bool_decide_true.
Qed.

Definition puts_round (tf cur_pid : Z) : Z * Z → M ksys (Z * Z + unit) := λ '(remain, cur_pos),
  if nz remain then
    let nbytes := if remain <? PAGESIZE - 1 then remain else PAGESIZE - 1 in
    let! n := zoom (pt_copyin cur_pid cur_pos (sys_buf cur_pid) nbytes) in
    if negb (n =? nbytes) then syscall_set_errno tf E_MEM ;;; ret (inr tt)
    else
      set_kmem (store8 (sys_buf cur_pid + nbytes) 0) ;;;
      let! m := kmem in
      zoom (debug_info m [37; 115; 0] [sys_buf cur_pid]) ;;;
      ret (inl (u32 (remain - nbytes), u32 (cur_pos + nbytes)))
  else syscall_set_errno tf E_SUCC ;;; ret (inr tt).

Lemma errno_done p e s : 1 ≤ p < NUM_IDS → vmm_ok (vm s) → screen_ok (k_con s) →
  runs (syscall_set_errno p e) s (λ _ s', puts_done p [] s s' ∧ t_eax (k_tf s' !!! p) = u32 e).
Proof.
  intros Hp Hok Hs. eapply runs_of_eq; [apply amod_in; lia|]. split.
  - constructor; [done|by apply buffered_refl| |done|done|intros q Hq; simpl; by rewrite lookup_total_insert_ne].
    destruct DEBUG_MSG; by apply said_nil.
  - simpl. by rewrite lookup_total_insert_eq.
Qed.

Lemma puts_loop_runs p fuel uva n s :
  vmm_ok (vm s) → user_string (vm s) p uva n → screen_ok (k_con s) → n ≤ 4095 * Z.of_nat fuel →
  runs (loop (S fuel) (puts_round p p) (n, uva)) s
    (λ _ s', puts_done p (ubytes (vm s) p uva n) s s' ∧ t_eax (k_tf s' !!! p) = E_SUCC).
Proof.
  revert uva n s. induction fuel as [|fuel IH]; intros uva n s Hok Hus Hs Hf; apply loop_S; unfold puts_round at 1;
    pose proof (us_range _ _ _ _ Hus) as (Hp & Hlo & Hhi & Hn).
  1: replace n with 0 by lia.
  2: destruct (decide (n = 0)) as [->|Hn0].
  1-2: change (nz 0) with false; cbv iota; eapply runs_bind_mono; [by apply (errno_done p E_SUCC)|];
    intros [] s' Hd; apply runs_ret; exact Hd.
  rewrite (proj2 (nz_spec _) Hn0). set (k := if n <? PAGESIZE - 1 then n else PAGESIZE - 1).
  assert (0 < k ≤ n ∧ k < PAGESIZE ∧ n - k ≤ 4095 * Z.of_nat fuel) as (Hk & Hkp & Hrest)
    by (unfold k, PAGESIZE in *; destruct (Z.ltb_spec n (4096 - 1)); lia).
  destruct (sys_buf_range p ltac:(lia)) as (Hb & Hb' & Hkr). clearbody k.
  apply runs_bind, (runs_zoom (Sub := vmm)). eapply runs_mono.
  { apply (copyin_runs Hmagic p uva (sys_buf p) k (vm s) Hok); [unfold user_range; lia|intros i Hi; apply Hkr; lia|lia|lia|].
    left. intros i Hi. apply Hus. lia. }
  intros r v [-> Hrd]. rewrite Z.eqb_refl. cbn [negb]. destruct (buffer_string p (vm s) v uva n k Hus ltac:(lia) Hkp Hrd) as [Hbu Hstr].
  eapply runs_bind_eq; [reflexivity|]. eapply runs_bind_eq; [reflexivity|]. set (v1 := set_mem _ v) in *.
  apply runs_bind, (runs_zoom (Sub := con)). eapply runs_mono; [apply (debug_info_runs _ _ _ _ Hstr Hs)|].
  intros [] c Hsaid. apply runs_ret. rewrite !u32_small by (unfold VM_USERHI, VM_USERLO, W32 in *; lia).
  match goal with |- runs _ ?s1 _ => set (s2 := s1) end.
  assert (puts_done p (ubytes (vm s) p uva k) s s2) as Hd by (constructor; done).
  pose proof (user_string_drop (vm s) p uva n k ltac:(lia) Hus) as Hus'.
  eapply runs_mono; [apply (IH (uva + k) (n - k) s2)|].
  - apply Hbu.
  - exact (user_string_keep p (vm s) (vm s2) _ _ Hbu Hus').
  - apply Hsaid.
  - lia.
  - intros r' s' [Hd' He]. split; [|done]. rewrite (ubytes_split _ _ _ n k) by lia.
    rewrite <- (ubytes_keep p (vm s) (vm s2) _ _ Hbu Hus'). by eapply puts_done_trans.
Qed.

Lemma dispatch_puts p s : 1 ≤ p < NUM_IDS → t_eax (k_tf s !!! p) = SYS_puts → syscall_dispatch p (in_kernel s) = sys_puts p (in_kernel s).
Proof.
  intros Hp E. unfold syscall_dispatch, syscall_get_arg1, tf_get.
  erewrite bind_Ret by (by rewrite (bind_Ret _ _ _ _ _ (aread_in NUM_IDS k_tf p (in_kernel s) ltac:(lia)))).
  change (k_tf (in_kernel s)) with (k_tf s). by rewrite E.
Qed.

(** The call up to its loop. *)
Lemma sys_puts_start p s : user_running s p →
  let uva := t_ebx (k_tf s !!! p) in let n := t_ecx (k_tf s !!! p) in
  sys_puts p (in_kernel s) =
  (if negb ((VM_USERLO <=? uva) && (u32 (uva + n) <=? VM_USERHI)) then syscall_set_errno p E_INVAL_ADDR
   else loop (puts_fuel n) (puts_round p p) (n, uva)) (in_kernel s).
Proof.
  intros [Hcpu Hi Hp Hcur _ _] uva n. unfold sys_puts.
  erewrite bind_Ret; [|by apply curid_user].
  erewrite bind_Ret.
  2:{ unfold syscall_get_arg2, tf_get. by rewrite (bind_Ret _ _ _ _ _ (aread_in NUM_IDS k_tf p (in_kernel s) ltac:(lia))). }
  erewrite bind_Ret.
  2:{ unfold syscall_get_arg3, tf_get. by rewrite (bind_Ret _ _ _ _ _ (aread_in NUM_IDS k_tf p (in_kernel s) ltac:(lia))). }
  done.
Qed.

Lemma puts_back p bs e s s1 :
  puts_done p bs (in_kernel s) s1 → t_eax (k_tf s1 !!! p) = e → puts_done p bs s (back_to p s1) ∧ t_eax (k_tf (back_to p s1) !!! p) = e.
Proof.
  intros [T [B1 B2 B3 B4] C F B K] He. split; [|done].
  by constructor; [|constructor; [apply set_CR3_ok|..]|..].
Qed.

(** C13: Printing, from the trap of the process back to it.  The bytes of the string, which
    is in pages that the process has and holds no zero byte, however long it is, are sent
    to the serial line, all of them, in order and once, a new line as two characters, in a
    build with [DEBUG_MSG] on a machine with a serial line; without, nothing is sent.
    The call succeeds and the cursor stays on the screen; the file system, the thread
    blocks, the registers and the page table entries of every other process, the contents
    of every page that any process had and the kernel memory outside of the page tables and
    of the buffer of the process are as before.  An address outside of the user's part is
    refused and prints nothing. *)
Theorem puts_trap p s :
  let uva := t_ebx (k_tf s !!! p) in let n := t_ecx (k_tf s !!! p) in
  user_running s p → t_trapno (k_tf s !!! p) = T_SYSCALL → t_eax (k_tf s !!! p) = SYS_puts →
  TRAP_HANDLER s !!! (cpu, T_SYSCALL) = syscall_dispatch_addr → vmm_ok (vm s) → screen_ok (k_con s) →
  (user_string (vm s) p uva n → runs (trap p) s (λ res s', res = None ∧ user_running s' p ∧
    puts_done p (ubytes (vm s) p uva n) s s' ∧ t_eax (k_tf s' !!! p) = E_SUCC)) ∧
  (¬ (VM_USERLO ≤ uva ∧ u32 (uva + n) ≤ VM_USERHI) → runs (trap p) s (λ res s', res = None ∧ user_running s' p ∧
    puts_done p [] s s' ∧ t_eax (k_tf s' !!! p) = E_INVAL_ADDR)).
Proof.
  intros uva n Hr Hno Hnr Hh Hok Hs. pose proof Hr as [_ _ Hp _ _ _].
  assert (∀ bs e, runs (sys_puts p) (in_kernel s) (λ _ s1, puts_done p bs (in_kernel s) s1 ∧ t_eax (k_tf s1 !!! p) = e) →
    runs (trap p) s (λ res s', res = None ∧ user_running s' p ∧ puts_done p bs s s' ∧ t_eax (k_tf s' !!! p) = e)) as Htrap.
  { intros bs e Hrun. eapply runs_mono.
    - apply (trap_runs p s (k_tf s !!! p) (λ s1, puts_done p bs (in_kernel s) s1 ∧ t_eax (k_tf s1 !!! p) = e) Hr eq_refl); [rewrite Hno; unfold T_SYSCALL; lia|].
      rewrite Hno, Hh. unfold runs. rewrite call_syscall, dispatch_puts by done.
      eapply runs_mono; [exact Hrun|]. intros [] s1 [Hd He]. split; [apply Hd|done].
    - intros res s' (-> & s1 & Hsame & [Hd He] & ->). split; [done|]. split; [by eapply back_to_running|]. by apply puts_back. }
  pose proof (sys_puts_start p s Hr) as E. cbv zeta in E. fold uva n in E. split.
  - intros Hus. apply Htrap. unfold runs. rewrite E. pose proof (us_range _ _ _ _ Hus) as (_ & Hlo & Hhi & Hn).
    rewrite u32_small by (unfold VM_USERLO, VM_USERHI, W32 in *; lia).
    rewrite (proj2 (Z.leb_le _ _) Hlo), (proj2 (Z.leb_le _ _) Hhi). cbn [andb negb].
    unfold puts_fuel. replace (Z.to_nat (n / (PAGESIZE - 1) + 2)) with (S (Z.to_nat (n / (PAGESIZE - 1) + 1)))
      by (unfold PAGESIZE; divlia).
    apply (puts_loop_runs p _ uva n (in_kernel s)); [by apply set_CR3_ok|by destruct Hus|done|unfold PAGESIZE; divlia].
  - intros Hbad. apply Htrap. unfold runs. rewrite E.
    rewrite (proj2 (negb_true_iff _)) by (apply andb_false_iff; rewrite !Z.leb_gt; lia).
    by apply (errno_done p E_INVAL_ADDR (in_kernel s)); [|apply set_CR3_ok|].
Qed.

End puts.

(** ** An example *)

(** A build with messages; the process prints the two bytes of its path. *)
Definition puts_env : KEnv := {| DEBUG_MSG := true; ks_cpu_idx := 0; ks_magic := KSTACK_MAGIC |}.
Definition puts_frame : tf_t := set_gpr 0 0 demo_uva 0 2 SYS_puts (demo_frame T_SYSCALL 0).

Lemma puts_bytes v : (∀ i, 0 ≤ i < 128 → @present demo_layout v 1 (demo_uva + i) ∧ @ubyte demo_layout v 1 (demo_uva + i) = demo_char i) →
  @ubytes demo_layout (t_vmm (k_thr (demo_ksys v puts_frame))) 1 demo_uva 2 = [47; 100].
Proof.
  intros Hb. pose proof (proj2 (Hb 0 ltac:(lia))) as E0. pose proof (proj2 (Hb 1 ltac:(lia))) as E1.
  change ([@ubyte demo_layout v 1 (demo_uva + 0); @ubyte demo_layout v 1 (demo_uva + 1)] = [47; 100]). by rewrite E0, E1.
Qed.

Lemma puts_trap_witness : ∃ v, let s := demo_ksys v puts_frame in
  runs (@trap puts_env demo_layout TrapSpec.demo_stack TrapSpec.demo_sys demo_traps 1) s (λ res s', res = None ∧
    com_out (k_con s') = [47; 100] ∧ t_eax (k_tf s' !!! 1) = E_SUCC).
Proof.
  destruct demo_path as (v & Hok & Hb). exists v. cbv zeta. set (s := demo_ksys v puts_frame).
  assert (@user_running puts_env demo_layout s 1) as Hrun by (destruct (demo_running v puts_frame); by constructor).
  pose proof (puts_bytes v Hb) as Ebs. fold s in Ebs. eapply runs_mono.
  - apply (proj1 (@puts_trap puts_env demo_layout TrapSpec.demo_stack TrapSpec.demo_sys demo_traps eq_refl 1 s Hrun eq_refl eq_refl
      eq_refl (set_CR3_ok _ _ Hok) ltac:(constructor; vm_compute; split; [discriminate|reflexivity]))).
    constructor; [vm_compute; intuition discriminate|intros i Hi; change (t_ecx (k_tf s !!! 1)) with 2 in Hi; apply (Hb i); lia|].
    change (Forall is_char (@ubytes demo_layout (t_vmm (k_thr s)) 1 demo_uva 2)). rewrite Ebs. repeat constructor.
  - intros res s' (-> & _ & Hd & He). split; [done|]. split; [|done].
    pose proof (sd_out _ _ _ (pd_con _ _ _ _ Hd)) as Eo. change (ubytes _ _ _ _) with (@ubytes demo_layout (t_vmm (k_thr s)) 1 demo_uva 2) in Eo.
    rewrite Ebs in Eo. exact Eo.
Defined.
