(* ===== verification/Lapic.v ===== *)
(** * The local APIC and the clocks

    kern/dev/lapic.c: the local APIC, its timer and the messages to other processors;
    kern/dev/timer.c: the interval timer; kern/dev/tsc.c: the time stamp counter;
    kern/dev/kvm.c and [cpuid] of kern/lib/x86.c.  The devices are known by what is written
    to them, in order and with the time of each write; what they answer when they are read is
    a parameter, which depends on the time and on what was written to them.  The time is the
    number of reads before. *)

From S2P Require Import Prelude Mem Thread Trap.

(** ** State *)

(** [lapic] is the address of the registers, 0 before it is known; [lapic_regs] holds the
    last value written to each register, [lapic_out] all writes; [port_out] and [msr_out]
    are the writes to I/O ports and to model-specific registers; [now] counts the reads.
    A write to the local APIC or to a port is listed as its time, its register or port, and
    the value. *)
Record apic := {
  lapic : Z;
  lapic_regs : gmap Z Z;
  lapic_out : list (Z * Z * Z);
  port_out : list (Z * Z * Z);
  msr_out : list (Z * Z);
  now : Z;
  tsc_per_ms : Z;
}.
Definition set_lapic (v : Z) (s : apic) : apic := {| lapic := v; lapic_regs := lapic_regs s; lapic_out := lapic_out s;
  port_out := port_out s; msr_out := msr_out s; now := now s; tsc_per_ms := tsc_per_ms s |}.
Definition put_lapic (i v : Z) (s : apic) : apic := {| lapic := lapic s; lapic_regs := <[i := v]> (lapic_regs s);
  lapic_out := lapic_out s ++ [(now s, i, v)]; port_out := port_out s; msr_out := msr_out s; now := now s;
  tsc_per_ms := tsc_per_ms s |}.
Definition put_port (p v : Z) (s : apic) : apic := {| lapic := lapic s; lapic_regs := lapic_regs s;
  lapic_out := lapic_out s; port_out := port_out s ++ [(now s, p, v)]; msr_out := msr_out s; now := now s;
  tsc_per_ms := tsc_per_ms s |}.
Definition put_msr (p v : Z) (s : apic) : apic := {| lapic := lapic s; lapic_regs := lapic_regs s;
  lapic_out := lapic_out s; port_out := port_out s; msr_out := msr_out s ++ [(p, v)]; now := now s;
  tsc_per_ms := tsc_per_ms s |}.
Definition tick (s : apic) : apic := {| lapic := lapic s; lapic_regs := lapic_regs s; lapic_out := lapic_out s;
  port_out := port_out s; msr_out := msr_out s; now := now s + 1; tsc_per_ms := tsc_per_ms s |}.
Definition set_tsc_per_ms (v : Z) (s : apic) : apic := {| lapic := lapic s; lapic_regs := lapic_regs s;
  lapic_out := lapic_out s; port_out := port_out s; msr_out := msr_out s; now := now s; tsc_per_ms := v |}.

(** The four registers that [cpuid] fills. *)
Record cpuid_regs := { c_eax : Z; c_ebx : Z; c_ecx : Z; c_edx : Z }.

(** What the devices answer at a time: a register of the local APIC, given the writes to the
    APIC before; an I/O port, given the writes to ports before; the time stamp counter; [cpuid], given the leaf
    and the subleaf (none where the code leaves %ecx as it is); the multiplier in the page
    that the hypervisor fills, whose address is [pvclock]. *)
Class Devices := {
  hw_lapic : list (Z * Z * Z) → Z → Z → Z;
  hw_inb : list (Z * Z * Z) → Z → Z → Z;
  hw_rdtsc : Z → Z;
  hw_cpuid : Z → Z → option Z → cpuid_regs;
  hw_pvclock_mul : Z → Z;
  pvclock : Z;
}.

Definition W64 : Z := 18446744073709551616.
Definition u64 (z : Z) : Z := z mod W64.

Section ops.
Context `{KEnv, Devices}.

(** A read of a device. *)
Definition sample {A} (f : Z → A) : M apic A := λ s, Ret (f (now s), tick s).

Definition port_inb (port : Z) : M apic Z := λ s, Ret (u8 (hw_inb (port_out s) (now s) port), tick s).
Definition port_outb (port data : Z) : M apic unit := modify (put_port port (u8 data)).
Definition rdtsc : M apic Z := sample (λ t, u64 (hw_rdtsc t)).
Definition cpuid (info : Z) : M apic cpuid_regs := sample (λ t, hw_cpuid t info None).
Definition cpuid_subleaf (leaf subleaf : Z) : M apic cpuid_regs := sample (λ t, hw_cpuid t leaf (Some subleaf)).
Definition wrmsr (msr newval : Z) : M apic unit := modify (put_msr msr (u64 newval)).

(** ** timer.c *)

Definition TIMER_FREQ : Z := 1193182.
Definition FREQ : Z := 100.
Definition CAL_MS : Z := 10.
Definition CAL_LATCH : Z := TIMER_FREQ / (1000 / CAL_MS).
Definition CAL_PIT_LOOPS : Z := 1000.
Definition PIT_CHANNEL0 : Z := 64.
Definition PIT_CONTROL : Z := 67.
Definition TIMER_DIV (x : Z) : Z := (TIMER_FREQ + x / 2) / x.
Definition LATCH : Z := TIMER_DIV FREQ.

Definition timer_hw_init : M apic unit :=
  port_outb PIT_CONTROL (Z.lor (Z.lor 0 4) 48) ;;;
  port_outb PIT_CHANNEL0 (Z.land LATCH 255) ;;;
  port_outb PIT_CHANNEL0 (Z.land (Z.shiftr LATCH 8) 255).

(** ** The calibration loops *)

(** The gate of channel 2 is set high, the speaker is off, and the channel counts [latch]
    down. *)
Definition pit_start (latch : Z) : M apic unit :=
  let! g := port_inb 97 in
  port_outb 97 (Z.lor (Z.land g (Z.lnot 2)) 1) ;;;
  port_outb 67 176 ;;;
  port_outb 66 (Z.land latch 255) ;;;
  port_outb 66 (Z.shiftr latch 8).

(** [while ((inb(0x61) & 0x20) == 0) ...]: the locals are [pitcnt], the least and the
    largest difference, and the last value read. *)
Definition pit_round (diff : Z → Z → Z) (read : M apic Z) :
    Z * Z * Z * Z → M apic (Z * Z * Z * Z + Z * Z * Z * Z) := λ '(pitcnt, tmin, tmax, t),
  let! p := port_inb 97 in
  if Z.land p 32 =? 0 then
    let! t2 := read in
    let delta := diff t t2 in
    let! pitcnt := iadd pitcnt 1 in
    ret (inl (pitcnt, if delta <? tmin then delta else tmin, if delta >? tmax then delta else tmax, t2))
  else ret (inr (pitcnt, tmin, tmax, t)).

Definition pit_loop (ones : Z) (diff : Z → Z → Z) (read : M apic Z) (t : Z) : M apic (Z * Z * Z * Z) :=
  loopw (pit_round diff read) (0, ones, 0, t).

(** ** kvm.c *)

Definition CPUID_KVM_SIGNATURE : Z := 1073741824.
Definition CPUID_KVM_FEATURES : Z := 1073741825.
Definition KVM_FEATURE_CLOCKSOURCE : Z := 0.
Definition KVM_FEATURE_CLOCKSOURCE2 : Z := 3.
Definition MSR_KVM_SYSTEM_TIME_NEW : Z := 1263947009.
Definition MSR_KVM_SYSTEM_TIME : Z := 18.
Definition CPUID_FEATURE_HYPERVISOR : Z := -2147483648.

Definition cpu_has (flag : Z) : M apic Z :=
  let eax := if nz (Z.land flag 256) then 7 else if nz (Z.land flag 32) then 2147483649 else 1 in
  let! r := cpuid_subleaf eax 0 in
  ret (Z.land (Z.shiftr (if nz (Z.land flag 256) then c_ebx r else if nz (Z.land flag 128) then c_ecx r else c_edx r)
                        (Z.land flag 31)) 1).

(** The bytes of the registers that hold the name of the vendor. *)
Definition regs_bytes (l : list Z) : list Z := l ≫= (λ w, [byte_of w 0; byte_of w 1; byte_of w 2; byte_of w 3]).

Definition KVMKVMKVM : list Z := [75; 86; 77; 75; 86; 77; 75; 86; 77].

Definition detect_kvm : M apic bool :=
  let! h := cpu_has CPUID_FEATURE_HYPERVISOR in
  if nz h then
    let! r := cpuid CPUID_KVM_SIGNATURE in
    ret (bool_decide (take 9 (regs_bytes [c_ebx r; c_ecx r; c_edx r]) = KVMKVMKVM))
  else ret false.

Definition kvm_has_feature (feature : Z) : M apic bool :=
  let! r := cpuid CPUID_KVM_FEATURES in
  ret (nz (Z.land (c_eax r) feature)).

Definition kvm_enable_feature (feature : Z) : M apic bool :=
  let! r := cpuid CPUID_KVM_FEATURES in
  ret (c_ebx r =? 0).

Definition kvm_read_clock (msr_sys_time : Z) : M apic Z :=
  wrmsr msr_sys_time (Z.lor (u32 pvclock) 1) ;;;
  let! tsc_hz := sample (λ t, u32 (hw_pvclock_mul t)) in
  wrmsr msr_sys_time (u32 pvclock) ;;;
  ret tsc_hz.

Definition kvm_get_tsc_hz : M apic Z :=
  let! f2 := kvm_has_feature KVM_FEATURE_CLOCKSOURCE2 in
  if f2 then kvm_read_clock MSR_KVM_SYSTEM_TIME_NEW
  else
    let! f := kvm_has_feature KVM_FEATURE_CLOCKSOURCE in
    if f then kvm_read_clock MSR_KVM_SYSTEM_TIME else ret 0.

(** ** tsc.c *)

Definition tsc_calibrate (latch ms loopmin : Z) : M apic Z :=
  pit_start latch ;;;
  let! t1 := rdtsc in
  let! r := pit_loop (W64 - 1) (λ tsc t2, u64 (t2 - tsc)) rdtsc t1 in
  let '(pitcnt, tscmin, tscmax, t2) := r in
  if (pitcnt <? loopmin) || (tscmax >? u64 (10 * tscmin)) then ret (W64 - 1)
  else ret (u64 (t2 - t1) / ms).

(** The tries of a calibration: the result of the first that works, or of the last. *)
Fixpoint retry (n : nat) (bad : Z) (m : M apic Z) : M apic Z :=
  match n with
  | O => ret bad
  | S n' => let! r := m in
            if negb (r =? bad) then ret r else retry n' bad m
  end.

Definition tsc_init : M apic Z :=
  timer_hw_init ;;;
  modify (set_tsc_per_ms 0) ;;;
  let! k := detect_kvm in
  if k then
    let! hz := kvm_get_tsc_hz in
    modify (set_tsc_per_ms (hz / 1000)) ;;;
    ret 0
  else
    let! r := retry 10 (W64 - 1) (tsc_calibrate CAL_LATCH CAL_MS CAL_PIT_LOOPS) in
    if r =? W64 - 1 then
      modify (set_tsc_per_ms 1000000) ;;;
      timer_hw_init ;;;
      ret 1
    else
      modify (set_tsc_per_ms r) ;;;
      timer_hw_init ;;;
      ret 0.

(** [while (rdtsc() < start + ticks);] *)
Definition wait_ticks (ticks : Z) : M apic unit :=
  let! start := rdtsc in
  loopw (λ _ : unit, let! t := rdtsc in
                     ret (if t <? u64 (start + ticks) then inl tt else inr tt)) tt.

Definition delay (ms : Z) : M apic unit :=
  let! p := gets tsc_per_ms in
  wait_ticks (u64 (p * ms)).

Definition udelay (us : Z) : M apic unit :=
  let! p := gets tsc_per_ms in
  wait_ticks (u64 (p / 1000 * us)).

(** ** lapic.c *)

Definition LAPIC_ID : Z := 8.
Definition LAPIC_VER : Z := 12.
Definition LAPIC_TPR : Z := 32.
Definition LAPIC_EOI : Z := 44.
Definition LAPIC_LDR : Z := 52.
Definition LAPIC_DFR : Z := 56.
Definition LAPIC_DFR_FLAT_MODE : Z := Z.shiftl 15 28.
Definition LAPIC_SVR : Z := 60.
Definition LAPIC_SVR_ENABLE : Z := 256.
Definition LAPIC_ESR : Z := 160.
Definition LAPIC_ICRLO : Z := 192.
Definition LAPIC_ICRLO_VECTOR : Z := 255.
Definition LAPIC_ICRLO_INIT : Z := 1280.
Definition LAPIC_ICRLO_STARTUP : Z := 1536.
Definition LAPIC_ICRLO_DELIVS : Z := 4096.
Definition LAPIC_ICRLO_ASSERT : Z := 16384.
Definition LAPIC_ICRLO_LEVEL : Z := 32768.
Definition LAPIC_ICRLO_NOBCAST : Z := 0.
Definition LAPIC_ICRLO_BCAST : Z := 524288.
Definition LAPIC_ICRHI : Z := 196.
Definition LAPIC_ICRHI_DEST_MASK : Z := 4278190080.
Definition LAPIC_ICRHI_DEST_SHIFT : Z := 24.
Definition LAPIC_TIMER : Z := 200.
Definition LAPIC_TIMER_X1 : Z := 11.
Definition LAPIC_TIMER_PERIODIC : Z := 131072.
Definition LAPIC_PCINT : Z := 208.
Definition APIC_LVTT_M : Z := 65536.
Definition LAPIC_LINT0 : Z := 212.
Definition LAPIC_LINT1 : Z := 216.
Definition LAPIC_LINT_MASKED : Z := 65536.
Definition LAPIC_ERROR : Z := 220.
Definition LAPIC_TICR : Z := 224.
Definition LAPIC_TCCR : Z := 228.
Definition LAPIC_TDCR : Z := 248.
Definition T_LERROR : Z := 50.
Definition T_IPI0 : Z := 63.
Definition IO_RTC : Z := 112.

(** An access through the null pointer before [lapic_register] is a fault. *)
Definition lapic_read (index : Z) : M apic Z := λ s,
  if lapic s =? 0 then Fault
  else Ret (u32 (hw_lapic (lapic_out s) (now s) index), tick s).

Definition lapic_write (index value : Z) : M apic unit :=
  (λ s, if lapic s =? 0 then Fault else Ret (tt, put_lapic index (u32 value) s)) ;;;
  lapic_read LAPIC_ID ;;;
  ret tt.

Definition microdelay (us : Z) : M apic unit := ret tt.

Definition lapic_register (lapic_addr : Z) : M apic unit := modify (set_lapic lapic_addr).

Definition lapic_calibrate_timer (latch ms loopmin : Z) : M apic Z :=
  lapic_write LAPIC_TICR (W32 - 1) ;;;
  pit_start latch ;;;
  let! timer1 := lapic_read LAPIC_TCCR in
  let! r := pit_loop (W32 - 1) (λ timer timer2, u32 (timer - timer2)) (lapic_read LAPIC_TCCR) timer1 in
  let '(pitcnt, timermin, timermax, timer2) := r in
  if (pitcnt <? loopmin) || (timermax >? u32 (10 * timermin)) then ret (W32 - 1)
  else ret (u32 (timer1 - timer2) / ms).

(** [while (lapic_read(LAPIC_ICRLO) & LAPIC_ICRLO_DELIVS);] *)
Definition wait_delivery : M apic unit :=
  loopw (λ _ : unit, let! v := lapic_read LAPIC_ICRLO in
                     ret (if nz (Z.land v LAPIC_ICRLO_DELIVS) then inl tt else inr tt)) tt.

Definition lapic_init : M apic unit :=
  let! l := gets lapic in
  when (l =? 0) KERN_PANIC ;;;
  lapic_write LAPIC_SVR (Z.lor LAPIC_SVR_ENABLE (T_IRQ0 + IRQ_SPURIOUS)) ;;;
  lapic_write LAPIC_TDCR LAPIC_TIMER_X1 ;;;
  lapic_write LAPIC_TIMER (Z.lor LAPIC_TIMER_PERIODIC (T_IRQ0 + IRQ_TIMER)) ;;;
  let! r := retry 5 (W32 - 1) (lapic_calibrate_timer CAL_LATCH CAL_MS CAL_PIT_LOOPS) in
  let lapic_ticks_per_ms := if r =? W32 - 1 then 500000 else r in
  let ticr := u32 (lapic_ticks_per_ms * 1000) / LAPIC_TIMER_INTR_FREQ in
  lapic_write LAPIC_TICR ticr ;;;
  lapic_write LAPIC_LINT0 LAPIC_LINT_MASKED ;;;
  lapic_write LAPIC_LINT1 LAPIC_LINT_MASKED ;;;
  let! v := lapic_read LAPIC_VER in
  when (Z.land (Z.shiftr v 16) 255 >=? 4) (lapic_write LAPIC_PCINT APIC_LVTT_M) ;;;
  lapic_write LAPIC_DFR LAPIC_DFR_FLAT_MODE ;;;
  lapic_write LAPIC_LDR 0 ;;;
  lapic_write LAPIC_ERROR T_LERROR ;;;
  lapic_write LAPIC_ESR 0 ;;;
  lapic_write LAPIC_ESR 0 ;;;
  lapic_write LAPIC_EOI 0 ;;;
  lapic_write LAPIC_ICRHI 0 ;;;
  lapic_write LAPIC_ICRLO (Z.lor (Z.lor LAPIC_ICRLO_BCAST LAPIC_ICRLO_INIT) LAPIC_ICRLO_LEVEL) ;;;
  wait_delivery ;;;
  lapic_write LAPIC_TPR 0.

Definition lapic_eoi : M apic unit :=
  let! l := gets lapic in
  when (negb (l =? 0)) (lapic_write LAPIC_EOI 0).

(** The messages that start another processor; [lapic_startcpu] of Mp also sets the warm
    reset vector in memory. *)
Definition startup_ipis (apicid addr : Z) : M apic unit :=
  lapic_write LAPIC_ICRHI (Z.shiftl apicid 24) ;;;
  lapic_write LAPIC_ICRLO (Z.lor (Z.lor LAPIC_ICRLO_INIT LAPIC_ICRLO_LEVEL) LAPIC_ICRLO_ASSERT) ;;;
  microdelay 200 ;;;
  lapic_write LAPIC_ICRLO (Z.lor LAPIC_ICRLO_INIT LAPIC_ICRLO_LEVEL) ;;;
  microdelay 100 ;;;
  for_ 0 2 (λ _,
    lapic_write LAPIC_ICRHI (Z.shiftl apicid 24) ;;;
    lapic_write LAPIC_ICRLO (Z.lor LAPIC_ICRLO_STARTUP (Z.shiftr addr 12)) ;;;
    microdelay 200).

Definition lapic_read_debug (index : Z) : M apic Z := lapic_read index.

Definition lapic_send_ipi (apicid vector deliver_mode shorthand_mode : Z) : M apic unit :=
  KERN_ASSERT (negb (deliver_mode =? LAPIC_ICRLO_INIT) && negb (deliver_mode =? LAPIC_ICRLO_STARTUP)) ;;;
  KERN_ASSERT (vector >=? T_IPI0) ;;;
  wait_delivery ;;;
  when (shorthand_mode =? LAPIC_ICRLO_NOBCAST)
    (lapic_write LAPIC_ICRHI (Z.land (Z.shiftl apicid LAPIC_ICRHI_DEST_SHIFT) LAPIC_ICRHI_DEST_MASK)) ;;;
  lapic_write LAPIC_ICRLO (Z.lor (Z.lor shorthand_mode deliver_mode) (Z.land vector LAPIC_ICRLO_VECTOR)).

End ops.
