(* ===== verification/Intr.v ===== *)
(** * Interrupts

    kern/dev/intr.c: the interrupt descriptor table, and the choice between the two kinds
    of controllers.  kern/dev/pic.c: the 8259A controllers, known by what is written to
    their ports.  kern/dev/ioapic.c: the I/O APICs, whose registers keep what is written to
    them.  kern/dev/idt.S: the entries of the traps.  What kern/dev/pcpu_mp.c
    found out about the processors is the class [CpuInfo]. *)

From S2P Require Import Prelude Spinlock Pmmap MAT Container Mem Vmm Thread UserCopy DList Bufcache Log Inode Dir File Console Seg Sysfile Printf Trap Lapic.

(** ** The entries of idt.S *)

Inductive Xentry :=
| Xdivide | Xdebug | Xnmi | Xbrkpt | Xoflow | Xbound | Xillop | Xdevice | Xdblflt | Xtss | Xsegnp
| Xstack | Xgpflt | Xpgflt | Xfperr | Xalign | Xmchk
| Xirq_timer | Xirq_kbd | Xirq_slave | Xirq_serial2 | Xirq_serial1 | Xirq_lpt | Xirq_floppy | Xirq_spurious
| Xirq_rtc | Xirq9 | Xirq10 | Xirq11 | Xirq_mouse | Xirq_coproc | Xirq_ide1 | Xirq_ide2
| Xsyscall | Xdefault.

Definition T_DEBUG : Z := 1.
Definition T_NMI : Z := 2.
Definition T_BRKPT : Z := 3.
Definition T_OFLOW : Z := 4.
Definition T_BOUND : Z := 5.
Definition T_ILLOP : Z := 6.
Definition T_DEVICE : Z := 7.
Definition T_DBLFLT : Z := 8.
Definition T_TSS : Z := 10.
Definition T_SEGNP : Z := 11.
Definition T_STACK : Z := 12.
Definition T_GPFLT : Z := 13.
Definition T_FPERR : Z := 16.
Definition T_ALIGN : Z := 17.
Definition T_MCHK : Z := 18.
Definition T_DEFAULT : Z := 254.
Definition IRQ_KBD : Z := 1.
Definition IRQ_SLAVE : Z := 2.
Definition IRQ_SERIAL24 : Z := 3.
Definition IRQ_SERIAL13 : Z := 4.
Definition IRQ_LPT2 : Z := 5.
Definition IRQ_FLOPPY : Z := 6.
Definition IRQ_COPROCESSOR : Z := 13.

(** The number that an entry pushes, and whether it pushes a zero for the error code
    (TRAPHANDLER_NOEC) or expects that the processor pushed one (TRAPHANDLER). *)
Definition traphandler (x : Xentry) : Z * bool :=
  match x with
  | Xdivide => (T_DIVIDE, true)
  | Xdebug => (T_DEBUG, true)
  | Xnmi => (T_NMI, true)
  | Xbrkpt => (T_BRKPT, true)
  | Xoflow => (T_OFLOW, true)
  | Xbound => (T_BOUND, true)
  | Xillop => (T_ILLOP, true)
  | Xdevice => (T_DEVICE, true)
  | Xdblflt => (T_DBLFLT, false)
  | Xtss => (T_TSS, false)
  | Xsegnp => (T_SEGNP, false)
  | Xstack => (T_STACK, false)
  | Xgpflt => (T_GPFLT, false)
  | Xpgflt => (T_PGFLT, false)
  | Xfperr => (T_FPERR, true)
  | Xalign => (T_ALIGN, false)
  | Xmchk => (T_MCHK, true)
  | Xirq_timer => (T_IRQ0 + IRQ_TIMER, true)
  | Xirq_kbd => (T_IRQ0 + IRQ_KBD, true)
  | Xirq_slave => (T_IRQ0 + IRQ_SLAVE, true)
  | Xirq_serial2 => (T_IRQ0 + IRQ_SERIAL24, true)
  | Xirq_serial1 => (T_IRQ0 + IRQ_SERIAL13, true)
  | Xirq_lpt => (T_IRQ0 + IRQ_LPT2, true)
  | Xirq_floppy => (T_IRQ0 + IRQ_FLOPPY, true)
  | Xirq_spurious => (T_IRQ0 + IRQ_SPURIOUS, true)
  | Xirq_rtc => (T_IRQ0 + IRQ_RTC, true)
  | Xirq9 => (T_IRQ0 + 9, true)
  | Xirq10 => (T_IRQ0 + 10, true)
  | Xirq11 => (T_IRQ0 + 11, true)
  | Xirq_mouse => (T_IRQ0 + IRQ_MOUSE, true)
  | Xirq_coproc => (T_IRQ0 + IRQ_COPROCESSOR, true)
  | Xirq_ide1 => (T_IRQ0 + IRQ_IDE1, true)
  | Xirq_ide2 => (T_IRQ0 + IRQ_IDE2, true)
  | Xsyscall => (T_SYSCALL, true)
  | Xdefault => (T_DEFAULT, false)
  end.

(** ** Gates: kern/lib/seg.h *)

Record gatedesc := {
  gd_off_15_0 : Z; gd_ss : Z; gd_args : Z; gd_rsv1 : Z; gd_type : Z; gd_s : Z; gd_dpl : Z; gd_p : Z;
  gd_off_31_16 : Z;
}.
#[global] Instance gatedesc_inhabited : Inhabited gatedesc := populate
  {| gd_off_15_0 := 0; gd_ss := 0; gd_args := 0; gd_rsv1 := 0; gd_type := 0; gd_s := 0; gd_dpl := 0; gd_p := 0;
     gd_off_31_16 := 0 |}.

Definition STS_IG32 : Z := 14.
Definition STS_TG32 : Z := 15.

Definition SETGATE (istrap sel off dpl : Z) : gatedesc := {|
  gd_off_15_0 := Z.land (u32 off) 65535; gd_ss := u16 sel; gd_args := 0; gd_rsv1 := 0;
  gd_type := if nz istrap then STS_TG32 else STS_IG32; gd_s := 0; gd_dpl := dpl mod 4; gd_p := 1;
  gd_off_31_16 := Z.shiftr (u32 off) 16 |}.

(** Where a gate leads to. *)
Definition gate_off (g : gatedesc) : Z := gd_off_15_0 g + 65536 * gd_off_31_16 g.

(** ** State *)

Definition MAX_IOAPIC : Z := 16.
Definition IO_PIC1 : Z := 32.
Definition IO_PIC2 : Z := 160.

(** The table and its register; [using_apic]; the mask and the flag of pic.c with the bytes
    written to the ports of the controllers, in their order; the I/O APICs of ioapic.c with
    the registers of each, and the local APIC. *)
Record intr := {
  idt : gmap Z gatedesc;
  IDTR : Z;
  using_apic : Z;
  irqmask : Z;
  pic_inited : Z;
  pic_out : list (Z * Z);
  ioapics : gmap Z Z;
  ioapicid : gmap Z Z;
  gsi : gmap Z Z;
  ioapic_num : Z;
  ioapic_regs : gmap (Z * Z) Z;
  i_apic : apic;
}.
Definition set_idt (v : gmap Z gatedesc) (s : intr) : intr := {| idt := v; IDTR := IDTR s; using_apic := using_apic s;
  irqmask := irqmask s; pic_inited := pic_inited s; pic_out := pic_out s; ioapics := ioapics s; ioapicid := ioapicid s;
  gsi := gsi s; ioapic_num := ioapic_num s; ioapic_regs := ioapic_regs s; i_apic := i_apic s |}.
Definition set_IDTR (v : Z) (s : intr) : intr := {| idt := idt s; IDTR := v; using_apic := using_apic s;
  irqmask := irqmask s; pic_inited := pic_inited s; pic_out := pic_out s; ioapics := ioapics s; ioapicid := ioapicid s;
  gsi := gsi s; ioapic_num := ioapic_num s; ioapic_regs := ioapic_regs s; i_apic := i_apic s |}.
Definition set_using_apic (v : Z) (s : intr) : intr := {| idt := idt s; IDTR := IDTR s; using_apic := v;
  irqmask := irqmask s; pic_inited := pic_inited s; pic_out := pic_out s; ioapics := ioapics s; ioapicid := ioapicid s;
  gsi := gsi s; ioapic_num := ioapic_num s; ioapic_regs := ioapic_regs s; i_apic := i_apic s |}.
Definition set_irqmask (v : Z) (s : intr) : intr := {| idt := idt s; IDTR := IDTR s; using_apic := using_apic s;
  irqmask := v; pic_inited := pic_inited s; pic_out := pic_out s; ioapics := ioapics s; ioapicid := ioapicid s;
  gsi := gsi s; ioapic_num := ioapic_num s; ioapic_regs := ioapic_regs s; i_apic := i_apic s |}.
Definition set_pic_inited (v : Z) (s : intr) : intr := {| idt := idt s; IDTR := IDTR s; using_apic := using_apic s;
  irqmask := irqmask s; pic_inited := v; pic_out := pic_out s; ioapics := ioapics s; ioapicid := ioapicid s;
  gsi := gsi s; ioapic_num := ioapic_num s; ioapic_regs := ioapic_regs s; i_apic := i_apic s |}.
Definition set_pic_out (v : list (Z * Z)) (s : intr) : intr := {| idt := idt s; IDTR := IDTR s; using_apic := using_apic s;
  irqmask := irqmask s; pic_inited := pic_inited s; pic_out := v; ioapics := ioapics s; ioapicid := ioapicid s;
  gsi := gsi s; ioapic_num := ioapic_num s; ioapic_regs := ioapic_regs s; i_apic := i_apic s |}.
Definition set_ioapic_tables (a b c : gmap Z Z) (n : Z) (s : intr) : intr := {| idt := idt s; IDTR := IDTR s;
  using_apic := using_apic s; irqmask := irqmask s; pic_inited := pic_inited s; pic_out := pic_out s; ioapics := a;
  ioapicid := b; gsi := c; ioapic_num := n; ioapic_regs := ioapic_regs s; i_apic := i_apic s |}.
Definition set_ioapic_regs (v : gmap (Z * Z) Z) (s : intr) : intr := {| idt := idt s; IDTR := IDTR s;
  using_apic := using_apic s; irqmask := irqmask s; pic_inited := pic_inited s; pic_out := pic_out s; ioapics := ioapics s;
  ioapicid := ioapicid s; gsi := gsi s; ioapic_num := ioapic_num s; ioapic_regs := v; i_apic := i_apic s |}.
Definition set_i_apic (v : apic) (s : intr) : intr := {| idt := idt s; IDTR := IDTR s; using_apic := using_apic s;
  irqmask := irqmask s; pic_inited := pic_inited s; pic_out := pic_out s; ioapics := ioapics s; ioapicid := ioapicid s;
  gsi := gsi s; ioapic_num := ioapic_num s; ioapic_regs := ioapic_regs s; i_apic := v |}.

#[global] Program Instance intr_apic_lens : Lens intr apic := {| lget := i_apic; lset := set_i_apic |}.
Next Obligation. done. Qed.
Next Obligation. by intros []. Qed.
Next Obligation. done. Qed.

(** The addresses of the entries and of the table. *)
Class IntrEnv := {
  X_addr : Xentry → Z;
  X_addr_range : ∀ x, 0 ≤ X_addr x < W32;
  idt_addr : Z;
}.

(** What kern/dev/pcpu_mp.c knows of the processors, as the code here asks for it: whether
    this is the processor that boots, the number of the processors and their APIC numbers.
    Mp computes it from the state of that file. *)
Class CpuInfo := {
  info_onboot : M intr bool;
  info_ncpu : M intr Z;
  info_lapicid : Z → M intr Z;
}.

Definition CPUID_FEATURE_APIC : Z := 512.

Section ops.
Context `{KEnv, IntrEnv, Devices, CpuInfo}.

(** ** pic.c *)

Definition outb (port data : Z) : M intr unit := modify (λ s, set_pic_out (pic_out s ++ [(port, u8 data)]) s).

Definition pic_init : M intr unit :=
  let! i := gets pic_inited in
  if i =? 1 then ret tt
  else
    modify (set_pic_inited 1) ;;;
    outb (IO_PIC1 + 1) 255 ;;;
    outb (IO_PIC2 + 1) 255 ;;;
    outb IO_PIC1 17 ;;;
    outb (IO_PIC1 + 1) T_IRQ0 ;;;
    outb (IO_PIC1 + 1) (Z.shiftl 1 IRQ_SLAVE) ;;;
    outb (IO_PIC1 + 1) 1 ;;;
    outb IO_PIC2 17 ;;;
    outb (IO_PIC2 + 1) (T_IRQ0 + 8) ;;;
    outb (IO_PIC2 + 1) IRQ_SLAVE ;;;
    outb (IO_PIC2 + 1) 1 ;;;
    outb IO_PIC1 104 ;;;
    outb IO_PIC1 10 ;;;
    outb IO_PIC2 104 ;;;
    outb IO_PIC2 10 ;;;
    outb (IO_PIC1 + 1) 255 ;;;
    outb (IO_PIC2 + 1) 255.

Definition pic_setmask (mask : Z) : M intr unit :=
  modify (set_irqmask mask) ;;;
  outb (IO_PIC1 + 1) mask ;;;
  outb (IO_PIC2 + 1) (Z.shiftr mask 8).

Definition pic_enable (irq : Z) : M intr unit :=
  let! m := gets irqmask in
  pic_setmask (u16 (Z.land m (Z.lnot (Z.shiftl 1 irq)))).

Definition pic_eoi : M intr unit :=
  outb IO_PIC1 32 ;;;
  outb IO_PIC2 32.

Definition pic_reset : M intr unit :=
  outb (IO_PIC1 + 1) 0 ;;;
  outb (IO_PIC2 + 1) 0 ;;;
  outb IO_PIC1 17 ;;;
  outb (IO_PIC1 + 1) T_IRQ0 ;;;
  outb (IO_PIC1 + 1) (Z.shiftl 1 IRQ_SLAVE) ;;;
  outb (IO_PIC1 + 1) 3 ;;;
  outb IO_PIC2 17 ;;;
  outb (IO_PIC2 + 1) (T_IRQ0 + 8) ;;;
  outb (IO_PIC2 + 1) IRQ_SLAVE ;;;
  outb (IO_PIC2 + 1) 1 ;;;
  outb IO_PIC1 104 ;;;
  outb IO_PIC1 10 ;;;
  outb IO_PIC2 104 ;;;
  outb IO_PIC2 10.

(** ** ioapic.c *)

Definition IOAPIC_ID : Z := 0.
Definition IOAPIC_VER : Z := 1.
Definition IOAPIC_TABLE : Z := 16.
Definition IOAPIC_INT_DISABLED : Z := 65536.

Definition ioapic_read (base reg : Z) : M intr Z := gets (λ s, u32 (ioapic_regs s !!! (base, reg))).
Definition ioapic_write (base reg data : Z) : M intr unit :=
  modify (λ s, set_ioapic_regs (<[(base, reg) := u32 data]> (ioapic_regs s)) s).

Definition ioapic_register (addr id g : Z) : M intr unit :=
  let! n := gets ioapic_num in
  if n >=? MAX_IOAPIC then ret tt
  else if inb MAX_IOAPIC n then
    modify (λ s, set_ioapic_tables (<[n := addr]> (ioapics s)) (<[n := id]> (ioapicid s)) (<[n := g]> (gsi s)) (n + 1) s)
  else fault.

Definition ioapic_init : M intr unit :=
  let! num := gets ioapic_num in
  for_ 0 num (λ i,
    let! ioapic := aread MAX_IOAPIC ioapics i in
    KERN_ASSERT (nz ioapic) ;;;
    let! r := ioapic_read ioapic IOAPIC_ID in
    let! aid := aread MAX_IOAPIC ioapicid i in
    when (u8 (Z.shiftr r 24) =? 0) (ioapic_write ioapic IOAPIC_ID (Z.shiftl aid 24)) ;;;
    let! v := ioapic_read ioapic IOAPIC_VER in
    let maxintr := Z.land (Z.shiftr v 16) 255 in
    for_ 0 (maxintr + 1) (λ j,
      ioapic_write ioapic (IOAPIC_TABLE + 2 * j) (Z.lor IOAPIC_INT_DISABLED (T_IRQ0 + j)) ;;;
      ioapic_write ioapic (IOAPIC_TABLE + 2 * j + 1) 0)).

Definition ioapic_enable (irq apicid trigger_mode polarity : Z) : M intr unit :=
  let! num := gets ioapic_num in
  let! r := for_exit 0 num (λ i,
    let! ioapic := aread MAX_IOAPIC ioapics i in
    let! v := ioapic_read ioapic IOAPIC_VER in
    let maxintr := Z.land (Z.shiftr v 16) 255 in
    let! g := aread MAX_IOAPIC gsi i in
    if (irq >=? g) && (irq <=? g + maxintr) then
      ioapic_write ioapic (IOAPIC_TABLE + 2 * (irq - g))
        (Z.lor (Z.lor (Z.shiftl trigger_mode 15) (Z.shiftl polarity 13)) (T_IRQ0 + irq)) ;;;
      ioapic_write ioapic (IOAPIC_TABLE + 2 * (irq - g) + 1) (Z.shiftl apicid 24) ;;;
      ret (Some tt)
    else ret None) in
  match r with Some _ => ret tt | None => KERN_PANIC end.

Definition ioapic_number : M intr Z := gets ioapic_num.

Definition ioapic_get (idx : Z) : M intr Z :=
  let! n := gets ioapic_num in
  if idx >=? u32 n then ret 0 else aread MAX_IOAPIC ioapics idx.

(** ** intr.c *)

(** The gates that [intr_init_idt] sets after the default ones: number, entry, and the
    privilege that an [int] instruction needs. *)
Definition gates : list (Z * Xentry * Z) :=
  [ (T_DIVIDE, Xdivide, 0); (T_DEBUG, Xdebug, 0); (T_NMI, Xnmi, 0); (T_BRKPT, Xbrkpt, 3); (T_OFLOW, Xoflow, 3);
    (T_BOUND, Xbound, 0); (T_ILLOP, Xillop, 0); (T_DEVICE, Xdevice, 0); (T_DBLFLT, Xdblflt, 0); (T_TSS, Xtss, 0);
    (T_SEGNP, Xsegnp, 0); (T_STACK, Xstack, 0); (T_GPFLT, Xgpflt, 0); (T_PGFLT, Xpgflt, 0); (T_FPERR, Xfperr, 0);
    (T_ALIGN, Xalign, 0); (T_MCHK, Xmchk, 0);
    (T_IRQ0 + IRQ_TIMER, Xirq_timer, 0); (T_IRQ0 + IRQ_KBD, Xirq_kbd, 0); (T_IRQ0 + IRQ_SLAVE, Xirq_slave, 0);
    (T_IRQ0 + IRQ_SERIAL24, Xirq_serial2, 0); (T_IRQ0 + IRQ_SERIAL13, Xirq_serial1, 0); (T_IRQ0 + IRQ_LPT2, Xirq_lpt, 0);
    (T_IRQ0 + IRQ_FLOPPY, Xirq_floppy, 0); (T_IRQ0 + IRQ_SPURIOUS, Xirq_spurious, 0); (T_IRQ0 + IRQ_RTC, Xirq_rtc, 0);
    (T_IRQ0 + 9, Xirq9, 0); (T_IRQ0 + 10, Xirq10, 0); (T_IRQ0 + 11, Xirq11, 0); (T_IRQ0 + IRQ_MOUSE, Xirq_mouse, 0);
    (T_IRQ0 + IRQ_COPROCESSOR, Xirq_coproc, 0); (T_IRQ0 + IRQ_IDE1, Xirq_ide1, 0); (T_IRQ0 + IRQ_IDE2, Xirq_ide2, 0);
    (T_SYSCALL, Xsyscall, 3); (T_DEFAULT, Xdefault, 0) ].

Definition set_gate (i : Z) (x : Xentry) (dpl : Z) : M intr unit :=
  awrite 256 idt set_idt i (SETGATE 0 CPU_GDT_KCODE (X_addr x) dpl).

Fixpoint set_gates (l : list (Z * Xentry * Z)) : M intr unit :=
  match l with
  | [] => ret tt
  | (i, x, dpl) :: r => set_gate i x dpl ;;; set_gates r
  end.

Definition intr_init_idt : M intr unit :=
  KERN_ASSERT (Z.land T_IRQ0 7 =? 0) ;;;
  for_ 0 256 (λ i, set_gate i Xdefault 0) ;;;
  set_gates gates.

Definition intr_install_idt : M intr unit := modify (set_IDTR idt_addr).

Definition intr_init : M intr unit :=
  let! r := zoom (cpuid 1) in
  modify (set_using_apic (b2z (nz (Z.land (c_edx r) CPUID_FEATURE_APIC)))) ;;;
  let! a := gets using_apic in
  KERN_ASSERT (a =? 1) ;;;
  let! b := info_onboot in
  when b
    (pic_init ;;;
     let! a := gets using_apic in
     when (nz a)
       (ioapic_init ;;;
        intr_init_idt)) ;;;
  let! a := gets using_apic in
  when (nz a) (zoom lapic_init) ;;;
  intr_install_idt.

(** [ioapic_enable], with the number of a local APIC, or [pic_enable]. *)
Definition enable_irq (irq : Z) (apicid : M intr Z) : M intr unit :=
  let! a := gets using_apic in
  if a =? 1 then
    let! id := apicid in
    ioapic_enable irq id 0 0
  else
    KERN_ASSERT (irq <? 16) ;;;
    pic_enable irq.

Definition intr_enable (irq cpunum : Z) : M intr unit :=
  let! n := info_ncpu in
  KERN_ASSERT ((cpunum =? 255) || ((0 <=? cpunum) && (u32 cpunum <? n))) ;;;
  if irq >=? 24 then ret tt
  else enable_irq irq (if cpunum =? 255 then ret 255 else info_lapicid cpunum).

Definition intr_enable_lapicid (irq lapic_id : Z) : M intr unit :=
  if irq >? 24 then ret tt else enable_irq irq (ret (if lapic_id =? 255 then 255 else u8 lapic_id)).

Definition intr_eoi : M intr unit :=
  let! a := gets using_apic in
  if a =? 1 then zoom lapic_eoi else pic_eoi.

End ops.
