(* ===== verification/IntrSpec.v ===== *)
(** * The interrupt descriptor table, verified

    Every vector has a gate into the kernel; which of them user code may raise itself, and
    which frame the entry behind a gate builds. *)

From S2P Require Import Prelude Spinlock Pmmap MAT Container Mem Vmm Thread UserCopy DList Bufcache Log Inode Dir File Console Seg Sysfile Printf Trap Lapic LapicSpec Intr.

Section idt.
Context `{KEnv, IntrEnv}.

(** The gate of an entry. *)
Definition gate (e : Xentry * Z) : gatedesc := SETGATE 0 CPU_GDT_KCODE (X_addr e.1) e.2.

Lemma gate_leads_to e : gate_off (gate e) = X_addr e.1.
Proof.
  pose proof (X_addr_range e.1) as Hr. unfold gate_off, gate, SETGATE. cbn [gd_off_15_0 gd_off_31_16].
  rewrite u32_small by done. change 65535 with (Z.ones 16). rewrite Z.land_ones, Z.shiftr_div_pow2 by lia.
  change (2 ^ 16) with 65536. Z.div_mod_to_equations. lia.
Qed.

(** The last gate that a list sets for a vector, with [d] before the list. *)
Fixpoint last_gate (l : list (Z * Xentry * Z)) (v : Z) (d : Xentry * Z) : Xentry * Z :=
  match l with
  | [] => d
  | (i, x, dpl) :: r => last_gate r v (if i =? v then (x, dpl) else d)
  end.

Lemma set_gate_run i x dpl s : 0 ≤ i < 256 →
  set_gate i x dpl s = Ret (tt, set_idt (<[i := gate (x, dpl)]> (idt s)) s).
Proof. intros Hi. unfold set_gate, awrite. by rewrite inb_true_2. Qed.

Lemma set_gates_run l s (d : Z → Xentry * Z) : Forall (λ g, 0 ≤ g.1.1 < 256) l →
  (∀ v, 0 ≤ v < 256 → idt s !!! v = gate (d v)) →
  runs (set_gates l) s (λ _ s', ∃ t, s' = set_idt t s ∧ ∀ v, 0 ≤ v < 256 → t !!! v = gate (last_gate l v (d v))).
Proof.
  intros Hl. revert s d. induction Hl as [|[[i x] dpl] l Hi Hl IH]; intros s d Hd; cbn [set_gates last_gate].
  - apply runs_ret. exists (idt s). split; [by destruct s|done].
  - eapply runs_bind_eq; [by apply set_gate_run|]. cbn in Hi.
    eapply runs_mono; [apply (IH _ (λ v, if i =? v then (x, dpl) else d v))|].
    + intros v Hv. cbn [idt set_idt]. destruct (Z.eqb_spec i v) as [->|Hne].
      * by rewrite lookup_total_insert_eq.
      * rewrite lookup_total_insert_ne by done. by apply Hd.
    + intros [] s' (t & -> & Ht). by exists t.
Qed.

(** The table is filled from the list, over default gates. *)
Lemma intr_init_idt_runs s :
  runs intr_init_idt s (λ _ s', ∃ t, s' = set_idt t s ∧
    ∀ v, 0 ≤ v < 256 → t !!! v = gate (last_gate gates v (Xdefault, 0))).
Proof.
  unfold intr_init_idt. eapply runs_bind_eq; [reflexivity|].
  eapply runs_bind_mono.
  - apply (for_runs (λ n s', ∃ t, s' = set_idt t s ∧ ∀ v, 0 ≤ v < n → t !!! v = gate (Xdefault, 0))); [lia| |].
    + exists (idt s). split; [by destruct s|lia].
    + intros n s1 Hn (t & -> & Ht). unfold runs. rewrite set_gate_run by done. eexists. split; [done|].
      intros v Hv. cbn [idt set_idt]. destruct (decide (n = v)) as [->|Hne].
      * by rewrite lookup_total_insert_eq.
      * rewrite lookup_total_insert_ne by done. apply Ht. lia.
  - intros [] s1 (t & -> & Ht). eapply runs_mono.
    + apply (set_gates_run gates _ (λ _, (Xdefault, 0))); [|exact Ht].
      apply Forall_forall. intros g Hg. apply list_elem_of_In in Hg.
      repeat (destruct Hg as [<-|Hg]; [split; [discriminate|reflexivity]|]). destruct Hg.
    + intros [] s' (t' & -> & Ht'). by exists t'.
Qed.

(** The vectors that user code may raise with an [int] instruction, those that have an
    entry of their own, and those for which the processor pushes an error code. *)
Definition user_vectors : list Z := [T_BRKPT; T_OFLOW; T_SYSCALL].
Definition own_vectors : list Z := seqZ 0 9 ++ seqZ 10 5 ++ seqZ 16 3 ++ seqZ 32 17.
Definition error_vectors : list Z := [8; 10; 11; 12; 13; 14; 17].

(** What the gate of the vector [v] is. *)
Definition gate_entry (v : Z) : Xentry * Z := last_gate gates v (Xdefault, 0).

Definition entry_ok (v : Z) : bool :=
  let e := gate_entry v in
  ((e.2 =? (if bool_decide (v ∈ user_vectors) then 3 else 0)) &&
   bool_decide (traphandler e.1 =
     if bool_decide (v ∈ own_vectors) then (v, bool_decide (v ∉ error_vectors)) else (T_DEFAULT, false)))%bool.

Lemma entries_ok v : 0 ≤ v < 256 → entry_ok v = true.
Proof.
  intros Hv. assert (forallb entry_ok (seqZ 0 256) = true) as Hall by (vm_compute; reflexivity).
  apply (proj1 (forallb_forall _ _) Hall). apply list_elem_of_In, elem_of_seqZ. lia.
Qed.

(** C39: [intr_init_idt] gives each of the 256 vectors a present interrupt gate into the
    code segment of the kernel.  User code can raise the break point, the overflow and the
    system call, and no other vector.  The entries of the exceptions 0 to 8, 10 to 14 and
    16 to 18, of the 16 hardware interrupts and of the system call build a frame with the
    number of the vector, with a zero where the processor pushes no error code; all other
    vectors go to the default entry, which expects an error code. *)
Theorem idt_gates s :
  runs intr_init_idt s (λ _ s', ∀ v, 0 ≤ v < 256 →
    let g := idt s' !!! v in let x := (gate_entry v).1 in
    gd_p g = 1 ∧ gd_type g = STS_IG32 ∧ gd_ss g = CPU_GDT_KCODE ∧ gate_off g = X_addr x ∧
    gd_dpl g = (if bool_decide (v ∈ user_vectors) then 3 else 0) ∧
    traphandler x = if bool_decide (v ∈ own_vectors) then (v, bool_decide (v ∉ error_vectors)) else (T_DEFAULT, false)).
Proof.
  eapply runs_mono; [apply intr_init_idt_runs|]. intros [] s' (t & -> & Ht) v Hv. cbn [idt set_idt]. cbv zeta.
  rewrite Ht by done. pose proof (entries_ok v Hv) as Hok. unfold entry_ok in Hok. apply andb_prop in Hok as [Hd Hx].
  apply Z.eqb_eq in Hd. apply bool_decide_eq_true in Hx. fold (gate_entry v). split; [done|]. split; [done|].
  split; [done|]. split; [apply gate_leads_to|]. split; [|done].
  unfold gate, SETGATE. cbn [gd_dpl]. rewrite Hd. by destruct (bool_decide _).
Qed.

End idt.

#[local] Program Instance demo_intr : IntrEnv := {|
  X_addr := λ x, 1048576 + 16 * (traphandler x).1; idt_addr := 2097152 |}.
Next Obligation. intros []; split; discriminate || reflexivity. Qed.

Definition demo_intr0 : intr := {| idt := ∅; IDTR := 0; using_apic := 1; irqmask := 65531; pic_inited := 1; pic_out := [];
  ioapics := ∅; ioapicid := ∅; gsi := ∅; ioapic_num := 0; ioapic_regs := ∅; i_apic := demo_apic |}.

Lemma idt_gates_witness :
  runs (@intr_init_idt demo_env demo_intr) demo_intr0
    (λ _ s', gd_dpl (idt s' !!! 14) = 0 ∧ gd_dpl (idt s' !!! 48) = 3).
Proof.
  eapply runs_mono; [apply (@idt_gates demo_env demo_intr demo_intr0)|]. intros r s' Hg.
  split; [apply (Hg 14)|apply (Hg 48)]; split; discriminate || reflexivity.
Defined.
