(* ===== verification/Mp.v ===== *)
(** * The processors of the machine

    kern/dev/acpi.c and kern/dev/pcpu_mp.c: the tables that the firmware leaves in memory,
    from which the kernel learns the processors and the interrupt controllers; the start of
    another processor; kern/pcpu/PCPUInit.  The state is the whole machine: the kernel
    [ksys], the interrupt controllers and the variables of pcpu_mp.c, PCPUInit.c, debug.c and
    of the two files under kern/dev/disk that enable the interrupt of the disk.  The tables are read
    from the physical memory, at the offsets of the structures in acpi.h and mptable.h. *)

From S2P Require Import Prelude Spinlock Pmmap MAT Container Mem Vmm Thread Bufcache Inode File Console Seg Sysfile Trap Lapic Intr.

(** ** State *)

Record mach := {
  m_sys : ksys;
  m_intr : intr;
  ncpu : Z;
  mp_inited : Z;
  ismp : Z;
  pcpu_inited : Z;
  debug_lk : reentrantlock;
  picirq_mask : Z;
  ioapic_ptr : Z;
}.
Definition set_m_sys (v : ksys) (s : mach) : mach := {| m_sys := v; m_intr := m_intr s; ncpu := ncpu s;
  mp_inited := mp_inited s; ismp := ismp s; pcpu_inited := pcpu_inited s;
  debug_lk := debug_lk s; picirq_mask := picirq_mask s; ioapic_ptr := ioapic_ptr s |}.
Definition set_m_intr (v : intr) (s : mach) : mach := {| m_sys := m_sys s; m_intr := v; ncpu := ncpu s;
  mp_inited := mp_inited s; ismp := ismp s; pcpu_inited := pcpu_inited s;
  debug_lk := debug_lk s; picirq_mask := picirq_mask s; ioapic_ptr := ioapic_ptr s |}.
Definition set_ncpu (v : Z) (s : mach) : mach := {| m_sys := m_sys s; m_intr := m_intr s; ncpu := v;
  mp_inited := mp_inited s; ismp := ismp s; pcpu_inited := pcpu_inited s;
  debug_lk := debug_lk s; picirq_mask := picirq_mask s; ioapic_ptr := ioapic_ptr s |}.
Definition set_mp_inited (v : Z) (s : mach) : mach := {| m_sys := m_sys s; m_intr := m_intr s; ncpu := ncpu s;
  mp_inited := v; ismp := ismp s; pcpu_inited := pcpu_inited s;
  debug_lk := debug_lk s; picirq_mask := picirq_mask s; ioapic_ptr := ioapic_ptr s |}.
Definition set_ismp (v : Z) (s : mach) : mach := {| m_sys := m_sys s; m_intr := m_intr s; ncpu := ncpu s;
  mp_inited := mp_inited s; ismp := v; pcpu_inited := pcpu_inited s;
  debug_lk := debug_lk s; picirq_mask := picirq_mask s; ioapic_ptr := ioapic_ptr s |}.
Definition set_pcpu_inited (v : Z) (s : mach) : mach := {| m_sys := m_sys s; m_intr := m_intr s; ncpu := ncpu s;
  mp_inited := mp_inited s; ismp := ismp s; pcpu_inited := v;
  debug_lk := debug_lk s; picirq_mask := picirq_mask s; ioapic_ptr := ioapic_ptr s |}.
Definition set_debug_lk (v : reentrantlock) (s : mach) : mach := {| m_sys := m_sys s; m_intr := m_intr s; ncpu := ncpu s;
  mp_inited := mp_inited s; ismp := ismp s; pcpu_inited := pcpu_inited s;
  debug_lk := v; picirq_mask := picirq_mask s; ioapic_ptr := ioapic_ptr s |}.
Definition set_picirq_mask (v : Z) (s : mach) : mach := {| m_sys := m_sys s; m_intr := m_intr s; ncpu := ncpu s;
  mp_inited := mp_inited s; ismp := ismp s; pcpu_inited := pcpu_inited s;
  debug_lk := debug_lk s; picirq_mask := v; ioapic_ptr := ioapic_ptr s |}.
Definition set_ioapic_ptr (v : Z) (s : mach) : mach := {| m_sys := m_sys s; m_intr := m_intr s; ncpu := ncpu s;
  mp_inited := mp_inited s; ismp := ismp s; pcpu_inited := pcpu_inited s;
  debug_lk := debug_lk s; picirq_mask := picirq_mask s; ioapic_ptr := v |}.

#[global] Program Instance mach_sys_lens : Lens mach ksys := {| lget := m_sys; lset := set_m_sys |}.
Next Obligation. done. Qed.
Next Obligation. by intros []. Qed.
Next Obligation. done. Qed.

#[global] Program Instance mach_intr_lens : Lens mach intr := {| lget := m_intr; lset := set_m_intr |}.
Next Obligation. done. Qed.
Next Obligation. by intros []. Qed.
Next Obligation. done. Qed.

#[global] Program Instance mach_thr_lens : Lens mach thr :=
  {| lget := λ s, k_thr (m_sys s); lset := λ t s, set_m_sys (set_k_thr t (m_sys s)) s |}.
Next Obligation. done. Qed.
Next Obligation. by intros [[] ?]. Qed.
Next Obligation. done. Qed.

(** The physical memory. *)
Definition phys (s : mach) : memory := mem (t_vmm (k_thr (m_sys s))).
Definition set_phys (m : memory) (s : mach) : mach :=
  set_m_sys (set_k_thr (set_t_vmm (set_mem m (t_vmm (k_thr (m_sys s)))) (k_thr (m_sys s))) (m_sys s)) s.

#[global] Program Instance mach_mem_lens : Lens mach memory := {| lget := phys; lset := set_phys |}.
Next Obligation. done. Qed.
Next Obligation. by intros [[[[]]] ?]. Qed.
Next Obligation. done. Qed.

#[global] Program Instance mach_apic_lens : Lens mach apic :=
  {| lget := λ s, i_apic (m_intr s); lset := λ t s, set_m_intr (set_i_apic t (m_intr s)) s |}.
Next Obligation. done. Qed.
Next Obligation. by intros [? []]. Qed.
Next Obligation. done. Qed.

(** The code with which the other processors start, and the kernel stack that the code
    runs on, as the linker and the boot loader place them. *)
Class MpLayout := {
  boot_ap_start : Z;
  boot_ap_size : Z;
  kern_init_ap_addr : Z;
  ks_addr : Z;
}.

Section ops.
Context `{KEnv, KernelLayout, Devices, MpLayout}.

(** ** Reading the memory *)

Definition rd8 (a : Z) : M mach Z := gets (λ s, load8 (phys s) a).
Definition rd16 (a : Z) : M mach Z := gets (λ s, load16 (phys s) a).
Definition rd32 (a : Z) : M mach Z := gets (λ s, load32 (phys s) a).
Definition rd_bytes (a n : Z) : M mach (list Z) := gets (λ s, (λ i, load8 (phys s) (a + i)) <$> seqZ 0 n).

Fixpoint sum_bytes (n : nat) (addr : Z) (m : memory) : Z :=
  match n with
  | O => 0
  | S n' => load8 m addr + sum_bytes n' (addr + 1) m
  end.

(** [sum(addr, len)] of both files: [len] is an [int], and so is the sum, which is converted
    to a byte at the end. *)
Definition sum (addr len : Z) : M mach Z :=
  let! t := gets (λ s, sum_bytes (Z.to_nat (s32 len)) addr (phys s)) in
  if t <? 2147483648 then ret (u8 t) else fault.

(** ** acpi.c *)

Definition ACPI_RSDP_SIG1 : Z := 541348690.
Definition ACPI_RSDP_SIG2 : Z := 542266448.
Definition ACPI_RSDT_SIG : Z := 1413763922.
Definition ACPI_XSDT_SIG : Z := 1413763928.
Definition ACPI_MADT_SIG : Z := 1128878145.
Definition RSDP_SIZE : Z := 36.

Definition acpi_probe_rsdp_aux (addr length : Z) : M mach Z :=
  let e := u32 (addr + length) in
  loopw (λ p,
    if p <? e then
      let! s1 := rd32 p in
      let! s2 := rd32 (p + 4) in
      if (s1 =? ACPI_RSDP_SIG1) && (s2 =? ACPI_RSDP_SIG2) then
        let! c := sum p RSDP_SIZE in
        ret (if c =? 0 then inr p else inl (u32 (p + 16)))
      else ret (inl (u32 (p + 16)))
    else ret (inr 0)) addr.

(** The segment that the BIOS data area names, as an address: [bda[0x0F]] and [bda[0x0E]]. *)
Definition ebda : M mach Z :=
  let! h := rd8 (1024 + 15) in
  let! l := rd8 (1024 + 14) in
  ret (Z.shiftl (Z.lor (Z.shiftl h 8) l) 4).

Definition acpi_probe_rsdp : M mach Z :=
  let! p := ebda in
  let! r := if nz p then acpi_probe_rsdp_aux p 1024 else ret 0 in
  if nz r then ret r else acpi_probe_rsdp_aux 917504 131071.

(** A table at [t] with the signature [sig] and the right sum. *)
Definition sdt_valid (t sig : Z) : M mach bool :=
  let! s := rd32 t in
  if s =? sig then
    let! len := rd32 (t + 4) in
    let! c := sum t len in
    ret (c =? 0)
  else ret false.

Definition acpi_probe_rsdt (rsdp : Z) : M mach Z :=
  KERN_ASSERT (nz rsdp) ;;;
  let! rsdt := rd32 (rsdp + 16) in
  if rsdt =? 0 then ret 0
  else
    let! b := sdt_valid rsdt ACPI_RSDT_SIG in
    ret (if b then rsdt else 0).

(** The first table with the signature [sig] among the entries of [size] bytes from
    [rsdt + 36] on; of an entry of eight bytes the lower half is taken. *)
Definition probe_ent (size rsdt sig : Z) : M mach Z :=
  KERN_ASSERT (nz rsdt) ;;;
  let! len := rd32 (rsdt + 4) in
  let e := u32 (rsdt + len) in
  loopw (λ i,
    if u32 (rsdt + 36 + size * i) <? e then
      let! hdr := rd32 (rsdt + 36 + size * i) in
      let! b := sdt_valid hdr sig in
      ret (if b then inr hdr else inl (i + 1))
    else ret (inr 0)) 0.

Definition acpi_probe_rsdt_ent (rsdt sig : Z) : M mach Z := probe_ent 4 rsdt sig.

Definition acpi_probe_xsdt (rsdp : Z) : M mach Z :=
  KERN_ASSERT (nz rsdp) ;;;
  let! xsdt := rd32 (rsdp + 24) in
  if xsdt =? 0 then ret 0
  else
    let! b := sdt_valid xsdt ACPI_XSDT_SIG in
    ret (if b then xsdt else 0).

Definition acpi_probe_xsdt_ent (xsdt sig : Z) : M mach Z := probe_ent 8 xsdt sig.

(** ** pcpu_mp.c: the processors *)

Definition set_lapicid (id b : Z) (x : pcpuinfo) : pcpuinfo := {|
  lapicid := id; bsp := b; cpuid_high := cpuid_high x; vendor := vendor x; cpu_vendor := cpu_vendor x;
  family := family x; model := model x; cpu_step := cpu_step x; ext_family := ext_family x; ext_model := ext_model x;
  brand_idx := brand_idx x; clflush_size := clflush_size x; max_cpu_id := max_cpu_id x; apic_id := apic_id x;
  feature1 := feature1 x; feature2 := feature2 x; l1_cache_size := l1_cache_size x;
  l1_cache_line_size := l1_cache_line_size x; cpuid_exthigh := cpuid_exthigh x |}.

Definition pcpu_mp_init_cpu (idx lapic_id is_bsp : Z) : M mach unit :=
  KERN_ASSERT (((is_bsp =? 1) && (idx =? 0)) || (is_bsp =? 0)) ;;;
  if idx >=? NUM_CPUS then ret tt
  else zoom (mod_pcpu_arch_info idx (set_lapicid lapic_id is_bsp)).

Definition pcpu_ncpu : M mach Z := gets ncpu.
Definition pcpu_is_smp : M mach Z := gets ismp.

Definition pcpu_onboot : M mach bool :=
  let! cpu_idx := zoom get_pcpu_idx in
  let! info := zoom (get_pcpu_arch_info cpu_idx) in
  let! i := gets mp_inited in
  if i =? 1 then ret (nz (bsp info))
  else let! idx := zoom get_pcpu_idx in ret (idx =? 0).

Definition pcpu_cpu_lapicid (cpu_idx : Z) : M mach Z :=
  let! n := gets ncpu in
  KERN_ASSERT ((0 <=? cpu_idx) && (u32 cpu_idx <? n)) ;;;
  let! info := zoom (get_pcpu_arch_info cpu_idx) in
  ret (u8 (lapicid info)).

(** ** pcpu_mp.c: the table of the MultiProcessor Specification *)

Definition MP_SIG : list Z := [95; 77; 80; 95].
Definition PCMP_SIG : list Z := [80; 67; 77; 80].
Definition MP_SIZE : Z := 16.
Definition MPCONF_SIZE : Z := 44.
Definition MPENAB : Z := 1.
Definition MPBOOT : Z := 2.
Definition MPPROC : Z := 0.
Definition MPBUS : Z := 1.
Definition MPIOAPIC : Z := 2.
Definition MPIOINTR : Z := 3.
Definition MPLINTR : Z := 4.

Definition mpsearch1 (addr len : Z) : M mach Z :=
  let e := u32 (addr + len) in
  loopw (λ p,
    if p <? e then
      let! sig := rd_bytes p 4 in
      if bool_decide (sig = MP_SIG) then
        let! c := sum p MP_SIZE in
        ret (if c =? 0 then inr p else inl (u32 (p + MP_SIZE)))
      else ret (inl (u32 (p + MP_SIZE)))
    else ret (inr 0)) addr.

Definition mpsearch : M mach Z :=
  let! p := ebda in
  let! r :=
    if nz p then mpsearch1 p 1024
    else
      let! h := rd8 (1024 + 20) in
      let! l := rd8 (1024 + 19) in
      mpsearch1 (u32 (Z.lor (Z.shiftl h 8) l * 1024 - 1024)) 1024 in
  if nz r then ret r else mpsearch1 983040 65536.

(** The addresses of the table and of the structure that points to it. *)
Definition mpconfig : M mach (option (Z * Z)) :=
  let! mp := mpsearch in
  if mp =? 0 then ret None
  else
    let! conf := rd32 (mp + 4) in
    if conf =? 0 then ret None
    else
      let! sig := rd_bytes conf 4 in
      if negb (bool_decide (sig = PCMP_SIG)) then ret None
      else
        let! v := rd8 (conf + 6) in
        if negb (v =? 1) && negb (v =? 4) then ret None
        else
          let! len := rd16 (conf + 4) in
          let! c := sum conf len in
          ret (if negb (c =? 0) then None else Some (conf, mp)).

(** The mode register of the interrupts: [outb(0x22, 0x70); outb(0x23, inb(0x23) | 1)]. *)
Definition imcr_apic : M mach unit :=
  zoom (port_outb 34 112) ;;;
  let! v := zoom (port_inb 35) in
  zoom (port_outb 35 (Z.lor v 1)).

Definition PCPU_AP_START_ADDR : Z := 32768.

(** One entry of the table, at [p]; [ap_idx] is the number for the next processor.  An
    unknown entry is not passed over. *)
Definition mp_entry (p ap_idx : Z) : M mach (Z * Z) :=
  let! type := rd8 p in
  if type =? MPPROC then
    let! flags := rd8 (p + 3) in
    if negb (nz (Z.land flags MPENAB)) then ret (u32 (p + 20), ap_idx)
    else
      let! apicid := rd8 (p + 1) in
      let! ap_idx :=
        if nz (Z.land flags MPBOOT) then pcpu_mp_init_cpu 0 apicid 1 ;;; ret ap_idx
        else pcpu_mp_init_cpu ap_idx apicid 0 ;;; ret (u32 (ap_idx + 1)) in
      modify (λ s, set_ncpu (u32 (ncpu s + 1)) s) ;;;
      ret (u32 (p + 20), ap_idx)
  else if type =? MPIOAPIC then
    let! apicno := rd8 (p + 1) in
    let! addr := rd32 (p + 4) in
    zoom (ioapic_register addr apicno 0) ;;;
    ret (u32 (p + 8), ap_idx)
  else if (type =? MPBUS) || (type =? MPIOINTR) || (type =? MPLINTR) then ret (u32 (p + 8), ap_idx)
  else ret (p, ap_idx).

Definition mp_entries (e : Z) (l : Z * Z) : M mach unit :=
  loopw (λ '(p, ap_idx),
    if p <? e then let! l' := mp_entry p ap_idx in ret (inl l')
    else ret (inr tt)) l.

Definition mp_init_fallback : M mach bool :=
  let! i := gets mp_inited in
  if i =? 1 then ret true
  else
    let! r := mpconfig in
    match r with
    | None => ret false
    | Some (conf, mp) =>
        modify (set_ismp 1) ;;;
        modify (set_ncpu 0) ;;;
        let! lapicaddr := rd32 (conf + 36) in
        zoom (lapic_register lapicaddr) ;;;
        let! len := rd16 (conf + 4) in
        mp_entries (u32 (conf + len)) (u32 (conf + MPCONF_SIZE), 1) ;;;
        let! imcrp := rd8 (mp + 12) in
        when (nz imcrp) imcr_apic ;;;
        zoom (memcpy PCPU_AP_START_ADDR boot_ap_start boot_ap_size) ;;;
        modify (set_mp_inited 1) ;;;
        ret true
    end.

(** ** pcpu_mp.c: the tables of ACPI *)

Definition ACPI_APIC_ENABLED : Z := 1.
Definition ACPI_MADT_APIC_LAPIC : Z := 0.
Definition ACPI_MADT_APIC_IOAPIC : Z := 1.
Definition APIC_MADT_PCAT_COMPAT : Z := 1.

(** One entry, at [p]; [found_bsp] and [ap_idx] are the locals of the loop. *)
Definition madt_entry (p ap_idx : Z) (found_bsp : bool) : M mach (Z * Z * bool) :=
  let! type := rd8 p in
  let! l :=
    if type =? ACPI_MADT_APIC_LAPIC then
      let! flags := rd32 (p + 4) in
      if negb (nz (Z.land flags ACPI_APIC_ENABLED)) then ret (ap_idx, found_bsp)
      else
        let! lapic_id := rd8 (p + 3) in
        let! ap_idx :=
          if negb found_bsp then pcpu_mp_init_cpu 0 lapic_id 1 ;;; ret ap_idx
          else pcpu_mp_init_cpu ap_idx lapic_id 0 ;;; ret (u32 (ap_idx + 1)) in
        modify (λ s, set_ncpu (u32 (ncpu s + 1)) s) ;;;
        ret (ap_idx, true)
    else if type =? ACPI_MADT_APIC_IOAPIC then
      let! id := rd8 (p + 2) in
      let! addr := rd32 (p + 4) in
      let! g := rd32 (p + 8) in
      zoom (ioapic_register addr id (s32 g)) ;;;
      ret (ap_idx, found_bsp)
    else ret (ap_idx, found_bsp) in
  let! length := rd8 (p + 1) in
  ret (u32 (p + length), l.1, l.2).

Definition madt_entries (e : Z) (l : Z * Z * bool) : M mach unit :=
  loopw (λ '(p, ap_idx, found_bsp),
    if p <? e then let! l' := madt_entry p ap_idx found_bsp in ret (inl l')
    else ret (inr tt)) l.

(** The address of the table of the APICs, or 0. *)
Definition probe_madt : M mach Z :=
  let! rsdp := acpi_probe_rsdp in
  if rsdp =? 0 then ret 0
  else
    let! xsdt := acpi_probe_xsdt rsdp in
    if nz xsdt then acpi_probe_xsdt_ent xsdt ACPI_MADT_SIG
    else
      let! rsdt := acpi_probe_rsdt rsdp in
      if rsdt =? 0 then ret 0 else acpi_probe_rsdt_ent rsdt ACPI_MADT_SIG.

Definition pcpu_mp_init : M mach bool :=
  let! i := gets mp_inited in
  if i =? 1 then ret true
  else
    let! madt := probe_madt in
    if madt =? 0 then
      let! b := mp_init_fallback in
      if b then ret true
      else
        modify (set_ismp 0) ;;;
        modify (set_ncpu 1) ;;;
        ret false
    else
      modify (set_ismp 1) ;;;
      let! lapic_addr := rd32 (madt + 36) in
      zoom (lapic_register lapic_addr) ;;;
      modify (set_ncpu 0) ;;;
      let! len := rd32 (madt + 4) in
      madt_entries (u32 (madt + len)) (u32 (madt + 44), 1, false) ;;;
      let! flags := rd32 (madt + 40) in
      when (Z.land flags APIC_MADT_PCAT_COMPAT =? 0) imcr_apic ;;;
      zoom (memmove PCPU_AP_START_ADDR boot_ap_start boot_ap_size) ;;;
      modify (set_mp_inited 1) ;;;
      ret true.

(** ** The start of another processor *)

(** The warm reset vector of the BIOS is at 0x467. *)
Definition lapic_startcpu (apicid addr : Z) : M mach unit :=
  zoom (port_outb IO_RTC 15) ;;;
  zoom (port_outb (IO_RTC + 1) 10) ;;;
  modify (λ s, set_phys (store8 1128 0 (store8 1127 0 (phys s))) s) ;;;
  modify (λ s, set_phys (store8 1130 (u16 (Z.shiftr addr 4) / 256) (store8 1129 (Z.shiftr addr 4) (phys s))) s) ;;;
  zoom (startup_ipis apicid addr).

(** [f] is the function that the processor is to run; [others] is what the other processors
    do between two looks at the flag. *)
Definition pcpu_boot_ap (others : M mach unit) (cpu_idx f stack_addr : Z) : M mach Z :=
  let! n := pcpu_ncpu in
  KERN_ASSERT ((cpu_idx >? 0) && (cpu_idx <? n)) ;;;
  let! i := zoom (get_pcpu_inited_info cpu_idx) in
  KERN_ASSERT (i =? 1) ;;;
  KERN_ASSERT (nz f) ;;;
  let! b := pcpu_onboot in
  if negb b then ret 1
  else
    let! booted := zoom (get_pcpu_boot_info cpu_idx) in
    if booted =? 1 then ret 0
    else
      let boot := PCPU_AP_START_ADDR in
      modify (λ s, set_phys (store32 (boot - 12) kern_init_ap_addr (store32 (boot - 8) f
                     (store32 (boot - 4) (u32 (stack_addr + 4096)) (phys s)))) s) ;;;
      let! id := pcpu_cpu_lapicid cpu_idx in
      lapic_startcpu id boot ;;;
      loopw (λ _ : unit,
        let! b := zoom (get_pcpu_boot_info cpu_idx) in
        if b =? 0 then others ;;; ret (inl tt) else ret (inr tt)) tt ;;;
      let! b := zoom (get_pcpu_boot_info cpu_idx) in
      KERN_ASSERT (b =? 1) ;;;
      ret 0.

End ops.
