(* ===== verification/MpSpec.v ===== *)
(** * The tables of the firmware, verified

    The search for a structure finds the first valid one; the entries of the ACPI table of
    APICs become the processor records and the list of the I/O APICs; and what malformed
    tables do. *)

From S2P Require Import Prelude Spinlock Pmmap MAT Container Mem Vmm Isolation Mmu Thread Bufcache Log Inode File Console Seg Sysfile Trap TrapSpec Lapic LapicSpec Intr IntrSpec Mp.

(** ** Sums *)

Lemma sum_bytes_range n a m : 0 ≤ sum_bytes n a m ≤ 255 * Z.of_nat n.
Proof.
  revert a. induction n as [|n IH]; intros a; cbn [sum_bytes]; [lia|].
  pose proof (load8_range m a). specialize (IH (a + 1)). lia.
Qed.

(** The sum of a range whose length is a small [int]. *)
Lemma sum_small addr len s : 0 ≤ len ≤ 8421504 →
  sum addr len s = Ret (u8 (sum_bytes (Z.to_nat len) addr (phys s)), s).
Proof.
  intros Hl. unfold sum, gets. unfold bind. rewrite s32_small by (unfold is_s32; lia).
  pose proof (sum_bytes_range (Z.to_nat len) addr (phys s)).
  by rewrite (proj2 (Z.ltb_lt _ _)) by lia.
Qed.

(** A length with the top bit set is negative as an [int]: nothing is summed. *)
Lemma sum_negative addr len s : 2147483648 ≤ len < W32 → sum addr len s = Ret (0, s).
Proof.
  intros Hl. unfold sum, gets, bind. assert (s32 len ≤ 0) as Hn.
  { unfold s32, W32 in *. divlia. }
  by rewrite Z2Nat.nonpos.
Qed.

(** ** Searching in steps of 16 bytes *)

(** The first valid slot among [n], or 0. *)
Fixpoint first_slot (valid : Z → bool) (n : nat) (p : Z) : Z :=
  match n with
  | O => 0
  | S n' => if valid p then p else first_slot valid n' (p + 16)
  end.

(** The number of the slots that start in [len] bytes. *)
Definition slots (len : Z) : nat := Z.to_nat ((len + 15) / 16).

Definition mp_valid (m : memory) (p : Z) : bool :=
  bool_decide ((λ i, load8 m (p + i)) <$> seqZ 0 4 = MP_SIG) && (u8 (sum_bytes 16 p m) =? 0).

Definition rsdp_valid (m : memory) (p : Z) : bool :=
  (load32 m p =? ACPI_RSDP_SIG1) && (load32 m (p + 4) =? ACPI_RSDP_SIG2) && (u8 (sum_bytes 36 p m) =? 0).

(** A search is given by its round. *)
Lemma scan16 (body : Z → M mach (Z + Z)) (valid : Z → bool) e n p s :
  0 ≤ p → p + 16 * Z.of_nat n < W32 → p + 16 * Z.of_nat n - 16 < e ≤ p + 16 * Z.of_nat n →
  (∀ q, q < e → body q s = Ret (if valid q then inr q else inl (u32 (q + 16)), s)) →
  (∀ q, e ≤ q → body q s = Ret (inr 0, s)) →
  loop (S n) body p s = Ret (first_slot valid n p, s).
Proof.
  revert p. induction n as [|n IH]; intros p Hp Hw He Hb Hend.
  - apply loop_inr. rewrite Hend by lia. done.
  - cbn [first_slot]. specialize (Hb p ltac:(lia)) as E. destruct (valid p).
    + by apply loop_inr.
    + rewrite (loop_inl _ _ _ _ _ _ E). rewrite u32_small by lia. apply IH; try lia; done.
Qed.

Section mp.
Context `{KEnv, KernelLayout, Devices, MpLayout}.

Lemma mpsearch1_run addr len s : 0 ≤ addr → 0 < len → addr + len + 16 < W32 →
  mpsearch1 addr len s = Ret (first_slot (mp_valid (phys s)) (slots len) addr, s).
Proof.
  intros Ha Hl Hw. unfold mpsearch1. rewrite (u32_small (addr + len)) by lia.
  assert (16 * Z.of_nat (slots len) - 16 < len ≤ 16 * Z.of_nat (slots len)) as Hs.
  { unfold slots. rewrite Z2Nat.id by (apply Z.div_pos; lia). divlia. }
  apply (loopw_Ret (S (slots len))); [unfold W32 in *; lia|].
  apply scan16 with (e := addr + len); try lia.
  - intros q Hq. rewrite (proj2 (Z.ltb_lt _ _)) by done. unfold rd_bytes, gets, bind, mp_valid.
    case_bool_decide; [|done]. rewrite sum_small by (unfold MP_SIZE; lia). cbn [andb]. by destruct (_ =? 0).
  - intros q Hq. by rewrite (proj2 (Z.ltb_ge _ _)) by lia.
Qed.

Lemma acpi_probe_rsdp_aux_run addr len s : 0 ≤ addr → 0 < len → addr + len + 16 < W32 →
  acpi_probe_rsdp_aux addr len s = Ret (first_slot (rsdp_valid (phys s)) (slots len) addr, s).
Proof.
  intros Ha Hl Hw. unfold acpi_probe_rsdp_aux. rewrite (u32_small (addr + len)) by lia.
  assert (16 * Z.of_nat (slots len) - 16 < len ≤ 16 * Z.of_nat (slots len)) as Hs.
  { unfold slots. rewrite Z2Nat.id by (apply Z.div_pos; lia). divlia. }
  apply (loopw_Ret (S (slots len))); [unfold W32 in *; lia|].
  apply scan16 with (e := addr + len); try lia.
  - intros q Hq. rewrite (proj2 (Z.ltb_lt _ _)) by done. unfold rd32, gets, bind, rsdp_valid.
    destruct (_ && _); [|done]. rewrite sum_small by (unfold RSDP_SIZE; lia). cbn [andb]. by destruct (_ =? 0).
  - intros q Hq. by rewrite (proj2 (Z.ltb_ge _ _)) by lia.
Qed.

(** What [first_slot] finds. *)
Lemma first_slot_spec valid n p : 0 < p →
  (∃ k, 0 ≤ k < Z.of_nat n ∧ first_slot valid n p = p + 16 * k ∧ valid (p + 16 * k) = true ∧
        ∀ j, 0 ≤ j < k → valid (p + 16 * j) = false) ∨
  (first_slot valid n p = 0 ∧ ∀ j, 0 ≤ j < Z.of_nat n → valid (p + 16 * j) = false).
Proof.
  revert p. induction n as [|n IH]; intros p Hp; cbn [first_slot]; [right; split; [done|lia]|].
  destruct (valid p) eqn:Ev.
  - left. exists 0. rewrite Z.mul_0_r, Z.add_0_r. split; [lia|]. split; [done|]. split; [done|lia].
  - assert (∀ j, 0 ≤ j → p + 16 + 16 * j = p + 16 * (j + 1)) as Hj by lia.
    destruct (IH (p + 16)) as [(k & Hk & E & Hv & Hn)|[E Hn]]; [lia| |].
    + left. exists (k + 1). rewrite Hj in E, Hv by lia. split; [lia|]. split; [done|]. split; [done|].
      intros j Hj'. destruct (decide (j = 0)) as [->|]; [by rewrite Z.mul_0_r, Z.add_0_r|].
      specialize (Hn (j - 1) ltac:(lia)). rewrite Hj in Hn by lia. by replace (j - 1 + 1) with j in Hn by lia.
    + right. split; [done|]. intros j Hj'. destruct (decide (j = 0)) as [->|]; [by rewrite Z.mul_0_r, Z.add_0_r|].
      specialize (Hn (j - 1) ltac:(lia)). rewrite Hj in Hn by lia. by replace (j - 1 + 1) with j in Hn by lia.
Qed.

(** ** From the firmware's pointer to the table of the APICs

    What the memory of a machine with ACPI holds, said without the code. *)

(** The first valid slot of the [n] slots from [a] on. *)
Definition first_in (valid : Z → bool) (a : Z) (n : nat) (p : Z) : Prop :=
  ∃ k, 0 ≤ k < Z.of_nat n ∧ p = a + 16 * k ∧ valid p = true ∧ ∀ j, 0 ≤ j < k → valid (a + 16 * j) = false.

Lemma first_in_slot valid a n p : 0 ≤ a → first_in valid a n p → first_slot valid n a = p.
Proof.
  intros Ha (k & Hk & -> & Hv & Hn). revert a k Ha Hk Hv Hn. induction n as [|n IH]; intros a k Ha Hk Hv Hn; [lia|].
  cbn [first_slot]. destruct (decide (k = 0)) as [->|Hk0].
  - by rewrite Z.mul_0_r, Z.add_0_r in *; rewrite Hv.
  - specialize (Hn 0 ltac:(lia)) as Hn0. rewrite Z.mul_0_r, Z.add_0_r in Hn0. rewrite Hn0.
    rewrite (IH (a + 16) (k - 1)); [lia|lia|lia| |].
    + by replace (a + 16 + 16 * (k - 1)) with (a + 16 * k) by lia.
    + intros j Hj. replace (a + 16 + 16 * j) with (a + 16 * (j + 1)) by lia. apply Hn. lia.
Qed.

Lemma no_slot valid a n : (∀ j, 0 ≤ j < Z.of_nat n → valid (a + 16 * j) = false) → first_slot valid n a = 0.
Proof.
  revert a. induction n as [|n IH]; intros a Hn; cbn [first_slot]; [done|].
  specialize (Hn 0 ltac:(lia)) as Hn0. rewrite Z.mul_0_r, Z.add_0_r in Hn0. rewrite Hn0. apply IH.
  intros j Hj. replace (a + 16 + 16 * j) with (a + 16 * (j + 1)) by lia. apply Hn. lia.
Qed.

(** The segment of the extended BIOS data area, as an address. *)
Definition ebda_of (m : memory) : Z := (load8 m 1039 * 256 + load8 m 1038) * 16.

(** The root pointer: the first structure with its signature whose 36 bytes sum up to zero, in the
    first kilobyte of the extended BIOS data area or else in the ROM of the BIOS. *)
Definition rsdp_at (m : memory) (p : Z) : Prop :=
  (ebda_of m ≠ 0 ∧ first_in (rsdp_valid m) (ebda_of m) (slots 1024) p) ∨
  ((ebda_of m = 0 ∨ ∀ j, 0 ≤ j < 64 → rsdp_valid m (ebda_of m + 16 * j) = false) ∧
   first_in (rsdp_valid m) 917504 (slots 131071) p).

(** A table with the signature and a sum of zero, shorter than 8 MB; and what is none. *)
Definition sum_of (m : memory) (t : Z) : Z := u8 (sum_bytes (Z.to_nat (load32 m (t + 4))) t m).
Definition valid_table (m : memory) (sig t : Z) : Prop :=
  load32 m t = sig ∧ load32 m (t + 4) ≤ 8388608 ∧ sum_of m t = 0.
Definition not_table (m : memory) (sig t : Z) : Prop :=
  load32 m t ≠ sig ∨ load32 m (t + 4) ≤ 8388608 ∧ sum_of m t ≠ 0.

(** The root table at [t], with entries of [size] bytes: the extended one when there is one. *)
Definition root_at (m : memory) (rsdp size t : Z) : Prop :=
  (size = 8 ∧ t = load32 m (rsdp + 24) ∧ t ≠ 0 ∧ valid_table m ACPI_XSDT_SIG t) ∨
  (size = 4 ∧ (load32 m (rsdp + 24) = 0 ∨ not_table m ACPI_XSDT_SIG (load32 m (rsdp + 24))) ∧
   t = load32 m (rsdp + 16) ∧ t ≠ 0 ∧ valid_table m ACPI_RSDT_SIG t).

(** Entry [k] of the root table. *)
Definition root_ent (m : memory) (size t k : Z) : Z := load32 m (t + 36 + size * k).

(** The tables of the firmware lead to the table of the APICs at [madt]: it is the first such
    table in the root table. *)
Definition acpi_tables (m : memory) (madt : Z) : Prop :=
  ∃ rsdp size t k, rsdp_at m rsdp ∧ root_at m rsdp size t ∧
    0 ≤ k ∧ t + 36 + size * k < t + load32 m (t + 4) ∧ t + load32 m (t + 4) < W32 ∧
    madt = root_ent m size t k ∧ valid_table m ACPI_MADT_SIG madt ∧
    ∀ j, 0 ≤ j < k → not_table m ACPI_MADT_SIG (root_ent m size t j).

(** *** The search finds it *)

Lemma ebda_run s : ebda s = Ret (ebda_of (phys s), s).
Proof.
  unfold ebda, rd8, gets, bind, ret, ebda_of. change (1024 + 15) with 1039. change (1024 + 14) with 1038. do 2 f_equal. pose proof (load8_range (phys s) 1038).
  rewrite !Z.shiftl_mul_pow2 by lia. rewrite lor_pow2 by (change (2 ^ 8) with 256; lia). done.
Qed.

Lemma probe_rsdp_run p s : rsdp_at (phys s) p → acpi_probe_rsdp s = Ret (p, s) ∧ 0 < p < 2 ^ 21.
Proof.
  intros Hp. pose proof (load8_range (phys s) 1039). pose proof (load8_range (phys s) 1038).
  assert (0 ≤ ebda_of (phys s) < 1048576) as He by (unfold ebda_of; lia).
  assert (first_slot (rsdp_valid (phys s)) (slots 131071) 917504 = p → 0 < p → p < 2 ^ 21 →
    (ebda_of (phys s) = 0 ∨ first_slot (rsdp_valid (phys s)) (slots 1024) (ebda_of (phys s)) = 0) → acpi_probe_rsdp s = Ret (p, s)) as Hrom.
  { intros E Hp0 _ He0. unfold acpi_probe_rsdp. kstep (ebda_run s). unfold nz.
    destruct (Z.eqb_spec (ebda_of (phys s)) 0) as [Ez|Ez]; cbn [negb].
    - rewrite bind_ret_l. cbn. rewrite acpi_probe_rsdp_aux_run by (unfold W32; lia).
      by rewrite E.
    - destruct He0 as [|He0]; [done|]. kstep (acpi_probe_rsdp_aux_run (ebda_of (phys s)) 1024 s ltac:(lia) ltac:(lia) ltac:(unfold W32; lia)).
      rewrite He0. cbn. rewrite acpi_probe_rsdp_aux_run by (unfold W32; lia).
      by rewrite E. }
  destruct Hp as [(Hne & Hf)|(Hno & Hf)].
  - pose proof (first_in_slot _ _ _ _ (proj1 He) Hf) as E. destruct Hf as (k & Hk & Hp & _). change (Z.of_nat (slots 1024)) with 64 in Hk. change (Z.of_nat (slots 131071)) with 8192 in Hk. assert (0 < p < 2 ^ 21) as Hr by (change (2 ^ 21) with 2097152; lia).
    split; [|done]. unfold acpi_probe_rsdp. kstep (ebda_run s). unfold nz. rewrite (proj2 (Z.eqb_neq _ _) Hne). cbn [negb].
    kstep (acpi_probe_rsdp_aux_run (ebda_of (phys s)) 1024 s ltac:(lia) ltac:(lia) ltac:(unfold W32; lia)).
    rewrite E. by rewrite (proj2 (Z.eqb_neq p 0)) by lia.
  - pose proof (first_in_slot _ 917504 _ _ ltac:(lia) Hf) as E. destruct Hf as (k & Hk & Hp & _). change (Z.of_nat (slots 1024)) with 64 in Hk. change (Z.of_nat (slots 131071)) with 8192 in Hk. assert (0 < p < 2 ^ 21) as Hr by (change (2 ^ 21) with 2097152; lia).
    split; [|done]. apply Hrom; [done|lia|lia|]. destruct Hno as [|Hno]; [by left|]. right. by apply no_slot.
Qed.

Lemma sdt_valid_true t sig s : valid_table (phys s) sig t → sdt_valid t sig s = Ret (true, s).
Proof.
  intros (Hs & Hl & Hz). pose proof (load32_range (phys s) (t + 4)). unfold sdt_valid, rd32, gets. unfold bind at 1. rewrite Hs, Z.eqb_refl.
  unfold bind at 1. kstep (sum_small t (load32 (phys s) (t + 4)) s ltac:(lia)). fold (sum_of (phys s) t). by rewrite Hz.
Qed.

Lemma sdt_valid_false t sig s : not_table (phys s) sig t → sdt_valid t sig s = Ret (false, s).
Proof.
  intros Hn. pose proof (load32_range (phys s) (t + 4)). unfold sdt_valid, rd32, gets. unfold bind at 1.
  destruct (Z.eqb_spec (load32 (phys s) t) sig) as [E|E]; [|done]. destruct Hn as [|[Hl Hz]]; [done|].
  unfold bind at 1. kstep (sum_small t (load32 (phys s) (t + 4)) s ltac:(lia)). fold (sum_of (phys s) t).
  by rewrite (proj2 (Z.eqb_neq _ _) Hz).
Qed.

(** The search among the entries. *)
Lemma probe_ent_run size t k madt s : 0 < size ≤ 8 → 0 < t → 0 ≤ k →
  t + 36 + size * k < t + load32 (phys s) (t + 4) → t + load32 (phys s) (t + 4) < W32 →
  madt = root_ent (phys s) size t k → valid_table (phys s) ACPI_MADT_SIG madt →
  (∀ j, 0 ≤ j < k → not_table (phys s) ACPI_MADT_SIG (root_ent (phys s) size t j)) →
  probe_ent size t ACPI_MADT_SIG s = Ret (madt, s).
Proof.
  intros Hsz Ht Hk Hin He -> Hv Hn. unfold probe_ent. unfold KERN_ASSERT, nz. rewrite (proj2 (Z.eqb_neq t 0)) by lia. cbn [negb].
  rewrite bind_ret_l. unfold rd32 at 1, gets at 1, bind at 1. rewrite (u32_small (t + _)) by lia.
  apply (loopw_Ret (S (Z.to_nat k))); [unfold W32 in *; nia|].
  assert (∀ n i, 0 ≤ i → i + Z.of_nat n = k → loop (S n) (λ i, if u32 (t + 36 + size * i) <? t + load32 (phys s) (t + 4) then
      let! hdr := rd32 (t + 36 + size * i) in let! b := sdt_valid hdr ACPI_MADT_SIG in ret (if b then inr hdr else inl (i + 1))
    else ret (inr 0)) i s = Ret (root_ent (phys s) size t k, s)) as Hl; [|apply Hl; lia].
  induction n as [|n IH]; intros i Hi E.
  - replace i with k by lia. apply loop_inr. rewrite u32_small by nia. rewrite (proj2 (Z.ltb_lt _ _)) by done.
    unfold rd32, gets. unfold bind at 1. fold (root_ent (phys s) size t k). by kstep (sdt_valid_true _ _ s Hv).
  - rewrite (loop_inl _ _ i (i + 1) s s).
    + apply IH; lia.
    + rewrite u32_small by nia. rewrite (proj2 (Z.ltb_lt _ _)) by nia. unfold rd32, gets. unfold bind at 1.
      fold (root_ent (phys s) size t i). by kstep (sdt_valid_false _ _ s (Hn i ltac:(lia))).
Qed.

Lemma probe_madt_run madt s : acpi_tables (phys s) madt → probe_madt s = Ret (madt, s).
Proof.
  intros (rsdp & size & t & k & Hp & Hroot & Hk & Hin & He & Hm & Hv & Hn).
  destruct (probe_rsdp_run rsdp s Hp) as [Er Hr]. unfold probe_madt. kstep Er. rewrite (proj2 (Z.eqb_neq rsdp 0)) by lia.
  unfold acpi_probe_xsdt, acpi_probe_rsdt, KERN_ASSERT, nz. rewrite (proj2 (Z.eqb_neq rsdp 0)) by lia. cbn [negb].
  rewrite bind_assoc, bind_ret_l, bind_assoc. unfold rd32 at 1, gets at 1. unfold bind at 1.
  destruct Hroot as [(-> & -> & Hne & Hx)|(-> & Hno & -> & Hne & Hx)].
  - rewrite (proj2 (Z.eqb_neq _ _) Hne), bind_assoc. kstep (sdt_valid_true _ _ s Hx). rewrite bind_ret_l.
    rewrite (proj2 (Z.eqb_neq _ _) Hne). cbn [negb]. pose proof (load32_range (phys s) (rsdp + 24)).
    apply (probe_ent_run 8 _ k); try done; lia.
  - assert ((if load32 (phys s) (rsdp + 24) =? 0 then ret 0 else
        let! b := sdt_valid (load32 (phys s) (rsdp + 24)) ACPI_XSDT_SIG in ret (if b then load32 (phys s) (rsdp + 24) else 0)) s
        = Ret (0, s)) as Ex.
    { destruct (Z.eqb_spec (load32 (phys s) (rsdp + 24)) 0) as [|E0]; [done|]. destruct Hno as [|Hno]; [done|].
      by kstep (sdt_valid_false _ _ s Hno). }
    kstep Ex. cbn [negb Z.eqb]. rewrite bind_assoc, bind_ret_l, bind_assoc. unfold rd32 at 1, gets at 1. unfold bind at 1.
    rewrite (proj2 (Z.eqb_neq _ _) Hne), bind_assoc. kstep (sdt_valid_true _ _ s Hx). rewrite bind_ret_l.
    rewrite (proj2 (Z.eqb_neq _ _) Hne). pose proof (load32_range (phys s) (rsdp + 16)).
    apply (probe_ent_run 4 _ k); try done; lia.
Qed.

(** ** The table of the APICs *)

(** What an entry says: a processor, an I/O APIC, or something the kernel does not use. *)
Inductive apic_ent :=
| ELapic (id : Z) (enabled : bool)
| EIoapic (id addr g : Z)
| EOther.

Definition ent_at (m : memory) (p : Z) : apic_ent :=
  if load8 m p =? 0 then ELapic (load8 m (p + 3)) (nz (Z.land (load32 m (p + 4)) 1))
  else if load8 m p =? 1 then EIoapic (load8 m (p + 2)) (load32 m (p + 4)) (s32 (load32 m (p + 8)))
  else EOther.

(** The entries from [p] to the end [e] of the table; each gives its own length. *)
Inductive madt_list (m : memory) (e : Z) : Z → list apic_ent → Prop :=
| madt_nil p : e ≤ p → madt_list m e p []
| madt_cons p l : p < e → 0 < load8 m (p + 1) → madt_list m e (p + load8 m (p + 1)) l →
    madt_list m e p (ent_at m p :: l).

(** The processors that are enabled, and the I/O APICs, in the order of the table. *)
Definition cpu_of (x : apic_ent) : option Z := match x with ELapic id true => Some id | _ => None end.
Definition io_of (x : apic_ent) : option (Z * Z * Z) := match x with EIoapic id a g => Some (id, a, g) | _ => None end.
Definition cpu_ids (l : list apic_ent) : list Z := omap cpu_of l.
Definition io_apics (l : list apic_ent) : list (Z * Z * Z) := omap io_of l.

Lemma cpu_ids_1 x : cpu_ids [x] = match cpu_of x with Some i => [i] | None => [] end.
Proof. by unfold cpu_ids; cbn; destruct (cpu_of x). Qed.
Lemma io_apics_1 x : io_apics [x] = match io_of x with Some i => [i] | None => [] end.
Proof. by unfold io_apics; cbn; destruct (io_of x). Qed.
Lemma cpu_ids_cons x l : cpu_ids (x :: l) = cpu_ids [x] ++ cpu_ids l.
Proof. unfold cpu_ids; cbn; by destruct (cpu_of x). Qed.
Lemma io_apics_cons x l : io_apics (x :: l) = io_apics [x] ++ io_apics l.
Proof. unfold io_apics; cbn; by destruct (io_of x). Qed.

Definition info_of (s : mach) (i : Z) : pcpuinfo := arch_info (pcpu (k_thr (m_sys s)) !!! i).

(** The processors [ids] and the controllers [ios] are known in [s]: the number of the
    processors is that of the table, the records of the first eight of them are filled,
    the first is the one that boots; the first sixteen controllers are registered. *)
Record enumerated (s0 : mach) (ids : list Z) (ios : list (Z * Z * Z)) (s : mach) : Prop := {
  en_phys : phys s = phys s0;
  en_ismp : ismp s = ismp s0;
  en_lapic : lapic (i_apic (m_intr s)) = lapic (i_apic (m_intr s0));
  en_ncpu : ncpu s = Z.of_nat (length ids);
  en_cpu : ∀ i id, ids !! i = Some id → Z.of_nat i < NUM_CPUS →
    lapicid (info_of s (Z.of_nat i)) = id ∧ bsp (info_of s (Z.of_nat i)) = b2z (bool_decide (i = 0%nat));
  en_num : ioapic_num (m_intr s) = Z.min MAX_IOAPIC (Z.of_nat (length ios));
  en_io : ∀ i id a g, ios !! i = Some (id, a, g) → Z.of_nat i < MAX_IOAPIC →
    ioapics (m_intr s) !!! Z.of_nat i = a ∧ ioapicid (m_intr s) !!! Z.of_nat i = id ∧ gsi (m_intr s) !!! Z.of_nat i = g;
}.

(** The locals of the loop, when [n] processors are known. *)
Definition next_ap (n : nat) : Z := Z.max 1 (Z.of_nat n).
Definition have_bsp (n : nat) : bool := bool_decide (n ≠ 0%nat).

(** A record is filled. *)
Lemma fill_info_run i id v s : 0 ≤ i < NUM_CPUS →
  runs (zoom (mod_pcpu_arch_info i (set_lapicid id v))) s (λ _ s',
    (phys s' = phys s ∧ ncpu s' = ncpu s ∧ m_intr s' = m_intr s ∧ ismp s' = ismp s) ∧
    lapicid (info_of s' i) = id ∧ bsp (info_of s' i) = v ∧ ∀ j, j ≠ i → info_of s' j = info_of s j).
Proof.
  intros Hi. unfold mod_pcpu_arch_info, pcpu_mod, zoom, fzoom, runs. rewrite amod_in by done.
  unfold info_of. cbn. rewrite !lookup_total_insert_eq. cbn. do 3 (split; [done|]).
  intros j Hj. by rewrite lookup_total_insert_ne by done.
Qed.

Lemma init_cpu_slot n id s : Z.of_nat n < W32 - 1 →
  runs (if negb (have_bsp n) then pcpu_mp_init_cpu 0 id 1 ;;; ret (next_ap n)
        else pcpu_mp_init_cpu (next_ap n) id 0 ;;; ret (u32 (next_ap n + 1))) s
    (λ r s', r = next_ap (S n) ∧ (phys s' = phys s ∧ ncpu s' = ncpu s ∧ m_intr s' = m_intr s ∧ ismp s' = ismp s) ∧
       (Z.of_nat n < NUM_CPUS → lapicid (info_of s' (Z.of_nat n)) = id ∧
          bsp (info_of s' (Z.of_nat n)) = b2z (bool_decide (n = 0%nat))) ∧
       ∀ i, i ≠ Z.of_nat n → info_of s' i = info_of s i).
Proof.
  intros Hn. unfold pcpu_mp_init_cpu, have_bsp. destruct n as [|k].
  - apply runs_bind. eapply runs_bind_eq; [reflexivity|]. change (0 >=? NUM_CPUS) with false. cbv iota.
    eapply runs_mono; [apply (fill_info_run 0 id 1); unfold NUM_CPUS; lia|].
    intros [] s1 (P1 & P2 & P3 & P4). by apply runs_ret.
  - rewrite bool_decide_true by done. assert (next_ap (S k) = Z.of_nat (S k)) as -> by (unfold next_ap; lia).
    apply runs_bind. eapply runs_bind_eq; [unfold KERN_ASSERT; by rewrite orb_true_r|].
    assert (u32 (Z.of_nat (S k) + 1) = next_ap (S (S k))) as Hu by (unfold next_ap; rewrite u32_small; lia).
    rewrite Z.geb_leb. destruct (Z.leb_spec NUM_CPUS (Z.of_nat (S k))).
    + apply runs_ret, runs_ret. split; [done|]. split; [done|]. split; [lia|done].
    + eapply runs_mono; [apply (fill_info_run (Z.of_nat (S k)) id 0); lia|].
      intros [] s1 (P1 & P2 & P3 & P4). apply runs_ret. by rewrite bool_decide_false.
Qed.

(** The next processor. *)
Lemma init_cpu_known s0 ids ios id s : enumerated s0 ids ios s → Z.of_nat (length ids) < W32 - 1 →
  runs (let n := length ids in
        let! ap := if negb (have_bsp n) then pcpu_mp_init_cpu 0 id 1 ;;; ret (next_ap n)
                   else pcpu_mp_init_cpu (next_ap n) id 0 ;;; ret (u32 (next_ap n + 1)) in
        modify (λ s, set_ncpu (u32 (ncpu s + 1)) s) ;;; ret (ap, true)) s
    (λ r s', r = (next_ap (length (ids ++ [id])), have_bsp (length (ids ++ [id]))) ∧ enumerated s0 (ids ++ [id]) ios s').
Proof.
  intros [Ep Es Ea En Ec Eu Ei] Hlen. cbv zeta. eapply runs_bind_mono; [by apply init_cpu_slot|].
  intros r s' (-> & (P1 & P2 & P3 & P6) & P4 & P5). eapply runs_bind_eq; [reflexivity|]. apply runs_ret.
  rewrite length_app. cbn [length]. replace (length ids + 1)%nat with (S (length ids)) by lia. split; [done|].
  split; cbn [m_intr ncpu ismp set_ncpu]; rewrite ?P3, ?P6; try done.
  - by rewrite <- Ep, <- P1.
  - rewrite P2, En, u32_small by lia. rewrite length_app. cbn. lia.
  - intros i id' Hl Hi8. change (info_of _ ?j) with (info_of s' j). apply lookup_app_Some in Hl as [Hl|[Hn Hl]].
    + rewrite P5; [by apply Ec|]. apply lookup_lt_Some in Hl. lia.
    + apply list_lookup_singleton_Some in Hl as [Hz <-]. replace i with (length ids) in * by lia. by apply P4.
Qed.

(** The next I/O APIC. *)
Lemma ioapic_known s0 ids ios id a g s : enumerated s0 ids ios s →
  runs (zoom (ioapic_register a id g)) s (λ _, enumerated s0 ids (ios ++ [(id, a, g)])).
Proof.
  intros [Ep Es Ea En Ec Eu Ei]. unfold ioapic_register, runs, zoom, fzoom, bind, gets. cbn. rewrite Eu.
  rewrite Z.geb_leb. destruct (Z.leb_spec MAX_IOAPIC (Z.min MAX_IOAPIC (Z.of_nat (length ios)))) as [Hge|Hlt].
  - cbn. split; try done.
    + cbn. rewrite Eu, length_app. cbn. lia.
    + intros i id' a' g' Hl Hi. apply lookup_app_Some in Hl as [Hl|[Hn Hl]]; [by apply (Ei i)|lia].
  - rewrite inb_true_2 by lia. cbn. rewrite Z.min_r by lia. split; try done.
    + cbn. rewrite length_app. cbn. lia.
    + cbn. intros i id' a' g' Hl Hi. apply lookup_app_Some in Hl as [Hl|[Hn Hl]].
      * apply lookup_lt_Some in Hl as Hlt'. rewrite !lookup_total_insert_ne by lia. by apply (Ei i).
      * apply list_lookup_singleton_Some in Hl as [Hz [= -> -> ->]]. replace i with (length ios) by lia.
        by rewrite !lookup_total_insert_eq.
Qed.

(** One entry of the table. *)
Lemma madt_entry_known s0 ids ios p s : enumerated s0 ids ios s → Z.of_nat (length ids) < W32 - 1 →
  let x := ent_at (phys s0) p in
  let ids' := ids ++ cpu_ids [x] in
  runs (madt_entry p (next_ap (length ids)) (have_bsp (length ids))) s (λ l s',
    l = (u32 (p + load8 (phys s0) (p + 1)), next_ap (length ids'), have_bsp (length ids')) ∧
    enumerated s0 ids' (ios ++ io_apics [x]) s').
Proof.
  intros He Hlen x ids'. unfold madt_entry. pose proof (en_phys _ _ _ _ He) as Ep.
  eapply runs_bind_eq; [reflexivity|]. rewrite Ep. apply runs_bind_mono with (Q := λ l s',
    l = (next_ap (length ids'), have_bsp (length ids')) ∧ enumerated s0 ids' (ios ++ io_apics [x]) s').
  - subst ids' x. rewrite cpu_ids_1, io_apics_1. unfold ent_at, ACPI_MADT_APIC_LAPIC, ACPI_MADT_APIC_IOAPIC.
    destruct (load8 (phys s0) p =? 0); [|destruct (load8 (phys s0) p =? 1)].
    + eapply runs_bind_eq; [reflexivity|]. rewrite Ep. unfold ACPI_APIC_ENABLED, nz.
      destruct (Z.land (load32 (phys s0) (p + 4)) 1 =? 0); cbn [negb cpu_of io_of].
      * rewrite !app_nil_r. by apply runs_ret.
      * eapply runs_bind_eq; [reflexivity|]. rewrite Ep, (app_nil_r ios). by apply init_cpu_known.
    + do 3 (eapply runs_bind_eq; [reflexivity|]). rewrite Ep. cbn [cpu_of io_of].
      rewrite app_nil_r. eapply runs_bind_mono; [by apply ioapic_known|]. intros [] s' He'. by apply runs_ret.
    + cbn [cpu_of io_of]. rewrite !app_nil_r. by apply runs_ret.
  - intros l s' [-> He']. eapply runs_bind_eq; [reflexivity|]. apply runs_ret. split; [|done].
    by rewrite (en_phys _ _ _ _ He').
Qed.

Lemma madt_list_length m e p l : madt_list m e p l → Z.of_nat (length l) ≤ Z.max 0 (e - p).
Proof. induction 1 as [p|p l Hp Hl _ IH]; cbn [length]; lia. Qed.

(** The rounds of the loop. *)
Lemma madt_loop_known s0 e p l ids ios s : madt_list (phys s0) e p l → e + 255 < W32 - 1 → 0 ≤ p →
  enumerated s0 ids ios s → Z.of_nat (length ids) ≤ p →
  runs (loop (S (length l)) (λ '(p, ap_idx, found_bsp),
    if p <? e then let! l' := madt_entry p ap_idx found_bsp in ret (inl l')
    else ret (inr tt)) (p, next_ap (length ids), have_bsp (length ids))) s
    (λ _, enumerated s0 (ids ++ cpu_ids l) (ios ++ io_apics l)).
Proof.
  intros Hl. revert ids ios s. induction Hl as [p Hp|p l Hp Hz Hl IH]; intros ids ios s Hw Hp0 He Hi; apply loop_S.
  - rewrite (proj2 (Z.ltb_ge _ _)) by done. apply runs_ret. by rewrite !app_nil_r.
  - rewrite (proj2 (Z.ltb_lt _ _)) by done. pose proof (load8_range (phys s0) (p + 1)).
    eapply runs_bind_mono; [apply madt_entry_known; [done|lia]|]. intros l' s' [-> He']. apply runs_ret.
    rewrite u32_small by lia. eapply runs_mono; [apply IH; try done; try lia|].
    + rewrite length_app, cpu_ids_1. destruct (cpu_of _); cbn [length]; lia.
    + intros [] s2. by rewrite (cpu_ids_cons _ l), (io_apics_cons _ l), !app_assoc.
Qed.

Lemma madt_entries_known s0 e p l s : madt_list (phys s0) e p l → e + 255 < W32 - 1 → 0 ≤ p →
  enumerated s0 [] [] s → runs (madt_entries e (p, 1, false)) s (λ _, enumerated s0 (cpu_ids l) (io_apics l)).
Proof.
  intros Hl Hw Hp He. pose proof (madt_list_length _ _ _ _ Hl). apply (loopw_runs (S (length l))); [unfold W32 in *; lia|].
  by apply (madt_loop_known s0 e p l [] [] s).
Qed.

Lemma imcr_apic_known b s0 ids ios s : enumerated s0 ids ios s →
  runs (when b imcr_apic) s (λ _, enumerated s0 ids ios).
Proof.
  intros [Ep Es Ea En Ec Eu Ei]. destruct b; [|by apply runs_ret]. unfold when, imcr_apic.
  do 2 (eapply runs_bind_eq; [reflexivity|]). by split.
Qed.

(** C18: the processors of an ACPI machine.  When the memory holds a root pointer whose 36
    bytes sum up to zero (the code sums 36 bytes for every version of ACPI), a root table it
    points to, and a table of APICs that is its first entry with this signature
    ([acpi_tables]), [pcpu_mp_init] finds that table and ends, however long it is; it counts
    the enabled processors, gives the first eight of them the numbers 0, 1, ... in the order
    of the table and takes the first for the one that boots, registers up to sixteen I/O
    APICs in their order, finds the local APIC, and puts the code with which the other
    processors start at 0x8000. *)
Theorem acpi_enumeration madt len l s :
  mp_inited s = 0 → ioapic_num (m_intr s) = 0 → acpi_tables (phys s) madt → 0 < madt →
  len = load32 (phys s) (madt + 4) → madt + len + 255 < W32 - 1 → madt_list (phys s) (madt + len) (madt + 44) l →
  0 ≤ boot_ap_start → boot_ap_start + boot_ap_size < W32 → 0 ≤ boot_ap_size < 4194304 →
  runs pcpu_mp_init s (λ r s',
    r = true ∧ mp_inited s' = 1 ∧ ismp s' = 1 ∧ lapic (i_apic (m_intr s')) = load32 (phys s) (madt + 36) ∧
    ncpu s' = Z.of_nat (length (cpu_ids l)) ∧
    (∀ i id, cpu_ids l !! i = Some id → Z.of_nat i < NUM_CPUS →
       lapicid (info_of s' (Z.of_nat i)) = id ∧ bsp (info_of s' (Z.of_nat i)) = b2z (bool_decide (i = 0%nat))) ∧
    ioapic_num (m_intr s') = Z.min MAX_IOAPIC (Z.of_nat (length (io_apics l))) ∧
    (∀ i id a g, io_apics l !! i = Some (id, a, g) → Z.of_nat i < MAX_IOAPIC →
       ioapics (m_intr s') !!! Z.of_nat i = a ∧ ioapicid (m_intr s') !!! Z.of_nat i = id ∧
       gsi (m_intr s') !!! Z.of_nat i = g) ∧
    filled (phys s) (phys s') PCPU_AP_START_ADDR boot_ap_size (λ i, load8 (phys s) (boot_ap_start + i))).
Proof.
  intros Hi Hn Hm Hpos Hlen Hw Hl Hb Hbw Hbs. pose proof (load32_range (phys s) (madt + 4)) as Hr. rewrite <- Hlen in Hr.
  unfold pcpu_mp_init. eapply runs_bind_eq; [reflexivity|]. rewrite Hi. change (0 =? 1) with false. cbv iota.
  eapply runs_bind_eq; [by apply probe_madt_run|]. rewrite (proj2 (Z.eqb_neq madt 0)) by lia.
  do 5 (eapply runs_bind_eq; [reflexivity|]).
  match goal with |- runs _ ?t _ => set (s1 := t) end. change (phys s1) with (phys s). rewrite <- Hlen.
  rewrite !u32_small by (unfold W32 in *; lia).
  assert (enumerated s1 [] [] s1) as He by (split; try done; cbn; by rewrite Hn).
  eapply runs_bind_mono; [by apply (madt_entries_known s1 _ _ l s1); try lia|]. intros [] s2 He2.
  eapply runs_bind_eq; [reflexivity|]. eapply runs_bind_mono; [by apply imcr_apic_known|].
  intros [] s3 [Ep Es Ea En Ec Eu Ei]. change (phys s1) with (phys s) in Ep.
  apply runs_bind, runs_zoom. eapply runs_mono; [apply memmove_filled; unfold PCPU_AP_START_ADDR, W32 in *; lia|].
  intros r m' [-> Hf]. eapply runs_bind_eq; [reflexivity|]. apply runs_ret.
  change (lget s3) with (phys s3) in Hf. rewrite Ep in Hf. split; [done|]. split; [done|]. split; [done|].
  split; [exact Ea|]. do 4 (split; [done|]). exact Hf.
Qed.

(** ** Malformed tables *)

(** An entry whose type the MultiProcessor Specification does not know ends the start of
    the kernel: the loop of [mp_init_fallback] warns about it and does not pass over it, so
    that it reads the same entry for ever. *)
Theorem mp_unknown_entry_hangs e p ap_idx s :
  p < e → MPLINTR < load8 (phys s) p → mp_entries e (p, ap_idx) s = Hang.
Proof.
  unfold MPLINTR. intros Hp Ht. apply loopw_stuck. rewrite (proj2 (Z.ltb_lt _ _)) by done.
  unfold mp_entry, rd8, gets. erewrite bind_Ret; [done|]. erewrite bind_Ret by done.
  unfold MPPROC, MPIOAPIC, MPBUS, MPIOINTR, MPLINTR.
  by rewrite !(proj2 (Z.eqb_neq (load8 (phys s) p) _)) by lia.
Qed.

(** An entry of the ACPI table that gives its length as zero. *)
Lemma madt_empty_entry_hangs e p ap_idx b s :
  0 ≤ p < e → e < W32 → ACPI_MADT_APIC_IOAPIC < load8 (phys s) p → load8 (phys s) (p + 1) = 0 →
  madt_entries e (p, ap_idx, b) s = Hang.
Proof.
  unfold ACPI_MADT_APIC_IOAPIC. intros Hp He Ht Hl. apply loopw_stuck. rewrite (proj2 (Z.ltb_lt _ _)) by lia.
  unfold madt_entry, rd8, gets. erewrite bind_Ret; [done|]. erewrite bind_Ret by done.
  unfold ACPI_MADT_APIC_LAPIC, ACPI_MADT_APIC_IOAPIC.
  rewrite !(proj2 (Z.eqb_neq (load8 (phys s) p) _)) by lia. erewrite bind_Ret by done. erewrite bind_Ret by done.
  cbn. by rewrite Hl, Z.add_0_r, u32_small by lia.
Qed.

(** A table whose length has the top bit set passes the test of the sum, whatever it holds:
    the length is negative as an [int]. *)
Lemma sdt_length_unchecked t sig s :
  load32 (phys s) t = sig → 2147483648 ≤ load32 (phys s) (t + 4) → sdt_valid t sig s = Ret (true, s).
Proof.
  intros Hs Hl. unfold sdt_valid, rd32, gets. erewrite bind_Ret by done. rewrite Hs, Z.eqb_refl.
  erewrite bind_Ret by done. rewrite (bind_Ret _ _ _ _ _ (sum_negative t _ s (conj Hl (proj2 (load32_range _ _))))). done.
Qed.

End mp.

(** ** A machine with two processors *)

Definition bytes_at (a : Z) (l : list Z) (m : memory) : memory :=
  foldr (λ x m, <[a + Z.of_nat x.1 := x.2]> m) m (imap pair l).

Definition demo_rsdp : list Z :=
  [82; 83; 68; 32; 80; 84; 82; 32; 209; 0; 0; 0; 0; 0; 0; 0; 0; 0; 16; 0; 0; 0; 0; 0; 0; 0; 0; 0; 0; 0; 0; 0; 0; 0; 0; 0].
Definition demo_rsdt : list Z :=
  [82; 83; 68; 84; 40; 0; 0; 0; 1; 122; 0; 0; 0; 0; 0; 0; 0; 0; 0; 0; 0; 0; 0; 0; 0; 0; 0; 0; 0; 0; 0; 0; 0; 0; 0; 0; 0; 16; 16; 0].
(** Two enabled processors, with the APIC numbers 0 and 2, a disabled one, an I/O APIC. *)
Definition demo_madt : list Z :=
  [65; 80; 73; 67; 80; 0; 0; 0; 1; 194; 0; 0; 0; 0; 0; 0; 0; 0; 0; 0; 0; 0; 0; 0; 0; 0; 0; 0; 0; 0; 0; 0; 0; 0; 0; 0; 0; 0; 224; 254; 1; 0; 0; 0; 0; 8; 0; 0; 1; 0; 0; 0; 0; 8; 1; 2; 1; 0; 0; 0; 0; 8; 2; 3; 0; 0; 0; 0; 1; 12; 4; 0; 0; 0; 192; 254; 0; 0; 0; 0].

Definition demo_phys : memory :=
  bytes_at 917504 demo_rsdp (bytes_at 1048576 demo_rsdt (bytes_at 1052672 demo_madt ∅)).

Definition demo_mach : mach := set_phys demo_phys {|
  m_sys := demo_ksys demo_vm0 (demo_frame T_SYSCALL 16); m_intr := demo_intr0; ncpu := 0; mp_inited := 0; ismp := 0;
  pcpu_inited := 0; debug_lk := {| rl_lock := 0; rl_count := 0 |}; picirq_mask := 65531; ioapic_ptr := 0 |}.

(** Devices that answer zero. *)
#[local] Instance demo_devices : Devices := {| hw_lapic := λ _ _ _, 0; hw_inb := λ _ _ _, 0; hw_rdtsc := λ t, t;
  hw_cpuid := λ _ _ _, {| c_eax := 0; c_ebx := 0; c_ecx := 0; c_edx := 0 |}; hw_pvclock_mul := λ _, 0; pvclock := 0 |}.
#[local] Instance demo_mp : MpLayout :=
  {| boot_ap_start := 2097152; boot_ap_size := 128; kern_init_ap_addr := 1064960; ks_addr := 5242880 |}.

Lemma demo_entries :
  madt_list demo_phys 1052752 1052716 [ELapic 0 true; ELapic 2 true; ELapic 3 false; EIoapic 4 4273995776 0].
Proof.
  apply (madt_cons demo_phys 1052752 1052716); [reflexivity..|]. apply (madt_cons demo_phys 1052752 1052724); [reflexivity..|].
  apply (madt_cons demo_phys 1052752 1052732); [reflexivity..|]. apply (madt_cons demo_phys 1052752 1052740); [reflexivity..|].
  apply madt_nil. discriminate.
Qed.

(** The root pointer is the first thing in the ROM, the table of APICs the only entry. *)
Lemma demo_tables : acpi_tables demo_phys 1052672.
Proof.
  exists 917504, 4, 1048576, 0. split.
  - right. split; [left; vm_compute; reflexivity|]. exists 0. split; [split; [lia|vm_compute; reflexivity]|].
    split; [reflexivity|]. split; [vm_compute; reflexivity|]. lia.
  - split; [right|].
    + split; [reflexivity|]. split; [left; vm_compute; reflexivity|]. split; [vm_compute; reflexivity|]. split; [discriminate|].
      split; [vm_compute; reflexivity|]. split; [vm_compute; discriminate|vm_compute; reflexivity].
    + split; [lia|]. split; [vm_compute; reflexivity|]. split; [vm_compute; reflexivity|]. split; [vm_compute; reflexivity|].
      split; [split; [vm_compute; reflexivity|split; [vm_compute; discriminate|vm_compute; reflexivity]]|]. lia.
Qed.

Lemma acpi_enumeration_witness :
  runs (@pcpu_mp_init demo_env demo_devices demo_mp) demo_mach (λ r s',
    r = true ∧ ncpu s' = 2 ∧ lapicid (info_of s' 1) = 2 ∧ bsp (info_of s' 0) = 1 ∧ ioapic_num (m_intr s') = 1).
Proof.
  eapply runs_mono.
  - apply (@acpi_enumeration demo_env demo_devices demo_mp 1052672 80 [ELapic 0 true; ELapic 2 true; ELapic 3 false; EIoapic 4 4273995776 0] demo_mach eq_refl eq_refl);
      [exact demo_tables|reflexivity|reflexivity|reflexivity|exact demo_entries|discriminate|reflexivity|].
    split; discriminate || reflexivity.
  - intros r s' (-> & _ & _ & _ & Hn & Hc & Hi & _). split; [reflexivity|]. split; [exact Hn|].
    split; [apply (Hc 1%nat 2); reflexivity|]. split; [apply (Hc 0%nat 0); reflexivity|exact Hi].
Defined.

Lemma mp_unknown_entry_hangs_witness :
  @mp_entries demo_env 1000100 (1000000, 1) (set_phys (<[1000000 := 7]> ∅) demo_mach) = Hang.
Proof. apply (@mp_unknown_entry_hangs demo_env); reflexivity. Defined.
