(* ===== verification/Devinit.v ===== *)
(** * The start of the kernel on a processor

    What a processor says about itself ([pcpu_identify] of kern/dev/pcpu_mp.c), the record of
    the processor (kern/pcpu/PCPUInit), the second driver of the interrupt controllers
    (kern/dev/disk/picirq.c, ioapic.c) with [ide_init], and kern/dev/devinit.c, which starts
    the devices in their order.  The local APIC and the descriptor table are those of Intr,
    which asks about the processors through [CpuInfo]: the answers are computed here. *)

From S2P Require Import Prelude Spinlock Pmmap MAT Container Mem Vmm Thread Bufcache Log Inode File Console Seg Sysfile Trap Lapic Intr Mp.

Definition UNKNOWN_CPU : Z := 0.
Definition INTEL : Z := 1.
Definition AMD : Z := 2.

Section ops.
Context `{KEnv, KernelLayout, SegLayout, TrapLayout, Devices, MpLayout, IntrEnv}.

(** ** What the processor says *)

Definition GenuineIntel : list Z := [71; 101; 110; 117; 105; 110; 101; 73; 110; 116; 101; 108].
Definition AuthenticAMD : list Z := [65; 117; 116; 104; 101; 110; 116; 105; 99; 65; 77; 68].

(** The entries of [intel_cache_info] that are not zero; the array has 255 elements. *)
Definition intel_cache_info (desc : Z) : Z * Z :=
  if desc =? 10 then (8, 32)
  else if desc =? 12 then (16, 32)
  else if desc =? 13 then (16, 64)
  else if desc =? 14 then (24, 64)
  else if desc =? 44 then (32, 64)
  else if desc =? 96 then (16, 64)
  else if desc =? 102 then (8, 64)
  else if desc =? 103 then (16, 64)
  else if desc =? 104 then (32, 64)
  else (0, 0).

(** The descriptors one after the other: each overwrites what the one before it gave. *)
Fixpoint cache_descs (l : list Z) (cur : Z * Z) : M mach (Z * Z) :=
  match l with
  | [] => ret cur
  | d :: r => if inb 255 d then cache_descs r (intel_cache_info d) else fault
  end.

(** [while (i--) cpuid(2, ...)] *)
Fixpoint cpuid2_again (n : nat) (r : cpuid_regs) : M mach cpuid_regs :=
  match n with
  | O => ret r
  | S n' => let! r' := zoom (cpuid 2) in cpuid2_again n' r'
  end.

(** The size and the line of the first cache, of a processor of Intel. *)
Definition intel_l1_cache : M mach (Z * Z) :=
  let! r := zoom (cpuid 2) in
  let! r := cpuid2_again (Z.to_nat (Z.land (c_eax r) 255)) r in
  let! c := cache_descs (regs_bytes [c_eax r; c_ebx r; c_ecx r; c_edx r]) (0, 0) in
  if nz c.1 && nz c.2 then ret c
  else
    let! f := for_exit 0 3 (λ i,
      let! r := zoom (cpuid_subleaf 4 i) in
      ret (if (Z.land (c_eax r) 15 =? 1) && (Z.shiftr (Z.land (c_eax r) 224) 5 =? 1) then Some r else None)) in
    match f with
    | None => ret c
    | Some r =>
        let ways := Z.shiftr (Z.land (c_ebx r) 4290772992) 22 + 1 in
        let partitions := Z.shiftr (Z.land (c_ebx r) 4190208) 12 + 1 in
        let line := Z.land (c_ebx r) 4095 + 1 in
        ret (u32 (ways * partitions * line * u32 (c_ecx r + 1)) / 1024, line)
    end.

Definition l1_cache (v : Z) : M mach (Z * Z) :=
  if v =? INTEL then intel_l1_cache
  else if v =? AMD then
    let! r := zoom (cpuid 2147483653) in
    ret (Z.shiftr (Z.land (c_ecx r) 4278190080) 24, Z.land (c_ecx r) 255)
  else ret (0, 0).

(** The characters of the name, with a zero after them; the rest of the array stays. *)
Definition put_vendor (name : list Z) (a : gmap Z Z) : gmap Z Z :=
  <[12 := 0]> (foldr (λ i m, <[i := nth (Z.to_nat i) name 0]> m) a (seqZ 0 12)).

Definition pcpu_identify : M mach unit :=
  let! cpu_idx := zoom get_pcpu_idx in
  let! r0 := zoom (cpuid 0) in
  let name := regs_bytes [c_ebx r0; c_edx r0; c_ecx r0] in
  let v := if bool_decide (name = GenuineIntel) then INTEL
           else if bool_decide (name = AuthenticAMD) then AMD else UNKNOWN_CPU in
  let! r1 := zoom (cpuid 1) in
  let! c := l1_cache v in
  let! r8 := zoom (cpuid 2147483648) in
  zoom (mod_pcpu_arch_info cpu_idx (λ x, {|
    lapicid := lapicid x; bsp := bsp x;
    cpuid_high := c_eax r0; vendor := put_vendor name (vendor x); cpu_vendor := v;
    family := Z.land (Z.shiftr (c_eax r1) 8) 15;
    model := Z.land (Z.shiftr (c_eax r1) 4) 15;
    cpu_step := Z.land (c_eax r1) 15;
    ext_family := Z.land (Z.shiftr (c_eax r1) 20) 255;
    ext_model := Z.land (Z.shiftr (c_eax r1) 16) 255;
    brand_idx := Z.land (c_ebx r1) 255;
    clflush_size := Z.land (Z.shiftr (c_ebx r1) 8) 255;
    max_cpu_id := Z.land (Z.shiftr (c_ebx r1) 16) 255;
    apic_id := Z.land (Z.shiftr (c_ebx r1) 24) 255;
    feature1 := c_ecx r1; feature2 := c_edx r1;
    l1_cache_size := c.1; l1_cache_line_size := c.2; cpuid_exthigh := c_eax r8 |})).

Definition pcpu_init_cpu : M mach unit := pcpu_identify.

(** ** PCPUInit *)

(** The end of [pcpu_init], for every processor. *)
Definition pcpu_init_this : M mach unit :=
  zoom (set_pcpu_idx ks_cpu_idx ks_cpu_idx) ;;;
  zoom (set_pcpu_kstack_pointer ks_cpu_idx ks_addr) ;;;
  zoom (set_pcpu_boot_info ks_cpu_idx 1) ;;;
  pcpu_init_cpu.

Definition pcpu_init : M mach unit :=
  if ks_cpu_idx =? 0 then
    let! i := gets pcpu_inited in
    if i =? 1 then ret tt
    else
      zoom pcpu_set_zero ;;;
      pcpu_mp_init ;;;
      for_ 0 NUM_CPUS (λ i, zoom (pcpu_fields_init i)) ;;;
      modify (set_pcpu_inited 1) ;;;
      pcpu_init_this
  else pcpu_init_this.

(** ** The questions of Intr *)

Definition ask {A} (m : M mach A) (s : mach) : M intr A := λ t,
  match m s with
  | Ret (a, _) => Ret (a, t)
  | Panic => Panic
  | Fault => Fault
  | Hang => Hang
  end.

Definition cpus (s : mach) : CpuInfo := {|
  info_onboot := ask pcpu_onboot s;
  info_ncpu := ask pcpu_ncpu s;
  info_lapicid := λ i, ask (pcpu_cpu_lapicid i) s |}.

Definition mach_intr_init : M mach unit := λ s, zoom (@intr_init _ _ _ (cpus s)) s.
Definition mach_intr_enable (irq cpunum : Z) : M mach unit := λ s, zoom (@intr_enable _ (cpus s) irq cpunum) s.

(** [trap_init] with the interrupts that it enables. *)
Definition mach_trap_init (cpu_idx : Z) : M mach unit :=
  zoom (trap_init cpu_idx) ;;;
  mach_intr_enable IRQ_TIMER cpu_idx ;;;
  mach_intr_enable IRQ_KBD cpu_idx ;;;
  mach_intr_enable IRQ_SERIAL13 cpu_idx ;;;
  mach_intr_enable IRQ_IDE1 cpu_idx.

(** ** kern/dev/disk/picirq.c and ioapic.c *)

Definition picsetmask (mask : Z) : M mach unit :=
  modify (set_picirq_mask mask) ;;;
  zoom (port_outb (IO_PIC1 + 1) mask) ;;;
  zoom (port_outb (IO_PIC2 + 1) (Z.shiftr mask 8)).

Definition picenable (irq : Z) : M mach unit :=
  let! m := gets picirq_mask in
  picsetmask (u16 (Z.land m (Z.lnot (Z.shiftl 1 irq)))).

Definition picinit : M mach unit :=
  zoom (port_outb (IO_PIC1 + 1) 255) ;;;
  zoom (port_outb (IO_PIC2 + 1) 255) ;;;
  zoom (port_outb IO_PIC1 17) ;;;
  zoom (port_outb (IO_PIC1 + 1) T_IRQ0) ;;;
  zoom (port_outb (IO_PIC1 + 1) (Z.shiftl 1 IRQ_SLAVE)) ;;;
  zoom (port_outb (IO_PIC1 + 1) 3) ;;;
  zoom (port_outb IO_PIC2 17) ;;;
  zoom (port_outb (IO_PIC2 + 1) (T_IRQ0 + 8)) ;;;
  zoom (port_outb (IO_PIC2 + 1) IRQ_SLAVE) ;;;
  zoom (port_outb (IO_PIC2 + 1) 3) ;;;
  zoom (port_outb IO_PIC1 104) ;;;
  zoom (port_outb IO_PIC1 10) ;;;
  zoom (port_outb IO_PIC2 104) ;;;
  zoom (port_outb IO_PIC2 10) ;;;
  let! m := gets picirq_mask in
  when (negb (m =? 65535)) (picsetmask m).

Definition IOAPIC : Z := 4273995776.

(** The registers of the device are at [IOAPIC]; at any other address, the null pointer
    included, the two stores go to the memory (the code runs before paging is on). *)
Definition ioapicwrite (reg data : Z) : M mach unit :=
  let! p := gets ioapic_ptr in
  if p =? IOAPIC then zoom (ioapic_write IOAPIC reg data)
  else modify (λ s, set_phys (store32 (p + 16) (u32 data) (store32 p (u32 reg) (phys s))) s).

Definition ioapicread (reg : Z) : M mach Z :=
  let! p := gets ioapic_ptr in
  if p =? IOAPIC then zoom (ioapic_read IOAPIC reg)
  else
    modify (λ s, set_phys (store32 p (u32 reg) (phys s)) s) ;;;
    rd32 (p + 16).

Definition ioapicinit : M mach unit :=
  modify (set_ioapic_ptr IOAPIC) ;;;
  let! v := ioapicread IOAPIC_VER in
  let maxintr := Z.land (Z.shiftr v 16) 255 in
  ioapicread IOAPIC_ID ;;;
  for_ 0 (maxintr + 1) (λ i,
    ioapicwrite (IOAPIC_TABLE + 2 * i) (Z.lor IOAPIC_INT_DISABLED (T_IRQ0 + i)) ;;;
    ioapicwrite (IOAPIC_TABLE + 2 * i + 1) 0).

Definition ioapicenable (irq cpunum : Z) : M mach unit :=
  ioapicwrite (IOAPIC_TABLE + 2 * irq) (T_IRQ0 + irq) ;;;
  ioapicwrite (IOAPIC_TABLE + 2 * irq + 1) (Z.shiftl cpunum 24).

(** The calls with which [ide_init] enables the interrupt of the disk, between the locks and
    the rest of the function, which is [ide_init] of Bufcache. *)
Definition ide_init_irq : M mach unit :=
  picenable IRQ_IDE1 ;;;
  let! n := pcpu_ncpu in
  ioapicenable IRQ_IDE1 (u32 (n - 1)).

(** ** devinit.c *)

Definition CR4_OSFXSR : Z := 512.
Definition CR4_OSXMMEXCPT : Z := 1024.

(** [enable_sse] of kern/lib/x86.c computes a value for %cr0, and does not load it. *)
Definition enable_sse : M vmm unit :=
  let! c := gets CR4 in
  modify (set_CR4 (Z.lor (Z.lor c CR4_OSFXSR) CR4_OSXMMEXCPT)).

Definition sys_zoom {A} (m : M ksys A) : M mach A := zoom m.

(** The memory map comes as the list of its entries, as in Pmmap. *)
Definition devinit (mbi : list mboot_mmap) : M mach unit :=
  sys_zoom (zoom (seg_init 0)) ;;;
  sys_zoom (zoom enable_sse) ;;;
  sys_zoom (zoom cons_init) ;;;
  fzoom debug_lk set_debug_lk Reentrant.reentrantlock_init ;;;
  pcpu_init ;;;
  zoom tsc_init ;;;
  mach_intr_init ;;;
  mach_trap_init 0 ;;;
  sys_zoom (zoom (Sub := vmm) (zoom (Sub := cont) (zoom (Sub := mat) (zoom (pmmap_init mbi))))) ;;;
  sys_zoom (zoom (Sub := lg) (zoom (Sub := bc) bufcache_init)) ;;;
  sys_zoom (zoom (Sub := fs) file_init) ;;;
  sys_zoom (zoom (Sub := fs) inode_init) ;;;
  ide_init_irq ;;;
  sys_zoom (zoom (Sub := lg) (zoom (Sub := bc) ide_init)).

Definition devinit_ap : M mach unit :=
  KERN_ASSERT (nz ks_addr) ;;;
  KERN_ASSERT ((1 <=? ks_cpu_idx) && (ks_cpu_idx <? 8)) ;;;
  sys_zoom (zoom (seg_init ks_cpu_idx)) ;;;
  pcpu_init ;;;
  mach_intr_init ;;;
  mach_trap_init ks_cpu_idx ;;;
  sys_zoom (zoom (Sub := vmm) paging_init_ap).

(** [kern_init_ap] of kern/init/init.c, which then calls the function it was given. *)
Definition kern_init_ap (f : M mach unit) : M mach unit :=
  devinit_ap ;;;
  f.

(** ** What modelling showed *)

Lemma phys_set_phys m s : phys (set_phys m s) = m.
Proof. done. Qed.

Lemma ioapicwrite_null reg data s : ioapic_ptr s = 0 →
  ioapicwrite reg data s = Ret (tt, set_phys (store32 16 (u32 data) (store32 0 (u32 reg) (phys s))) s).
Proof. intros Hp. unfold ioapicwrite, gets, bind. by rewrite Hp. Qed.

(** [ioapicinit] is not called, so that [ioapic] is the null pointer when [ide_init] enables
    the interrupt of the disk: the controller is not told anything, and the words at the
    addresses 0 and 16 are overwritten. *)
Lemma ide_irq_not_routed s : ioapic_ptr s = 0 →
  runs ide_init_irq s (λ _ s', ioapic_regs (m_intr s') = ioapic_regs (m_intr s) ∧
    load32 (phys s') 0 = IOAPIC_TABLE + 2 * IRQ_IDE1 + 1 ∧
    load32 (phys s') 16 = u32 (Z.shiftl (u32 (ncpu s - 1)) 24)).
Proof.
  intros Hp. unfold ide_init_irq. eapply runs_bind_eq; [reflexivity|]. eapply runs_bind_eq; [reflexivity|].
  unfold ioapicenable. eapply runs_bind_eq; [by apply ioapicwrite_null|]. eapply runs_of_eq; [by apply ioapicwrite_null|].
  assert (16 + 4 ≤ W32) by done. split; [done|]. rewrite !phys_set_phys.
  split; [rewrite load32_store32_ne, load32_store32_eq by (done || lia || apply u32_range)|
          rewrite load32_store32_eq by (done || lia || apply u32_range)]; reflexivity.
Qed.

(** A descriptor 0xff, with which a processor says that leaf 4 of [cpuid] has the
    information, is an index beyond the end of the table of descriptors. *)
Lemma cache_descriptor_ff l r c s : Forall (λ d, 0 ≤ d < 255) l → cache_descs (l ++ 255 :: r) c s = Fault.
Proof.
  intros Hl. revert c. induction Hl as [|d l Hd Hl IH]; intros c; cbn [app cache_descs]; [done|].
  by rewrite inb_true_2.
Qed.

(** Of the sixteen descriptors, only the last one counts. *)
Lemma cache_last_descriptor l d c s : Forall (λ d, 0 ≤ d < 255) (l ++ [d]) →
  cache_descs (l ++ [d]) c s = Ret (intel_cache_info d, s).
Proof.
  revert c. induction l as [|x l IH]; intros c Hf; cbn [app cache_descs] in *; apply Forall_cons in Hf as [Hx Hf];
    rewrite inb_true_2 by done; [done|]. by apply IH.
Qed.

(** The flags of the features are numbers of bits, and are used as masks: the old clock is
    never found, and for the new one bits 0 and 1 are looked at instead of bit 3. *)
Lemma kvm_old_clock_unused s : runs (kvm_has_feature KVM_FEATURE_CLOCKSOURCE) s (λ b _, b = false).
Proof. unfold runs, kvm_has_feature, cpuid, sample, bind, ret. by rewrite Z.land_0_r. Qed.

End ops.
