(* ===== verification/Ulib.v ===== *)
(** * The library of user programs

    user/lib/string.c, user/include/syscall.h, user/lib/printf.c, the rest of
    user/lib/printfmt.c, user/lib/proc.c and user/lib/spinlock.c.  The names have the
    prefix [u_], since the kernel has functions of the same names.  A program is a
    computation on its memory, its stack pointer and the state [K] of what is behind the
    system call; the system call itself is the class [SysEntry]: the registers go in, and the
    registers %eax and %ebx and changes of the memory come out. *)

From S2P Require Import Prelude Mem Printf.

(** ** string.c *)

(** The functions on strings read through their pointers; the null pointer is a fault. *)
Definition deref {A} (p : Z) (m : M memory A) : M memory A := if p =? 0 then fault else m.

(** [for (n = 0; *s != 0; s++) n++]: [n] is an [int]. *)
Definition u_strlen (s : Z) : M memory Z := deref s
  (loopw (λ n, λ m,
    if loadc m (s + n) =? 0 then Ret (inr n, m)
    else if n + 1 <? 2147483648 then Ret (inl (n + 1), m) else Fault) 0).

Definition u_strnlen (s size : Z) : M memory Z := strnlen s size.

(** The bytes up to the zero, which is copied too. *)
Definition u_strcpy (dst src : Z) : M memory Z := deref dst (deref src
  (loopw (λ i, λ m,
    let c := load8 m (src + i) in
    Ret (if c =? 0 then inr dst else inl (i + 1), store8 (dst + i) c m)) 0)).

(** The source is not passed over at its end: zeros fill the rest. *)
Fixpoint u_strncpy_loop (n : nat) (dst src : Z) (m : memory) : memory :=
  match n with
  | O => m
  | S n' =>
      let m' := store8 dst (load8 m src) m in
      u_strncpy_loop n' (dst + 1) (if loadc m' src =? 0 then src else src + 1) m'
  end.
Definition u_strncpy (dst src size : Z) : M memory Z := λ m,
  Ret (dst, u_strncpy_loop (Z.to_nat size) dst src m).

(** At most [size - 1] bytes, and a zero behind them. *)
Fixpoint u_strlcpy_loop (n : nat) (dst src : Z) (m : memory) : Z * memory :=
  match n with
  | O => (dst, m)
  | S n' => if loadc m src =? 0 then (dst, m)
            else u_strlcpy_loop n' (dst + 1) (src + 1) (store8 dst (load8 m src) m)
  end.
Definition u_strlcpy (dst src size : Z) : M memory Z := λ m,
  if size >? 0 then
    let '(d, m') := u_strlcpy_loop (Z.to_nat (size - 1)) dst src m in
    Ret (d - dst, store8 d 0 m')
  else Ret (0, m).

Definition u_strcmp (p q : Z) : M memory Z := deref p (deref q (strcmp p q)).
Definition u_strncmp (p q n : Z) : M memory Z := strncmp p q n.
Definition u_strchr (s c : Z) : M memory Z := strchr s c.

Definition u_strfind (s c : Z) : M memory Z :=
  loopw (λ s, λ m,
    if nz (loadc m s) then
      if loadc m s =? c then Ret (inr s, m) else Ret (inl (s + 1), m)
    else Ret (inr s, m)) s.

(** The value of a digit, if it is one. *)
Definition digit_of (c : Z) : option Z :=
  if (48 <=? c) && (c <=? 57) then Some (c - 48)
  else if (97 <=? c) && (c <=? 122) then Some (c - 97 + 10)
  else if (65 <=? c) && (c <=? 90) then Some (c - 65 + 10)
  else None.

(** The digits of [strtol] from [s] on: where they end, and their value; [long] has 32 bits
    and its overflow is undefined. *)
Definition strtol_digits (base s : Z) : M memory (Z * Z) :=
  loopw (λ '(s, val), λ m,
    match digit_of (loadc m s) with
    | None => Ret (inr (s, val), m)
    | Some dig =>
        if dig >=? base then Ret (inr (s, val), m)
        else
          let val := val * base + dig in
          if (-2147483648 <=? val) && (val <? 2147483648) then Ret (inl (s + 1, val), m) else Fault
    end) (s, 0).

(** [endptr] is 0 or the address where the end is stored. *)
Definition u_strtol (s endptr base : Z) : M memory Z :=
  let! s := loopw (λ s, λ m,
    Ret (if (loadc m s =? 32) || (loadc m s =? 9) then inl (s + 1) else inr s, m)) s in
  let! c := gets (λ m, loadc m s) in
  let '(s, neg) := if c =? 43 then (s + 1, false) else if c =? 45 then (s + 1, true) else (s, false) in
  let! c0 := gets (λ m, loadc m s) in
  let! c1 := gets (λ m, loadc m (s + 1)) in
  let '(s, base) :=
    if ((base =? 0) || (base =? 16)) && ((c0 =? 48) && (c1 =? 120)) then (s + 2, 16)
    else if (base =? 0) && (c0 =? 48) then (s + 1, 8)
    else if base =? 0 then (s, 10) else (s, base) in
  let! r := strtol_digits base s in
  when (nz endptr) (modify (store32 endptr r.1)) ;;;
  ret (if neg : bool then - r.2 else r.2).

Definition u_memset (v c n : Z) : M memory Z := memset v c n.
Definition u_memmove (dst src n : Z) : M memory Z := memmove dst src n.
Definition u_memcpy (dst src n : Z) : M memory Z := u_memmove dst src n.
Definition u_memcmp (v1 v2 n : Z) : M memory Z := memcmp v1 v2 n.
Definition u_memzero (v n : Z) : M memory Z := u_memset v 0 n.

Fixpoint memchr_loop (n : nat) (s c : Z) (m : memory) : Z :=
  match n with
  | O => 0
  | S n' => if load8 m s =? u8 c then s else memchr_loop n' (s + 1) c m
  end.
Definition u_memchr (s c n : Z) : M memory Z := gets (memchr_loop (Z.to_nat n) s c).

(** ** The state of a program *)

Record ust (K : Type) := { umem : memory; usp : Z; ukern : K }.
Arguments umem {K}.
Arguments usp {K}.
Arguments ukern {K}.
Definition set_umem {K} (v : memory) (s : ust K) : ust K := {| umem := v; usp := usp s; ukern := ukern s |}.
Definition set_usp {K} (v : Z) (s : ust K) : ust K := {| umem := umem s; usp := v; ukern := ukern s |}.
Definition set_ukern {K} (v : K) (s : ust K) : ust K := {| umem := umem s; usp := usp s; ukern := v |}.

#[global] Program Instance ust_mem_lens {K} : Lens (ust K) memory := {| lget := umem; lset := set_umem |}.
Next Obligation. done. Qed.
Next Obligation. by intros K []. Qed.
Next Obligation. done. Qed.

(** The registers before the interrupt, and %eax and %ebx after it. *)
Record sysregs := { r_eax : Z; r_ebx : Z; r_ecx : Z; r_edx : Z; r_esi : Z }.

Class SysEntry (K : Type) := { int48 : sysregs → M (ust K) (Z * Z) }.

(** An array of [n] bytes in the frame of a function, which holds what is there, for the
    time of the call. *)
Definition local {K A} (n : Z) (f : Z → M (ust K) A) : M (ust K) A :=
  let! sp := gets usp in
  let a := sp - n in
  if a <? 0 then fault
  else
    modify (set_usp a) ;;;
    let! r := f a in
    modify (set_usp sp) ;;;
    ret r.

Section calls.
Context {K : Type} `{KE : SysEntry K}.
Abbreviation U := (M (ust K)).

Definition mem_ {A} (m : M memory A) : U A := zoom m.

(** ** syscall.h *)

Definition syscall (nr b c d si : Z) : U (Z * Z) :=
  int48 {| r_eax := nr; r_ebx := b; r_ecx := c; r_edx := d; r_esi := si |}.

(** [errno ? -1 : ret] and [errno ? -1 : 0] *)
Definition errno_or (r : Z * Z) : Z := if nz r.1 then -1 else s32 r.2.
Definition errno_0 (r : Z * Z) : Z := if nz r.1 then -1 else 0.

Definition u_sys_puts (s len : Z) : U unit := syscall 0 s len 0 0 ;;; ret tt.
Definition u_sys_spawn (elf_id quota : Z) : U Z := let! r := syscall 1 elf_id quota 0 0 in ret (errno_or r).
Definition u_sys_yield : U unit := syscall 2 0 0 0 0 ;;; ret tt.
Definition u_sys_read (fd buf n : Z) : U Z := let! r := syscall 5 fd buf n 0 in ret (errno_or r).
Definition u_sys_write (fd p n : Z) : U Z := let! r := syscall 6 fd p n 0 in ret (errno_or r).
Definition u_sys_close (fd : Z) : U Z := let! r := syscall 4 fd 0 0 0 in ret (errno_0 r).
Definition u_sys_fstat (fd st : Z) : U Z := let! r := syscall 11 fd st 0 0 in ret (errno_0 r).

Definition u_sys_link (old new : Z) : U Z :=
  let! old_len := mem_ (u_strlen old) in
  let! new_len := mem_ (u_strlen new) in
  let! r := syscall 9 old new old_len new_len in
  ret (errno_0 r).

Definition u_sys_unlink (path : Z) : U Z :=
  let! len := mem_ (u_strlen path) in
  let! r := syscall 10 path len 0 0 in
  ret (errno_0 r).

Definition u_sys_open (path omode : Z) : U Z :=
  let! len := mem_ (u_strlen path) in
  let! r := syscall 3 path omode len 0 in
  ret (errno_or r).

Definition u_sys_mkdir (path : Z) : U Z :=
  let! len := mem_ (u_strlen path) in
  let! r := syscall 7 path len 0 0 in
  ret (errno_0 r).

Definition u_sys_chdir (path : Z) : U Z :=
  let! len := mem_ (u_strlen path) in
  let! r := syscall 8 path len 0 0 in
  ret (errno_0 r).

Definition u_sys_is_dir (fd : Z) : U Z := let! r := syscall 12 fd 0 0 0 in ret (errno_or r).
Definition u_sys_readline (start : Z) : U Z := let! r := syscall 15 start 0 0 0 in ret (errno_0 r).
Definition u_sys_ls (buf buf_len : Z) : U Z := let! r := syscall 13 buf buf_len 0 0 in ret (errno_or r).
Definition u_sys_pwd (buf : Z) : U Z := let! r := syscall 14 buf 0 0 0 in ret (errno_0 r).

(** proc.c *)
Definition u_spawn (exec quota : Z) : U Z := u_sys_spawn exec quota.
Definition u_yield : U unit := u_sys_yield.

(** ** printf.c and printfmt.c *)

Definition MAX_BUF : Z := 512.

(** A character goes to the buffer at [buf]; the result is the new [idx]. *)
Definition u_putch (buf ch idx : Z) : U Z :=
  modify (λ s, set_umem (store8 (buf + idx) ch (umem s)) s) ;;;
  let idx := idx + 1 in
  if idx =? MAX_BUF - 1 then
    modify (λ s, set_umem (store8 (buf + idx) 0 (umem s)) s) ;;;
    u_sys_puts buf idx ;;;
    ret 0
  else ret idx.

Fixpoint u_putchs (buf : Z) (l : list Z) (idx : Z) : U Z :=
  match l with
  | [] => ret idx
  | ch :: r => let! idx := u_putch buf ch idx in u_putchs buf r idx
  end.

(** The characters of a format with its arguments: [vprintfmt] of the user library, on the
    memory before the first of them is printed. *)
Definition u_vprintfmt (fmt args : list Z) : U (list Z) := λ s,
  match vprintfmt (umem s) true (S (length fmt)) fmt {| out := []; ap := args |} with
  | Ret (_, p) => Ret (out p, s)
  | Panic => Panic
  | Fault => Fault
  | Hang => Hang
  end.

Definition u_vcprintf (fmt args : list Z) : U Z :=
  local MAX_BUF (λ buf,
    let! l := u_vprintfmt fmt args in
    let! idx := u_putchs buf l 0 in
    modify (λ s, set_umem (store8 (buf + idx) 0 (umem s)) s) ;;;
    u_sys_puts buf idx ;;;
    ret (Z.of_nat (length l))).

Definition u_printf (fmt args : list Z) : U Z := u_vcprintf fmt args.

(** [sprintputch]: a character is stored below [ebuf], and counted always. *)
Fixpoint u_sprintputch (l : list Z) (buf ebuf : Z) : U Z :=
  match l with
  | [] => ret buf
  | ch :: r =>
      if buf <? ebuf then
        modify (λ s, set_umem (store8 buf ch (umem s)) s) ;;;
        u_sprintputch r (buf + 1) ebuf
      else u_sprintputch r buf ebuf
  end.

(** [vsprintf] and [vsnprintf]: the bound is the end of the address space, or that of the
    buffer. *)
Definition sprint (buf ebuf : Z) (fmt args : list Z) : U Z :=
  let! l := u_vprintfmt fmt args in
  let! b := u_sprintputch l buf ebuf in
  modify (λ s, set_umem (store8 b 0 (umem s)) s) ;;;
  ret (Z.of_nat (length l)).
Definition u_vsprintf (buf : Z) (fmt args : list Z) : U Z := sprint buf (W32 - 1) fmt args.
Definition u_sprintf (buf : Z) (fmt args : list Z) : U Z := u_vsprintf buf fmt args.
Definition u_vsnprintf (buf n : Z) (fmt args : list Z) : U Z := sprint buf (buf + n - 1) fmt args.
Definition u_snprintf (buf n : Z) (fmt args : list Z) : U Z := u_vsnprintf buf n fmt args.

End calls.

(** ** spinlock.c *)

(** The word of a lock. *)
Definition u_xchg (newval : Z) : M Z Z := λ lk, Ret (lk, newval).
Definition u_spinlock_init : M Z unit := modify (λ _, 0).
Definition u_spinlock_holding : M Z Z := gets id.
(** A lock that is held is not released while the program spins. *)
Definition u_spinlock_acquire : M Z unit :=
  loopw (λ _ : unit, let! old := u_xchg 1 in ret (if nz old then inl tt else inr tt)) tt.
Definition u_spinlock_release : M Z unit :=
  let! h := u_spinlock_holding in
  if h =? 0 then ret tt else u_xchg 0 ;;; ret tt.
