(* ===== verification/Shell.v ===== *)
(** * The shell

    user/shell/shell.c, as a program over the library of Ulib.  Arrays in the frames of the
    functions are in the memory below the stack pointer, with whatever is there; a literal
    string is a list of characters. *)

From Stdlib Require Import Ascii.
From S2P Require Import Prelude Mem Ulib.

(** ** Literal strings *)

Fixpoint codes (s : string) : list Z :=
  match s with
  | EmptyString => []
  | String c r => Z.of_N (N_of_ascii c) :: codes r
  end.
(** A format, without and with a new line at its end. *)
Definition text (s : string) : list Z := codes s ++ [0].
Definition line (s : string) : list Z := codes s ++ [10; 0].

(** [strcmp] of the string at [p] with the literal [l]. *)
Fixpoint strcmp_lit (p : Z) (l : list Z) (m : memory) : Z :=
  match l with
  | [] => load8 m p
  | c :: r => if nz (loadc m p) && (loadc m p =? c) then strcmp_lit (p + 1) r m else load8 m p - c
  end.

Definition BUFFERLEN : Z := 1024.
Definition MAXARGS : Z := 16.
Definition O_RDONLY : Z := 0.
Definition O_RDWR : Z := 2.
Definition O_CREATE : Z := 512.
(** The separators of words: tab, carriage return, new line, space. *)
Definition PARSESPACE : list Z := [9; 13; 10; 32].

(** The address of [shell_buf]. *)
Class ShellLayout := { shell_buf : Z }.

(** The recursion of [cp_r] makes its path at least two characters longer in a buffer of
    [BUFFERLEN]; that of [rm_r] enters a directory, and there are fewer than this many
    inodes. *)
Definition shell_fuel : nat := 1024.

Section shell.
Context {K : Type} `{KE : SysEntry K, ShellLayout}.
Abbreviation U := (M (ust K)).

Definition lit_cmp (p : Z) (l : list Z) : U Z := gets (λ s, strcmp_lit p l (umem s)).
Definition getch (a : Z) : U Z := gets (λ s, loadc (umem s) a).
Definition setch (a c : Z) : U unit := modify (λ s, set_umem (store8 a c (umem s)) s).
Definition print (fmt args : list Z) : U unit := u_printf fmt args ;;; ret tt.
(** [argv[i]]: the arguments, and the null pointer behind them. *)
Definition arg (argv : list Z) (i : nat) : U Z :=
  match (argv ++ [0]) !! i with Some a => ret a | None => fault end.

(** ** Files *)

Definition dir_list (buf path : Z) : U Z :=
  local BUFFERLEN (λ pwd,
    let! len :=
      if path =? 0 then u_sys_ls buf BUFFERLEN
      else
        u_sys_pwd pwd ;;;
        u_sys_chdir path ;;;
        let! len := u_sys_ls buf BUFFERLEN in
        u_sys_chdir pwd ;;;
        ret len in
    for_ 0 len (λ i,
      let! c := getch (buf + i) in
      when (c =? 32) (setch (buf + i) 0)) ;;;
    ret len).

Definition is_exist (path : Z) : U bool :=
  let! fd := u_sys_open path O_RDONLY in
  if fd =? -1 then ret false
  else u_sys_close fd ;;; ret true.

(** [fd] has no value when the path does not exist. *)
Definition is_dir (path : Z) : U bool :=
  let! e := is_exist path in
  if e then
    let! fd := u_sys_open path O_RDONLY in
    let! isDir := u_sys_is_dir fd in
    u_sys_close fd ;;;
    ret (nz isDir)
  else fault.

(** The characters after the last slash; no zero is stored behind them. *)
Definition get_filename (path filename : Z) : U Z :=
  let! n := mem_ (u_strlen path) in
  if n =? 0 then ret 0
  else
    let! pos := loopw (λ pos,
      if pos >=? 0 then
        let! c := getch (path + pos) in
        ret (if c =? 47 then inr pos else inl (pos - 1))
      else ret (inr pos)) (n - 1) in
    mem_ (u_strncpy filename (path + pos + 1) (n - (pos + 1))) ;;;
    ret (n - pos - 1).

Definition cp_file (dest_filename src_filename : Z) : U Z :=
  let! d := is_dir src_filename in
  if d then u_sys_mkdir dest_filename ;;; ret 0
  else
    let! fd := u_sys_open src_filename O_RDONLY in
    local 1000 (λ buf,
      u_sys_read fd buf 1000 ;;;
      u_sys_close fd ;;;
      let! fd := u_sys_open dest_filename (Z.lor O_CREATE O_RDWR) in
      let! n := mem_ (u_strlen buf) in
      u_sys_write fd buf n ;;;
      u_sys_close fd ;;;
      ret 0).

(** The names that [dir_list] left in [buf], one after the other, without "." and "..". *)
Definition each_name (buf len : Z) (f : Z → U unit) : U unit :=
  loopw (λ p,
    if p - buf <? len then
      let! a := lit_cmp p (codes ".") in
      let! b := lit_cmp p (codes "..") in
      when (nz a && nz b) (f p) ;;;
      let! n := mem_ (u_strlen p) in
      ret (inl (p + n + 1))
    else ret (inr tt)) buf.

Fixpoint cp_r (fuel : nat) (dest src : Z) (rflag : bool) : U Z :=
  match fuel with
  | O => hang
  | S fuel =>
    local BUFFERLEN (λ path, local 100 (λ filename, local BUFFERLEN (λ dest_path, local BUFFERLEN (λ src_path,
      let! e := is_exist src in
      if negb e then print (line "cp: source file does not exist") [] ;;; ret 0
      else if negb rflag then
        let! d := is_dir src in
        if d then print (line "cp: use -r to copy directory") [] ;;; ret 0
        else
          let! e := is_exist dest in
          let! d := if e then is_dir dest else ret false in
          if e && d then
            get_filename src filename ;;;
            mem_ (u_strcpy path dest) ;;;
            let! n := mem_ (u_strlen path) in
            setch (path + n) 47 ;;;
            mem_ (u_strcpy (path + n + 1) filename) ;;;
            cp_r fuel path src rflag ;;;
            ret 0
          else cp_file dest src ;;; ret 0
      else
        let! d := is_dir src in
        if d then
          cp_file dest src ;;;
          let! len := dir_list path src in
          each_name path len (λ p,
            mem_ (u_strcpy dest_path dest) ;;;
            mem_ (u_strcpy src_path src) ;;;
            let! nd := mem_ (u_strlen dest) in
            setch (dest_path + nd) 47 ;;;
            let! ns := mem_ (u_strlen src) in
            setch (src_path + ns) 47 ;;;
            mem_ (u_strcpy (dest_path + nd + 1) p) ;;;
            mem_ (u_strcpy (src_path + ns + 1) p) ;;;
            cp_r fuel dest_path src_path rflag ;;;
            ret tt) ;;;
          ret 0
        else cp_r fuel dest src false ;;; ret 0))))
  end.

Definition rm_file (filename : Z) : U Z :=
  let! errno := u_sys_unlink filename in
  when (errno =? -1) (print (line "rm: cannot remove: sys_unlink error") [filename]) ;;;
  ret errno.

(** The name ".." is at the top of the frame. *)
Fixpoint rm_r (fuel : nat) (path : Z) (rflag : bool) : U Z :=
  match fuel with
  | O => hang
  | S fuel =>
    local BUFFERLEN (λ rm_buf,
      if rflag then
        let! d := is_dir path in
        if negb d then rm_file path
        else
          u_sys_chdir path ;;;
          let! len := dir_list rm_buf 0 in
          each_name rm_buf len (λ sub_path, rm_r fuel sub_path rflag ;;; ret tt) ;;;
          local 3 (λ up,
            setch up 46 ;;; setch (up + 1) 46 ;;; setch (up + 2) 0 ;;;
            u_sys_chdir up) ;;;
          rm_file path ;;;
          ret 0
      else
        let! d := is_dir path in
        if d then print (line "rm: cannot remove directory. try '-r' for directory") [path] ;;; ret 0
        else rm_file path)
  end.

(** ** The commands *)

Definition ls (argc : Z) (argv : list Z) : U Z :=
  (if argc =? 1 then
     u_sys_ls shell_buf BUFFERLEN ;;;
     print (line "%s") [shell_buf]
   else if argc =? 2 then
     local 100 (λ path,
       u_sys_pwd path ;;;
       let! a := arg argv 1 in
       u_sys_chdir a ;;;
       u_sys_ls shell_buf BUFFERLEN ;;;
       print (line "%s") [shell_buf] ;;;
       u_sys_chdir path ;;;
       ret tt)
   else print (line "ls: too many arguments") []) ;;;
  ret 0.

Definition pwd (argc : Z) (argv : list Z) : U Z :=
  u_sys_pwd shell_buf ;;;
  print (line "~%s") [shell_buf + 1] ;;;
  ret 0.

Definition cd (argc : Z) (argv : list Z) : U Z :=
  local 1024 (λ path,
    if argc =? 1 then print (line "cd: too few arguments") [] ;;; ret 0
    else
      let! a := arg argv 1 in
      mem_ (u_strcpy path a) ;;;
      u_sys_chdir path ;;;
      ret 0).

Definition cp (argc : Z) (argv : list Z) : U Z :=
  if argc <? 3 then print (line "cp: too few arguments") [] ;;; ret 0
  else if argc >? 4 then print (line "cp: too many arguments") [] ;;; ret 0
  else if argc =? 3 then
    let! src_path := arg argv 1 in
    let! dest_path := arg argv 2 in
    cp_r shell_fuel dest_path src_path false ;;;
    ret 0
  else
    let! a := arg argv 1 in
    let! r := lit_cmp a (codes "-r") in
    if nz r then print (line "cp: invalid arg. use -r for recursive cp") [] ;;; ret 0
    else
      let! src_path := arg argv 2 in
      let! dest_path := arg argv 3 in
      cp_r shell_fuel dest_path src_path true ;;;
      ret 0.

Definition mv (argc : Z) (argv : list Z) : U Z :=
  if negb (argc =? 3) then print (line "mv: invalid arguments, exactly 2 needed") [] ;;; ret 0
  else
    let! src := arg argv 1 in
    let! dest := arg argv 2 in
    let! e := is_exist src in
    if negb e then print (line "mv: source file does not exist") [] ;;; ret 0
    else
      let! d := is_dir src in
      if d then
        let! e := is_exist dest in
        let! f := if e then let! d := is_dir dest in ret (negb d) else ret false in
        if f then print (line "mv: cannot move to a file") [] ;;; ret 0
        else
          cp_r shell_fuel dest src true ;;;
          rm_r shell_fuel src true ;;;
          ret 0
      else
        cp_r shell_fuel dest src true ;;;
        rm_r shell_fuel src false ;;;
        ret 0.

(** [rm] after its options: the path is [argv[i]]. *)
Definition rm_path (argv : list Z) (i : nat) (rflag : bool) : U Z :=
  let! path := arg argv i in
  let! e := is_exist path in
  if negb e then print (line "rm: cannot remove, no such file or directory") [path] ;;; ret 0
  else rm_r shell_fuel path rflag ;;; ret 0.

Definition rm (argc : Z) (argv : list Z) : U Z :=
  if argc =? 1 then print (line "Too few arguments") [] ;;; ret 0
  else
    let! a := arg argv 1 in
    let! r := lit_cmp a (codes "-r") in
    if negb (nz r) then
      if argc <? 3 then print (line "rm: no path given") [] ;;; ret 0
      else rm_path argv 2 true
    else rm_path argv 1 false.

Definition shell_mkdir (argc : Z) (argv : list Z) : U Z :=
  when (argc =? 1) (print (line "mkdir failed, no path") []) ;;;
  for_ 1 argc (λ i,
    let! a := arg argv (Z.to_nat i) in
    let! r := u_sys_mkdir a in
    when (negb (r =? 0)) (print (line "make dir failed.") [])) ;;;
  ret 0.

Definition shell_cat (argc : Z) (argv : list Z) : U Z :=
  if argc =? 1 then print (line "No Path ") [] ;;; ret 0
  else if argc >? 2 then print (line "Too many arguments ") [] ;;; ret 0
  else
    let! path := arg argv 1 in
    local 100 (λ buf,
      let! fd := u_sys_open path O_RDONLY in
      if fd =? -1 then print (line "cat, open error ") [] ;;; ret 0
      else
        let! size := u_sys_read fd buf 99 in
        setch (buf + size) 0 ;;;
        print (line "%s") [buf] ;;;
        u_sys_close fd ;;;
        ret 0).

Definition shell_touch (argc : Z) (argv : list Z) : U Z :=
  if argc =? 1 then print (line "No path given. ") [] ;;; ret 0
  else
    for_ 1 argc (λ i,
      let! a := arg argv (Z.to_nat i) in
      let! fd := u_sys_open a O_RDONLY in
      if fd >=? 0 then
        print (line "%s file already exists") [a] ;;;
        u_sys_close fd ;;;
        ret tt
      else
        let! fd := u_sys_open a O_CREATE in
        u_sys_close fd ;;;
        ret tt) ;;;
    ret 0.

Definition shell_write (argc : Z) (argv : list Z) : U Z :=
  if argc =? 1 then print (line "write: too few arguments.") [] ;;; ret 0
  else
    let! a1 := arg argv 1 in
    let! a2 := arg argv 2 in
    let! fd := u_sys_open a2 (Z.lor O_CREATE O_RDWR) in
    if fd >=? 0 then
      let! len := mem_ (u_strlen a1) in
      let! n := u_sys_write fd a1 len in
      let! len := mem_ (u_strlen a1) in
      when (negb (n =? len)) (print (line "write, write error") []) ;;;
      u_sys_close fd ;;;
      ret 0
    else print (line "write, open error") [] ;;; ret 0.

Definition shell_append (argc : Z) (argv : list Z) : U Z :=
  if argc =? 1 then print (line "append failed, too few arguments.") [] ;;; ret 0
  else
    let! a1 := arg argv 1 in
    let! a2 := arg argv 2 in
    let! fd := u_sys_open a2 O_RDONLY in
    if fd >=? 0 then
      local 1000 (λ buf,
        let! n := u_sys_read fd buf 1000 in
        u_sys_close fd ;;;
        when (n =? 0) (setch buf 0) ;;;
        let! fd := u_sys_open a2 (Z.lor O_CREATE O_RDWR) in
        if fd <? 0 then print (text "append, fd error") [] ;;; ret 0
        else
          let! len := mem_ (u_strlen a1) in
          mem_ (u_strncpy (buf + n) a1 len) ;;;
          let! l := mem_ (u_strlen buf) in
          u_sys_write fd buf l ;;;
          u_sys_close fd ;;;
          ret 0)
    else print (line "append, open error") [] ;;; ret 0.

(** ** The command line *)

Definition is_space (c : Z) : bool := existsb (Z.eqb c) PARSESPACE.

(** The two inner loops: separators become zeros, and a word is passed over. *)
Definition skip_space (buf : Z) : U Z :=
  loopw (λ buf,
    let! c := getch buf in
    if nz c && is_space c then setch buf 0 ;;; ret (inl (buf + 1)) else ret (inr buf)) buf.

Definition skip_word (buf : Z) : U Z :=
  loopw (λ buf,
    let! c := getch buf in
    ret (if nz c && negb (is_space c) then inl (buf + 1) else inr buf)) buf.

(** The arguments of a command line: [argv] up to [argc]. *)
Definition parse_args (buf : Z) : U (list Z) :=
  loopw (λ '(buf, argv),
    let! buf := skip_space buf in
    let! c := getch buf in
    if c =? 0 then ret (inr argv)
    else if Z.of_nat (length argv) =? MAXARGS - 1 then ret (inr argv)
    else
      let! buf' := skip_word buf in
      ret (inl (buf', argv ++ [buf]))) (buf, []).

Definition cmds : list (string * (Z → list Z → U Z)) :=
  [("ls", ls); ("pwd", pwd); ("cd", cd); ("cp", cp); ("mv", mv); ("rm", rm); ("mkdir", shell_mkdir); ("cat", shell_cat);
   ("touch", shell_touch); ("write", shell_write); ("append", shell_append)]%string.

(** [for (i = 0; i < NUMCOMMANDS; i++)] *)
Fixpoint run_cmds (l : list (string * (Z → list Z → U Z))) (a0 : Z) (argv : list Z) : U Z :=
  match l with
  | [] => print (line "Unknown command '%s'") [a0] ;;; ret 0
  | (name, func) :: r =>
      let! d := lit_cmp a0 (codes name) in
      if d =? 0 then func (Z.of_nat (length argv)) argv else run_cmds r a0 argv
  end.

Definition run_command (buf : Z) : U Z :=
  let! argv := parse_args buf in
  match argv with
  | [] => ret 0
  | a0 :: _ => run_cmds cmds a0 argv
  end.

(** One round of [main]: [inr] leaves the loop. *)
Definition shell_round (buf : Z) : U (unit + unit) :=
  u_sys_readline buf ;;;
  let! r := run_command buf in
  ret (if r <? 0 then inr tt else inl tt).

(** The names "file1" and "file2" of the two files are passed as the addresses of their
    literals. *)
Definition shell_main (file1 file2 : Z) : U unit :=
  local 1024 (λ buf,
    print ([10] ++ line "##### Shell started #####") [] ;;;
    let! fd := u_sys_open file1 (Z.lor O_CREATE O_RDWR) in
    u_sys_close fd ;;;
    let! fd := u_sys_open file2 (Z.lor O_CREATE O_RDWR) in
    u_sys_close fd ;;;
    loopw (λ _ : unit, shell_round buf) tt ;;;
    print ([10] ++ line "Shell ERROR, rerun") []).

End shell.
#[global] Arguments is_space : simpl never.
