(* ===== verification/ShellSpec.v ===== *)
(** * The command line of the shell, verified

    [run_command] splits a line into its words, in place, and runs the command that the
    first word names; [printf] of the user library prints all characters, in order, with
    any number of system calls. *)

From S2P Require Import Prelude Mem Printf Ulib Shell.

(** ** Strings in memory *)

(** The string [l], with a zero behind it, is at [a]. *)
Record cstr (m : memory) (a : Z) (l : list Z) : Prop := {
  cs_addr : 0 ≤ a ∧ a + Z.of_nat (length l) < W32;
  cs_char : ∀ i c, l !! i = Some c → load8 m (a + Z.of_nat i) = c ∧ c ≠ 0;
  cs_end : load8 m (a + Z.of_nat (length l)) = 0;
}.

Lemma loadc_0 m a : (loadc m a =? 0) = (load8 m a =? 0).
Proof.
  unfold loadc, s8. pose proof (load8_range m a). destruct (Z.eqb_spec (load8 m a) 0) as [->|Hn]; [done|].
  apply Z.eqb_neq. divlia.
Qed.

Lemma nz_loadc m a : nz (loadc m a) = nz (load8 m a).
Proof. unfold nz. by rewrite loadc_0. Qed.

(** A character below 128 is the same, signed or not. *)
Lemma loadc_eq m a c : 0 ≤ c < 128 → (loadc m a =? c) = (load8 m a =? c).
Proof.
  intros Hc. unfold loadc, s8. pose proof (load8_range m a).
  destruct (Z.eqb_spec (load8 m a) c), (Z.eqb_spec ((load8 m a + 128) mod 256 - 128) c); try done; exfalso; divlia.
Qed.

Lemma cstr_nil m a l : cstr m a l → load8 m a = 0 → l = [].
Proof.
  intros [_ Hc _] H0. destruct l as [|c l]; [done|]. destruct (Hc 0%nat c eq_refl) as [E Hn].
  rewrite Z.add_0_r in E. congruence.
Qed.

Lemma cstr_cons m a c l : cstr m a (c :: l) → load8 m a = c ∧ c ≠ 0 ∧ cstr m (a + 1) l.
Proof.
  intros [Ha Hc He]. destruct (Hc 0%nat c eq_refl) as [E Hn]. rewrite Z.add_0_r in E. cbn [length] in *.
  split; [done|]. split; [done|]. split; [lia| |].
  - intros i d Hi. destruct (Hc (S i) d Hi). split; [|done].
    by replace (a + 1 + Z.of_nat i) with (a + Z.of_nat (S i)) by lia.
  - by replace (a + 1 + Z.of_nat (length l)) with (a + Z.of_nat (S (length l))) by lia.
Qed.

Lemma cstr_app m a w r : cstr m a (w ++ r) → cstr m (a + Z.of_nat (length w)) r.
Proof.
  revert a. induction w as [|c w IH]; intros a Hs; cbn [app length] in *; [by rewrite Z.add_0_r|].
  apply cstr_cons in Hs as (_ & _ & Hs). apply IH in Hs.
  by replace (a + Z.of_nat (S (length w))) with (a + 1 + Z.of_nat (length w)) by lia.
Qed.

(** A string is kept by changes elsewhere. *)
Lemma cstr_ext m m' a l : (∀ b, a ≤ b ≤ a + Z.of_nat (length l) → load8 m' b = load8 m b) → cstr m a l → cstr m' a l.
Proof.
  intros E [Ha Hc He]. split; [done| |].
  - intros i c Hi. apply lookup_lt_Some in Hi as Hl. rewrite E by lia. by apply Hc.
  - by rewrite E by lia.
Qed.

(** ** Words *)

Fixpoint words (l : list Z) : list (list Z) :=
  match l with
  | [] => []
  | c :: r =>
      if is_space c then words r
      else
        let ws := words r in
        match r with
        | [] => [[c]]
        | d :: _ => if is_space d then [c] :: ws else match ws with w :: ws => (c :: w) :: ws | [] => [[c]] end
        end
  end.

Lemma words_cons c r : words (c :: r) =
  if is_space c then words r
  else match r with
       | [] => [[c]]
       | d :: _ => if is_space d then [c] :: words r else match words r with w :: ws => (c :: w) :: ws | [] => [[c]] end
       end.
Proof. done. Qed.

Example words_of : words (codes " cp  a b ") = [codes "cp"; codes "a"; codes "b"].
Proof. reflexivity. Qed.

(** The first character, if any, is a separator. *)
Definition at_word_end (l : list Z) : Prop := match l with [] => True | c :: _ => is_space c = true end.

Lemma words_spaces sp l : Forall (λ c, is_space c = true) sp → words (sp ++ l) = words l.
Proof. induction 1 as [|c sp Hc Hs IH]; cbn [app words]; [done|]. by rewrite Hc. Qed.

Lemma words_word c w r : Forall (λ c, is_space c = false) (c :: w) → at_word_end r →
  words ((c :: w) ++ r) = (c :: w) :: words r.
Proof.
  intros Hw Hr. revert c Hw. induction w as [|d w IH]; intros c [Hc Hw]%Forall_cons; cbn [app]; rewrite words_cons, Hc.
  - destruct r as [|e r]; [done|]. cbn in Hr. by rewrite Hr.
  - apply Forall_cons in Hw as Hw'. destruct Hw' as [Hd _]. specialize (IH d Hw). cbn [app] in IH. by rewrite IH, Hd.
Qed.

(** A line is separators, a word, and the rest. *)
Lemma split_spaces l : ∃ sp r, l = sp ++ r ∧ Forall (λ c, is_space c = true) sp ∧
  match r with [] => True | c :: _ => is_space c = false end.
Proof.
  induction l as [|c l (sp & r & -> & Hs & Hr)]; [by exists [], []|]. destruct (is_space c) eqn:E.
  - exists (c :: sp), r. split; [done|]. split; [by constructor|done].
  - by exists [], (c :: sp ++ r).
Qed.

Lemma split_word l : ∃ w r, l = w ++ r ∧ Forall (λ c, is_space c = false) w ∧ at_word_end r.
Proof.
  induction l as [|c l (w & r & -> & Hs & Hr)]; [by exists [], []|]. destruct (is_space c) eqn:E.
  - by exists [], (c :: w ++ r).
  - exists (c :: w), r. split; [done|]. split; [by constructor|done].
Qed.

Lemma is_space_loadc m a : is_space (loadc m a) = is_space (load8 m a).
Proof. unfold is_space, PARSESPACE. cbn [existsb]. by rewrite !loadc_eq by lia. Qed.

Section parse.
Context {K : Type} `{KE : SysEntry K, ShellLayout}.

(** [s'] is [s], with changes of the memory in the range from [a] to [b] only. *)
Definition within (s s' : ust K) (a b : Z) : Prop :=
  ∃ m, s' = set_umem m s ∧ ∀ x, 0 ≤ x < W32 → ¬ (a ≤ x < b) → load8 m x = load8 (umem s) x.

Lemma within_refl s a b : within s s a b.
Proof. exists (umem s). split; [by destruct s|done]. Qed.

Lemma within_trans s1 s2 s3 a b c : within s1 s2 a b → within s2 s3 b c → a ≤ b ≤ c → within s1 s3 a c.
Proof.
  intros (m & -> & Hm) (m' & -> & Hm') Hl. exists m'. split; [done|]. intros x Hx Hn. rewrite Hm' by lia. apply Hm; lia.
Qed.

Lemma within_load s s' a b x : within s s' a b → 0 ≤ x < W32 → ¬ (a ≤ x < b) → load8 (umem s') x = load8 (umem s) x.
Proof. intros (m & -> & Hm). apply Hm. Qed.

(** Separators are overwritten. *)
Lemma skip_space_run sp r a s :
  Forall (λ c, is_space c = true) sp → match r with [] => True | c :: _ => is_space c = false end →
  cstr (umem s) a (sp ++ r) →
  runs (skip_space a) s (λ b s', b = a + Z.of_nat (length sp) ∧ within s s' a b ∧ cstr (umem s') b r ∧
    (sp ≠ [] → load8 (umem s') a = 0)).
Proof.
  intros Hsp Hr Hs. apply (loopw_runs (S (length sp))).
  { destruct Hs as [Ha _ _]. rewrite length_app in Ha. unfold W32 in *. lia. }
  revert a s Hs. induction Hsp as [|c sp Hc Hsp IH]; intros a s Hs; apply loop_S; unfold getch;
    (eapply runs_bind_eq; [reflexivity|]); rewrite nz_loadc, is_space_loadc.
  - cbn [app] in Hs. assert (nz (load8 (umem s) a) && is_space (load8 (umem s) a) = false) as ->.
    { destruct r as [|d r]; [destruct Hs as [_ _ He]; cbn in He; rewrite Z.add_0_r in He; by rewrite He|].
      apply cstr_cons in Hs as (-> & _ & _). by rewrite Hr, andb_false_r. }
    apply runs_ret. cbn [length]. rewrite Z.add_0_r. split; [done|]. split; [apply within_refl|]. split; done.
  - cbn [app] in Hs. pose proof (cs_addr _ _ _ Hs) as Ha. apply cstr_cons in Hs as (Hl & Hn & Hs).
    cbn [app length] in Ha. rewrite Hl, Hc, (proj2 (nz_spec c)) by done. cbn [andb].
    eapply runs_bind_eq; [reflexivity|]. apply runs_ret. set (s1 := set_umem _ s).
    assert (within s s1 a (a + 1)) as H1.
    { eexists. split; [done|]. intros x Hx Hne. rewrite load8_store8 by lia. by rewrite bool_decide_false by lia. }
    assert (load8 (umem s1) a = 0) as H0 by (cbn; rewrite load8_store8, bool_decide_true; done || lia).
    eapply runs_mono; [apply IH|].
    + eapply cstr_ext; [|exact Hs]. intros b Hb. eapply within_load; [exact H1|lia|lia].
    + intros b s2 (-> & H2 & Hr2 & _). cbn [length].
      replace (a + 1 + Z.of_nat (length sp)) with (a + Z.of_nat (S (length sp))) in * by lia.
      split; [done|]. split; [eapply within_trans; [exact H1|exact H2|lia]|]. split; [done|]. intros _.
      rewrite (within_load _ _ _ _ _ H2) by lia. done.
Qed.

Lemma skip_word_run w r a (s : ust K) :
  Forall (λ c, is_space c = false) w → at_word_end r → cstr (umem s) a (w ++ r) →
  skip_word a s = Ret (a + Z.of_nat (length w), s).
Proof.
  intros Hw Hr Hs. apply (loopw_Ret (S (length w))).
  { destruct Hs as [Ha _ _]. rewrite length_app in Ha. unfold W32 in *. lia. }
  revert a Hs. induction Hw as [|c w Hc Hw IH]; intros a Hs.
  - apply loop_inr. unfold getch. erewrite bind_Ret by done. rewrite nz_loadc, is_space_loadc. cbn [app length] in *.
    rewrite Z.add_0_r. destruct r as [|d r].
    + destruct Hs as [_ _ He]. cbn in He. rewrite Z.add_0_r in He. by rewrite He.
    + apply cstr_cons in Hs as (-> & _ & _). cbn in Hr. by rewrite Hr, andb_false_r.
  - cbn [app length] in *. apply cstr_cons in Hs as (Hl & Hn & Hs).
    erewrite loop_inl; [rewrite IH by done; do 2 f_equal; lia|].
    unfold getch. erewrite bind_Ret by done. rewrite nz_loadc, is_space_loadc, Hl, Hc, (proj2 (nz_spec c)) by done. done.
Qed.

(** The arguments [ps] found in the line [l] at [a], when there was room for [n] of them:
    the addresses of its first [n] words, each of them a string now. *)
Record args_of (n : nat) (l : list Z) (a : Z) (s s' : ust K) (ps : list Z) : Prop := {
  ao_within : within s s' a (a + Z.of_nat (length l));
  ao_length : length ps = Nat.min n (length (words l));
  ao_word : ∀ i p, ps !! i = Some p → ∃ w, words l !! i = Some w ∧ a ≤ p ∧ cstr (umem s') p w;
  ao_end : at_word_end l → load8 (umem s') a = 0;
}.

(** The string in front of which the parser has changed something. *)
Lemma cstr_word m m' a w r : cstr m a (w ++ r) → (∀ x, a ≤ x < a + Z.of_nat (length w) → load8 m' x = load8 m x) →
  load8 m' (a + Z.of_nat (length w)) = 0 → cstr m' a w.
Proof.
  intros [Ha Hc He] Hm H0. rewrite length_app in Ha. split; [lia| |done].
  intros i c Hi. apply lookup_lt_Some in Hi as Hl. rewrite Hm by lia. apply Hc. by apply lookup_app_l_Some.
Qed.

(** The arguments after the separators are those of the rest of the line. *)
Lemma args_of_spaces n sp r a b s s1 s2 ps :
  Forall (λ c, is_space c = true) sp → match r with [] => True | c :: _ => is_space c = false end →
  b = a + Z.of_nat (length sp) → 0 ≤ a → b + Z.of_nat (length r) < W32 →
  within s s1 a b → (sp ≠ [] → load8 (umem s1) a = 0) →
  args_of n r b s1 s2 ps → args_of n (sp ++ r) a s s2 ps.
Proof.
  intros Hsp Hr -> Ha Hb Hw H0 [Aw Al Ap Ae]. split; rewrite ?words_spaces by done; [| done | |].
  - rewrite length_app. eapply within_trans; [exact Hw| |lia].
    by replace (a + Z.of_nat (length sp + length r)) with (a + Z.of_nat (length sp) + Z.of_nat (length r)) by lia.
  - intros i p Hp. destruct (Ap i p Hp) as (w & Hi & Hle & Hs). exists w. split; [done|]. split; [lia|done].
  - intros He. destruct sp as [|c sp]; cbn [length app] in *.
    + rewrite Z.add_0_r in *. by apply Ae.
    + rewrite (within_load _ _ _ _ _ Aw) by lia. by apply H0.
Qed.

(** The first word and the arguments after it. *)
Lemma args_of_word n c w r a s s' ps :
  Forall (λ c, is_space c = false) (c :: w) → at_word_end r → cstr (umem s) a ((c :: w) ++ r) →
  args_of n r (a + Z.of_nat (length (c :: w))) s s' ps → args_of (S n) ((c :: w) ++ r) a s s' (a :: ps).
Proof.
  intros Hw Hr Hs [Aw Al Ap Ae]. pose proof (cs_addr _ _ _ Hs) as Ha. rewrite length_app in Ha.
  split; rewrite ?words_word by done.
  - destruct Aw as (m & -> & Hm). exists m. split; [done|]. intros x Hx Hn. rewrite length_app in Hn. apply Hm; lia.
  - cbn [length]. by rewrite Al.
  - intros [|i] p Hp; cbn in Hp.
    + injection Hp as <-. exists (c :: w). split; [done|]. split; [lia|]. eapply cstr_word; [exact Hs| |by apply Ae].
      intros x Hx. apply (within_load _ _ _ _ _ Aw); lia.
    + destruct (Ap i p Hp) as (w' & Hi & Hle & Hs'). exists w'. split; [done|]. split; [lia|done].
  - intros He. cbn in He. inversion Hw as [|?? Hc _]; subst. by rewrite Hc in He.
Qed.

(** There are no more words, or no more room. *)
Lemma args_of_none n l a s : cstr (umem s) a l → l = [] ∨ (n = 0%nat ∧ ¬ at_word_end l) → args_of n l a s s [].
Proof.
  intros Hs Hl. split; [apply within_refl| |by intros i p ?|].
  - destruct Hl as [->|[-> _]]; cbn; lia.
  - intros He. destruct Hl as [->|[_ ?]]; [|done]. destruct Hs as [_ _ He']. by rewrite Z.add_0_r in He'.
Qed.

(** The loop of the parser: every round takes a word, so that the rounds are not more than
    the characters. *)
Lemma parse_loop_run k l a argv s :
  (length l ≤ k)%nat → cstr (umem s) a l → (length argv ≤ 15)%nat →
  runs (loop (S k) (λ '(buf, argv),
    let! buf := skip_space buf in
    let! c := getch buf in
    if c =? 0 then ret (inr argv)
    else if Z.of_nat (length argv) =? MAXARGS - 1 then ret (inr argv)
    else
      let! buf' := skip_word buf in
      ret (inl (buf', argv ++ [buf]))) (a, argv)) s
    (λ r s', ∃ ps, r = argv ++ ps ∧ args_of (15 - length argv) l a s s' ps).
Proof.
  revert l a argv s. induction k as [k IH] using lt_wf_ind. intros l a argv s Hk Hs Hargv. apply loop_S.
  destruct (split_spaces l) as (sp & r & -> & Hsp & Hr). pose proof (cs_addr _ _ _ Hs) as Ha.
  rewrite length_app in Ha, Hk. eapply runs_bind_mono; [by apply (skip_space_run sp r)|].
  intros b s1 (Hb & Hw & Hs1 & H0). unfold getch. eapply runs_bind_eq; [reflexivity|]. rewrite loadc_0.
  assert (∀ ps s2, args_of (15 - length argv) r b s1 s2 ps → args_of (15 - length argv) (sp ++ r) a s s2 ps) as Hspaces.
  { intros ps s2. apply (args_of_spaces _ _ _ _ _ _ s1); try done; lia. }
  destruct r as [|c r].
  { rewrite (proj2 (Z.eqb_eq _ 0)) by (destruct Hs1 as [_ _ He]; by rewrite Z.add_0_r in He).
    apply runs_ret. exists []. rewrite app_nil_r. split; [done|]. apply Hspaces, args_of_none; [done|by left]. }
  destruct (cstr_cons _ _ _ _ Hs1) as (Hl & Hn & _). rewrite Hl, (proj2 (Z.eqb_neq _ _) Hn).
  destruct (Z.eqb_spec (Z.of_nat (length argv)) (MAXARGS - 1)) as [Hfull|Hroom].
  { apply runs_ret. exists []. rewrite app_nil_r. split; [done|]. apply Hspaces, args_of_none; [done|]. right.
    unfold MAXARGS in Hfull. split; [lia|]. cbn. by rewrite Hr. }
  destruct (split_word (c :: r)) as (w & r2 & Er & Hw2 & Hr2). destruct w as [|d w].
  { cbn in Er. subst r2. cbn in Hr2. congruence. }
  rewrite Er in Hs1. eapply runs_bind_eq; [by eapply skip_word_run|]. apply runs_ret.
  assert (length (c :: r) = S (length w + length r2)) as Hlen by (rewrite Er; cbn; by rewrite length_app).
  destruct k as [|k]; [lia|]. unfold MAXARGS in Hroom.
  eapply runs_mono; [apply (IH k ltac:(lia) r2 _ (argv ++ [b]) s1); [lia| |rewrite length_app; cbn; lia]|].
  - by apply (cstr_app _ _ (d :: w)).
  - intros q s2 (ps & -> & Hps). exists (b :: ps). split; [by rewrite <- app_assoc|]. apply Hspaces. rewrite Er.
    replace (15 - length argv)%nat with (S (15 - length (argv ++ [b])))%nat by (rewrite length_app; cbn; lia).
    by apply args_of_word.
Qed.

Lemma parse_args_run l a s : cstr (umem s) a l → runs (parse_args a) s (λ ps s', args_of 15 l a s s' ps).
Proof.
  intros Hs. pose proof (cs_addr _ _ _ Hs). apply (loopw_runs (S (length l))); [unfold W32 in *; lia|].
  eapply runs_mono; [by apply (parse_loop_run (length l) l); [lia| |cbn; lia]|]. intros r s' (ps & -> & Hps). exact Hps.
Qed.

(** ** The choice of the command *)

Lemma strcmp_lit_eq m p w l : cstr m p w → Forall (λ c, 0 < c < 128) l → (strcmp_lit p l m =? 0) = bool_decide (w = l).
Proof.
  intros Hs Hl. revert p w Hs. induction Hl as [|c l Hc Hl IH]; intros p w Hs; cbn [strcmp_lit].
  - destruct w as [|d w].
    + destruct Hs as [_ _ He]. cbn in He. rewrite Z.add_0_r in He. by rewrite He.
    + apply cstr_cons in Hs as (-> & Hn & _). rewrite bool_decide_false by done. by apply Z.eqb_neq.
  - rewrite nz_loadc, loadc_eq by lia. destruct w as [|d w].
    + destruct Hs as [_ _ He]. cbn in He. rewrite Z.add_0_r in He. rewrite He, bool_decide_false by done. change (nz 0) with false.
      apply Z.eqb_neq. cbn [andb]. lia.
    + apply cstr_cons in Hs as (-> & Hn & Hs). rewrite (proj2 (nz_spec d)) by done. cbn [andb].
      destruct (Z.eqb_spec d c) as [->|Hdc].
      * rewrite (IH _ _ Hs). apply bool_decide_ext. split; congruence.
      * rewrite bool_decide_false by congruence. apply Z.eqb_neq. lia.
Qed.

(** The command with the name [w]. *)
Fixpoint command (l : list (string * (Z → list Z → M (ust K) Z))) (w : list Z) : option (Z → list Z → M (ust K) Z) :=
  match l with
  | [] => None
  | (name, func) :: r => if bool_decide (w = codes name) then Some func else command r w
  end.

Lemma run_cmds_run l a0 argv w s : cstr (umem s) a0 w → Forall (λ x, Forall (λ c, 0 < c < 128) (codes x.1)) l →
  run_cmds l a0 argv s =
  match command l w with
  | Some func => func (Z.of_nat (length argv)) argv s
  | None => (print (line "Unknown command '%s'") [a0] ;;; ret 0) s
  end.
Proof.
  intros Hs. induction 1 as [|[name func] l Hn Hl IH]; cbn [run_cmds command]; [done|].
  unfold lit_cmp, gets. erewrite bind_Ret by done. rewrite (strcmp_lit_eq _ _ w) by done. by case_bool_decide.
Qed.

Lemma cmds_names : Forall (λ x, Forall (λ c, 0 < c < 128) (codes x.1)) cmds.
Proof. unfold cmds. repeat constructor. Qed.

(** C20: the command line.  For every line in memory, [run_command] ends its parsing and runs
    the command whose name is the first word of the line, with the addresses of the first 15
    words as its arguments, each of them a string of its own by then; outside of the line
    nothing has changed.  An empty line does nothing, and an unknown name is reported. *)
Theorem run_command_dispatch l a s : cstr (umem s) a l →
  ∃ s' ps, within s s' a (a + Z.of_nat (length l)) ∧ length ps = Nat.min 15 (length (words l)) ∧
    (∀ i p, ps !! i = Some p → ∃ w, words l !! i = Some w ∧ cstr (umem s') p w) ∧
    run_command a s =
    match words l, ps with
    | w :: _, a0 :: _ =>
        match command cmds w with
        | Some func => func (Z.of_nat (length ps)) ps s'
        | None => (print (line "Unknown command '%s'") [a0] ;;; ret 0) s'
        end
    | _, _ => Ret (0, s')
    end.
Proof.
  intros Hs. destruct (proj1 (runs_eq _ _ _) (parse_args_run l a s Hs)) as (ps & s' & E & [Aw Al Ap _]).
  exists s', ps. split; [done|]. split; [done|]. split.
  { intros i p Hp. destruct (Ap i p Hp) as (w & Hi & _ & Hw). by exists w. }
  unfold run_command. rewrite (bind_Ret _ _ _ _ _ E). destruct ps as [|a0 ps]; [by destruct (words l)|].
  destruct (Ap 0%nat a0 eq_refl) as (w & Hi & _ & Hw). destruct (words l) as [|w' ws]; [done|].
  injection Hi as ->. by rewrite (run_cmds_run cmds a0 _ w s' Hw cmds_names).
Qed.

End parse.

(** ** Output *)

Definition bytes (m : memory) (a n : Z) : list Z := (λ i, load8 m (a + i)) <$> seqZ 0 n.

Section print.
Context {K : Type} `{KE : SysEntry K}.

Lemma bytes_snoc m a n c : 0 ≤ a → a + n < W32 → 0 ≤ n →
  bytes (store8 (a + n) c m) a (n + 1) = bytes m a n ++ [u8 c].
Proof.
  intros Ha Hw Hn. unfold bytes. rewrite seqZ_app by lia. rewrite fmap_app. f_equal.
  - apply list_fmap_ext. intros i x Hx. apply list_elem_of_lookup_2, elem_of_seqZ in Hx.
    cbv beta. rewrite load8_store8, bool_decide_false by lia. done.
  - rewrite seqZ_cons, seqZ_nil by lia. cbn [fmap list_fmap]. rewrite Z.add_0_l, load8_store8, bool_decide_true by lia. done.
Qed.

Lemma bytes_ext m m' a n : (∀ x, a ≤ x < a + n → load8 m' x = load8 m x) → bytes m' a n = bytes m a n.
Proof.
  intros E. apply list_fmap_ext. intros i x Hx. apply list_elem_of_lookup_2, elem_of_seqZ in Hx.
  cbv beta. apply E. lia.
Qed.

(** The characters that fit are stored, from [i] characters on; [lim] is the bound. *)
Lemma u_sprintputch_run buf lim l i (s : ust K) :
  0 ≤ buf → 0 ≤ i ≤ lim → buf + lim < W32 →
  runs (u_sprintputch l (buf + i) (buf + lim)) s (λ b s', ∃ m, s' = set_umem m s ∧
    let k := Z.min (lim - i) (Z.of_nat (length l)) in
    b = buf + (i + k) ∧ bytes m buf (i + k) = bytes (umem s) buf i ++ (u8 <$> take (Z.to_nat k) l) ∧
    ∀ x, 0 ≤ x < W32 → ¬ (buf + i ≤ x < buf + (i + k)) → load8 m x = load8 (umem s) x).
Proof.
  intros Hb. revert i s. induction l as [|ch l IH]; intros i s Hi Hw; cbn [u_sprintputch].
  - apply runs_ret. exists (umem s). split; [by destruct s|]. cbv zeta. rewrite Z.min_r by (simpl; lia).
    simpl. rewrite Z.add_0_r, app_nil_r. done.
  - destruct (Z.ltb_spec (buf + i) (buf + lim)) as [Hlt|Hge].
    + eapply runs_bind_eq; [reflexivity|]. rewrite <- Z.add_assoc.
      eapply runs_mono; [apply (IH (i + 1)); lia|]. intros b s' (m & -> & Hk). exists m. split; [done|].
      cbv zeta in *. simpl length in *. set (k := Z.min (lim - (i + 1)) (Z.of_nat (length l))) in *.
      replace (Z.min (lim - i) (Z.of_nat (S (length l)))) with (k + 1) by lia. assert (0 ≤ k) by lia.
      destruct Hk as (-> & Hbs & Hx). simpl umem in *. split; [lia|]. split.
      * replace (i + (k + 1)) with (i + 1 + k) by lia. rewrite Hbs, bytes_snoc by lia.
        replace (Z.to_nat (k + 1)) with (S (Z.to_nat k)) by lia. simpl. by rewrite <- app_assoc.
      * intros x Hr Hn. rewrite Hx by lia. rewrite load8_store8, bool_decide_false by lia. done.
    + assert (i = lim) as -> by lia. eapply runs_mono; [apply (IH lim); lia|]. intros b s' (m & -> & Hk). exists m. split; [done|].
      cbv zeta in *. rewrite Z.sub_diag, Z.min_l in Hk |- * by lia. exact Hk.
Qed.


End print.

(** ** File names *)

Lemma u_strncpy_filled n dst src m :
  0 ≤ dst → dst + Z.of_nat n ≤ W32 → 0 ≤ src → src + Z.of_nat n ≤ W32 →
  dst + Z.of_nat n ≤ src ∨ src + Z.of_nat n ≤ dst →
  (∀ i, 0 ≤ i < Z.of_nat n → load8 m (src + i) ≠ 0) →
  filled m (u_strncpy_loop n dst src m) dst (Z.of_nat n) (λ i, load8 m (src + i)).
Proof.
  revert dst src m. induction n as [|n IH]; intros dst src m Hd Hdn Hs Hsn Ho Hz a Ha; cbn [u_strncpy_loop].
  - by rewrite bool_decide_false by lia.
  - set (m1 := store8 dst (load8 m src) m).
    assert (∀ x, 0 ≤ x < W32 → x ≠ dst → load8 m1 x = load8 m x) as H1.
    { intros x Hx Hn. unfold m1. rewrite load8_store8, bool_decide_false by lia. done. }
    rewrite loadc_0, H1, (proj2 (Z.eqb_neq _ _)) by (try lia; specialize (Hz 0); rewrite Z.add_0_r in Hz; apply Hz; lia).
    rewrite (IH (dst + 1) (src + 1)); try lia.
    + pose proof (load8_range m src). repeat (case_bool_decide; try lia).
      * rewrite H1 by lia. f_equal. lia.
      * assert (a = dst) as -> by lia. unfold m1. rewrite load8_store8, bool_decide_true by lia. unfold u8.
        rewrite Z.mod_small by lia. f_equal. lia.
      * apply H1; lia.
    + intros i Hi. rewrite H1 by lia. replace (src + 1 + i) with (src + (i + 1)) by lia. apply Hz. lia.
Qed.

Section names.
Context {K : Type} `{KE : SysEntry K}.

Lemma u_strlen_run a l m : a ≠ 0 → Z.of_nat (length l) < 2147483648 → cstr m a l → u_strlen a m = Ret (Z.of_nat (length l), m).
Proof.
  intros Ha Hl Hs. unfold u_strlen, deref. rewrite (proj2 (Z.eqb_neq _ _) Ha).
  apply (loopw_Ret (S (length l))); [unfold W32; lia|].
  assert (∀ k, (k ≤ length l)%nat → loop (S k) (λ n m, if loadc m (a + n) =? 0 then Ret (inr n, m)
    else if n + 1 <? 2147483648 then Ret (inl (n + 1), m) else Fault) (Z.of_nat (length l - k)) m =
    Ret (Z.of_nat (length l), m)) as Hk.
  { induction k as [|k IH]; intros Hle.
    - apply loop_inr. rewrite Nat.sub_0_r, loadc_0, (cs_end _ _ _ Hs). done.
    - destruct (lookup_lt_is_Some_2 l (length l - S k)) as [c Hc]; [lia|].
      destruct (cs_char _ _ _ Hs _ _ Hc) as [Hlc Hn]. rewrite <- IH by lia. apply loop_inl.
      rewrite loadc_0, Hlc, (proj2 (Z.eqb_neq _ _) Hn), (proj2 (Z.ltb_lt _ _)) by lia. do 3 f_equal. lia. }
  specialize (Hk (length l) ltac:(lia)). by rewrite Nat.sub_diag in Hk.
Qed.

(** The position of the last slash, -1 without one. *)
Lemma last_slash_run dir base a (s : ust K) :
  (∀ i c, (dir ++ base) !! i = Some c → load8 (umem s) (a + Z.of_nat i) = c) →
  Forall (λ c, c ≠ 47) base → (dir = [] ∨ last dir = Some 47) →
  loop (S (length base)) (λ pos,
      if pos >=? 0 then
        let! c := getch (a + pos) in
        ret (if c =? 47 then inr pos else inl (pos - 1))
      else ret (inr pos)) (Z.of_nat (length (dir ++ base)) - 1) s = Ret (Z.of_nat (length dir) - 1, s).
Proof.
  intros Hs Hb Hd. revert Hs. induction base as [|c base IH] using rev_ind; intros Hs.
  - rewrite app_nil_r in *. apply loop_inr. destruct dir as [|d dir _] using rev_ind; [done|].
    rewrite length_app. cbn [length]. rewrite Z.geb_leb, (proj2 (Z.leb_le _ _)) by lia.
    unfold getch, gets. erewrite bind_Ret by done. destruct Hd as [?|Hd]; [by destruct dir|].
    rewrite last_snoc in Hd. injection Hd as ->. rewrite loadc_eq by lia.
    replace (Z.of_nat (length dir + 1) - 1) with (Z.of_nat (length dir)) by lia.
    rewrite (Hs (length dir) 47); [done|]. by rewrite lookup_app_r, Nat.sub_diag by lia.
  - apply Forall_app in Hb as [Hb [Hc _]%Forall_cons]. rewrite app_assoc in *.
    rewrite (length_app base), (length_app (dir ++ base)). cbn [length].
    replace (length base + 1)%nat with (S (length base)) by lia.
    erewrite loop_inl; [apply IH; [done|]|].
    + intros i d Hi. apply Hs. by apply lookup_app_l_Some.
    + rewrite Z.geb_leb, (proj2 (Z.leb_le _ _)) by lia. unfold getch, gets. erewrite bind_Ret by done.
      rewrite loadc_eq by lia. replace (Z.of_nat (length (dir ++ base) + 1) - 1) with (Z.of_nat (length (dir ++ base))) by lia.
      rewrite (Hs (length (dir ++ base)) c) by (by rewrite lookup_app_r, Nat.sub_diag by lia).
      by rewrite (proj2 (Z.eqb_neq _ _) Hc).
Qed.

(** The name of a file.  [get_filename] copies the characters behind the last slash of a
    path to the array it is given and returns their number.  It stores no zero behind them:
    the byte there keeps the value it had, so that the caller, [cp_r], gets a longer name
    when that byte is not zero by chance. *)
Theorem get_filename_base dir base path filename (s : ust K) :
  cstr (umem s) path (dir ++ base) → path ≠ 0 → Z.of_nat (length (dir ++ base)) < 2147483648 →
  dir ++ base ≠ [] → Forall (λ c, c ≠ 47) base → (dir = [] ∨ last dir = Some 47) →
  0 ≤ filename → filename + Z.of_nat (length base) < W32 →
  filename + Z.of_nat (length base) ≤ path ∨ path + Z.of_nat (length (dir ++ base)) ≤ filename →
  runs (get_filename path filename) s (λ n s', n = Z.of_nat (length base) ∧ ∃ m, s' = set_umem m s ∧
    bytes m filename n = base ∧ load8 m (filename + n) = load8 (umem s) (filename + n)).
Proof.
  intros Hs Hp Hlen Hne Hb Hd Hf Hfw Ho. pose proof (cs_addr _ _ _ Hs) as Ha. unfold get_filename, mem_.
  eapply runs_bind_eq; [by apply zoom_read, u_strlen_run|]. rewrite (proj2 (Z.eqb_neq _ _)) by (destruct (dir ++ base); done).
  eapply runs_bind_eq; [apply (loopw_Ret (S (length base))); [|apply last_slash_run; [|done|done]]|].
  { rewrite length_app in Ha. unfold W32 in *. lia. }
  { intros i c Hi. by apply (cs_char _ _ _ Hs). }
  rewrite length_app in *. replace (path + (Z.of_nat (length dir) - 1) + 1) with (path + Z.of_nat (length dir)) by lia.
  replace (Z.of_nat (length dir + length base) - (Z.of_nat (length dir) - 1 + 1)) with (Z.of_nat (length base)) by lia.
  eapply runs_bind_eq; [by apply zoom_Ret|]. apply runs_ret. split; [lia|]. rewrite Nat2Z.id.
  eexists. split; [done|]. change (lget s) with (umem s). replace (_ - _ - 1) with (Z.of_nat (length base)) by lia.
  assert (∀ i c, base !! i = Some c → load8 (umem s) (path + Z.of_nat (length dir) + Z.of_nat i) = c ∧ c ≠ 0) as Hc.
  { intros i c Hi. rewrite <- Z.add_assoc, <- Nat2Z.inj_add. apply (cs_char _ _ _ Hs).
    rewrite lookup_app_r by lia. by replace (length dir + i - length dir)%nat with i by lia. }
  pose proof (u_strncpy_filled (length base) filename (path + Z.of_nat (length dir)) (umem s)) as Hm.
  do 5 (specialize (Hm ltac:(lia))). assert (∀ i, 0 ≤ i < Z.of_nat (length base) →
    load8 (umem s) (path + Z.of_nat (length dir) + i) ≠ 0) as Hz.
  { intros i Hi. destruct (lookup_lt_is_Some_2 base (Z.to_nat i)) as [c Hi']; [lia|].
    destruct (Hc _ _ Hi') as [E Hn]. rewrite Z2Nat.id in E by lia. congruence. }
  specialize (Hm Hz). split; [|by rewrite (Hm (filename + Z.of_nat (length base)) ltac:(lia)), bool_decide_false by lia].
  apply list_eq. intros i. unfold bytes. rewrite list_lookup_fmap.
  destruct (base !! i) as [c|] eqn:Ei.
  - apply lookup_lt_Some in Ei as Hi. rewrite lookup_seqZ_lt by lia. cbn [fmap option_fmap option_map]. f_equal.
    rewrite Hm, bool_decide_true by lia. destruct (Hc _ _ Ei) as [<- _]. f_equal. lia.
  - apply lookup_ge_None in Ei. by rewrite lookup_seqZ_ge by lia.
Qed.

End names.

(** The command "write" with one argument opens the null pointer: [argc] is compared with 1,
    and [argv[2]] is used. *)
Lemma shell_write_null {K} `{SysEntry K} a0 a1 s : shell_write 2 [a0; a1] s = Fault.
Proof. reflexivity. Qed.

(** ** Examples *)

(** A kernel that refuses every call. *)
#[local] Instance demo_calls : SysEntry unit := {| int48 := λ _ s, Ret ((1, 0), s) |}.
#[local] Instance demo_shell : ShellLayout := {| shell_buf := 1073750016 |}.

Fixpoint store_string (a : Z) (l : list Z) (m : memory) : memory :=
  match l with
  | [] => store8 a 0 m
  | c :: r => store8 a c (store_string (a + 1) r m)
  end.

(** A string of at most 20 characters at 0x40000000. *)
Definition demo_line (l : list Z) : ust unit :=
  {| umem := store_string 1073741824 l ∅; usp := 1073750000; ukern := tt |}.

Lemma demo_cstr l : forallb (λ c, (0 <? c) && (c <? 256)) l = true →
  forallb (λ i, load8 (umem (demo_line l)) (1073741824 + Z.of_nat i) =? nth i l 0) (seq 0 (S (length l))) = true →
  Z.of_nat (length l) < 1000 → cstr (umem (demo_line l)) 1073741824 l.
Proof.
  intros Hc Hl Hn. pose proof (proj1 (forallb_forall _ _) Hl) as Hl'. split; [unfold W32; lia| |].
  - intros i c Hi. apply lookup_lt_Some in Hi as Hlt. assert (nth i l 0 = c) as Hnth by (by apply nth_lookup_Some).
    specialize (Hl' i (proj2 (in_seq (S (length l)) 0 i) ltac:(lia))). apply Z.eqb_eq in Hl'. split; [congruence|].
    apply (proj1 (forallb_forall _ _)) with (x := c) in Hc; [apply andb_prop in Hc as [Hc _]; apply Z.ltb_lt in Hc; lia|]. apply list_elem_of_In. by eapply list_elem_of_lookup_2.
  - specialize (Hl' (length l) (proj2 (in_seq (S (length l)) 0 (length l)) ltac:(lia))). apply Z.eqb_eq in Hl'.
    rewrite nth_overflow in Hl' by lia. exact Hl'.
Qed.

Lemma run_command_dispatch_witness :
  let s := demo_line (codes " touch a  b") in
  ∃ s' ps, length ps = 3%nat ∧ (∃ p, ps !! 2%nat = Some p ∧ cstr (umem s') p (codes "b")) ∧
    run_command 1073741824 s = shell_touch 3 ps s'.
Proof.
  intros s. assert (cstr (umem s) 1073741824 (codes " touch a  b")) as Hs by (apply demo_cstr; reflexivity).
  destruct (run_command_dispatch (codes " touch a  b") 1073741824 s Hs) as (s' & ps & _ & Hl & Hw & E).
  change (Nat.min 15 (length (words (codes " touch a  b")))) with 3%nat in Hl.
  exists s', ps. split; [exact Hl|]. split.
  - destruct (ps !! 2%nat) as [p|] eqn:Ep; [|apply lookup_ge_None in Ep; lia]. exists p. split; [reflexivity|].
    destruct (Hw 2%nat p Ep) as (w & Hi & Hc). change (words (codes " touch a  b") !! 2%nat) with (Some (codes "b")) in Hi.
    injection Hi as <-. exact Hc.
  - rewrite E, Hl. destruct ps as [|a0 ps]; [discriminate Hl|]. reflexivity.
Defined.


Lemma get_filename_base_witness :
  runs (get_filename 1073741824 1073745920) (demo_line (codes "a/bc")) (λ n s',
    n = 2 ∧ bytes (umem s') 1073745920 2 = codes "bc").
Proof.
  eapply runs_mono.
  - apply (get_filename_base (codes "a/") (codes "bc") 1073741824 1073745920 (demo_line (codes "a/bc")));
      [apply demo_cstr; reflexivity|discriminate|reflexivity|discriminate|repeat constructor; discriminate
      |right; reflexivity|discriminate|reflexivity|right; discriminate].
  - intros n s' (-> & m & -> & Hb & _). split; [reflexivity|exact Hb].
Defined.
