(* ===== verification/Fstest.v ===== *)
(** * The test program of the file system

    user/fstest/fstest.c, over the library of Ulib.  A literal string that is passed to a
    system call has an address, which the linker chooses; the formats of printf are lists of
    characters. *)

From S2P Require Import Prelude Mem Printf Ulib Shell.

Definition u_O_WRONLY : Z := 1.
(** [MAXFILE] of user/include/file.h: 12 + 512 / 4. *)
Definition u_MAXFILE : Z := 140.
Definition BUF_SIZE : Z := 8192.

(** The addresses of the variables and of the literals. *)
Class FstestLayout := { t_buf : Z; t_name : Z; t_namel : Z; literal : list Z → Z }.

(** A format with an empty line behind it. *)
Definition line2 (s : string) : list Z := codes s ++ [10; 10; 0].

Section fstest.
Context {K : Type} `{KE : SysEntry K, FstestLayout}.
Abbreviation U := (M (ust K)).

Definition lit (s : string) : Z := literal (codes s).

(** A message and the end of the test, or the rest of it. *)
Definition bail (b : bool) (msg : list Z) (k : U unit) : U unit := if b then print msg [] else k.
Notation "'stop' b msg ;;; k" := (bail b msg k)
  (at level 100, b at level 9, msg at level 9, k at level 200, right associativity).

(** [for (i = 0; i < n; i++)] with a body that may end the test with a message. *)
Definition rounds (n : Z) (body : Z → U (option (list Z * list Z))) (k : U unit) : U unit :=
  let! r := for_exit 0 n body in
  match r with
  | Some (msg, args) => print msg args
  | None => k
  end.
Definition go_on : U (option (list Z * list Z)) := ret None.

Definition smallfile : U unit :=
  print (line "=====small file test=====") [] ;;;
  let! fd := u_sys_open (lit "small") (Z.lor O_CREATE O_RDWR) in
  if negb (fd >=? 0) then print (line "error: create small failed!") []
  else
    print (line "create small succeeded; ok, fd: %d") [fd] ;;;
    rounds 100 (λ i,
      let! w := u_sys_write fd (lit "aaaaaaaaaa") 10 in
      if negb (w =? 10) then ret (Some (line "error: write aa %d new file failed", [i]))
      else
        let! w := u_sys_write fd (lit "bbbbbbbbbb") 10 in
        if negb (w =? 10) then ret (Some (line "error: write bb %d new file failed", [i])) else go_on)
    (print (line "writes ok") [] ;;;
     u_sys_close fd ;;;
     let! fd := u_sys_open (lit "small") O_RDONLY in
     if negb (fd >=? 0) then print (line "error: open small failed!") []
     else
       print (line "open small succeeded ok") [] ;;;
       let! i := u_sys_read fd t_buf 2000 in
       if negb (i =? 2000) then print (line "read failed") []
       else
         print (line "read succeeded ok") [] ;;;
         u_sys_close fd ;;;
         let! e := u_sys_unlink (lit "small") in
         bail (e <? 0) (line "unlink small failed")
         (print (line2 "=====small file test ok=====") [])).

(** The first word of [buf], as an [int]. *)
Definition buf_word : U Z := gets (λ s, s32 (load32 (umem s) t_buf)).

(** The blocks are read until the end of the file; the result is the message of a failure. *)
Definition bigfile1_read (fd : Z) : U (option (list Z * list Z)) :=
  loopw (λ n,
    let! i := u_sys_read fd t_buf 512 in
    if i =? 0 then
      ret (inr (if n =? u_MAXFILE - 1 then Some (text "read only %d blocks from big", [n]) else None))
    else if negb (i =? 512) then ret (inr (Some (line "read failed %d", [i])))
    else
      let! v := buf_word in
      if negb (v =? n) then ret (inr (Some (line "read content of block %d is %d", [n; v])))
      else ret (inl (n + 1))) 0.

Definition bigfile1 : U unit :=
  print (line "=====big files test=====") [] ;;;
  let! fd := u_sys_open (lit "big") (Z.lor O_CREATE O_RDWR) in
  bail (fd <? 0) (line "error: create big failed!")
  (rounds u_MAXFILE (λ i,
     mem_ (modify (store32 t_buf i)) ;;;
     let! w := u_sys_write fd t_buf 512 in
     if negb (w =? 512) then ret (Some (line "error: write big file failed", [i])) else go_on)
   (u_sys_close fd ;;;
    let! fd := u_sys_open (lit "big") O_RDONLY in
    bail (fd <? 0) (line "error: open big failed!")
    (let! r := bigfile1_read fd in
     match r with
     | Some (msg, args) => print msg args
     | None =>
       u_sys_close fd ;;;
       let! e := u_sys_unlink (lit "big") in
       bail (e <? 0) (line "unlink big failed")
       (print (line2 "=====big files ok=====") [])
     end))).

Definition createtest : U unit :=
  print (line "=====many creates, followed by unlink test=====") [] ;;;
  setch t_name 97 ;;;
  setch (t_name + 2) 0 ;;;
  for_ 0 52 (λ i,
    setch (t_name + 1) (48 + i) ;;;
    let! fd := u_sys_open t_name (Z.lor O_CREATE O_RDWR) in
    u_sys_close fd ;;; ret tt) ;;;
  setch t_name 97 ;;;
  setch (t_name + 2) 0 ;;;
  for_ 0 52 (λ i,
    setch (t_name + 1) (48 + i) ;;;
    u_sys_unlink t_name ;;; ret tt) ;;;
  print (line2 "=====many creates, followed by unlink; ok=====") [].

Definition rmdot : U unit :=
  print (line "=====rmdot test=====") [] ;;;
  let! e := u_sys_mkdir (lit "dots") in
  stop (nz e) (line "mkdir dots failed") ;;;
  let! e := u_sys_chdir (lit "dots") in
  stop (nz e) (line "chdir dots failed") ;;;
  let! e := u_sys_unlink (lit ".") in
  stop (e =? 0) (line "rm . worked!") ;;;
  let! e := u_sys_unlink (lit "..") in
  stop (e =? 0) (line "rm .. worked!") ;;;
  let! e := u_sys_chdir (lit "/") in
  stop (nz e) (line "chdir '/' failed") ;;;
  let! e := u_sys_unlink (lit "dots/.") in
  stop (e =? 0) (line "unlink dots/. worked!") ;;;
  let! e := u_sys_unlink (lit "dots/..") in
  stop (e =? 0) (line "unlink dots/.. worked!") ;;;
  let! e := u_sys_unlink (lit "dots") in
  stop (nz e) (line "unlink dots failed!") ;;;
  print (line2 "=====rmdot ok=====") [].

Definition fourteen : U unit :=
  print (line "=====fourteen test=====") [] ;;;
  let! e := u_sys_mkdir (lit "12345678901234") in
  stop (nz e) (line "mkdir 12345678901234 failed") ;;;
  let! e := u_sys_mkdir (lit "12345678901234/123456789012345") in
  stop (nz e) (line "mkdir 12345678901234/123456789012345 failed") ;;;
  let! fd := u_sys_open (lit "123456789012345/123456789012345/123456789012345") O_CREATE in
  stop (fd <? 0) (line "create 123456789012345/123456789012345/123456789012345 failed") ;;;
  u_sys_close fd ;;;
  let! fd := u_sys_open (lit "12345678901234/12345678901234/12345678901234") 0 in
  stop (fd <? 0) (line "open 12345678901234/12345678901234/12345678901234 failed") ;;;
  u_sys_close fd ;;;
  let! e := u_sys_mkdir (lit "12345678901234/12345678901234") in
  stop (e =? 0) (line "mkdir 12345678901234/12345678901234 succeeded!") ;;;
  let! e := u_sys_mkdir (lit "12345678901234/123456789012345") in
  stop (e =? 0) (line "mkdir 12345678901234/123456789012345 succeeded!") ;;;
  print (line2 "=====fourteen ok=====") [].

(** The bytes read, or the message of a failure. *)
Definition bigfile2_read (fd : Z) : U (list Z + Z) :=
  loopw (λ '(i, total),
    let! cc := u_sys_read fd t_buf 300 in
    if cc <? 0 then ret (inr (inl (line "read bigfile failed")))
    else if cc =? 0 then ret (inr (inr total))
    else if negb (cc =? 300) then ret (inr (inl (line "short read bigfile")))
    else
      let! a := getch t_buf in
      let! b := getch (t_buf + 299) in
      if negb (a =? Z.quot i 2) || negb (b =? Z.quot i 2) then ret (inr (inl (line "read bigfile wrong data")))
      else ret (inl (i + 1, total + cc))) (0, 0).

Definition bigfile2 : U unit :=
  print (line "=====bigfile test=====") [] ;;;
  u_sys_unlink (lit "bigfile") ;;;
  let! fd := u_sys_open (lit "bigfile") (Z.lor O_CREATE O_RDWR) in
  bail (fd <? 0) (text "cannot create bigfile")
  (rounds 20 (λ i,
     mem_ (u_memset t_buf i 600) ;;;
     let! w := u_sys_write fd t_buf 600 in
     if negb (w =? 600) then ret (Some (line "write bigfile failed", [])) else go_on)
   (u_sys_close fd ;;;
    let! fd := u_sys_open (lit "bigfile") 0 in
    bail (fd <? 0) (line "cannot open bigfile")
    (let! r := bigfile2_read fd in
     match r with
     | inl msg => print msg []
     | inr total =>
       u_sys_close fd ;;;
       bail (negb (total =? 20 * 600)) (line "read bigfile wrong total")
       (u_sys_unlink (lit "bigfile") ;;;
        print (line2 "=====bigfile test ok=====") [])
     end))).

(** From the end of the changes of directory on. *)
Definition subdir_rest : U unit :=
  let! fd := u_sys_open (lit "dd/dd/ffff") 0 in
  stop (fd <? 0) (line "open dd/dd/ffff failed") ;;;
  let! e := u_sys_read fd t_buf BUF_SIZE in
  stop (negb (e =? 2)) (line "read dd/dd/ffff wrong len") ;;;
  u_sys_close fd ;;;
  let! e := u_sys_open (lit "dd/dd/ff") O_RDONLY in
  stop (e >=? 0) (line "open (unlinked) dd/dd/ff succeeded!") ;;;
  let! e := u_sys_open (lit "dd/ff/ff") (Z.lor O_CREATE O_RDWR) in
  stop (e >=? 0) (line "create dd/ff/ff succeeded!") ;;;
  let! e := u_sys_open (lit "dd/xx/ff") (Z.lor O_CREATE O_RDWR) in
  stop (e >=? 0) (line "create dd/xx/ff succeeded!") ;;;
  let! e := u_sys_open (lit "dd") O_CREATE in
  stop (e >=? 0) (line "create dd succeeded!") ;;;
  let! e := u_sys_open (lit "dd") O_RDWR in
  stop (e >=? 0) (line "open dd rdwr succeeded!") ;;;
  let! e := u_sys_open (lit "dd") u_O_WRONLY in
  stop (e >=? 0) (line "open dd wronly succeeded!") ;;;
  let! e := u_sys_link (lit "dd/ff/ff") (lit "dd/dd/xx") in
  stop (e =? 0) (line "link dd/ff/ff dd/dd/xx succeeded!") ;;;
  let! e := u_sys_link (lit "dd/xx/ff") (lit "dd/dd/xx") in
  stop (e =? 0) (line "link dd/xx/ff dd/dd/xx succeeded!") ;;;
  let! e := u_sys_link (lit "dd/ff") (lit "dd/dd/ffff") in
  stop (e =? 0) (line "link dd/ff dd/dd/ffff succeeded!") ;;;
  let! e := u_sys_mkdir (lit "dd/ff/ff") in
  stop (e =? 0) (line "mkdir dd/ff/ff succeeded!") ;;;
  let! e := u_sys_mkdir (lit "dd/xx/ff") in
  stop (e =? 0) (line "mkdir dd/xx/ff succeeded!") ;;;
  let! e := u_sys_mkdir (lit "dd/dd/ffff") in
  stop (e =? 0) (line "mkdir dd/dd/ffff succeeded!") ;;;
  let! e := u_sys_unlink (lit "dd/xx/ff") in
  stop (e =? 0) (line "unlink dd/xx/ff succeeded!") ;;;
  let! e := u_sys_unlink (lit "dd/ff/ff") in
  stop (e =? 0) (line "unlink dd/ff/ff succeeded!") ;;;
  let! e := u_sys_chdir (lit "dd/ff") in
  stop (e =? 0) (line "chdir dd/ff succeeded!") ;;;
  let! e := u_sys_chdir (lit "dd/xx") in
  stop (e =? 0) (line "chdir dd/xx succeeded!") ;;;
  let! e := u_sys_unlink (lit "dd/dd/ffff") in
  stop (nz e) (line "unlink dd/dd/ff failed") ;;;
  let! e := u_sys_unlink (lit "dd/ff") in
  stop (nz e) (line "unlink dd/ff failed") ;;;
  let! e := u_sys_unlink (lit "dd") in
  stop (e =? 0) (line "unlink non-empty dd succeeded!") ;;;
  let! e := u_sys_unlink (lit "dd/dd") in
  stop (e <? 0) (line "unlink dd/dd failed") ;;;
  let! e := u_sys_unlink (lit "dd") in
  stop (e <? 0) (line "unlink dd failed") ;;;
  print (line2 "=====subdir ok=====") [].

Definition subdir : U unit :=
  print (line "=====subdir test=====") [] ;;;
  u_sys_unlink (lit "ff") ;;;
  let! e := u_sys_mkdir (lit "dd") in
  stop (nz e) (line "subdir mkdir dd failed") ;;;
  let! fd := u_sys_open (lit "dd/ff") (Z.lor O_CREATE O_RDWR) in
  stop (fd <? 0) (line "create dd/ff failed") ;;;
  u_sys_write fd (lit "ff") 2 ;;;
  u_sys_close fd ;;;
  let! e := u_sys_unlink (lit "dd") in
  stop (e >=? 0) (line "unlink dd (non-empty dir) succeeded!") ;;;
  let! e := u_sys_mkdir (lit "dd/dd") in
  stop (nz e) (line "subdir mkdir dd/dd failed") ;;;
  let! fd := u_sys_open (lit "dd/dd/ff") (Z.lor O_CREATE O_RDWR) in
  stop (fd <? 0) (line "create dd/dd/ff failed") ;;;
  u_sys_write fd (lit "FF") 2 ;;;
  u_sys_close fd ;;;
  let! fd := u_sys_open (lit "dd/dd/../ff") 0 in
  stop (fd <? 0) (line "open dd/dd/../ff failed") ;;;
  let! cc := u_sys_read fd t_buf BUF_SIZE in
  let! c := getch t_buf in
  stop (negb (cc =? 2) || negb (c =? 102)) (line "dd/dd/../ff wrong content") ;;;
  u_sys_close fd ;;;
  let! e := u_sys_link (lit "dd/dd/ff") (lit "dd/dd/ffff") in
  stop (nz e) (line "link dd/dd/ff dd/dd/ffff failed") ;;;
  let! e := u_sys_unlink (lit "dd/dd/ff") in
  stop (nz e) (line "unlink dd/dd/ff failed") ;;;
  let! e := u_sys_open (lit "dd/dd/ff") O_RDONLY in
  stop (e >=? 0) (line "open (unlinked) dd/dd/ff succeeded") ;;;
  let! e := u_sys_chdir (lit "dd") in
  stop (nz e) (line "chdir dd failed") ;;;
  let! e := u_sys_chdir (lit "dd/../../dd") in
  stop (nz e) (line "chdir dd/../../dd failed") ;;;
  let! e := u_sys_chdir (lit "dd/../../../dd") in
  stop (nz e) (line "chdir dd/../../dd failed") ;;;
  let! e := u_sys_chdir (lit "./..") in
  stop (nz e) (line "chdir ./.. failed") ;;;
  subdir_rest.

Definition linktest : U unit :=
  print (line "=====linktest=====") [] ;;;
  u_sys_unlink (lit "lf1") ;;;
  u_sys_unlink (lit "lf2") ;;;
  let! fd := u_sys_open (lit "lf1") (Z.lor O_CREATE O_RDWR) in
  stop (fd <? 0) (line "create lf1 failed") ;;;
  let! e := u_sys_write fd (lit "hello") 5 in
  stop (negb (e =? 5)) (line "write lf1 failed") ;;;
  u_sys_close fd ;;;
  let! e := u_sys_link (lit "lf1") (lit "lf2") in
  stop (e <? 0) (line "link lf1 lf2 failed") ;;;
  u_sys_unlink (lit "lf1") ;;;
  let! e := u_sys_open (lit "lf1") 0 in
  stop (e >=? 0) (line "unlinked lf1 but it is still there!") ;;;
  let! fd := u_sys_open (lit "lf2") 0 in
  stop (fd <? 0) (line "open lf2 failed") ;;;
  let! e := u_sys_read fd t_buf BUF_SIZE in
  stop (negb (e =? 5)) (line "read lf2 failed") ;;;
  u_sys_close fd ;;;
  let! e := u_sys_link (lit "lf2") (lit "lf2") in
  stop (e >=? 0) (line "link lf2 lf2 succeeded! oops") ;;;
  u_sys_unlink (lit "lf2") ;;;
  let! e := u_sys_link (lit "lf2") (lit "lf1") in
  stop (e >=? 0) (line "link non-existant succeeded! oops") ;;;
  let! e := u_sys_link (lit ".") (lit "lf1") in
  stop (e >=? 0) (line "link . lf1 succeeded! oops") ;;;
  print (line2 "=====linktest ok=====") [].

Definition unlinkread : U unit :=
  print (line "=====unlinkread test=====") [] ;;;
  let! fd := u_sys_open (lit "unlinkread") (Z.lor O_CREATE O_RDWR) in
  stop (fd <? 0) (line "create unlinkread failed") ;;;
  u_sys_write fd (lit "hello") 5 ;;;
  u_sys_close fd ;;;
  let! fd := u_sys_open (lit "unlinkread") O_RDWR in
  stop (fd <? 0) (line "open unlinkread failed") ;;;
  let! e := u_sys_unlink (lit "unlinkread") in
  stop (nz e) (line "unlink unlinkread failed") ;;;
  let! fd1 := u_sys_open (lit "unlinkread") (Z.lor O_CREATE O_RDWR) in
  u_sys_write fd1 (lit "yyy") 3 ;;;
  u_sys_close fd1 ;;;
  let! e := u_sys_read fd t_buf BUF_SIZE in
  stop (negb (e =? 5)) (text "unlinkread read failed") ;;;
  let! c := getch t_buf in
  stop (negb (c =? 104)) (line "unlinkread wrong data") ;;;
  let! e := u_sys_write fd t_buf 10 in
  stop (negb (e =? 10)) (line "unlinkread write failed") ;;;
  u_sys_close fd ;;;
  u_sys_unlink (lit "unlinkread") ;;;
  print (line2 "=====unlinkread ok=====") [].

Definition dirfile : U unit :=
  print (line "=====dir vs file=====") [] ;;;
  let! fd := u_sys_open (lit "dirfile") O_CREATE in
  stop (fd <? 0) (line "create dirfile failed") ;;;
  u_sys_close fd ;;;
  let! e := u_sys_chdir (lit "dirfile") in
  stop (e =? 0) (line "chdir dirfile succeeded!") ;;;
  let! fd := u_sys_open (lit "dirfile/xx") 0 in
  stop (fd >=? 0) (line "create dirfile/xx succeeded!") ;;;
  let! fd := u_sys_open (lit "dirfile/xx") O_CREATE in
  stop (fd >=? 0) (line "create dirfile/xx succeeded!") ;;;
  let! e := u_sys_mkdir (lit "dirfile/xx") in
  stop (e =? 0) (line "mkdir dirfile/xx succeeded!") ;;;
  let! e := u_sys_unlink (lit "dirfile/xx") in
  stop (e =? 0) (line "unlink dirfile/xx succeeded!") ;;;
  let! e := u_sys_link (lit "README") (lit "dirfile/xx") in
  stop (e =? 0) (line "link to dirfile/xx succeeded!") ;;;
  let! e := u_sys_unlink (lit "dirfile") in
  stop (nz e) (line "unlink dirfile failed!") ;;;
  let! fd := u_sys_open (lit ".") O_RDWR in
  stop (fd >=? 0) (line "open . for writing succeeded!") ;;;
  let! fd := u_sys_open (lit ".") 0 in
  let! e := u_sys_write fd (lit "x") 1 in
  stop (e >? 0) (line "write . succeeded!") ;;;
  u_sys_close fd ;;;
  print (line2 "=====dir vs file OK=====") [].

(** One of the 51 directories, inside of each other. *)
Definition iref_round : U (option (list Z * list Z)) :=
  let! e := u_sys_mkdir (lit "irefd") in
  if nz e then ret (Some (line "mkdir irefd failed", []))
  else
    let! e := u_sys_chdir (lit "irefd") in
    if nz e then ret (Some (line "chdir irefd failed", []))
    else
      u_sys_mkdir (lit "") ;;;
      u_sys_link (lit "README") (lit "") ;;;
      let! fd := u_sys_open (lit "") O_CREATE in
      when (fd >=? 0) (u_sys_close fd ;;; ret tt) ;;;
      let! fd := u_sys_open (lit "xx") O_CREATE in
      when (fd >=? 0) (u_sys_close fd ;;; ret tt) ;;;
      u_sys_unlink (lit "xx") ;;;
      go_on.

Definition iref : U unit :=
  print (line "=====empty file name=====") [] ;;;
  rounds (50 + 1) (λ _, iref_round)
  (u_sys_chdir (lit "/") ;;;
   print (line2 "=====empty file name OK=====") []).

(** The name of number [i]: the character x and two more. *)
Definition set_namel (i : Z) : U unit :=
  setch t_namel 120 ;;;
  setch (t_namel + 1) (48 + Z.quot i 64) ;;;
  setch (t_namel + 2) (48 + Z.rem i 64) ;;;
  setch (t_namel + 3) 0.

Definition bigdir : U unit :=
  print (line "=====bigdir test=====") [] ;;;
  u_sys_unlink (lit "bd") ;;;
  let! fd := u_sys_open (lit "bd") O_CREATE in
  stop (fd <? 0) (line "bigdir create failed") ;;;
  u_sys_close fd ;;;
  rounds 500 (λ i,
    set_namel i ;;;
    let! e := u_sys_link (lit "bd") t_namel in
    if nz e then ret (Some (line "bigdir link failed", [])) else go_on)
  (u_sys_unlink (lit "bd") ;;;
   rounds 500 (λ i,
     set_namel i ;;;
     let! e := u_sys_unlink t_namel in
     if nz e then ret (Some (text "bigdir unlink failed", [])) else go_on)
   (print (line2 "=====bigdir ok=====") [])).

Definition fstest_main : U Z :=
  print (line2 "*******usertests starting*******") [] ;;;
  print (line "=====test file usertests.ran does not exists=====") [] ;;;
  let! fd := u_sys_open (lit "usertests.ran") O_RDONLY in
  if fd >=? 0 then
    print (line "already ran user tests (file usertests.ran exists) -- recreate certikos_disk.img") [] ;;;
    ret 1
  else
    print (line2 "=====test file usertests.ran does not exists: ok") [] ;;;
    let! fd := u_sys_open (lit "usertests.ran") O_CREATE in
    u_sys_close fd ;;;
    smallfile ;;;
    bigfile1 ;;;
    createtest ;;;
    rmdot ;;;
    fourteen ;;;
    bigfile2 ;;;
    subdir ;;;
    linktest ;;;
    unlinkread ;;;
    dirfile ;;;
    iref ;;;
    bigdir ;;;
    print (line "*******end of tests*******") [] ;;;
    ret 0.

End fstest.
