(* ===== verification/FstestSpec.v ===== *)
(** * The file system tests on the kernel

    The test program of user/fstest runs on the modelled kernel: its system calls are traps of
    Trap, with the console, the file system, the log and the disk driver behind them.  The
    machine is a process whose pages are mapped to equal physical addresses, so that its
    memory is part of that of the machine. *)

From S2P Require Import Prelude Spinlock Pmmap MAT Container Mem Vmm Thread UserCopy Bufcache Log Crash Inode Dir File BlockSpec Console ConsoleSpec Seg Mmu Sysfile Printf Trap TrapSpec Ulib Shell Fstest.

(** ** The machine *)

(** A build that prints messages. *)
#[local] Instance fst_env : KEnv := {| DEBUG_MSG := true; ks_cpu_idx := 0; ks_magic := KSTACK_MAGIC |}.
#[local] Existing Instance demo_layout.
#[local] Existing Instance TrapSpec.demo_stack.
#[local] Existing Instance TrapSpec.demo_sys.
#[local] Existing Instance TrapSpec.demo_traps.

(** A fresh disk of 1000 blocks and 200 inodes: the root directory in block 29, with its
    entries "." and "..". *)
Definition fst_disk : gmap (Z * Z) memory :=
  <[(1, 29) := store8 19 46 (store8 18 46 (store16 16 1 (store8 2 46 (store16 0 1 ∅))))]>
  (<[(1, 28) := foldl set_bit ∅ (seqZ 0 30 ++ seqZ 990 10)]>
  (<[(1, 2) := store32 76 29 (store32 72 32 (store16 70 2 (store16 64 1 ∅)))]>
  {[ (1, 1) := demo_sb ]})).
Definition fst_lg0 : lg := {|
  l_bc := {| d_disk := fst_disk; d_writes := []; d_regs := ∅; d_fail := false; ide_lk := zero_lk; fs_lock := zero_lk;
             idequeue := NULL; havedisk1 := 0; bcache_lock := zero_lk; bufs := ∅ |};
  log_lock := zero_lk; log_start := 0; log_size := 0; log_busy := 0; log_dev := 0; lh_n := 0; lh_sector := ∅ |}.

(** The file system after the start: every thread has the root as its current directory. *)
Definition fst_boot : M fs unit :=
  zoom boot ;;;
  for_ 0 NUM_IDS (λ _, inode_get 1 ROOTINO ;;; ret tt).
Definition fst_fs0 : fs := {| f_lg := fst_lg0; icache_lock := zero_lk; inodes := ∅; ftable_lock := zero_lk; files := ∅ |}.
Definition fst_fs : fs := match fst_boot fst_fs0 with Ret (_, s) => s | _ => fst_fs0 end.

(** The literals of the program, one behind the other. *)
Definition fst_pool : list (list Z) := codes <$> [
  "small"; "aaaaaaaaaa"; "bbbbbbbbbb"; "big"; "dots"; "."; ".."; "/"; "dots/."; "dots/.."; "12345678901234";
  "12345678901234/123456789012345"; "123456789012345/123456789012345/123456789012345";
  "12345678901234/12345678901234/12345678901234"; "12345678901234/12345678901234"; "bigfile"; "ff"; "dd"; "dd/ff"; "dd/dd";
  "dd/dd/ff"; "FF"; "dd/dd/../ff"; "dd/dd/ffff"; "dd/../../dd"; "dd/../../../dd"; "./.."; "dd/ff/ff"; "dd/xx/ff"; "dd/dd/xx";
  "dd/xx"; "lf1"; "lf2"; "hello"; "unlinkread"; "yyy"; "dirfile"; "dirfile/xx"; "README"; "x"; "irefd"; ""; "xx"; "bd";
  "usertests.ran"].
Fixpoint literal_at (a : Z) (p : list (list Z)) (l : list Z) : Z :=
  match p with
  | [] => 0
  | x :: r => if decide (x = l) then a else literal_at (a + Z.of_nat (length x) + 1) r l
  end.
Definition USER : Z := VM_USERLO.
#[local] Instance fst_layout : FstestLayout := {|
  t_buf := USER + 4096; t_name := USER + 12288; t_namel := USER + 12304; literal := literal_at (USER + 16384) fst_pool |}.

(** The page directory of process 1, its page table at 2 GB with 16 pages of the process, and
    the literals. *)
Definition fst_pages : Z := 16.
Definition fst_mem : memory :=
  let tbl := 2147483648 in
  let m := store32 (PDirPool 1 (PDE_ADDR USER)) (tbl + PT_PERM_PTU) ∅ in
  let m := foldl (λ m i, store32 (tbl + 4 * i) (USER + 4096 * i + PT_PERM_PTU) m) m (seqZ 0 fst_pages) in
  put_bytes (USER + 16384) (concat ((λ l, l ++ [0]) <$> fst_pool)) m.

(** What user code reaches in this memory is at the equal address. *)
Lemma fst_identity :
  Forall (λ i, mmu fst_mem (PDirPool 1 0) (USER + 4096 * i) true = Some (USER + 4096 * i)) (seqZ 0 fst_pages).
Proof. apply (bool_decide_unpack _). vm_compute. reflexivity. Qed.

Definition with_mem (m : memory) (k : ksys) : ksys := set_k_thr (set_t_vmm (set_mem m (t_vmm (k_thr k))) (k_thr k)) k.

(** A system call: the registers go into the frame, the trap is handled, and the registers are
    loaded from the frame. *)
#[local] Instance fst_entry : SysEntry ksys := {| int48 := λ r s,
  let f := set_gpr 0 (u32 (r_esi r)) (u32 (r_ebx r)) (u32 (r_edx r)) (u32 (r_ecx r)) (u32 (r_eax r)) (demo_frame T_SYSCALL 0) in
  match trap 1 (set_k_tf {[1 := f]} (with_mem (umem s) (ukern s))) with
  | Ret (_, k) =>
    let f := k_tf k !!! 1 in
    Ret ((t_eax f, t_ebx f), {| umem := mem (t_vmm (k_thr k)); usp := usp s; ukern := k |})
  | Panic => Panic
  | Fault => Fault
  | Hang => Hang
  end |}.

Definition fst_start : ust ksys :=
  let k := demo_ksys demo_vm0 (demo_frame T_SYSCALL 0) in
  {| umem := fst_mem; usp := USER + 61440;
     ukern := set_k_fs fst_fs (set_k_thr (set_TCBPool {[1 := set_cwd 1 (set_tstate TSTATE_RUN inhabitant)]} (k_thr k)) k) |}.

(** ** The tests *)

(** The lines of the serial line when all is well. *)
Definition fst_transcript : list Z := concat ((λ l, codes l ++ [13; 10]) <$> [
  "=====small file test====="; "create small succeeded; ok, fd: 0"; "writes ok"; "open small succeeded ok";
  "read succeeded ok"; "=====small file test ok====="; "";
  "=====rmdot test====="; "=====rmdot ok====="; "";
  "=====fourteen test====="; "=====fourteen ok====="; "";
  "=====bigfile test====="; "=====bigfile test ok====="; "";
  "=====subdir test====="; "=====subdir ok====="; "";
  "=====linktest====="; "=====linktest ok====="; "";
  "=====unlinkread test====="; "=====unlinkread ok====="; "";
  "=====dir vs file====="; "=====dir vs file OK====="; ""]).

(** A computation that is run. *)
Lemma runs_evaluated {St A B} (m : M St A) s (f : St → B) b :
  match m s with Ret (_, s') => Some (f s') | _ => None end = Some b → runs m s (λ _ s', f s' = b).
Proof. unfold runs. destruct (m s) as [[a s']| | |]; try done. by intros [= ->]. Qed.

(** A test of the model: the kernel passes its own tests of the file system.  From a fresh disk, the test
    program creates, writes, reads, links and removes files and directories through printf
    and the system calls, and with them through traps, copies of user memory, descriptors,
    paths, directories, inodes, the log, the cache and the disk driver; every call returns
    what the tests expect, no path of the kernel panics, faults or waits for ever, and the
    serial line gets exactly the lines of success. *)
Example fstest_passes :
  runs (smallfile ;;; rmdot ;;; fourteen ;;; bigfile2 ;;; subdir ;;; linktest ;;; unlinkread ;;; dirfile) fst_start
    (λ _ s', com_out (k_con (ukern s')) = fst_transcript).
Proof.
  apply (runs_evaluated _ _ (λ s', com_out (k_con (ukern s')))). vm_cast_no_check (eq_refl (Some fst_transcript)).
Qed.
