(* ===== verification/Boot.v ===== *)
(** * The boot loader

    boot/boot1/boot1lib.c and boot1main.c, which run in protected mode before the kernel:
    the lines on the screen, the conversion of numbers, the reading of sectors, the search
    for a bootable partition, the memory map of the BIOS and the loading of the kernel. *)

From S2P Require Import Prelude Mem Bufcache Trap Shell.

(** ** State *)

(** The memory, in which the screen, the tables of the BIOS, the variables of the loader and
    the loaded kernel are; the last byte written to each port of the disk controller; the
    number of times its status was read. *)
Record boot1 := {
  pmem : memory;
  ide_regs : gmap Z Z;
  reads : Z;
}.
Definition set_pmem (m : memory) (s : boot1) : boot1 := {| pmem := m; ide_regs := ide_regs s; reads := reads s |}.
Definition set_ide_regs (r : gmap Z Z) (s : boot1) : boot1 := {| pmem := pmem s; ide_regs := r; reads := reads s |}.
Definition set_reads (n : Z) (s : boot1) : boot1 := {| pmem := pmem s; ide_regs := ide_regs s; reads := n |}.

(** What the drive answers: the contents of a sector, and the status register at each read
    of it; and where the linker puts the variables [row], [puti_str] and [mboot_info]. *)
Class BootHw := {
  hw_sector : Z → memory;
  hw_status : Z → Z;
  row_addr : Z;
  puti_str_addr : Z;
  mboot_info_addr : Z;
}.

Section boot.
Context `{BootHw}.

(** The variables: [row]; the array [puti_str]; the fields of [mboot_info] that the loader
    sets, at 44 and 48 of the structure, behind the flags at 0 and nine words and four
    bytes that it leaves zero. *)
Definition PUTI_LEN : Z := 40.
Definition row (s : boot1) : Z := s32 (load32 (pmem s) row_addr).
Definition set_row (r : Z) (s : boot1) : boot1 := set_pmem (store32 row_addr r (pmem s)) s.
Definition puti_str (s : boot1) : gmap Z Z :=
  list_to_map ((λ i, (i, loadc (pmem s) (puti_str_addr + i))) <$> seqZ 0 PUTI_LEN).
Definition set_puti_str (a : gmap Z Z) (s : boot1) : boot1 :=
  set_pmem (foldl (λ m i, store8 (puti_str_addr + i) (a !!! i) m) (pmem s) (seqZ 0 PUTI_LEN)) s.
(** The flags of [mboot_info] as it is initialised: there is a memory map. *)
Definition mboot_info_flags : Z := Z.shiftl 1 6.
Definition mmap_length : Z := mboot_info_addr + 44.
Definition mmap_addr : Z := mboot_info_addr + 48.

(** ** The screen *)

Definition CRT_ROWS : Z := 25.
Definition VGA_CLR_BLACK : Z := 0.
Definition VGA_CLR_RED : Z := 4.
Definition VGA_CLR_WHITE : Z := 15.
Definition video : Z := 753664.

Definition putc (l color ch : Z) : M boot1 unit :=
  modify (λ s, set_pmem (store8 (video + l * 2 + 1) color (store8 (video + l * 2) ch (pmem s))) s).

(** A string is the list of its characters before the zero. *)
Fixpoint puts_loop (l color : Z) (string : list Z) : M boot1 Z :=
  match string with
  | [] => ret l
  | ch :: string' => putc l color ch ;;; puts_loop (l + 1) color string'
  end.
Definition puts (r c color : Z) (string : list Z) : M boot1 Z := puts_loop (r * 80 + c) color string.

Definition blank : list Z := repeat 32 80.

Definition putline (s : list Z) : M boot1 unit :=
  let! r := gets row in
  let r := if r >=? CRT_ROWS then 0 else r + 1 in
  modify (set_row r) ;;;
  puts r 0 VGA_CLR_BLACK blank ;;;
  puts r 0 VGA_CLR_WHITE s ;;;
  ret tt.

Definition roll (r : Z) : M boot1 unit := modify (set_row r).

(** The message, and [hlt] for ever. *)
Definition panic {A} (m : list Z) : M boot1 A := puts 0 0 VGA_CLR_RED m ;;; hang.

(** ** Strings: [s] is an array of [PUTI_LEN] characters *)

Definition sget (i : Z) : M (gmap Z Z) Z := aread PUTI_LEN id i.
Definition sput (i c : Z) : M (gmap Z Z) unit := awrite PUTI_LEN id (λ a _, a) i (s8 c).

(** An index that leaves the array is a [Fault], so that the loops below end within one
    round more than the array is long. *)
Definition str_fuel : nat := 41.

Definition strlen : M (gmap Z Z) Z :=
  loop str_fuel (λ n, let! c := sget n in if c =? 0 then ret (inr n) else ret (inl (n + 1))) 0.

Definition reverse : M (gmap Z Z) unit :=
  let! n := strlen in
  loop str_fuel (λ '(i, j),
    if i <? j then
      let! c := sget i in
      let! d := sget j in
      sput i d ;;;
      sput j c ;;;
      ret (inl (i + 1, j - 1))
    else ret (inr tt)) (0, n - 1).

(** [-n] of the least [int] is undefined. *)
Definition itox (n root : Z) (table : list Z) : M (gmap Z Z) unit :=
  let sign := n in
  let! n := if sign <? 0 then (if sign =? -2147483648 then fault else ret (- n)) else ret n in
  let! i := loop str_fuel (λ '(i, n),
    let! d := (if inb (Z.of_nat (length table)) (Z.rem n root) then ret (nth (Z.to_nat (Z.rem n root)) table 0)
               else fault) in
    sput i d ;;;
    let n := Z.quot n root in
    if n >? 0 then ret (inl (i + 1, n)) else ret (inr (i + 1))) (0, n) in
  let! i := (if sign <? 0 then sput i 45 ;;; ret (i + 1) else ret i) in
  sput i 0 ;;;
  reverse.

Definition itoa (n : Z) : M (gmap Z Z) unit := itox n 10 (codes "0123456789").
Definition itoh (n : Z) : M (gmap Z Z) unit := itox n 16 (codes "0123456789abcdef").

(** The characters of an array before the first zero. *)
Fixpoint chars (n : nat) (i : Z) (a : gmap Z Z) : list Z :=
  match n with
  | O => []
  | S n' => if a !!! i =? 0 then [] else a !!! i :: chars n' (i + 1) a
  end.

Definition puti (i : Z) : M boot1 unit :=
  fzoom puti_str set_puti_str (itoh i) ;;;
  let! s := gets puti_str in
  putline (chars (Z.to_nat PUTI_LEN) 0 s).

(** ** The disk *)

Definition SECTOR_SIZE : Z := 512.

(** The words that [insl] stores are those of the sector that the registers select. *)
Fixpoint insl_loop (n : nat) (di i : Z) (sector m : memory) : memory :=
  match n with
  | O => m
  | S n' => insl_loop n' (di + 4) (i + 4) sector (store32 di (load32 sector i) m)
  end.

Definition boot_outb (port data : Z) : M boot1 unit := modify (λ s, set_ide_regs (<[port := u8 data]> (ide_regs s)) s).

(** [inb(0x1F7)]. *)
Definition status : M boot1 Z := λ s, Ret (u8 (hw_status (reads s)), set_reads (reads s + 1) s).

Definition insl (addr cnt : Z) : M boot1 unit :=
  modify (λ s, set_pmem (insl_loop (Z.to_nat cnt) addr 0 (hw_sector (ide_lba (ide_regs s))) (pmem s)) s).

Definition waitdisk : M boot1 unit :=
  loopw (λ _, let! r := status in if negb (Z.land r 192 =? 64) then ret (inl tt) else ret (inr tt)) tt.

Definition readsector (dst offset : Z) : M boot1 unit :=
  waitdisk ;;;
  boot_outb 498 1 ;;;
  boot_outb 499 offset ;;;
  boot_outb 500 (Z.shiftr offset 8) ;;;
  boot_outb 501 (Z.shiftr offset 16) ;;;
  boot_outb 502 (Z.lor (Z.shiftr offset 24) 224) ;;;
  boot_outb 503 32 ;;;
  waitdisk ;;;
  insl dst (SECTOR_SIZE / 4).

Definition readsection (va count offset lba : Z) : M boot1 unit :=
  let va := Z.land va 16777215 in
  let end_va := u32 (va + count) in
  let va := Z.land va (Z.lnot (SECTOR_SIZE - 1)) in
  let offset := u32 (offset / SECTOR_SIZE + lba) in
  loopw (λ '(va, offset),
    if va <? end_va then
      readsector va offset ;;;
      ret (inl (u32 (va + SECTOR_SIZE), u32 (offset + 1)))
    else ret (inr tt)) (va, offset).

(** ** boot1main.c *)

Definition BOOTABLE_PARTITION : Z := 128.
Definition ELFHDR : Z := 131072.

(** A field of a structure in memory. *)
Definition bget8 (a : Z) : M boot1 Z := gets (λ s, load8 (pmem s) a).
Definition bget16 (a : Z) : M boot1 Z := gets (λ s, load16 (pmem s) a).
Definition bget32 (a : Z) : M boot1 Z := gets (λ s, load32 (pmem s) a).

Definition load_kernel (dkernel : Z) : M boot1 Z :=
  readsection ELFHDR (SECTOR_SIZE * 8) 0 dkernel ;;;
  let! e_magic := bget32 ELFHDR in
  if negb (e_magic =? ELF_MAGIC) then panic (codes "Kernel is not a valid elf.")
  else
    let! e_phoff := bget32 (ELFHDR + 28) in
    let ph := u32 (ELFHDR + e_phoff) in
    let! e_phnum := bget16 (ELFHDR + 44) in
    let eph := u32 (ph + 32 * e_phnum) in
    loopw (λ ph,
      if ph <? eph then
        let! p_va := bget32 (ph + 8) in
        let! p_memsz := bget32 (ph + 20) in
        let! p_offset := bget32 (ph + 4) in
        readsection p_va p_memsz p_offset dkernel ;;;
        ret (inl (u32 (ph + 32)))
      else ret (inr tt)) ph ;;;
    let! e_entry := bget32 (ELFHDR + 24) in
    ret (Z.land e_entry 16777215).

(** An entry of the memory map has 24 bytes: the size at 0, the base at 4 and the length
    at 12 of 64 bits each, the type at 20. *)
Definition parse_e820 (smap : Z) : M boot1 unit :=
  putline (codes "* E820 Memory Map *") ;;;
  let! mmap_len := loopw (λ '(p, mmap_len),
    let! b0 := bget32 (p + 4) in
    let! b1 := bget32 (p + 8) in
    let! l0 := bget32 (p + 12) in
    let! l1 := bget32 (p + 16) in
    let! type := bget32 (p + 20) in
    if nz (b0 + W32 * b1) || nz (l0 + W32 * l1) || nz type then
      puti (s32 (b0 + W32 * b1)) ;;;
      ret (inl (u32 (p + 24), u32 (mmap_len + 24)))
    else ret (inr mmap_len)) (smap, 0) in
  modify (λ s, set_pmem (store32 mmap_length mmap_len (pmem s)) s) ;;;
  modify (λ s, set_pmem (store32 mmap_addr smap (pmem s)) s).

(** exec_kernel.S: the jump to the kernel, as the registers %eip, %eax and %ebx that it
    starts with. *)
Definition MBOOT_INFO_MAGIC : Z := 732803074.
Definition exec_kernel (entry info : Z) : M boot1 (Z * Z * Z) := ret (entry, MBOOT_INFO_MAGIC, info).

(** The partition table is at 446 in the boot record; an entry has 16 bytes, with the flag
    at 0 and the first sector at 8. *)
Definition find_bootable (mbr : Z) : M boot1 (option Z) :=
  for_exit 0 4 (λ i,
    let! bootable := bget8 (mbr + 446 + 16 * i) in
    if bootable =? BOOTABLE_PARTITION then
      let! first_lba := bget32 (mbr + 446 + 16 * i + 8) in
      ret (Some first_lba)
    else ret None).

Definition boot1main (dev mbr smap : Z) : M boot1 (Z * Z * Z) :=
  roll 3 ;;;
  putline (codes "Start boot1 main ...") ;;;
  let! bootable_lba := find_bootable mbr in
  match bootable_lba with
  | None => panic (codes "Cannot find bootable partition!")
  | Some bootable_lba =>
      parse_e820 smap ;;;
      putline (codes "Load kernel ..." ++ [10]) ;;;
      let! entry := load_kernel bootable_lba in
      putline (codes "Start kernel ..." ++ [10]) ;;;
      exec_kernel entry mboot_info_addr
  end.

End boot.
