(* ===== verification/BootSpec.v ===== *)
(** * The boot loader, verified

    The sectors of the kernel are in memory where its program headers say, the numbers on
    the screen are right, and nothing else is overwritten. *)

From S2P Require Import Prelude Mem Bufcache BufSpec Trap Printf PrintfSpec Shell Boot.

(** ** Numbers *)

(** [l] is at the start of the array, a zero behind it. *)
Definition string_at (a : gmap Z Z) (l : list Z) : Prop :=
  (∀ k, 0 ≤ k < Z.of_nat (length l) → a !!! k = nth (Z.to_nat k) l 0 ∧ a !!! k ≠ 0) ∧ a !!! Z.of_nat (length l) = 0.

Lemma chars_spec a l n i :
  (∀ k, 0 ≤ k < Z.of_nat (length l) → a !!! (i + k) = nth (Z.to_nat k) l 0 ∧ a !!! (i + k) ≠ 0) →
  a !!! (i + Z.of_nat (length l)) = 0 → (length l ≤ n)%nat → chars n i a = l.
Proof.
  revert i l. induction n as [|n IH]; intros i l Hl Hz Hn; [by destruct l; [|simpl in Hn; lia]|].
  cbn [chars]. destruct l as [|c l].
  - simpl in Hz. rewrite Z.add_0_r in Hz. by rewrite Hz.
  - simpl length in *. destruct (Hl 0 ltac:(lia)) as [E Hne]. rewrite Z.add_0_r in E, Hne. simpl in E.
    apply Z.eqb_neq in Hne as ->. rewrite E. f_equal. apply IH; [|by rewrite <- Hz; f_equal; lia|lia].
    intros k Hk. destruct (Hl (k + 1) ltac:(lia)) as [E' Hne']. replace (i + (k + 1)) with (i + 1 + k) in * by lia.
    split; [|done]. rewrite E'. by replace (Z.to_nat (k + 1)) with (S (Z.to_nat k)) by lia.
Qed.

Lemma sget_in i a : 0 ≤ i < PUTI_LEN → sget i a = Ret (a !!! i, a).
Proof. apply (aread_in PUTI_LEN id). Qed.

Lemma sput_in i c a : 0 ≤ i < PUTI_LEN → sput i c a = Ret (tt, <[i := s8 c]> a).
Proof. intros Hi. by apply (awrite_in PUTI_LEN id (λ a _, a)). Qed.

Lemma strlen_run a n :
  0 ≤ n < PUTI_LEN → (∀ k, 0 ≤ k < n → a !!! k ≠ 0) → a !!! n = 0 → strlen a = Ret (n, a).
Proof.
  intros Hn Hnz Hz. unfold strlen.
  assert (∀ fuel i, 0 ≤ i ≤ n → n - i < Z.of_nat fuel →
    loop fuel (λ n, let! c := sget n in if c =? 0 then ret (inr n) else ret (inl (n + 1))) i a = Ret (n, a)) as Hl.
  { induction fuel as [|f IH]; intros i Hi Hf; [lia|]. destruct (decide (i = n)) as [->|Hne].
    - apply loop_inr. kstep (sget_in n a Hn). by rewrite Hz.
    - erewrite loop_inl; [|kstep (sget_in i a ltac:(lia)); by rewrite (proj2 (Z.eqb_neq _ _) (Hnz i ltac:(lia)))]. apply IH; lia. }
  apply Hl; unfold str_fuel, PUTI_LEN in *; lia.
Qed.

(** The rounds of [reverse] that are left when [i] characters are in place at both ends. *)
Lemma reverse_run a n :
  0 ≤ n < PUTI_LEN → (∀ k, 0 ≤ k < n → a !!! k ≠ 0) → (∀ k, 0 ≤ k < n → s8 (a !!! k) = a !!! k) → a !!! n = 0 →
  runs reverse a (λ _ a', (∀ k, 0 ≤ k < n → a' !!! k = a !!! (n - 1 - k)) ∧ a' !!! n = 0).
Proof.
  intros Hn Hnz Hs8 Hz. unfold reverse. eapply runs_bind_eq; [by apply (strlen_run a n)|].
  set (placed (b : gmap Z Z) i := (∀ k, 0 ≤ k < n → b !!! k = if bool_decide (i ≤ k ≤ n - 1 - i) then a !!! k else a !!! (n - 1 - k)) ∧
    b !!! n = 0).
  assert (∀ fuel i b, 0 ≤ i → n - 1 - i - i < Z.of_nat fuel → (0 < fuel)%nat → placed b i →
    runs (loop fuel (λ '(i, j), if i <? j then
      let! c := sget i in let! d := sget j in sput i d ;;; sput j c ;;; ret (inl (i + 1, j - 1)) else ret (inr tt)) (i, n - 1 - i)) b
      (λ _ a', (∀ k, 0 ≤ k < n → a' !!! k = a !!! (n - 1 - k)) ∧ a' !!! n = 0)) as Hl.
  { induction fuel as [|f IH]; intros i b Hi Hf Hpos [Hd Hbz]; [lia|]. apply loop_S. destruct (Z.ltb_spec i (n - 1 - i)) as [Hlt|Hge].
    - eapply runs_bind_eq; [apply sget_in; lia|]. eapply runs_bind_eq; [apply sget_in; lia|].
      eapply runs_bind_eq; [apply sput_in; lia|]. eapply runs_bind_eq; [apply sput_in; lia|]. apply runs_ret.
      replace (n - 1 - i - 1) with (n - 1 - (i + 1)) by lia. apply IH; [lia|lia|lia|].
      rewrite (Hd i), (Hd (n - 1 - i)), !bool_decide_true, !Hs8 by lia. split; [|by rewrite !lookup_total_insert_ne by lia].
      intros k Hk. rewrite !lookup_total_insert_dec, (Hd k) by done. repeat (case_bool_decide; try lia); subst; try done; f_equal; lia.
    - apply runs_ret. split; [|done]. intros k Hk. rewrite Hd by done. case_bool_decide; [f_equal; lia|done]. }
  specialize (Hl str_fuel 0 a). rewrite !Z.sub_0_r in Hl. apply Hl; [lia|unfold str_fuel, PUTI_LEN in *; lia|unfold str_fuel; lia|].
  split; [|done]. intros k Hk. by rewrite bool_decide_true by lia.
Qed.

(** ** [itox] *)

Lemma digit_char d : 0 ≤ d < 16 → s8 (digit d) = digit d ∧ 48 ≤ digit d < 103.
Proof. intros Hd. unfold digit, s8. destruct (Z.ltb_spec d 10); rewrite Z.mod_small by lia; lia. Qed.

Section itox.
Context (root : Z) (table : list Z).
Hypothesis Hroot : 2 ≤ root ≤ 16.
Hypothesis Hlen : Z.of_nat (length table) = root.
Hypothesis Htable : ∀ d, 0 ≤ d < root → nth (Z.to_nat d) table 0 = digit d.

Definition itox_digits : Z * Z → M (gmap Z Z) (Z * Z + Z) := λ '(i, n),
  let! d := (if inb (Z.of_nat (length table)) (Z.rem n root) then ret (nth (Z.to_nat (Z.rem n root)) table 0)
             else fault) in
  sput i d ;;;
  let n := Z.quot n root in
  if n >? 0 then ret (inl (i + 1, n)) else ret (inr (i + 1)).

(** [m] bounds the number of digits. *)
Lemma itox_digits_run m fuel i n a :
  0 ≤ n < root ^ Z.of_nat m → (0 < m ≤ fuel)%nat → 0 ≤ i → i + Z.of_nat m ≤ PUTI_LEN →
  runs (loop fuel itox_digits (i, n)) a (λ r a', ∃ ds, numeral root n ds ∧ (length ds ≤ m)%nat ∧
    r = i + Z.of_nat (length ds) ∧ (∀ k, 0 ≤ k < i → a' !!! k = a !!! k) ∧
    ∀ k, 0 ≤ k < Z.of_nat (length ds) → a' !!! (i + k) = nth (Z.to_nat k) (rev ds) 0).
Proof.
  revert fuel i n a. induction m as [|m IH]; intros fuel i n a Hn Hm Hi Hlim; [lia|]. destruct fuel as [|fuel]; [lia|].
  pose proof (Z.mod_pos_bound n root ltac:(lia)) as Hd. apply loop_S. unfold itox_digits at 1.
  rewrite Z.rem_mod_nonneg, Z.quot_div_nonneg, inb_true_2 by lia.
  eapply runs_bind_eq; [reflexivity|]. rewrite Htable by done. eapply runs_bind_eq; [apply sput_in; lia|].
  rewrite (proj1 (digit_char (n mod root) ltac:(lia))). rewrite Z.gtb_ltb. destruct (Z.ltb_spec 0 (n / root)) as [Hq|Hq].
  - assert (root ≤ n) by (apply Z.nlt_ge; intros ?; rewrite Z.div_small in Hq; lia).
    rewrite Nat2Z.inj_succ, Z.pow_succ_r in Hn by lia.
    assert (n / root < root ^ Z.of_nat m) as Hq' by (apply Z.div_lt_upper_bound; lia).
    destruct m as [|m]; [change (root ^ Z.of_nat 0) with 1 in Hq'; lia|]. apply runs_ret.
    eapply runs_mono; [apply (IH fuel (i + 1) (n / root)); lia|]. intros r a' (ds & Hds & Hl & -> & Hlow & Hhigh).
    exists (ds ++ [digit (n mod root)]). rewrite rev_app_distr, length_app. simpl. split; [by apply numeral_step|].
    split; [lia|]. split; [lia|]. split.
    + intros k Hk. rewrite Hlow, lookup_total_insert_ne by lia. done.
    + intros k Hk. destruct (decide (k = 0)) as [->|Hk0].
      * rewrite Z.add_0_r, Hlow, lookup_total_insert_eq by lia. done.
      * replace (Z.to_nat k) with (S (Z.to_nat (k - 1))) by lia. rewrite <- Hhigh by lia. f_equal. lia.
  - assert (n < root) as Hlt by (apply Z.nle_gt; intros ?; assert (0 < n / root) by (apply Z.div_str_pos; lia); lia).
    apply runs_ret. rewrite Z.mod_small by lia. exists [digit n]. simpl. split; [apply numeral_digit; lia|].
    split; [lia|]. split; [lia|]. split.
    + intros k Hk. by rewrite lookup_total_insert_ne by lia.
    + intros k Hk. replace k with 0 by lia. by rewrite Z.add_0_r, lookup_total_insert_eq.
Qed.

(** What [itox] leaves in the array: the sign and the numeral of the absolute value. *)
Definition signed (n : Z) (ds : list Z) : list Z := if n <? 0 then 45 :: ds else ds.

Lemma digits_chars ds n : Forall (is_digit root) ds → Forall (λ c, s8 c = c ∧ c ≠ 0) (signed n ds).
Proof.
  intros Hds. assert (Forall (λ c, s8 c = c ∧ c ≠ 0) ds) as Hall.
  { eapply Forall_impl; [exact Hds|]. intros c (d & Hd & ->). destruct (digit_char d ltac:(lia)). split; [done|lia]. }
  unfold signed. destruct (n <? 0); [|done]. by apply Forall_cons.
Qed.

Lemma itox_run n a :
  -2147483648 < n < 2147483648 →
  runs (itox n root table) a (λ _ a', ∃ ds, numeral root (Z.abs n) ds ∧ string_at a' (signed n ds) ∧ (length ds ≤ 31)%nat).
Proof.
  intros Hn. unfold itox. apply (runs_bind_mono _ _ _ (λ v a', v = Z.abs n ∧ a' = a)).
  { destruct (Z.ltb_spec n 0); [rewrite (proj2 (Z.eqb_neq _ _)) by lia|]; apply runs_ret; (split; [lia|done]). }
  intros v a' [-> ->]. fold itox_digits.
  assert (0 ≤ Z.abs n < root ^ Z.of_nat 31) as Hb.
  { split; [lia|]. apply (Z.lt_le_trans _ (2 ^ 31)); [lia|]. apply Z.pow_le_mono_l. lia. }
  eapply runs_bind_mono; [apply (itox_digits_run 31 str_fuel 0 (Z.abs n) a Hb); unfold str_fuel, PUTI_LEN; lia|].
  intros i a1 (ds & Hds & Hl & -> & _ & Ha1). set (len := Z.of_nat (length ds)) in *. rewrite !Z.add_0_l in *.
  apply (runs_bind_mono _ _ _ (λ i a2, i = Z.of_nat (length (signed n ds)) ∧
    ∀ k, 0 ≤ k < i → a2 !!! k = nth (Z.to_nat k) (rev (signed n ds)) 0)).
  { unfold signed. destruct (Z.ltb_spec n 0).
    - eapply runs_bind_eq; [apply sput_in; unfold PUTI_LEN; lia|]. apply runs_ret. simpl. split; [lia|]. intros k Hk.
      rewrite lookup_total_insert_dec. case_bool_decide as E.
      + subst k. rewrite app_nth2; rewrite length_rev; [|lia]. by replace (Z.to_nat len - length ds)%nat with 0%nat by lia.
      + rewrite app_nth1 by (rewrite length_rev; lia). specialize (Ha1 k). rewrite Z.add_0_l in Ha1. apply Ha1. lia.
    - apply runs_ret. split; [done|]. intros k Hk. specialize (Ha1 k). rewrite Z.add_0_l in Ha1. apply Ha1. lia. }
  intros i a2 [-> Ha2]. assert (length (signed n ds) ≤ 32)%nat as Hl' by (unfold signed; destruct (n <? 0); simpl; lia).
  pose proof (digits_chars ds n (nu_digits _ _ _ Hds)) as Hch. set (l := signed n ds) in *. rewrite Forall_nth in Hch.
  assert (∀ k, 0 ≤ k < Z.of_nat (length l) → s8 (a2 !!! k) = a2 !!! k ∧ a2 !!! k ≠ 0) as Hch2.
  { intros k Hk. rewrite Ha2, rev_nth by lia. apply Hch. lia. }
  eapply runs_bind_eq; [apply sput_in; unfold PUTI_LEN; lia|]. change (s8 0) with 0.
  eapply runs_mono; [apply (reverse_run _ (Z.of_nat (length l)))|].
  - unfold PUTI_LEN. lia.
  - intros k Hk. rewrite lookup_total_insert_ne by lia. by apply Hch2.
  - intros k Hk. rewrite lookup_total_insert_ne by lia. by apply Hch2.
  - apply lookup_total_insert_eq.
  - intros _ a3 [Hr Hz]. exists ds. split; [done|]. split; [|done]. split; [|done]. intros k Hk.
    fold l in Hk |- *. rewrite Hr by done. rewrite lookup_total_insert_ne by lia. split; [|apply Hch2; lia]. rewrite Ha2, rev_nth by lia. f_equal. lia.
Qed.

End itox.

Lemma itoh_run n a :
  -2147483648 < n < 2147483648 →
  runs (itoh n) a (λ _ a', ∃ ds, numeral 16 (Z.abs n) ds ∧ string_at a' (signed n ds) ∧ (length ds ≤ 31)%nat).
Proof.
  apply itox_run; [lia|done|]. intros d Hd. rewrite <- (Z2Nat.id d) by lia. assert (Z.to_nat d < 16)%nat as Hd' by lia.
  revert Hd'. generalize (Z.to_nat d). intros j Hj. rewrite Nat2Z.id. do 16 (destruct j as [|j]; [done|]). lia.
Qed.

(** The least [int] has no absolute value. *)
Lemma itoh_least a : itoh (-2147483648) a = Fault.
Proof. done. Qed.

(** ** The variables of the loader *)

(** Where boot1 is loaded. *)
Definition BOOT1 : Z := 32256.

Section loader.
Context `{BootHw}.

(** The variables are in the loader, below the buffer for the ELF header, apart from each
    other; [mboot_info] has 88 bytes. *)
Record loader_layout : Prop := {
  ll_row : BOOT1 ≤ row_addr ∧ row_addr + 4 ≤ ELFHDR;
  ll_puti : BOOT1 ≤ puti_str_addr ∧ puti_str_addr + PUTI_LEN ≤ ELFHDR;
  ll_info : BOOT1 ≤ mboot_info_addr ∧ mboot_info_addr + 88 ≤ ELFHDR;
  ll_row_puti : row_addr + 4 ≤ puti_str_addr ∨ puti_str_addr + PUTI_LEN ≤ row_addr;
  ll_row_info : row_addr + 4 ≤ mboot_info_addr ∨ mboot_info_addr + 88 ≤ row_addr;
  ll_puti_info : puti_str_addr + PUTI_LEN ≤ mboot_info_addr ∨ mboot_info_addr + 88 ≤ puti_str_addr;
}.
Hypothesis Hlay : loader_layout.

(** The variables that printing changes, and the two fields of [mboot_info] that are set. *)
Definition scratch (a : Z) : Prop :=
  row_addr ≤ a < row_addr + 4 ∨ puti_str_addr ≤ a < puti_str_addr + PUTI_LEN.
Definition mmap_fields (a : Z) : Prop := mmap_length ≤ a < mmap_length + 8.
(** All variables. *)
Definition variable (a : Z) : Prop := scratch a ∨ mboot_info_addr ≤ a < mboot_info_addr + 88.

(** The rows that [putline] uses: one more than the screen has. *)
Definition on_screen (a : Z) : Prop := video ≤ a < video + 2 * 80 * (CRT_ROWS + 1).

(** Arithmetic on the addresses of the loader. *)
Ltac lay :=
  destruct Hlay; unfold variable, scratch, mmap_fields, on_screen, mmap_length, mmap_addr, BOOT1, ELFHDR, PUTI_LEN, video, CRT_ROWS, W32 in *; lia.

(** ** The screen *)

(** Only the screen changes, and the variables of the printing. *)
Record shown (s s' : boot1) : Prop := {
  sh_mem : ∀ a, 0 ≤ a < W32 → ¬ on_screen a → ¬ scratch a → load8 (pmem s') a = load8 (pmem s) a;
  sh_row : 0 ≤ row s' ≤ CRT_ROWS;
}.

#[local] Instance shown_trans : Transitive shown.
Proof. intros s1 s2 s3 [H1 _] [H2 Hr]. constructor; [|done]. intros a Ha Hn Hs. by rewrite H2, H1. Qed.

Lemma row_same s s' : (∀ a, row_addr ≤ a < row_addr + 4 → load8 (pmem s') a = load8 (pmem s) a) → row s' = row s.
Proof. intros E. unfold row. f_equal. apply load32_ext. intros i Hi. apply E. lia. Qed.

Lemma row_set r s : 0 ≤ r ≤ CRT_ROWS → row (set_row r s) = r.
Proof.
  intros Hr. unfold row. simpl. rewrite load32_store32_eq by lay. unfold s32, CRT_ROWS in *.
  rewrite Z.mod_small by (unfold W32; lia). lia.
Qed.

Lemma set_row_shown r s : 0 ≤ r ≤ CRT_ROWS → shown s (set_row r s).
Proof. intros Hr. constructor; [|by rewrite row_set]. intros a Ha _ Hs. simpl. by rewrite load8_store32_ne by lay. Qed.

Lemma puts_loop_run l color str s :
  0 ≤ row s ≤ CRT_ROWS → 0 ≤ l → l + Z.of_nat (length str) ≤ 2080 →
  runs (puts_loop l color str) s (λ _ s', shown s s' ∧ row s' = row s).
Proof.
  revert l s. induction str as [|ch str IH]; intros l s Hrow Hl Hlen; [by apply runs_ret|].
  simpl length in Hlen. eapply runs_bind_eq; [reflexivity|]. set (s1 := set_pmem _ s).
  assert (∀ a, 0 ≤ a < W32 → ¬ on_screen a → load8 (pmem s1) a = load8 (pmem s) a) as Hm.
  { intros a Ha Hn. simpl. unfold on_screen in Hn. rewrite !load8_store8 by lay. by rewrite !bool_decide_false by lay. }
  assert (row s1 = row s) as Hr1 by (apply row_same; intros a Ha; apply Hm; lay).
  eapply runs_mono; [apply (IH (l + 1) s1); [by rewrite Hr1|lia|lia]|]. intros r s' [Hs Hr]. split; [|congruence].
  etransitivity; [|exact Hs]. constructor; [|by rewrite Hr1]. intros a Ha Hn _. by apply Hm.
Qed.

Lemma putline_run str s :
  0 ≤ row s ≤ CRT_ROWS → (length str ≤ 80)%nat → runs (putline str) s (λ _ s', shown s s').
Proof.
  intros Hrow Hlen. unfold putline. eapply runs_bind_eq; [reflexivity|].
  set (r := if row s >=? CRT_ROWS then 0 else row s + 1).
  assert (0 ≤ r ≤ CRT_ROWS) as Hr by (subst r; rewrite Z.geb_leb; destruct (Z.leb_spec CRT_ROWS (row s)); unfold CRT_ROWS in *; lia).
  eapply runs_bind_eq; [reflexivity|]. unfold puts. pose proof (row_set r s Hr) as Er.
  eapply runs_bind_mono; [apply (puts_loop_run _ _ blank (set_row r s)); [by rewrite Er|unfold CRT_ROWS in *; lia|]|].
  { change (length blank) with 80%nat. unfold CRT_ROWS in *. lia. }
  intros _ s1 [H1 E1]. rewrite Er in E1. eapply runs_bind_mono; [apply (puts_loop_run _ _ str s1); unfold CRT_ROWS in *; lia|].
  intros _ s2 [H2 _]. apply runs_ret. etransitivity; [|exact H2]. etransitivity; [|exact H1]. by apply set_row_shown.
Qed.

Lemma chars_length n i a : (length (chars n i a) ≤ n)%nat.
Proof.
  revert i. induction n as [|n IH]; intros i; cbn [chars]; [simpl; lia|].
  destruct (a !!! i =? 0); cbn [length]; [lia|]. specialize (IH (i + 1)). lia.
Qed.

(** The array [puti_str] is written, and nothing else. *)
Lemma set_puti_str_mem v s a :
  0 ≤ a < W32 → ¬ (puti_str_addr ≤ a < puti_str_addr + PUTI_LEN) → load8 (pmem (set_puti_str v s)) a = load8 (pmem s) a.
Proof.
  intros Ha Hn. unfold set_puti_str, set_pmem. cbn [pmem]. assert (∀ i, i ∈ seqZ 0 PUTI_LEN → 0 ≤ i < PUTI_LEN) as Hin by (intros i Hi; apply elem_of_seqZ in Hi; lia).
  revert Hin. generalize (pmem s). induction (seqZ 0 PUTI_LEN) as [|i l IH]; intros m Hin; [done|]. cbn [foldl].
  pose proof (Hin i ltac:(by left)) as Hi. rewrite IH by (intros j Hj; apply Hin; by right).
  rewrite load8_store8 by lay. by rewrite bool_decide_false by lay.
Qed.

Lemma puti_run i s :
  0 ≤ row s ≤ CRT_ROWS → -2147483648 < i < 2147483648 → runs (puti i) s (λ _ s', shown s s').
Proof.
  intros Hrow Hi. unfold puti. destruct (proj1 (runs_eq _ _ _) (itoh_run i (puti_str s) Hi)) as ([] & v & E & _).
  eapply runs_bind_eq; [by apply fzoom_Ret|]. eapply runs_bind_eq; [reflexivity|]. set (s1 := set_puti_str v s).
  assert (row s1 = row s) as Er by (apply row_same; intros a Ha; apply set_puti_str_mem; lay).
  eapply runs_mono; [apply putline_run; [by rewrite Er|]|].
  - etransitivity; [apply chars_length|]. unfold PUTI_LEN. lia.
  - intros ? s' Hs. etransitivity; [|exact Hs]. constructor; [|by rewrite Er]. intros b Hb _ Hns.
    apply set_puti_str_mem; [done|]. unfold scratch in Hns. tauto.
Qed.

(** ** The disk *)

(** The drive answers within [2 ^ 32] reads of its status. *)
Definition drive_ready : Prop := ∀ t, ∃ k : nat, Z.of_nat k < W32 ∧ Z.land (u8 (hw_status (t + Z.of_nat k))) 192 = 64.
Hypothesis Hready : drive_ready.

Lemma waitdisk_run s : runs waitdisk s (λ _ s', ∃ n, s' = set_reads n s).
Proof.
  destruct (Hready (reads s)) as (k & Hk & E). unfold waitdisk. apply (loopw_runs (S k)); [lia|].
  clear Hk. revert s E. induction k as [|k IH]; intros s E; apply loop_S.
  - rewrite Z.add_0_r in E. eapply runs_bind_eq; [reflexivity|]. rewrite E. apply runs_ret. by eexists.
  - eapply runs_bind_eq; [reflexivity|]. destruct (negb _); apply runs_ret; [|by eexists].
    eapply runs_mono; [apply (IH (set_reads (reads s + 1) s))|].
    + simpl. rewrite <- E. do 3 f_equal. lia.
    + intros _ s' [n ->]. by exists n.
Qed.

Lemma insl_filled n d i sec m :
  0 ≤ d → d + 4 * Z.of_nat n ≤ W32 → 0 ≤ i → i + 4 * Z.of_nat n ≤ W32 →
  filled m (insl_loop n d i sec m) d (4 * Z.of_nat n) (λ j, load8 sec (i + j)).
Proof.
  revert d i m. induction n as [|n IH]; intros d i m Hd Hdn Hi Hin a Ha; simpl insl_loop.
  - by rewrite bool_decide_false by lia.
  - rewrite (IH (d + 4) (i + 4)) by lia. rewrite load8_store32 by lia. repeat (case_bool_decide; try lia); try done;
      first [by rewrite byte_of_load32 by lia | f_equal; lia].
Qed.

Definition read_regs (sec : Z) (r : gmap Z Z) : gmap Z Z :=
  <[503 := u8 32]> (<[502 := u8 (Z.lor (Z.shiftr sec 24) 224)]> (<[501 := u8 (Z.shiftr sec 16)]>
    (<[500 := u8 (Z.shiftr sec 8)]> (<[499 := u8 sec]> (<[498 := u8 1]> r))))).

Lemma lba_byte t : 0 ≤ t < 16 → Z.land (u8 (Z.lor t 224)) 15 = t.
Proof.
  intros Ht. assert (t ∈ seqZ 0 16) as Hin by (apply elem_of_seqZ; lia). revert t Hin Ht.
  cut (Forall (λ t, Z.land (u8 (Z.lor t 224)) 15 = t) (seqZ 0 16)); [|by repeat constructor].
  intros Hf t Hin _. by apply (proj1 (Forall_forall _ _) Hf).
Qed.

Lemma read_regs_lba sec r : 0 ≤ sec < 2 ^ 28 → ide_lba (read_regs sec r) = sec.
Proof.
  intros Hs. unfold ide_lba, read_regs.
  repeat first [rewrite lookup_total_insert_eq | rewrite lookup_total_insert_ne by lia].
  rewrite lba_byte; rewrite ?Z.shiftr_div_pow2 by lia.
  - unfold u8. by apply sector_bytes.
  - change (2 ^ 28) with 268435456 in Hs. change (2 ^ 24) with 16777216. divlia.
Qed.

Lemma readsector_run dst sec s :
  0 ≤ dst → dst + SECTOR_SIZE ≤ W32 → 0 ≤ sec < 2 ^ 28 →
  runs (readsector dst sec) s (λ _ s', filled (pmem s) (pmem s') dst SECTOR_SIZE (load8 (hw_sector sec))).
Proof.
  intros Hd Hd' Hsec. unfold readsector. eapply runs_bind_mono; [apply waitdisk_run|]. intros _ s1 [n1 ->].
  do 6 (eapply runs_bind_eq; [reflexivity|]). eapply runs_bind_mono; [apply waitdisk_run|]. intros _ s2 [n2 ->].
  apply (runs_of_eq _ _ _ _ _ eq_refl). simpl. fold (read_regs sec (ide_regs s)).
  rewrite read_regs_lba by done. apply (insl_filled 128 dst 0); unfold SECTOR_SIZE, W32 in *; lia.
Qed.

(** Byte [o] of what is on the disk from sector [lba] on. *)
Definition image (lba o : Z) : Z := load8 (hw_sector (lba + o / SECTOR_SIZE)) (o mod SECTOR_SIZE).

Lemma image_shift lba q o : image lba (SECTOR_SIZE * q + o) = image (lba + q) o.
Proof. unfold image, SECTOR_SIZE. rewrite (Z.mul_comm 512 q), Z.div_add_l, (Z.add_comm (q * 512) o), Z.mod_add by lia. by rewrite Z.add_assoc. Qed.

Definition section_round (end_va : Z) : Z * Z → M boot1 (Z * Z + unit) := λ '(va, offset),
  if va <? end_va then
    readsector va offset ;;;
    ret (inl (u32 (va + SECTOR_SIZE), u32 (offset + 1)))
  else ret (inr tt).

Lemma section_loop n end_va va sec s :
  0 ≤ va → va + SECTOR_SIZE * Z.of_nat n < W32 → 0 ≤ sec → sec + Z.of_nat n ≤ 2 ^ 28 →
  end_va ≤ va + SECTOR_SIZE * Z.of_nat n < end_va + SECTOR_SIZE →
  runs (loop (S n) (section_round end_va) (va, sec)) s (λ _ s',
    filled (pmem s) (pmem s') va (SECTOR_SIZE * Z.of_nat n) (image sec)).
Proof.
  unfold SECTOR_SIZE. revert va sec s. induction n as [|n IH]; intros va sec s Hva Hlim Hsec Hsec' Hend; apply loop_S; unfold section_round at 1.
  - rewrite (proj2 (Z.ltb_ge _ _)) by lia. apply runs_ret. intros a Ha.
    by rewrite bool_decide_false by lia.
  - rewrite (proj2 (Z.ltb_lt _ _)) by lia.
    eapply runs_bind_mono; [apply (readsector_run va sec); unfold SECTOR_SIZE; lia|]. intros [] s1 Hf1.
    apply runs_ret. unfold SECTOR_SIZE. rewrite !u32_small by (unfold W32 in *; change (2 ^ 28) with 268435456 in *; lia).
    eapply runs_mono; [apply (IH (va + 512) (sec + 1) s1); lia|]. intros [] s2 Hf2 a Ha.
    rewrite Hf2, Hf1 by done. unfold SECTOR_SIZE. repeat (case_bool_decide; try lia); try done.
    + rewrite <- image_shift. f_equal. unfold SECTOR_SIZE. lia.
    + unfold image, SECTOR_SIZE. rewrite Z.div_small, Z.mod_small by lia. by rewrite Z.add_0_r.
Qed.

(** The part of memory that [readsection] fills: whole sectors. *)
Definition sec_lo (va : Z) : Z := SECTOR_SIZE * (va / SECTOR_SIZE).
Definition sec_hi (va count : Z) : Z := SECTOR_SIZE * ((va + count + SECTOR_SIZE - 1) / SECTOR_SIZE).

Lemma land_sector va : Z.land va (Z.lnot (SECTOR_SIZE - 1)) = sec_lo va.
Proof.
  unfold sec_lo, SECTOR_SIZE. rewrite <- Z.ldiff_land. change (512 - 1) with (Z.ones 9).
  rewrite Z.ldiff_ones_r, Z.shiftl_mul_pow2, Z.shiftr_div_pow2 by lia. apply Z.mul_comm.
Qed.

(** A section of the image fits where its header puts it. *)
Definition fits (lba va count offset : Z) : Prop :=
  0 ≤ va ∧ 0 ≤ count ∧ 0 ≤ offset < W32 ∧ va mod SECTOR_SIZE = offset mod SECTOR_SIZE ∧ va + count ≤ W32 - SECTOR_SIZE ∧
  lba + (offset + count + SECTOR_SIZE - 1) / SECTOR_SIZE ≤ 2 ^ 28.

Lemma readsection_run va count offset lba s :
  0 ≤ lba → fits lba (va mod 2 ^ 24) count offset →
  runs (readsection va count offset lba) s (λ _ s',
    filled (pmem s) (pmem s') (sec_lo (va mod 2 ^ 24)) (sec_hi (va mod 2 ^ 24) count - sec_lo (va mod 2 ^ 24))
      (λ i, image lba (sec_lo offset + i))).
Proof.
  intros Hlba. unfold readsection. change 16777215 with (Z.ones 24). rewrite Z.land_ones by lia.
  generalize (va mod 2 ^ 24). clear va. intros va (Hva & Hc & Ho & Hmod & Hlim & Hdisk). rewrite land_sector.
  assert (0 ≤ offset / SECTOR_SIZE ≤ (offset + count + SECTOR_SIZE - 1) / SECTOR_SIZE) as Hq.
  { unfold SECTOR_SIZE. split; [apply Z.div_pos; lia|apply Z.div_le_mono; lia]. }
  rewrite !u32_small by (unfold W32, SECTOR_SIZE in *; change (2 ^ 28) with 268435456 in *; lia). cbv zeta.
  set (n := Z.to_nat ((va + count + SECTOR_SIZE - 1) / SECTOR_SIZE - va / SECTOR_SIZE)).
  assert (SECTOR_SIZE * Z.of_nat n = sec_hi va count - sec_lo va ∧
    offset / SECTOR_SIZE + Z.of_nat n = (offset + count + SECTOR_SIZE - 1) / SECTOR_SIZE ∧
    va + count ≤ sec_hi va count < va + count + SECTOR_SIZE ∧ 0 ≤ sec_lo va ≤ va) as (En & Eo & Eh & El).
  { subst n. unfold sec_hi, sec_lo, SECTOR_SIZE in *.
    assert (va / 512 ≤ (va + count + 512 - 1) / 512) by (apply Z.div_le_mono; lia). rewrite Z2Nat.id by lia. divlia. }
  apply (loopw_runs (S n)); [unfold SECTOR_SIZE, W32 in *; lia|].
  eapply runs_mono; [apply (section_loop n (va + count)); try lia; unfold SECTOR_SIZE, W32 in *; lia|].
  intros [] s' Hf. rewrite En in Hf. intros a Ha. rewrite (Hf a Ha).
  case_bool_decide; [|done]. unfold sec_lo at 2. by rewrite image_shift, (Z.add_comm lba).
Qed.

(** ** The kernel on the disk *)

(** A memory that holds the first [n] bytes of the image at [d]. *)
Definition holds_image (lba : Z) (m : memory) (d n : Z) (o : Z) : Prop :=
  ∀ i, 0 ≤ i < n → load8 m (d + i) = image lba (o + i).

Section kernel.
Context (lba : Z).

Definition ihalf (o : Z) : Z := image lba o + 256 * image lba (o + 1).
Definition iword (o : Z) : Z :=
  image lba o + 256 * image lba (o + 1) + 65536 * image lba (o + 2) + 16777216 * image lba (o + 3).

(** The header, and the fields of program header [k]. *)
Definition i_phoff : Z := iword 28.
Definition i_phnum : Z := ihalf 44.
Definition i_phdr (k : Z) : Z := i_phoff + 32 * k.
Definition i_va (k : Z) : Z := iword (i_phdr k + 8) mod 2 ^ 24.
Definition i_memsz (k : Z) : Z := iword (i_phdr k + 20).
Definition i_offset (k : Z) : Z := iword (i_phdr k + 4).
Definition i_lo (k : Z) : Z := sec_lo (i_va k).
Definition i_hi (k : Z) : Z := sec_hi (i_va k) (i_memsz k).

(** The image is an ELF file with its program headers in the first eight sectors; the
    segments fit, are loaded above the buffer of the header, and so above the loader and
    its variables, and none is loaded over an earlier one. *)
Record kernel_image : Prop := {
  ki_lba : 0 ≤ lba;
  ki_disk : lba + 8 ≤ 2 ^ 28;
  ki_magic : iword 0 = ELF_MAGIC;
  ki_phdrs : i_phoff + 32 * i_phnum ≤ 4096;
  ki_fits : ∀ k, 0 ≤ k < i_phnum → fits lba (i_va k) (i_memsz k) (i_offset k);
  ki_header : ∀ k, 0 ≤ k < i_phnum → ELFHDR + 4096 ≤ i_lo k;
  ki_apart : ∀ j k, 0 ≤ j < k → k < i_phnum → i_hi k ≤ i_va j ∨ i_va j + i_memsz j ≤ i_lo k;
}.
Hypothesis Hk : kernel_image.

(** Segments 0 to [k - 1] are in memory, and the header; nothing else has changed. *)
Record kernel_loaded (m0 : memory) (k : Z) (m : memory) : Prop := {
  kl_header : holds_image lba m ELFHDR 4096 0;
  kl_segments : ∀ j, 0 ≤ j < k → holds_image lba m (i_va j) (i_memsz j) (i_offset j);
  kl_rest : ∀ a, 0 ≤ a < W32 → ¬ (ELFHDR ≤ a < ELFHDR + 4096) → (∀ j, 0 ≤ j < k → ¬ (i_lo j ≤ a < i_hi j)) →
    load8 m a = load8 m0 a;
}.

Lemma image_range o : 0 ≤ image lba o < 256.
Proof. apply load8_range. Qed.

Lemma iword_range o : 0 ≤ iword o < W32.
Proof.
  unfold iword, W32. pose proof (image_range o). pose proof (image_range (o + 1)). pose proof (image_range (o + 2)).
  pose proof (image_range (o + 3)). lia.
Qed.

Lemma header_word m i : holds_image lba m ELFHDR 4096 0 → 0 ≤ i → i + 4 ≤ 4096 → load32 m (ELFHDR + i) = iword i.
Proof. intros Hm Hi Hi'. unfold load32, iword. rewrite <- !Z.add_assoc. by rewrite !Hm by lia. Qed.

(** A section that was filled holds its part of the image. *)
Lemma filled_section m m' va count offset :
  fits lba va count offset →
  filled m m' (sec_lo va) (sec_hi va count - sec_lo va) (λ i, image lba (sec_lo offset + i)) →
  holds_image lba m' va count offset.
Proof.
  intros (Hva & Hc & Ho & Hmod & Hlim & _) Hf i Hi. unfold sec_lo, sec_hi, SECTOR_SIZE in *.
  rewrite Hf by (unfold W32 in *; lia). rewrite bool_decide_true by divlia. f_equal. divlia.
Qed.

Lemma holds_kept m m' va count offset d n f :
  filled m m' d n f → 0 ≤ va → va + count ≤ W32 → d + n ≤ va ∨ va + count ≤ d → holds_image lba m va count offset →
  holds_image lba m' va count offset.
Proof. intros Hf Hva Hlim Hd Hm i Hi. rewrite Hf by lia. rewrite bool_decide_false by lia. by apply Hm. Qed.

Lemma segment_step m0 k m m' :
  0 ≤ k < i_phnum → kernel_loaded m0 k m →
  filled m m' (i_lo k) (i_hi k - i_lo k) (λ i, image lba (sec_lo (i_offset k) + i)) → kernel_loaded m0 (k + 1) m'.
Proof.
  intros Hlt [Hh Hs Hr] Hf. constructor.
  - eapply holds_kept; [exact Hf|unfold ELFHDR; lia|unfold ELFHDR, W32; lia| |done].
    pose proof (ki_header Hk k Hlt); lia.
  - intros j Hj. destruct (decide (j = k)) as [->|Hne]; [by eapply filled_section; [apply ki_fits|]|].
    destruct (ki_fits Hk j ltac:(lia)) as (Hva & _ & _ & _ & Hlim & _).
    eapply holds_kept; [exact Hf|done|unfold SECTOR_SIZE in *; lia| |by apply Hs; lia].
    destruct (ki_apart Hk j k ltac:(lia) ltac:(lia)); lia.
  - intros a Ha Hna Hns. rewrite Hf by done. rewrite bool_decide_false by (specialize (Hns k); lia).
    apply Hr; [done|done|]. intros j Hj. apply Hns. lia.
Qed.

Definition segment_round (eph : Z) : Z → M boot1 (Z + unit) := λ ph,
  if ph <? eph then
    let! p_va := bget32 (ph + 8) in
    let! p_memsz := bget32 (ph + 20) in
    let! p_offset := bget32 (ph + 4) in
    readsection p_va p_memsz p_offset lba ;;;
    ret (inl (u32 (ph + 32)))
  else ret (inr tt).

Lemma segment_loop m0 n k s :
  0 ≤ k → k + Z.of_nat n = i_phnum → kernel_loaded m0 k (pmem s) →
  runs (loop (S n) (segment_round (ELFHDR + (i_phoff + 32 * i_phnum))) (ELFHDR + i_phdr k)) s
    (λ _ s', kernel_loaded m0 i_phnum (pmem s')).
Proof.
  revert k s. induction n as [|n IH]; intros k s Hk0 Hn Hl; apply loop_S; unfold segment_round at 1, i_phdr at 1.
  - rewrite (proj2 (Z.ltb_ge _ _)) by lia. apply runs_ret. replace i_phnum with k by lia. done.
  - rewrite (proj2 (Z.ltb_lt _ _)) by lia. pose proof (ki_phdrs Hk) as Hp. pose proof (iword_range 28) as Hp'.
    fold i_phoff in Hp'. do 3 (eapply runs_bind_eq; [reflexivity|]). pose proof (kl_header _ _ _ Hl) as Hh.
    rewrite <- !Z.add_assoc. rewrite !header_word by (unfold i_phdr; done || lia).
    eapply runs_bind_mono; [apply (readsection_run (iword (i_phdr k + 8))); [apply Hk|apply (ki_fits Hk k); lia]|].
    intros [] s1 Hf. apply runs_ret.
    rewrite u32_small by (unfold i_phdr, ELFHDR, W32 in *; lia).
    replace (ELFHDR + (i_phdr k + 32)) with (ELFHDR + i_phdr (k + 1)) by (unfold i_phdr; lia).
    apply (IH (k + 1) s1); [lia|lia|]. by apply (segment_step m0 k (pmem s)); [lia|..].
Qed.

(** [load_kernel] reads the header and the segments, and returns the entry. *)
Lemma load_kernel_run s :
  runs (load_kernel lba) s (λ r s', r = Z.land (iword 24) 16777215 ∧ kernel_loaded (pmem s) i_phnum (pmem s')).
Proof.
  pose proof (ki_lba Hk) as Hlba. pose proof (ki_disk Hk) as Hdisk. pose proof (ki_phdrs Hk) as Hp.
  pose proof (iword_range 28) as Hp'. fold i_phoff in Hp'.
  assert (0 ≤ i_phnum) as Hnum by (unfold i_phnum, ihalf; pose proof (image_range 44); pose proof (image_range (44 + 1)); lia).
  assert (fits lba (ELFHDR mod 2 ^ 24) (SECTOR_SIZE * 8) 0) as Hfit by (repeat split; try done; change ((0 + SECTOR_SIZE * 8 + SECTOR_SIZE - 1) / SECTOR_SIZE) with 8; lia).
  unfold load_kernel. eapply runs_bind_mono; [by apply readsection_run|]. intros [] s1 Hf.
  assert (kernel_loaded (pmem s) 0 (pmem s1)) as Hl.
  { constructor; [exact (filled_section _ _ _ _ _ Hfit Hf)|intros; lia|]. intros a Ha Hna _. rewrite Hf by done.
    rewrite bool_decide_false; [done|]. exact Hna. }
  pose proof (kl_header _ _ _ Hl) as Hh.
  assert (∀ i, 0 ≤ i → i + 4 ≤ 4096 → bget32 (ELFHDR + i) s1 = Ret (iword i, s1)) as Hrd.
  { intros i Hi Hi'. unfold bget32, gets. by rewrite header_word. }
  eapply runs_bind_eq; [by apply (Hrd 0)|]. rewrite (ki_magic Hk), Z.eqb_refl. kif.
  eapply runs_bind_eq; [by apply (Hrd 28)|]. eapply runs_bind_eq; [reflexivity|].
  assert (load16 (pmem s1) (ELFHDR + 44) = i_phnum) as ->.
  { unfold load16, i_phnum, ihalf. rewrite <- Z.add_assoc. by rewrite !Hh by lia. }
  fold i_phoff. rewrite !(u32_small (_ + _)) by (unfold ELFHDR, W32 in *; rewrite ?u32_small; unfold W32; lia).
  eapply runs_bind_mono.
  { apply (loopw_runs (S (Z.to_nat i_phnum))); [unfold W32; lia|]. pose proof (segment_loop (pmem s) (Z.to_nat i_phnum) 0 s1) as Hloop.
    unfold i_phdr in Hloop at 1. rewrite Z.mul_0_r, Z.add_0_r in Hloop. rewrite <- Z.add_assoc. apply Hloop; [lia|lia|done]. }
  intros [] s2 H2. eapply runs_bind_eq; [reflexivity|]. apply runs_ret.
  split; [by rewrite header_word by (apply H2 || lia)|done].
Qed.

End kernel.

(** ** The tables of the BIOS *)

(** The entry at [p] is not the zero entry that ends the map. *)
Definition e820_entry (m : memory) (p : Z) : bool :=
  nz (load32 m (p + 4) + W32 * load32 m (p + 8)) || nz (load32 m (p + 12) + W32 * load32 m (p + 16)) || nz (load32 m (p + 20)).

(** The map at [smap] has [n] entries, and is below the buffer of the header and apart from
    the variables of the loader; no base address ends in 0x80000000. *)
Record memory_map (m : memory) (smap n : Z) : Prop := {
  mm_start : 0 ≤ smap;
  mm_count : 0 ≤ n;
  mm_limit : smap + 24 * (n + 1) ≤ ELFHDR;
  mm_apart : ∀ a, smap ≤ a < smap + 24 * (n + 1) → ¬ variable a;
  mm_entries : ∀ i, 0 ≤ i < n → e820_entry m (smap + 24 * i) = true ∧ load32 m (smap + 24 * i + 4) ≠ 2147483648;
  mm_end : e820_entry m (smap + 24 * n) = false;
}.

(** The sector [lba] is the start of the first bootable partition. *)
Definition boots_from (m : memory) (mbr lba : Z) : Prop :=
  ∃ i, 0 ≤ i < 4 ∧ (∀ j, 0 ≤ j < i → load8 m (mbr + 446 + 16 * j) ≠ BOOTABLE_PARTITION) ∧
    load8 m (mbr + 446 + 16 * i) = BOOTABLE_PARTITION ∧ load32 m (mbr + 446 + 16 * i + 8) = lba.

Lemma boots_from_ext m m' mbr lba :
  (∀ a, mbr ≤ a < mbr + 512 → load8 m' a = load8 m a) → boots_from m mbr lba → boots_from m' mbr lba.
Proof.
  intros E (i & Hi & Hno & Hb & Hl). exists i. split; [done|]. split; [intros j Hj; rewrite E by lia; by apply Hno|].
  split; [by rewrite E by lia|]. rewrite (load32_ext m); [done|]. intros j Hj. apply E. lia.
Qed.

Lemma e820_ext m m' p : (∀ a, p ≤ a < p + 24 → load8 m' a = load8 m a) → e820_entry m' p = e820_entry m p.
Proof. intros E. unfold e820_entry. by rewrite !(load32_ext m m') by (intros i Hi; apply E; lia). Qed.

Lemma memory_map_ext m m' smap n :
  (∀ a, smap ≤ a < smap + 24 * (n + 1) → load8 m' a = load8 m a) → memory_map m smap n → memory_map m' smap n.
Proof.
  intros E [H0 H1 H2 Hap H3 H4]. constructor; [done|done|done|done| |].
  - intros i Hi. rewrite (e820_ext m m'), (load32_ext m m') by (intros j Hj; apply E; lia). by apply H3.
  - by rewrite (e820_ext m m') by (intros j Hj; apply E; lia).
Qed.

Lemma memory_map_shown s s' smap n : shown s s' → memory_map (pmem s) smap n → memory_map (pmem s') smap n.
Proof.
  intros Hs Hm. eapply memory_map_ext; [|exact Hm]. intros a Ha. pose proof (mm_start _ _ _ Hm). pose proof (mm_limit _ _ _ Hm).
  pose proof (mm_apart _ _ _ Hm a Ha) as Hv. apply (sh_mem _ _ Hs); [lay|lay|]. intros Hc. apply Hv. by left.
Qed.

Lemma s32_base b0 b1 : 0 ≤ b0 < W32 → b0 ≠ 2147483648 → -2147483648 < s32 (b0 + W32 * b1) < 2147483648.
Proof. intros Hb Hne. unfold s32. rewrite <- Z.add_assoc, (Z.add_comm (W32 * b1)), Z.add_assoc, (Z.mul_comm W32), Z.mod_add by done. unfold W32 in *. divlia. Qed.

Definition e820_round : Z * Z → M boot1 (Z * Z + Z) := λ '(p, mmap_len),
  let! b0 := bget32 (p + 4) in
  let! b1 := bget32 (p + 8) in
  let! l0 := bget32 (p + 12) in
  let! l1 := bget32 (p + 16) in
  let! type := bget32 (p + 20) in
  if nz (b0 + W32 * b1) || nz (l0 + W32 * l1) || nz type then
    puti (s32 (b0 + W32 * b1)) ;;;
    ret (inl (u32 (p + 24), u32 (mmap_len + 24)))
  else ret (inr mmap_len).

Lemma e820_loop smap n k i s :
  0 ≤ row s ≤ CRT_ROWS → memory_map (pmem s) smap n → 0 ≤ i → i + Z.of_nat k = n →
  runs (loop (S k) e820_round (smap + 24 * i, 24 * i)) s (λ r s', r = 24 * n ∧ shown s s').
Proof.
  revert i s. induction k as [|k IH]; intros i s Hrow Hm Hi Hn; apply loop_S; unfold e820_round at 1;
    do 5 (eapply runs_bind_eq; [reflexivity|]); fold (e820_entry (pmem s) (smap + 24 * i)); pose proof Hm as [H0 H1 H2 _ H3 H4].
  - replace i with n by lia. rewrite H4. apply runs_ret. split; [done|]. by constructor.
  - destruct (H3 i ltac:(lia)) as [-> Hb].
    eapply runs_bind_mono; [apply puti_run; [done|apply s32_base; [apply load32_range|done]]|].
    intros ? s1 Hs. apply runs_ret. unfold ELFHDR in H2. rewrite !u32_small by (unfold W32; lia).
    replace (smap + 24 * i + 24) with (smap + 24 * (i + 1)) by lia. replace (24 * i + 24) with (24 * (i + 1)) by lia.
    eapply runs_mono; [apply (IH (i + 1) s1); [apply Hs|by apply (memory_map_shown s s1)|lia|lia]|].
    intros r s2 [-> Hs2]. split; [done|]. by transitivity s1.
Qed.

(** The multiboot information says where the map is. *)
Definition info_set (m m' : memory) (smap n : Z) : Prop :=
  load32 m' mmap_length = 24 * n ∧ load32 m' mmap_addr = smap ∧
  ∀ a, 0 ≤ a < W32 → ¬ on_screen a → ¬ scratch a → ¬ mmap_fields a → load8 m' a = load8 m a.

Lemma parse_e820_run smap n s :
  0 ≤ row s ≤ CRT_ROWS → memory_map (pmem s) smap n →
  runs (parse_e820 smap) s (λ _ s', info_set (pmem s) (pmem s') smap n ∧ 0 ≤ row s' ≤ CRT_ROWS).
Proof.
  intros Hrow Hm. unfold parse_e820. eapply runs_bind_mono; [apply putline_run; [done|vm_compute; lia]|].
  intros [] s1 Hs1. apply (memory_map_shown s s1) in Hm as Hm1; [|done]. destruct Hm as [H0 H1 H2 _ _ _].
  eapply runs_bind_mono.
  { apply (loopw_runs (S (Z.to_nat n))); [unfold ELFHDR, W32 in *; lia|].
    pose proof (e820_loop smap n (Z.to_nat n) 0 s1 (sh_row _ _ Hs1) Hm1) as Hl. rewrite Z.mul_0_r, Z.add_0_r in Hl. apply Hl; lia. }
  intros r s2 [-> Hs2]. assert (shown s s2) as [Hm2 Hr2] by by transitivity s1.
  eapply runs_bind_eq; [reflexivity|]. apply (runs_of_eq _ _ _ _ _ eq_refl). split.
  - unfold info_set. simpl. split; [rewrite load32_store32_ne by lay; apply load32_store32_eq; lay|].
    split; [apply load32_store32_eq; lay|]. intros a Ha Hn Hns Hf. rewrite !load8_store32_ne by lay. by apply Hm2.
  - erewrite row_same; [exact Hr2|]. intros a Ha. simpl. by rewrite !load8_store32_ne by lay.
Qed.

Lemma find_bootable_run mbr lba s :
  boots_from (pmem s) mbr lba → runs (find_bootable mbr) s (λ r s', r = Some lba ∧ s' = s).
Proof.
  intros (i & Hi & Hno & Hb & Hlba).
  apply (for_exit_runs (λ j t, j ≤ i ∧ t = s)); [lia|split; [lia|done]| |intros t [? _]; lia].
  intros j t Hj [Hji ->]. eapply runs_bind_eq; [reflexivity|]. destruct (decide (j = i)) as [->|Hne].
  - rewrite Hb, Z.eqb_refl. eapply runs_bind_eq; [reflexivity|]. rewrite Hlba. by apply runs_ret.
  - rewrite (proj2 (Z.eqb_neq _ _) (Hno j ltac:(lia))). apply runs_ret. split; [lia|done].
Qed.

(** C19: the boot loader starts the kernel that is on the disk.  When the drive answers, a
    partition is bootable, the map of the BIOS ends and has no base address with the low
    word 0x80000000, and the partition holds an ELF file whose segments fit, lie above the
    loader and its buffer and are not loaded over each other, [boot1main] ends with a jump
    to the entry of the file (as a physical address) with the magic number and the address
    of the multiboot information, which describes the memory map; each segment of the file
    is in memory at its address, and memory outside of the whole sectors around the
    segments, of the header, of the screen and of the variables of the loader is
    unchanged. *)
Theorem boot1main_loads dev mbr smap lba n s :
  load32 (pmem s) mboot_info_addr = mboot_info_flags →
  0 ≤ mbr → mbr + 512 ≤ BOOT1 → boots_from (pmem s) mbr lba → memory_map (pmem s) smap n → kernel_image lba →
  runs (boot1main dev mbr smap) s (λ r s', r = (Z.land (iword lba 24) 16777215, MBOOT_INFO_MAGIC, mboot_info_addr) ∧
    load32 (pmem s') mboot_info_addr = mboot_info_flags ∧
    load32 (pmem s') mmap_length = 24 * n ∧ load32 (pmem s') mmap_addr = smap ∧ memory_map (pmem s') smap n ∧
    (∀ k, 0 ≤ k < i_phnum lba → ∀ i, 0 ≤ i < i_memsz lba k → ¬ on_screen (i_va lba k + i) →
      load8 (pmem s') (i_va lba k + i) = image lba (i_offset lba k + i)) ∧
    (∀ a, 0 ≤ a < W32 → ¬ on_screen a → ¬ scratch a → ¬ mmap_fields a → ¬ (ELFHDR ≤ a < ELFHDR + 4096) →
      (∀ k, 0 ≤ k < i_phnum lba → ¬ (i_lo lba k ≤ a < i_hi lba k)) → load8 (pmem s') a = load8 (pmem s) a)).
Proof.
  intros Hfl Hmbr Hmbr' Hboot Hmap Hk. unfold boot1main. eapply runs_bind_eq; [reflexivity|]. set (s0 := set_row 3 s).
  assert (shown s s0) as H0 by by apply set_row_shown.
  eapply runs_bind_mono; [apply (putline_run _ s0); [apply H0|vm_compute; lia]|]. intros [] s1 H1.
  assert (shown s s1) as H01 by by transitivity s0. clear H0 H1 s0.
  eapply runs_bind_mono; [apply (find_bootable_run mbr lba), (boots_from_ext (pmem s)); [|done]|].
  { intros a Ha. apply (sh_mem _ _ H01); lay. }
  intros r s1' [-> ->]. eapply runs_bind_mono; [apply (parse_e820_run smap n s1); [apply H01|by apply (memory_map_shown s)]|].
  intros [] s2 [(Hlen & Haddr & H2) Hr2]. eapply runs_bind_mono; [apply (putline_run _ s2); [done|vm_compute; lia]|].
  intros [] s3 H3. eapply runs_bind_mono; [by apply load_kernel_run|]. intros e s4 (-> & [_ Hseg Hrest]).
  assert (∀ a, 0 ≤ a < ELFHDR → load8 (pmem s4) a = load8 (pmem s3) a) as Hlow.
  { intros a Ha. apply Hrest; [lay|lay|]. intros k Hlt. pose proof (ki_header _ Hk k Hlt). lay. }
  eapply runs_bind_mono; [apply (putline_run _ s4); [erewrite row_same; [apply H3|intros a Ha; apply Hlow; lay]|vm_compute; lia]|].
  intros [] s5 H5. apply runs_ret. split; [done|].
  assert (∀ a, 0 ≤ a < ELFHDR → ¬ scratch a → load8 (pmem s5) a = load8 (pmem s2) a) as Hlow5.
  { intros a Ha Hs. rewrite (sh_mem _ _ H5), Hlow, (sh_mem _ _ H3) by (done || lay). done. }
  assert (∀ a, 0 ≤ a < W32 → ¬ on_screen a → ¬ scratch a → ¬ mmap_fields a → load8 (pmem s2) a = load8 (pmem s) a) as Hs2.
  { intros a Ha Hn Hs Hf. rewrite H2 by done. by apply (sh_mem _ _ H01). }
  split; [rewrite <- Hfl; apply load32_ext; intros i Hi; rewrite Hlow5, Hs2 by lay; done|].
  split; [rewrite <- Hlen; apply load32_ext; intros i Hi; apply Hlow5; lay|].
  split; [rewrite <- Haddr; apply load32_ext; intros i Hi; apply Hlow5; lay|]. split.
  { eapply memory_map_ext; [|exact Hmap]. intros a Ha. pose proof (mm_start _ _ _ Hmap). pose proof (mm_limit _ _ _ Hmap).
    pose proof (mm_apart _ _ _ Hmap a Ha). rewrite Hlow5, Hs2 by lay. done. }
  split.
  - intros k Hlt i Hi Hns. destruct (ki_fits _ Hk k Hlt) as (Hva & _ & _ & _ & Hlim & _). pose proof (ki_header _ Hk k Hlt) as Hh.
    assert (i_lo lba k ≤ i_va lba k) by (unfold i_lo, sec_lo, SECTOR_SIZE; divlia).
    rewrite (sh_mem _ _ H5) by (done || unfold SECTOR_SIZE in *; lay). by apply Hseg.
  - intros b Hb Hns Hsc Hf Hnh Hno. by rewrite (sh_mem _ _ H5), Hrest, (sh_mem _ _ H3), Hs2.
Qed.

End loader.

(** ** A small machine *)

(** The second partition starts at sector 63 with an ELF file: one segment of 1000 bytes at
    offset 4096, for address 0xc0100000; the sectors of the segment start with their number. *)
Definition demo_elf : memory :=
  store32 72 1000 (store32 60 3222274048 (store32 56 4096 (store32 44 1 (store32 28 52 (store32 24 3222274060
    (store32 0 ELF_MAGIC ∅)))))).
#[local] Instance demo_hw : BootHw := {|
  hw_sector := λ sec, if sec =? 63 then demo_elf else store8 0 sec ∅;
  hw_status := λ t, if t mod 3 =? 2 then 64 else 128;
  row_addr := 39000; puti_str_addr := 39004; mboot_info_addr := 40000 |}.
Definition demo_boot1 : boot1 := {|
  pmem := store32 40000 64 (store32 32788 1 (store32 32780 654336 (store8 (31744 + 462) 128 (store32 (31744 + 470) 63 ∅))));
  ide_regs := ∅; reads := 0 |}.

Lemma demo_layout_ok : loader_layout.
Proof. constructor; vm_compute; (split; discriminate) || (left; discriminate). Qed.

(** After row 24, the last of the screen, [putline] goes on with row 25. *)
Lemma putline_below_screen :
  runs (putline [65]) (set_row 24 demo_boot1) (λ _ s', row s' = 25 ∧ load8 (pmem s') (video + 2 * 80 * CRT_ROWS) = 65).
Proof. vm_compute. by split. Qed.

Lemma demo_drive_ready : drive_ready.
Proof.
  intros t. exists (Z.to_nat ((2 - t) mod 3)). pose proof (Z.mod_pos_bound (2 - t) 3 ltac:(lia)).
  rewrite Z2Nat.id by lia. split; [unfold W32; lia|]. simpl.
  assert ((t + (2 - t) mod 3) mod 3 = 2) as -> by divlia. done.
Qed.

Lemma demo_phnum : i_phnum 63 = 1 ∧ i_va 63 0 = 1048576 ∧ i_memsz 63 0 = 1000 ∧ i_offset 63 0 = 4096.
Proof. by vm_compute. Qed.

Lemma demo_kernel_image : kernel_image 63.
Proof.
  destruct demo_phnum as (En & Ev & Em & Eo). constructor; [lia|lia|by vm_compute| | | |].
  - rewrite En. vm_compute. done.
  - rewrite En. intros k Hk. replace k with 0 by lia. rewrite Ev, Em, Eo. repeat split; try done; vm_compute; done.
  - rewrite En. intros k Hk. replace k with 0 by lia. unfold i_lo. rewrite Ev. by vm_compute.
  - rewrite En. intros. lia.
Qed.

Lemma boot1main_loads_witness :
  runs (boot1main 128 31744 32768) demo_boot1 (λ r s', r = (1048588, 732803074, 40000) ∧
    load32 (pmem s') (40000 + 44) = 24 ∧ load8 (pmem s') 1048576 = 71 ∧ load8 (pmem s') (1048576 + 512) = 72).
Proof.
  eapply runs_mono.
  - apply (boot1main_loads demo_layout_ok demo_drive_ready 128 31744 32768 63 1 demo_boot1); [by vm_compute|lia|by vm_compute| | |apply demo_kernel_image].
    + exists 1. split; [lia|]. split; [intros j Hj; replace j with 0 by lia; by vm_compute|]. by vm_compute.
    + constructor; [lia|lia|by vm_compute| | |by vm_compute]; [intros a Ha; unfold variable, scratch, PUTI_LEN; simpl; lia|]. intros i Hi. replace i with 0 by lia. by vm_compute.
  - intros r s' (-> & _ & Hlen & _ & _ & Hseg & _). split; [vm_compute; reflexivity|]. split; [exact Hlen|]. specialize (Hseg 0).
    rewrite (proj1 demo_phnum), (proj1 (proj2 demo_phnum)) in Hseg. specialize (Hseg ltac:(lia)).
    rewrite (proj1 (proj2 (proj2 demo_phnum))), (proj2 (proj2 (proj2 demo_phnum))) in Hseg.
    pose proof (Hseg 0 ltac:(lia) ltac:(unfold on_screen, video, CRT_ROWS; lia)) as E0.
    pose proof (Hseg 512 ltac:(lia) ltac:(unfold on_screen, video, CRT_ROWS; lia)) as E1.
    rewrite Z.add_0_r in E0. split; [rewrite E0|rewrite E1]; vm_compute; reflexivity.
Defined.
